(* ===== verification/_CoqProject ===== *)
-Q . S2P
Prelude.v
State.v
Spinlock.v
Queue.v
Boot.v
Cstring.v
Kalloc.v
Vm.v
Uspace.v
Ptable.v
Uvm.v
Ufree.v
Printf.v
Proc.v
Sched.v
Mlfq.v
Copyio.v
Sleeplock.v
Console.v
Tty.v
Pipe.v
Disk.v
Bio.v
Bcache.v
Log.v
LogCrash.v
LogWrite.v
LogOps.v
Fs.v
FsRead.v
FsName.v
File.v
Lifecycle.v
Uproc.v
Reap.v
Fork.v
Zombie.v
Exec.v
Trapret.v
Syscall.v
Trap.v
Alarm.v
Start.v
Ulib.v
Uprog.v
Uprintf.v
Ucmd.v
Utest.v
Umalloc.v
Grep.v
Shell.v
Mkfs.v
MkfsImage.v
MkfsMain.v
