(* ===== verification/Prelude.v ===== *)
(** A verification of the xv6 kernel for RISC-V in src/initial-xv6/src, with the
    round-robin, lottery and multi-level feedback schedulers, the system-call
    counters and the alarms this repository adds, and of its user programs: the
    shell, grep, the commands, the user library, and mkfs, which makes the disk image.

    * The program and its model

    A C function is a Rocq function of the same name.  Kernel code runs in the
    monad [M] of this file: it takes the interferences of the rest of the machine
    and a state, and ends with a value, a [panic], a memory fault (undefined
    behaviour: a null or out-of-bounds access), or blocked.  The interferences
    are state changes that other harts and processes make; one is used up
    whenever the code spins on a lock or gives up the processor ([swtch]).
    Integers are [Z], wrapped where the C type wraps ([u8], [u32], [u64], [s32]).
    The state [kstate] (State.v) has a record per group of globals:

    - [k_hw]: control registers, struct cpu, the spin locks (riscv.h, proc.h,
      spinlock.h);
    - [k_ps]: the process table, the feedback queues, pids, ticks (proc.c);
    - [k_mm]: physical memory as bytes, the free list (kalloc.c);
    - [k_io]: UART, console, PLIC (uart.c, console.c, plic.c);
    - [k_fs]: files, inodes, buffers, the log, the disk (file.c, fs.c, bio.c,
      log.c, virtio_disk.c).

    Pointers to elements of the kernel's static arrays are indices; pages and
    what lives in them (page tables, trapframes, pipes, user memory) are bytes of
    physical memory at their addresses.

    User programs that are about their system calls are interaction trees, run
    against any environment that answers the calls (Uprog.v); the parsers and
    matchers and the allocator are functions on their data; mkfs is a function on
    the blocks of the image.

    * The files, in dependency order

    - Prelude: integers, the monad, its loops, the weakest-precondition rules
      ([wp] total, [wlp] up to blocking, [hands] up to the next interference,
      [dies] for panics).
    - State: constants and structs.  Boot: a concrete state for the witnesses.
    - Spinlock: spinlock.c, interrupts, mycpu and myproc.
    - Queue: multique, enqueue and dequeue of proc.c.
    - Cstring: string.c on byte memory.  Kalloc: kalloc.c.  Vm: vm.c.
      Uspace: what vm.c means for the user's view of memory.
    - Ptable: page tables in memory as finite maps.  Uvm: uvmalloc, uvmdealloc and
      uvmcopy on them.  Ufree: freewalk and uvmfree.
    - Printf: printf.c and the polled output of uart.c.
    - Proc: sleep, wakeup, yield, sched, kill and the rest of proc.c that does
      not allocate.  Sched: scheduler and rand.  Mlfq: the boost and demotion in
      usertrap.
    - Copyio: either_copyin and either_copyout, loops that sleep.
      Sleeplock: sleeplock.c.  Console: console.c and the buffered uart.c.
      Tty: the console as a line editor.  Pipe: pipe.c.  Disk: virtio_disk.c.
    - Bio: bio.c, and the interface [BufCache] it implements.  Bcache: bio.c as
      an LRU cache.  Log: log.c, generic over [BufCache].  LogCrash: its crash
      safety over an ideal cache.  LogWrite: log_write.  LogOps: the operations
      begin_op admits and the room they have.
    - Fs: fs.c.  FsRead: reading files through the cache.  FsName: the inode table
      and path names.  File: file.c and pipealloc.
    - Lifecycle: allocproc, freeproc, fork, exit, wait, waitx.  Uproc: the page
      tables of processes and growproc.  Reap: freeproc and wait.  Fork: allocproc
      and fork.  Zombie: exit.
    - Exec: exec.c.  Trapret: usertrapret, forkret.  Syscall: syscall.c, sysproc.c,
      sysfile.c.  Trap: trap.c, plic.c, main.c.  Alarm: the alarms, across trap.c
      and sysproc.c.  Start: start.c.
    - Ulib: the string routines of user/ulib.c.  Uprog: user programs and their
      system calls.  Uprintf: user/printf.c.  Ucmd: cat, wc, echo, mkdir, rm, ln,
      kill, zombie, ls, syscount, init.  Utest: forktest, stressfs, schedulertest,
      grind.  Umalloc: user/umalloc.c.  Grep: user/grep.c.  Shell: user/sh.c.
    - Mkfs: mkfs/mkfs.c.  MkfsImage and MkfsMain: the image it makes.

    * What is proved

    - Locks: acquire returns exactly at the first attempt that finds the lock free,
      whatever other harts do; balanced critical sections, and that misuse panics
      (Spinlock).
    - Scheduling: no lost wakeup, sleep keeping the caller's lock until it has the
      process's own, beside any other harts; wakeup and kill exact, yield (Proc); the queues
      refine lists (Queue); the choice of each scheduler, bounded waiting under
      round robin, the ticket the lottery never draws (Sched); boost and
      demotion, the boost skipping every other process (Mlfq); alarms save and
      restore all registers, do not nest, and an unmatched sigreturn faults
      (Alarm).
    - Processes: fork makes a complete copy, sharing the files (Fork); exit gives
      them up, hands over the children and wakes the parent (Zombie); wait collects the
      zombie and returns all its memory (Reap); sbrk grows and shrinks (Uproc).
    - Memory: kinit frees every page (Kalloc), the page walk against the Sv39
      definition and copies to and from user memory (Uspace); the page-table
      routines on finite maps (Ptable), the copy of an address space page by page
      and its clean failure (Uvm), no page lost when tables are made and freed
      (Ufree, Uproc); string routines (Cstring), the pipe's ring buffer across the
      wrap-around of its counters (Pipe).
    - Storage: commit is atomic over a crash after any of its writes, in the order
      it issues them (LogCrash), log_write absorbs
      repeated writes (LogWrite), admitted operations never overflow the log
      (LogOps), the buffer cache keeps its list, its recency order and one buffer
      per block (Bcache); a read returns the bytes of the file (FsRead) and a path
      name leads where its elements lead (FsName).
    - The disk image: it is the file system the kernel reads, its free map is
      exact, and its log is one block short of what begin_op admits (MkfsMain).
    - Console, output and calls: the line editor (Tty), printf sends the formatted
      text, numbers read back (Printf, Uprintf), getSysCount (Syscall).
    - User programs: grep's matcher against the language of its patterns and its
      output against the lines of its input (Grep); the shell's parser against
      its grammar, its words as C strings, and the descriptors of a pipeline
      (Shell); the heap as the blocks of the ring in memory and the live ones, merged
      when freed (Umalloc); what
      cat, wc and echo write, that init keeps a shell, the names syscount gets
      wrong (Ucmd); the verdict of forktest, the averages of schedulertest and the
      random numbers of grind (Utest).

    * Bounds and fuel

    Loops over arrays run over their indices.  A loop that follows pointers has
    fuel for the length a well-formed structure has (NBUF + 1 for the buffer
    list, proved enough in Bcache; the number of headers for the free list of
    the user allocator, proved enough in Umalloc); a loop that sleeps has as many
    rounds as there are interferences, so it blocks before its fuel ends;
    page-table walks have their three levels.  The shell's parser has 4 units of
    fuel per byte, proved enough for every line.  Running out of fuel is a fault or
    a value of its own, and the theorems exclude it.  User programs have no fuel: a
    tree ends if some number of steps ends it.

    * Not modelled

    entry.S, swtch.S, trampoline.S and kernelvec.S are register moves, seen here
    as the interference point of [swtch] and the end of [usertrapret].  Memory is
    sequentially consistent and instruction fetch, the MMU of user accesses and
    the UART's electrical side are outside.  The virtio device is a function of
    the state that runs when it is notified.  ramdisk.c is not linked.  Of the user
    programs usertests.c and alarmtest.c are left out: they are sequences of system
    calls that test the kernel, alarmtest with asynchronous handlers and inline
    assembly. *)

From stdpp Require Export base numbers list gmap strings fin_maps.
From Stdlib Require Export ZArith Lia.

#[global] Open Scope Z_scope.
#[global] Coercion Z.of_nat : nat >-> Z.

(** Integer operations stay folded in proofs. *)
#[global] Arguments Z.testbit : simpl never.
#[global] Arguments Z.land : simpl never.
#[global] Arguments Z.lor : simpl never.
#[global] Arguments Z.lnot : simpl never.
#[global] Arguments Z.shiftl : simpl never.
#[global] Arguments Z.shiftr : simpl never.
#[global] Arguments Z.modulo : simpl never.
#[global] Arguments Z.div : simpl never.
#[global] Arguments Z.pow : simpl never.

(** ** Machine integers

    C integers are [Z] with the wrap-around of their type written out. *)
Definition u8 (z : Z) : Z := z mod 2 ^ 8.
Definition u32 (z : Z) : Z := z mod 2 ^ 32.
Definition u64 (z : Z) : Z := z mod 2 ^ 64.
Definition s8 (z : Z) : Z := (z + 2 ^ 7) mod 2 ^ 8 - 2 ^ 7.
Definition s32 (z : Z) : Z := (z + 2 ^ 31) mod 2 ^ 32 - 2 ^ 31.

(** Truth of a C integer used as a condition. *)
Definition istrue (z : Z) : bool := negb (z =? 0).

(** A comparison as the C integer 0 or 1. *)
Definition b2z (b : bool) : Z := if b then 1 else 0.

Lemma u32_range z : 0 <= u32 z < 2 ^ 32.
Proof. apply Z.mod_pos_bound. lia. Qed.
Lemma u64_range z : 0 <= u64 z < 2 ^ 64.
Proof. apply Z.mod_pos_bound. lia. Qed.
Lemma u8_range z : 0 <= u8 z < 2 ^ 8.
Proof. apply Z.mod_pos_bound. lia. Qed.
Lemma s32_range z : - 2 ^ 31 <= s32 z < 2 ^ 31.
Proof. unfold s32. pose proof (Z.mod_pos_bound (z + 2 ^ 31) (2 ^ 32)). lia. Qed.
Lemma u32_small z : 0 <= z < 2 ^ 32 -> u32 z = z.
Proof. apply Z.mod_small. Qed.
Lemma u64_small z : 0 <= z < 2 ^ 64 -> u64 z = z.
Proof. apply Z.mod_small. Qed.
Lemma s32_small z : - 2 ^ 31 <= z < 2 ^ 31 -> s32 z = z.
Proof. intros. unfold s32. rewrite Z.mod_small; lia. Qed.
Lemma u32_s32 z : u32 (s32 z) = u32 z.
Proof.
  unfold u32, s32. pose proof (Z.div_mod (z + 2 ^ 31) (2 ^ 32) ltac:(lia)) as H.
  replace ((z + 2 ^ 31) mod 2 ^ 32 - 2 ^ 31) with (z + - ((z + 2 ^ 31) / 2 ^ 32) * 2 ^ 32) by lia.
  by apply Z.mod_add.
Qed.
Lemma s32_u32 z : s32 (u32 z) = s32 z.
Proof. unfold s32, u32. rewrite Zplus_mod_idemp_l. reflexivity. Qed.

(** The bytes of a string literal. *)
Definition char_code (c : Ascii.ascii) : Z := Z.of_N (Ascii.N_of_ascii c).
Definition chars (s : string) : list Z := char_code <$> String.list_ascii_of_string s.

(** ** The kernel monad

    A kernel routine runs on a state [S] and an environment: the list of
    interferences other harts and kernel threads perform whenever this
    thread gives up the processor ([swtch]) or spins.  A run ends with a
    value, a [panic], a memory fault (undefined behaviour of the C code),
    or blocked: the environment never lets this thread go on. *)
Inductive outcome (S A : Type) : Type :=
| Ret (a : A) (e : list (S -> S)) (s : S)
| Panic (msg : string) (s : S)
| Fault (msg : string) (s : S)
| Blocked (s : S).
Arguments Ret {S A} a e s.
Arguments Panic {S A} msg s.
Arguments Fault {S A} msg s.
Arguments Blocked {S A} s.

Definition M (S A : Type) : Type := list (S -> S) -> S -> outcome S A.

Section monad.
Context {S : Type}.

Definition ret {A} (a : A) : M S A := fun e s => Ret a e s.

Definition bind {A B} (m : M S A) (k : A -> M S B) : M S B := fun e s =>
  match m e s with
  | Ret a e' s' => k a e' s'
  | Panic msg s' => Panic msg s'
  | Fault msg s' => Fault msg s'
  | Blocked s' => Blocked s'
  end.

Definition get : M S S := fun e s => Ret s e s.
Definition gets {A} (f : S -> A) : M S A := fun e s => Ret (f s) e s.
Definition modify (f : S -> S) : M S unit := fun e s => Ret tt e (f s).
Definition panic {A} (msg : string) : M S A := fun e s => Panic msg s.
Definition fault {A} (msg : string) : M S A := fun e s => Fault msg s.

(** Let the other threads run until they hand control back. *)
Definition interfere : M S unit := fun e s =>
  match e with
  | [] => Blocked s
  | f :: e' => Ret tt e' (f s)
  end.

Definition when (b : bool) (m : M S unit) : M S unit :=
  if b then m else ret tt.

(** [for] loop over the given indices; the body answers [Some r] to leave
    the loop early with [r] ([break], [return], [goto]) and [None] to go on. *)
Fixpoint mfor {B R} (l : list B) (body : B -> M S (option R)) : M S (option R) :=
  match l with
  | [] => ret None
  | x :: l' => bind (body x) (fun r =>
      match r with Some v => ret (Some v) | None => mfor l' body end)
  end.

(** [for] loop that always runs to the end. *)
Fixpoint mforall {B} (l : list B) (body : B -> M S unit) : M S unit :=
  match l with
  | [] => ret tt
  | x :: l' => bind (body x) (fun _ => mforall l' body)
  end.

(** [for] loop with an accumulator; the body answers [inr r] to leave early. *)
Fixpoint mfold {A B R} (l : list B) (acc : A) (body : A -> B -> M S (A + R)) : M S (A + R) :=
  match l with
  | [] => ret (inl acc)
  | x :: l' => bind (body acc x) (fun r =>
      match r with inl acc' => mfold l' acc' body | inr v => ret (inr v) end)
  end.

(** [while(1)] loop on a loop variable, with at most [fuel] iterations;
    running out of fuel is reported as a fault of its own. *)
Fixpoint mloop {B R} (fuel : nat) (x : B) (body : B -> M S (B + R)) : M S R :=
  match fuel with
  | O => fault "out of fuel"
  | Datatypes.S fuel' => bind (body x) (fun r =>
      match r with inl x' => mloop fuel' x' body | inr v => ret v end)
  end.
End monad.

Declare Scope kernel_scope.
Delimit Scope kernel_scope with K.
Notation "x <- m ;; k" := (bind m (fun x => k))
  (at level 100, m at next level, right associativity) : kernel_scope.
Notation "m ;; k" := (bind m (fun _ => k))
  (at level 100, right associativity) : kernel_scope.
#[global] Open Scope kernel_scope.

(** ** Weakest preconditions

    [wp] is total: the routine returns, without panic, fault or blocking.
    [wlp] allows the thread to be blocked for ever by its environment and
    nothing else. *)
Section wp.
Context {S : Type}.
Implicit Types (e : list (S -> S)) (s : S).

Definition wp {A} (m : M S A) (e : list (S -> S)) (s : S)
    (Q : A -> list (S -> S) -> S -> Prop) : Prop :=
  match m e s with Ret a e' s' => Q a e' s' | _ => False end.

Definition wlp {A} (m : M S A) (e : list (S -> S)) (s : S)
    (Q : A -> list (S -> S) -> S -> Prop) : Prop :=
  match m e s with Ret a e' s' => Q a e' s' | Blocked _ => True | _ => False end.

Lemma wp_ret {A} (a : A) e s (Q : A -> _ -> _ -> Prop) : Q a e s -> wp (ret a) e s Q.
Proof. done. Qed.
Lemma wp_bind {A B} (m : M S A) (k : A -> M S B) e s Q :
  wp m e s (fun a e' s' => wp (k a) e' s' Q) -> wp (bind m k) e s Q.
Proof. unfold wp, bind. by destruct (m e s). Qed.
Lemma wp_assoc {A B C} (m : M S A) (f : A -> M S B) (g : B -> M S C) e s Q :
  wp (bind (bind m f) g) e s Q -> wp (bind m (fun a => bind (f a) g)) e s Q.
Proof. unfold wp, bind. by destruct (m e s). Qed.
Lemma wp_mono {A} (m : M S A) e s (P Q : A -> list (S -> S) -> S -> Prop) :
  wp m e s P -> (forall a e' s', P a e' s' -> Q a e' s') -> wp m e s Q.
Proof. unfold wp. destruct (m e s); eauto. Qed.
Lemma wp_gets {A} (f : S -> A) e s (Q : A -> _ -> _ -> Prop) : Q (f s) e s -> wp (gets f) e s Q.
Proof. done. Qed.
Lemma wp_modify f e s (Q : unit -> list (S -> S) -> S -> Prop) :
  Q tt e (f s) -> wp (modify f) e s Q.
Proof. done. Qed.
Lemma wp_when (b : bool) m e s (Q : unit -> list (S -> S) -> S -> Prop) :
  (b = true -> wp m e s Q) -> (b = false -> Q tt e s) -> wp (when b m) e s Q.
Proof. destruct b; cbn; intros H1 H2; [by apply H1 | by apply H2]. Qed.
Lemma wp_elim {A} (m : M S A) e s Q :
  wp m e s Q -> exists a e' s', m e s = Ret a e' s' /\ Q a e' s'.
Proof. unfold wp. destruct (m e s) as [a e' s'| | |]; [eauto | done..]. Qed.
(** A total specification that does not use the environment, as a run. *)
Lemma wp_run {A} (m : M S A) e s (Q : A -> S -> Prop) :
  wp m e s (fun a e' s' => e' = e /\ Q a s') -> exists a s', m e s = Ret a e s' /\ Q a s'.
Proof. unfold wp. destruct (m e s) as [a e' s'| | |]; [intros [-> ?]; eauto | done..]. Qed.
Lemma wp_run_tt (m : M S unit) e s (Q : S -> Prop) :
  wp m e s (fun _ e' s' => e' = e /\ Q s') -> exists s', m e s = Ret tt e s' /\ Q s'.
Proof. intros H. apply wp_run in H as ([] & s' & ? & ?). eauto. Qed.
Lemma wp_intro {A} (m : M S A) e s a e' s' (Q : A -> list (S -> S) -> S -> Prop) :
  m e s = Ret a e' s' -> Q a e' s' -> wp m e s Q.
Proof. unfold wp. intros -> ?. done. Qed.

Lemma wlp_ret {A} (a : A) e s (Q : A -> _ -> _ -> Prop) : Q a e s -> wlp (ret a) e s Q.
Proof. done. Qed.
Lemma wlp_bind {A B} (m : M S A) (k : A -> M S B) e s Q :
  wlp m e s (fun a e' s' => wlp (k a) e' s' Q) -> wlp (bind m k) e s Q.
Proof. unfold wlp, bind. by destruct (m e s). Qed.
Lemma wlp_mono {A} (m : M S A) e s (P Q : A -> list (S -> S) -> S -> Prop) :
  wlp m e s P -> (forall a e' s', P a e' s' -> Q a e' s') -> wlp m e s Q.
Proof. unfold wlp. destruct (m e s); eauto. Qed.
Lemma wp_wlp {A} (m : M S A) e s Q : wp m e s Q -> wlp m e s Q.
Proof. unfold wp, wlp. destruct (m e s); eauto. Qed.
Lemma wlp_interfere e s (Q : unit -> list (S -> S) -> S -> Prop) :
  (forall f e', e = f :: e' -> Q tt e' (f s)) -> wlp interfere e s Q.
Proof. unfold wlp, interfere. destruct e; eauto. Qed.

Lemma wp_interfere f e s (Q : unit -> list (S -> S) -> S -> Prop) :
  Q tt e (f s) -> wp interfere (f :: e) s Q.
Proof. done. Qed.

(** [hands m e s Q]: the routine gives up the processor in a state satisfying
    [Q] and the environment never lets it go on; with an empty environment
    this is the state at the first [interfere]. *)
Definition hands {A} (m : M S A) e s (Q : S -> Prop) : Prop :=
  match m e s with Blocked s' => Q s' | _ => False end.
Lemma hands_bind {A B} (m : M S A) (k : A -> M S B) e s Q :
  wp m e s (fun a e' s' => hands (k a) e' s' Q) -> hands (bind m k) e s Q.
Proof. unfold wp, hands, bind. by destruct (m e s). Qed.
Lemma hands_bind_l {A B} (m : M S A) (k : A -> M S B) e s Q :
  hands m e s Q -> hands (bind m k) e s Q.
Proof. unfold hands, bind. by destruct (m e s). Qed.
Lemma hands_interfere s (Q : S -> Prop) : Q s -> hands interfere [] s Q.
Proof. done. Qed.

Lemma hands_mono {A} (m : M S A) e s (P Q : S -> Prop) :
  hands m e s P -> (forall s', P s' -> Q s') -> hands m e s Q.
Proof. unfold hands. destruct (m e s); auto. Qed.

(** [dies m e s msg]: the routine panics with the message [msg]. *)
Definition dies {A} (m : M S A) e s (msg : string) : Prop := exists s', m e s = Panic msg s'.
Lemma dies_bind {A B} (m : M S A) (k : A -> M S B) e s msg :
  wp m e s (fun a e' s' => dies (k a) e' s' msg) -> dies (bind m k) e s msg.
Proof. unfold wp, dies, bind. by destruct (m e s). Qed.
Lemma dies_panic {A} e s msg : dies (panic msg : M S A) e s msg.
Proof. by exists s. Qed.

(** Loop rules: [Inv done rest] holds before each iteration. *)
Lemma wp_mforall {B} (body : B -> M S unit) (Inv : list B -> list (S -> S) -> S -> Prop)
    l e s (Q : unit -> list (S -> S) -> S -> Prop) :
  Inv l e s ->
  (forall x l' e s, Inv (x :: l') e s -> wp (body x) e s (fun _ e' s' => Inv l' e' s')) ->
  (forall e s, Inv [] e s -> Q tt e s) ->
  wp (mforall l body) e s Q.
Proof.
  intros HI Hb HQ. revert e s HI. induction l as [|x l IH]; intros e s HI; cbn.
  - by apply HQ.
  - apply wp_bind. eapply wp_mono; [by apply Hb|]. eauto.
Qed.
(** The same for loops over an index range. *)
Lemma seq_rest n k (x : nat) rest : x :: rest = seq k (n - k) ->
  x = k /\ rest = seq (Datatypes.S k) (n - Datatypes.S k) /\ (k < n)%nat.
Proof.
  intros H. destruct (n - k)%nat as [|m] eqn:E; cbn in H; [done|].
  injection H as -> ->. split_and!; [done | f_equal; lia | lia].
Qed.
Lemma seq_done n k : [] = seq k (n - k) -> (k <= n)%nat -> k = n.
Proof. intros H Hk. destruct (n - k)%nat as [|m] eqn:E; [lia | done]. Qed.
Lemma wp_seq (body : nat -> M S unit) (I : nat -> S -> Prop) n e s
    (Q : unit -> list (S -> S) -> S -> Prop) :
  I 0%nat s ->
  (forall k s, (k < n)%nat -> I k s ->
     wp (body k) e s (fun _ e' s' => e' = e /\ I (Datatypes.S k) s')) ->
  (forall s, I n s -> Q tt e s) ->
  wp (mforall (seq 0 n) body) e s Q.
Proof.
  intros H0 Hb HQ.
  eapply (wp_mforall _ (fun rest e' s' => e' = e /\ exists k, rest = seq k (n - k) /\
    (k <= n)%nat /\ I k s')).
  - split; [done|]. exists 0%nat. rewrite Nat.sub_0_r. split_and!; [done | lia | done].
  - intros i rest e' s' (-> & k & Hrest & Hk & HI). apply seq_rest in Hrest as (-> & -> & Hlt).
    eapply wp_mono; [by apply Hb|]. cbn. intros [] e' s'' (-> & HI'). split; [done|].
    exists (Datatypes.S k). split_and!; [done | lia | done].
  - intros e' s' (-> & k & Hrest & Hk & HI). apply seq_done in Hrest as ->; [|done]. by apply HQ.
Qed.
Lemma wp_mfor {B R} (body : B -> M S (option R))
    (Inv : list B -> list (S -> S) -> S -> Prop)
    l e s (Q : option R -> list (S -> S) -> S -> Prop) :
  Inv l e s ->
  (forall x l' e s, Inv (x :: l') e s ->
     wp (body x) e s (fun r e' s' =>
       match r with Some v => Q (Some v) e' s' | None => Inv l' e' s' end)) ->
  (forall e s, Inv [] e s -> Q None e s) ->
  wp (mfor l body) e s Q.
Proof.
  intros HI Hb HQ. revert e s HI. induction l as [|x l IH]; intros e s HI; cbn.
  - by apply HQ.
  - apply wp_bind. eapply wp_mono; [by apply Hb|].
    intros [v|] e' s' Hr; [done | eauto].
Qed.
Lemma wlp_mfor {B R} (body : B -> M S (option R))
    (Inv : list B -> list (S -> S) -> S -> Prop)
    l e s (Q : option R -> list (S -> S) -> S -> Prop) :
  Inv l e s ->
  (forall x l' e s, Inv (x :: l') e s ->
     wlp (body x) e s (fun r e' s' =>
       match r with Some v => Q (Some v) e' s' | None => Inv l' e' s' end)) ->
  (forall e s, Inv [] e s -> Q None e s) ->
  wlp (mfor l body) e s Q.
Proof.
  intros HI Hb HQ. revert e s HI. induction l as [|x l IH]; intros e s HI; cbn.
  - by apply HQ.
  - apply wlp_bind. eapply wlp_mono; [by apply Hb|].
    intros [v|] e' s' Hr; [done | eauto].
Qed.
Lemma wp_mfold {A B R} (body : A -> B -> M S (A + R))
    (Inv : list B -> A -> list (S -> S) -> S -> Prop)
    l acc e s (Q : A + R -> list (S -> S) -> S -> Prop) :
  Inv l acc e s ->
  (forall x l' acc e s, Inv (x :: l') acc e s ->
     wp (body acc x) e s (fun r e' s' =>
       match r with inl acc' => Inv l' acc' e' s' | inr v => Q (inr v) e' s' end)) ->
  (forall acc e s, Inv [] acc e s -> Q (inl acc) e s) ->
  wp (mfold l acc body) e s Q.
Proof.
  intros HI Hb HQ. revert acc e s HI. induction l as [|x l IH]; intros acc e s HI; cbn.
  - by apply HQ.
  - apply wp_bind. eapply wp_mono; [by apply Hb|].
    intros [v|v] e' s' Hr; [eauto | done].
Qed.
Lemma wp_seq_for {R} (body : nat -> M S (option R)) (I : nat -> S -> Prop) n e s
    (Q : option R -> list (S -> S) -> S -> Prop) :
  I 0%nat s ->
  (forall k s, (k < n)%nat -> I k s ->
     wp (body k) e s (fun r e' s' => e' = e /\
       match r with Some v => Q (Some v) e s' | None => I (Datatypes.S k) s' end)) ->
  (forall s, I n s -> Q None e s) ->
  wp (mfor (seq 0 n) body) e s Q.
Proof.
  intros H0 Hb HQ.
  eapply (wp_mfor _ (fun rest e' s' => e' = e /\ exists k, rest = seq k (n - k) /\
    (k <= n)%nat /\ I k s')).
  - split; [done|]. exists 0%nat. rewrite Nat.sub_0_r. split_and!; [done | lia | done].
  - intros i rest e' s' (-> & k & Hrest & Hk & HI). apply seq_rest in Hrest as (-> & -> & Hlt).
    eapply wp_mono; [by apply Hb|]. cbn. intros [v|] e' s'' (-> & HI'); [done|]. split; [done|].
    exists (Datatypes.S k). split_and!; [done | lia | done].
  - intros e' s' (-> & k & Hrest & Hk & HI). apply seq_done in Hrest as ->; [|done]. by apply HQ.
Qed.
Lemma wp_seq_fold {A} (body : A -> nat -> M S (A + Empty_set)) (I : nat -> A -> S -> Prop)
    n acc e s (Q : A + Empty_set -> list (S -> S) -> S -> Prop) :
  I 0%nat acc s ->
  (forall k acc s, (k < n)%nat -> I k acc s ->
     wp (body acc k) e s (fun r e' s' => e' = e /\
       exists acc', r = inl acc' /\ I (Datatypes.S k) acc' s')) ->
  (forall acc s, I n acc s -> Q (inl acc) e s) ->
  wp (mfold (seq 0 n) acc body) e s Q.
Proof.
  intros H0 Hb HQ.
  eapply (wp_mfold _ (fun rest acc e' s' => e' = e /\ exists k, rest = seq k (n - k) /\
    (k <= n)%nat /\ I k acc s')).
  - split; [done|]. exists 0%nat. rewrite Nat.sub_0_r. split_and!; [done | lia | done].
  - intros i rest a e' s' (-> & k & Hrest & Hk & HI). apply seq_rest in Hrest as (-> & -> & Hlt).
    eapply wp_mono; [by apply Hb|]. cbn. intros r e' s'' (-> & a' & -> & HI'). split; [done|].
    exists (Datatypes.S k). split_and!; [done | lia | done].
  - intros a e' s' (-> & k & Hrest & Hk & HI). apply seq_done in Hrest as ->; [|done]. by apply HQ.
Qed.
Lemma wp_mloop {B R} (body : B -> M S (B + R)) (I : B -> list (S -> S) -> S -> Prop)
    (mu : B -> nat) fuel x e s (Q : R -> list (S -> S) -> S -> Prop) :
  (mu x < fuel)%nat -> I x e s ->
  (forall x e s, I x e s ->
     wp (body x) e s (fun r e' s' =>
       match r with
       | inl x' => (mu x' < mu x)%nat /\ I x' e' s'
       | inr v => Q v e' s'
       end)) ->
  wp (mloop fuel x body) e s Q.
Proof.
  intros Hf HI Hb. revert x e s Hf HI.
  induction fuel as [|fuel IH]; intros x e s Hf HI; [lia|]. cbn.
  apply wp_bind. eapply wp_mono; [by apply Hb|].
  intros [x'|v] e' s' Hr; [|done]. destruct Hr. apply IH; [lia|done].
Qed.
End wp.

#[global] Arguments wp : simpl never.
#[global] Arguments wlp : simpl never.
#[global] Arguments hands : simpl never.
#[global] Arguments bind : simpl never.

Create HintDb kernel.
#[export] Hint Resolve wp_ret wlp_ret wp_gets wp_modify : kernel.

(** Run one primitive step of a [wp]/[wlp] goal. *)
Ltac wp_step :=
  lazymatch goal with
  | |- wp (bind _ _) _ _ _ => apply wp_bind
  | |- wp (ret _) _ _ _ => apply wp_ret
  | |- wp (gets _) _ _ _ => apply wp_gets
  | |- wp (modify _) _ _ _ => apply wp_modify
  | |- wlp (bind _ _) _ _ _ => apply wlp_bind
  | |- wlp (ret _) _ _ _ => apply wlp_ret
  | |- wlp (gets _) _ _ _ => apply wp_wlp, wp_gets
  | |- wlp (modify _) _ _ _ => apply wp_wlp, wp_modify
  end.
Ltac wp_steps := repeat wp_step.

(** Use an established specification, weakening its postcondition. *)
Tactic Notation "wp_use" uconstr(H) := eapply wp_mono; [eapply H|].
Tactic Notation "wlp_use" uconstr(H) := eapply wlp_mono; [eapply H|].

(** ** Lists as C arrays *)
Lemma list_lookup_insert_case {A} (l : list A) (i j : nat) (x : A) :
  <[i := x]> l !! j = if decide (i = j /\ (i < length l)%nat) then Some x else l !! j.
Proof.
  case_decide as H.
  - destruct H as [-> ?]. by apply list_lookup_insert_eq.
  - destruct (decide (i = j)) as [->|Hne].
    + rewrite list_insert_ge; [done | lia].
    + by apply list_lookup_insert_ne.
Qed.

Lemma fmap_insert_id {A B} (f : A -> B) (l : list A) i x y :
  l !! i = Some y -> f x = f y -> f <$> <[i := x]> l = f <$> l.
Proof.
  intros Hy Hf. rewrite list_fmap_insert, Hf. apply list_insert_id.
  by rewrite list_lookup_fmap, Hy.
Qed.

Lemma list_filter_all {A} (Pr : A -> Prop) `{!forall x, Decision (Pr x)} (l : list A) :
  Forall Pr l -> filter Pr l = l.
Proof.
  induction 1 as [|x l Hx _ IH]; [done|]. rewrite filter_cons, decide_True by done. by rewrite IH.
Qed.
