(* ===== verification/State.v ===== *)
(** The kernel's data: the structs of proc.h, spinlock.h, sleeplock.h, file.h,
    fs.h, buf.h and the globals of proc.c, trap.c, kalloc.c, uart.c, console.c,
    log.c, bio.c, fs.c and file.c, as one record [kstate] whose fields group
    the globals by component.

    Pointers into the static tables are table indices ([option nat], [None]
    for the null pointer): [proc[NPROC]], [cpus[NCPU]], [ftable.file[NFILE]],
    [itable.inode[NINODE]], [bcache.buf[NBUF]].  Pointers to pages handed out by
    [kalloc] (page tables, trapframes, pipes, user pages) are physical
    addresses in [Z], 0 for the null pointer.  A spin lock embedded in a struct
    is kept in [h_locks] under the name of that struct ([lockid]). *)
From S2P Require Import Prelude.

(** Field updates, unfolded by [usets]. *)
Create HintDb setters.
Ltac usets := repeat autounfold with setters in *; cbn in *.

(** param.h *)
(** the open modes of fcntl.h *)
Definition O_RDONLY : Z := 0x000.
Definition O_WRONLY : Z := 0x001.
Definition O_RDWR : Z := 0x002.
Definition O_CREATE : Z := 0x200.
Definition O_TRUNC : Z := 0x400.

Definition NPROC : nat := 64.
Definition NCPU : nat := 8.
Definition NOFILE : nat := 16.
Definition NFILE : nat := 100.
Definition NINODE : nat := 50.
Definition NDEV : nat := 10.
Definition ROOTDEV : Z := 1.
Definition MAXARG : nat := 32.
Definition MAXOPBLOCKS : Z := 10.
Definition LOGSIZE : Z := MAXOPBLOCKS * 3.
Definition NBUF : nat := 30.
Definition MAXPATH : Z := 128.
#[global] Arguments NPROC : simpl never.
#[global] Arguments NCPU : simpl never.
#[global] Arguments NOFILE : simpl never.

(** memlayout.h and the page constants of riscv.h *)
Definition PGSIZE : Z := 4096.
Definition PGSHIFT : Z := 12.
Definition MAXVA : Z := Z.shiftl 1 (9 + 9 + 9 + 12 - 1).
Definition KERNBASE : Z := 0x80000000.
Definition PHYSTOP : Z := KERNBASE + 128 * 1024 * 1024.
Definition UART0 : Z := 0x10000000.
Definition UART0_IRQ : Z := 10.
Definition VIRTIO0 : Z := 0x10001000.
Definition VIRTIO0_IRQ : Z := 1.
Definition PLIC : Z := 0x0c000000.
Definition TRAMPOLINE : Z := MAXVA - PGSIZE.
Definition TRAPFRAME : Z := TRAMPOLINE - PGSIZE.
Definition KSTACK (p : Z) : Z := TRAMPOLINE - (p + 1) * 2 * PGSIZE.

(** enum procstate *)
Inductive procstate := UNUSED | USED | SLEEPING | RUNNABLE | RUNNING | ZOMBIE.
#[export] Instance procstate_eq_dec : EqDecision procstate.
Proof. solve_decision. Defined.

(** Names of the spin locks of the kernel: the globals, and the locks embedded
    in a process slot, a pipe page, a buffer's or an inode's sleep lock. *)
Inductive lockid :=
| LPid | LWait | LTicks | LKmem | LPr | LCons | LUart | LBcache | LLog | LItable | LFtable | LDisk
| LProc (i : nat) | LPipe (a : Z) | LBuf (i : nat) | LInode (i : nat).
#[export] Instance lockid_eq_dec : EqDecision lockid.
Proof. solve_decision. Defined.

(** Lock names are countable, so the locks form a finite map. *)
Definition lockid_enc (l : lockid) : nat * (nat + Z) :=
  match l with
  | LPid => (0, inl 0) | LWait => (1, inl 0) | LTicks => (2, inl 0) | LKmem => (3, inl 0)
  | LPr => (4, inl 0) | LCons => (5, inl 0) | LUart => (6, inl 0) | LBcache => (7, inl 0)
  | LLog => (8, inl 0) | LItable => (9, inl 0) | LFtable => (10, inl 0) | LDisk => (11, inl 0)
  | LProc i => (12, inl i) | LPipe a => (13, inr a) | LBuf i => (14, inl i)
  | LInode i => (15, inl i)
  end%nat.
Definition lockid_dec (p : nat * (nat + Z)) : option lockid :=
  match p with
  | (0, _) => Some LPid | (1, _) => Some LWait | (2, _) => Some LTicks | (3, _) => Some LKmem
  | (4, _) => Some LPr | (5, _) => Some LCons | (6, _) => Some LUart | (7, _) => Some LBcache
  | (8, _) => Some LLog | (9, _) => Some LItable | (10, _) => Some LFtable | (11, _) => Some LDisk
  | (12, inl i) => Some (LProc i) | (13, inr a) => Some (LPipe a) | (14, inl i) => Some (LBuf i)
  | (15, inl i) => Some (LInode i) | _ => None
  end%nat.
#[export] Instance lockid_countable : Countable lockid.
Proof. refine (inj_countable lockid_enc lockid_dec _). by intros []. Defined.

(** Sleep channels: the addresses the kernel sleeps on. *)
Inductive chan :=
| CNull | CProc (i : nat) | CTicks | CLog | CPipeR (a : Z) | CPipeW (a : Z)
| CConsR | CUartR | CBufLock (i : nat) | CInodeLock (i : nat) | CBufDisk (i : nat) | CDiskFree.
#[export] Instance chan_eq_dec : EqDecision chan.
Proof. solve_decision. Defined.

(** struct spinlock (spinlock.h) *)
Record spinlock := mkspinlock {
  lk_locked : Z;  (* is the lock held? *)
  lk_name : string;
  lk_cpu : option nat  (* the cpu holding the lock *)
}.

Definition set_lk_locked (x : Z) (r : spinlock) : spinlock :=
  mkspinlock x (lk_name r) (lk_cpu r).
Definition set_lk_name (x : string) (r : spinlock) : spinlock :=
  mkspinlock (lk_locked r) x (lk_cpu r).
Definition set_lk_cpu (x : option nat) (r : spinlock) : spinlock :=
  mkspinlock (lk_locked r) (lk_name r) x.
#[export] Hint Unfold set_lk_locked set_lk_name set_lk_cpu : setters.

#[export] Instance spinlock_eq_dec : EqDecision spinlock.
Proof. solve_decision. Defined.

(** struct context (proc.h) *)
Record context := mkcontext {
  ctx_ra : Z;
  ctx_sp : Z;
  ctx_s : list Z  (* s0 .. s11 *)
}.

Definition set_ctx_ra (x : Z) (r : context) : context :=
  mkcontext x (ctx_sp r) (ctx_s r).
Definition set_ctx_sp (x : Z) (r : context) : context :=
  mkcontext (ctx_ra r) x (ctx_s r).
Definition set_ctx_s (x : list Z) (r : context) : context :=
  mkcontext (ctx_ra r) (ctx_sp r) x.
#[export] Hint Unfold set_ctx_ra set_ctx_sp set_ctx_s : setters.

(** struct cpu (proc.h) *)
Record cpu := mkcpu {
  c_proc : option nat;  (* the process running on this cpu, or null *)
  c_context : context;  (* swtch() here to enter scheduler() *)
  c_noff : Z;  (* depth of push_off() nesting *)
  c_intena : Z  (* were interrupts enabled before push_off()? *)
}.

Definition set_c_proc (x : option nat) (r : cpu) : cpu :=
  mkcpu x (c_context r) (c_noff r) (c_intena r).
Definition set_c_context (x : context) (r : cpu) : cpu :=
  mkcpu (c_proc r) x (c_noff r) (c_intena r).
Definition set_c_noff (x : Z) (r : cpu) : cpu :=
  mkcpu (c_proc r) (c_context r) x (c_intena r).
Definition set_c_intena (x : Z) (r : cpu) : cpu :=
  mkcpu (c_proc r) (c_context r) (c_noff r) x.
#[export] Hint Unfold set_c_proc set_c_context set_c_noff set_c_intena : setters.

(** struct proc (proc.h); the lock of slot [i] is [LProc i] *)
Record proc := mkproc {
  p_syscall_count : list Z;
  p_state : procstate;
  p_chan : chan;  (* if non-zero, sleeping on chan *)
  p_killed : Z;
  p_xstate : Z;  (* exit status for the parent's wait *)
  p_pid : Z;
  p_parent : option nat;
  p_kstack : Z;
  p_sz : Z;
  p_pagetable : Z;
  p_trapframe : Z;
  p_context : context;
  p_ofile : list (option nat);
  p_cwd : option nat;
  p_name : list Z;
  p_rtime : Z;
  p_ctime : Z;
  p_etime : Z;
  p_handler : Z;
  p_ticks : Z;
  p_cur_ticks : Z;
  p_alarm_tf : Z;
  p_alarm_on : Z;
  p_in_alarm_handler : Z;
  p_tickets : Z;
  p_arrival_time : Z;
  p_time_slice : Z;
  p_queue_number : Z;
  p_remainingtime : Z;
  p_last_scheduled : Z;
  p_queueticks : Z
}.

Definition set_p_syscall_count (x : list Z) (r : proc) : proc :=
  mkproc x (p_state r) (p_chan r) (p_killed r) (p_xstate r) (p_pid r) (p_parent r) (p_kstack r)
    (p_sz r) (p_pagetable r) (p_trapframe r) (p_context r) (p_ofile r) (p_cwd r) (p_name r)
    (p_rtime r) (p_ctime r) (p_etime r) (p_handler r) (p_ticks r) (p_cur_ticks r) (p_alarm_tf r)
    (p_alarm_on r) (p_in_alarm_handler r) (p_tickets r) (p_arrival_time r) (p_time_slice r)
    (p_queue_number r) (p_remainingtime r) (p_last_scheduled r) (p_queueticks r).
Definition set_p_state (x : procstate) (r : proc) : proc :=
  mkproc (p_syscall_count r) x (p_chan r) (p_killed r) (p_xstate r) (p_pid r) (p_parent r)
    (p_kstack r) (p_sz r) (p_pagetable r) (p_trapframe r) (p_context r) (p_ofile r) (p_cwd r)
    (p_name r) (p_rtime r) (p_ctime r) (p_etime r) (p_handler r) (p_ticks r) (p_cur_ticks r)
    (p_alarm_tf r) (p_alarm_on r) (p_in_alarm_handler r) (p_tickets r) (p_arrival_time r)
    (p_time_slice r) (p_queue_number r) (p_remainingtime r) (p_last_scheduled r)
    (p_queueticks r).
Definition set_p_chan (x : chan) (r : proc) : proc :=
  mkproc (p_syscall_count r) (p_state r) x (p_killed r) (p_xstate r) (p_pid r) (p_parent r)
    (p_kstack r) (p_sz r) (p_pagetable r) (p_trapframe r) (p_context r) (p_ofile r) (p_cwd r)
    (p_name r) (p_rtime r) (p_ctime r) (p_etime r) (p_handler r) (p_ticks r) (p_cur_ticks r)
    (p_alarm_tf r) (p_alarm_on r) (p_in_alarm_handler r) (p_tickets r) (p_arrival_time r)
    (p_time_slice r) (p_queue_number r) (p_remainingtime r) (p_last_scheduled r)
    (p_queueticks r).
Definition set_p_killed (x : Z) (r : proc) : proc :=
  mkproc (p_syscall_count r) (p_state r) (p_chan r) x (p_xstate r) (p_pid r) (p_parent r)
    (p_kstack r) (p_sz r) (p_pagetable r) (p_trapframe r) (p_context r) (p_ofile r) (p_cwd r)
    (p_name r) (p_rtime r) (p_ctime r) (p_etime r) (p_handler r) (p_ticks r) (p_cur_ticks r)
    (p_alarm_tf r) (p_alarm_on r) (p_in_alarm_handler r) (p_tickets r) (p_arrival_time r)
    (p_time_slice r) (p_queue_number r) (p_remainingtime r) (p_last_scheduled r)
    (p_queueticks r).
Definition set_p_xstate (x : Z) (r : proc) : proc :=
  mkproc (p_syscall_count r) (p_state r) (p_chan r) (p_killed r) x (p_pid r) (p_parent r)
    (p_kstack r) (p_sz r) (p_pagetable r) (p_trapframe r) (p_context r) (p_ofile r) (p_cwd r)
    (p_name r) (p_rtime r) (p_ctime r) (p_etime r) (p_handler r) (p_ticks r) (p_cur_ticks r)
    (p_alarm_tf r) (p_alarm_on r) (p_in_alarm_handler r) (p_tickets r) (p_arrival_time r)
    (p_time_slice r) (p_queue_number r) (p_remainingtime r) (p_last_scheduled r)
    (p_queueticks r).
Definition set_p_pid (x : Z) (r : proc) : proc :=
  mkproc (p_syscall_count r) (p_state r) (p_chan r) (p_killed r) (p_xstate r) x (p_parent r)
    (p_kstack r) (p_sz r) (p_pagetable r) (p_trapframe r) (p_context r) (p_ofile r) (p_cwd r)
    (p_name r) (p_rtime r) (p_ctime r) (p_etime r) (p_handler r) (p_ticks r) (p_cur_ticks r)
    (p_alarm_tf r) (p_alarm_on r) (p_in_alarm_handler r) (p_tickets r) (p_arrival_time r)
    (p_time_slice r) (p_queue_number r) (p_remainingtime r) (p_last_scheduled r)
    (p_queueticks r).
Definition set_p_parent (x : option nat) (r : proc) : proc :=
  mkproc (p_syscall_count r) (p_state r) (p_chan r) (p_killed r) (p_xstate r) (p_pid r) x
    (p_kstack r) (p_sz r) (p_pagetable r) (p_trapframe r) (p_context r) (p_ofile r) (p_cwd r)
    (p_name r) (p_rtime r) (p_ctime r) (p_etime r) (p_handler r) (p_ticks r) (p_cur_ticks r)
    (p_alarm_tf r) (p_alarm_on r) (p_in_alarm_handler r) (p_tickets r) (p_arrival_time r)
    (p_time_slice r) (p_queue_number r) (p_remainingtime r) (p_last_scheduled r)
    (p_queueticks r).
Definition set_p_kstack (x : Z) (r : proc) : proc :=
  mkproc (p_syscall_count r) (p_state r) (p_chan r) (p_killed r) (p_xstate r) (p_pid r)
    (p_parent r) x (p_sz r) (p_pagetable r) (p_trapframe r) (p_context r) (p_ofile r) (p_cwd r)
    (p_name r) (p_rtime r) (p_ctime r) (p_etime r) (p_handler r) (p_ticks r) (p_cur_ticks r)
    (p_alarm_tf r) (p_alarm_on r) (p_in_alarm_handler r) (p_tickets r) (p_arrival_time r)
    (p_time_slice r) (p_queue_number r) (p_remainingtime r) (p_last_scheduled r)
    (p_queueticks r).
Definition set_p_sz (x : Z) (r : proc) : proc :=
  mkproc (p_syscall_count r) (p_state r) (p_chan r) (p_killed r) (p_xstate r) (p_pid r)
    (p_parent r) (p_kstack r) x (p_pagetable r) (p_trapframe r) (p_context r) (p_ofile r)
    (p_cwd r) (p_name r) (p_rtime r) (p_ctime r) (p_etime r) (p_handler r) (p_ticks r)
    (p_cur_ticks r) (p_alarm_tf r) (p_alarm_on r) (p_in_alarm_handler r) (p_tickets r)
    (p_arrival_time r) (p_time_slice r) (p_queue_number r) (p_remainingtime r)
    (p_last_scheduled r) (p_queueticks r).
Definition set_p_pagetable (x : Z) (r : proc) : proc :=
  mkproc (p_syscall_count r) (p_state r) (p_chan r) (p_killed r) (p_xstate r) (p_pid r)
    (p_parent r) (p_kstack r) (p_sz r) x (p_trapframe r) (p_context r) (p_ofile r) (p_cwd r)
    (p_name r) (p_rtime r) (p_ctime r) (p_etime r) (p_handler r) (p_ticks r) (p_cur_ticks r)
    (p_alarm_tf r) (p_alarm_on r) (p_in_alarm_handler r) (p_tickets r) (p_arrival_time r)
    (p_time_slice r) (p_queue_number r) (p_remainingtime r) (p_last_scheduled r)
    (p_queueticks r).
Definition set_p_trapframe (x : Z) (r : proc) : proc :=
  mkproc (p_syscall_count r) (p_state r) (p_chan r) (p_killed r) (p_xstate r) (p_pid r)
    (p_parent r) (p_kstack r) (p_sz r) (p_pagetable r) x (p_context r) (p_ofile r) (p_cwd r)
    (p_name r) (p_rtime r) (p_ctime r) (p_etime r) (p_handler r) (p_ticks r) (p_cur_ticks r)
    (p_alarm_tf r) (p_alarm_on r) (p_in_alarm_handler r) (p_tickets r) (p_arrival_time r)
    (p_time_slice r) (p_queue_number r) (p_remainingtime r) (p_last_scheduled r)
    (p_queueticks r).
Definition set_p_context (x : context) (r : proc) : proc :=
  mkproc (p_syscall_count r) (p_state r) (p_chan r) (p_killed r) (p_xstate r) (p_pid r)
    (p_parent r) (p_kstack r) (p_sz r) (p_pagetable r) (p_trapframe r) x (p_ofile r) (p_cwd r)
    (p_name r) (p_rtime r) (p_ctime r) (p_etime r) (p_handler r) (p_ticks r) (p_cur_ticks r)
    (p_alarm_tf r) (p_alarm_on r) (p_in_alarm_handler r) (p_tickets r) (p_arrival_time r)
    (p_time_slice r) (p_queue_number r) (p_remainingtime r) (p_last_scheduled r)
    (p_queueticks r).
Definition set_p_ofile (x : list (option nat)) (r : proc) : proc :=
  mkproc (p_syscall_count r) (p_state r) (p_chan r) (p_killed r) (p_xstate r) (p_pid r)
    (p_parent r) (p_kstack r) (p_sz r) (p_pagetable r) (p_trapframe r) (p_context r) x (p_cwd r)
    (p_name r) (p_rtime r) (p_ctime r) (p_etime r) (p_handler r) (p_ticks r) (p_cur_ticks r)
    (p_alarm_tf r) (p_alarm_on r) (p_in_alarm_handler r) (p_tickets r) (p_arrival_time r)
    (p_time_slice r) (p_queue_number r) (p_remainingtime r) (p_last_scheduled r)
    (p_queueticks r).
Definition set_p_cwd (x : option nat) (r : proc) : proc :=
  mkproc (p_syscall_count r) (p_state r) (p_chan r) (p_killed r) (p_xstate r) (p_pid r)
    (p_parent r) (p_kstack r) (p_sz r) (p_pagetable r) (p_trapframe r) (p_context r) (p_ofile r)
    x (p_name r) (p_rtime r) (p_ctime r) (p_etime r) (p_handler r) (p_ticks r) (p_cur_ticks r)
    (p_alarm_tf r) (p_alarm_on r) (p_in_alarm_handler r) (p_tickets r) (p_arrival_time r)
    (p_time_slice r) (p_queue_number r) (p_remainingtime r) (p_last_scheduled r)
    (p_queueticks r).
Definition set_p_name (x : list Z) (r : proc) : proc :=
  mkproc (p_syscall_count r) (p_state r) (p_chan r) (p_killed r) (p_xstate r) (p_pid r)
    (p_parent r) (p_kstack r) (p_sz r) (p_pagetable r) (p_trapframe r) (p_context r) (p_ofile r)
    (p_cwd r) x (p_rtime r) (p_ctime r) (p_etime r) (p_handler r) (p_ticks r) (p_cur_ticks r)
    (p_alarm_tf r) (p_alarm_on r) (p_in_alarm_handler r) (p_tickets r) (p_arrival_time r)
    (p_time_slice r) (p_queue_number r) (p_remainingtime r) (p_last_scheduled r)
    (p_queueticks r).
Definition set_p_rtime (x : Z) (r : proc) : proc :=
  mkproc (p_syscall_count r) (p_state r) (p_chan r) (p_killed r) (p_xstate r) (p_pid r)
    (p_parent r) (p_kstack r) (p_sz r) (p_pagetable r) (p_trapframe r) (p_context r) (p_ofile r)
    (p_cwd r) (p_name r) x (p_ctime r) (p_etime r) (p_handler r) (p_ticks r) (p_cur_ticks r)
    (p_alarm_tf r) (p_alarm_on r) (p_in_alarm_handler r) (p_tickets r) (p_arrival_time r)
    (p_time_slice r) (p_queue_number r) (p_remainingtime r) (p_last_scheduled r)
    (p_queueticks r).
Definition set_p_ctime (x : Z) (r : proc) : proc :=
  mkproc (p_syscall_count r) (p_state r) (p_chan r) (p_killed r) (p_xstate r) (p_pid r)
    (p_parent r) (p_kstack r) (p_sz r) (p_pagetable r) (p_trapframe r) (p_context r) (p_ofile r)
    (p_cwd r) (p_name r) (p_rtime r) x (p_etime r) (p_handler r) (p_ticks r) (p_cur_ticks r)
    (p_alarm_tf r) (p_alarm_on r) (p_in_alarm_handler r) (p_tickets r) (p_arrival_time r)
    (p_time_slice r) (p_queue_number r) (p_remainingtime r) (p_last_scheduled r)
    (p_queueticks r).
Definition set_p_etime (x : Z) (r : proc) : proc :=
  mkproc (p_syscall_count r) (p_state r) (p_chan r) (p_killed r) (p_xstate r) (p_pid r)
    (p_parent r) (p_kstack r) (p_sz r) (p_pagetable r) (p_trapframe r) (p_context r) (p_ofile r)
    (p_cwd r) (p_name r) (p_rtime r) (p_ctime r) x (p_handler r) (p_ticks r) (p_cur_ticks r)
    (p_alarm_tf r) (p_alarm_on r) (p_in_alarm_handler r) (p_tickets r) (p_arrival_time r)
    (p_time_slice r) (p_queue_number r) (p_remainingtime r) (p_last_scheduled r)
    (p_queueticks r).
Definition set_p_handler (x : Z) (r : proc) : proc :=
  mkproc (p_syscall_count r) (p_state r) (p_chan r) (p_killed r) (p_xstate r) (p_pid r)
    (p_parent r) (p_kstack r) (p_sz r) (p_pagetable r) (p_trapframe r) (p_context r) (p_ofile r)
    (p_cwd r) (p_name r) (p_rtime r) (p_ctime r) (p_etime r) x (p_ticks r) (p_cur_ticks r)
    (p_alarm_tf r) (p_alarm_on r) (p_in_alarm_handler r) (p_tickets r) (p_arrival_time r)
    (p_time_slice r) (p_queue_number r) (p_remainingtime r) (p_last_scheduled r)
    (p_queueticks r).
Definition set_p_ticks (x : Z) (r : proc) : proc :=
  mkproc (p_syscall_count r) (p_state r) (p_chan r) (p_killed r) (p_xstate r) (p_pid r)
    (p_parent r) (p_kstack r) (p_sz r) (p_pagetable r) (p_trapframe r) (p_context r) (p_ofile r)
    (p_cwd r) (p_name r) (p_rtime r) (p_ctime r) (p_etime r) (p_handler r) x (p_cur_ticks r)
    (p_alarm_tf r) (p_alarm_on r) (p_in_alarm_handler r) (p_tickets r) (p_arrival_time r)
    (p_time_slice r) (p_queue_number r) (p_remainingtime r) (p_last_scheduled r)
    (p_queueticks r).
Definition set_p_cur_ticks (x : Z) (r : proc) : proc :=
  mkproc (p_syscall_count r) (p_state r) (p_chan r) (p_killed r) (p_xstate r) (p_pid r)
    (p_parent r) (p_kstack r) (p_sz r) (p_pagetable r) (p_trapframe r) (p_context r) (p_ofile r)
    (p_cwd r) (p_name r) (p_rtime r) (p_ctime r) (p_etime r) (p_handler r) (p_ticks r) x
    (p_alarm_tf r) (p_alarm_on r) (p_in_alarm_handler r) (p_tickets r) (p_arrival_time r)
    (p_time_slice r) (p_queue_number r) (p_remainingtime r) (p_last_scheduled r)
    (p_queueticks r).
Definition set_p_alarm_tf (x : Z) (r : proc) : proc :=
  mkproc (p_syscall_count r) (p_state r) (p_chan r) (p_killed r) (p_xstate r) (p_pid r)
    (p_parent r) (p_kstack r) (p_sz r) (p_pagetable r) (p_trapframe r) (p_context r) (p_ofile r)
    (p_cwd r) (p_name r) (p_rtime r) (p_ctime r) (p_etime r) (p_handler r) (p_ticks r)
    (p_cur_ticks r) x (p_alarm_on r) (p_in_alarm_handler r) (p_tickets r) (p_arrival_time r)
    (p_time_slice r) (p_queue_number r) (p_remainingtime r) (p_last_scheduled r)
    (p_queueticks r).
Definition set_p_alarm_on (x : Z) (r : proc) : proc :=
  mkproc (p_syscall_count r) (p_state r) (p_chan r) (p_killed r) (p_xstate r) (p_pid r)
    (p_parent r) (p_kstack r) (p_sz r) (p_pagetable r) (p_trapframe r) (p_context r) (p_ofile r)
    (p_cwd r) (p_name r) (p_rtime r) (p_ctime r) (p_etime r) (p_handler r) (p_ticks r)
    (p_cur_ticks r) (p_alarm_tf r) x (p_in_alarm_handler r) (p_tickets r) (p_arrival_time r)
    (p_time_slice r) (p_queue_number r) (p_remainingtime r) (p_last_scheduled r)
    (p_queueticks r).
Definition set_p_in_alarm_handler (x : Z) (r : proc) : proc :=
  mkproc (p_syscall_count r) (p_state r) (p_chan r) (p_killed r) (p_xstate r) (p_pid r)
    (p_parent r) (p_kstack r) (p_sz r) (p_pagetable r) (p_trapframe r) (p_context r) (p_ofile r)
    (p_cwd r) (p_name r) (p_rtime r) (p_ctime r) (p_etime r) (p_handler r) (p_ticks r)
    (p_cur_ticks r) (p_alarm_tf r) (p_alarm_on r) x (p_tickets r) (p_arrival_time r)
    (p_time_slice r) (p_queue_number r) (p_remainingtime r) (p_last_scheduled r)
    (p_queueticks r).
Definition set_p_tickets (x : Z) (r : proc) : proc :=
  mkproc (p_syscall_count r) (p_state r) (p_chan r) (p_killed r) (p_xstate r) (p_pid r)
    (p_parent r) (p_kstack r) (p_sz r) (p_pagetable r) (p_trapframe r) (p_context r) (p_ofile r)
    (p_cwd r) (p_name r) (p_rtime r) (p_ctime r) (p_etime r) (p_handler r) (p_ticks r)
    (p_cur_ticks r) (p_alarm_tf r) (p_alarm_on r) (p_in_alarm_handler r) x (p_arrival_time r)
    (p_time_slice r) (p_queue_number r) (p_remainingtime r) (p_last_scheduled r)
    (p_queueticks r).
Definition set_p_arrival_time (x : Z) (r : proc) : proc :=
  mkproc (p_syscall_count r) (p_state r) (p_chan r) (p_killed r) (p_xstate r) (p_pid r)
    (p_parent r) (p_kstack r) (p_sz r) (p_pagetable r) (p_trapframe r) (p_context r) (p_ofile r)
    (p_cwd r) (p_name r) (p_rtime r) (p_ctime r) (p_etime r) (p_handler r) (p_ticks r)
    (p_cur_ticks r) (p_alarm_tf r) (p_alarm_on r) (p_in_alarm_handler r) (p_tickets r) x
    (p_time_slice r) (p_queue_number r) (p_remainingtime r) (p_last_scheduled r)
    (p_queueticks r).
Definition set_p_queue_number (x : Z) (r : proc) : proc :=
  mkproc (p_syscall_count r) (p_state r) (p_chan r) (p_killed r) (p_xstate r) (p_pid r)
    (p_parent r) (p_kstack r) (p_sz r) (p_pagetable r) (p_trapframe r) (p_context r) (p_ofile r)
    (p_cwd r) (p_name r) (p_rtime r) (p_ctime r) (p_etime r) (p_handler r) (p_ticks r)
    (p_cur_ticks r) (p_alarm_tf r) (p_alarm_on r) (p_in_alarm_handler r) (p_tickets r)
    (p_arrival_time r) (p_time_slice r) x (p_remainingtime r) (p_last_scheduled r)
    (p_queueticks r).
Definition set_p_queueticks (x : Z) (r : proc) : proc :=
  mkproc (p_syscall_count r) (p_state r) (p_chan r) (p_killed r) (p_xstate r) (p_pid r)
    (p_parent r) (p_kstack r) (p_sz r) (p_pagetable r) (p_trapframe r) (p_context r) (p_ofile r)
    (p_cwd r) (p_name r) (p_rtime r) (p_ctime r) (p_etime r) (p_handler r) (p_ticks r)
    (p_cur_ticks r) (p_alarm_tf r) (p_alarm_on r) (p_in_alarm_handler r) (p_tickets r)
    (p_arrival_time r) (p_time_slice r) (p_queue_number r) (p_remainingtime r)
    (p_last_scheduled r) x.
#[export] Hint Unfold set_p_syscall_count set_p_state set_p_chan set_p_killed set_p_xstate
  set_p_pid set_p_parent set_p_kstack set_p_sz set_p_pagetable set_p_trapframe
  set_p_context set_p_ofile set_p_cwd set_p_name set_p_rtime set_p_ctime set_p_etime
  set_p_handler set_p_ticks set_p_cur_ticks set_p_alarm_tf set_p_alarm_on
  set_p_in_alarm_handler set_p_tickets set_p_arrival_time set_p_queue_number
  set_p_queueticks : setters.

(** Registers of the executing hart, the per-cpu structs and every spin lock *)
Record hwstate := mkhw {
  h_tp : nat;  (* tp: the hart executing this thread *)
  h_sstatus : Z;
  h_sepc : Z;
  h_scause : Z;
  h_stval : Z;
  h_stvec : Z;
  h_satp : Z;
  h_sip : Z;
  h_cpus : list cpu;
  h_locks : gmap lockid spinlock
}.

Definition set_h_tp (x : nat) (r : hwstate) : hwstate :=
  mkhw x (h_sstatus r) (h_sepc r) (h_scause r) (h_stval r) (h_stvec r) (h_satp r) (h_sip r)
    (h_cpus r) (h_locks r).
Definition set_h_sstatus (x : Z) (r : hwstate) : hwstate :=
  mkhw (h_tp r) x (h_sepc r) (h_scause r) (h_stval r) (h_stvec r) (h_satp r) (h_sip r)
    (h_cpus r) (h_locks r).
Definition set_h_sepc (x : Z) (r : hwstate) : hwstate :=
  mkhw (h_tp r) (h_sstatus r) x (h_scause r) (h_stval r) (h_stvec r) (h_satp r) (h_sip r)
    (h_cpus r) (h_locks r).
Definition set_h_scause (x : Z) (r : hwstate) : hwstate :=
  mkhw (h_tp r) (h_sstatus r) (h_sepc r) x (h_stval r) (h_stvec r) (h_satp r) (h_sip r)
    (h_cpus r) (h_locks r).
Definition set_h_stval (x : Z) (r : hwstate) : hwstate :=
  mkhw (h_tp r) (h_sstatus r) (h_sepc r) (h_scause r) x (h_stvec r) (h_satp r) (h_sip r)
    (h_cpus r) (h_locks r).
Definition set_h_stvec (x : Z) (r : hwstate) : hwstate :=
  mkhw (h_tp r) (h_sstatus r) (h_sepc r) (h_scause r) (h_stval r) x (h_satp r) (h_sip r)
    (h_cpus r) (h_locks r).
Definition set_h_satp (x : Z) (r : hwstate) : hwstate :=
  mkhw (h_tp r) (h_sstatus r) (h_sepc r) (h_scause r) (h_stval r) (h_stvec r) x (h_sip r)
    (h_cpus r) (h_locks r).
Definition set_h_sip (x : Z) (r : hwstate) : hwstate :=
  mkhw (h_tp r) (h_sstatus r) (h_sepc r) (h_scause r) (h_stval r) (h_stvec r) (h_satp r) x
    (h_cpus r) (h_locks r).
Definition set_h_cpus (x : list cpu) (r : hwstate) : hwstate :=
  mkhw (h_tp r) (h_sstatus r) (h_sepc r) (h_scause r) (h_stval r) (h_stvec r) (h_satp r)
    (h_sip r) x (h_locks r).
Definition set_h_locks (x : gmap lockid spinlock) (r : hwstate) : hwstate :=
  mkhw (h_tp r) (h_sstatus r) (h_sepc r) (h_scause r) (h_stval r) (h_stvec r) (h_satp r)
    (h_sip r) (h_cpus r) x.
#[export] Hint Unfold set_h_tp set_h_sstatus set_h_sepc set_h_scause set_h_stval
  set_h_stvec set_h_satp set_h_sip set_h_cpus set_h_locks : setters.

(** Globals of proc.c and trap.c *)
Record procs := mkprocs {
  ps_proc : list proc;
  ps_initproc : option nat;
  ps_multique : list (list (option nat));  (* multique[4][NPROC] *)
  ps_sizeofq : list Z;  (* sizeofq[4] *)
  ps_nextpid : Z;
  ps_seed : Z;  (* the static seed of rand() *)
  ps_ticks : Z;  (* ticks of trap.c *)
  ps_first : Z  (* the static first of forkret() *)
}.

Definition set_ps_proc (x : list proc) (r : procs) : procs :=
  mkprocs x (ps_initproc r) (ps_multique r) (ps_sizeofq r) (ps_nextpid r) (ps_seed r)
    (ps_ticks r) (ps_first r).
Definition set_ps_initproc (x : option nat) (r : procs) : procs :=
  mkprocs (ps_proc r) x (ps_multique r) (ps_sizeofq r) (ps_nextpid r) (ps_seed r) (ps_ticks r)
    (ps_first r).
Definition set_ps_multique (x : list (list (option nat))) (r : procs) : procs :=
  mkprocs (ps_proc r) (ps_initproc r) x (ps_sizeofq r) (ps_nextpid r) (ps_seed r) (ps_ticks r)
    (ps_first r).
Definition set_ps_sizeofq (x : list Z) (r : procs) : procs :=
  mkprocs (ps_proc r) (ps_initproc r) (ps_multique r) x (ps_nextpid r) (ps_seed r) (ps_ticks r)
    (ps_first r).
Definition set_ps_nextpid (x : Z) (r : procs) : procs :=
  mkprocs (ps_proc r) (ps_initproc r) (ps_multique r) (ps_sizeofq r) x (ps_seed r) (ps_ticks r)
    (ps_first r).
Definition set_ps_seed (x : Z) (r : procs) : procs :=
  mkprocs (ps_proc r) (ps_initproc r) (ps_multique r) (ps_sizeofq r) (ps_nextpid r) x
    (ps_ticks r) (ps_first r).
Definition set_ps_ticks (x : Z) (r : procs) : procs :=
  mkprocs (ps_proc r) (ps_initproc r) (ps_multique r) (ps_sizeofq r) (ps_nextpid r) (ps_seed r)
    x (ps_first r).
Definition set_ps_first (x : Z) (r : procs) : procs :=
  mkprocs (ps_proc r) (ps_initproc r) (ps_multique r) (ps_sizeofq r) (ps_nextpid r) (ps_seed r)
    (ps_ticks r) x.
#[export] Hint Unfold set_ps_proc set_ps_initproc set_ps_multique set_ps_sizeofq
  set_ps_nextpid set_ps_seed set_ps_ticks set_ps_first : setters.

(** Physical memory, the globals of kalloc.c and vm.c, and the addresses the linker assigns *)
Record memory := mkmemory {
  m_bytes : gmap Z Z;  (* contents of physical memory *)
  m_freelist : Z;  (* kmem.freelist *)
  m_kpgtbl : Z;  (* kernel_pagetable *)
  m_end : Z;  (* linker symbols: end, *)
  m_etext : Z;  (* etext, *)
  m_trampoline : Z;  (* trampoline, *)
  m_uservec : Z;  (* uservec, *)
  m_userret : Z;  (* userret, *)
  m_kernelvec : Z;  (* kernelvec, *)
  m_usertrap : Z;  (* usertrap, *)
  m_forkret : Z  (* forkret *)
}.

Definition set_m_bytes (x : gmap Z Z) (r : memory) : memory :=
  mkmemory x (m_freelist r) (m_kpgtbl r) (m_end r) (m_etext r) (m_trampoline r) (m_uservec r)
    (m_userret r) (m_kernelvec r) (m_usertrap r) (m_forkret r).
Definition set_m_freelist (x : Z) (r : memory) : memory :=
  mkmemory (m_bytes r) x (m_kpgtbl r) (m_end r) (m_etext r) (m_trampoline r) (m_uservec r)
    (m_userret r) (m_kernelvec r) (m_usertrap r) (m_forkret r).
Definition set_m_kpgtbl (x : Z) (r : memory) : memory :=
  mkmemory (m_bytes r) (m_freelist r) x (m_end r) (m_etext r) (m_trampoline r) (m_uservec r)
    (m_userret r) (m_kernelvec r) (m_usertrap r) (m_forkret r).
#[export] Hint Unfold set_m_bytes set_m_freelist set_m_kpgtbl : setters.

(** Devices and the globals of uart.c, printf.c and console.c *)
Record io := mkio {
  u_txidle : bool;  (* LSR_TX_IDLE of the UART *)
  u_after : Z -> bool;  (* LSR_TX_IDLE after a byte is written to THR *)
  u_rx : list Z;  (* bytes waiting in RHR *)
  u_tx : list Z;  (* bytes written to THR, oldest first *)
  pr_locking : Z;  (* pr.locking *)
  pr_panicked : Z;  (* panicked *)
  uart_tx_buf : list Z;
  uart_tx_w : Z;
  uart_tx_r : Z;
  cons_buf : list Z;
  cons_r : Z;
  cons_w : Z;
  cons_e : Z;
  plic_irq : list Z;  (* irqs the PLIC hands out *)
  plic_done : list Z;  (* irqs completed *)
  plic_regs : gmap Z Z;  (* the priority, enable and threshold registers *)
  m_started : Z  (* started of main.c *)
}.

Definition set_u_txidle (x : bool) (r : io) : io :=
  mkio x (u_after r) (u_rx r) (u_tx r) (pr_locking r) (pr_panicked r) (uart_tx_buf r)
    (uart_tx_w r) (uart_tx_r r) (cons_buf r) (cons_r r) (cons_w r) (cons_e r) (plic_irq r)
    (plic_done r) (plic_regs r) (m_started r).
Definition set_u_after (x : Z -> bool) (r : io) : io :=
  mkio (u_txidle r) x (u_rx r) (u_tx r) (pr_locking r) (pr_panicked r) (uart_tx_buf r)
    (uart_tx_w r) (uart_tx_r r) (cons_buf r) (cons_r r) (cons_w r) (cons_e r) (plic_irq r)
    (plic_done r) (plic_regs r) (m_started r).
Definition set_u_rx (x : list Z) (r : io) : io :=
  mkio (u_txidle r) (u_after r) x (u_tx r) (pr_locking r) (pr_panicked r) (uart_tx_buf r)
    (uart_tx_w r) (uart_tx_r r) (cons_buf r) (cons_r r) (cons_w r) (cons_e r) (plic_irq r)
    (plic_done r) (plic_regs r) (m_started r).
Definition set_u_tx (x : list Z) (r : io) : io :=
  mkio (u_txidle r) (u_after r) (u_rx r) x (pr_locking r) (pr_panicked r) (uart_tx_buf r)
    (uart_tx_w r) (uart_tx_r r) (cons_buf r) (cons_r r) (cons_w r) (cons_e r) (plic_irq r)
    (plic_done r) (plic_regs r) (m_started r).
Definition set_pr_locking (x : Z) (r : io) : io :=
  mkio (u_txidle r) (u_after r) (u_rx r) (u_tx r) x (pr_panicked r) (uart_tx_buf r)
    (uart_tx_w r) (uart_tx_r r) (cons_buf r) (cons_r r) (cons_w r) (cons_e r) (plic_irq r)
    (plic_done r) (plic_regs r) (m_started r).
Definition set_pr_panicked (x : Z) (r : io) : io :=
  mkio (u_txidle r) (u_after r) (u_rx r) (u_tx r) (pr_locking r) x (uart_tx_buf r) (uart_tx_w r)
    (uart_tx_r r) (cons_buf r) (cons_r r) (cons_w r) (cons_e r) (plic_irq r) (plic_done r)
    (plic_regs r) (m_started r).
Definition set_uart_tx_buf (x : list Z) (r : io) : io :=
  mkio (u_txidle r) (u_after r) (u_rx r) (u_tx r) (pr_locking r) (pr_panicked r) x (uart_tx_w r)
    (uart_tx_r r) (cons_buf r) (cons_r r) (cons_w r) (cons_e r) (plic_irq r) (plic_done r)
    (plic_regs r) (m_started r).
Definition set_uart_tx_w (x : Z) (r : io) : io :=
  mkio (u_txidle r) (u_after r) (u_rx r) (u_tx r) (pr_locking r) (pr_panicked r) (uart_tx_buf r)
    x (uart_tx_r r) (cons_buf r) (cons_r r) (cons_w r) (cons_e r) (plic_irq r) (plic_done r)
    (plic_regs r) (m_started r).
Definition set_uart_tx_r (x : Z) (r : io) : io :=
  mkio (u_txidle r) (u_after r) (u_rx r) (u_tx r) (pr_locking r) (pr_panicked r) (uart_tx_buf r)
    (uart_tx_w r) x (cons_buf r) (cons_r r) (cons_w r) (cons_e r) (plic_irq r) (plic_done r)
    (plic_regs r) (m_started r).
Definition set_cons_buf (x : list Z) (r : io) : io :=
  mkio (u_txidle r) (u_after r) (u_rx r) (u_tx r) (pr_locking r) (pr_panicked r) (uart_tx_buf r)
    (uart_tx_w r) (uart_tx_r r) x (cons_r r) (cons_w r) (cons_e r) (plic_irq r) (plic_done r)
    (plic_regs r) (m_started r).
Definition set_cons_r (x : Z) (r : io) : io :=
  mkio (u_txidle r) (u_after r) (u_rx r) (u_tx r) (pr_locking r) (pr_panicked r) (uart_tx_buf r)
    (uart_tx_w r) (uart_tx_r r) (cons_buf r) x (cons_w r) (cons_e r) (plic_irq r) (plic_done r)
    (plic_regs r) (m_started r).
Definition set_cons_w (x : Z) (r : io) : io :=
  mkio (u_txidle r) (u_after r) (u_rx r) (u_tx r) (pr_locking r) (pr_panicked r) (uart_tx_buf r)
    (uart_tx_w r) (uart_tx_r r) (cons_buf r) (cons_r r) x (cons_e r) (plic_irq r) (plic_done r)
    (plic_regs r) (m_started r).
Definition set_cons_e (x : Z) (r : io) : io :=
  mkio (u_txidle r) (u_after r) (u_rx r) (u_tx r) (pr_locking r) (pr_panicked r) (uart_tx_buf r)
    (uart_tx_w r) (uart_tx_r r) (cons_buf r) (cons_r r) (cons_w r) x (plic_irq r) (plic_done r)
    (plic_regs r) (m_started r).
Definition set_plic_irq (x : list Z) (r : io) : io :=
  mkio (u_txidle r) (u_after r) (u_rx r) (u_tx r) (pr_locking r) (pr_panicked r) (uart_tx_buf r)
    (uart_tx_w r) (uart_tx_r r) (cons_buf r) (cons_r r) (cons_w r) (cons_e r) x (plic_done r)
    (plic_regs r) (m_started r).
Definition set_plic_done (x : list Z) (r : io) : io :=
  mkio (u_txidle r) (u_after r) (u_rx r) (u_tx r) (pr_locking r) (pr_panicked r) (uart_tx_buf r)
    (uart_tx_w r) (uart_tx_r r) (cons_buf r) (cons_r r) (cons_w r) (cons_e r) (plic_irq r) x
    (plic_regs r) (m_started r).
Definition set_plic_regs (x : gmap Z Z) (r : io) : io :=
  mkio (u_txidle r) (u_after r) (u_rx r) (u_tx r) (pr_locking r) (pr_panicked r) (uart_tx_buf r)
    (uart_tx_w r) (uart_tx_r r) (cons_buf r) (cons_r r) (cons_w r) (cons_e r) (plic_irq r)
    (plic_done r) x (m_started r).
Definition set_m_started (x : Z) (r : io) : io :=
  mkio (u_txidle r) (u_after r) (u_rx r) (u_tx r) (pr_locking r) (pr_panicked r) (uart_tx_buf r)
    (uart_tx_w r) (uart_tx_r r) (cons_buf r) (cons_r r) (cons_w r) (cons_e r) (plic_irq r)
    (plic_done r) (plic_regs r) x.
#[export] Hint Unfold set_u_txidle set_u_after set_u_rx set_u_tx set_pr_locking
  set_pr_panicked set_uart_tx_buf set_uart_tx_w set_uart_tx_r set_cons_buf set_cons_r
  set_cons_w set_cons_e set_plic_irq set_plic_done set_plic_regs set_m_started : setters.

(** The type tag of struct file (file.h) *)
Inductive fdtype := FD_NONE | FD_PIPE | FD_INODE | FD_DEVICE.
#[export] Instance fdtype_eq_dec : EqDecision fdtype.
Proof. solve_decision. Defined.

(** struct file (file.h) *)
Record file := mkfile {
  f_type : fdtype;
  f_ref : Z;
  f_readable : Z;
  f_writable : Z;
  f_pipe : Z;
  f_ip : option nat;
  f_off : Z;
  f_major : Z
}.

Definition set_f_type (x : fdtype) (r : file) : file :=
  mkfile x (f_ref r) (f_readable r) (f_writable r) (f_pipe r) (f_ip r) (f_off r) (f_major r).
Definition set_f_ref (x : Z) (r : file) : file :=
  mkfile (f_type r) x (f_readable r) (f_writable r) (f_pipe r) (f_ip r) (f_off r) (f_major r).
Definition set_f_readable (x : Z) (r : file) : file :=
  mkfile (f_type r) (f_ref r) x (f_writable r) (f_pipe r) (f_ip r) (f_off r) (f_major r).
Definition set_f_writable (x : Z) (r : file) : file :=
  mkfile (f_type r) (f_ref r) (f_readable r) x (f_pipe r) (f_ip r) (f_off r) (f_major r).
Definition set_f_pipe (x : Z) (r : file) : file :=
  mkfile (f_type r) (f_ref r) (f_readable r) (f_writable r) x (f_ip r) (f_off r) (f_major r).
Definition set_f_ip (x : option nat) (r : file) : file :=
  mkfile (f_type r) (f_ref r) (f_readable r) (f_writable r) (f_pipe r) x (f_off r) (f_major r).
Definition set_f_off (x : Z) (r : file) : file :=
  mkfile (f_type r) (f_ref r) (f_readable r) (f_writable r) (f_pipe r) (f_ip r) x (f_major r).
Definition set_f_major (x : Z) (r : file) : file :=
  mkfile (f_type r) (f_ref r) (f_readable r) (f_writable r) (f_pipe r) (f_ip r) (f_off r) x.
#[export] Hint Unfold set_f_type set_f_ref set_f_readable set_f_writable set_f_pipe
  set_f_ip set_f_off set_f_major : setters.

(** struct sleeplock (sleeplock.h); its inner spin lock is in [h_locks] *)
Record sleeplock := mksleeplock {
  sl_locked : Z;
  sl_name : string;
  sl_pid : Z
}.

Definition set_sl_locked (x : Z) (r : sleeplock) : sleeplock :=
  mksleeplock x (sl_name r) (sl_pid r).
Definition set_sl_name (x : string) (r : sleeplock) : sleeplock :=
  mksleeplock (sl_locked r) x (sl_pid r).
Definition set_sl_pid (x : Z) (r : sleeplock) : sleeplock :=
  mksleeplock (sl_locked r) (sl_name r) x.
#[export] Hint Unfold set_sl_locked set_sl_name set_sl_pid : setters.

(** struct inode (file.h) *)
Record inode := mkinode {
  i_dev : Z;
  i_inum : Z;
  i_ref : Z;
  i_lock : sleeplock;
  i_valid : Z;
  i_type : Z;
  i_major : Z;
  i_minor : Z;
  i_nlink : Z;
  i_size : Z;
  i_addrs : list Z
}.

Definition set_i_dev (x : Z) (r : inode) : inode :=
  mkinode x (i_inum r) (i_ref r) (i_lock r) (i_valid r) (i_type r) (i_major r) (i_minor r)
    (i_nlink r) (i_size r) (i_addrs r).
Definition set_i_inum (x : Z) (r : inode) : inode :=
  mkinode (i_dev r) x (i_ref r) (i_lock r) (i_valid r) (i_type r) (i_major r) (i_minor r)
    (i_nlink r) (i_size r) (i_addrs r).
Definition set_i_ref (x : Z) (r : inode) : inode :=
  mkinode (i_dev r) (i_inum r) x (i_lock r) (i_valid r) (i_type r) (i_major r) (i_minor r)
    (i_nlink r) (i_size r) (i_addrs r).
Definition set_i_lock (x : sleeplock) (r : inode) : inode :=
  mkinode (i_dev r) (i_inum r) (i_ref r) x (i_valid r) (i_type r) (i_major r) (i_minor r)
    (i_nlink r) (i_size r) (i_addrs r).
Definition set_i_valid (x : Z) (r : inode) : inode :=
  mkinode (i_dev r) (i_inum r) (i_ref r) (i_lock r) x (i_type r) (i_major r) (i_minor r)
    (i_nlink r) (i_size r) (i_addrs r).
Definition set_i_type (x : Z) (r : inode) : inode :=
  mkinode (i_dev r) (i_inum r) (i_ref r) (i_lock r) (i_valid r) x (i_major r) (i_minor r)
    (i_nlink r) (i_size r) (i_addrs r).
Definition set_i_major (x : Z) (r : inode) : inode :=
  mkinode (i_dev r) (i_inum r) (i_ref r) (i_lock r) (i_valid r) (i_type r) x (i_minor r)
    (i_nlink r) (i_size r) (i_addrs r).
Definition set_i_minor (x : Z) (r : inode) : inode :=
  mkinode (i_dev r) (i_inum r) (i_ref r) (i_lock r) (i_valid r) (i_type r) (i_major r) x
    (i_nlink r) (i_size r) (i_addrs r).
Definition set_i_nlink (x : Z) (r : inode) : inode :=
  mkinode (i_dev r) (i_inum r) (i_ref r) (i_lock r) (i_valid r) (i_type r) (i_major r)
    (i_minor r) x (i_size r) (i_addrs r).
Definition set_i_size (x : Z) (r : inode) : inode :=
  mkinode (i_dev r) (i_inum r) (i_ref r) (i_lock r) (i_valid r) (i_type r) (i_major r)
    (i_minor r) (i_nlink r) x (i_addrs r).
Definition set_i_addrs (x : list Z) (r : inode) : inode :=
  mkinode (i_dev r) (i_inum r) (i_ref r) (i_lock r) (i_valid r) (i_type r) (i_major r)
    (i_minor r) (i_nlink r) (i_size r) x.
#[export] Hint Unfold set_i_dev set_i_inum set_i_ref set_i_lock set_i_valid set_i_type
  set_i_major set_i_minor set_i_nlink set_i_size set_i_addrs : setters.

(** struct buf (buf.h) *)
Record buf := mkbuf {
  b_valid : Z;
  b_disk : Z;
  b_dev : Z;
  b_blockno : Z;
  b_lock : sleeplock;
  b_refcnt : Z;
  b_prev : nat;  (* index in buf[], NBUF for head *)
  b_next : nat;
  b_data : list Z
}.

Definition set_b_valid (x : Z) (r : buf) : buf :=
  mkbuf x (b_disk r) (b_dev r) (b_blockno r) (b_lock r) (b_refcnt r) (b_prev r) (b_next r)
    (b_data r).
Definition set_b_disk (x : Z) (r : buf) : buf :=
  mkbuf (b_valid r) x (b_dev r) (b_blockno r) (b_lock r) (b_refcnt r) (b_prev r) (b_next r)
    (b_data r).
Definition set_b_dev (x : Z) (r : buf) : buf :=
  mkbuf (b_valid r) (b_disk r) x (b_blockno r) (b_lock r) (b_refcnt r) (b_prev r) (b_next r)
    (b_data r).
Definition set_b_blockno (x : Z) (r : buf) : buf :=
  mkbuf (b_valid r) (b_disk r) (b_dev r) x (b_lock r) (b_refcnt r) (b_prev r) (b_next r)
    (b_data r).
Definition set_b_lock (x : sleeplock) (r : buf) : buf :=
  mkbuf (b_valid r) (b_disk r) (b_dev r) (b_blockno r) x (b_refcnt r) (b_prev r) (b_next r)
    (b_data r).
Definition set_b_refcnt (x : Z) (r : buf) : buf :=
  mkbuf (b_valid r) (b_disk r) (b_dev r) (b_blockno r) (b_lock r) x (b_prev r) (b_next r)
    (b_data r).
Definition set_b_prev (x : nat) (r : buf) : buf :=
  mkbuf (b_valid r) (b_disk r) (b_dev r) (b_blockno r) (b_lock r) (b_refcnt r) x (b_next r)
    (b_data r).
Definition set_b_next (x : nat) (r : buf) : buf :=
  mkbuf (b_valid r) (b_disk r) (b_dev r) (b_blockno r) (b_lock r) (b_refcnt r) (b_prev r) x
    (b_data r).
Definition set_b_data (x : list Z) (r : buf) : buf :=
  mkbuf (b_valid r) (b_disk r) (b_dev r) (b_blockno r) (b_lock r) (b_refcnt r) (b_prev r)
    (b_next r) x.
#[export] Hint Unfold set_b_valid set_b_disk set_b_dev set_b_blockno set_b_lock
  set_b_refcnt set_b_prev set_b_next set_b_data : setters.

(** struct superblock (fs.h) *)
Record superblock := mksuperblock {
  sb_magic : Z;
  sb_size : Z;
  sb_nblocks : Z;
  sb_ninodes : Z;
  sb_nlog : Z;
  sb_logstart : Z;
  sb_inodestart : Z;
  sb_bmapstart : Z
}.

Definition set_sb_magic (x : Z) (r : superblock) : superblock :=
  mksuperblock x (sb_size r) (sb_nblocks r) (sb_ninodes r) (sb_nlog r) (sb_logstart r)
    (sb_inodestart r) (sb_bmapstart r).
Definition set_sb_size (x : Z) (r : superblock) : superblock :=
  mksuperblock (sb_magic r) x (sb_nblocks r) (sb_ninodes r) (sb_nlog r) (sb_logstart r)
    (sb_inodestart r) (sb_bmapstart r).
Definition set_sb_nblocks (x : Z) (r : superblock) : superblock :=
  mksuperblock (sb_magic r) (sb_size r) x (sb_ninodes r) (sb_nlog r) (sb_logstart r)
    (sb_inodestart r) (sb_bmapstart r).
Definition set_sb_ninodes (x : Z) (r : superblock) : superblock :=
  mksuperblock (sb_magic r) (sb_size r) (sb_nblocks r) x (sb_nlog r) (sb_logstart r)
    (sb_inodestart r) (sb_bmapstart r).
Definition set_sb_nlog (x : Z) (r : superblock) : superblock :=
  mksuperblock (sb_magic r) (sb_size r) (sb_nblocks r) (sb_ninodes r) x (sb_logstart r)
    (sb_inodestart r) (sb_bmapstart r).
Definition set_sb_logstart (x : Z) (r : superblock) : superblock :=
  mksuperblock (sb_magic r) (sb_size r) (sb_nblocks r) (sb_ninodes r) (sb_nlog r) x
    (sb_inodestart r) (sb_bmapstart r).
Definition set_sb_inodestart (x : Z) (r : superblock) : superblock :=
  mksuperblock (sb_magic r) (sb_size r) (sb_nblocks r) (sb_ninodes r) (sb_nlog r)
    (sb_logstart r) x (sb_bmapstart r).
Definition set_sb_bmapstart (x : Z) (r : superblock) : superblock :=
  mksuperblock (sb_magic r) (sb_size r) (sb_nblocks r) (sb_ninodes r) (sb_nlog r)
    (sb_logstart r) (sb_inodestart r) x.
#[export] Hint Unfold set_sb_magic set_sb_size set_sb_nblocks set_sb_ninodes set_sb_nlog
  set_sb_logstart set_sb_inodestart set_sb_bmapstart : setters.

(** struct log (log.c) *)
Record logst := mklog {
  log_start : Z;
  log_size : Z;
  log_outstanding : Z;
  log_committing : Z;
  log_dev : Z;
  log_n : Z;  (* lh.n *)
  log_block : list Z  (* lh.block[LOGSIZE] *)
}.

Definition set_log_start (x : Z) (r : logst) : logst :=
  mklog x (log_size r) (log_outstanding r) (log_committing r) (log_dev r) (log_n r)
    (log_block r).
Definition set_log_size (x : Z) (r : logst) : logst :=
  mklog (log_start r) x (log_outstanding r) (log_committing r) (log_dev r) (log_n r)
    (log_block r).
Definition set_log_outstanding (x : Z) (r : logst) : logst :=
  mklog (log_start r) (log_size r) x (log_committing r) (log_dev r) (log_n r) (log_block r).
Definition set_log_committing (x : Z) (r : logst) : logst :=
  mklog (log_start r) (log_size r) (log_outstanding r) x (log_dev r) (log_n r) (log_block r).
Definition set_log_dev (x : Z) (r : logst) : logst :=
  mklog (log_start r) (log_size r) (log_outstanding r) (log_committing r) x (log_n r)
    (log_block r).
Definition set_log_n (x : Z) (r : logst) : logst :=
  mklog (log_start r) (log_size r) (log_outstanding r) (log_committing r) (log_dev r) x
    (log_block r).
Definition set_log_block (x : list Z) (r : logst) : logst :=
  mklog (log_start r) (log_size r) (log_outstanding r) (log_committing r) (log_dev r) (log_n r)
    x.
#[export] Hint Unfold set_log_start set_log_size set_log_outstanding set_log_committing
  set_log_dev set_log_n set_log_block : setters.

(** Addresses the disk driver hands to the device: a request header, the data
    of a buffer, a status byte. *)
Inductive dma := DNull | DReq (i : nat) | DData (b : nat) | DStatus (i : nat).
#[export] Instance dma_eq_dec : EqDecision dma.
Proof. solve_decision. Defined.

(** struct virtq_desc (virtio.h) *)
Record vdesc := mkvdesc {
  vd_addr : dma;
  vd_len : Z;
  vd_flags : Z;
  vd_next : Z
}.

Definition set_vd_addr (x : dma) (r : vdesc) : vdesc :=
  mkvdesc x (vd_len r) (vd_flags r) (vd_next r).
Definition set_vd_len (x : Z) (r : vdesc) : vdesc :=
  mkvdesc (vd_addr r) x (vd_flags r) (vd_next r).
Definition set_vd_flags (x : Z) (r : vdesc) : vdesc :=
  mkvdesc (vd_addr r) (vd_len r) x (vd_next r).
Definition set_vd_next (x : Z) (r : vdesc) : vdesc :=
  mkvdesc (vd_addr r) (vd_len r) (vd_flags r) x.
#[export] Hint Unfold set_vd_addr set_vd_len set_vd_flags set_vd_next : setters.

(** struct virtio_blk_req (virtio.h) *)
Record blkreq := mkblkreq {
  rq_type : Z;
  rq_reserved : Z;
  rq_sector : Z
}.


(** struct disk of virtio_disk.c, with its queues and the device's registers *)
Record vdisk := mkvdisk {
  dk_desc : list vdesc;  (* the descriptor table *)
  dk_avail_idx : Z;  (* avail->idx *)
  dk_avail_ring : list Z;  (* avail->ring *)
  dk_dev_idx : Z;  (* used->idx, written by the device *)
  dk_used_ring : list Z;  (* ids of used->ring *)
  dk_free : list Z;  (* is a descriptor free? *)
  dk_used_idx : Z;  (* how far the driver looked in used *)
  dk_info_b : list (option nat);  (* info[].b *)
  dk_info_status : list Z;  (* info[].status *)
  dk_ops : list blkreq;  (* command headers *)
  dk_regs : gmap Z Z;  (* the mmio registers *)
  dk_react : Z -> Z;  (* what the status register reads after a write *)
  dk_pages : list Z  (* the pages of desc, avail and used *)
}.

Definition set_dk_desc (x : list vdesc) (r : vdisk) : vdisk :=
  mkvdisk x (dk_avail_idx r) (dk_avail_ring r) (dk_dev_idx r) (dk_used_ring r) (dk_free r)
    (dk_used_idx r) (dk_info_b r) (dk_info_status r) (dk_ops r) (dk_regs r) (dk_react r)
    (dk_pages r).
Definition set_dk_avail_idx (x : Z) (r : vdisk) : vdisk :=
  mkvdisk (dk_desc r) x (dk_avail_ring r) (dk_dev_idx r) (dk_used_ring r) (dk_free r)
    (dk_used_idx r) (dk_info_b r) (dk_info_status r) (dk_ops r) (dk_regs r) (dk_react r)
    (dk_pages r).
Definition set_dk_avail_ring (x : list Z) (r : vdisk) : vdisk :=
  mkvdisk (dk_desc r) (dk_avail_idx r) x (dk_dev_idx r) (dk_used_ring r) (dk_free r)
    (dk_used_idx r) (dk_info_b r) (dk_info_status r) (dk_ops r) (dk_regs r) (dk_react r)
    (dk_pages r).
Definition set_dk_dev_idx (x : Z) (r : vdisk) : vdisk :=
  mkvdisk (dk_desc r) (dk_avail_idx r) (dk_avail_ring r) x (dk_used_ring r) (dk_free r)
    (dk_used_idx r) (dk_info_b r) (dk_info_status r) (dk_ops r) (dk_regs r) (dk_react r)
    (dk_pages r).
Definition set_dk_used_ring (x : list Z) (r : vdisk) : vdisk :=
  mkvdisk (dk_desc r) (dk_avail_idx r) (dk_avail_ring r) (dk_dev_idx r) x (dk_free r)
    (dk_used_idx r) (dk_info_b r) (dk_info_status r) (dk_ops r) (dk_regs r) (dk_react r)
    (dk_pages r).
Definition set_dk_free (x : list Z) (r : vdisk) : vdisk :=
  mkvdisk (dk_desc r) (dk_avail_idx r) (dk_avail_ring r) (dk_dev_idx r) (dk_used_ring r) x
    (dk_used_idx r) (dk_info_b r) (dk_info_status r) (dk_ops r) (dk_regs r) (dk_react r)
    (dk_pages r).
Definition set_dk_used_idx (x : Z) (r : vdisk) : vdisk :=
  mkvdisk (dk_desc r) (dk_avail_idx r) (dk_avail_ring r) (dk_dev_idx r) (dk_used_ring r)
    (dk_free r) x (dk_info_b r) (dk_info_status r) (dk_ops r) (dk_regs r) (dk_react r)
    (dk_pages r).
Definition set_dk_info_b (x : list (option nat)) (r : vdisk) : vdisk :=
  mkvdisk (dk_desc r) (dk_avail_idx r) (dk_avail_ring r) (dk_dev_idx r) (dk_used_ring r)
    (dk_free r) (dk_used_idx r) x (dk_info_status r) (dk_ops r) (dk_regs r) (dk_react r)
    (dk_pages r).
Definition set_dk_info_status (x : list Z) (r : vdisk) : vdisk :=
  mkvdisk (dk_desc r) (dk_avail_idx r) (dk_avail_ring r) (dk_dev_idx r) (dk_used_ring r)
    (dk_free r) (dk_used_idx r) (dk_info_b r) x (dk_ops r) (dk_regs r) (dk_react r) (dk_pages r).
Definition set_dk_ops (x : list blkreq) (r : vdisk) : vdisk :=
  mkvdisk (dk_desc r) (dk_avail_idx r) (dk_avail_ring r) (dk_dev_idx r) (dk_used_ring r)
    (dk_free r) (dk_used_idx r) (dk_info_b r) (dk_info_status r) x (dk_regs r) (dk_react r)
    (dk_pages r).
Definition set_dk_regs (x : gmap Z Z) (r : vdisk) : vdisk :=
  mkvdisk (dk_desc r) (dk_avail_idx r) (dk_avail_ring r) (dk_dev_idx r) (dk_used_ring r)
    (dk_free r) (dk_used_idx r) (dk_info_b r) (dk_info_status r) (dk_ops r) x (dk_react r)
    (dk_pages r).
Definition set_dk_react (x : Z -> Z) (r : vdisk) : vdisk :=
  mkvdisk (dk_desc r) (dk_avail_idx r) (dk_avail_ring r) (dk_dev_idx r) (dk_used_ring r)
    (dk_free r) (dk_used_idx r) (dk_info_b r) (dk_info_status r) (dk_ops r) (dk_regs r) x
    (dk_pages r).
Definition set_dk_pages (x : list Z) (r : vdisk) : vdisk :=
  mkvdisk (dk_desc r) (dk_avail_idx r) (dk_avail_ring r) (dk_dev_idx r) (dk_used_ring r)
    (dk_free r) (dk_used_idx r) (dk_info_b r) (dk_info_status r) (dk_ops r) (dk_regs r)
    (dk_react r) x.
#[export] Hint Unfold set_dk_desc set_dk_avail_idx set_dk_avail_ring set_dk_dev_idx
  set_dk_used_ring set_dk_free set_dk_used_idx set_dk_info_b set_dk_info_status set_dk_ops
  set_dk_regs set_dk_react set_dk_pages : setters.

(** Globals of file.c, fs.c, bio.c, log.c and virtio_disk.c, and the disk *)
Record fsstate := mkfs {
  fs_file : list file;  (* ftable.file *)
  fs_inode : list inode;  (* itable.inode *)
  fs_buf : list buf;  (* bcache.buf, then bcache.head *)
  fs_log : logst;
  fs_sb : superblock;
  fs_disk : gmap Z (list Z);  (* blocks of the disk *)
  fs_devsw : list bool;  (* devsw[i] set (console) *)
  fs_vd : vdisk  (* disk of virtio_disk.c *)
}.

Definition set_fs_file (x : list file) (r : fsstate) : fsstate :=
  mkfs x (fs_inode r) (fs_buf r) (fs_log r) (fs_sb r) (fs_disk r) (fs_devsw r) (fs_vd r).
Definition set_fs_inode (x : list inode) (r : fsstate) : fsstate :=
  mkfs (fs_file r) x (fs_buf r) (fs_log r) (fs_sb r) (fs_disk r) (fs_devsw r) (fs_vd r).
Definition set_fs_buf (x : list buf) (r : fsstate) : fsstate :=
  mkfs (fs_file r) (fs_inode r) x (fs_log r) (fs_sb r) (fs_disk r) (fs_devsw r) (fs_vd r).
Definition set_fs_log (x : logst) (r : fsstate) : fsstate :=
  mkfs (fs_file r) (fs_inode r) (fs_buf r) x (fs_sb r) (fs_disk r) (fs_devsw r) (fs_vd r).
Definition set_fs_sb (x : superblock) (r : fsstate) : fsstate :=
  mkfs (fs_file r) (fs_inode r) (fs_buf r) (fs_log r) x (fs_disk r) (fs_devsw r) (fs_vd r).
Definition set_fs_disk (x : gmap Z (list Z)) (r : fsstate) : fsstate :=
  mkfs (fs_file r) (fs_inode r) (fs_buf r) (fs_log r) (fs_sb r) x (fs_devsw r) (fs_vd r).
Definition set_fs_devsw (x : list bool) (r : fsstate) : fsstate :=
  mkfs (fs_file r) (fs_inode r) (fs_buf r) (fs_log r) (fs_sb r) (fs_disk r) x (fs_vd r).
Definition set_fs_vd (x : vdisk) (r : fsstate) : fsstate :=
  mkfs (fs_file r) (fs_inode r) (fs_buf r) (fs_log r) (fs_sb r) (fs_disk r) (fs_devsw r) x.
#[export] Hint Unfold set_fs_file set_fs_inode set_fs_buf set_fs_log set_fs_sb set_fs_disk
  set_fs_devsw set_fs_vd : setters.

(** The machine state a kernel thread runs on *)
Record kstate := mkK {
  k_hw : hwstate;
  k_ps : procs;
  k_mm : memory;
  k_io : io;
  k_fs : fsstate
}.

Definition set_k_hw (x : hwstate) (r : kstate) : kstate :=
  mkK x (k_ps r) (k_mm r) (k_io r) (k_fs r).
Definition set_k_ps (x : procs) (r : kstate) : kstate :=
  mkK (k_hw r) x (k_mm r) (k_io r) (k_fs r).
Definition set_k_mm (x : memory) (r : kstate) : kstate :=
  mkK (k_hw r) (k_ps r) x (k_io r) (k_fs r).
Definition set_k_io (x : io) (r : kstate) : kstate :=
  mkK (k_hw r) (k_ps r) (k_mm r) x (k_fs r).
Definition set_k_fs (x : fsstate) (r : kstate) : kstate :=
  mkK (k_hw r) (k_ps r) (k_mm r) (k_io r) x.
#[export] Hint Unfold set_k_hw set_k_ps set_k_mm set_k_io set_k_fs : setters.

(** A kernel routine. *)
Definition K (A : Type) : Type := M kstate A.
