(* ===== verification/Spinlock.v ===== *)
(** Spin locks and interrupt nesting (spinlock.c), the hart's CSRs (riscv.h)
    and the per-cpu accessors of proc.c ([cpuid], [mycpu], [myproc]).

    The theorems show that [push_off]/[pop_off] and [acquire]/[release] nest:
    a critical section restores the interrupt state and every lock, and
    [acquire] takes the lock exactly when an attempt finds it free, whatever
    the other harts do. *)
From S2P Require Import Prelude State.

(** ** Access to the parts of the state *)
Definition modify_hw (f : hwstate -> hwstate) : K unit := modify (fun s => set_k_hw (f (k_hw s)) s).
Definition modify_ps (f : procs -> procs) : K unit := modify (fun s => set_k_ps (f (k_ps s)) s).
Definition modify_mm (f : memory -> memory) : K unit := modify (fun s => set_k_mm (f (k_mm s)) s).
Definition modify_io (f : io -> io) : K unit := modify (fun s => set_k_io (f (k_io s)) s).
Definition modify_fs (f : fsstate -> fsstate) : K unit := modify (fun s => set_k_fs (f (k_fs s)) s).

(** ** riscv.h *)
Definition SSTATUS_SPP : Z := Z.shiftl 1 8.
Definition SSTATUS_SPIE : Z := Z.shiftl 1 5.
Definition SSTATUS_SIE : Z := Z.shiftl 1 1.

Definition r_sstatus : K Z := gets (fun s => h_sstatus (k_hw s)).
Definition w_sstatus (x : Z) : K unit := modify_hw (set_h_sstatus x).

(** enable device interrupts *)
Definition intr_on : K unit := x <- r_sstatus;; w_sstatus (Z.lor x SSTATUS_SIE).
(** disable device interrupts *)
Definition intr_off : K unit := x <- r_sstatus;; w_sstatus (Z.land x (Z.lnot SSTATUS_SIE)).
(** are device interrupts enabled? *)
Definition intr_get : K bool := x <- r_sstatus;; ret (istrue (Z.land x SSTATUS_SIE)).

(** ** proc.c: which cpu, which process *)
Definition cpuid : K nat := gets (fun s => h_tp (k_hw s)).

(** [mycpu()] reads the struct; writes go through [upd_mycpu]. *)
Definition mycpu : K cpu :=
  id <- cpuid;; cs <- gets (fun s => h_cpus (k_hw s));;
  match cs !! id with Some c => ret c | None => fault "mycpu: no such cpu" end.
Definition upd_mycpu (f : cpu -> cpu) : K unit :=
  id <- cpuid;; c <- mycpu;; modify_hw (fun h => set_h_cpus (<[id := f c]> (h_cpus h)) h).

(** ** spinlock.c *)
Definition push_off : K unit :=
  old <- intr_get;;
  intr_off;;
  c <- mycpu;;
  when (c_noff c =? 0) (upd_mycpu (set_c_intena (b2z old)));;
  upd_mycpu (fun c => set_c_noff (s32 (c_noff c + 1)) c).

Definition pop_off : K unit :=
  c <- mycpu;;
  on <- intr_get;;
  if on then panic "pop_off - interruptible" else
  if c_noff c <? 1 then panic "pop_off" else
  upd_mycpu (fun c => set_c_noff (s32 (c_noff c - 1)) c);;
  c <- mycpu;;
  when ((c_noff c =? 0) && istrue (c_intena c)) intr_on.

Definition lock_at (l : lockid) : K spinlock :=
  ls <- gets (fun s => h_locks (k_hw s));;
  match ls !! l with Some k => ret k | None => fault "no such lock" end.
Definition upd_lock (l : lockid) (k : spinlock) : K unit :=
  modify_hw (fun h => set_h_locks (<[l := k]> (h_locks h)) h).

Definition initlock (l : lockid) (name : string) : K unit :=
  upd_lock l (mkspinlock 0 name None).

(** check whether this cpu is holding the lock *)
Definition holding (l : lockid) : K bool :=
  k <- lock_at l;;
  id <- cpuid;;
  ret (istrue (lk_locked k) && bool_decide (lk_cpu k = Some id)).

(** the [amoswap] loop of [acquire]: while another hart has the lock, the
    other harts run *)
Fixpoint spin (fuel : nat) (l : lockid) : K unit :=
  k <- lock_at l;;
  upd_lock l (set_lk_locked 1 k);;
  if istrue (lk_locked k) then
    match fuel with
    | O => fun e s => Blocked s
    | S fuel' => interfere;; spin fuel' l
    end
  else ret tt.

Definition acquire (l : lockid) : K unit :=
  push_off;;
  h <- holding l;;
  if (h : bool) then panic "acquire" else
  (fun e s => spin (length e) l e s);;
  k <- lock_at l;;
  id <- cpuid;;
  upd_lock l (set_lk_cpu (Some id) k).

Definition release (l : lockid) : K unit :=
  h <- holding l;;
  if negb h then panic "release" else
  k <- lock_at l;;
  upd_lock l (set_lk_cpu None k);;
  k <- lock_at l;;
  upd_lock l (set_lk_locked 0 k);;
  pop_off.

(** the current process, or [None] *)
Definition myproc : K (option nat) :=
  push_off;;
  c <- mycpu;;
  pop_off;;
  ret (c_proc c).

(** ** Interrupt state and nesting *)
Definition sie (h : hwstate) : bool := istrue (Z.land (h_sstatus h) SSTATUS_SIE).

(** The executing hart has its struct cpu, interrupts are off inside
    [push_off], and there is room for [n] more nested [push_off]s before the
    32-bit [noff] overflows. *)
Definition hart_ok (n : Z) (h : hwstate) : Prop :=
  exists c, h_cpus h !! h_tp h = Some c /\ (0 <= c_noff c /\ c_noff c + n < 2 ^ 31) /\
    (0 < c_noff c -> sie h = false).

Definition cur_cpu (h : hwstate) : option cpu := h_cpus h !! h_tp h.
Definition depth (h : hwstate) : Z := match cur_cpu h with Some c => c_noff c | None => 0 end.

(** [c_intena] of the executing hart only means something inside [push_off]:
    [norm] forgets it when the nesting depth is zero. *)
Definition norm (h : hwstate) : hwstate :=
  match cur_cpu h with
  | Some c => if c_noff c =? 0
              then set_h_cpus (<[h_tp h := set_c_intena 0 c]> (h_cpus h)) h else h
  | None => h
  end.
Definition hw_eqv (h h' : hwstate) : Prop := norm h = norm h'.
Infix "≈h" := hw_eqv (at level 70).

#[export] Instance hw_eqv_equiv : Equivalence hw_eqv.
Proof. unfold hw_eqv. split; [by intros ? | by intros ?? -> | by intros ??? -> ->]. Qed.

Definition lock_free (h : hwstate) (l : lockid) : Prop :=
  exists n, h_locks h !! l = Some (mkspinlock 0 n None).
Definition lock_held (h : hwstate) (l : lockid) : Prop :=
  exists n, h_locks h !! l = Some (mkspinlock 1 n (Some (h_tp h))).

(** The fields [norm] leaves alone. *)
Lemma norm_fields h :
  h_tp (norm h) = h_tp h /\ h_sstatus (norm h) = h_sstatus h /\ h_locks (norm h) = h_locks h /\
  h_sepc (norm h) = h_sepc h /\ h_scause (norm h) = h_scause h /\ h_stval (norm h) = h_stval h /\
  h_stvec (norm h) = h_stvec h /\ h_satp (norm h) = h_satp h /\ h_sip (norm h) = h_sip h /\
  length (h_cpus (norm h)) = length (h_cpus h).
Proof.
  unfold norm, cur_cpu. destruct (h_cpus h !! h_tp h) as [c|]; [|done].
  destruct (c_noff c =? 0); cbn; rewrite ?length_insert; done.
Qed.

(** ** The interrupt bit *)
Lemma land_SIE x : istrue (Z.land x SSTATUS_SIE) = Z.testbit x 1.
Proof.
  unfold istrue, SSTATUS_SIE. change (Z.shiftl 1 1) with (2 ^ 1).
  rewrite Z.land_comm. destruct (Z.testbit x 1) eqn:E.
  - destruct (Z.eqb_spec (Z.land (2 ^ 1) x) 0) as [H|]; [|done].
    apply (f_equal (fun z => Z.testbit z 1)) in H.
    rewrite Z.land_spec, E, Z.bits_0 in H. done.
  - replace (Z.land (2 ^ 1) x) with 0; [done|].
    apply Z.bits_inj'. intros n Hn. rewrite Z.land_spec, Z.bits_0, Z.pow2_bits_eqb by lia.
    destruct (Z.eqb_spec 1 n) as [Hn1|]; [subst n; rewrite E; done | done].
Qed.
Lemma intr_off_bit x : Z.testbit (Z.land x (Z.lnot SSTATUS_SIE)) 1 = false.
Proof. rewrite Z.land_spec, Z.lnot_spec by lia. by rewrite andb_false_r. Qed.
Lemma intr_on_off x : Z.testbit x 1 = true ->
  Z.lor (Z.land x (Z.lnot SSTATUS_SIE)) SSTATUS_SIE = x.
Proof.
  intros H. apply Z.bits_inj'. intros n Hn.
  rewrite Z.lor_spec, Z.land_spec, Z.lnot_spec by lia.
  change SSTATUS_SIE with (2 ^ 1). rewrite Z.pow2_bits_eqb by lia.
  destruct (Z.eqb_spec 1 n) as [<-|]; [by rewrite H | by destruct (Z.testbit x n)].
Qed.
Lemma intr_off_id x : Z.testbit x 1 = false -> Z.land x (Z.lnot SSTATUS_SIE) = x.
Proof.
  intros H. apply Z.bits_inj'. intros n Hn. rewrite Z.land_spec, Z.lnot_spec by lia.
  change SSTATUS_SIE with (2 ^ 1). rewrite Z.pow2_bits_eqb by lia.
  destruct (Z.eqb_spec 1 n) as [<-|]; [by rewrite H | by destruct (Z.testbit x n)].
Qed.

(** ** What the primitives do to the hardware state *)
Definition cpu_push (on : bool) (c : cpu) : cpu :=
  set_c_noff (c_noff c + 1) (if c_noff c =? 0 then set_c_intena (b2z on) c else c).
Definition hw_off (h : hwstate) : hwstate :=
  set_h_sstatus (Z.land (h_sstatus h) (Z.lnot SSTATUS_SIE)) h.
Definition hw_push (h : hwstate) : hwstate :=
  match cur_cpu h with
  | Some c => set_h_cpus (<[h_tp h := cpu_push (sie h) c]> (h_cpus h)) (hw_off h)
  | None => h
  end.
Definition hw_pop (h : hwstate) : hwstate :=
  match cur_cpu h with
  | Some c =>
      let h' := set_h_cpus (<[h_tp h := set_c_noff (c_noff c - 1) c]> (h_cpus h)) h in
      if (c_noff c - 1 =? 0) && istrue (c_intena c)
      then set_h_sstatus (Z.lor (h_sstatus h) SSTATUS_SIE) h' else h'
  | None => h
  end.
Definition hw_lock (l : lockid) (k : spinlock) (h : hwstate) : hwstate :=
  set_h_locks (<[l := k]> (h_locks h)) h.
Definition hw_acq (l : lockid) (h : hwstate) : hwstate :=
  match h_locks h !! l with
  | Some k => hw_lock l (mkspinlock 1 (lk_name k) (Some (h_tp h))) (hw_push h)
  | None => hw_push h
  end.
Definition hw_rel (l : lockid) (h : hwstate) : hwstate :=
  match h_locks h !! l with
  | Some k => hw_pop (hw_lock l (mkspinlock 0 (lk_name k) None) h)
  | None => h
  end.
(** the hardware state after a complete critical section *)
Definition hw_crit (h : hwstate) : hwstate :=
  match cur_cpu h with
  | Some c => if c_noff c =? 0
              then set_h_cpus (<[h_tp h := set_c_intena (b2z (sie h)) c]> (h_cpus h)) h else h
  | None => h
  end.

Lemma hw_lock_self l k h : h_locks h !! l = Some k -> hw_lock l k h = h.
Proof. intros H. destruct h; cbn in *. unfold hw_lock. cbn. by rewrite insert_id. Qed.

Lemma lock_set_self l h k1 k2 : hw_lock l k1 (hw_lock l k2 h) = hw_lock l k1 h.
Proof. unfold hw_lock. cbn. by rewrite insert_insert_eq. Qed.

Lemma cpu_eta c : mkcpu (c_proc c) (c_context c) (c_noff c) (c_intena c) = c.
Proof. by destruct c. Qed.

Section push_pop.
Context (h : hwstate) (c : cpu).
Context (Hc : h_cpus h !! h_tp h = Some c) (Hn : 0 <= c_noff c).
Context (Hoff : 0 < c_noff c -> sie h = false).

Lemma cur_cpu_lt : (h_tp h < length (h_cpus h))%nat.
Proof. by eapply lookup_lt_Some. Qed.

Lemma cur_cpu_push : cur_cpu (hw_push h) = Some (cpu_push (sie h) c).
Proof.
  unfold hw_push, cur_cpu. rewrite Hc. cbn. apply list_lookup_insert_eq, cur_cpu_lt.
Qed.

Lemma hw_pop_push : hw_pop (hw_push h) = hw_crit h.
Proof.
  unfold hw_pop. rewrite cur_cpu_push.
  unfold hw_push, hw_crit, cur_cpu. rewrite Hc. cbn. rewrite list_insert_insert_eq.
  unfold cpu_push, hw_off. pose proof Hoff as Ho. revert Ho.
  unfold sie. rewrite !land_SIE.
  destruct (Z.eqb_spec (c_noff c) 0) as [Hz|Hz]; cbn; intros Ho.
  - rewrite Hz. change (0 + 1 - 1) with 0. cbn.
    destruct (Z.testbit (h_sstatus h) 1) eqn:E; cbn.
    + rewrite intr_on_off by done. destruct h, c; cbn in *. by subst.
    + rewrite intr_off_id by done. destruct h, c; cbn in *. by subst.
  - replace (c_noff c + 1 - 1 =? 0) with false by lia. cbn.
    rewrite Z.add_simpl_r, intr_off_id by (apply Ho; lia).
    replace (set_c_noff (c_noff c) (set_c_noff (c_noff c + 1) c)) with c by (by destruct c).
    rewrite list_insert_id by done. by destruct h.
Qed.
End push_pop.

Lemma hw_crit_eqv h : hw_crit h ≈h h.
Proof.
  unfold hw_eqv, norm, hw_crit, cur_cpu.
  destruct (h_cpus h !! h_tp h) as [c|] eqn:Hc; [|by rewrite Hc].
  destruct (c_noff c =? 0) eqn:E; [|by rewrite Hc, E].
  cbn. rewrite list_lookup_insert_eq by (by eapply lookup_lt_Some). cbn. rewrite E.
  rewrite list_insert_insert_eq. by destruct h, c.
Qed.

(** Equivalent hardware states agree on everything but [c_intena]. *)
Lemma hw_eqv_fields h h' : h ≈h h' ->
  h_tp h = h_tp h' /\ h_sstatus h = h_sstatus h' /\ h_locks h = h_locks h' /\
  h_sepc h = h_sepc h' /\ h_scause h = h_scause h' /\ h_stval h = h_stval h' /\
  h_stvec h = h_stvec h' /\ h_satp h = h_satp h' /\ h_sip h = h_sip h' /\
  length (h_cpus h) = length (h_cpus h').
Proof.
  intros H. pose proof (norm_fields h) as N1. pose proof (norm_fields h') as N2.
  rewrite H in N1. intuition congruence.
Qed.
Lemma norm_cur h : cur_cpu (norm h) =
  (fun c => if c_noff c =? 0 then set_c_intena 0 c else c) <$> cur_cpu h.
Proof.
  unfold norm. destruct (cur_cpu h) as [c|] eqn:Hc; [|by rewrite Hc].
  destruct (c_noff c =? 0) eqn:E; cbn; [|by rewrite Hc, E].
  unfold cur_cpu in *. cbn. rewrite list_lookup_insert_eq by (by eapply lookup_lt_Some).
  by rewrite E.
Qed.
Lemma hw_eqv_cur h h' : h ≈h h' ->
  match cur_cpu h, cur_cpu h' with
  | Some c, Some c' => c_proc c = c_proc c' /\ c_context c = c_context c' /\
      c_noff c = c_noff c' /\ (c_noff c = 0 \/ c_intena c = c_intena c')
  | None, None => True
  | _, _ => False
  end.
Proof.
  intros H. apply (f_equal cur_cpu) in H. rewrite !norm_cur in H.
  destruct (cur_cpu h) as [c|], (cur_cpu h') as [c'|]; cbn in H; simplify_eq; [|done].
  destruct (Z.eqb_spec (c_noff c) 0), (Z.eqb_spec (c_noff c') 0);
    destruct c, c'; usets; simplify_eq; repeat split; try lia; eauto.
Qed.
Lemma hw_eqv_cpus h h' i : h ≈h h' -> i <> h_tp h -> h_cpus h !! i = h_cpus h' !! i.
Proof.
  intros H Hi. pose proof (hw_eqv_fields _ _ H) as (Htp & _).
  assert (forall g, i <> h_tp g -> h_cpus (norm g) !! i = h_cpus g !! i) as N.
  { intros g Hg. unfold norm. destruct (cur_cpu g) as [c|]; [|done].
    destruct (c_noff c =? 0); cbn; [|done]. by rewrite list_lookup_insert_ne. }
  rewrite <- (N h), <- (N h'), H by congruence. done.
Qed.

Lemma hart_ok_eqv n h h' : h ≈h h' -> hart_ok n h -> hart_ok n h'.
Proof.
  intros H (c & Hc & Hn & Ho). pose proof (hw_eqv_cur _ _ H) as Hcur.
  pose proof (hw_eqv_fields _ _ H) as (Htp & Hs & _). unfold cur_cpu in Hcur.
  rewrite Hc in Hcur. destruct (h_cpus h' !! h_tp h') as [c'|] eqn:Hc'; [|done].
  destruct Hcur as (_ & _ & Hnoff & _). exists c'. unfold sie in *.
  rewrite <- Hs, <- Hnoff. done.
Qed.
Lemma lock_free_eqv h h' l : h ≈h h' -> lock_free h l -> lock_free h' l.
Proof. intros H. unfold lock_free. by destruct (hw_eqv_fields _ _ H) as (_ & _ & -> & _). Qed.

(** Entering [push_off] forgets the difference. *)
#[export] Instance hw_push_proper : Proper (hw_eqv ==> eq) hw_push.
Proof.
  intros h h' H. pose proof (hw_eqv_cur _ _ H) as Hcur.
  pose proof (hw_eqv_fields _ _ H) as (Htp & Hs & Hl & H1 & H2 & H3 & H4 & H5 & H6 & _).
  assert (sie h = sie h') as Hsie by (unfold sie; by rewrite Hs).
  unfold hw_push. destruct (cur_cpu h) as [c|] eqn:Hc, (cur_cpu h') as [c'|] eqn:Hc'; try done.
  - destruct Hcur as (Hp & Hx & Hn & Hi).
    assert (cpu_push (sie h) c = cpu_push (sie h') c') as ->.
    { unfold cpu_push. rewrite Hsie, Hn.
      destruct (Z.eqb_spec (c_noff c') 0); destruct c, c'; cbn in *; simplify_eq;
        [done | destruct Hi; [lia | by subst]]. }
    assert (forall x, <[h_tp h := x]> (h_cpus h) = <[h_tp h' := x]> (h_cpus h')) as Hins.
    { intros x. apply list_eq. intros i. destruct (decide (i = h_tp h)) as [->|Hne].
      - rewrite list_lookup_insert_eq by (by eapply lookup_lt_Some).
        rewrite Htp, list_lookup_insert_eq by (by eapply lookup_lt_Some). done.
      - rewrite !list_lookup_insert_ne by congruence. by apply hw_eqv_cpus. }
    rewrite Hins. unfold hw_off. destruct h, h'; cbn in *. by simplify_eq.
  - unfold hw_eqv, norm in H. rewrite Hc, Hc' in H. done.
Qed.
#[export] Instance hw_acq_proper l : Proper (hw_eqv ==> eq) (hw_acq l).
Proof.
  intros h h' H. unfold hw_acq. pose proof (hw_eqv_fields _ _ H) as (-> & _ & -> & _).
  by rewrite (hw_push_proper _ _ H).
Qed.

(** ** Specifications *)
Lemma wp_intr_get e s (Q : bool -> list (kstate -> kstate) -> kstate -> Prop) :
  Q (sie (k_hw s)) e s -> wp intr_get e s Q.
Proof. done. Qed.

Lemma wp_mycpu e s c (Q : cpu -> list (kstate -> kstate) -> kstate -> Prop) :
  cur_cpu (k_hw s) = Some c -> Q c e s -> wp mycpu e s Q.
Proof. unfold cur_cpu. intros Hc HQ. unfold wp, mycpu, bind. cbn. by rewrite Hc. Qed.

Lemma wp_upd_mycpu f e s c (Q : unit -> list (kstate -> kstate) -> kstate -> Prop) :
  cur_cpu (k_hw s) = Some c ->
  Q tt e (set_k_hw (set_h_cpus (<[h_tp (k_hw s) := f c]> (h_cpus (k_hw s))) (k_hw s)) s) ->
  wp (upd_mycpu f) e s Q.
Proof. unfold cur_cpu. intros Hc HQ. unfold wp, upd_mycpu, mycpu, bind. cbn. by rewrite Hc. Qed.

Lemma wp_push_off e s (Q : unit -> list (kstate -> kstate) -> kstate -> Prop) :
  hart_ok 1 (k_hw s) -> Q tt e (set_k_hw (hw_push (k_hw s)) s) -> wp push_off e s Q.
Proof.
  intros (c & Hc & Hn & _) HQ. unfold push_off, intr_off, r_sstatus, w_sstatus, modify_hw.
  wp_step. apply wp_intr_get. wp_steps. cbn. eapply wp_mycpu; [exact Hc|].
  wp_steps. apply wp_when; intros E; [eapply wp_upd_mycpu; [exact Hc|] | ].
  - eapply wp_upd_mycpu.
    + cbn. apply list_lookup_insert_eq. by eapply lookup_lt_Some.
    + cbn. rewrite list_insert_insert_eq, s32_small by lia.
      revert HQ. unfold hw_push, cur_cpu, cpu_push, hw_off. rewrite Hc, E. by destruct (k_hw s).
  - eapply wp_upd_mycpu; [exact Hc|]. cbn. rewrite s32_small by lia.
    revert HQ. unfold hw_push, cur_cpu, cpu_push, hw_off. rewrite Hc, E. by destruct (k_hw s).
Qed.

Lemma wp_pop_off e s c (Q : unit -> list (kstate -> kstate) -> kstate -> Prop) :
  cur_cpu (k_hw s) = Some c -> 1 <= c_noff c < 2 ^ 31 -> sie (k_hw s) = false ->
  Q tt e (set_k_hw (hw_pop (k_hw s)) s) -> wp pop_off e s Q.
Proof.
  intros Hc Hn Hs HQ. unfold pop_off. wp_step. eapply wp_mycpu; [exact Hc|].
  wp_step. apply wp_intr_get. rewrite Hs.
  replace (c_noff c <? 1) with false by lia. wp_step.
  eapply wp_upd_mycpu; [exact Hc|]. wp_step. eapply wp_mycpu.
  { unfold cur_cpu. cbn. apply list_lookup_insert_eq. by eapply lookup_lt_Some. }
  cbn. rewrite s32_small by lia.
  revert HQ. unfold hw_pop. rewrite Hc. intros HQ.
  apply wp_when; intros E; rewrite E in HQ; exact HQ.
Qed.

Lemma wp_holding l e s k (Q : bool -> list (kstate -> kstate) -> kstate -> Prop) :
  h_locks (k_hw s) !! l = Some k ->
  Q (istrue (lk_locked k) && bool_decide (lk_cpu k = Some (h_tp (k_hw s)))) e s ->
  wp (holding l) e s Q.
Proof. intros Hl HQ. unfold wp, holding, lock_at, bind. cbn. by rewrite Hl. Qed.
Lemma wp_lock_at l e s k (Q : spinlock -> list (kstate -> kstate) -> kstate -> Prop) :
  h_locks (k_hw s) !! l = Some k -> Q k e s -> wp (lock_at l) e s Q.
Proof. intros Hl HQ. unfold wp, lock_at, bind. cbn. by rewrite Hl. Qed.

Lemma hw_push_locks h : h_locks (hw_push h) = h_locks h /\ h_tp (hw_push h) = h_tp h.
Proof. unfold hw_push. by destruct (cur_cpu h). Qed.

(** A free lock is taken at once. *)
Lemma wp_acquire l e s (Q : unit -> list (kstate -> kstate) -> kstate -> Prop) :
  hart_ok 1 (k_hw s) -> lock_free (k_hw s) l ->
  Q tt e (set_k_hw (hw_acq l (k_hw s)) s) -> wp (acquire l) e s Q.
Proof.
  intros Hok (n & Hl) HQ. unfold acquire. wp_step. apply wp_push_off; [done|].
  destruct (hw_push_locks (k_hw s)) as [Hpl Hpt].
  wp_step. eapply wp_holding; [cbn; by rewrite Hpl|]. cbn.
  wp_step. unfold wp. destruct (length e) as [|k]; unfold spin, lock_at, bind; cbn;
    rewrite Hpl, Hl; cbn; rewrite lookup_insert_eq; cbn; revert HQ; unfold hw_acq;
    rewrite Hl; cbn; unfold hw_lock; rewrite insert_insert_eq, Hpl, Hpt; by destruct (hw_push (k_hw s)).
Qed.

Lemma hw_acq_fields l h : let h' := hw_acq l h in
  h_tp h' = h_tp h /\ h_sepc h' = h_sepc h /\ h_scause h' = h_scause h /\
  h_stval h' = h_stval h /\ h_stvec h' = h_stvec h /\ h_satp h' = h_satp h /\ h_sip h' = h_sip h.
Proof.
  unfold hw_acq, hw_push. destruct (h_locks h !! l), (cur_cpu h); done.
Qed.

Section acquired.
Context (h : hwstate) (l : lockid) (n : Z).
Context (Hok : hart_ok n h) (Hfree : lock_free h l).

Lemma hw_acq_held : lock_held (hw_acq l h) l.
Proof using Hfree.
  destruct Hfree as (m & Hl). unfold lock_held, hw_acq. rewrite Hl. exists m. cbn.
  rewrite lookup_insert_eq. by destruct (hw_push_locks h) as [_ ->].
Qed.
Lemma hw_acq_other l' : l <> l' -> h_locks (hw_acq l h) !! l' = h_locks h !! l'.
Proof using Hfree.
  intros Hne. destruct Hfree as (m & Hl). unfold hw_acq. rewrite Hl. cbn.
  rewrite lookup_insert_ne by done. by destruct (hw_push_locks h) as [-> _].
Qed.
Lemma hw_acq_cpu : exists c, cur_cpu h = Some c /\
  cur_cpu (hw_acq l h) = Some (cpu_push (sie h) c) /\ sie (hw_acq l h) = false /\
  0 <= c_noff c /\ c_noff c + n < 2 ^ 31 /\ (0 < c_noff c -> sie h = false).
Proof using Hfree Hok.
  destruct Hfree as (m & Hl), Hok as (c & Hc & Hn & Hs). exists c. split; [done|].
  unfold hw_acq. rewrite Hl. cbn. split.
  - by apply (cur_cpu_push h c).
  - split; [|tauto]. unfold sie, hw_push. unfold cur_cpu. rewrite Hc. cbn.
    rewrite land_SIE. apply intr_off_bit.
Qed.
Lemma hart_ok_acq : hart_ok (n - 1) (hw_acq l h).
Proof using Hfree Hok.
  destruct hw_acq_cpu as (c & Hc & Hc' & Hs & Hn & Hn' & _).
  exists (cpu_push (sie h) c). split; [done|]. split; [|done].
  unfold cpu_push. cbn. lia.
Qed.
Lemma hw_rel_acq : hw_rel l (hw_acq l h) = hw_crit h.
Proof using Hfree Hok.
  destruct Hok as (c & Hc & Hn & Hs). destruct Hfree as (m & Hl).
  unfold hw_rel. destruct hw_acq_held as (m' & Hl'). rewrite Hl'. cbn.
  unfold hw_acq. rewrite Hl. cbn. rewrite lock_set_self.
  rewrite <- (hw_pop_push h c) by tauto.
  destruct (hw_push_locks h) as [Hpl _].
  unfold hw_acq in Hl'. rewrite Hl in Hl'. cbn in Hl'. rewrite lookup_insert_eq in Hl'.
  simplify_eq. rewrite hw_lock_self; [done|]. by rewrite Hpl.
Qed.
End acquired.

Lemma hart_ok_weaken m n h : m <= n -> hart_ok n h -> hart_ok m h.
Proof. intros ? (c & ? & ? & ?). exists c. intuition lia. Qed.

(** A lock this hart holds can be released. *)
Lemma wp_release l e s c (Q : unit -> list (kstate -> kstate) -> kstate -> Prop) :
  cur_cpu (k_hw s) = Some c -> 1 <= c_noff c < 2 ^ 31 -> sie (k_hw s) = false ->
  lock_held (k_hw s) l -> Q tt e (set_k_hw (hw_rel l (k_hw s)) s) -> wp (release l) e s Q.
Proof.
  intros Hc Hn Hs (m & Hl) HQ. unfold release. wp_step. eapply wp_holding; [done|]. cbn.
  rewrite bool_decide_eq_true_2 by done. cbn.
  wp_step. eapply wp_lock_at; [done|]. unfold upd_lock, modify_hw. wp_steps. cbn.
  eapply wp_lock_at; [cbn; apply lookup_insert_eq|]. wp_steps. cbn.
  rewrite insert_insert_eq. eapply (wp_pop_off _ _ c); [done..|].
  cbn. revert HQ. unfold hw_rel, hw_lock. rewrite Hl. cbn. by destruct (k_hw s).
Qed.

(** Release of a lock taken in state [h], the rest of the hardware state
    untouched since. *)
Lemma wp_release_acq l h n e s (Q : unit -> list (kstate -> kstate) -> kstate -> Prop) :
  1 <= n -> hart_ok n h -> lock_free h l -> k_hw s = hw_acq l h ->
  Q tt e (set_k_hw (hw_crit h) s) -> wp (release l) e s Q.
Proof.
  intros Hn Hok Hfree Hs HQ. destruct (hw_acq_cpu h l n Hok Hfree) as (c & Hc & Hc' & Hsie & ?).
  eapply wp_release; rewrite ?Hs; [done| |done| |].
  - unfold cpu_push. cbn. lia.
  - by apply hw_acq_held.
  - by rewrite (hw_rel_acq h l n).
Qed.

(** [myproc] only goes through one [push_off]/[pop_off] pair. *)
Lemma wp_myproc e s c (Q : option nat -> list (kstate -> kstate) -> kstate -> Prop) :
  hart_ok 1 (k_hw s) -> cur_cpu (k_hw s) = Some c ->
  Q (c_proc c) e (set_k_hw (hw_crit (k_hw s)) s) -> wp myproc e s Q.
Proof.
  intros Hok Hc HQ. pose proof Hok as (c' & Hc' & Hn & Hs).
  unfold cur_cpu in Hc. rewrite Hc in Hc'. injection Hc' as <-.
  unfold myproc. wp_step. apply wp_push_off; [done|].
  wp_step. eapply wp_mycpu; [by apply (cur_cpu_push _ c)|].
  wp_step. eapply (wp_pop_off _ _ (cpu_push (sie (k_hw s)) c)).
  - by apply (cur_cpu_push _ c).
  - unfold cpu_push. cbn. lia.
  - cbn. unfold sie, hw_push, cur_cpu. rewrite Hc. cbn. rewrite land_SIE. apply intr_off_bit.
  - wp_step. cbn. rewrite (hw_pop_push _ c) by tauto.
    by destruct (c_noff c =? 0).
Qed.

Lemma hw_crit_acq h l n : hart_ok n h -> lock_free h l -> hw_crit (hw_acq l h) = hw_acq l h.
Proof.
  intros Hok Hfree. destruct (hw_acq_cpu h l n Hok Hfree) as (c & _ & Hc & _ & Hn & _).
  unfold hw_crit. rewrite Hc. unfold cpu_push. cbn.
  replace (c_noff c + 1 =? 0) with false by lia. done.
Qed.

(** Inside a critical section equivalent states are equal. *)
Lemma hw_eqv_eq h h' : h' ≈h h -> 0 < depth h -> h' = h.
Proof.
  intros H Hd. pose proof (hw_eqv_cur _ _ H) as Hcur. unfold depth in Hd.
  destruct (cur_cpu h) as [c|] eqn:Hc; [|lia].
  destruct (cur_cpu h') as [c'|] eqn:Hc'; [|done]. destruct Hcur as (_ & _ & Hn & _).
  unfold hw_eqv, norm in H. rewrite Hc, Hc' in H.
  replace (c_noff c' =? 0) with false in H by lia.
  by replace (c_noff c =? 0) with false in H by lia.
Qed.
Lemma depth_acq h l n : hart_ok n h -> lock_free h l -> 0 < depth (hw_acq l h).
Proof.
  intros Hok Hfree. destruct (hw_acq_cpu h l n Hok Hfree) as (c & _ & Hc & _ & Hn & _).
  unfold depth. rewrite Hc. unfold cpu_push. cbn. lia.
Qed.

Lemma hw_rel_fields l h c n : h_locks h !! l = Some (mkspinlock 1 n (Some (h_tp h))) ->
  cur_cpu h = Some c -> let h' := hw_rel l h in
  h_tp h' = h_tp h /\ h_locks h' = <[l := mkspinlock 0 n None]> (h_locks h) /\
  cur_cpu h' = Some (set_c_noff (c_noff c - 1) c) /\ (c_noff c <> 1 -> sie h' = sie h).
Proof.
  intros Hl Hc. unfold hw_rel, hw_pop, sie, cur_cpu in *. rewrite Hl. cbn. rewrite Hc.
  pose proof (lookup_lt_Some _ _ _ Hc).
  destruct (Z.eqb_spec (c_noff c - 1) 0); destruct (istrue (c_intena c)); cbn;
    split_and!; try done; try (by apply list_lookup_insert_eq); intros; lia.
Qed.
(** leaving the outermost section restores the saved interrupt state *)
Lemma hw_rel_last l h c n : h_locks h !! l = Some (mkspinlock 1 n (Some (h_tp h))) ->
  cur_cpu h = Some c -> c_noff c = 1 -> sie h = false -> sie (hw_rel l h) = istrue (c_intena c).
Proof.
  intros Hl Hc Hn Hs. unfold hw_rel, hw_pop, cur_cpu in *. rewrite Hl. cbn. rewrite Hc, Hn. cbn.
  change (1 - 1 =? 0) with true. destruct (istrue (c_intena c)); unfold sie in *; cbn; [|done].
  rewrite land_SIE, Z.lor_spec. change (Z.testbit SSTATUS_SIE 1) with true. by rewrite orb_true_r.
Qed.
Lemma lock_free_other h l l' k : l <> l' -> lock_free h l' ->
  forall h', h_locks h' = <[l := k]> (h_locks h) -> lock_free h' l'.
Proof. intros Hne (n & Hn) h' Hh. exists n. by rewrite Hh, lookup_insert_ne. Qed.

(** ** Theorems *)

(** the other harts keep the lock in existence *)
Definition keeps_lock (l : lockid) (f : kstate -> kstate) : Prop :=
  forall s, is_Some (h_locks (k_hw s) !! l) -> is_Some (h_locks (k_hw (f s)) !! l).

(** The run of the [amoswap] loop.  [swapped l s] is [s] after the swap: the
    lock word is 1.  [attempt l e n s] is the state in which the loop, started
    in [s] beside the other harts [e], tries the lock for the [n]-th time
    (counted from 0): each earlier swap is followed by one move of the others.
    [took l s] is [s] with the lock owned by the executing hart. *)
Definition lock_word (s : kstate) (l : lockid) : option Z := lk_locked <$> h_locks (k_hw s) !! l.
Definition swapped (l : lockid) (s : kstate) : kstate :=
  match h_locks (k_hw s) !! l with
  | Some k => set_k_hw (hw_lock l (set_lk_locked 1 k) (k_hw s)) s
  | None => s
  end.
Definition attempt (l : lockid) (e : list (kstate -> kstate)) (n : nat) (s : kstate) : kstate :=
  fold_left (fun s f => f (swapped l s)) (take n e) s.
Definition took (l : lockid) (s : kstate) : kstate :=
  match h_locks (k_hw s) !! l with
  | Some k => set_k_hw (hw_lock l (mkspinlock 1 (lk_name k) (Some (h_tp (k_hw s)))) (k_hw s)) s
  | None => s
  end.

Lemma attempt_S l f e n s : attempt l (f :: e) (S n) s = attempt l e n (f (swapped l s)).
Proof. done. Qed.

(** what a failed swap and the moves of the others keep holds at every attempt *)
Lemma attempt_ind l (I : kstate -> Prop) e n s :
  (forall s, I s -> I (swapped l s)) -> Forall (fun f => forall s, I s -> I (f s)) e ->
  I s -> I (attempt l e n s).
Proof.
  unfold attempt. intros Hsw He. revert n s. induction He as [|f e Hf He IH]; intros [|n] s Hs; cbn; auto.
Qed.

(** one round of the loop *)
Lemma spin_round fuel l k e s : h_locks (k_hw s) !! l = Some k ->
  spin fuel l e s = if lk_locked k =? 0 then Ret tt e (swapped l s) else
    match fuel with
    | O => Blocked (swapped l s)
    | S fuel' => (interfere;; spin fuel' l) e (swapped l s)
    end.
Proof.
  intros Hk. assert (lock_at l e s = Ret k e s) as Ha.
  { unfold lock_at, gets, bind. cbn. by rewrite Hk. }
  assert (upd_lock l (set_lk_locked 1 k) e s = Ret tt e (swapped l s)) as Hu.
  { unfold swapped. rewrite Hk. done. }
  destruct fuel; cbn [spin]; unfold bind at 1; rewrite Ha; unfold bind at 1; rewrite Hu;
    unfold istrue; by destruct (lk_locked k =? 0).
Qed.
Lemma swapped_lock l s k : h_locks (k_hw s) !! l = Some k ->
  h_locks (k_hw (swapped l s)) !! l = Some (set_lk_locked 1 k).
Proof. intros Hk. unfold swapped. rewrite Hk. cbn. apply lookup_insert_eq. Qed.

(** the loop ends at the first attempt that finds the lock free *)
Lemma spin_takes l : forall n e s, Forall (keeps_lock l) e -> is_Some (h_locks (k_hw s) !! l) ->
  (n <= length e)%nat -> lock_word (attempt l e n s) l = Some 0 ->
  (forall m, (m < n)%nat -> lock_word (attempt l e m s) l <> Some 0) ->
  spin (length e) l e s = Ret tt (drop n e) (swapped l (attempt l e n s)).
Proof.
  induction n as [|n IH]; intros e s He [k Hk] Hlen Hz Hnz; rewrite (spin_round _ _ k) by done.
  - unfold lock_word, attempt in Hz. rewrite take_0 in Hz. cbn in Hz. rewrite Hk in Hz. cbn in Hz.
    injection Hz as ->. by destruct e.
  - destruct e as [|f e]; cbn [length] in *; [lia|]. apply Forall_cons in He as [Hf He].
    assert (lk_locked k <> 0) as Hk0.
    { intros H0. apply (Hnz 0%nat); [lia|]. unfold lock_word, attempt. rewrite take_0. cbn. by rewrite Hk, <- H0. }
    replace (lk_locked k =? 0) with false by lia. unfold bind, interfere. rewrite attempt_S in *. cbn [drop].
    apply IH; [done | | lia | done |].
    + apply Hf. rewrite (swapped_lock _ _ k Hk). by eexists.
    + intros m Hm. rewrite <- attempt_S. apply Hnz. lia.
Qed.
(** while every attempt finds it taken, the loop goes on *)
Lemma spin_blocks l : forall e s, Forall (keeps_lock l) e -> is_Some (h_locks (k_hw s) !! l) ->
  (forall n, (n <= length e)%nat -> lock_word (attempt l e n s) l <> Some 0) ->
  spin (length e) l e s = Blocked (swapped l (attempt l e (length e) s)).
Proof.
  induction e as [|f e IH]; intros s He [k Hk] Hnz; rewrite (spin_round _ _ k) by done;
    (assert (lk_locked k <> 0) as Hk0;
     [intros H0; apply (Hnz 0%nat); [lia|]; unfold lock_word, attempt; rewrite take_0; cbn; by rewrite Hk, <- H0|]);
    replace (lk_locked k =? 0) with false by lia; [done|].
  apply Forall_cons in He as [Hf He]. unfold bind, interfere. cbn [length]. rewrite attempt_S.
  apply IH; [done | |].
  - apply Hf. rewrite (swapped_lock _ _ k Hk). by eexists.
  - intros n Hn. rewrite <- attempt_S. apply Hnz. cbn. lia.
Qed.

Lemma push_off_run e s : hart_ok 1 (k_hw s) -> push_off e s = Ret tt e (set_k_hw (hw_push (k_hw s)) s).
Proof.
  intros Hok. assert (wp push_off e s (fun _ e' s' => e' = e /\ s' = set_k_hw (hw_push (k_hw s)) s)) as Hp
    by (by apply wp_push_off).
  apply wp_elim in Hp as ([] & e' & s' & -> & -> & ->). done.
Qed.
(** what [acquire] does after the loop *)
Lemma took_swapped l s e k : h_locks (k_hw s) !! l = Some k ->
  (k <- lock_at l;; id <- cpuid;; upd_lock l (set_lk_cpu (Some id) k)) e (swapped l s) =
  Ret tt e (took l s) /\ lock_held (k_hw (took l s)) l.
Proof.
  intros Hk. split.
  - unfold bind at 1, lock_at, gets at 1, bind at 1. rewrite (swapped_lock _ _ k Hk).
    unfold took, swapped. rewrite Hk. unfold upd_lock, cpuid, modify_hw, modify, hw_lock, bind. cbn.
    by rewrite insert_insert_eq.
  - unfold took. rewrite Hk. exists (lk_name k). cbn. by rewrite lookup_insert_eq.
Qed.

(** [l] exists and this hart does not hold it *)
Definition not_mine (h : hwstate) (l : lockid) : Prop :=
  exists k, h_locks h !! l = Some k /\ (lk_locked k = 0 \/ lk_cpu k <> Some (h_tp h)).

Section acquire_run.
Context (l : lockid) (e : list (kstate -> kstate)) (s : kstate).
Context (Hok : hart_ok 1 (k_hw s)) (He : Forall (keeps_lock l) e) (Hk : not_mine (k_hw s) l).
Let s0 : kstate := set_k_hw (hw_push (k_hw s)) s.

Lemma acquire_spin : acquire l e s = bind (spin (length e) l)
    (fun _ => k <- lock_at l;; id <- cpuid;; upd_lock l (set_lk_cpu (Some id) k)) e s0.
Proof using Hok Hk.
  destruct Hk as (k & Hlk & Hfree), (hw_push_locks (k_hw s)) as [Hpl Hpt].
  assert (holding l e s0 = Ret false e s0) as Hh.
  { unfold holding, lock_at, cpuid, gets, ret, bind. cbn. rewrite Hpl, Hlk. cbn. rewrite Hpt.
    f_equal. destruct Hfree as [->|Hne]; [done|].
    rewrite bool_decide_eq_false_2 by done. by rewrite andb_false_r. }
  unfold acquire, bind at 1. rewrite push_off_run by done. fold s0. unfold bind at 1. by rewrite Hh.
Qed.
Lemma pushed_lock : is_Some (h_locks (k_hw s0) !! l).
Proof using Hk.
  destruct Hk as (k & Hlk & _), (hw_push_locks (k_hw s)) as [Hpl _]. cbn. rewrite Hpl. by eexists.
Qed.
Lemma acquire_takes n : (n <= length e)%nat -> lock_word (attempt l e n s0) l = Some 0 ->
  (forall m, (m < n)%nat -> lock_word (attempt l e m s0) l <> Some 0) ->
  acquire l e s = Ret tt (drop n e) (took l (attempt l e n s0)) /\
  lock_held (k_hw (took l (attempt l e n s0))) l.
Proof using Hok He Hk.
  intros Hn Hz Hnz. rewrite acquire_spin. unfold bind at 1.
  rewrite (spin_takes l n e s0) by (done || apply pushed_lock).
  unfold lock_word in Hz. apply fmap_Some in Hz as (k1 & Hk1 & _). by apply (took_swapped _ _ _ k1).
Qed.
Lemma acquire_blocks : (forall n, (n <= length e)%nat -> lock_word (attempt l e n s0) l <> Some 0) ->
  acquire l e s = Blocked (swapped l (attempt l e (length e) s0)).
Proof using Hok He Hk.
  intros Hnz. rewrite acquire_spin. unfold bind at 1.
  by rewrite (spin_blocks l e s0) by (done || apply pushed_lock).
Qed.
End acquire_run.

(** C9: Mutual exclusion.  Beside any other harts, [acquire] of a lock this hart
    does not hold tries the lock once after each move of the others: it returns
    at the first attempt that finds the lock word 0, with the lock then held by
    this hart and the rest of that state as it was; while every attempt finds
    the lock taken it goes on spinning.  It neither panics nor faults. *)
Theorem acquire_exclusive l e s :
  hart_ok 1 (k_hw s) -> Forall (keeps_lock l) e -> not_mine (k_hw s) l ->
  let nth_try n := attempt l e n (set_k_hw (hw_push (k_hw s)) s) in
  (forall n, (n <= length e)%nat -> lock_word (nth_try n) l = Some 0 ->
     (forall m, (m < n)%nat -> lock_word (nth_try m) l <> Some 0) ->
     acquire l e s = Ret tt (drop n e) (took l (nth_try n)) /\ lock_held (k_hw (took l (nth_try n))) l) /\
  ((forall n, (n <= length e)%nat -> lock_word (nth_try n) l <> Some 0) ->
     acquire l e s = Blocked (swapped l (nth_try (length e)))).
Proof. intros Hok He Hk nth_try. split; [by apply acquire_takes | by apply acquire_blocks]. Qed.

(** A critical section is balanced.  Around any body that leaves the
    hardware state alone, [acquire] and [release] give back every lock, the
    nesting depth and the interrupt state; nested sections compose. *)
Lemma critical_section_balanced l (m : K unit) e s :
  hart_ok 2 (k_hw s) -> lock_free (k_hw s) l ->
  (forall s1, k_hw s1 = hw_acq l (k_hw s) -> k_ps s1 = k_ps s -> k_mm s1 = k_mm s ->
     lock_held (k_hw s1) l /\ sie (k_hw s1) = false /\ hart_ok 1 (k_hw s1) ->
     wp m e s1 (fun _ e' s2 => e' = e /\ k_hw s2 = k_hw s1)) ->
  wp (acquire l;; m;; release l) e s (fun _ e' s' => e' = e /\ k_hw s' ≈h k_hw s /\
    lock_free (k_hw s') l /\ depth (k_hw s') = depth (k_hw s) /\ sie (k_hw s') = sie (k_hw s)).
Proof.
  intros Hok Hlk Hm. wp_step. apply wp_acquire; [by eapply hart_ok_weaken; [|done]; lia | done |].
  wp_step. destruct (hw_acq_cpu _ _ _ Hok Hlk) as (c & Hc & Hc' & Hs & _).
  eapply wp_mono; [apply Hm; try done|].
  - split_and!; cbn; [by apply hw_acq_held | done |].
    replace 1 with (2 - 1) by lia. by apply hart_ok_acq.
  - cbn. intros [] e' s2 (-> & Hs2).
    eapply (wp_release_acq l (k_hw s) 2); [lia | done..|]. cbn.
    pose proof (hw_crit_eqv (k_hw s)) as He. split_and!; try done.
    + eapply lock_free_eqv; [by symmetry | done].
    + unfold depth. pose proof (hw_eqv_cur _ _ He) as Hcur. rewrite Hc in *.
      destruct (cur_cpu (hw_crit (k_hw s))); [|done]. by destruct Hcur as (_ & _ & -> & _).
    + unfold sie. by destruct (hw_eqv_fields _ _ He) as (_ & -> & _).
Qed.

(** Misuse of a lock is caught: acquiring a lock this hart already holds,
    releasing one it does not hold, and [pop_off] without a matching [push_off]
    or with interrupts on, all panic. *)
Lemma lock_misuse_panics l e s :
  hart_ok 1 (k_hw s) ->
  (lock_held (k_hw s) l -> exists s', acquire l e s = Panic "acquire" s') /\
  ((exists k, h_locks (k_hw s) !! l = Some k) /\ ~ lock_held (k_hw s) l ->
     (forall k, h_locks (k_hw s) !! l = Some k -> lk_locked k = 0 \/ lk_locked k = 1) ->
     release l e s = Panic "release" s) /\
  (sie (k_hw s) = true -> pop_off e s = Panic "pop_off - interruptible" s) /\
  (sie (k_hw s) = false -> depth (k_hw s) = 0 -> pop_off e s = Panic "pop_off" s).
Proof.
  intros Hok. pose proof Hok as (c & Hc & Hn & Ho). split_and!.
  - intros (n & Hl).
    assert (wp push_off e s (fun _ e' s' => s' = set_k_hw (hw_push (k_hw s)) s)) as Hp
      by (by apply wp_push_off).
    apply wp_elim in Hp as ([] & e' & s' & Hp & ->). eexists.
    unfold acquire, bind. rewrite Hp. unfold holding, lock_at, bind. cbn.
    destruct (hw_push_locks (k_hw s)) as [-> Hpt]. rewrite Hl. cbn. rewrite Hpt.
    rewrite bool_decide_eq_true_2 by done. done.
  - intros [[k Hk] Hnh] Hb. unfold release, holding, lock_at, bind. cbn. rewrite Hk. cbn.
    assert (istrue (lk_locked k) && bool_decide (lk_cpu k = Some (h_tp (k_hw s))) = false) as ->; [|done].
    destruct (Hb k Hk) as [->|H1]; [done|]. rewrite bool_decide_eq_false_2; [by rewrite andb_false_r|].
    intros Hcpu. apply Hnh. exists (lk_name k). rewrite Hk. destruct k; cbn in *. by subst.
  - intros Hs. unfold pop_off, mycpu, intr_get, r_sstatus, bind. cbn. unfold sie in Hs.
    rewrite Hc. cbn. by rewrite Hs.
  - intros Hs Hd. unfold depth, cur_cpu in Hd. rewrite Hc in Hd.
    unfold pop_off, mycpu, intr_get, r_sstatus, bind. cbn. unfold sie in Hs.
    rewrite Hc. cbn. rewrite Hs. by rewrite Hd.
Qed.
