(* ===== verification/Queue.v ===== *)
(** The multi-level feedback queues of proc.c: [multique], [sizeofq] and the
    operations [enqueue] and [dequeue].

    The operations are refined to lists of process slots: [enqueue] appends a
    process unless its pid is already in that queue, [dequeue] removes the
    first entry with its pid.  [sched_inv] is the invariant of the whole queue
    structure: a process is in a queue exactly when it is RUNNABLE or RUNNING,
    it is there once, and in the queue [queue_number] names. *)
From S2P Require Import Prelude State Spinlock.

(** A routine that only touches the globals of proc.c, and its use as a
    kernel routine. *)
Definition P (A : Type) : Type := M procs A.
Definition lift_ps {A} (m : P A) : K A := fun e s =>
  match m [] (k_ps s) with
  | Ret a _ p => Ret a e (set_k_ps p s)
  | Panic msg p => Panic msg (set_k_ps p s)
  | Fault msg p => Fault msg (set_k_ps p s)
  | Blocked p => Blocked (set_k_ps p s)
  end.

Definition timesliceq : list Z := [1; 4; 8; 16].

(** ** The process table *)
Definition proc_at (i : nat) : P proc :=
  t <- gets ps_proc;; match t !! i with Some p => ret p | None => fault "no such process" end.
Definition upd_proc (i : nat) (f : proc -> proc) : P unit :=
  p <- proc_at i;; modify (fun ps => set_ps_proc (<[i := f p]> (ps_proc ps)) ps).

(** ** Array accesses *)
Definition idx (q : Z) : option nat := if q <? 0 then None else Some (Z.to_nat q).
Definition sizeofq_at (q : Z) : P Z :=
  l <- gets ps_sizeofq;;
  match idx q ≫= (l !!.) with Some n => ret n | None => fault "sizeofq: out of bounds" end.
Definition set_sizeofq_at (q : Z) (n : Z) : P unit :=
  modify (fun ps => set_ps_sizeofq (<[Z.to_nat q := n]> (ps_sizeofq ps)) ps).
Definition multique_row (q : Z) : P (list (option nat)) :=
  l <- gets ps_multique;;
  match idx q ≫= (l !!.) with Some r => ret r | None => fault "multique: out of bounds" end.
Definition multique_at (q : Z) (i : Z) : P (option nat) :=
  r <- multique_row q;;
  match idx i ≫= (r !!.) with Some x => ret x | None => fault "multique: out of bounds" end.
Definition set_multique_at (q : Z) (i : Z) (x : option nat) : P unit :=
  r <- multique_row q;;
  if (i <? 0) || (length r <=? i) then fault "multique: out of bounds" else
  modify (fun ps => set_ps_multique (<[Z.to_nat q := <[Z.to_nat i := x]> r]> (ps_multique ps)) ps).

(** [multique[q][i]->pid]; a null entry faults *)
Definition queued_pid (q : Z) (i : Z) : P Z :=
  x <- multique_at q i;;
  match x with
  | Some j => p <- proc_at j;; ret (p_pid p)
  | None => fault "null pointer"
  end.

(** ** proc.c: enqueue, dequeue *)
Definition enqueue (p : nat) (priorityq : Z) : P unit :=
  n <- sizeofq_at priorityq;;
  found <- mfor (seq 0 (Z.to_nat n)) (fun i =>
    a <- queued_pid priorityq i;;
    me <- proc_at p;;
    ret (if a =? p_pid me then Some tt else None));;
  match found with
  | Some _ => ret tt
  | None =>
      n <- sizeofq_at priorityq;;
      set_multique_at priorityq n (Some p);;
      set_sizeofq_at priorityq (s32 (n + 1));;
      upd_proc p (set_p_queueticks 0);;
      upd_proc p (set_p_queue_number priorityq)
  end.

(** [for (j = i; j < sizeofq[q] - 1; j++) multique[q][j] = multique[q][j+1]] *)
Definition shift_down (q : Z) (i n : Z) : P unit :=
  mforall (seq (Z.to_nat i) (Z.to_nat (n - 1 - i))) (fun j =>
    x <- multique_at q (j + 1);;
    set_multique_at q j x).

Definition dequeue (p : nat) (priorityq : Z) : P unit :=
  n <- sizeofq_at priorityq;;
  if n =? 0 then ret tt else
  found <- mfor (seq 0 (Z.to_nat n)) (fun i =>
    a <- queued_pid priorityq i;;
    me <- proc_at p;;
    if a =? p_pid me then
      shift_down priorityq i n;;
      n <- sizeofq_at priorityq;;
      set_sizeofq_at priorityq (s32 (n - 1));;
      set_multique_at priorityq (s32 (n - 1)) None;;
      ret (Some tt)
    else ret None);;
  ret tt.

(** ** The queues as lists *)
Definition row_of (l : list nat) : list (option nat) :=
  (Some <$> l) ++ replicate (NPROC - length l) None.

(** queue [q] holds the slots [l], oldest first *)
Definition queue_is (ps : procs) (q : nat) (l : list nat) : Prop :=
  ps_multique ps !! q = Some (row_of l) /\ ps_sizeofq ps !! q = Some (Z.of_nat (length l)) /\
  (length l <= NPROC)%nat /\ Forall (fun j => (j < length (ps_proc ps))%nat) l.

Definition pid_of (ps : procs) (j : nat) : Z :=
  match ps_proc ps !! j with Some p => p_pid p | None => 0 end.

(** abstract enqueue and dequeue *)
Definition enq_list (pid : nat -> Z) (p : nat) (l : list nat) : list nat :=
  if existsb (fun j => pid j =? pid p) l then l else l ++ [p].
Fixpoint deq_list (pid : nat -> Z) (p : nat) (l : list nat) : list nat :=
  match l with
  | [] => []
  | j :: l' => if pid j =? pid p then l' else j :: deq_list pid p l'
  end.

(** ** Specifications of the accessors *)
Section accessors.
Context (e : list (procs -> procs)) (ps : procs).

Lemma wp_proc_at i p (Q : proc -> list (procs -> procs) -> procs -> Prop) :
  ps_proc ps !! i = Some p -> Q p e ps -> wp (proc_at i) e ps Q.
Proof. intros Hp HQ. unfold wp, proc_at, bind. cbn. by rewrite Hp. Qed.
Lemma wp_upd_proc i p f (Q : unit -> list (procs -> procs) -> procs -> Prop) :
  ps_proc ps !! i = Some p -> Q tt e (set_ps_proc (<[i := f p]> (ps_proc ps)) ps) ->
  wp (upd_proc i f) e ps Q.
Proof. intros Hp HQ. unfold wp, upd_proc, proc_at, bind. cbn. by rewrite Hp. Qed.

Lemma idx_nat {A} (l : list A) (q : nat) : idx q ≫= (l !!.) = l !! q.
Proof. unfold idx. destruct (Z.ltb_spec (Z.of_nat q) 0); [lia|]. cbn. by rewrite Nat2Z.id. Qed.

Lemma wp_sizeofq_at (q : nat) n (Q : Z -> list (procs -> procs) -> procs -> Prop) :
  ps_sizeofq ps !! q = Some n -> Q n e ps -> wp (sizeofq_at q) e ps Q.
Proof. intros Hn HQ. unfold wp, sizeofq_at, bind. cbn -[idx]. by rewrite idx_nat, Hn. Qed.
Lemma wp_set_sizeofq_at (q : nat) n (Q : unit -> list (procs -> procs) -> procs -> Prop) :
  Q tt e (set_ps_sizeofq (<[q := n]> (ps_sizeofq ps)) ps) -> wp (set_sizeofq_at q n) e ps Q.
Proof. intros HQ. unfold set_sizeofq_at. rewrite Nat2Z.id. done. Qed.
Lemma wp_multique_at (q i : nat) r x (Q : option nat -> list (procs -> procs) -> procs -> Prop) :
  ps_multique ps !! q = Some r -> r !! i = Some x -> Q x e ps -> wp (multique_at q i) e ps Q.
Proof.
  intros Hr Hx HQ. unfold wp, multique_at, multique_row, bind. cbn -[idx].
  rewrite idx_nat, Hr. cbn -[idx]. by rewrite idx_nat, Hx.
Qed.
Lemma wp_set_multique_at (q i : nat) r x (Q : unit -> list (procs -> procs) -> procs -> Prop) :
  ps_multique ps !! q = Some r -> (i < length r)%nat ->
  Q tt e (set_ps_multique (<[q := <[i := x]> r]> (ps_multique ps)) ps) ->
  wp (set_multique_at q i x) e ps Q.
Proof.
  intros Hr Hi HQ. unfold wp, set_multique_at, multique_row, bind. cbn -[idx].
  rewrite idx_nat, Hr. cbn -[Z.ltb Z.leb].
  destruct (Z.ltb_spec (Z.of_nat i) 0), (Z.leb_spec (Z.of_nat (length r)) (Z.of_nat i)); try lia.
  cbn. by rewrite !Nat2Z.id.
Qed.
Lemma wp_queued_pid (q i j : nat) r p (Q : Z -> list (procs -> procs) -> procs -> Prop) :
  ps_multique ps !! q = Some r -> r !! i = Some (Some j) -> ps_proc ps !! j = Some p ->
  Q (p_pid p) e ps -> wp (queued_pid q i) e ps Q.
Proof.
  intros Hr Hi Hp HQ. unfold queued_pid. wp_step. eapply wp_multique_at; [done..|].
  cbn. wp_step. eapply wp_proc_at; [done|]. by wp_step.
Qed.
End accessors.

Lemma row_of_lookup l (i j : nat) : l !! i = Some j -> row_of l !! i = Some (Some j).
Proof.
  intros H. unfold row_of. rewrite lookup_app_l.
  - by rewrite list_lookup_fmap, H.
  - rewrite length_fmap. by eapply lookup_lt_Some.
Qed.
Lemma row_of_length l : (length l <= NPROC)%nat -> length (row_of l) = NPROC.
Proof. intros H. unfold row_of. rewrite length_app, length_fmap, length_replicate. lia. Qed.
Lemma row_of_snoc l p : (length l < NPROC)%nat -> <[length l := Some p]> (row_of l) = row_of (l ++ [p]).
Proof.
  intros H. unfold row_of. rewrite fmap_app, length_app. cbn.
  rewrite insert_app_r_alt by (rewrite length_fmap; lia).
  rewrite length_fmap, Nat.sub_diag.
  replace (NPROC - length l)%nat with (S (NPROC - (length l + 1))) by (unfold NPROC in *; lia). cbn.
  by rewrite <- app_assoc.
Qed.

Lemma pid_of_lookup ps j p : ps_proc ps !! j = Some p -> pid_of ps j = p_pid p.
Proof. unfold pid_of. by intros ->. Qed.

Lemma queue_is_proc ps q l (i j : nat) : queue_is ps q l -> l !! i = Some j ->
  exists p, ps_proc ps !! j = Some p.
Proof.
  intros (_ & _ & _ & Hall) Hi. rewrite Forall_forall in Hall.
  apply lookup_lt_is_Some. apply Hall. by eapply list_elem_of_lookup_2.
Qed.

(** The search both operations start with: no entry before position [k] has
    the pid of [p]. *)
Definition no_pid (pid : nat -> Z) (p : nat) (l : list nat) : Prop :=
  Forall (fun j => pid j <> pid p) l.

Lemma existsb_no_pid pid p l :
  existsb (fun j => pid j =? pid p) l = false <-> no_pid pid p l.
Proof.
  unfold no_pid. induction l as [|j l IH]; cbn; [done|].
  rewrite orb_false_iff, IH, Forall_cons. by rewrite Z.eqb_neq.
Qed.

(** ** enqueue refines [enq_list] *)
Definition ps_enq (p q : nat) (l : list nat) (ps : procs) : procs :=
  match ps_proc ps !! p with
  | Some x => set_ps_proc (<[p := set_p_queue_number q (set_p_queueticks 0 x)]> (ps_proc ps))
      (set_ps_sizeofq (<[q := Z.of_nat (length l) + 1]> (ps_sizeofq ps))
        (set_ps_multique (<[q := row_of (l ++ [p])]> (ps_multique ps)) ps))
  | None => ps
  end.

Lemma wp_enqueue e ps (p q : nat) l x (Q : unit -> list (procs -> procs) -> procs -> Prop) :
  queue_is ps q l -> ps_proc ps !! p = Some x ->
  (~ no_pid (pid_of ps) p l -> Q tt e ps) ->
  (no_pid (pid_of ps) p l -> (length l < NPROC)%nat /\ Q tt e (ps_enq p q l ps)) ->
  wp (enqueue p q) e ps Q.
Proof.
  intros Hq Hp Hdup Hnew. pose proof Hq as (Hrow & Hsz & Hlen & _).
  unfold enqueue. wp_step. eapply wp_sizeofq_at; [done|]. rewrite Nat2Z.id. wp_step.
  eapply (wp_mfor _ (fun rest e' ps' => e' = e /\ ps' = ps /\
    exists k, rest = seq k (length l - k) /\ (k <= length l)%nat /\ no_pid (pid_of ps) p (take k l))).
  - split_and!; [done..|]. exists 0%nat. rewrite Nat.sub_0_r, take_0.
    split_and!; [done | lia | constructor].
  - intros i rest e' ps' (-> & -> & k & Hrest & Hk & Hno).
    destruct (length l - k)%nat as [|m] eqn:Em; cbn in Hrest; [done|].
    injection Hrest as -> ->.
    destruct (lookup_lt_is_Some_2 l k ltac:(lia)) as [j Hj].
    destruct (queue_is_proc _ _ _ _ _ Hq Hj) as [y Hy].
    wp_step. eapply wp_queued_pid; [done | by apply row_of_lookup | done |].
    wp_step. eapply wp_proc_at; [done|]. wp_step.
    rewrite <- (pid_of_lookup _ _ _ Hy), <- (pid_of_lookup _ _ _ Hp).
    destruct (Z.eqb_spec (pid_of ps j) (pid_of ps p)) as [Heq|Hne].
    + apply wp_ret, Hdup. intros Hn. unfold no_pid in Hn. rewrite Forall_forall in Hn.
      eapply Hn; [|done]. by eapply list_elem_of_lookup_2.
    + split_and!; [done..|]. exists (S k).
      split_and!; [f_equal; lia | lia |].
      erewrite take_S_r by done. unfold no_pid. rewrite Forall_app, Forall_singleton. done.
  - intros e' ps' (-> & -> & k & Hrest & Hk & Hno).
    assert (k = length l) as -> by (destruct (length l - k)%nat eqn:E; [lia | done]).
    rewrite firstn_all in Hno. destruct (Hnew Hno) as [Hlt HQ].
    wp_step. eapply wp_sizeofq_at; [done|].
    wp_step. eapply wp_set_multique_at; [done | by rewrite row_of_length by lia |].
    wp_step. eapply wp_set_sizeofq_at.
    wp_step. eapply wp_upd_proc; [done|]. eapply wp_upd_proc.
    { cbn. apply list_lookup_insert_eq. by eapply lookup_lt_Some. }
    cbn. rewrite list_insert_insert_eq, s32_small by (unfold NPROC in *; lia).
    rewrite row_of_snoc by done. revert HQ. unfold ps_enq. rewrite Hp. by destruct ps.
Qed.

(** ** dequeue refines [deq_list] *)
Lemma wp_shift (q : nat) (a b c : list (option nat)) (x : option nat) e ps
    (Q : unit -> list (procs -> procs) -> procs -> Prop) :
  ps_multique ps !! q = Some (a ++ x :: b ++ c) ->
  Q tt e (set_ps_multique (<[q := a ++ b ++ default x (last b) :: c]> (ps_multique ps)) ps) ->
  wp (mforall (seq (length a) (length b)) (fun j =>
        y <- multique_at q (Z.of_nat j + 1);; set_multique_at q j y)) e ps Q.
Proof.
  revert a x ps. induction b as [|y b IH]; intros a x ps Hrow HQ; cbn [length seq mforall].
  - wp_step. cbn in *. rewrite list_insert_id in HQ by done. by destruct ps.
  - wp_step. wp_step.
    replace (Z.of_nat (length a) + 1) with (Z.of_nat (length a + 1)) by lia.
    eapply (wp_multique_at _ _ _ _ _ y); [done| |].
    { rewrite lookup_app_r by lia. by replace (length a + 1 - length a)%nat with 1%nat by lia. }
    eapply wp_set_multique_at; [done | rewrite length_app; cbn; lia |].
    replace (S (length a)) with (length (a ++ [y])) by (rewrite length_app; cbn; lia).
    eapply (IH (a ++ [y]) y).
    + cbn. rewrite list_lookup_insert_eq by (by eapply lookup_lt_Some).
      rewrite insert_app_r_alt by lia. rewrite Nat.sub_diag. cbn. by rewrite <- app_assoc.
    + cbn. rewrite list_insert_insert_eq. rewrite <- app_assoc. cbn.
      revert HQ. cbn. destruct ps; cbn. destruct b as [|z b]; cbn; [done|].
      by destruct (last (z :: b)) eqn:El; [|apply last_None in El].
Qed.

Definition ps_setq (q : nat) (l : list nat) (ps : procs) : procs :=
  set_ps_sizeofq (<[q := Z.of_nat (length l)]> (ps_sizeofq ps))
    (set_ps_multique (<[q := row_of l]> (ps_multique ps)) ps).

Lemma ps_setq_id ps q l : queue_is ps q l -> ps_setq q l ps = ps.
Proof.
  intros (Hr & Hs & _). unfold ps_setq. rewrite !list_insert_id by done. by destruct ps.
Qed.
Lemma deq_list_none pid p l : no_pid pid p l -> deq_list pid p l = l.
Proof.
  induction 1 as [|j l Hj _ IH]; cbn; [done|].
  destruct (Z.eqb_spec (pid j) (pid p)); [done | by rewrite IH].
Qed.
Lemma deq_list_split pid p l1 j l2 : no_pid pid p l1 -> pid j = pid p ->
  deq_list pid p (l1 ++ j :: l2) = l1 ++ l2.
Proof.
  intros Hno Hj. induction Hno as [|i l1 Hi _ IH]; cbn.
  - by rewrite Hj, Z.eqb_refl.
  - destruct (Z.eqb_spec (pid i) (pid p)); [done | by rewrite IH].
Qed.

(** the row once the entries after position [length l1] moved down and the last
    one was cleared *)
Lemma row_of_shift (l1 l2 : list nat) (j : nat) : (length (l1 ++ j :: l2) <= NPROC)%nat ->
  <[length (l1 ++ l2) := None]>
    ((Some <$> l1) ++ (Some <$> l2) ++ default (Some j) (last (Some <$> l2)) ::
       replicate (NPROC - length (l1 ++ j :: l2)) None) = row_of (l1 ++ l2).
Proof.
  intros Hlen. rewrite !length_app in *. cbn [length] in *. unfold row_of.
  rewrite fmap_app, app_assoc, insert_app_r_alt by (rewrite length_app, !length_fmap; lia).
  rewrite !length_app, !length_fmap, Nat.sub_diag. cbn.
  replace (NPROC - (length l1 + length l2))%nat
    with (S (NPROC - (length l1 + S (length l2)))) by lia. done.
Qed.

Lemma wp_dequeue_found e ps (q k j : nat) l
    (Q : option unit -> list (procs -> procs) -> procs -> Prop) :
  queue_is ps q l -> l !! k = Some j ->
  Q (Some tt) e (ps_setq q (take k l ++ drop (S k) l) ps) ->
  wp (shift_down q k (length l);;
      n <- sizeofq_at q;;
      set_sizeofq_at q (s32 (n - 1));;
      set_multique_at q (s32 (n - 1)) None;;
      ret (Some tt)) e ps Q.
Proof.
  intros (Hrow & Hsz & Hlen & _) Hj HQ.
  pose proof (lookup_lt_Some _ _ _ Hj) as Hk.
  pose proof (take_drop_middle l k j Hj) as Hl.
  set (l1 := take k l) in *. set (l2 := drop (S k) l) in *.
  assert (length l1 = k) as Hl1 by (subst l1; rewrite length_take; lia).
  assert (length l2 = length l - S k)%nat as Hl2 by (subst l2; by rewrite length_drop).
  unfold shift_down. rewrite Nat2Z.id.
  replace (Z.to_nat (Z.of_nat (length l) - 1 - Z.of_nat k)) with (length (Some <$> l2))
    by (rewrite length_fmap; lia).
  replace k with (length (Some <$> l1)) at 1 by (by rewrite length_fmap).
  wp_step. eapply (wp_shift q (Some <$> l1) (Some <$> l2) (replicate (NPROC - length l) None) (Some j)).
  { rewrite Hrow. unfold row_of. rewrite <- Hl at 1. by rewrite fmap_app, fmap_cons, <- app_assoc. }
  wp_step. eapply wp_sizeofq_at; [exact Hsz|].
  rewrite s32_small by (unfold NPROC in *; lia).
  replace (Z.of_nat (length l) - 1) with (Z.of_nat (length (l1 ++ l2)))
    by (rewrite length_app; lia).
  wp_step. apply wp_set_sizeofq_at. wp_step. eapply wp_set_multique_at.
  - cbn. apply list_lookup_insert_eq. by eapply lookup_lt_Some.
  - rewrite !length_app, length_cons, !length_fmap. lia.
  - wp_step. cbn. rewrite list_insert_insert_eq.
    replace (length l) with (length (l1 ++ j :: l2)) by (by rewrite Hl).
    rewrite row_of_shift by (by rewrite Hl). revert HQ. unfold ps_setq. by destruct ps.
Qed.

Lemma wp_dequeue e ps (p q : nat) l x (Q : unit -> list (procs -> procs) -> procs -> Prop) :
  queue_is ps q l -> ps_proc ps !! p = Some x ->
  Q tt e (ps_setq q (deq_list (pid_of ps) p l) ps) -> wp (dequeue p q) e ps Q.
Proof.
  intros Hq Hp HQ. pose proof Hq as (Hrow & Hsz & Hlen & _).
  unfold dequeue. wp_step. eapply wp_sizeofq_at; [done|].
  destruct (Z.eqb_spec (Z.of_nat (length l)) 0) as [Hz|Hz].
  { destruct l; [|done]. wp_step. cbn in HQ. by rewrite (ps_setq_id _ _ _ Hq) in HQ. }
  rewrite Nat2Z.id. wp_step.
  eapply (wp_mfor _ (fun rest e' ps' => e' = e /\ ps' = ps /\
    exists k, rest = seq k (length l - k) /\ (k <= length l)%nat /\ no_pid (pid_of ps) p (take k l))).
  - split_and!; [done..|]. exists 0%nat. rewrite Nat.sub_0_r, take_0.
    split_and!; [done | lia | constructor].
  - intros i rest e' ps' (-> & -> & k & Hrest & Hk & Hno).
    destruct (length l - k)%nat as [|m] eqn:Em; cbn in Hrest; [done|].
    injection Hrest as -> ->.
    destruct (lookup_lt_is_Some_2 l k ltac:(lia)) as [j Hj].
    destruct (queue_is_proc _ _ _ _ _ Hq Hj) as [y Hy].
    wp_step. eapply wp_queued_pid; [done | by apply row_of_lookup | done |].
    wp_step. eapply wp_proc_at; [done|].
    rewrite <- (pid_of_lookup _ _ _ Hy), <- (pid_of_lookup _ _ _ Hp).
    destruct (Z.eqb_spec (pid_of ps j) (pid_of ps p)) as [Heq|Hne].
    + assert (deq_list (pid_of ps) p l = take k l ++ drop (S k) l) as Hd.
      { rewrite <- (take_drop_middle l k j Hj) at 1. by apply deq_list_split. }
      rewrite Hd in HQ.
      by eapply wp_dequeue_found.
    + wp_step. split_and!; [done..|]. exists (S k).
      split_and!; [f_equal; lia | lia |].
      erewrite take_S_r by done. unfold no_pid. rewrite Forall_app, Forall_singleton. done.
  - intros e' ps' (-> & -> & k & Hrest & Hk & Hno).
    assert (k = length l) as -> by (destruct (length l - k)%nat eqn:E; [lia | done]).
    rewrite firstn_all in Hno. wp_step.
    by rewrite deq_list_none, (ps_setq_id _ _ _ Hq) in HQ.
Qed.

(** ** The scheduling invariant *)
Definition live (st : procstate) : bool :=
  match st with RUNNABLE | RUNNING => true | _ => false end.
Definition used (p : proc) : Prop := p_state p <> UNUSED.

(** the queue a process belongs in, if any *)
Definition home (p : proc) : option nat :=
  if live (p_state p) then Some (Z.to_nat (p_queue_number p)) else None.

(** [i] is in the queue [o], once, and in no other *)
Definition in_queues (i : nat) (o : option nat) (ls : list (list nat)) : Prop :=
  forall q l, ls !! q = Some l -> (i ∈ l <-> o = Some q).

Record queues_ok (ps : procs) (ls : list (list nat)) : Prop := {
  qo_nproc : length (ps_proc ps) = NPROC;
  qo_four : length ls = 4%nat;
  qo_rows : length (ps_multique ps) = 4%nat /\ length (ps_sizeofq ps) = 4%nat;
  qo_queue : forall q l, ls !! q = Some l -> queue_is ps q l;
  qo_nodup : forall q l, ls !! q = Some l -> NoDup l;
  qo_range : forall i p, ps_proc ps !! i = Some p -> 0 <= p_queue_number p < 4;
  qo_pid : forall i p, ps_proc ps !! i = Some p -> used p -> 1 <= p_pid p < ps_nextpid ps;
  qo_inj : forall i j p p', ps_proc ps !! i = Some p -> ps_proc ps !! j = Some p' ->
    used p -> used p' -> p_pid p = p_pid p' -> i = j;
}.

Definition sched_inv (ps : procs) (ls : list (list nat)) : Prop :=
  queues_ok ps ls /\ forall i p, ps_proc ps !! i = Some p -> in_queues i (home p) ls.

(** The invariant while process [i], which is in queue [o], is being moved. *)
Definition inv_moving (i : nat) (o : option nat) (ps : procs) (ls : list (list nat)) : Prop :=
  queues_ok ps ls /\ in_queues i o ls /\
  forall j p, j <> i -> ps_proc ps !! j = Some p -> in_queues j (home p) ls.

Lemma moving_intro i p ps ls : sched_inv ps ls -> ps_proc ps !! i = Some p ->
  inv_moving i (home p) ps ls.
Proof. intros [Hok Hin] Hp. split_and!; eauto. Qed.
Lemma moving_elim i p ps ls : inv_moving i (home p) ps ls -> ps_proc ps !! i = Some p ->
  sched_inv ps ls.
Proof.
  intros (Hok & Hi & Hj) Hp. split; [done|]. intros j p' Hp'.
  destruct (decide (j = i)) as [->|Hne]; [by simplify_eq | eauto].
Qed.

(** Updates of a process slot that keep it well formed. *)
Definition slot_ok (ps : procs) (i : nat) (p' : proc) : Prop :=
  0 <= p_queue_number p' < 4 /\
  (used p' -> 1 <= p_pid p' < ps_nextpid ps /\
    forall j q, j <> i -> ps_proc ps !! j = Some q -> used q -> p_pid q <> p_pid p').

Definition upd_slot (i : nat) (p : proc) (ps : procs) : procs :=
  set_ps_proc (<[i := p]> (ps_proc ps)) ps.

Lemma lookup_upd_slot i p ps j : (i < length (ps_proc ps))%nat ->
  ps_proc (upd_slot i p ps) !! j = if decide (i = j) then Some p else ps_proc ps !! j.
Proof.
  intros H. unfold upd_slot. cbn. rewrite list_lookup_insert_case.
  destruct (decide (i = j)); [rewrite decide_True by done | rewrite decide_False by tauto]; done.
Qed.

Lemma queues_ok_upd ps ls i p p' :
  queues_ok ps ls -> ps_proc ps !! i = Some p -> slot_ok ps i p' ->
  queues_ok (upd_slot i p' ps) ls.
Proof.
  intros H Hp (Hq & Hu). pose proof (lookup_lt_Some _ _ _ Hp) as Hlt.
  assert (forall j x, ps_proc (upd_slot i p' ps) !! j = Some x ->
    (j = i /\ x = p') \/ (j <> i /\ ps_proc ps !! j = Some x)) as Hcase.
  { intros j x. rewrite lookup_upd_slot by done. case_decide; intros; simplify_eq; eauto. }
  split.
  - unfold upd_slot. cbn. rewrite length_insert. apply H.
  - apply H.
  - apply H.
  - intros q l Hl. destruct (qo_queue _ _ H q l Hl) as (H1 & H2 & H3 & H4).
    split_and!; try done. unfold upd_slot. cbn. by rewrite length_insert.
  - apply H.
  - intros j x [[-> ->]|[_ Hx]]%Hcase; [done|]. by eapply qo_range.
  - intros j x [[-> ->]|[_ Hx]]%Hcase Hux; [by apply Hu | by eapply (qo_pid _ _ H j)].
  - intros j k x y [[-> ->]|[Hj Hx]]%Hcase [[-> ->]|[Hk Hy]]%Hcase Hux Huy Heq; try done.
    + destruct (Hu Hux) as [_ Hne]. exfalso. by eapply (Hne k y).
    + destruct (Hu Huy) as [_ Hne]. exfalso. by eapply (Hne j x).
    + by eapply (qo_inj _ _ H).
Qed.

Lemma moving_upd i o ps ls p p' :
  inv_moving i o ps ls -> ps_proc ps !! i = Some p -> slot_ok ps i p' ->
  inv_moving i o (upd_slot i p' ps) ls.
Proof.
  intros (Hok & Hi & Hj) Hp Hs. split_and!; [by eapply queues_ok_upd | done |].
  intros j x Hne. rewrite lookup_upd_slot by (by eapply lookup_lt_Some).
  rewrite decide_False by done. eauto.
Qed.

(** A slot update that keeps pid, queue and being in use is always fine. *)
Definition same_key (p p' : proc) : Prop :=
  p_pid p' = p_pid p /\ p_queue_number p' = p_queue_number p /\ (used p' -> used p).
Lemma slot_ok_same ps ls i p p' : queues_ok ps ls -> ps_proc ps !! i = Some p ->
  same_key p p' -> slot_ok ps i p'.
Proof.
  intros H Hp (Hpid & Hq & Hu). split; [rewrite Hq; by eapply qo_range|].
  intros Hu'. rewrite Hpid. split; [eapply qo_pid; eauto|].
  intros j q Hne Hj Huq Heq. apply Hne. eapply (qo_inj _ _ H j i); eauto.
Qed.

Lemma sched_inv_upd ps ls i p p' :
  sched_inv ps ls -> ps_proc ps !! i = Some p -> same_key p p' ->
  live (p_state p') = live (p_state p) -> sched_inv (upd_slot i p' ps) ls.
Proof.
  intros Hinv Hp Hk Hl. pose proof Hinv as [Hok _].
  apply (moving_elim i p').
  - replace (home p') with (home p).
    + eapply moving_upd; [by apply moving_intro | done | by eapply slot_ok_same].
    + destruct Hk as (_ & Hq & _). unfold home. by rewrite Hl, Hq.
  - rewrite lookup_upd_slot by (by eapply lookup_lt_Some). by rewrite decide_True.
Qed.

(** ** Members of a queue and their pids *)
Lemma queues_member ps ls q l j :
  queues_ok ps ls -> ls !! q = Some l -> j ∈ l -> exists p, ps_proc ps !! j = Some p.
Proof.
  intros Hok Hl Hj. destruct (qo_queue _ _ Hok q l Hl) as (_ & _ & _ & Hall).
  rewrite Forall_forall in Hall. by apply lookup_lt_is_Some, Hall.
Qed.

Lemma nodup_slots (l : list nat) (n : nat) : NoDup l -> Forall (fun j => (j < n)%nat) l ->
  (length l <= n)%nat.
Proof.
  intros Hnd Hall. rewrite <- (length_seq n 0). apply submseteq_length, NoDup_submseteq; [done|].
  intros x Hx. rewrite Forall_forall in Hall. apply elem_of_seq. pose proof (Hall x Hx). lia.
Qed.

(** With unique pids [deq_list] removes exactly the process asked for. *)
Lemma deq_list_unique pid i l : NoDup l -> (forall j, j ∈ l -> pid j = pid i -> j = i) ->
  deq_list pid i l = filter (fun j => j <> i) l.
Proof.
  induction 1 as [|j l Hni Hnd IH]; intros Hu; cbn [deq_list]; [done|].
  rewrite filter_cons. destruct (Z.eqb_spec (pid j) (pid i)) as [Heq|Hne].
  - apply Hu in Heq as ->; [|set_solver]. rewrite decide_False by tauto.
    symmetry. apply list_filter_all. apply Forall_forall. intros k Hk ->. done.
  - rewrite decide_True by (intros ->; done). f_equal. apply IH. set_solver.
Qed.

(** Replacing the contents of one queue. *)
Lemma queues_ok_setq ps ls q l l' : queues_ok ps ls -> ls !! q = Some l -> NoDup l' ->
  Forall (fun j => (j < length (ps_proc ps))%nat) l' ->
  queues_ok (ps_setq q l' ps) (<[q := l']> ls).
Proof.
  intros H Hl Hnd Hall.
  pose proof (lookup_lt_Some _ _ _ Hl) as Hlt. rewrite (qo_four _ _ H) in Hlt.
  destruct (qo_rows _ _ H) as [Hm Hs].
  assert (length l' <= NPROC)%nat as Hle by (rewrite <- (qo_nproc _ _ H); by apply nodup_slots).
  split; try apply H.
  - rewrite length_insert. apply H.
  - cbn. by rewrite !length_insert.
  - intros q' x. rewrite list_lookup_insert_case. case_decide as Hq.
    + intros [= <-]. destruct Hq as [-> _]. unfold queue_is. cbn.
      rewrite !list_lookup_insert_eq by lia. done.
    + intros Hx. destruct (qo_queue _ _ H q' x Hx) as (H1 & H2 & H3 & H4).
      assert (q <> q') by (intros ->; apply Hq; rewrite (qo_four _ _ H); lia).
      unfold queue_is. cbn. rewrite !list_lookup_insert_ne by done. done.
  - intros q' x. rewrite list_lookup_insert_case. case_decide; [by intros [= <-]|].
    apply H.
Qed.

Lemma moving_setq i o o' ps ls q l l' : inv_moving i o ps ls -> ls !! q = Some l -> NoDup l' ->
  Forall (fun j => (j < length (ps_proc ps))%nat) l' ->
  (forall j, j <> i -> (j ∈ l' <-> j ∈ l)) -> (i ∈ l' <-> o' = Some q) ->
  (forall q', q' <> q -> (o = Some q' <-> o' = Some q')) ->
  inv_moving i o' (ps_setq q l' ps) (<[q := l']> ls).
Proof.
  intros (Hok & Hi & Hj) Hl Hnd Hall Hoth Hin Ho.
  pose proof (lookup_lt_Some _ _ _ Hl) as Hlt.
  split_and!; [by eapply queues_ok_setq | |].
  - intros q' x. rewrite list_lookup_insert_case. case_decide as Hq.
    + intros [= <-]. destruct Hq as [-> _]. done.
    + intros Hx. assert (q' <> q) as Hne by (intros ->; tauto).
      rewrite (Hi q' x Hx). by apply Ho.
  - intros j p Hne Hp q' x. rewrite list_lookup_insert_case. case_decide as Hq.
    + intros [= <-]. destruct Hq as [-> _]. rewrite Hoth by done. by apply (Hj j p).
    + intros Hx. by apply (Hj j p).
Qed.

(** Members other than [i] have pids of their own. *)
Lemma moving_pid i o ps ls p q l : inv_moving i o ps ls -> ps_proc ps !! i = Some p ->
  used p \/ p_pid p < 1 -> ls !! q = Some l ->
  forall j, j ∈ l -> pid_of ps j = pid_of ps i -> j = i.
Proof.
  intros (Hok & Hi & Hj) Hp Hu Hl j Hin Heq.
  destruct (decide (j = i)) as [->|Hne]; [done|].
  destruct (queues_member _ _ _ _ _ Hok Hl Hin) as [x Hx].
  assert (used x) as Hux.
  { pose proof (proj1 (Hj j x Hne Hx q l Hl) Hin) as Hh. unfold home in Hh. unfold used.
    intros Hst. by rewrite Hst in Hh. }
  rewrite (pid_of_lookup _ _ _ Hx), (pid_of_lookup _ _ _ Hp) in Heq.
  destruct Hu as [Hu|Hu]; [by eapply (qo_inj _ _ Hok)|].
  pose proof (qo_pid _ _ Hok j x Hx Hux). lia.
Qed.

Section moving_ops.
Context (i : nat) (ps : procs) (ls : list (list nat)) (p : proc) (q : nat) (l : list nat).
Context (Hp : ps_proc ps !! i = Some p) (Hl : ls !! q = Some l).
Context (e : list (procs -> procs)).

(** taking a process out of its queue *)
Lemma wp_dequeue_moving (Q : unit -> list (procs -> procs) -> procs -> Prop) :
  inv_moving i (Some q) ps ls -> used p ->
  (let l' := filter (fun j => j <> i) l in
   inv_moving i None (ps_setq q l' ps) (<[q := l']> ls) -> Q tt e (ps_setq q l' ps)) ->
  wp (dequeue i q) e ps Q.
Proof using Hp Hl.
  intros Hinv Hu HQ. pose proof Hinv as (Hok & Hi & Hj).
  eapply wp_dequeue; [by eapply qo_queue | done |].
  rewrite deq_list_unique by (try (by eapply qo_nodup); by eapply moving_pid; eauto).
  apply HQ. destruct (qo_queue _ _ Hok q l Hl) as (_ & _ & _ & Hall).
  eapply moving_setq; try done.
  - apply NoDup_filter. by eapply qo_nodup.
  - rewrite Forall_forall in Hall |- *. intros j [_ Hin]%list_elem_of_filter. by apply Hall.
  - intros j Hne. rewrite list_elem_of_filter. tauto.
  - rewrite list_elem_of_filter. split; [tauto | done].
  - intros q' Hne. split; intros; congruence.
Qed.

(** a process that is in no queue is not found *)
Lemma wp_dequeue_absent (Q : unit -> list (procs -> procs) -> procs -> Prop) :
  inv_moving i None ps ls -> used p \/ p_pid p < 1 -> Q tt e ps -> wp (dequeue i q) e ps Q.
Proof using Hp Hl.
  intros Hinv Hu HQ. pose proof Hinv as (Hok & Hi & Hj).
  pose proof (qo_queue _ _ Hok q l Hl) as Hq.
  eapply wp_dequeue; [done | done |].
  rewrite deq_list_unique by (try (by eapply qo_nodup); by eapply moving_pid; eauto).
  rewrite list_filter_all; [by rewrite (ps_setq_id _ _ _ Hq)|].
  apply Forall_forall. intros j Hin ->. by apply (Hi q l Hl) in Hin.
Qed.

(** appending a process to a queue *)
Lemma wp_enqueue_moving (Q : unit -> list (procs -> procs) -> procs -> Prop) :
  inv_moving i None ps ls -> used p ->
  (let p' := set_p_queue_number q (set_p_queueticks 0 p) in
   let ps' := upd_slot i p' (ps_setq q (l ++ [i]) ps) in
   inv_moving i (Some q) ps' (<[q := l ++ [i]]> ls) -> Q tt e ps') ->
  wp (enqueue i q) e ps Q.
Proof using Hp Hl.
  intros Hinv Hu HQ. pose proof Hinv as (Hok & Hi & Hj).
  pose proof (qo_queue _ _ Hok q l Hl) as Hq.
  pose proof (qo_nodup _ _ Hok q l Hl) as Hnd.
  assert (i ∉ l) as Hni by (intros Hin; by apply (Hi q l Hl) in Hin).
  pose proof (lookup_lt_Some _ _ _ Hl) as Hlt. rewrite (qo_four _ _ Hok) in Hlt.
  assert (Forall (fun j => (j < length (ps_proc ps))%nat) (l ++ [i])) as Hall.
  { rewrite Forall_app. split; [apply Hq | repeat constructor; by eapply lookup_lt_Some]. }
  assert (NoDup (l ++ [i])) as Hnd'.
  { apply NoDup_app. split_and!; [done | set_solver | apply NoDup_singleton]. }
  eapply wp_enqueue; [done | done | |].
  - intros Hdup. exfalso. apply Hdup. unfold no_pid. apply Forall_forall. intros j Hin Heq.
    apply Hni. by rewrite <- (moving_pid i None ps ls p q l Hinv Hp (or_introl Hu) Hl j Hin Heq).
  - intros _. split.
    { pose proof (nodup_slots _ _ Hnd' Hall) as Hlen. rewrite length_app in Hlen.
      rewrite (qo_nproc _ _ Hok) in Hlen. cbn in Hlen. lia. }
    assert (ps_enq i q l ps =
      upd_slot i (set_p_queue_number q (set_p_queueticks 0 p)) (ps_setq q (l ++ [i]) ps)) as ->.
    { unfold ps_enq, upd_slot, ps_setq. rewrite Hp, length_app. cbn.
      by rewrite Nat2Z.inj_add. }
    apply HQ. eapply moving_upd; [|done|].
    + eapply (moving_setq i None); try done.
      * intros j Hne. set_solver.
      * set_solver.
      * intros q' Hne. split; intros; congruence.
    + split; [cbn; lia|]. intros _. cbn. split; [by eapply (qo_pid _ _ Hok)|].
      intros j x Hne Hx Hux Heq. apply Hne. by eapply (qo_inj _ _ Hok).
Qed.

(** a process already in the queue is not added again *)
Lemma wp_enqueue_present (Q : unit -> list (procs -> procs) -> procs -> Prop) :
  inv_moving i (Some q) ps ls -> Q tt e ps -> wp (enqueue i q) e ps Q.
Proof using Hp Hl.
  intros Hinv HQ. pose proof Hinv as (Hok & Hi & Hj).
  eapply wp_enqueue; [by eapply qo_queue | done | done |].
  intros Hno. exfalso. assert (i ∈ l) as Hin by (by apply (Hi q l Hl)).
  unfold no_pid in Hno. rewrite Forall_forall in Hno. by eapply Hno.
Qed.
End moving_ops.

(** ** Theorems *)
Lemma queue_is_frame ps ps' q' l' : queue_is ps q' l' ->
  ps_multique ps' !! q' = ps_multique ps !! q' -> ps_sizeofq ps' !! q' = ps_sizeofq ps !! q' ->
  length (ps_proc ps') = length (ps_proc ps) -> queue_is ps' q' l'.
Proof. intros (H1 & H2 & H3 & H4) E1 E2 E3. unfold queue_is. by rewrite E1, E2, E3. Qed.
Lemma queue_is_set ps ps' q l l' : queue_is ps q l ->
  ps_multique ps' = <[q := row_of l']> (ps_multique ps) ->
  ps_sizeofq ps' = <[q := Z.of_nat (length l')]> (ps_sizeofq ps) ->
  length (ps_proc ps') = length (ps_proc ps) -> (length l' <= NPROC)%nat ->
  Forall (fun j => (j < length (ps_proc ps))%nat) l' -> queue_is ps' q l'.
Proof.
  intros (H1 & H2 & _) E1 E2 E3 Hle Hall. unfold queue_is. rewrite E1, E2, E3.
  rewrite !list_lookup_insert_eq by (by eapply lookup_lt_Some). done.
Qed.
Lemma deq_list_submseteq pid p l : deq_list pid p l ⊆+ l.
Proof.
  induction l as [|j l IH]; cbn; [done|].
  destruct (_ =? _); [by apply submseteq_cons | by apply submseteq_skip].
Qed.
Lemma ps_enq_rows p q l x ps : ps_proc ps !! p = Some x ->
  ps_multique (ps_enq p q l ps) = <[q := row_of (l ++ [p])]> (ps_multique ps) /\
  ps_sizeofq (ps_enq p q l ps) = <[q := Z.of_nat (length (l ++ [p]))]> (ps_sizeofq ps) /\
  ps_proc (ps_enq p q l ps) = <[p := set_p_queue_number q (set_p_queueticks 0 x)]> (ps_proc ps).
Proof.
  intros Hp. unfold ps_enq. rewrite Hp, length_app. cbn.
  by replace (Z.of_nat (length l + 1)) with (Z.of_nat (length l) + 1) by lia.
Qed.

(** C36: [enqueue] implements the abstract append: a process whose pid is not
    in the queue goes to its end, with its queue ticks reset and its queue
    number set; one that is there changes nothing.  The other queues and the
    other processes are untouched. *)
Theorem enqueue_refines e ps (p q : nat) l x :
  queue_is ps q l -> ps_proc ps !! p = Some x ->
  (length l < NPROC)%nat \/ ~ no_pid (pid_of ps) p l ->
  exists ps', enqueue p q e ps = Ret tt e ps' /\
    queue_is ps' q (enq_list (pid_of ps) p l) /\
    (forall q' l', q' <> q -> queue_is ps q' l' -> queue_is ps' q' l') /\
    ps_proc ps' = <[p := if existsb (fun j => pid_of ps j =? pid_of ps p) l then x
                         else set_p_queue_number q (set_p_queueticks 0 x)]> (ps_proc ps).
Proof.
  intros Hq Hp Hroom. apply wp_run_tt.
  unfold enq_list. eapply wp_enqueue; [done..| |].
    - intros Hdup. destruct (existsb _ l) eqn:E; [|by apply existsb_no_pid in E].
      by rewrite list_insert_id.
    - intros Hno. rewrite (proj2 (existsb_no_pid _ _ _)) by done.
      assert (length l < NPROC)%nat as Hlt by (by destruct Hroom). split; [done|].
      destruct (ps_enq_rows p q l x ps Hp) as (E1 & E2 & E3). split_and!; try done.
      + eapply queue_is_set; [done..| | |].
        * by rewrite E3, length_insert.
        * rewrite length_app. cbn. lia.
        * apply Forall_app. split; [apply Hq | repeat constructor; by eapply lookup_lt_Some].
      + intros q' l' Hne Hq'. eapply queue_is_frame; [done|..].
        * by rewrite E1, list_lookup_insert_ne by done.
        * by rewrite E2, list_lookup_insert_ne by done.
        * by rewrite E3, length_insert.
Qed.

(** C37: [dequeue] implements the abstract removal: the first entry with the
    process's pid disappears and the later ones move up; the other queues and
    the process table are untouched. *)
Theorem dequeue_refines e ps (p q : nat) l x :
  queue_is ps q l -> ps_proc ps !! p = Some x ->
  exists ps', dequeue p q e ps = Ret tt e ps' /\
    queue_is ps' q (deq_list (pid_of ps) p l) /\
    (forall q' l', q' <> q -> queue_is ps q' l' -> queue_is ps' q' l') /\
    ps_proc ps' = ps_proc ps.
Proof.
  intros Hq Hp. apply wp_run_tt.
  eapply wp_dequeue; [done..|]. pose proof (deq_list_submseteq (pid_of ps) p l) as Hsub.
    destruct Hq as (H1 & H2 & H3 & H4). split_and!; try done.
    - eapply (queue_is_set ps); [done | reflexivity..| |].
      + pose proof (submseteq_length _ _ Hsub). lia.
      + rewrite Forall_forall in H4 |- *. intros j Hj. apply H4.
        by eapply elem_of_submseteq.
    - intros q' l' Hne Hq'. eapply queue_is_frame; [done|..]; [| |done]; cbn;
        by rewrite list_lookup_insert_ne by done.
Qed.

(** Under the scheduling invariant the queues cannot overflow, and
    [enqueue] followed by [dequeue] gives every queue back: any process that is
    in no queue can be appended to any of the four, and taking it out again
    restores all of them. *)
Lemma enqueue_dequeue_inv e ps ls i p (q : nat) :
  sched_inv ps ls -> ps_proc ps !! i = Some p -> used p -> home p = None -> (q < 4)%nat ->
  wp (enqueue i q;; dequeue i q) e ps (fun _ e' ps' => e' = e /\
    (forall q' l, ls !! q' = Some l -> queue_is ps' q' l) /\
    ps_proc ps' = <[i := set_p_queue_number q (set_p_queueticks 0 p)]> (ps_proc ps)).
Proof.
  intros Hinv Hp Hu Hh Hq4. pose proof Hinv as [Hok _].
  destruct (lookup_lt_is_Some_2 ls q) as [l Hl]; [by rewrite (qo_four _ _ Hok)|].
  pose proof (moving_intro _ _ _ _ Hinv Hp) as Hm. rewrite Hh in Hm.
  wp_step. eapply wp_enqueue_moving; try done. intros p' ps' Hm'.
  pose proof (lookup_lt_Some _ _ _ Hp) as Hlt. pose proof (lookup_lt_Some _ _ _ Hl) as Hlq.
  eapply (wp_dequeue_moving i ps' (<[q := l ++ [i]]> ls) p' q (l ++ [i])); try done.
  - unfold ps'. rewrite lookup_upd_slot by done. by rewrite decide_True.
  - by apply list_lookup_insert_eq.
  - intros l' (Hok' & _).
    assert (l' = l) as ->.
    { unfold l'. rewrite filter_app, list_filter_all; [by rewrite filter_cons_False, app_nil_r by tauto|].
      apply Forall_forall. intros j Hj ->. by apply (proj1 (proj2 Hm) q l Hl) in Hj. }
    split_and!; try done. intros q' l0 Hl0. apply (qo_queue _ _ Hok' q' l0).
    rewrite list_insert_insert_eq. by rewrite list_insert_id.
Qed.
