(* ===== verification/Boot.v ===== *)
(** A concrete machine state: the kernel's globals as the loader leaves them
    (zeroed, with the initializers of proc.c), hart 0 running, the spin locks
    initialized and a UART that is always ready.  The witnesses of the
    properties are evaluated on it and on states built from it. *)
From S2P Require Import Prelude State Spinlock Queue.

Definition ctx0 : context := mkcontext 0 0 (replicate 12 0).
Definition cpu0 : cpu := mkcpu None ctx0 0 0.
Definition proc0 (i : nat) : proc :=
  mkproc (replicate 32 0) UNUSED CNull 0 0 0 None (KSTACK i) 0 0 0 ctx0 (replicate NOFILE None)
    None (replicate 16 0) 0 0 0 0 0 0 0 0 0 0 0 0 0 0 0 0.

Definition boot_locks : list lockid :=
  [LPid; LWait; LTicks; LKmem; LPr; LCons; LUart; LBcache; LLog; LItable; LFtable; LDisk]
  ++ (LProc <$> seq 0 NPROC).
Definition hw0 : hwstate :=
  mkhw 0 0 0 0 0 0 0 0 (replicate NCPU cpu0)
    (list_to_map ((fun l => (l, mkspinlock 0 "lock" None)) <$> boot_locks)).
Definition ps0 : procs :=
  mkprocs (proc0 <$> seq 0 NPROC) None (replicate 4 (replicate NPROC None)) (replicate 4 0)
    1 123456789 0 1.
Definition mm0 : memory :=
  mkmemory ∅ 0 0 0x80022000 0x80008000 0x80007000 0x80007000 0x80007090 0x80006000 0x80002000
    0x80001a00.
Definition io0 : io :=
  mkio true (fun _ => true) [] [] 0 0 (replicate 32 0) 0 0 (replicate 128 0) 0 0 0 [] [] ∅ 0.
Definition sl0 : sleeplock := mksleeplock 0 "sleep lock" 0.
Definition vd0 : vdisk :=
  mkvdisk (replicate 8 (mkvdesc DNull 0 0 0)) 0 (replicate 8 0) 0 (replicate 8 0) (replicate 8 1) 0
    (replicate 8 None) (replicate 8 0) (replicate 8 (mkblkreq 0 0 0)) ∅ id [].
Definition fs0 : fsstate :=
  mkfs (replicate NFILE (mkfile FD_NONE 0 0 0 0 None 0 0))
    (replicate NINODE (mkinode 0 0 0 sl0 0 0 0 0 0 0 (replicate 13 0)))
    (replicate (S NBUF) (mkbuf 0 0 0 0 sl0 0 0 0 (replicate 1024 0)))
    (mklog 0 0 0 0 0 0 (replicate 30 0)) (mksuperblock 0 0 0 0 0 0 0 0) ∅ (replicate NDEV false) vd0.
Definition boot : kstate := mkK hw0 ps0 mm0 io0 fs0.

(** ** Facts every witness needs *)
Lemma boot_hart n : n < 2 ^ 31 -> hart_ok n hw0.
Proof. intros H. exists cpu0. split; [done|]. split; [cbn; lia | done]. Qed.
Lemma boot_lock l : bool_decide (hw0.(h_locks) !! l = Some (mkspinlock 0 "lock" None)) = true ->
  lock_free hw0 l.
Proof. intros H. apply bool_decide_eq_true_1 in H. by exists "lock"%string. Qed.
Lemma boot_proc_locks me : forall i, (i < NPROC)%nat -> me <> Some i -> lock_free hw0 (LProc i).
Proof.
  intros i Hi _. apply boot_lock.
  assert (Forall (fun i => bool_decide (h_locks hw0 !! LProc i = Some (mkspinlock 0 "lock" None)) = true)
    (seq 0 NPROC)) as H by (vm_compute; repeat constructor).
  rewrite Forall_forall in H. apply H. apply elem_of_seq. lia.
Qed.
Lemma boot_sched_inv : sched_inv ps0 (replicate 4 []).
Proof.
  assert (forall i p, ps_proc ps0 !! i = Some p -> p = proc0 i) as Hp.
  { intros i p. cbn. rewrite list_lookup_fmap. intros (x & Hx & ->)%fmap_Some.
    apply lookup_seq in Hx as [-> _]. done. }
  assert (forall q l, replicate 4 (@nil nat) !! q = Some l -> l = [] /\ (q < 4)%nat) as Hq.
  { intros q l Hl. by apply lookup_replicate in Hl. }
  split; [split|].
  - done.
  - done.
  - done.
  - intros q l [-> Hlt]%Hq. split_and!; [| | cbn; lia | constructor];
      destruct q as [|[|[|[|q]]]]; done || lia.
  - intros q l [-> _]%Hq. constructor.
  - by intros i p ->%Hp.
  - by intros i p ->%Hp.
  - by intros i j p p' ->%Hp ->%Hp.
  - intros i p ->%Hp q l [-> _]%Hq. cbn. split; [set_solver | done].
Qed.

(** ** A decision procedure for the scheduling invariant *)
Definition sched_invb (ps : procs) (ls : list (list nat)) : bool :=
  let t := ps_proc ps in
  bool_decide (length t = NPROC) && bool_decide (length ls = 4%nat) &&
  bool_decide (length (ps_multique ps) = 4%nat) && bool_decide (length (ps_sizeofq ps) = 4%nat) &&
  forallb (fun q => match ls !! q with
    | Some l => bool_decide (queue_is ps q l) && bool_decide (NoDup l) &&
        forallb (fun i => match t !! i with
          | Some p => bool_decide (i ∈ l <-> home p = Some q) | None => true end) (seq 0 NPROC)
    | None => true end) (seq 0 4) &&
  forallb (fun i => match t !! i with
    | Some p => bool_decide (0 <= p_queue_number p < 4) &&
        bool_decide (p_state p = UNUSED \/ 1 <= p_pid p < ps_nextpid ps) &&
        forallb (fun j => match t !! j with
          | Some p' => bool_decide (p_state p = UNUSED \/ p_state p' = UNUSED \/ p_pid p <> p_pid p' \/ i = j)
          | None => true end) (seq 0 NPROC)
    | None => true end) (seq 0 NPROC).

Lemma forallb_seq (f : nat -> bool) n i : forallb f (seq 0 n) = true -> (i < n)%nat -> f i = true.
Proof. intros H Hi. rewrite forallb_forall in H. apply H, in_seq. lia. Qed.

Lemma sched_invb_sound ps ls : sched_invb ps ls = true -> sched_inv ps ls.
Proof.
  unfold sched_invb. rewrite !andb_true_iff, !bool_decide_eq_true.
  intros (((((Hn & H4) & Hm) & Hs) & Hq) & Hp).
  assert (forall q l, ls !! q = Some l -> queue_is ps q l /\ NoDup l /\
    forall i p, ps_proc ps !! i = Some p -> (i ∈ l <-> home p = Some q)) as HQ.
  { intros q l Hl. pose proof (lookup_lt_Some _ _ _ Hl).
    pose proof (forallb_seq _ 4 q Hq ltac:(lia)) as H'. cbn beta in H'. rewrite Hl in H'.
    rewrite !andb_true_iff, !bool_decide_eq_true in H'. destruct H' as ((? & ?) & Hi).
    split_and!; try done. intros i p Hip. pose proof (lookup_lt_Some _ _ _ Hip).
    pose proof (forallb_seq _ NPROC i Hi ltac:(lia)) as H'. cbn beta in H'.
    rewrite Hip in H'. by apply bool_decide_eq_true in H'. }
  assert (forall i p, ps_proc ps !! i = Some p -> 0 <= p_queue_number p < 4 /\
    (p_state p = UNUSED \/ 1 <= p_pid p < ps_nextpid ps) /\
    forall j p', ps_proc ps !! j = Some p' ->
      p_state p = UNUSED \/ p_state p' = UNUSED \/ p_pid p <> p_pid p' \/ i = j) as HP.
  { intros i p Hip. pose proof (lookup_lt_Some _ _ _ Hip).
    pose proof (forallb_seq _ NPROC i Hp ltac:(lia)) as H'. cbn beta in H'. rewrite Hip in H'.
    rewrite !andb_true_iff, !bool_decide_eq_true in H'. destruct H' as ((? & ?) & Hj).
    split_and!; try tauto. intros j p' Hjp. pose proof (lookup_lt_Some _ _ _ Hjp).
    pose proof (forallb_seq _ NPROC j Hj ltac:(lia)) as H'. cbn beta in H'.
    rewrite Hjp in H'. by apply bool_decide_eq_true in H'. }
  split; [split; try done|].
  - intros q l Hl. by destruct (HQ q l Hl).
  - intros q l Hl. by destruct (HQ q l Hl) as (_ & ? & _).
  - intros i p Hi. by destruct (HP i p Hi).
  - intros i p Hi Hu. by destruct (HP i p Hi) as (_ & [?|?] & _).
  - intros i j p p' Hi Hj Hu Hu' Heq. destruct (HP i p Hi) as (_ & _ & HJ).
    destruct (HJ j p' Hj) as [?|[?|[?|?]]]; done.
  - intros i p Hi q l Hl. destruct (HQ q l Hl) as (_ & _ & H). by apply H.
Qed.

(** ** A machine with four processes

    Slot 0 (pid 1) runs, slots 1 and 3 (pids 2 and 4) are runnable in queue 1
    and slot 2 (pid 3) sleeps on the clock. *)
Definition demo_proc (i : nat) (st : procstate) (ch : chan) (pid q : Z) (par : option nat) : proc :=
  set_p_tickets 1 (set_p_arrival_time pid (set_p_parent par (set_p_queue_number q
    (set_p_pid pid (set_p_chan ch (set_p_state st (proc0 i))))))).
Definition demo_table : list proc :=
  [demo_proc 0 RUNNING CNull 1 0 None; demo_proc 1 RUNNABLE CNull 2 1 (Some 0%nat);
   demo_proc 2 SLEEPING CTicks 3 1 (Some 0%nat); demo_proc 3 RUNNABLE CNull 4 1 (Some 1%nat)]
  ++ (proc0 <$> seq 4 60).
Definition demo_queues : list (list nat) := [[0]; [1; 3]; []; []]%nat.
Definition ps1 : procs :=
  mkprocs demo_table (Some 0%nat) [row_of [0]; row_of [1; 3]; row_of []; row_of []]%nat
    [1; 2; 0; 0] 5 123456789 0 1.
Lemma demo_sched_inv : sched_inv ps1 demo_queues.
Proof. apply sched_invb_sound. vm_compute. reflexivity. Qed.

(** the same machine, in the scheduler of hart 0 (nobody runs) *)
Definition sched_demo : kstate :=
  set_k_ps (set_ps_proc (<[0%nat := demo_proc 0 RUNNABLE CNull 1 0 None]> demo_table) ps1) boot.
Lemma sched_demo_inv : sched_inv (k_ps sched_demo) demo_queues.
Proof. apply sched_invb_sound. vm_compute. reflexivity. Qed.

(** ** Witnesses for the lock and queue theorems *)
(** hart 1 holds the pid lock; it releases it at its second move, or never *)
Definition contended : kstate :=
  set_k_hw (hw_lock LPid (mkspinlock 1 "lock" (Some 1%nat)) hw0) boot.
Definition hart1_releases (s : kstate) : kstate :=
  set_k_hw (hw_lock LPid (mkspinlock 0 "lock" None) (k_hw s)) s.
Lemma acquire_exclusive_witness :
  let e := [fun s => s; hart1_releases] in
  let s0 := set_k_hw (hw_push (k_hw contended)) contended in
  (acquire LPid e contended = Ret tt [] (took LPid (attempt LPid e 2 s0)) /\
   lock_held (k_hw (took LPid (attempt LPid e 2 s0))) LPid) /\
  acquire LPid [fun s => s] contended = Blocked (swapped LPid (attempt LPid [fun s => s] 1 s0)).
Proof.
  intros e s0. assert (hart_ok 1 (k_hw contended)) as Hok by (by apply (boot_hart 1)).
  assert (not_mine (k_hw contended) LPid) as Hk.
  { eexists. split; [reflexivity | by right]. }
  split.
  - refine (proj1 (acquire_exclusive LPid e contended Hok _ Hk) 2%nat _ _ _).
    + repeat constructor; intros s Hs; [done|]. unfold hart1_releases. cbn. rewrite lookup_insert_eq. by eexists.
    + cbn. lia.
    + reflexivity.
    + intros [|[|m]] Hm; [vm_compute; discriminate.. | lia].
  - refine (proj2 (acquire_exclusive LPid [fun s => s] contended Hok _ Hk) _).
    + repeat constructor. by intros s Hs.
    + intros [|[|n]] Hn; [vm_compute; discriminate.. | cbn in Hn; lia].
Defined.

Lemma critical_section_balanced_witness :
  wp (acquire LPid;; modify_ps (set_ps_ticks 5);; release LPid) [] boot (fun _ e' s' => e' = [] /\
    k_hw s' ≈h k_hw boot /\ lock_free (k_hw s') LPid /\ depth (k_hw s') = depth (k_hw boot) /\
    sie (k_hw s') = sie (k_hw boot)).
Proof.
  apply (critical_section_balanced LPid (modify_ps (set_ps_ticks 5)) [] boot).
  - by apply boot_hart.
  - by apply boot_lock.
  - by intros s1 _ _ _ _.
Defined.

(** [LPid] held by hart 0, and free *)
Lemma lock_misuse_panics_witness :
  let held := set_k_hw (hw_acq LPid hw0) boot in
  (exists s', acquire LPid [] held = Panic "acquire" s') /\
  release LWait [] held = Panic "release" held /\
  pop_off [] boot = Panic "pop_off" boot.
Proof.
  intros held.
  assert (hart_ok 1 (hw_acq LPid hw0)) as Hok.
  { apply (hart_ok_acq hw0 LPid 2); [by apply boot_hart | by apply boot_lock]. }
  split_and!.
  - apply (proj1 (lock_misuse_panics LPid [] held Hok)). apply hw_acq_held. by apply boot_lock.
  - apply (proj1 (proj2 (lock_misuse_panics LWait [] held Hok))).
    + split; [by eexists|]. intros (n & Hn). vm_compute in Hn. discriminate Hn.
    + intros k Hk. vm_compute in Hk. injection Hk as <-. by left.
  - apply (lock_misuse_panics LPid [] boot); [by apply boot_hart | reflexivity | reflexivity].
Defined.

Lemma enqueue_refines_witness :
  exists ps', enqueue 2 1 [] ps1 = Ret tt [] ps' /\
    queue_is ps' 1 [1; 3; 2]%nat /\
    (forall q' l', q' <> 1%nat -> queue_is ps1 q' l' -> queue_is ps' q' l') /\
    ps_proc ps' = <[2%nat := set_p_queue_number 1 (set_p_queueticks 0
      (demo_proc 2 SLEEPING CTicks 3 1 (Some 0%nat)))]> demo_table.
Proof.
  apply (enqueue_refines [] ps1 2 1 [1; 3]%nat).
  - apply (qo_queue _ _ (proj1 demo_sched_inv)). reflexivity.
  - reflexivity.
  - left. cbn. unfold NPROC. lia.
Defined.

Lemma dequeue_refines_witness :
  exists ps', dequeue 1 1 [] ps1 = Ret tt [] ps' /\
    queue_is ps' 1 [3]%nat /\
    (forall q' l', q' <> 1%nat -> queue_is ps1 q' l' -> queue_is ps' q' l') /\
    ps_proc ps' = demo_table.
Proof.
  apply (dequeue_refines [] ps1 1 1 [1; 3]%nat (demo_proc 1 RUNNABLE CNull 2 1 (Some 0%nat))).
  - apply (qo_queue _ _ (proj1 demo_sched_inv)). reflexivity.
  - reflexivity.
Defined.

Lemma enqueue_dequeue_inv_witness :
  wp (enqueue 2 3;; dequeue 2 3) [] ps1 (fun _ e' ps' => e' = [] /\
    (forall q' l, demo_queues !! q' = Some l -> queue_is ps' q' l) /\
    ps_proc ps' = <[2%nat := set_p_queue_number 3 (set_p_queueticks 0
      (demo_proc 2 SLEEPING CTicks 3 1 (Some 0%nat)))]> demo_table).
Proof.
  apply (enqueue_dequeue_inv [] ps1 demo_queues 2 (demo_proc 2 SLEEPING CTicks 3 1 (Some 0%nat)) 3).
  - apply demo_sched_inv.
  - reflexivity.
  - done.
  - reflexivity.
  - lia.
Defined.
