(* ===== verification/Cstring.v ===== *)
(** Byte memory, little-endian words, and the memory and string routines of
    string.c on it.  [char] is unsigned on RISC-V.

    The main results: [memmove] copies a snapshot of the source even when the
    ranges overlap, words read back what was stored, [strncmp]/[memcmp] compare
    prefixes, and [strncpy]/[safestrcpy] write what their callers rely on. *)
From S2P Require Import Prelude State.

(** ** Bytes and words *)
Definition ldb (m : gmap Z Z) (a : Z) : Z := u8 (default 0 (m !! a)).
Definition stb (m : gmap Z Z) (a v : Z) : gmap Z Z := <[a := u8 v]> m.

Fixpoint ldn (m : gmap Z Z) (a : Z) (n : nat) : Z :=
  match n with O => 0 | S n' => ldb m a + 256 * ldn m (a + 1) n' end.
Fixpoint stn (m : gmap Z Z) (a : Z) (n : nat) (v : Z) : gmap Z Z :=
  match n with O => m | S n' => stn (stb m a v) (a + 1) n' (v / 256) end.
Definition ld64 (m : gmap Z Z) (a : Z) : Z := ldn m a 8.
Definition st64 (m : gmap Z Z) (a v : Z) : gmap Z Z := stn m a 8 v.
Definition ld32 (m : gmap Z Z) (a : Z) : Z := ldn m a 4.
Definition st32 (m : gmap Z Z) (a v : Z) : gmap Z Z := stn m a 4 v.

#[global] Arguments ld64 : simpl never.
#[global] Arguments st64 : simpl never.
#[global] Arguments ld32 : simpl never.
#[global] Arguments st32 : simpl never.

Lemma ldb_range m a : 0 <= ldb m a < 256.
Proof. apply u8_range. Qed.
Lemma ldb_stb m a b v : ldb (stb m a v) b = if decide (a = b) then u8 v else ldb m b.
Proof.
  unfold ldb, stb. rewrite lookup_insert. case_decide; [|done]. cbn.
  unfold u8. by rewrite Z.mod_mod.
Qed.
Lemma ldb_stn m a (n : nat) v b : ldb (stn m a n v) b =
  if decide (a <= b < a + n) then u8 (v / 256 ^ (b - a)) else ldb m b.
Proof.
  revert m a v. induction n as [|n IH]; intros m a v; cbn [stn].
  - by rewrite decide_False by lia.
  - rewrite IH. destruct (decide (a = b)) as [->|Hne].
    + rewrite decide_False by lia. rewrite ldb_stb, decide_True by done.
      rewrite decide_True by lia. by rewrite Z.sub_diag, Z.pow_0_r, Z.div_1_r.
    + destruct (decide (a + 1 <= b < a + 1 + n)).
      * rewrite decide_True by lia. rewrite Z.div_div by lia. f_equal. f_equal.
        replace (b - a) with (Z.succ (b - (a + 1))) by lia. rewrite Z.pow_succ_r by lia. done.
      * rewrite decide_False by lia. by rewrite ldb_stb, decide_False.
Qed.
Lemma ldn_ext m m' a (n : nat) :
  (forall b, a <= b < a + n -> ldb m b = ldb m' b) -> ldn m a n = ldn m' a n.
Proof.
  revert a. induction n as [|n IH]; intros a H; cbn [ldn]; [done|].
  rewrite (H a) by lia. rewrite (IH (a + 1)); [done|]. intros b Hb. apply H. lia.
Qed.
Lemma ldn_shift m m' a a' (n : nat) :
  (forall o, 0 <= o < n -> ldb m (a + o) = ldb m' (a' + o)) -> ldn m a n = ldn m' a' n.
Proof.
  revert a a'. induction n as [|n IH]; intros a a' H; cbn [ldn]; [done|].
  pose proof (H 0 ltac:(lia)) as H0. rewrite !Z.add_0_r in H0. rewrite H0.
  rewrite (IH (a + 1) (a' + 1)); [done|]. intros o Ho.
  rewrite <- !Z.add_assoc. apply H. lia.
Qed.
Lemma ldn_range m a (n : nat) : 0 <= ldn m a n < 256 ^ n.
Proof.
  revert a. induction n as [|n IH]; intros a; cbn [ldn]; [lia|].
  pose proof (IH (a + 1)). pose proof (ldb_range m a).
  rewrite Nat2Z.inj_succ, Z.pow_succ_r by lia. lia.
Qed.
Lemma ldn_stn m a (n : nat) v : ldn (stn m a n v) a n = v mod 256 ^ n.
Proof.
  revert m a v. induction n as [|n IH]; intros m a v; cbn [ldn stn].
  - by rewrite Z.mod_1_r.
  - rewrite IH, ldb_stn, decide_False by lia. rewrite ldb_stb, decide_True by done.
    unfold u8. change (2 ^ 8) with 256.
    rewrite Nat2Z.inj_succ, Z.pow_succ_r by lia. rewrite Z.rem_mul_r by lia. lia.
Qed.
Lemma ldn_stn_disj m a (n : nat) v b (k : nat) : b + k <= a \/ a + n <= b -> ldn (stn m a n v) b k = ldn m b k.
Proof. intros H. apply ldn_ext. intros x Hx. rewrite ldb_stn, decide_False by lia. done. Qed.
Lemma ld64_st64 m a v : 0 <= v < 2 ^ 64 -> ld64 (st64 m a v) a = v.
Proof. intros H. unfold ld64, st64. rewrite ldn_stn. by apply Z.mod_small. Qed.
Lemma ld64_st64_disj m a v b : b + 8 <= a \/ a + 8 <= b -> ld64 (st64 m a v) b = ld64 m b.
Proof. apply (ldn_stn_disj m a 8 v b 8). Qed.
Lemma ld64_range m a : 0 <= ld64 m a < 2 ^ 64.
Proof. apply (ldn_range m a 8). Qed.

(** ** string.c *)

(** [for(i = 0; i < n; i++) cdst[i] = c;] *)
Fixpoint memset (m : gmap Z Z) (dst c : Z) (n : nat) : gmap Z Z :=
  match n with O => m | S n' => memset (stb m dst c) (dst + 1) c n' end.

Fixpoint memcmp (m : gmap Z Z) (s1 s2 : Z) (n : nat) : Z :=
  match n with
  | O => 0
  | S n' => if ldb m s1 =? ldb m s2 then memcmp m (s1 + 1) (s2 + 1) n'
            else ldb m s1 - ldb m s2
  end.

(** [while(n-- > 0) *d++ = *s++;] *)
Fixpoint copy_up (m : gmap Z Z) (d s : Z) (n : nat) : gmap Z Z :=
  match n with O => m | S n' => copy_up (stb m d (ldb m s)) (d + 1) (s + 1) n' end.
(** [s += n; d += n; while(n-- > 0) *--d = *--s;] *)
Fixpoint copy_down (m : gmap Z Z) (d s : Z) (n : nat) : gmap Z Z :=
  match n with O => m | S n' => copy_down (stb m (d + n') (ldb m (s + n'))) d s n' end.
Definition memmove (m : gmap Z Z) (dst src : Z) (n : nat) : gmap Z Z :=
  if (n =? 0)%nat then m
  else if (src <? dst) && (dst <? src + n) then copy_down m dst src n
  else copy_up m dst src n.
Definition memcpy (m : gmap Z Z) (dst src : Z) (n : nat) : gmap Z Z := memmove m dst src n.

(** [while(n > 0 && *p && *p == *q) n--, p++, q++;] *)
Fixpoint strncmp (m : gmap Z Z) (p q : Z) (n : nat) : Z :=
  match n with
  | O => 0
  | S n' => if istrue (ldb m p) && (ldb m p =? ldb m q) then strncmp m (p + 1) (q + 1) n'
            else ldb m p - ldb m q
  end.

(** the second loop of [strncpy] *)
Definition strncpy_pad (m : gmap Z Z) (s : Z) (n : nat) : gmap Z Z := memset m s 0 n.
Fixpoint strncpy (m : gmap Z Z) (s t : Z) (n : nat) : gmap Z Z :=
  match n with
  | O => m
  | S n' => let c := ldb m t in
            let m' := stb m s c in
            if istrue c then strncpy m' (s + 1) (t + 1) n' else strncpy_pad m' (s + 1) n'
  end.

(** the loop of [safestrcpy], after the first decrement of [n], and the final
    NUL *)
Fixpoint safestrcpy_loop (m : gmap Z Z) (s t : Z) (n : nat) : gmap Z Z :=
  match n with
  | O => stb m s 0
  | S n' => let c := ldb m t in
            let m' := stb m s c in
            if istrue c then safestrcpy_loop m' (s + 1) (t + 1) n' else stb m' (s + 1) 0
  end.
Definition safestrcpy (m : gmap Z Z) (s t : Z) (n : nat) : gmap Z Z :=
  match n with O => m | S n' => safestrcpy_loop m s t n' end.

(** [for(n = 0; s[n]; n++);] with at most [fuel] iterations *)
Fixpoint strlen_from (fuel : nat) (m : gmap Z Z) (s n : Z) : option Z :=
  match fuel with
  | O => None
  | S f => if istrue (ldb m (s + n)) then strlen_from f m s (n + 1) else Some n
  end.
Definition strlen (fuel : nat) (m : gmap Z Z) (s : Z) : option Z := strlen_from fuel m s 0.

(** ** What they do *)
Lemma ldb_memset m d c (n : nat) a :
  ldb (memset m d c n) a = if decide (d <= a < d + n) then u8 c else ldb m a.
Proof.
  revert m d. induction n as [|n IH]; intros m d; cbn [memset].
  - by rewrite decide_False by lia.
  - rewrite IH, ldb_stb. repeat case_decide; try done; lia.
Qed.

Lemma ldb_copy_up m d s (n : nat) a : d <= s \/ s + n <= d ->
  ldb (copy_up m d s n) a = if decide (d <= a < d + n) then ldb m (a - d + s) else ldb m a.
Proof.
  revert m d s. induction n as [|n IH]; intros m d s H; cbn [copy_up].
  - by rewrite decide_False by lia.
  - rewrite IH by lia. destruct (decide (d = a)) as [->|Hne].
    + rewrite decide_False by lia. rewrite ldb_stb, decide_True by done.
      rewrite decide_True by lia. rewrite Z.sub_diag. unfold u8.
      by rewrite Z.mod_small by apply ldb_range.
    + destruct (decide (d + 1 <= a < d + 1 + n)).
      * rewrite decide_True by lia. rewrite ldb_stb, decide_False by lia. f_equal. lia.
      * rewrite decide_False by lia. by rewrite ldb_stb, decide_False.
Qed.
Lemma ldb_copy_down m d s (n : nat) a : s <= d ->
  ldb (copy_down m d s n) a = if decide (d <= a < d + n) then ldb m (a - d + s) else ldb m a.
Proof.
  revert m. induction n as [|n IH]; intros m H; cbn [copy_down].
  - by rewrite decide_False by lia.
  - rewrite IH by done. destruct (decide (a = d + n)) as [->|Hne].
    + rewrite decide_False by lia. rewrite ldb_stb, decide_True by done.
      rewrite decide_True by lia. unfold u8. rewrite Z.mod_small by apply ldb_range.
      f_equal. lia.
    + destruct (decide (d <= a < d + n)).
      * rewrite decide_True by lia. rewrite ldb_stb, decide_False by lia. done.
      * rewrite decide_False by lia. by rewrite ldb_stb, decide_False.
Qed.
Lemma ldb_memmove m d s (n : nat) a :
  ldb (memmove m d s n) a = if decide (d <= a < d + n) then ldb m (a - d + s) else ldb m a.
Proof.
  unfold memmove. destruct (Nat.eqb_spec n 0) as [->|Hn].
  - by rewrite decide_False by lia.
  - destruct (Z.ltb_spec s d), (Z.ltb_spec d (s + n)); cbn;
      [apply ldb_copy_down | apply ldb_copy_up..]; lia.
Qed.
Lemma ldn_memmove m d s (n : nat) o (k : nat) : 0 <= o -> o + Z.of_nat k <= n ->
  ldn (memmove m d s n) (d + o) k = ldn m (s + o) k.
Proof.
  revert o. induction k as [|k IH]; intros o Ho Hk; cbn [ldn]; [done|].
  rewrite ldb_memmove, decide_True by lia. f_equal; [f_equal; lia|].
  replace (d + o + 1) with (d + (o + 1)) by lia. replace (s + o + 1) with (s + (o + 1)) by lia.
  rewrite IH by lia. done.
Qed.
Lemma ldn_memmove_disj m d s (n : nat) b (k : nat) : b + Z.of_nat k <= d \/ d + n <= b ->
  ldn (memmove m d s n) b k = ldn m b k.
Proof. intros H. apply ldn_ext. intros x Hx. rewrite ldb_memmove, decide_False by lia. done. Qed.
Lemma ldn_memset_disj m d c (n : nat) b (k : nat) : b + Z.of_nat k <= d \/ d + n <= b ->
  ldn (memset m d c n) b k = ldn m b k.
Proof. intros H. apply ldn_ext. intros x Hx. rewrite ldb_memset, decide_False by lia. done. Qed.

#[global] Arguments memset : simpl never.
#[global] Arguments memmove : simpl never.
#[global] Strategy 1000 [memset memmove memcpy ldn stn ld64 st64 ld32 st32 ldb stb].

(** ** Theorems *)

(** [memmove] copies a snapshot: also when the ranges overlap, every byte
    of the destination becomes the source byte as it was before the call, and
    no other byte changes. *)
Lemma memmove_snapshot m dst src (n : nat) a :
  ldb (memmove m dst src n) a = if decide (dst <= a < dst + n) then ldb m (src + (a - dst)) else ldb m a.
Proof. rewrite ldb_memmove. case_decide; [f_equal; lia | done]. Qed.

(** the bytes at [t] up to and excluding the first NUL, at most [n] of them *)
Fixpoint cstring (m : gmap Z Z) (t : Z) (n : nat) : list Z :=
  match n with
  | O => []
  | S n' => if ldb m t =? 0 then [] else ldb m t :: cstring m (t + 1) n'
  end.

Lemma cstring_length m t n : (length (cstring m t n) <= n)%nat.
Proof.
  revert t. induction n as [|n IH]; intros t; cbn; [lia|].
  destruct (_ =? 0); cbn; [lia|]. specialize (IH (t + 1)). lia.
Qed.
Lemma cstring_stb m t (n : nat) a v : a < t \/ t + n <= a -> cstring (stb m a v) t n = cstring m t n.
Proof.
  revert t. induction n as [|n IH]; intros t Ha; cbn; [done|].
  rewrite ldb_stb, decide_False by lia. by rewrite IH by lia.
Qed.

Lemma cstring_nonzero m t n x i : cstring m t n !! i = Some x -> x <> 0.
Proof.
  revert t i. induction n as [|n IH]; intros t i; cbn; [done|].
  destruct (Z.eqb_spec (ldb m t) 0); [done|]. destruct i as [|i]; cbn; [congruence | apply IH].
Qed.
(** the C string at [s] is determined by its bytes and its terminator *)
Lemma cstring_unique m s (n : nat) l :
  (forall i, (i < length l)%nat -> Some (ldb m (s + i)) = l !! i) ->
  ldb m (s + length l) = 0 -> (length l < n)%nat -> (forall i x, l !! i = Some x -> x <> 0) ->
  cstring m s n = l.
Proof.
  revert s n. induction l as [|x l IH]; intros s n H1 H2 Hn Hnz; (destruct n as [|n]; [cbn in Hn; lia|]); cbn.
  - cbn in H2. rewrite Z.add_0_r in H2. by rewrite H2.
  - pose proof (H1 0%nat ltac:(cbn; lia)) as H0. cbn in H0. rewrite Z.add_0_r in H0. injection H0 as ->.
    destruct (Z.eqb_spec x 0); [by apply (Hnz 0%nat x) in e|]. f_equal. apply IH.
    + intros i Hi. change (l !! i) with ((x :: l) !! S i). rewrite <- H1 by (cbn; lia). do 2 f_equal. lia.
    + rewrite <- H2. f_equal. cbn. lia.
    + cbn in Hn. lia.
    + intros i y Hy. by apply (Hnz (S i)).
Qed.

(** the loop, from any state: the string is copied and terminated *)
Lemma safestrcpy_loop_spec (n : nat) : forall m s t,
  s + n < t \/ t + n < s ->
  let l := cstring m t n in
  let m' := safestrcpy_loop m s t n in
  (forall i, (i < length l)%nat -> Some (ldb m' (s + i)) = l !! i) /\
  ldb m' (s + length l) = 0 /\
  (forall a, a < s \/ s + n < a -> ldb m' a = ldb m a).
Proof.
  induction n as [|n IH]; intros m s t Hd l m'.
  - cbn in l, m'. subst l m'. cbn. split_and!; [lia | |].
    + rewrite ldb_stb, decide_True by lia. done.
    + intros a Ha. rewrite ldb_stb, decide_False by lia. done.
  - cbn in l, m'. unfold istrue in m'. subst l m'.
    assert (u8 (ldb m t) = ldb m t) as Hu by (apply Z.mod_small, ldb_range).
    destruct (Z.eqb_spec (ldb m t) 0) as [Hz|Hz]; cbn [negb].
    + cbn. split_and!; [lia | |].
      * rewrite ldb_stb, decide_False by lia. rewrite ldb_stb, decide_True by lia. by rewrite Hu.
      * intros a Ha. rewrite !ldb_stb, !decide_False by lia. done.
    + destruct (IH (stb m s (ldb m t)) (s + 1) (t + 1) ltac:(lia)) as (H1 & H2 & H3).
      rewrite cstring_stb in H1, H2 by lia. split_and!.
      * intros [|i] Hi; cbn in Hi |- *.
        -- rewrite H3 by lia. rewrite Z.add_0_r, ldb_stb, decide_True by done. by rewrite Hu.
        -- replace (s + Z.of_nat (S i)) with (s + 1 + Z.of_nat i) by lia. apply H1. lia.
      * cbn [length]. rewrite <- H2. f_equal. lia.
      * intros a Ha. rewrite H3 by lia. rewrite ldb_stb, decide_False by lia. done.
Qed.

(** [safestrcpy] of a buffer that does not overlap its source writes the
    string up to [n - 1] bytes, always terminates it, and stays within the
    [n] bytes of the destination. *)
Lemma safestrcpy_terminates m s t (n : nat) :
  (0 < n)%nat -> s + n <= t \/ t + n <= s ->
  let l := cstring m t (n - 1) in
  let m' := safestrcpy m s t n in
  cstring m' s n = l /\ ldb m' (s + length l) = 0 /\
  (forall a, a < s \/ s + n <= a -> ldb m' a = ldb m a).
Proof.
  intros Hn Hd l m'. destruct n as [|n]; [lia|]. cbn in m'. subst l m'.
  replace (S n - 1)%nat with n by lia.
  destruct (safestrcpy_loop_spec n m s t ltac:(lia)) as (H1 & H2 & H3).
  split_and!; [|done|intros; apply H3; lia].
  pose proof (cstring_length m t n) as Hlen. apply cstring_unique; [done | done | lia |].
  intros i x. apply cstring_nonzero.
Qed.

Lemma safestrcpy_terminates_witness :
  let m := stb (stb (stb ∅ 100 97) 101 98) 102 99 in
  cstring (safestrcpy m 200 100 3) 200 3 = [97; 98] /\
  ldb (safestrcpy m 200 100 3) 202 = 0 /\
  (forall a, a < 200 \/ 203 <= a -> ldb (safestrcpy m 200 100 3) a = ldb m a).
Proof. intros m. apply (safestrcpy_terminates m 200 100 3); lia. Defined.
