(* ===== verification/Kalloc.v ===== *)
(** Physical memory accesses and the page allocator (kalloc.c).

    The free list is threaded through the free pages themselves.  The theorems
    refine it to a stack of page addresses: [kfree] pushes, [kalloc] pops, bad
    pages panic, and [freerange] builds the list of all pages of its range. *)
From S2P Require Import Prelude State Spinlock Queue Boot Cstring.

(** ** Accesses to RAM; anything outside it faults *)
Definition in_ram (a n : Z) : bool := (KERNBASE <=? a) && (a + n <=? PHYSTOP).
Definition load64 (a : Z) : K Z :=
  if in_ram a 8 then gets (fun s => ld64 (m_bytes (k_mm s)) a) else fault "load".
Definition modify_bytes (f : gmap Z Z -> gmap Z Z) : K unit :=
  modify_mm (fun m => set_m_bytes (f (m_bytes m)) m).
Definition store64 (a v : Z) : K unit :=
  if in_ram a 8 then modify_bytes (fun b => st64 b a v) else fault "store".
Definition mem_set (dst c : Z) (n : Z) : K unit :=
  if in_ram dst n then modify_bytes (fun b => memset b dst c (Z.to_nat n)) else fault "memset".
Definition mem_move (dst src : Z) (n : Z) : K unit :=
  if in_ram dst n && in_ram src n
  then modify_bytes (fun b => memmove b dst src (Z.to_nat n)) else fault "memmove".

(** ** riscv.h *)
Definition PGROUNDUP (sz : Z) : Z := Z.land (u64 (sz + PGSIZE - 1)) (Z.lnot (PGSIZE - 1)).
Definition PGROUNDDOWN (a : Z) : Z := Z.land a (Z.lnot (PGSIZE - 1)).

(** ** kalloc.c *)
Definition kfree (pa : Z) : K unit :=
  endp <- gets (fun s => m_end (k_mm s));;
  if istrue (pa mod PGSIZE) || (pa <? endp) || (PHYSTOP <=? pa) then panic "kfree" else
  mem_set pa 1 PGSIZE;;
  acquire LKmem;;
  fl <- gets (fun s => m_freelist (k_mm s));;
  store64 pa fl;;
  modify_mm (set_m_freelist pa);;
  release LKmem.

Definition kalloc : K Z :=
  acquire LKmem;;
  r <- gets (fun s => m_freelist (k_mm s));;
  (if istrue r then n <- load64 r;; modify_mm (set_m_freelist n) else ret tt);;
  release LKmem;;
  (if istrue r then mem_set r 5 PGSIZE else ret tt);;
  ret r.

(** [for(; p + PGSIZE <= pa_end; p += PGSIZE) kfree(p);], with fuel *)
Fixpoint freerange_loop (fuel : nat) (p pa_end : Z) : K unit :=
  match fuel with
  | O => fault "out of fuel"
  | S f => if p + PGSIZE <=? pa_end then kfree p;; freerange_loop f (p + PGSIZE) pa_end
           else ret tt
  end.
Definition freerange (pa_start pa_end : Z) : K unit :=
  let p := PGROUNDUP pa_start in
  freerange_loop (S (Z.to_nat ((pa_end - p) / PGSIZE))) p pa_end.

#[global] Arguments freerange : simpl never.
Definition kinit : K unit :=
  initlock LKmem "kmem";;
  endp <- gets (fun s => m_end (k_mm s));;
  freerange endp PHYSTOP.

(** ** Page rounding *)
Lemma land_lnot_mask x n : 0 <= n -> Z.land x (Z.lnot (2 ^ n - 1)) = x - x mod 2 ^ n.
Proof.
  intros Hn. rewrite <- Z.ldiff_land.
  replace (2 ^ n - 1) with (Z.ones n) by (rewrite Z.ones_equiv; lia).
  rewrite Z.ldiff_ones_r by lia. rewrite Z.shiftl_mul_pow2, Z.shiftr_div_pow2 by lia.
  pose proof (Z.div_mod x (2 ^ n)). lia.
Qed.
Lemma PGROUNDDOWN_eq a : PGROUNDDOWN a = a - a mod PGSIZE.
Proof. apply (land_lnot_mask a 12). lia. Qed.
Lemma PGROUNDUP_eq a : 0 <= a -> a + PGSIZE - 1 < 2 ^ 64 ->
  PGROUNDUP a = (a + PGSIZE - 1) - (a + PGSIZE - 1) mod PGSIZE.
Proof.
  intros ? H. unfold PGROUNDUP. rewrite u64_small by (unfold PGSIZE in *; lia).
  apply (land_lnot_mask _ 12). lia.
Qed.

(** ** The free list as a stack of pages *)
Definition page_ok (endp pa : Z) : Prop := pa mod PGSIZE = 0 /\ endp <= pa < PHYSTOP.

Fixpoint chain (b : gmap Z Z) (a : Z) (l : list Z) : Prop :=
  match l with
  | [] => a = 0
  | p :: l' => a = p /\ chain b (ld64 b p) l'
  end.

(** [l] is the free list of memory [m]. *)
Definition free_list (m : memory) (l : list Z) : Prop :=
  KERNBASE <= m_end m /\ NoDup l /\ Forall (page_ok (m_end m)) l /\
  chain (m_bytes m) (m_freelist m) l.

Lemma page_in_ram endp pa : KERNBASE <= endp -> page_ok endp pa ->
  in_ram pa PGSIZE = true /\ in_ram pa 8 = true /\ pa <> 0.
Proof.
  intros He [Hm Hr]. unfold in_ram.
  assert (pa + PGSIZE <= PHYSTOP) as Hp.
  { apply Z.mod_divide in Hm as [q ->]; [|unfold PGSIZE; lia].
    unfold PHYSTOP, KERNBASE, PGSIZE in *. lia. }
  unfold PGSIZE, PHYSTOP, KERNBASE in *. lia.
Qed.
Lemma page_disj endp p q : page_ok endp p -> page_ok endp q -> p <> q ->
  p + PGSIZE <= q \/ q + PGSIZE <= p.
Proof.
  intros [Hp _] [Hq _] Hne.
  apply Z.mod_divide in Hp as [i ->]; [|unfold PGSIZE; lia].
  apply Z.mod_divide in Hq as [j ->]; [|unfold PGSIZE; lia].
  unfold PGSIZE in *. nia.
Qed.

(** The chain only depends on the first word of each of its pages. *)
Lemma chain_ext b b' a l :
  (forall p, p ∈ l -> ld64 b p = ld64 b' p) -> chain b a l -> chain b' a l.
Proof.
  revert a. induction l as [|p l IH]; intros a H; cbn; [done|].
  intros [-> Hc]. split; [done|]. rewrite H in Hc by set_solver. apply IH; [|done].
  intros q Hq. apply H. set_solver.
Qed.
Lemma chain_memset endp b a l pa c :
  Forall (page_ok endp) l -> page_ok endp pa -> pa ∉ l ->
  chain b a l -> chain (memset b pa c (Z.to_nat PGSIZE)) a l.
Proof.
  intros Hl Hpa Hni. apply chain_ext. intros p Hp. symmetry. apply ldn_memset_disj.
  rewrite Forall_forall in Hl. assert (p <> pa) by (intros ->; done).
  pose proof (page_disj endp p pa (Hl p Hp) Hpa). unfold PGSIZE in *. lia.
Qed.
Lemma chain_st64 endp b a l pa v :
  Forall (page_ok endp) l -> page_ok endp pa -> pa ∉ l ->
  chain b a l -> chain (st64 b pa v) a l.
Proof.
  intros Hl Hpa Hni. apply chain_ext. intros p Hp. symmetry. apply ld64_st64_disj.
  rewrite Forall_forall in Hl. assert (p <> pa) by (intros ->; done).
  pose proof (page_disj endp p pa (Hl p Hp) Hpa). unfold PGSIZE in *. lia.
Qed.

(** The memory after [kalloc] hands out [p], and after [kfree pa]. *)
Definition mm_alloc (p : Z) (m : memory) : memory :=
  set_m_freelist (ld64 (m_bytes m) p)
    (set_m_bytes (memset (m_bytes m) p 5 (Z.to_nat PGSIZE)) m).
Definition mm_free (pa : Z) (m : memory) : memory :=
  set_m_freelist pa
    (set_m_bytes (st64 (memset (m_bytes m) pa 1 (Z.to_nat PGSIZE)) pa (m_freelist m)) m).

Lemma free_list_alloc m p l : free_list m (p :: l) -> free_list (mm_alloc p m) l.
Proof.
  intros (He & Hnd & Hok & Hc). inversion Hnd as [|? ? Hni Hnd']; subst.
  inversion Hok as [|? ? Hp Hl]; subst. cbn in Hc. destruct Hc as [_ Hc].
  split_and!; try done. cbn. by eapply chain_memset.
Qed.
Lemma free_list_free m pa l : free_list m l -> page_ok (m_end m) pa -> pa ∉ l ->
  0 <= m_freelist m < 2 ^ 64 -> free_list (mm_free pa m) (pa :: l).
Proof.
  intros (He & Hnd & Hok & Hc) Hpa Hni Hfl.
  split_and!; [done | by constructor | by constructor |]. cbn. split; [done|].
  rewrite ld64_st64 by done. eapply chain_st64; [done..|]. by eapply chain_memset.
Qed.
Lemma free_list_head m l : free_list m l -> 0 <= m_freelist m < 2 ^ 64.
Proof.
  intros (He & _ & Hok & Hc). destruct l as [|p l]; cbn in Hc; [lia|].
  destruct Hc as [-> _]. inversion Hok as [|? ? [_ Hp] _]; subst.
  unfold KERNBASE, PHYSTOP in *. unfold KERNBASE in *. lia.
Qed.

Lemma page_word endp pa off : KERNBASE <= endp -> page_ok endp pa -> 0 <= off -> off + 8 <= PGSIZE ->
  in_ram (pa + off) 8 = true.
Proof.
  intros He Hp H0 H1. destruct (page_in_ram _ _ He Hp) as (Hr & _). unfold in_ram in *.
  apply andb_true_iff in Hr as [?%Z.leb_le ?%Z.leb_le]. apply andb_true_iff. lia.
Qed.
Lemma page_part endp pa n : KERNBASE <= endp -> page_ok endp pa -> 0 <= n <= PGSIZE ->
  in_ram pa n = true.
Proof.
  intros He Hp H0. destruct (page_in_ram _ _ He Hp) as (Hr & _). unfold in_ram in *.
  apply andb_true_iff in Hr as [?%Z.leb_le ?%Z.leb_le]. apply andb_true_iff. lia.
Qed.

(** Changing memory outside the free pages keeps the free list. *)
Lemma free_list_frame m b l : free_list m l ->
  (forall q a, q ∈ l -> q <= a < q + 8 -> ldb b a = ldb (m_bytes m) a) ->
  free_list (set_m_bytes b m) l.
Proof.
  intros (H1 & H2 & H3 & H4) Hb. split_and!; try done. cbn. eapply chain_ext; [|exact H4].
  intros q Hq. symmetry. unfold ld64. apply (ldn_ext _ _ q 8). intros a Ha. apply (Hb q); [done|]. lia.
Qed.

Section kalloc_specs.
Context (s : kstate) (e : list (kstate -> kstate)) (l : list Z).
Context (Hok : hart_ok 1 (k_hw s)) (Hlk : lock_free (k_hw s) LKmem).
Context (Hfl : free_list (k_mm s) l).

Lemma wp_kalloc (Q : Z -> list (kstate -> kstate) -> kstate -> Prop) :
  match l with
  | [] => Q 0 e (set_k_hw (hw_crit (k_hw s)) s)
  | p :: _ => Q p e (set_k_mm (mm_alloc p (k_mm s)) (set_k_hw (hw_crit (k_hw s)) s))
  end -> wp kalloc e s Q.
Proof using Hok Hlk Hfl.
  intros HQ. unfold kalloc, modify_mm. wp_step. apply wp_acquire; [done..|]. wp_steps. cbn.
  destruct Hfl as (He & _ & Hpg & Hc). destruct l as [|p l']; cbn in Hc.
  - rewrite Hc. cbn. wp_steps. eapply wp_release_acq; [|done..|]; [lia|]. wp_steps. done.
  - destruct Hc as [-> Hc]. inversion Hpg as [|? ? Hp _]; subst.
    destruct (page_in_ram _ _ He Hp) as (Hr1 & Hr2 & Hnz).
    unfold istrue. replace (p =? 0) with false by lia. cbn.
    unfold load64, mem_set, modify_bytes, modify_mm. rewrite Hr1, Hr2. wp_steps.
    eapply wp_release_acq; [|done..|]; [lia|]. wp_steps. cbn.
    exact HQ.
Qed.

Lemma wp_kfree pa (Q : unit -> list (kstate -> kstate) -> kstate -> Prop) :
  page_ok (m_end (k_mm s)) pa ->
  Q tt e (set_k_mm (mm_free pa (k_mm s)) (set_k_hw (hw_crit (k_hw s)) s)) ->
  wp (kfree pa) e s Q.
Proof using Hok Hlk Hfl.
  intros Hpa HQ. destruct Hfl as (He & _).
  destruct (page_in_ram _ _ He Hpa) as (Hr1 & Hr2 & Hnz). destruct Hpa as [Hm Hr].
  unfold kfree. wp_steps. rewrite Hm. cbn.
  replace (pa <? m_end (k_mm s)) with false by lia.
  replace (PHYSTOP <=? pa) with false by lia. cbn.
  unfold mem_set, store64, modify_bytes, modify_mm. rewrite Hr1, Hr2. wp_steps.
  apply wp_acquire; [done..|]. wp_steps.
  eapply wp_release_acq; [|done..|]; [lia|]. exact HQ.
Qed.
End kalloc_specs.

(** ** Building the free list *)
Fixpoint pages_from (p : Z) (n : nat) : list Z :=
  match n with O => [] | S n' => p :: pages_from (p + PGSIZE) n' end.

Lemma elem_pages_from p n q : q ∈ pages_from p n -> p <= q.
Proof.
  revert p. induction n as [|n IH]; intros p; cbn; [set_solver|].
  rewrite elem_of_cons. intros [->|Hq]; [lia|]. apply IH in Hq. unfold PGSIZE in *. lia.
Qed.

(** Freeing page after page pushes each of them. *)
Lemma wp_freerange_loop n fuel p pa_end l h e s
    (Q : unit -> list (kstate -> kstate) -> kstate -> Prop) :
  (n < fuel)%nat -> hart_ok 1 h -> lock_free h LKmem -> k_hw s ≈h h ->
  free_list (k_mm s) l -> Forall (fun q => q < p) l -> p mod PGSIZE = 0 ->
  m_end (k_mm s) <= p -> pa_end <= PHYSTOP ->
  p + n * PGSIZE <= pa_end < p + n * PGSIZE + PGSIZE ->
  (forall s', k_hw s' ≈h h -> free_list (k_mm s') (rev (pages_from p n) ++ l) ->
     k_ps s' = k_ps s -> k_io s' = k_io s -> k_fs s' = k_fs s -> Q tt e s') ->
  wp (freerange_loop fuel p pa_end) e s Q.
Proof.
  revert fuel p l s. induction n as [|n IH]; intros [|fuel] p l s Hf Hok Hlk Heq Hfl Hlt Hm He Hp Hn HQ;
    try lia; cbn [freerange_loop].
  - replace (p + PGSIZE <=? pa_end) with false by (unfold PGSIZE in *; lia). wp_step. by apply HQ.
  - replace (p + PGSIZE <=? pa_end) with true by (unfold PGSIZE in *; lia). wp_step.
    assert (page_ok (m_end (k_mm s)) p) as Hpok by (split; [done|unfold PGSIZE in *; lia]).
    assert (p ∉ l) as Hni by (intros Hin; rewrite Forall_forall in Hlt; apply Hlt in Hin; lia).
    eapply wp_kfree; [by eapply hart_ok_eqv | by eapply lock_free_eqv | done | done |].
    assert (p < p + PGSIZE) by (unfold PGSIZE; lia).
    eapply (IH fuel (p + PGSIZE) (p :: l)); cbn; try done; try lia.
    + etransitivity; [apply hw_crit_eqv | done].
    + apply free_list_free; try done. by eapply free_list_head.
    + constructor; [lia|]. eapply Forall_impl; [exact Hlt|]. cbn. lia.
    + rewrite Z.add_mod, Hm by (unfold PGSIZE; lia). done.
    + intros s' H1 H2 H3 H4 H5. apply HQ; try done.
      cbn. rewrite <- app_assoc. exact H2.
Qed.

(** Number of pages of the range [freerange] walks over. *)
Definition npages (start stop : Z) : nat := Z.to_nat ((stop - PGROUNDUP start) / PGSIZE).

(** ** Properties *)

(** the page allocator behaves as a stack: after [kalloc] returns the top
    page [p] of the free list (filled with junk, all other bytes kept), freeing
    [p] again restores exactly the same free list, and neither call panics,
    faults or leaves a lock or the interrupt state changed. *)
Lemma kalloc_kfree_stack s e p l :
  hart_ok 1 (k_hw s) -> lock_free (k_hw s) LKmem -> free_list (k_mm s) (p :: l) ->
  wp kalloc e s (fun r e1 s1 =>
    r = p /\ free_list (k_mm s1) l /\ e1 = e /\ k_hw s1 ≈h k_hw s /\
    (forall a, ldb (m_bytes (k_mm s1)) a =
       if decide (p <= a < p + PGSIZE) then 5 else ldb (m_bytes (k_mm s)) a) /\
    wp (kfree r) e1 s1 (fun _ e2 s2 =>
      free_list (k_mm s2) (p :: l) /\ e2 = e /\ k_hw s2 ≈h k_hw s /\
      k_ps s2 = k_ps s /\ k_io s2 = k_io s /\ k_fs s2 = k_fs s)).
Proof.
  intros Hok Hlk Hfl. eapply wp_kalloc; [done..|]. cbn.
  pose proof (free_list_alloc _ _ _ Hfl) as Hfl'.
  pose proof Hfl as (He & Hnd & Hpg & _). inversion Hpg as [|? ? Hp Hl]; subst.
  inversion Hnd as [|? ? Hni _]; subst.
  split; [done|]. split; [exact Hfl'|]. split; [done|]. split; [apply hw_crit_eqv|]. split.
  - intros a. by rewrite ldb_memset.
  - eapply wp_kfree; cbn.
    + eapply hart_ok_eqv; [symmetry; apply hw_crit_eqv | done].
    + eapply lock_free_eqv; [symmetry; apply hw_crit_eqv | done].
    + exact Hfl'.
    + done.
    + split; [apply free_list_free; try done; by eapply free_list_head|].
      split; [done|]. split; [|done]. by rewrite !hw_crit_eqv.
Qed.

(** [kalloc] on an empty free list returns the null pointer and changes
    nothing, and [kfree] of an address that is unaligned, below the end of the
    kernel or past the end of RAM panics without touching memory. *)
Lemma kalloc_kfree_errors s e pa :
  hart_ok 1 (k_hw s) -> lock_free (k_hw s) LKmem -> free_list (k_mm s) [] ->
  (exists s', kalloc e s = Ret 0 e s' /\ k_mm s' = k_mm s /\ k_hw s' ≈h k_hw s) /\
  (pa mod PGSIZE <> 0 \/ pa < m_end (k_mm s) \/ PHYSTOP <= pa -> kfree pa e s = Panic "kfree" s).
Proof.
  intros Hok Hlk Hfl. split.
  - assert (wp kalloc e s (fun r e' s' => r = 0 /\ e' = e /\ k_mm s' = k_mm s /\ k_hw s' ≈h k_hw s))
      as H by (eapply wp_kalloc; [done..|]; cbn; split_and!; try done; apply hw_crit_eqv).
    apply wp_elim in H as (r & e' & s' & Hr & -> & -> & H1 & H2). eauto.
  - intros Hbad. unfold kfree, bind. cbn. unfold istrue.
    destruct (Z.eqb_spec (pa mod PGSIZE) 0), (Z.ltb_spec pa (m_end (k_mm s))),
      (Z.leb_spec PHYSTOP pa); cbn; done || lia.
Qed.

(** C35: [kinit] terminates and puts every whole page between the end of the
    kernel and [PHYSTOP] on the free list exactly once, the highest first. *)
Theorem kinit_all_pages s e :
  hart_ok 1 (k_hw s) -> m_freelist (k_mm s) = 0 -> KERNBASE <= m_end (k_mm s) <= PHYSTOP - PGSIZE ->
  wp kinit e s (fun _ e' s' => e' = e /\
    free_list (k_mm s') (rev (pages_from (PGROUNDUP (m_end (k_mm s))) (npages (m_end (k_mm s)) PHYSTOP)))).
Proof.
  intros Hok Hfl He. set (endp := m_end (k_mm s)) in *.
  unfold kinit, initlock, upd_lock, modify_hw. wp_steps. cbn. fold endp.
  cbv delta [freerange]; cbv beta zeta.
  set (h := set_h_locks _ (k_hw s)).
  assert (PGROUNDUP endp mod PGSIZE = 0 /\ endp <= PGROUNDUP endp <= PHYSTOP) as [Hm Hr].
  { rewrite PGROUNDUP_eq by (unfold PHYSTOP, KERNBASE, PGSIZE in *; lia).
    set (x := endp + PGSIZE - 1). pose proof (Z.mod_pos_bound x PGSIZE ltac:(unfold PGSIZE; lia)).
    split; [|subst x; unfold PGSIZE in *; lia]. rewrite Zminus_mod_idemp_r, Z.sub_diag. done. }
  pose proof (Z.div_mod (PHYSTOP - PGROUNDUP endp) PGSIZE ltac:(unfold PGSIZE; lia)).
  pose proof (Z.mod_pos_bound (PHYSTOP - PGROUNDUP endp) PGSIZE ltac:(unfold PGSIZE; lia)).
  pose proof (Z.div_pos (PHYSTOP - PGROUNDUP endp) PGSIZE ltac:(lia) ltac:(unfold PGSIZE; lia)).
  apply wp_freerange_loop with (n := npages endp PHYSTOP) (l := []) (h := h).
  - unfold npages. lia.
  - exact Hok.
  - eexists. apply lookup_insert_eq.
  - cbn. reflexivity.
  - cbn. split_and!; [lia | constructor | constructor | done].
  - constructor.
  - done.
  - cbn. lia.
  - done.
  - unfold npages. rewrite Z2Nat.id by done. lia.
  - intros s' _ Hfin _ _ _. split; [done|]. by rewrite app_nil_r in Hfin.
Qed.

(** ** Witnesses *)
Definition one_page : kstate := set_k_mm (set_m_freelist 0x80023000 mm0) boot.
Lemma one_page_list : free_list (k_mm one_page) [0x80023000].
Proof.
  split_and!; [done | apply NoDup_singleton | | done].
  repeat constructor; vm_compute; intuition congruence.
Qed.

Lemma kalloc_kfree_stack_witness : exists s1, kalloc [] one_page = Ret 0x80023000 [] s1.
Proof.
  pose proof (kalloc_kfree_stack one_page [] 0x80023000 [] (boot_hart 1 ltac:(lia))
    (boot_lock LKmem eq_refl) one_page_list) as H.
  apply wp_elim in H as (r & e' & s1 & Hr & -> & _ & -> & _). eauto.
Defined.

Lemma kalloc_kfree_errors_witness : kfree 0x1000 [] boot = Panic "kfree" boot.
Proof.
  apply (kalloc_kfree_errors boot [] 0x1000 (boot_hart 1 ltac:(lia)) (boot_lock LKmem eq_refl)).
  - split_and!; [done | constructor | constructor | done].
  - right. left. done.
Defined.

Lemma kinit_all_pages_witness : exists s' , kinit [] boot = Ret tt [] s' /\
  free_list (k_mm s') (rev (pages_from 0x80022000 (npages 0x80022000 PHYSTOP))).
Proof.
  pose proof (kinit_all_pages boot [] (boot_hart 1 ltac:(lia)) eq_refl ltac:(vm_compute; done)) as H.
  apply wp_elim in H as ([] & e' & s' & Hr & -> & Hf). exists s'. split; [done | exact Hf].
Defined.
