(* ===== verification/Vm.v ===== *)
(** Virtual memory (vm.c): Sv39 page tables in physical memory, user address
    spaces and the copies between kernel and user memory.

    Kernel buffers that are not pages ([char *src] of [copyout], [char *dst] of
    [copyin]) are lists of bytes. *)
From S2P Require Import Prelude State Spinlock Cstring Kalloc.

(** ** riscv.h *)
Definition PTE_V : Z := Z.shiftl 1 0.
Definition PTE_R : Z := Z.shiftl 1 1.
Definition PTE_W : Z := Z.shiftl 1 2.
Definition PTE_X : Z := Z.shiftl 1 3.
Definition PTE_U : Z := Z.shiftl 1 4.
Definition PA2PTE (pa : Z) : Z := u64 (Z.shiftl (Z.shiftr pa 12) 10).
Definition PTE2PA (pte : Z) : Z := u64 (Z.shiftl (Z.shiftr pte 10) 12).
Definition PTE_FLAGS (pte : Z) : Z := Z.land pte 0x3FF.
Definition PXMASK : Z := 0x1FF.
Definition PXSHIFT (level : Z) : Z := PGSHIFT + 9 * level.
Definition PX (level va : Z) : Z := Z.land (Z.shiftr va (PXSHIFT level)) PXMASK.
Definition SATP_SV39 : Z := Z.shiftl 8 60.
Definition MAKE_SATP (pagetable : Z) : Z := Z.lor SATP_SV39 (Z.shiftr pagetable 12).

(** ** Walking and mapping *)

(** the loop of [walk] over levels 2 and 1; [None] is its [return 0] *)
Fixpoint walk_levels (levels : list Z) (pagetable va : Z) (alloc : bool) : K (option Z) :=
  match levels with
  | [] => ret (Some pagetable)
  | level :: rest =>
      let ptep := pagetable + 8 * PX level va in
      pte <- load64 ptep;;
      if istrue (Z.land pte PTE_V) then walk_levels rest (PTE2PA pte) va alloc
      else if negb alloc then ret None
      else
        pg <- kalloc;;
        if pg =? 0 then ret None else
        mem_set pg 0 PGSIZE;;
        store64 ptep (Z.lor (PA2PTE pg) PTE_V);;
        walk_levels rest pg va alloc
  end.

(** the address of the PTE, 0 if there is none *)
Definition walk (pagetable va : Z) (alloc : bool) : K Z :=
  if MAXVA <=? va then panic "walk" else
  r <- walk_levels [2; 1] pagetable va alloc;;
  match r with
  | Some pt => ret (pt + 8 * PX 0 va)
  | None => ret 0
  end.

Definition walkaddr (pagetable va : Z) : K Z :=
  if MAXVA <=? va then ret 0 else
  ptep <- walk pagetable va false;;
  if ptep =? 0 then ret 0 else
  pte <- load64 ptep;;
  if Z.land pte PTE_V =? 0 then ret 0 else
  if Z.land pte PTE_U =? 0 then ret 0 else
  ret (PTE2PA pte).

(** Iterations of the [for(;;)] of [mappages]: up to [last], or, if the range
    wraps around, until [walk] panics past [MAXVA]. *)
Definition map_fuel (a last : Z) : nat :=
  if a <=? last then S (Z.to_nat ((last - a) / PGSIZE))
  else S (S (Z.to_nat ((MAXVA - a) / PGSIZE))).

Definition mappages (pagetable va size pa perm : Z) : K Z :=
  if size =? 0 then panic "mappages: size" else
  let a := PGROUNDDOWN va in
  let last := PGROUNDDOWN (u64 (va + size - 1)) in
  mloop (map_fuel a last) (a, pa) (fun '(a, pa) =>
    ptep <- walk pagetable a true;;
    if ptep =? 0 then ret (inr (-1)) else
    pte <- load64 ptep;;
    if istrue (Z.land pte PTE_V) then panic "mappages: remap" else
    store64 ptep (Z.lor (Z.lor (PA2PTE pa) perm) PTE_V);;
    if a =? last then ret (inr 0) else ret (inl (u64 (a + PGSIZE), u64 (pa + PGSIZE)))).

Definition kvmmap (kpgtbl va pa sz perm : Z) : K unit :=
  r <- mappages kpgtbl va sz pa perm;;
  if negb (r =? 0) then panic "kvmmap" else ret tt.

Definition uvmunmap (pagetable va npages : Z) (do_free : bool) : K unit :=
  if negb (va mod PGSIZE =? 0) then panic "uvmunmap: not aligned" else
  let stop := u64 (va + npages * PGSIZE) in
  mloop (S (Z.to_nat npages)) va (fun a =>
    if stop <=? a then ret (inr tt) else
    ptep <- walk pagetable a false;;
    if ptep =? 0 then panic "uvmunmap: walk" else
    pte <- load64 ptep;;
    if Z.land pte PTE_V =? 0 then panic "uvmunmap: not mapped" else
    if PTE_FLAGS pte =? PTE_V then panic "uvmunmap: not a leaf" else
    when do_free (kfree (PTE2PA pte));;
    store64 ptep 0;;
    ret (inl (u64 (a + PGSIZE)))).

(** ** User address spaces *)
Definition uvmcreate : K Z :=
  pagetable <- kalloc;;
  if pagetable =? 0 then ret 0 else
  mem_set pagetable 0 PGSIZE;;
  ret pagetable.

(** store the bytes [l] at physical address [a] *)
Fixpoint put_bytes (b : gmap Z Z) (a : Z) (l : list Z) : gmap Z Z :=
  match l with [] => b | x :: l' => put_bytes (stb b a x) (a + 1) l' end.
Definition get_bytes (b : gmap Z Z) (a : Z) (n : nat) : list Z :=
  (fun i : nat => ldb b (a + i)) <$> seq 0 n.
Definition write_phys (a : Z) (l : list Z) : K unit :=
  if in_ram a (length l) then modify_bytes (fun b => put_bytes b a l) else fault "memmove".
Definition read_phys (a : Z) (n : Z) : K (list Z) :=
  if in_ram a n then gets (fun s => get_bytes (m_bytes (k_mm s)) a (Z.to_nat n))
  else fault "memmove".

Definition uvmfirst (pagetable : Z) (src : list Z) : K unit :=
  if PGSIZE <=? length src then panic "uvmfirst: more than a page" else
  mem <- kalloc;;
  mem_set mem 0 PGSIZE;;
  mappages pagetable 0 PGSIZE mem (Z.lor (Z.lor (Z.lor PTE_W PTE_R) PTE_X) PTE_U);;
  write_phys mem src.

Definition uvmdealloc (pagetable oldsz newsz : Z) : K Z :=
  if oldsz <=? newsz then ret oldsz else
  when (PGROUNDUP newsz <? PGROUNDUP oldsz)
    (let npages := s32 ((PGROUNDUP oldsz - PGROUNDUP newsz) / PGSIZE) in
     uvmunmap pagetable (PGROUNDUP newsz) (u64 npages) true);;
  ret newsz.

Definition uvmalloc (pagetable oldsz newsz xperm : Z) : K Z :=
  if newsz <? oldsz then ret oldsz else
  let oldsz := PGROUNDUP oldsz in
  mloop (S (S (Z.to_nat ((newsz - oldsz) / PGSIZE)))) oldsz (fun a =>
    if newsz <=? a then ret (inr newsz) else
    mem <- kalloc;;
    if mem =? 0 then uvmdealloc pagetable a oldsz;; ret (inr 0) else
    mem_set mem 0 PGSIZE;;
    r <- mappages pagetable a PGSIZE mem (Z.lor (Z.lor PTE_R PTE_U) xperm);;
    if negb (r =? 0) then kfree mem;; uvmdealloc pagetable a oldsz;; ret (inr 0) else
    ret (inl (u64 (a + PGSIZE)))).

(** Recursively free page-table pages; [fuel] bounds the depth of the tree
    (three levels in Sv39). *)
Fixpoint freewalk (fuel : nat) (pagetable : Z) : K unit :=
  match fuel with
  | O => fault "out of fuel"
  | S fuel' =>
      mforall (seq 0 512) (fun i =>
        pte <- load64 (pagetable + 8 * i);;
        if istrue (Z.land pte PTE_V) && (Z.land pte (Z.lor (Z.lor PTE_R PTE_W) PTE_X) =? 0) then
          freewalk fuel' (PTE2PA pte);;
          store64 (pagetable + 8 * i) 0
        else if istrue (Z.land pte PTE_V) then panic "freewalk: leaf"
        else ret tt);;
      kfree pagetable
  end.

Definition uvmfree (pagetable sz : Z) : K unit :=
  when (0 <? sz) (uvmunmap pagetable 0 (PGROUNDUP sz / PGSIZE) true);;
  freewalk 3 pagetable.

Definition uvmcopy (old new sz : Z) : K Z :=
  mloop (S (S (Z.to_nat (sz / PGSIZE)))) 0 (fun i =>
    if sz <=? i then ret (inr 0) else
    ptep <- walk old i false;;
    if ptep =? 0 then panic "uvmcopy: pte should exist" else
    pte <- load64 ptep;;
    if Z.land pte PTE_V =? 0 then panic "uvmcopy: page not present" else
    let pa := PTE2PA pte in
    let flags := PTE_FLAGS pte in
    let err := uvmunmap new 0 (i / PGSIZE) true;; ret (inr (-1)) in
    mem <- kalloc;;
    if mem =? 0 then err else
    mem_move mem pa PGSIZE;;
    r <- mappages new i PGSIZE mem flags;;
    if negb (r =? 0) then kfree mem;; err else
    ret (inl (u64 (i + PGSIZE)))).

Definition uvmclear (pagetable va : Z) : K unit :=
  ptep <- walk pagetable va false;;
  if ptep =? 0 then panic "uvmclear" else
  pte <- load64 ptep;;
  store64 ptep (Z.land pte (Z.lnot PTE_U)).

(** ** Copies between kernel and user memory *)
Definition copyout (pagetable dstva : Z) (src : list Z) : K Z :=
  mloop (S (length src)) (dstva, src) (fun '(dstva, src) =>
    let len : Z := length src in
    if len <=? 0 then ret (inr 0) else
    let va0 := PGROUNDDOWN dstva in
    pa0 <- walkaddr pagetable va0;;
    if pa0 =? 0 then ret (inr (-1)) else
    let n := PGSIZE - (dstva - va0) in
    let n := if len <? n then len else n in
    write_phys (pa0 + (dstva - va0)) (take (Z.to_nat n) src);;
    ret (inl (u64 (va0 + PGSIZE), drop (Z.to_nat n) src))).

(** the result code, and the bytes stored at [dst] *)
Definition copyin (pagetable srcva len : Z) : K (Z * list Z) :=
  mloop (S (Z.to_nat len)) (srcva, len, []) (fun '(srcva, len, dst) =>
    if len <=? 0 then ret (inr (0, dst)) else
    let va0 := PGROUNDDOWN srcva in
    pa0 <- walkaddr pagetable va0;;
    if pa0 =? 0 then ret (inr (-1, dst)) else
    let n := PGSIZE - (srcva - va0) in
    let n := if len <? n then len else n in
    bs <- read_phys (pa0 + (srcva - va0)) n;;
    ret (inl (u64 (va0 + PGSIZE), len - n, dst ++ bs))).

(** the inner loop of [copyinstr]: copy up to a NUL *)
Fixpoint take_str (bs : list Z) : list Z * bool :=
  match bs with
  | [] => ([], false)
  | c :: bs' => if c =? 0 then ([0], true)
                else let '(l, nul) := take_str bs' in (c :: l, nul)
  end.
Definition copyinstr (pagetable srcva max : Z) : K (Z * list Z) :=
  mloop (S (Z.to_nat max)) (srcva, max, []) (fun '(srcva, max, dst) =>
    if max <=? 0 then ret (inr (-1, dst)) else
    let va0 := PGROUNDDOWN srcva in
    pa0 <- walkaddr pagetable va0;;
    if pa0 =? 0 then ret (inr (-1, dst)) else
    let n := PGSIZE - (srcva - va0) in
    let n := if max <? n then max else n in
    bs <- read_phys (pa0 + (srcva - va0)) n;;
    let '(l, got_null) := take_str bs in
    if got_null then ret (inr (0, dst ++ l))
    else ret (inl (u64 (va0 + PGSIZE), max - n, dst ++ l))).
