(* ===== verification/Uspace.v ===== *)
(** The user's view of memory: what [walkaddr], [copyout] and [copyin] of vm.c
    mean for the address space a page table describes.

    [translate] is the Sv39 page walk as a pure function of physical memory;
    [walkaddr] computes it.  Over a range of mapped user pages, [copyout]
    changes exactly the bytes of its range in the user's view and [copyin]
    reads them back. *)
From S2P Require Import Prelude State Spinlock Queue Boot Cstring Kalloc Vm.

(** ** The page walk *)
Fixpoint tr_levels (b : gmap Z Z) (levels : list Z) (pt va : Z) : option Z :=
  match levels with
  | [] => Some pt
  | level :: rest =>
      let pte := ld64 b (pt + 8 * PX level va) in
      if istrue (Z.land pte PTE_V) then tr_levels b rest (PTE2PA pte) va else None
  end.
Definition translate (b : gmap Z Z) (pt va : Z) : option Z :=
  if MAXVA <=? va then None else
  match tr_levels b [2; 1] pt va with
  | None => None
  | Some pt0 =>
      let pte := ld64 b (pt0 + 8 * PX 0 va) in
      if istrue (Z.land pte PTE_V) && istrue (Z.land pte PTE_U) then Some (PTE2PA pte) else None
  end.

(** the page-table words the walk reads *)
Fixpoint tr_words (b : gmap Z Z) (levels : list Z) (pt va : Z) : list Z :=
  match levels with
  | [] => [pt + 8 * PX 0 va]
  | level :: rest =>
      let w := pt + 8 * PX level va in
      w :: if istrue (Z.land (ld64 b w) PTE_V) then tr_words b rest (PTE2PA (ld64 b w)) va else []
  end.
Definition path_words (b : gmap Z Z) (pt va : Z) : list Z := tr_words b [2; 1] pt va.

Lemma in_ram_nonzero a n : in_ram a n = true -> a <> 0.
Proof. unfold in_ram, KERNBASE. intros [?%Z.leb_le _]%andb_true_iff. lia. Qed.

Lemma wp_walk_levels levels : forall pt va e s (Q : option Z -> list (kstate -> kstate) -> kstate -> Prop),
  Forall (fun w => in_ram w 8 = true) (tr_words (m_bytes (k_mm s)) levels pt va) ->
  Q (tr_levels (m_bytes (k_mm s)) levels pt va) e s ->
  wp (walk_levels levels pt va false) e s Q.
Proof.
  induction levels as [|level rest IH]; intros pt va e s Q Hw HQ; cbn [walk_levels tr_levels tr_words] in *.
  - by wp_step.
  - apply Forall_cons in Hw as [Hr Hw]. unfold load64. rewrite Hr. wp_steps.
    destruct (istrue _); [by apply IH | by cbn [negb]; wp_step].
Qed.
Lemma tr_levels_last b levels pt va pt0 : tr_levels b levels pt va = Some pt0 ->
  pt0 + 8 * PX 0 va ∈ tr_words b levels pt va.
Proof.
  revert pt. induction levels as [|level rest IH]; intros pt; cbn; [intros [= ->]; set_solver|].
  destruct (istrue _); [|done]. intros H%IH. set_solver.
Qed.

Lemma wp_walkaddr pt va e s (Q : Z -> list (kstate -> kstate) -> kstate -> Prop) :
  Forall (fun w => in_ram w 8 = true) (path_words (m_bytes (k_mm s)) pt va) ->
  Q (default 0 (translate (m_bytes (k_mm s)) pt va)) e s -> wp (walkaddr pt va) e s Q.
Proof.
  intros Hw HQ. unfold walkaddr, translate, walk in *.
  destruct (MAXVA <=? va); [by wp_step|]. wp_step. wp_step. apply wp_walk_levels; [done|].
  destruct (tr_levels _ _ pt va) as [pt0|] eqn:E; cbn in HQ; wp_step; [|by cbn; wp_step].
  pose proof (tr_levels_last _ _ _ _ _ E) as Hin.
  assert (in_ram (pt0 + 8 * PX 0 va) 8 = true) as Hr by (rewrite Forall_forall in Hw; by apply Hw).
  destruct (Z.eqb_spec (pt0 + 8 * PX 0 va) 0) as [Hz|_]; [by apply in_ram_nonzero in Hr|].
  unfold load64. rewrite Hr. wp_steps. unfold istrue in HQ.
  destruct (Z.land _ PTE_V =? 0); cbn in *; [by wp_step|].
  destruct (Z.land _ PTE_U =? 0); cbn in *; by wp_step.
Qed.

(** the walk depends only on the words it reads *)
Lemma tr_frame b b' levels pt va :
  (forall w, w ∈ tr_words b levels pt va -> ld64 b' w = ld64 b w) ->
  tr_words b' levels pt va = tr_words b levels pt va /\ tr_levels b' levels pt va = tr_levels b levels pt va.
Proof.
  revert pt. induction levels as [|level rest IH]; intros pt H; cbn in *; [done|].
  rewrite (H (pt + 8 * PX level va)) by set_solver. destruct (istrue _); [|done].
  destruct (IH (PTE2PA (ld64 b (pt + 8 * PX level va)))) as [-> ->]; [|done].
  intros w Hw. apply H. set_solver.
Qed.
Lemma translate_frame b b' pt va :
  (forall w, w ∈ path_words b pt va -> ld64 b' w = ld64 b w) ->
  path_words b' pt va = path_words b pt va /\ translate b' pt va = translate b pt va.
Proof.
  intros H. destruct (tr_frame b b' [2; 1] pt va H) as [H1 H2]. split; [done|].
  unfold translate. rewrite H2. destruct (tr_levels b _ pt va) as [pt0|] eqn:E; [|done].
  by rewrite H by (by apply tr_levels_last).
Qed.

(** ** A mapped range of user memory *)

(** [v] is one of the pages of [lo, hi) *)
Definition upage (lo hi v : Z) : Prop := exists va, lo <= va < hi /\ v = PGROUNDDOWN va.

Record uspace (b : gmap Z Z) (pt lo hi : Z) (pa : Z -> Z) : Prop := {
  us_range : 0 <= lo /\ hi <= MAXVA;
  us_map : forall v, upage lo hi v -> translate b pt v = Some (pa v) /\ in_ram (pa v) PGSIZE = true;
  us_words : forall v, upage lo hi v -> Forall (fun w => in_ram w 8 = true) (path_words b pt v);
  us_tables : forall v v' w, upage lo hi v -> upage lo hi v' -> w ∈ path_words b pt v ->
    w + 8 <= pa v' \/ pa v' + PGSIZE <= w;
  us_inj : forall v v', upage lo hi v -> upage lo hi v' -> v <> v' ->
    pa v + PGSIZE <= pa v' \/ pa v' + PGSIZE <= pa v;
}.

(** the physical address of a user address *)
Definition phys (pa : Z -> Z) (va : Z) : Z := pa (PGROUNDDOWN va) + (va - PGROUNDDOWN va).

Lemma page_of va : PGROUNDDOWN va <= va < PGROUNDDOWN va + PGSIZE.
Proof.
  rewrite PGROUNDDOWN_eq. pose proof (Z.mod_pos_bound va PGSIZE ltac:(unfold PGSIZE; lia)). lia.
Qed.
Lemma page_same va va' : PGROUNDDOWN va <= va' < PGROUNDDOWN va + PGSIZE -> PGROUNDDOWN va' = PGROUNDDOWN va.
Proof.
  rewrite !PGROUNDDOWN_eq. unfold PGSIZE. intros H.
  pose proof (Z.div_mod va 4096 ltac:(lia)). pose proof (Z.div_mod va' 4096 ltac:(lia)).
  pose proof (Z.mod_pos_bound va 4096 ltac:(lia)). pose proof (Z.mod_pos_bound va' 4096 ltac:(lia)). lia.
Qed.
Lemma page_next va : PGROUNDDOWN (PGROUNDDOWN va + PGSIZE) = PGROUNDDOWN va + PGSIZE.
Proof.
  rewrite !PGROUNDDOWN_eq. unfold PGSIZE.
  pose proof (Z.div_mod va 4096 ltac:(lia)).
  replace (va - va mod 4096 + 4096) with ((va / 4096 + 1) * 4096) by lia. rewrite Z_mod_mult. lia.
Qed.

Section uspace.
Context (b : gmap Z Z) (pt lo hi : Z) (pa : Z -> Z).
Context (Hu : uspace b pt lo hi pa).

Lemma phys_inj va va' : lo <= va < hi -> lo <= va' < hi -> phys pa va = phys pa va' -> va = va'.
Proof using Hu.
  intros H H' E. unfold phys in E. pose proof (page_of va). pose proof (page_of va').
  destruct (decide (PGROUNDDOWN va = PGROUNDDOWN va')) as [Hp|Hp]; [rewrite Hp in *; lia|].
  pose proof (us_inj _ _ _ _ _ Hu _ _ (ex_intro _ va (conj H eq_refl)) (ex_intro _ va' (conj H' eq_refl)) Hp).
  lia.
Qed.

(** memory that differs from [b] only in the user bytes of the range *)
Definition user_only (b' : gmap Z Z) : Prop :=
  forall a, (forall va, lo <= va < hi -> a <> phys pa va) -> ldb b' a = ldb b a.

Lemma uspace_frame b' : user_only b' -> uspace b' pt lo hi pa.
Proof using Hu.
  intros Ho. assert (forall v, upage lo hi v -> path_words b' pt v = path_words b pt v /\
    translate b' pt v = translate b pt v) as Hf.
  { intros v Hv. apply translate_frame. intros w Hw. unfold ld64. apply (ldn_ext _ _ w 8).
    intros a Ha. apply Ho. intros va Hva ->. unfold phys in Ha. pose proof (page_of va).
    pose proof (us_tables _ _ _ _ _ Hu v (PGROUNDDOWN va) w Hv ltac:(by exists va) Hw). lia. }
  destruct Hu as [H1 H2 H3 H4 H5]. split; [done | | | | done].
  - intros v Hv. destruct (Hf v Hv) as [_ ->]. by apply H2.
  - intros v Hv. destruct (Hf v Hv) as [-> _]. by apply H3.
  - intros v v' w Hv Hv' Hw. destruct (Hf v Hv) as [E _]. rewrite E in Hw. exact (H4 v v' w Hv Hv' Hw).
Qed.
End uspace.

Lemma ldb_put_bytes l : forall b a x, ldb (put_bytes b a l) x =
  if decide (a <= x < a + length l) then u8 (default 0 (l !! Z.to_nat (x - a))) else ldb b x.
Proof.
  induction l as [|c l IH]; intros b a x; cbn [put_bytes length].
  - by rewrite decide_False by lia.
  - rewrite IH. destruct (decide (a = x)) as [->|Hne].
    + rewrite decide_False by lia. rewrite ldb_stb, decide_True by done.
      rewrite decide_True by lia. by rewrite Z.sub_diag.
    + destruct (decide (a + 1 <= x < a + 1 + length l)).
      * rewrite decide_True by lia. do 2 f_equal.
        replace (Z.to_nat (x - a)) with (S (Z.to_nat (x - (a + 1)))) by lia. done.
      * rewrite decide_False by lia. by rewrite ldb_stb, decide_False.
Qed.

(** ** copyout and copyin *)

(** the first [k] bytes of [src] are at [lo] in the user's view *)
Definition copied (b : gmap Z Z) (pa : Z -> Z) (lo : Z) (src : list Z) (k : nat) (b' : gmap Z Z) : Prop :=
  (forall i, (i < k)%nat -> ldb b' (phys pa (lo + i)) = u8 (default 0 (src !! i))) /\
  (forall a, (forall i, (i < k)%nat -> a <> phys pa (lo + i)) -> ldb b' a = ldb b a).

Section copy.
Context (b0 : gmap Z Z) (pt lo : Z) (pa : Z -> Z) (len : nat).
Let hi := lo + len.
Context (Hu : uspace b0 pt lo hi pa).

(** the chunk the loops handle at [lo + k]: up to the end of the page *)
Definition chunk (k : nat) : nat :=
  let va := lo + k in
  let n := PGSIZE - (va - PGROUNDDOWN va) in
  Z.to_nat (if Z.of_nat len - k <? n then Z.of_nat len - k else n).
Lemma chunk_range k : (k < len)%nat ->
  (0 < chunk k <= len - k)%nat /\ lo + k + chunk k <= PGROUNDDOWN (lo + k) + PGSIZE.
Proof using. intros Hk. unfold chunk. pose proof (page_of (lo + k)). destruct (Z.ltb_spec (Z.of_nat len - k) (PGSIZE - (lo + k - PGROUNDDOWN (lo + k)))); lia. Qed.
(** a chunk lies in one page, so physically it is contiguous *)
Lemma chunk_phys k i : (k < len)%nat -> (i < chunk k)%nat ->
  phys pa (lo + (k + i)%nat) = phys pa (lo + k) + i.
Proof using.
  intros Hk Hi. pose proof (chunk_range k Hk). pose proof (page_of (lo + k)). unfold phys.
  rewrite (page_same (lo + k) (lo + (k + i)%nat)) by lia. lia.
Qed.
(** the loops go on at the next page, unless the copy is complete *)
Lemma chunk_next k : (k < len)%nat -> (k + chunk k < len)%nat ->
  u64 (PGROUNDDOWN (lo + k) + PGSIZE) = lo + (k + chunk k)%nat.
Proof using Hu.
  intros Hk Hn. destruct (us_range _ _ _ _ _ Hu) as [H0 H1]. pose proof (page_of (lo + k)) as Hp.
  assert (PGROUNDDOWN (lo + k) + PGSIZE = lo + (k + chunk k)%nat) as ->.
  { unfold chunk in *. destruct (Z.ltb_spec (Z.of_nat len - k) (PGSIZE - (lo + k - PGROUNDDOWN (lo + k)))); lia. }
  apply u64_small. change MAXVA with (2 ^ 38) in H1. unfold hi in H1. lia.
Qed.
Lemma chunk_page k : (k < len)%nat -> upage lo hi (PGROUNDDOWN (lo + k)).
Proof using. intros Hk. exists (lo + k). unfold hi. split; [lia | done]. Qed.
Lemma chunk_ram k n : (k < len)%nat -> (n <= chunk k)%nat ->
  in_ram (pa (PGROUNDDOWN (lo + k)) + (lo + k - PGROUNDDOWN (lo + k))) n = true.
Proof using Hu.
  intros Hk Hn. destruct (us_map _ _ _ _ _ Hu _ (chunk_page k Hk)) as [_ Hr].
  pose proof (chunk_range k Hk). pose proof (page_of (lo + k)). unfold in_ram in *.
  apply andb_true_iff in Hr as [?%Z.leb_le ?%Z.leb_le]. apply andb_true_iff. lia.
Qed.

Lemma copied_user_only src k b : (k <= len)%nat -> copied b0 pa lo src k b -> user_only b0 lo hi pa b.
Proof using.
  intros Hk [_ Ho] a Ha. apply Ho. intros i Hi. apply Ha. unfold hi. lia.
Qed.
Lemma copied_step src k b : length src = len -> (k < len)%nat -> copied b0 pa lo src k b ->
  copied b0 pa lo src (k + chunk k)
    (put_bytes b (phys pa (lo + k)) (take (chunk k) (drop k src))).
Proof using Hu.
  intros Hl Hk [Hc Ho].
  pose proof (chunk_range k Hk) as Hr.
  assert (length (take (chunk k) (drop k src)) = chunk k) as Hlen by (rewrite length_take, length_drop; lia).
  split.
  - intros i Hi. rewrite ldb_put_bytes, Hlen. destruct (decide (i < k)%nat) as [Hik|Hik].
    + rewrite decide_False; [by apply Hc|]. intros Hin.
      set (j := Z.to_nat (phys pa (lo + i) - phys pa (lo + k))).
      assert (phys pa (lo + (k + j)%nat) = phys pa (lo + i)) as E by (rewrite chunk_phys; lia).
      apply (phys_inj _ _ _ _ _ Hu) in E; unfold hi in *; lia.
    + replace i with (k + (i - k))%nat by lia. rewrite chunk_phys by lia.
      rewrite decide_True by lia. do 2 f_equal.
      rewrite lookup_take, decide_True by lia. rewrite lookup_drop. f_equal. lia.
  - intros a Ha. rewrite ldb_put_bytes, Hlen, decide_False.
    + apply Ho. intros i Hi. apply Ha. lia.
    + intros Hin. apply (Ha (k + Z.to_nat (a - phys pa (lo + k)))%nat); [lia|].
      rewrite chunk_phys by lia. lia.
Qed.
End copy.

Definition with_bytes (b : gmap Z Z) (s : kstate) : kstate := set_k_mm (set_m_bytes b (k_mm s)) s.
Lemma with_bytes_twice b b' s : with_bytes b' (with_bytes b s) = with_bytes b' s.
Proof. done. Qed.

(** the page of the loop's current position is found *)
Lemma wp_walk_user b pt lo hi pa v e s (Q : Z -> list (kstate -> kstate) -> kstate -> Prop) :
  uspace b pt lo hi pa -> m_bytes (k_mm s) = b -> upage lo hi v ->
  (pa v <> 0 -> Q (pa v) e s) -> wp (walkaddr pt v) e s Q.
Proof.
  intros Hu Hb Hv HQ. destruct (us_map _ _ _ _ _ Hu v Hv) as [Ht Hr].
  apply wp_walkaddr; rewrite Hb; [by apply (us_words _ _ _ _ _ Hu)|]. rewrite Ht. apply HQ.
  by apply in_ram_nonzero in Hr.
Qed.

Section copyout.
Context (pt lo : Z) (pa : Z -> Z) (src : list Z) (e : list (kstate -> kstate)) (s : kstate).
Let b0 := m_bytes (k_mm s).
Let len := length src.
Context (Hu : uspace b0 pt lo (lo + len) pa).

Definition copyout_inv (x : Z * list Z) (e' : list (kstate -> kstate)) (s' : kstate) : Prop :=
  e' = e /\ exists k b, (k <= len)%nat /\ x.2 = drop k src /\ ((k < len)%nat -> x.1 = lo + k) /\
    copied b0 pa lo src k b /\ s' = with_bytes b s.

Lemma wp_copyout (Q : Z -> list (kstate -> kstate) -> kstate -> Prop) :
  (forall b', copied b0 pa lo src len b' -> Q 0 e (with_bytes b' s)) -> wp (copyout pt lo src) e s Q.
Proof using Hu.
  intros HQ. unfold copyout.
  apply (wp_mloop _ copyout_inv (fun x => length x.2)); [cbn; lia | |].
  - split; [done|]. exists 0%nat, b0. split_and!; [lia | done | intros; cbn; lia | |].
    + split; [intros i Hi; lia | done].
    + unfold with_bytes, b0. by destruct s as [? ? [] ? ?].
  - intros [va rest] e' s' (-> & k & b & Hk & Hrest & Hva & Hc & ->). cbn [fst snd] in *. subst rest.
    rewrite length_drop. destruct (decide (k = len)) as [->|Hne].
    { unfold len. rewrite Nat.sub_diag. change (Z.of_nat 0 <=? 0) with true. cbv iota. wp_step. by apply HQ. }
    assert (k < len)%nat as Hlt by lia. rewrite (Hva Hlt).
    destruct (Z.leb_spec (Z.of_nat (length src - k)) 0); [unfold len in *; lia|].
    pose proof (uspace_frame _ _ _ _ _ Hu b (copied_user_only _ _ _ _ _ _ _ Hk Hc)) as Hub.
    wp_step. eapply wp_walk_user; [exact Hub | done | by apply chunk_page |]. intros Hnz.
    rewrite (proj2 (Z.eqb_neq _ _) Hnz).
    pose proof (chunk_range lo len k Hlt) as Hr. change (lo + Z.of_nat len) with (lo + len) in *.
    assert (Z.to_nat (if Z.of_nat (length src - k) <? PGSIZE - (lo + k - PGROUNDDOWN (lo + k))
      then Z.of_nat (length src - k) else PGSIZE - (lo + k - PGROUNDDOWN (lo + k))) = chunk lo len k) as ->.
    { unfold chunk, len. by replace (Z.of_nat (length src - k)) with (Z.of_nat (length src) - k)
        by (unfold len in *; lia). }
    set (n := chunk lo len k) in *.
    assert (length (take n (drop k src)) = n) as Hl by (rewrite length_take, length_drop; unfold len in *; lia).
    wp_step. unfold write_phys. rewrite Hl.
    rewrite (chunk_ram b0 pt lo pa len Hu k n) by (done || lia).
    unfold modify_bytes, modify_mm. wp_steps. cbn [fst snd]. split.
    + rewrite !length_drop. unfold len in *. lia.
    + split; [done|]. exists (k + n)%nat. eexists. split_and!; [lia | by rewrite drop_drop | | |].
      * intros Hkn. by apply (chunk_next b0 pt lo pa len Hu).
      * by apply (copied_step b0 pt lo pa len Hu src k b).
      * done.
Qed.
End copyout.

Section copyin.
Context (pt lo : Z) (pa : Z -> Z) (len : nat) (e : list (kstate -> kstate)) (s : kstate).
Let b := m_bytes (k_mm s).
Context (Hu : uspace b pt lo (lo + len) pa).

(** the user's bytes from [lo] on *)
Definition user_bytes (n : nat) : list Z := (fun i : nat => ldb b (phys pa (lo + i))) <$> seq 0 n.

Definition copyin_inv (x : Z * Z * list Z) (e' : list (kstate -> kstate)) (s' : kstate) : Prop :=
  e' = e /\ s' = s /\ exists k, (k <= len)%nat /\ x.1.2 = Z.of_nat len - k /\
    ((k < len)%nat -> x.1.1 = lo + k) /\ x.2 = user_bytes k.

Lemma wp_copyin (Q : Z * list Z -> list (kstate -> kstate) -> kstate -> Prop) :
  Q (0, user_bytes len) e s -> wp (copyin pt lo len) e s Q.
Proof using Hu.
  intros HQ. unfold copyin.
  apply (wp_mloop _ copyin_inv (fun x => Z.to_nat x.1.2)); [cbn; lia | |].
  - split_and!; [done | done |]. exists 0%nat. split_and!; [lia | cbn; lia | intros; cbn; lia | done].
  - intros [[va n] dst] e' s' (-> & -> & k & Hk & Hn & Hva & Hdst). cbn [fst snd] in *. subst n dst.
    destruct (decide (k = len)) as [->|Hne].
    { rewrite Z.sub_diag. change (0 <=? 0) with true. cbv iota. by wp_step. }
    assert (k < len)%nat as Hlt by lia. rewrite (Hva Hlt).
    destruct (Z.leb_spec (Z.of_nat len - k) 0); [lia|].
    wp_step. eapply wp_walk_user; [exact Hu | done | by apply chunk_page |]. intros Hnz.
    rewrite (proj2 (Z.eqb_neq _ _) Hnz).
    pose proof (chunk_range lo len k Hlt) as Hr.
    set (m := if _ <? _ then _ else _). assert (m = Z.of_nat (chunk lo len k)) as ->.
    { unfold m, chunk. pose proof (page_of (lo + k)).
      destruct (Z.ltb_spec (Z.of_nat len - k) (PGSIZE - (lo + k - PGROUNDDOWN (lo + k)))); lia. }
    wp_step. unfold read_phys. rewrite (chunk_ram b pt lo pa len Hu k) by (done || lia).
    wp_steps. cbn [fst snd]. split; [lia|]. split_and!; [done | done |].
    exists (k + chunk lo len k)%nat. cbn [fst snd]. split_and!; [lia | lia | |].
    + intros Hkn. by apply (chunk_next b pt lo pa len Hu).
    + unfold user_bytes. rewrite seq_app, fmap_app. f_equal. unfold get_bytes. rewrite Nat2Z.id.
      replace (seq (0 + k) (chunk lo len k)) with (Nat.add k <$> seq 0 (chunk lo len k))
        by (rewrite fmap_add_seq; f_equal; lia).
      rewrite <- list_fmap_compose. apply list_fmap_ext.
      intros j i Hj. apply lookup_seq in Hj as [-> Hj]. unfold compose.
      cbn [Nat.add]. rewrite (chunk_phys lo pa len k j) by lia. done.
Qed.
End copyin.

(** ** Theorems *)

(** C39: [copyout] followed by [copyin] gives the bytes back: over mapped user
    pages [copyout] succeeds, changes exactly the bytes of its range in the
    user's view (page boundaries included), leaves the page table and all other
    memory alone, and [copyin] of the range then returns what was written. *)
Theorem copyout_copyin pt lo pa src e s :
  let b := m_bytes (k_mm s) in
  uspace b pt lo (lo + length src) pa ->
  exists b', copyout pt lo src e s = Ret 0 e (with_bytes b' s) /\
    user_only b lo (lo + length src) pa b' /\ uspace b' pt lo (lo + length src) pa /\
    copyin pt lo (length src) e (with_bytes b' s) = Ret (0, u8 <$> src) e (with_bytes b' s).
Proof.
  intros b Hu.
  assert (wp (copyout pt lo src) e s (fun r e' s' => e' = e /\ r = 0 /\
    exists b', copied b pa lo src (length src) b' /\ s' = with_bytes b' s)) as H.
  { apply (wp_copyout pt lo pa src e s Hu). eauto. }
  apply wp_run in H as (r & s' & E & -> & b' & Hc & ->). exists b'.
  assert (user_only b lo (lo + length src) pa b') as Ho by (eapply copied_user_only; [|done]; lia).
  assert (uspace b' pt lo (lo + length src) pa) as Hu' by (by eapply uspace_frame).
  split_and!; try done.
  assert (wp (copyin pt lo (length src)) e (with_bytes b' s) (fun r e' s' => e' = e /\
    r = (0, u8 <$> src) /\ s' = with_bytes b' s)) as H.
  { apply (wp_copyin pt lo pa (length src) e (with_bytes b' s) Hu'). split_and!; [done | | done].
    f_equal. apply list_eq. intros i. unfold user_bytes. rewrite !list_lookup_fmap.
    destruct (decide (i < length src)%nat) as [Hi|Hi].
    - rewrite lookup_seq_lt by done. cbn. destruct (lookup_lt_is_Some_2 src i Hi) as [x Hx].
      rewrite (proj1 Hc i Hi), Hx. done.
    - rewrite lookup_seq_ge by lia. by rewrite lookup_ge_None_2 by lia. }
  apply wp_run in H as (r & s' & E' & -> & ->). done.
Qed.

(** The page walk of the code is the Sv39 translation: for every virtual
    address whose page-table path lies in RAM, [walkaddr] returns the physical
    page [translate] gives, and 0 when the address is out of range, unmapped or
    not a user page; it changes nothing. *)
Lemma walkaddr_translates pt va e s :
  Forall (fun w => in_ram w 8 = true) (path_words (m_bytes (k_mm s)) pt va) ->
  walkaddr pt va e s = Ret (default 0 (translate (m_bytes (k_mm s)) pt va)) e s.
Proof.
  intros Hw.
  assert (wp (walkaddr pt va) e s (fun r e' s' => e' = e /\
    r = default 0 (translate (m_bytes (k_mm s)) pt va) /\ s' = s)) as H by (by apply wp_walkaddr).
  apply wp_run in H as (r & s' & E & -> & ->). done.
Qed.

(** Two user pages, at physical 0x80040000 and 0x80050000, and a copy of four
    bytes across their boundary. *)
Definition user_flags : Z := Z.lor (Z.lor (Z.lor PTE_V PTE_R) PTE_W) PTE_U.
Definition two_pages : gmap Z Z :=
  st64 (st64 (st64 (st64 ∅ 0x80030000 (Z.lor (PA2PTE 0x80031000) PTE_V))
    0x80031000 (Z.lor (PA2PTE 0x80032000) PTE_V))
    0x80032000 (Z.lor (PA2PTE 0x80040000) user_flags))
    0x80032008 (Z.lor (PA2PTE 0x80050000) user_flags).
Definition two_pa (v : Z) : Z := if v =? 0 then 0x80040000 else 0x80050000.
Definition two_demo : kstate := set_k_mm (set_m_bytes two_pages mm0) boot.

Lemma two_pages_pages v : upage 0xffe 0x1002 v -> v = 0 \/ v = 0x1000.
Proof.
  intros (va & Hva & ->). rewrite PGROUNDDOWN_eq. unfold PGSIZE.
  destruct (decide (va < 4096)).
  - rewrite Z.mod_small by lia. left. lia.
  - right. replace va with (va - 4096 + 1 * 4096) by lia. rewrite Z_mod_plus_full, Z.mod_small by lia. lia.
Qed.
Lemma two_pages_words v : v = 0 \/ v = 0x1000 ->
  path_words two_pages 0x80030000 v = [0x80030000; 0x80031000; if v =? 0 then 0x80032000 else 0x80032008] /\
  translate two_pages 0x80030000 v = Some (two_pa v).
Proof. intros [-> | ->]; vm_compute; split; reflexivity. Qed.
Lemma two_pages_uspace : uspace two_pages 0x80030000 0xffe 0x1002 two_pa.
Proof.
  assert (forall v w, v = 0 \/ v = 0x1000 -> w ∈ path_words two_pages 0x80030000 v ->
    0x80030000 <= w <= 0x80032008) as Hw.
  { intros v w Hv. rewrite (proj1 (two_pages_words v Hv)).
    rewrite !elem_of_cons, elem_of_nil. intros [-> | [-> | [-> | []]]]; [lia | lia | destruct (v =? 0); lia]. }
  split.
  - split; [lia | vm_compute; discriminate].
  - intros v Hv%two_pages_pages. split; [by apply two_pages_words|].
    destruct Hv as [-> | ->]; reflexivity.
  - intros v Hv%two_pages_pages. apply Forall_forall. intros w Hin%Hw; [|done].
    unfold in_ram, KERNBASE, PHYSTOP, KERNBASE. apply andb_true_iff. lia.
  - intros v v' w Hv%two_pages_pages Hv'%two_pages_pages Hin%Hw; [|done].
    unfold two_pa. destruct (v' =? 0); lia.
  - intros v v' Hv%two_pages_pages Hv'%two_pages_pages Hne. unfold two_pa, PGSIZE.
    destruct Hv as [-> | ->], Hv' as [-> | ->]; cbn; lia || done.
Qed.

Lemma copyout_copyin_witness :
  exists b', copyout 0x80030000 0xffe [1; 2; 3; 260] [] two_demo = Ret 0 [] (with_bytes b' two_demo) /\
    user_only two_pages 0xffe 0x1002 two_pa b' /\ uspace b' 0x80030000 0xffe 0x1002 two_pa /\
    copyin 0x80030000 0xffe 4 [] (with_bytes b' two_demo) = Ret (0, [1; 2; 3; 4]) [] (with_bytes b' two_demo).
Proof. apply (copyout_copyin 0x80030000 0xffe two_pa [1; 2; 3; 260] [] two_demo). apply two_pages_uspace. Defined.

Lemma walkaddr_translates_witness : walkaddr 0x80030000 0x1000 [] two_demo = Ret 0x80050000 [] two_demo.
Proof.
  apply (walkaddr_translates 0x80030000 0x1000 [] two_demo).
  apply (us_words _ _ _ _ _ two_pages_uspace). exists 0x1000. split; [lia | reflexivity].
Defined.
