(* ===== verification/Ptable.v ===== *)
(** Page tables as finite maps (vm.c: [walk], [mappages], [uvmunmap]).

    The three levels of an Sv39 page table are threaded through pages of physical
    memory.  [ptable b pt T M] says that the table rooted at [pt] in the memory [b]
    consists of the table pages [T] (level and index of the page among those of its
    level) and maps the page numbers of [M] to their entries.  The operations of vm.c
    are then operations on [M]; the pages they take from the free list and give back
    to it are accounted for by permutations of page lists. *)
From S2P Require Import Prelude State Spinlock Queue Boot Cstring Kalloc Vm Uspace.

(** ** Entries *)
Definition table_pte (p : Z) : Z := Z.lor (PA2PTE p) PTE_V.
Definition leaf_pte (pa perm : Z) : Z := Z.lor (Z.lor (PA2PTE pa) perm) PTE_V.

Definition phys_page (p : Z) : Prop := p mod PGSIZE = 0 /\ 0 <= p < 2 ^ 54.
(** permissions of a leaf: flag bits other than V alone *)
Definition leaf_perm (perm : Z) : Prop := 0 <= perm < 1024 /\ perm <> 0 /\ perm <> PTE_V.

Lemma lor_high x f : 0 <= f < 1024 -> Z.lor (x * 1024) f = x * 1024 + f.
Proof.
  intros Hf. symmetry. apply Z.add_nocarry_lor. apply Z.bits_inj'. intros n Hn. rewrite Z.land_spec, Z.bits_0.
  destruct (Z.lt_ge_cases n 10).
  - replace (x * 1024) with (Z.shiftl x 10) by (rewrite Z.shiftl_mul_pow2; lia). by rewrite Z.shiftl_spec_low by lia.
  - rewrite <- (Z.mod_small f (2 ^ 10)) by (change (2 ^ 10) with 1024; lia). rewrite Z.mod_pow2_bits_high by lia. apply andb_false_r.
Qed.
Lemma PA2PTE_page p : phys_page p -> PA2PTE p = p / PGSIZE * 1024.
Proof.
  intros [Hm Hp]. unfold PA2PTE. rewrite Z.shiftr_div_pow2, Z.shiftl_mul_pow2 by lia. change (2 ^ 12) with PGSIZE. change (2 ^ 10) with 1024.
  apply u64_small. pose proof (Z.div_mod p PGSIZE ltac:(done)). unfold PGSIZE in *. lia.
Qed.
Lemma PTE2PA_eq q f : 0 <= q < 2 ^ 42 -> 0 <= f < 1024 -> PTE2PA (q * 1024 + f) = q * PGSIZE.
Proof.
  intros Hq Hf. unfold PTE2PA. rewrite Z.shiftr_div_pow2, Z.shiftl_mul_pow2 by lia. change (2 ^ 10) with 1024.
  rewrite Z.div_add_l, (Z.div_small f), Z.add_0_r by lia. apply u64_small. unfold PGSIZE. lia.
Qed.
Lemma page_index p : phys_page p -> p / PGSIZE * PGSIZE = p /\ 0 <= p / PGSIZE < 2 ^ 42.
Proof. intros [Hm Hp]. pose proof (Z.div_mod p PGSIZE ltac:(done)). unfold PGSIZE in *. lia. Qed.
Lemma land_V x : Z.land x PTE_V = x mod 2.
Proof. apply (Z.land_ones x 1). lia. Qed.
Lemma flags_mod x : PTE_FLAGS x = x mod 1024.
Proof. apply (Z.land_ones x 10). lia. Qed.
Lemma lor_range f g : 0 <= f < 1024 -> 0 <= g < 1024 -> 0 <= Z.lor f g < 1024.
Proof.
  assert (Hb : forall x, 0 <= x < 1024 -> forall n, 10 <= n -> Z.testbit x n = false).
  { intros x Hx n Hn. rewrite <- (Z.mod_small x (2 ^ 10)) by (change (2 ^ 10) with 1024; lia). by rewrite Z.mod_pow2_bits_high by lia. }
  intros Hf Hg. assert (E : Z.lor f g = Z.lor f g mod 2 ^ 10).
  { apply Z.bits_inj'. intros n Hn. destruct (Z.lt_ge_cases n 10); [by rewrite Z.mod_pow2_bits_low by lia|].
    rewrite Z.mod_pow2_bits_high by lia. by rewrite Z.lor_spec, (Hb f), (Hb g) by lia. }
  rewrite E. apply (Z.mod_pos_bound _ (2 ^ 10)). lia.
Qed.
Lemma lor_ge f g : 0 <= f -> 0 <= g -> f <= Z.lor f g.
Proof.
  intros Hf Hg. apply Z.ldiff_le; [by apply Z.lor_nonneg|]. apply Z.bits_inj'. intros n Hn.
  rewrite Z.ldiff_spec, Z.lor_spec, Z.bits_0. by destruct (Z.testbit f n), (Z.testbit g n).
Qed.
Lemma lor_V_range f : 0 <= f < 1024 -> 0 <= Z.lor f PTE_V < 1024 /\ Z.lor f PTE_V mod 2 = 1.
Proof.
  intros Hf. split; [by apply lor_range|].
  rewrite <- land_V. apply Z.bits_inj'. intros n Hn. rewrite Z.land_spec, Z.lor_spec. change PTE_V with 1. destruct (Z.testbit f n), (Z.testbit 1 n); done.
Qed.

(** the fields of an entry *)
Lemma pte_fields p f : phys_page p -> 0 <= f < 1024 ->
  let pte := Z.lor (PA2PTE p) f in
  PTE2PA pte = p /\ PTE_FLAGS pte = f /\ Z.land pte PTE_V = f mod 2 /\ 0 <= pte < 2 ^ 64.
Proof.
  intros Hp Hf pte. destruct (page_index p Hp) as [E Hq]. unfold pte. rewrite PA2PTE_page, lor_high by done.
  rewrite PTE2PA_eq, flags_mod, land_V by done. split_and!; [done | | | lia | lia].
  - by rewrite Z.add_comm, Z_mod_plus_full, Z.mod_small.
  - replace (p / PGSIZE * 1024) with (p / PGSIZE * 512 * 2) by lia. by rewrite Z.add_comm, Z_mod_plus_full.
Qed.
Lemma table_pte_fields p : phys_page p ->
  PTE2PA (table_pte p) = p /\ istrue (Z.land (table_pte p) PTE_V) = true /\ 0 <= table_pte p < 2 ^ 64 /\ PTE_FLAGS (table_pte p) = PTE_V.
Proof. intros Hp. destruct (pte_fields p PTE_V Hp ltac:(done)) as (H1 & H2 & H3 & H4). unfold table_pte. by rewrite H3. Qed.
Lemma leaf_pte_fields pa perm : phys_page pa -> leaf_perm perm ->
  PTE2PA (leaf_pte pa perm) = pa /\ istrue (Z.land (leaf_pte pa perm) PTE_V) = true /\ 0 <= leaf_pte pa perm < 2 ^ 64 /\
  PTE_FLAGS (leaf_pte pa perm) = Z.lor perm PTE_V /\ PTE_FLAGS (leaf_pte pa perm) <> PTE_V.
Proof.
  intros Hp (Hf & H0 & H1). destruct (lor_V_range perm Hf) as [Hr Hv]. unfold leaf_pte. rewrite <- Z.lor_assoc.
  destruct (pte_fields pa _ Hp Hr) as (E1 & E2 & E3 & E4). rewrite E1, E2, E3, Hv. split_and!; [done | done | lia | lia | done |].
  intros E. change PTE_V with 1 in *.
  pose proof (lor_ge perm 1 ltac:(lia) ltac:(lia)). lia.
Qed.

(** ** Indices *)

(** the index of the table page of level [lv] that the walk of [va] goes through;
    at level -1, the page number *)
Definition key (lv va : Z) : Z := va / 2 ^ (21 + 9 * lv).
Definition vpn (va : Z) : Z := va / PGSIZE.

Lemma key_vpn va : key (-1) va = vpn va.
Proof. unfold key, vpn. change (2 ^ (21 + 9 * -1)) with PGSIZE. done. Qed.
Lemma PX_eq lv va : 0 <= lv -> PX lv va = key (lv - 1) va mod 512.
Proof.
  intros Hl. unfold PX, PXSHIFT, PGSHIFT, key. change PXMASK with (Z.ones 9). rewrite Z.land_ones, Z.shiftr_div_pow2 by lia.
  do 3 f_equal. lia.
Qed.
Lemma PX_range lv va : 0 <= lv -> 0 <= PX lv va < 512.
Proof. intros Hl. rewrite PX_eq by done. apply Z.mod_pos_bound. lia. Qed.
Lemma key_up lv va : 0 <= lv -> key lv va = key (lv - 1) va / 512.
Proof.
  intros Hl. unfold key. replace (21 + 9 * lv) with (21 + 9 * (lv - 1) + 9) by lia. rewrite Z.pow_add_r by lia.
  rewrite Z.div_div by lia. done.
Qed.
Lemma key_split lv va : 0 <= lv -> key (lv - 1) va = key lv va * 512 + PX lv va.
Proof. intros Hl. rewrite PX_eq, (key_up lv) by done. rewrite Z.mul_comm. apply Z.div_mod. lia. Qed.
Lemma key_root va : 0 <= va < MAXVA -> key 2 va = 0.
Proof. intros H. unfold key. apply Z.div_small. change MAXVA with (2 ^ 38) in H. lia. Qed.

(** ** The representation *)
Definition pkey : Type := Z * Z.
Definition tables (T : gmap pkey Z) : list Z := (map_to_list T).*2.

(** the word of a table of level [lv] that stands for index [k] of the level below *)
Definition slot (T : gmap pkey Z) (M : gmap Z Z) (lv k : Z) : Z :=
  if lv =? 0 then default 0 (M !! k) else from_option table_pte 0 (T !! (lv - 1, k)).

Definition leaf (pte : Z) : Prop := 0 <= pte < 2 ^ 64 /\ istrue (Z.land pte PTE_V) = true /\ PTE_FLAGS pte <> PTE_V.

Record ptable (b : gmap Z Z) (pt : Z) (T : gmap pkey Z) (M : gmap Z Z) : Prop := {
  pt_root : T !! (2, 0) = Some pt;
  pt_level : forall lv k p, T !! (lv, k) = Some p -> 0 <= lv < 2 /\ is_Some (T !! (lv + 1, k / 512)) \/ lv = 2 /\ k = 0;
  pt_word : forall lv k p j, T !! (lv, k) = Some p -> 0 <= j < 512 -> ld64 b (p + 8 * j) = slot T M lv (k * 512 + j);
  pt_leaf : forall v pte, M !! v = Some pte -> is_Some (T !! (0, v / 512)) /\ leaf pte
}.

(** [a] is in none of the pages [ps]; memory that agrees outside them *)
Definition off_pages (ps : list Z) (a : Z) : Prop := forall p, p ∈ ps -> a < p \/ p + PGSIZE <= a.
Definition same_off (ps : list Z) (b b' : gmap Z Z) : Prop := forall a, off_pages ps a -> ldb b' a = ldb b a.

Lemma elem_tables T p : p ∈ tables T <-> exists k, T !! k = Some p.
Proof.
  unfold tables. rewrite list_elem_of_fmap. split.
  - intros ([k q] & -> & H%elem_of_map_to_list). eauto.
  - intros [k H]. exists (k, p). by rewrite elem_of_map_to_list.
Qed.
Lemma tables_insert T k p : T !! k = None -> tables (<[k := p]> T) ≡ₚ p :: tables T.
Proof. intros H. unfold tables. by rewrite map_to_list_insert. Qed.
Lemma tables_inj T k k' p : NoDup (tables T) -> T !! k = Some p -> T !! k' = Some p -> k = k'.
Proof.
  intros Hn H H'. destruct (decide (k = k')) as [|Hne]; [done|]. exfalso.
  rewrite <- (insert_delete_id T k p H) in Hn. rewrite tables_insert in Hn by apply lookup_delete_eq. apply NoDup_cons in Hn as [Hn _].
  apply Hn, elem_tables. exists k'. by rewrite lookup_delete_ne.
Qed.

Lemma same_off_refl ps b : same_off ps b b.
Proof. by intros a _. Qed.
Lemma same_off_trans ps b b' b'' : same_off ps b b' -> same_off ps b' b'' -> same_off ps b b''.
Proof. intros H H' a Ha. by rewrite H', H. Qed.
Lemma same_off_mono ps ps' b b' : ps ⊆ ps' -> same_off ps b b' -> same_off ps' b b'.
Proof. intros Hs H a Ha. apply H. intros p Hp. by apply Ha, Hs. Qed.
Lemma same_off_memset ps b p c : p ∈ ps -> same_off ps b (memset b p c (Z.to_nat PGSIZE)).
Proof. intros Hp a Ha. rewrite ldb_memset, decide_False; [done|]. specialize (Ha p Hp). unfold PGSIZE in *. lia. Qed.
Lemma same_off_st64 ps b p o v : p ∈ ps -> 0 <= o -> o + 8 <= PGSIZE -> same_off ps b (st64 b (p + o) v).
Proof. intros Hp H0 H1 a Ha. unfold st64. rewrite ldb_stn, decide_False; [done|]. specialize (Ha p Hp). lia. Qed.
(** a word of a page that is not changed *)
Lemma same_off_word endp ps b b' q o : same_off ps b b' -> Forall (page_ok endp) ps -> page_ok endp q -> q ∉ ps -> 0 <= o -> o + 8 <= PGSIZE ->
  ld64 b' (q + o) = ld64 b (q + o).
Proof.
  intros Hs Hps Hq Hni H0 H1. unfold ld64. apply (ldn_ext _ _ (q + o) 8). intros a Ha. apply Hs. intros p Hp.
  rewrite Forall_forall in Hps. assert (q <> p) by (intros ->; done). pose proof (page_disj _ _ _ Hq (Hps p Hp) H). lia.
Qed.
Lemma ld64_zeroed b p o : 0 <= o -> o + 8 <= PGSIZE -> ld64 (memset b p 0 (Z.to_nat PGSIZE)) (p + o) = 0.
Proof.
  intros H0 H1. unfold ld64. rewrite (ldn_ext _ ∅ (p + o) 8); [reflexivity|]. intros a Ha. rewrite ldb_memset, decide_True by (unfold PGSIZE in *; lia). done.
Qed.

(** ** Memory with a page table *)

(** [s'] differs from [s] in the memory and, perhaps, the interrupt bookkeeping *)
Definition mem_step (s s' : kstate) : Prop :=
  exists b f h, s' = set_k_mm (set_m_freelist f (set_m_bytes b (k_mm s))) (set_k_hw h s) /\ h ≈h k_hw s.
Lemma mem_step_refl s : mem_step s s.
Proof. exists (m_bytes (k_mm s)), (m_freelist (k_mm s)), (k_hw s). split; [|done]. by destruct s as [? ? [] ? ?]. Qed.
Lemma mem_step_trans s s' s'' : mem_step s s' -> mem_step s' s'' -> mem_step s s''.
Proof. intros (b & f & h & -> & Hh) (b' & f' & h' & -> & Hh'). exists b', f', h'. split; [done|]. cbn in Hh'. by rewrite Hh'. Qed.
Lemma mem_step_bytes s b : mem_step s (with_bytes b s).
Proof. exists b, (m_freelist (k_mm s)), (k_hw s). split; [|done]. by destruct s as [? ? [] ? ?]. Qed.

(** the free pages [l] and the page table, on pages of their own *)
Record pworld (m : memory) (l : list Z) (pt : Z) (T : gmap pkey Z) (M : gmap Z Z) : Prop := {
  pw_free : free_list m l;
  pw_pt : ptable (m_bytes m) pt T M;
  pw_ok : Forall (page_ok (m_end m)) (l ++ tables T);
  pw_nodup : NoDup (l ++ tables T)
}.

Lemma page_ok_phys endp p : KERNBASE <= endp -> page_ok endp p -> phys_page p.
Proof. intros He [H1 H2]. split; [done|]. unfold PHYSTOP, KERNBASE in *. lia. Qed.

Section world.
Context (m : memory) (l : list Z) (pt : Z) (T : gmap pkey Z) (M : gmap Z Z) (Hw : pworld m l pt T M).

Lemma pw_kern : KERNBASE <= m_end m.
Proof using Hw. apply (pw_free _ _ _ _ _ Hw). Qed.
Lemma pw_table k p : T !! k = Some p -> page_ok (m_end m) p.
Proof using Hw. intros H. pose proof (pw_ok _ _ _ _ _ Hw) as Ho. rewrite Forall_app, !Forall_forall in Ho. apply Ho, elem_tables. eauto. Qed.
Lemma pw_word k p j : T !! k = Some p -> 0 <= j < 512 -> in_ram (p + 8 * j) 8 = true.
Proof using Hw. intros H Hj. eapply page_word; [apply pw_kern | by eapply pw_table | lia | unfold PGSIZE; lia]. Qed.
Lemma pw_inj k k' p : T !! k = Some p -> T !! k' = Some p -> k = k'.
Proof using Hw. apply tables_inj. pose proof (pw_nodup _ _ _ _ _ Hw) as H. by apply NoDup_app in H as (_ & _ & H). Qed.
Lemma pw_not_free k p : T !! k = Some p -> p ∉ l.
Proof using Hw.
  intros H Hin. pose proof (pw_nodup _ _ _ _ _ Hw) as Hn. apply NoDup_app in Hn as (_ & Hn & _). apply (Hn p Hin), elem_tables. eauto.
Qed.
(** words of two tables *)
Lemma pw_disj k k' p p' j j' : T !! k = Some p -> T !! k' = Some p' -> 0 <= j < 512 -> 0 <= j' < 512 -> (k, j) <> (k', j') ->
  p + 8 * j + 8 <= p' + 8 * j' \/ p' + 8 * j' + 8 <= p + 8 * j.
Proof using Hw.
  intros H H' Hj Hj' Hne. destruct (decide (p = p')) as [->|Hp].
  - rewrite (pw_inj _ _ _ H H') in Hne. assert (j <> j') by congruence. lia.
  - pose proof (page_disj _ _ _ (pw_table _ _ H) (pw_table _ _ H') Hp). unfold PGSIZE in *. lia.
Qed.
(** changes elsewhere *)
Lemma pworld_frame ps b f l' : free_list (set_m_freelist f (set_m_bytes b m)) l' -> same_off ps (m_bytes m) b ->
  Forall (page_ok (m_end m)) ps -> (forall p, p ∈ ps -> p ∉ tables T) -> Forall (page_ok (m_end m)) l' -> NoDup (l' ++ tables T) ->
  pworld (set_m_freelist f (set_m_bytes b m)) l' pt T M.
Proof using Hw.
  intros Hf Hs Hps Hd Hl' Hn. pose proof (pw_pt _ _ _ _ _ Hw) as [H1 H2 H3 H4]. constructor; try done.
  - constructor; try done. cbn [m_bytes set_m_freelist set_m_bytes]. intros lv k p j Hk Hj. rewrite <- (H3 lv k p j) by done.
    eapply same_off_word; [exact Hs | exact Hps | by eapply pw_table | | lia | unfold PGSIZE; lia].
    intros Hin. apply (Hd p Hin), elem_tables. eauto.
  - pose proof (pw_ok _ _ _ _ _ Hw) as Ho. apply Forall_app in Ho as [_ Ho]. by apply Forall_app.
Qed.
End world.

(** ** Looking up *)
Lemma walk_word m l pt T M lv va p : pworld m l pt T M -> 0 <= lv -> T !! (lv, key lv va) = Some p ->
  in_ram (p + 8 * PX lv va) 8 = true /\ ld64 (m_bytes m) (p + 8 * PX lv va) = slot T M lv (key (lv - 1) va).
Proof.
  intros Hw Hl Hp. pose proof (PX_range lv va Hl) as Hx. split; [by eapply pw_word|].
  rewrite (pt_word _ _ _ _ (pw_pt _ _ _ _ _ Hw) _ _ _ _ Hp Hx). by rewrite <- key_split.
Qed.
(** a level of the walk *)
Lemma walk_entry m l pt T M lv va p : pworld m l pt T M -> 0 < lv -> T !! (lv, key lv va) = Some p ->
  let pte := ld64 (m_bytes m) (p + 8 * PX lv va) in
  match T !! (lv - 1, key (lv - 1) va) with
  | Some p' => istrue (Z.land pte PTE_V) = true /\ PTE2PA pte = p'
  | None => istrue (Z.land pte PTE_V) = false
  end.
Proof.
  intros Hw Hl Hp pte. unfold pte. destruct (walk_word _ _ _ _ _ lv va p Hw ltac:(lia) Hp) as [_ ->]. unfold slot. replace (lv =? 0) with false by lia.
  destruct (T !! (lv - 1, key (lv - 1) va)) as [p'|] eqn:E; cbn [from_option]; [|done].
  assert (Hp' : phys_page p') by (eapply page_ok_phys; [by eapply pw_kern | by eapply pw_table]). by destruct (table_pte_fields p' Hp') as (H1 & H2 & _).
Qed.

Definition found (T : gmap pkey Z) (va : Z) : Z := from_option (fun p => p + 8 * PX 0 va) 0 (T !! (0, key 0 va)).

Lemma wp_walk_find l pt T M va e s (Q : Z -> list (kstate -> kstate) -> kstate -> Prop) :
  pworld (k_mm s) l pt T M -> 0 <= va < MAXVA -> Q (found T va) e s -> wp (walk pt va false) e s Q.
Proof.
  intros Hw Hva HQ. unfold walk. replace (MAXVA <=? va) with false by lia. wp_step.
  pose proof (pt_root _ _ _ _ (pw_pt _ _ _ _ _ Hw)) as Hr. rewrite <- (key_root va Hva) in Hr.
  assert (Hup : forall lv k, T !! (lv + 1, k / 512) = None -> 0 <= lv < 2 -> T !! (lv, k) = None).
  { intros lv k Hn Hlv. destruct (T !! (lv, k)) as [q|] eqn:E; [|done].
    destruct (pt_level _ _ _ _ (pw_pt _ _ _ _ _ Hw) _ _ _ E) as [[_ [x Hx]]|[-> _]]; [congruence | lia]. }
  cbn [walk_levels]. unfold load64. rewrite (proj1 (walk_word _ _ _ _ _ 2 va pt Hw ltac:(lia) Hr)). wp_steps.
  pose proof (walk_entry _ _ _ _ _ 2 va pt Hw ltac:(lia) Hr) as H2. cbv zeta in H2. change (2 - 1) with 1 in H2.
  destruct (T !! (1, key 1 va)) as [p1|] eqn:E1.
  - destruct H2 as [-> ->]. rewrite (proj1 (walk_word _ _ _ _ _ 1 va p1 Hw ltac:(lia) E1)). wp_steps.
    pose proof (walk_entry _ _ _ _ _ 1 va p1 Hw ltac:(lia) E1) as H1. cbv zeta in H1. change (1 - 1) with 0 in H1.
    unfold found in HQ. destruct (T !! (0, key 0 va)) as [p0|] eqn:E0.
    + destruct H1 as [-> ->]. wp_steps. done.
    + rewrite H1. cbn [negb]. wp_steps. done.
  - rewrite H2. cbn [negb]. wp_steps. unfold found in HQ. rewrite (Hup 0 (key 0 va)) in HQ; [done | | lia].
    change (0 + 1) with 1. pose proof (key_up 1 va ltac:(lia)) as Hk. change (1 - 1) with 0 in Hk. by rewrite <- Hk.
Qed.

(** ** Adding a table *)
Lemma ptable_new_table m l pt T M lv k j p pg b' : pworld m (pg :: l) pt T M -> 0 < lv <= 2 -> T !! (lv, k) = Some p -> 0 <= j < 512 ->
  T !! (lv - 1, k * 512 + j) = None ->
  (forall o, 0 <= o -> o + 8 <= PGSIZE -> ld64 b' (pg + o) = 0) ->
  ld64 b' (p + 8 * j) = table_pte pg ->
  (forall k' q j', T !! k' = Some q -> 0 <= j' < 512 -> (k', j') <> ((lv, k), j) -> ld64 b' (q + 8 * j') = ld64 (m_bytes m) (q + 8 * j')) ->
  ptable b' pt (<[(lv - 1, k * 512 + j) := pg]> T) M.
Proof.
  intros Hw Hlv Hp Hj Hn Hz Hnew Hold. pose proof (pw_pt _ _ _ _ _ Hw) as [R1 R2 R3 R4].
  assert (Hk : (k * 512 + j) / 512 = k) by (rewrite Z.div_add_l, (Z.div_small j) by lia; lia).
  constructor.
  - rewrite lookup_insert_ne; [done|]. intros [= E _]. lia.
  - intros lv' k' p' H. destruct (decide ((lv', k') = (lv - 1, k * 512 + j))) as [[= -> ->]|Hne].
    + left. split; [lia|]. rewrite Hk. replace (lv - 1 + 1) with lv by lia. rewrite lookup_insert_ne; [eauto|]. intros [= E _]. lia.
    + rewrite lookup_insert_ne in H by done. destruct (R2 _ _ _ H) as [[? [x Hx]]|?]; [left|by right]. split; [done|].
      destruct (decide ((lv' + 1, k' / 512) = (lv - 1, k * 512 + j))) as [->|]; [rewrite lookup_insert_eq; eauto|].
      rewrite lookup_insert_ne by done. eauto.
  - intros lv' k' q j' H Hj'. destruct (decide ((lv', k') = (lv - 1, k * 512 + j))) as [[= -> ->]|Hne].
    + rewrite lookup_insert_eq in H. injection H as <-. rewrite Hz by (unfold PGSIZE; lia). unfold slot. destruct (Z.eqb_spec (lv - 1) 0) as [E|E].
      * destruct (M !! _) as [pte|] eqn:EM; [|done]. destruct (R4 _ _ EM) as [[x Hx] _]. exfalso.
        rewrite Z.div_add_l, (Z.div_small j'), Z.add_0_r in Hx by lia. rewrite E in Hn. congruence.
      * rewrite lookup_insert_ne by (intros [= E' _]; lia). destruct (T !! (lv - 1 - 1, _)) as [x|] eqn:ET; [|done]. exfalso.
        destruct (R2 _ _ _ ET) as [[_ [y Hy]]|[? _]]; [|lia]. rewrite Z.div_add_l, (Z.div_small j'), Z.add_0_r in Hy by lia.
        replace (lv - 1 - 1 + 1) with (lv - 1) in Hy by lia. congruence.
    + rewrite lookup_insert_ne in H by done. destruct (decide (((lv', k'), j') = ((lv, k), j))) as [[= -> -> ->]|Hd].
      * rewrite Hp in H. injection H as <-. rewrite Hnew. unfold slot. replace (lv =? 0) with false by lia. by rewrite lookup_insert_eq.
      * rewrite (Hold (lv', k')) by done. rewrite (R3 _ _ _ _ H Hj'). unfold slot. destruct (Z.eqb_spec lv' 0); [done|].
        rewrite lookup_insert_ne; [done|]. intros [= E1 E2]. apply Hd. assert (lv' = lv) as -> by lia. f_equal; [f_equal|]; lia.
  - intros v pte H. destruct (R4 _ _ H) as [[x Hx] Hl]. split; [|done]. destruct (decide ((0, v / 512) = (lv - 1, k * 512 + j))) as [->|].
    + rewrite lookup_insert_eq. eauto.
    + rewrite lookup_insert_ne by done. eauto.
Qed.

(** ** Walking with allocation *)

(** [T'] is [T] with tables made of the first pages of the free list *)
Definition grew (s : kstate) (l : list Z) (T : gmap pkey Z) (s' : kstate) (l' : list Z) (T' : gmap pkey Z) : Prop :=
  mem_step s s' /\ exists used, l = used ++ l' /\ tables T' ≡ₚ used ++ tables T /\ T ⊆ T' /\
    same_off (used ++ tables T) (m_bytes (k_mm s)) (m_bytes (k_mm s')).
Lemma grew_refl s l T : grew s l T s l T.
Proof. split; [apply mem_step_refl|]. exists []. split_and!; [done | done | done | apply same_off_refl]. Qed.
Lemma grew_trans s l T s1 l1 T1 s2 l2 T2 : grew s l T s1 l1 T1 -> grew s1 l1 T1 s2 l2 T2 -> grew s l T s2 l2 T2.
Proof.
  intros (M1 & u & -> & P1 & S1 & O1) (M2 & v & -> & P2 & S2 & O2). split; [by eapply mem_step_trans|]. exists (u ++ v).
  split_and!; [by rewrite app_assoc | rewrite P2, P1; by solve_Permutation | by etransitivity |].
  eapply same_off_trans; (eapply same_off_mono; [|eassumption]); [set_solver|]. intros x Hx. rewrite P1 in Hx. set_solver.
Qed.

Lemma free_list_off m l b ps : free_list m l -> same_off ps (m_bytes m) b -> Forall (page_ok (m_end m)) ps -> (forall p, p ∈ ps -> p ∉ l) ->
  free_list (set_m_bytes b m) l.
Proof.
  intros Hf Hs Hps Hd. pose proof Hf as (He & _ & Hl & _). apply free_list_frame; [done|]. intros q a Hq Ha. apply Hs. intros p Hp.
  rewrite Forall_forall in Hps, Hl. assert (q <> p) by (intros ->; by apply (Hd p Hp)).
  pose proof (page_disj _ _ _ (Hl q Hq) (Hps p Hp) H). unfold PGSIZE in *. lia.
Qed.

(** a table page from the free list *)
Lemma pworld_new_table m pg l pt T M lv k j p : pworld m (pg :: l) pt T M -> 0 < lv <= 2 -> T !! (lv, k) = Some p -> 0 <= j < 512 ->
  T !! (lv - 1, k * 512 + j) = None ->
  let b1 := memset (m_bytes (mm_alloc pg m)) pg 0 (Z.to_nat PGSIZE) in
  let b2 := st64 b1 (p + 8 * j) (table_pte pg) in
  pworld (set_m_bytes b2 (mm_alloc pg m)) l pt (<[(lv - 1, k * 512 + j) := pg]> T) M /\ same_off (pg :: tables T) (m_bytes m) b2.
Proof.
  intros Hw Hlv Hp Hj Hn b1 b2. pose proof (pw_free _ _ _ _ _ Hw) as Hf. pose proof (pw_kern _ _ _ _ _ Hw) as He.
  pose proof (pw_ok _ _ _ _ _ Hw) as Ho. pose proof (pw_nodup _ _ _ _ _ Hw) as Hnd. cbn [app] in Ho, Hnd.
  apply Forall_cons in Ho as [Hpg Ho]. apply NoDup_cons in Hnd as [Hni Hnd].
  assert (Hpt : p ∈ tables T) by (apply elem_tables; eauto). assert (Hne : p <> pg) by (intros ->; apply Hni; set_solver).
  assert (Hs1 : same_off [pg] (m_bytes m) b1).
  { unfold b1. eapply same_off_trans; [|apply same_off_memset; set_solver]. cbn. apply same_off_memset. set_solver. }
  assert (Hs2 : same_off (pg :: tables T) (m_bytes m) b2).
  { eapply same_off_trans; [eapply same_off_mono; [|exact Hs1]; set_solver|]. apply same_off_st64; [set_solver | lia | unfold PGSIZE; lia]. }
  assert (Hpp : page_ok (m_end m) p) by (by eapply pw_table). pose proof (page_disj _ _ _ Hpp Hpg Hne) as Hdj.
  assert (Hf2 : free_list (set_m_bytes b2 (mm_alloc pg m)) l).
  { eapply (free_list_off _ _ _ (pg :: tables T)); [by apply free_list_alloc | | |].
    - cbn. intros a Ha. rewrite Hs2 by done. rewrite ldb_memset, decide_False; [done|]. specialize (Ha pg ltac:(set_solver)). unfold PGSIZE in *. lia.
    - cbn. apply Forall_app in Ho as [_ Ho]. by constructor.
    - intros x Hx Hin. apply elem_of_cons in Hx as [->|Hx]; [apply Hni; set_solver|]. apply NoDup_app in Hnd as (_ & Hd & _). by apply (Hd x). }
  split; [|done]. assert (Hni' : forall k', T !! k' <> Some pg) by (intros k' H; apply Hni; apply elem_of_app; right; apply elem_tables; eauto).
  constructor; [done | | |].
  - cbn [m_bytes set_m_bytes]. eapply (ptable_new_table m l pt T M lv k j p pg b2); try done.
    + intros o Ho1 Ho2. unfold b2. rewrite ld64_st64_disj by (unfold PGSIZE in *; lia). by apply ld64_zeroed.
    + unfold b2. apply ld64_st64. apply (table_pte_fields pg). by eapply page_ok_phys.
    + intros k' q j' Hq Hj' Hd. unfold b2. rewrite ld64_st64_disj by exact (pw_disj _ _ _ _ _ Hw _ _ _ _ _ _ Hq Hp Hj' Hj Hd).
      eapply same_off_word; [exact Hs1 | apply Forall_singleton; exact Hpg | by eapply pw_table | | lia | unfold PGSIZE; lia].
      intros Hin%list_elem_of_singleton. subst. by apply (Hni' k').
  - cbn [m_end set_m_bytes mm_alloc set_m_freelist]. rewrite tables_insert by done. apply Forall_app in Ho as [Ho1 Ho2]. apply Forall_app. split; [done|]. by constructor.
  - rewrite tables_insert by done. rewrite <- Permutation_middle. by apply NoDup_cons.
Qed.

Section walk_alloc.
Context (h : hwstate) (Hok : hart_ok 1 h) (Hlk : lock_free h LKmem) (pt : Z) (M : gmap Z Z) (va : Z) (e : list (kstate -> kstate)).

(** a level: the table below is there, or made, unless there is no page left *)
Lemma wp_walk_level lv rest p l T s (Q : option Z -> list (kstate -> kstate) -> kstate -> Prop) :
  k_hw s ≈h h -> pworld (k_mm s) l pt T M -> 0 < lv <= 2 -> T !! (lv, key lv va) = Some p ->
  (forall s' l' T' p', grew s l T s' l' T' -> pworld (k_mm s') l' pt T' M -> T' !! (lv - 1, key (lv - 1) va) = Some p' ->
     (length l <= length l' + 1)%nat -> wp (walk_levels rest p' va true) e s' Q) ->
  (forall s', l = [] -> mem_step s s' -> k_mm s' = k_mm s -> Q None e s') ->
  wp (walk_levels (lv :: rest) p va true) e s Q.
Proof using Hok Hlk.
  intros Hh Hw Hlv Hp HQ HN. cbn [walk_levels]. pose proof (PX_range lv va ltac:(lia)) as Hx.
  destruct (walk_word _ _ _ _ _ lv va p Hw ltac:(lia) Hp) as [Hr _]. pose proof (walk_entry _ _ _ _ _ lv va p Hw ltac:(lia) Hp) as He. cbv zeta in He.
  unfold load64. rewrite Hr. wp_steps. destruct (T !! (lv - 1, key (lv - 1) va)) as [p'|] eqn:E.
  { destruct He as [-> ->]. eapply HQ; [apply grew_refl | done | done | lia]. }
  rewrite He. cbn [negb]. wp_step. symmetry in Hh.
  eapply (wp_kalloc s e l); [by eapply hart_ok_eqv | by eapply lock_free_eqv | apply (pw_free _ _ _ _ _ Hw) |].
  destruct l as [|pg l].
  { change (0 =? 0) with true. cbv iota. wp_step. apply HN; [done | | done]. exists (m_bytes (k_mm s)), (m_freelist (k_mm s)), (hw_crit (k_hw s)).
    split; [by destruct s as [? ? [] ? ?] | apply hw_crit_eqv]. }
  pose proof (pw_ok _ _ _ _ _ Hw) as Ho. apply Forall_cons in Ho as [Hpg _]. destruct (page_in_ram _ _ (pw_kern _ _ _ _ _ Hw) Hpg) as (Hpr & _ & Hz).
  replace (pg =? 0) with false by lia. unfold mem_set, store64, modify_bytes, modify_mm. rewrite Hpr, Hr. wp_steps.
  rewrite (key_split lv va) in E by lia. destruct (pworld_new_table _ _ _ _ _ _ _ _ _ _ Hw Hlv Hp Hx E) as [Hw' Hs'].
  match goal with |- wp _ _ ?x _ => set (s' := x) end.
  assert (Hm' : mem_step s s').
  { eexists _, _, _. split; [reflexivity | apply hw_crit_eqv]. }
  eapply (HQ s' l); [|exact Hw' | rewrite (key_split lv va) by lia; by apply lookup_insert_eq | cbn; lia].
  split; [done|]. exists [pg]. split_and!; [done | by rewrite tables_insert | by apply insert_subseteq | exact Hs'].
Qed.

(** the entry's address, or 0 when memory ran out *)
Lemma wp_walk_alloc l T s (Q : Z -> list (kstate -> kstate) -> kstate -> Prop) :
  k_hw s ≈h h -> pworld (k_mm s) l pt T M -> 0 <= va < MAXVA ->
  (forall s' l' T' p, grew s l T s' l' T' -> pworld (k_mm s') l' pt T' M -> T' !! (0, key 0 va) = Some p ->
     (length l <= length l' + 2)%nat -> Q (p + 8 * PX 0 va) e s') ->
  (forall s' T', grew s l T s' [] T' -> pworld (k_mm s') [] pt T' M -> (length l <= 1)%nat -> Q 0 e s') ->
  wp (walk pt va true) e s Q.
Proof using Hok Hlk.
  intros Hh Hw Hva HQ HN. unfold walk. replace (MAXVA <=? va) with false by lia. wp_step.
  assert (Hfail : forall s1 l1 T1 s2, grew s l T s1 l1 T1 -> pworld (k_mm s1) l1 pt T1 M -> (length l <= length l1 + 1)%nat -> l1 = [] -> mem_step s1 s2 -> k_mm s2 = k_mm s1 -> Q 0 e s2).
  { intros s1 l1 T1 s2 G1 W1 C1 -> M2 E2. apply (HN s2 T1); [|by rewrite E2 | done]. eapply grew_trans; [exact G1|]. split; [done|]. exists [].
    rewrite E2. split_and!; [done | done | done | apply same_off_refl]. }
  pose proof (pt_root _ _ _ _ (pw_pt _ _ _ _ _ Hw)) as Hr. rewrite <- (key_root va Hva) in Hr.
  eapply wp_walk_level; [done | done | lia | exact Hr | |].
  - intros s1 l1 T1 p1 G1 W1 E1 C1. change (2 - 1) with 1 in E1. eapply wp_walk_level; [| exact W1 | lia | exact E1 | |].
    + destruct G1 as [(b & f & h' & -> & Hh') _]. cbn. by rewrite Hh'.
    + intros s2 l2 T2 p2 G2 W2 E2 C2. cbn [walk_levels]. wp_steps. eapply HQ; [by eapply grew_trans | done | done | lia].
    + intros s2 El M2 Em. wp_step. by eapply (Hfail s1).
  - intros s2 El M2 Em. wp_step. eapply (Hfail s); [apply grew_refl | done | lia | done..].
Qed.
End walk_alloc.

(** ** Writing a leaf *)
Lemma same_off_in_table T k p b j x : T !! k = Some p -> 0 <= j < 512 -> same_off (tables T) b (st64 b (p + 8 * j) x).
Proof. intros Hp Hj. apply same_off_st64; [apply elem_tables; eauto | lia | unfold PGSIZE; lia]. Qed.

Lemma pworld_set_leaf m l pt T M M' k p j x : pworld m l pt T M -> T !! (0, k) = Some p -> 0 <= j < 512 -> 0 <= x < 2 ^ 64 ->
  (forall v, v <> k * 512 + j -> M' !! v = M !! v) -> default 0 (M' !! (k * 512 + j)) = x ->
  (forall pte, M' !! (k * 512 + j) = Some pte -> leaf pte) ->
  pworld (set_m_bytes (st64 (m_bytes m) (p + 8 * j) x) m) l pt T M'.
Proof.
  intros Hw Hp Hj Hx Hne Heq Hlf. pose proof Hw as [Hf [R1 R2 R3 R4] Ho Hnd]. constructor; [| |done|done].
  - eapply free_list_off; [done | by eapply same_off_in_table | by apply Forall_app in Ho as [_ Ho] |].
    intros q Hq%elem_tables. destruct Hq as [k' Hq]. by eapply pw_not_free.
  - constructor; [done | done | |].
    + cbn [m_bytes set_m_bytes]. intros lv k' q j' Hq Hj'. destruct (decide (((lv, k'), j') = ((0, k), j))) as [[= -> -> ->]|Hd].
      * rewrite Hp in Hq. injection Hq as <-. rewrite ld64_st64 by done. unfold slot. cbn [Z.eqb]. done.
      * rewrite ld64_st64_disj by exact (pw_disj _ _ _ _ _ Hw _ _ _ _ _ _ Hq Hp Hj' Hj Hd). rewrite (R3 _ _ _ _ Hq Hj'). unfold slot.
        destruct (Z.eqb_spec lv 0) as [->|]; [|done]. rewrite Hne; [done|]. intros E. apply Hd. assert (k' = k) as -> by lia. f_equal. lia.
    + intros v pte Hv. destruct (decide (v = k * 512 + j)) as [->|Hd].
      * split; [|by apply Hlf]. rewrite Z.div_add_l, (Z.div_small j), Z.add_0_r by lia. eauto.
      * rewrite Hne in Hv by done. by apply (R4 v).
Qed.
(** the entry the walk of [va] ends at *)
Lemma leaf_word m l pt T M va p : pworld m l pt T M -> T !! (0, key 0 va) = Some p ->
  in_ram (p + 8 * PX 0 va) 8 = true /\ ld64 (m_bytes m) (p + 8 * PX 0 va) = default 0 (M !! vpn va) /\ p + 8 * PX 0 va <> 0.
Proof.
  intros Hw Hp. destruct (walk_word _ _ _ _ _ 0 va p Hw ltac:(lia) Hp) as [Hr ->]. split_and!; [done | | by eapply in_ram_nonzero].
  change (0 - 1) with (-1). by rewrite key_vpn.
Qed.
Lemma vpn_split va : vpn va = key 0 va * 512 + PX 0 va.
Proof. rewrite <- key_vpn. by apply (key_split 0). Qed.
Lemma pworld_write_leaf m l pt T M va p x : pworld m l pt T M -> T !! (0, key 0 va) = Some p -> leaf x ->
  pworld (set_m_bytes (st64 (m_bytes m) (p + 8 * PX 0 va) x) m) l pt T (<[vpn va := x]> M).
Proof.
  intros Hw Hp Hx. eapply pworld_set_leaf; [done | done | by apply PX_range | apply Hx | | |]; rewrite <- vpn_split.
  - intros v Hv. by rewrite lookup_insert_ne.
  - by rewrite lookup_insert_eq.
  - intros pte. rewrite lookup_insert_eq. by intros [= <-].
Qed.
Lemma pworld_clear_leaf m l pt T M va p : pworld m l pt T M -> T !! (0, key 0 va) = Some p ->
  pworld (set_m_bytes (st64 (m_bytes m) (p + 8 * PX 0 va) 0) m) l pt T (delete (vpn va) M).
Proof.
  intros Hw Hp. eapply pworld_set_leaf; [done | done | by apply PX_range | lia | | |]; rewrite <- vpn_split.
  - intros v Hv. by rewrite lookup_delete_ne.
  - by rewrite lookup_delete_eq.
  - intros pte. by rewrite lookup_delete_eq.
Qed.

(** ** mappages *)

(** [n] pages from page number [v] on, mapped to consecutive physical pages *)
Fixpoint map_range (M : gmap Z Z) (v pa perm : Z) (n : nat) : gmap Z Z :=
  match n with
  | O => M
  | S n' => <[v + n' := leaf_pte (pa + n' * PGSIZE) perm]> (map_range M v pa perm n')
  end.
Lemma lookup_map_range M v pa perm (n : nat) x :
  map_range M v pa perm n !! x = if decide (v <= x < v + n) then Some (leaf_pte (pa + (x - v) * PGSIZE) perm) else M !! x.
Proof.
  induction n as [|n IH]; cbn [map_range]; [by rewrite decide_False by lia|].
  destruct (decide (x = v + n)) as [->|Hne].
  - rewrite lookup_insert_eq, decide_True by lia. do 3 f_equal. lia.
  - rewrite lookup_insert_ne, IH by done. destruct (decide (v <= x < v + n)); [by rewrite decide_True by lia | by rewrite decide_False by lia].
Qed.

Lemma vpn_add va k : vpn (va + k * PGSIZE) = vpn va + k.
Proof. unfold vpn. rewrite Z.div_add by done. done. Qed.
Lemma grew_write s l T s1 l1 T1 k p j x : grew s l T s1 l1 T1 -> T1 !! k = Some p -> 0 <= j < 512 ->
  grew s l T (with_bytes (st64 (m_bytes (k_mm s1)) (p + 8 * j) x) s1) l1 T1.
Proof.
  intros G Hp Hj. eapply grew_trans; [exact G|]. split; [apply mem_step_bytes|]. exists []. split_and!; [done | done | done |].
  by eapply same_off_in_table.
Qed.
Lemma grew_hw s l T s' l' T' h : grew s l T s' l' T' -> k_hw s ≈h h -> k_hw s' ≈h h.
Proof. intros [(b & f & h' & -> & Hh) _] H. cbn. by rewrite Hh. Qed.

Section mappages.
Context (h : hwstate) (Hok : hart_ok 1 h) (Hlk : lock_free h LKmem) (pt : Z) (M : gmap Z Z) (e : list (kstate -> kstate)).
Context (va size pa perm : Z) (s : kstate) (l : list Z) (T : gmap pkey Z).
Let a0 := PGROUNDDOWN va.
Let last := PGROUNDDOWN (va + size - 1).
(** the number of pages of the range *)
Definition range_pages : nat := S (Z.to_nat ((last - a0) / PGSIZE)).
Context (Hva : 0 <= va) (Hsize : 0 < size) (Hend : va + size <= MAXVA) (Hpa : phys_page pa) (Hpe : pa + range_pages * PGSIZE <= 2 ^ 54) (Hperm : leaf_perm perm).
Context (Hh : k_hw s ≈h h) (Hw : pworld (k_mm s) l pt T M).
Context (Hfree : forall i : nat, (i < range_pages)%nat -> M !! (vpn va + i) = None).

Lemma range_last : last = a0 + (Z.of_nat range_pages - 1) * PGSIZE /\ 0 <= a0 /\ last < MAXVA /\ vpn a0 = vpn va.
Proof using Hva Hsize Hend.
  unfold range_pages, last, a0. rewrite !PGROUNDDOWN_eq. unfold vpn, PGSIZE in *.
  pose proof (Z.div_mod va 4096 ltac:(lia)). pose proof (Z.div_mod (va + size - 1) 4096 ltac:(lia)).
  pose proof (Z.mod_pos_bound va 4096 ltac:(lia)). pose proof (Z.mod_pos_bound (va + size - 1) 4096 ltac:(lia)).
  replace (va + size - 1 - (va + size - 1) mod 4096 - (va - va mod 4096)) with (((va + size - 1) / 4096 - va / 4096) * 4096) by lia.
  rewrite Z.div_mul by lia. split_and!; try lia. replace (va - va mod 4096) with (va / 4096 * 4096) by lia. by rewrite Z.div_mul by lia.
Qed.

Definition map_inv (x : Z * Z) (e' : list (kstate -> kstate)) (s' : kstate) : Prop :=
  e' = e /\ exists (k : nat) l' T', (k < range_pages)%nat /\ (length l <= length l' + 2 * k)%nat /\ x = (a0 + k * PGSIZE, pa + k * PGSIZE) /\ grew s l T s' l' T' /\
    pworld (k_mm s') l' pt T' (map_range M (vpn va) pa perm k).

Lemma wp_mappages (Q : Z -> list (kstate -> kstate) -> kstate -> Prop) :
  (forall s' l' T', grew s l T s' l' T' -> pworld (k_mm s') l' pt T' (map_range M (vpn va) pa perm range_pages) ->
     (length l <= length l' + 2 * range_pages)%nat -> Q 0 e s') ->
  (forall s' T' k, (k < range_pages)%nat -> grew s l T s' [] T' -> pworld (k_mm s') [] pt T' (map_range M (vpn va) pa perm k) ->
     (length l < 2 * range_pages)%nat -> Q (-1) e s') ->
  wp (mappages pt va size pa perm) e s Q.
Proof using All.
  intros HQ HN. destruct range_last as (El & Ha & Hl & Hv). unfold mappages. replace (size =? 0) with false by lia.
  assert (HM : MAXVA = 2 ^ 38) by done. rewrite u64_small by lia. fold a0 last.
  assert (Hfuel : map_fuel a0 last = range_pages).
  { assert (1 <= range_pages)%nat by (unfold range_pages; lia). unfold map_fuel. replace (a0 <=? last) with true by (unfold PGSIZE in *; lia). done. }
  rewrite Hfuel.
  apply (wp_mloop _ map_inv (fun x => Z.to_nat ((last - x.1) / PGSIZE))).
  - unfold range_pages. cbn. lia.
  - split; [done|]. exists 0%nat, l, T. split_and!; [unfold range_pages; lia | lia | by rewrite !Z.add_0_r | apply grew_refl | done].
  - intros x e' s' (-> & k & l' & T' & Hk & Hc & -> & G & W).
    assert (Hak : 0 <= a0 + k * PGSIZE < MAXVA) by (unfold PGSIZE in *; lia).
    assert (Ev : vpn (a0 + k * PGSIZE) = vpn va + k) by (by rewrite vpn_add, Hv).
    wp_step. eapply (wp_walk_alloc h Hok Hlk); [by eapply grew_hw | exact W | exact Hak | |].
    + intros s1 l1 T1 p G1 W1 E1 C1. destruct (leaf_word _ _ _ _ _ _ _ W1 E1) as (Hr & Hword & Hnz).
      replace (p + 8 * PX 0 (a0 + k * PGSIZE) =? 0) with false by lia. unfold load64, store64, modify_bytes, modify_mm. rewrite Hr. wp_steps.
      rewrite Hword, Ev, lookup_map_range, decide_False, Hfree by lia. cbn [default from_option id].
      change (istrue (Z.land 0 PTE_V)) with false. cbv iota. wp_steps.
      match goal with |- wp _ _ ?x _ => set (s2 := x) end.
      assert (Hpk : phys_page (pa + k * PGSIZE)).
      { destruct Hpa as [Hp1 Hp2]. split; [by rewrite Z_mod_plus_full | unfold PGSIZE in *; lia]. }
      destruct (leaf_pte_fields _ _ Hpk Hperm) as (_ & F2 & F3 & _ & F5).
      assert (G2 : grew s l T s2 l1 T1) by (eapply grew_write; [by eapply grew_trans | exact E1 | by apply PX_range]).
      assert (W2 : pworld (k_mm s2) l1 pt T1 (map_range M (vpn va) pa perm (S k))).
      { cbn [map_range]. rewrite <- Ev. by apply pworld_write_leaf. }
      destruct (Z.eqb_spec (a0 + k * PGSIZE) last) as [E|E].
      * wp_step. assert (range_pages = S k) as Hr' by (unfold PGSIZE in *; lia). eapply HQ; [exact G2 | by rewrite Hr' | lia].
      * assert (S k < range_pages)%nat by (unfold PGSIZE in *; lia). wp_step. cbn [fst]. destruct Hpk as [_ Hpk]. unfold PGSIZE in *. rewrite !u64_small by lia. split.
        -- replace (last - (a0 + k * 4096 + 4096)) with ((Z.of_nat range_pages - 1 - k - 1) * 4096) by lia.
           replace (last - (a0 + k * 4096)) with ((Z.of_nat range_pages - 1 - k) * 4096) by lia. rewrite !Z.div_mul by lia. lia.
        -- split; [done|]. exists (S k), l1, T1. split_and!; [done | lia | unfold PGSIZE; apply f_equal2; lia | done | done].
    + intros s1 T1 G1 W1 C1. change (0 =? 0) with true. cbv iota. wp_step. eapply HN; [exact Hk | by eapply grew_trans | exact W1 | lia].
Qed.
End mappages.

(** a single page: nothing is mapped when it fails *)
Lemma wp_map_page h pt M e va pa perm s l T (Q : Z -> list (kstate -> kstate) -> kstate -> Prop) :
  hart_ok 1 h -> lock_free h LKmem -> va mod PGSIZE = 0 -> 0 <= va < MAXVA -> phys_page pa -> pa + PGSIZE <= 2 ^ 54 -> leaf_perm perm -> k_hw s ≈h h ->
  pworld (k_mm s) l pt T M -> M !! vpn va = None ->
  (forall s' l' T', grew s l T s' l' T' -> pworld (k_mm s') l' pt T' (<[vpn va := leaf_pte pa perm]> M) -> (length l <= length l' + 2)%nat -> Q 0 e s') ->
  (forall s' T', grew s l T s' [] T' -> pworld (k_mm s') [] pt T' M -> (length l <= 1)%nat -> Q (-1) e s') ->
  wp (mappages pt va PGSIZE pa perm) e s Q.
Proof.
  intros Hok Hlk Hm Hva Hpa Hpe Hperm Hh Hw Hfree HQ HN.
  assert (E0 : PGROUNDDOWN va = va) by (rewrite PGROUNDDOWN_eq; lia).
  assert (E1 : PGROUNDDOWN (va + PGSIZE - 1) = va).
  { rewrite <- E0. apply page_same. rewrite E0. unfold PGSIZE. lia. }
  assert (En : range_pages va PGSIZE = 1%nat) by (unfold range_pages; by rewrite E0, E1, Z.sub_diag).
  assert (Hend : va + PGSIZE <= MAXVA).
  { change MAXVA with (2 ^ 26 * PGSIZE) in *. apply Z.mod_divide in Hm as [q ->]; [|done]. unfold PGSIZE in *. lia. }
  eapply (wp_mappages h Hok Hlk pt M e va PGSIZE pa perm s l T); rewrite ?En; try done; try lia.
  - intros i Hi. by replace (vpn va + i) with (vpn va) by lia.
  - intros s' l' T' G W C. eapply HQ; [exact G | | exact C]. cbn [map_range] in W. by rewrite !Z.add_0_r in W.
  - intros s' T' k Hk G W C. assert (k = 0%nat) as -> by lia. apply (HN s' T'); [done | done | lia].
Qed.

(** ** uvmunmap *)
Fixpoint unmap_range (M : gmap Z Z) (v : Z) (n : nat) : gmap Z Z :=
  match n with O => M | S n' => delete (v + n') (unmap_range M v n') end.
Lemma lookup_unmap_range M v (n : nat) x : unmap_range M v n !! x = if decide (v <= x < v + n) then None else M !! x.
Proof.
  induction n as [|n IH]; cbn [unmap_range]; [by rewrite decide_False by lia|].
  destruct (decide (x = v + n)) as [->|Hne].
  - by rewrite lookup_delete_eq, decide_True by lia.
  - rewrite lookup_delete_ne, IH by done. destruct (decide (v <= x < v + n)); [by rewrite decide_True by lia | by rewrite decide_False by lia].
Qed.
(** the physical pages of a range of page numbers *)
Definition range_pas (M : gmap Z Z) (v : Z) (n : nat) : list Z := (fun i : nat => PTE2PA (default 0 (M !! (v + i)))) <$> seq 0 n.
Lemma length_range_pas M v n : length (range_pas M v n) = n.
Proof. unfold range_pas. by rewrite length_fmap, length_seq. Qed.
Lemma lookup_range_pas M v n i : (i < n)%nat -> range_pas M v n !! i = Some (PTE2PA (default 0 (M !! (v + i)))).
Proof. intros Hi. unfold range_pas. by rewrite list_lookup_fmap, lookup_seq_lt. Qed.
Lemma range_pas_ext M M' v n : (forall i : nat, (i < n)%nat -> M' !! (v + i) = M !! (v + i)) -> range_pas M' v n = range_pas M v n.
Proof. intros H. apply list_fmap_ext. intros i x Hx. apply lookup_seq in Hx as [-> Hi]. cbn [Nat.add]. by rewrite H. Qed.
Lemma range_pas_S M v n : range_pas M v (S n) = range_pas M v n ++ [PTE2PA (default 0 (M !! (v + n)))].
Proof. unfold range_pas. by rewrite seq_S, fmap_app. Qed.

Lemma pworld_free m l pt T M pa : pworld m l pt T M -> page_ok (m_end m) pa -> pa ∉ l ++ tables T ->
  pworld (mm_free pa m) (pa :: l) pt T M /\ same_off [pa] (m_bytes m) (m_bytes (mm_free pa m)).
Proof.
  intros Hw Hpa Hni. assert (Hs : same_off [pa] (m_bytes m) (m_bytes (mm_free pa m))).
  { cbn. eapply (same_off_trans _ _ (memset (m_bytes m) pa 1 (Z.to_nat PGSIZE))); [apply same_off_memset; set_solver|]. pose proof (same_off_st64 [pa] (memset (m_bytes m) pa 1 (Z.to_nat PGSIZE)) pa 0) as H.
    rewrite Z.add_0_r in H. apply H; [set_solver | lia | unfold PGSIZE; lia]. }
  split; [|done]. pose proof (pw_free _ _ _ _ _ Hw) as Hf. pose proof (pw_ok _ _ _ _ _ Hw) as Ho. apply Forall_app in Ho as [Ho _].
  eapply (pworld_frame m l pt T M Hw [pa]); [| exact Hs | | | |].
  - apply free_list_free; [done | done | set_solver | by eapply free_list_head].
  - by apply Forall_singleton.
  - set_solver.
  - by constructor.
  - cbn [app]. apply NoDup_cons. split; [done | apply (pw_nodup _ _ _ _ _ Hw)].
Qed.

Section unmap.
Context (h : hwstate) (Hok : hart_ok 1 h) (Hlk : lock_free h LKmem) (pt : Z) (M : gmap Z Z) (e : list (kstate -> kstate)).
Context (va : Z) (n : nat) (do_free : bool) (s : kstate) (l : list Z) (T : gmap pkey Z).
Let pas := range_pas M (vpn va) n.
Context (Hal : va mod PGSIZE = 0) (Hva : 0 <= va) (Hend : va + n * PGSIZE <= MAXVA).
Context (Hh : k_hw s ≈h h) (Hw : pworld (k_mm s) l pt T M) (Hmap : forall i : nat, (i < n)%nat -> is_Some (M !! (vpn va + i))).
Context (Hown : do_free = true -> Forall (page_ok (m_end (k_mm s))) pas /\ NoDup (pas ++ l ++ tables T)).

Definition freed (k : nat) : list Z := if do_free then rev (take k pas) ++ l else l.
Definition unmapped (k : nat) (s' : kstate) : Prop :=
  mem_step s s' /\ pworld (k_mm s') (freed k) pt T (unmap_range M (vpn va) k) /\
  same_off ((if do_free then take k pas else []) ++ tables T) (m_bytes (k_mm s)) (m_bytes (k_mm s')).
Definition unmap_inv (a : Z) (e' : list (kstate -> kstate)) (s' : kstate) : Prop :=
  e' = e /\ exists k : nat, (k <= n)%nat /\ a = va + k * PGSIZE /\ unmapped k s'.

(** the page is freed, when that is asked for *)
Lemma unmap_free k s' (Q : unit -> list (kstate -> kstate) -> kstate -> Prop) : (k < n)%nat -> unmapped k s' ->
  (forall s1, mem_step s s1 -> pworld (k_mm s1) (freed (S k)) pt T (unmap_range M (vpn va) k) ->
     same_off ((if do_free then take (S k) pas else []) ++ tables T) (m_bytes (k_mm s)) (m_bytes (k_mm s1)) -> Q tt e s1) ->
  wp (when do_free (kfree (PTE2PA (default 0 (M !! (vpn va + k)))))) e s' Q.
Proof using All.
  intros Hk (Hm & W & Hs) HQ. unfold freed in *. apply wp_when; intros Ed; rewrite Ed in *.
  - destruct (Hown eq_refl) as [Hpk Hnd]. set (pa := PTE2PA _). assert (Hpa : pas !! k = Some pa) by (by apply lookup_range_pas).
    rewrite (take_S_r _ _ _ Hpa) in *. destruct Hm as (b & f & h' & -> & Hh').
    assert (Hni : pa ∉ (rev (take k pas) ++ l) ++ tables T).
    { rewrite <- (take_drop_middle _ _ _ Hpa) in Hnd. rewrite <- app_assoc in Hnd. cbn in Hnd. rewrite (Permutation_app_comm (take k pas)) in Hnd.
      cbn in Hnd. apply NoDup_cons in Hnd as [Hni _]. intros Hin. apply Hni. rewrite <- (Permutation_rev (take k pas)), !elem_of_app in Hin.
      rewrite !elem_of_app. tauto. }
    assert (Hpo : page_ok (m_end (k_mm s)) pa) by (by eapply Forall_lookup_1).
    destruct (pworld_free _ _ _ _ _ pa W Hpo Hni) as [W' Hs'].
    eapply wp_kfree; [| | apply (pw_free _ _ _ _ _ W) | done |].
    + cbn. eapply hart_ok_eqv; [|exact Hok]. by rewrite Hh'.
    + cbn. eapply lock_free_eqv; [|exact Hlk]. by rewrite Hh'.
    + apply HQ.
      * eexists _, _, _. split; [reflexivity|]. etransitivity; [apply hw_crit_eqv | exact Hh'].
      * rewrite rev_app_distr. exact W'.
      * eapply same_off_trans; [eapply same_off_mono; [|exact Hs]; set_solver|]. eapply same_off_mono; [|exact Hs']. set_solver.
  - by apply HQ.
Qed.

Lemma wp_uvmunmap (Q : unit -> list (kstate -> kstate) -> kstate -> Prop) :
  (forall s', unmapped n s' -> Q tt e s') -> wp (uvmunmap pt va n do_free) e s Q.
Proof using All.
  intros HQ. unfold uvmunmap. rewrite Hal. cbn [negb Z.eqb]. assert (HM : MAXVA = 2 ^ 38) by done.
  rewrite u64_small by (unfold PGSIZE in *; lia). rewrite Nat2Z.id.
  apply (wp_mloop _ unmap_inv (fun a => Z.to_nat ((va + n * PGSIZE - a) / PGSIZE))).
  - replace (va + n * PGSIZE - va) with (n * PGSIZE) by lia. rewrite Z.div_mul by done. lia.
  - split; [done|]. exists 0%nat. split_and!; [lia | lia |]. split_and!; [apply mem_step_refl | unfold freed; by destruct do_free | apply same_off_refl].
  - intros a e' s' (-> & k & Hk & -> & Hu). destruct (Z.leb_spec (va + n * PGSIZE) (va + k * PGSIZE)) as [Hle|Hlt].
    { wp_step. apply HQ. assert (k = n) as -> by (unfold PGSIZE in *; lia). done. }
    assert (Hkn : (k < n)%nat) by (unfold PGSIZE in *; lia). pose proof Hu as (_ & W & _). destruct (Hmap k Hkn) as [pte Hpte].
    assert (Ev : vpn (va + k * PGSIZE) = vpn va + k) by apply vpn_add.
    assert (Hpu : unmap_range M (vpn va) k !! vpn (va + k * PGSIZE) = Some pte) by (rewrite Ev, lookup_unmap_range, decide_False by lia; done).
    destruct (pt_leaf _ _ _ _ (pw_pt _ _ _ _ _ W) _ _ Hpu) as [[p Hp] (L1 & L2 & L3)].
    assert (Hkey : vpn (va + k * PGSIZE) / 512 = key 0 (va + k * PGSIZE)).
    { rewrite <- key_vpn. symmetry. by apply (key_up 0). }
    rewrite Hkey in Hp. wp_step. eapply wp_walk_find; [exact W | unfold PGSIZE in *; lia|]. unfold found. rewrite Hp. cbn [from_option].
    destruct (leaf_word _ _ _ _ _ _ _ W Hp) as (Hr & Hword & Hnz). replace (p + _ =? 0) with false by lia.
    unfold load64. rewrite Hr. wp_steps. rewrite Hword, Hpu. change (default 0 (Some pte)) with pte.
    assert (L2' : (Z.land pte PTE_V =? 0) = false) by (unfold istrue in L2; by destruct (Z.land pte PTE_V =? 0)).
    rewrite L2', (proj2 (Z.eqb_neq _ _) L3). wp_step.
    replace (PTE2PA pte) with (PTE2PA (default 0 (M !! (vpn va + k)))) by (by rewrite Hpte).
    eapply unmap_free; [done | done |]. intros s1 Hm1 W1 Hs1. destruct (leaf_word _ _ _ _ _ _ _ W1 Hp) as (Hr1 & _).
    unfold store64, modify_bytes, modify_mm. rewrite Hr1. wp_steps. rewrite u64_small by (unfold PGSIZE in *; lia). split.
    { replace (va + n * PGSIZE - (va + k * PGSIZE)) with ((Z.of_nat n - k) * PGSIZE) by lia.
      replace (va + n * PGSIZE - (va + k * PGSIZE + PGSIZE)) with ((Z.of_nat n - k - 1) * PGSIZE) by (unfold PGSIZE; lia). rewrite !Z.div_mul by done. lia. }
    split; [done|]. exists (S k). split_and!; [done | unfold PGSIZE; lia |]. split_and!.
    + eapply mem_step_trans; [exact Hm1 | apply mem_step_bytes].
    + cbn [unmap_range]. rewrite <- Ev. by apply pworld_clear_leaf.
    + eapply same_off_trans; [exact Hs1|]. eapply same_off_mono; [|eapply same_off_in_table; [exact Hp | by apply PX_range]]. set_solver.
Qed.
End unmap.

(** ** The user's view *)

(** the translation the hardware and [walkaddr] do is the lookup *)
Lemma translate_pworld m l pt T M va : pworld m l pt T M -> 0 <= va < MAXVA ->
  translate (m_bytes m) pt va = (pte ← M !! vpn va; if istrue (Z.land pte PTE_U) then Some (PTE2PA pte) else None) /\
  forall w, w ∈ path_words (m_bytes m) pt va -> exists x p j, T !! x = Some p /\ 0 <= j < 512 /\ w = p + 8 * j.
Proof.
  intros Hw Hva. pose proof (pt_root _ _ _ _ (pw_pt _ _ _ _ _ Hw)) as Hr. rewrite <- (key_root va Hva) in Hr. unfold translate, path_words.
  replace (MAXVA <=? va) with false by lia. cbn [tr_levels tr_words].
  assert (Hwd : forall lv q, 0 <= lv -> T !! (lv, key lv va) = Some q -> exists x p j, T !! x = Some p /\ 0 <= j < 512 /\ q + 8 * PX lv va = p + 8 * j).
  { intros lv q Hl Hq. exists (lv, key lv va), q, (PX lv va). split; [done|]. split; [by apply PX_range | done]. }
  pose proof (Hwd 2 pt ltac:(lia) Hr) as Hw2.
  pose proof (walk_entry _ _ _ _ _ 2 va pt Hw ltac:(lia) Hr) as H2. cbv zeta in H2. change (2 - 1) with 1 in H2.
  assert (Hnone : T !! (0, key 0 va) = None -> M !! vpn va = None).
  { intros Hn. destruct (M !! vpn va) as [pte|] eqn:E; [|done]. destruct (pt_leaf _ _ _ _ (pw_pt _ _ _ _ _ Hw) _ _ E) as [[p Hp] _].
    rewrite <- key_vpn in Hp. pose proof (key_up 0 va ltac:(lia)) as Hk. change (0 - 1) with (-1) in Hk. rewrite <- Hk in Hp. congruence. }
  destruct (T !! (1, key 1 va)) as [p1|] eqn:E1.
  - destruct H2 as [-> ->]. pose proof (walk_entry _ _ _ _ _ 1 va p1 Hw ltac:(lia) E1) as H1. cbv zeta in H1. change (1 - 1) with 0 in H1.
    pose proof (Hwd 1 p1 ltac:(lia) E1) as Hw1.
    destruct (T !! (0, key 0 va)) as [p0|] eqn:E0.
    + destruct H1 as [-> ->]. destruct (leaf_word _ _ _ _ _ _ _ Hw E0) as (_ & -> & _). split.
      * destruct (M !! vpn va) as [pte|] eqn:EM; [|done]. destruct (pt_leaf _ _ _ _ (pw_pt _ _ _ _ _ Hw) _ _ EM) as [_ (_ & L2 & _)]. cbn. by rewrite L2.
      * intros w Hin. repeat (apply elem_of_cons in Hin as [->|Hin]); [done | done | | by apply not_elem_of_nil in Hin].
        by apply Hwd.
    + rewrite H1. split; [by rewrite Hnone|]. intros w Hin. repeat (apply elem_of_cons in Hin as [->|Hin]); [done | done | by apply not_elem_of_nil in Hin].
  - rewrite H2. split; [|intros w Hin; repeat (apply elem_of_cons in Hin as [->|Hin]); [done | by apply not_elem_of_nil in Hin]].
    rewrite Hnone; [done|]. destruct (T !! (0, key 0 va)) as [q|] eqn:E; [|done].
    destruct (pt_level _ _ _ _ (pw_pt _ _ _ _ _ Hw) _ _ _ E) as [[_ [x Hx]]|[? _]]; [|lia]. change (0 + 1) with 1 in Hx.
    pose proof (key_up 1 va ltac:(lia)) as Hk. change (1 - 1) with 0 in Hk. rewrite <- Hk in Hx. congruence.
Qed.

(** ** The invariant, executable *)
#[export] Instance page_ok_dec endp pa : Decision (page_ok endp pa).
Proof. unfold page_ok. apply _. Defined.
Definition keyb (T : gmap pkey Z) (lv k : Z) : bool :=
  ((0 <=? lv) && (lv <? 2) && bool_decide (is_Some (T !! (lv + 1, k / 512)))) || ((lv =? 2) && (k =? 0)).
Definition leafb (pte : Z) : bool := (0 <=? pte) && (pte <? 2 ^ 64) && istrue (Z.land pte PTE_V) && negb (PTE_FLAGS pte =? PTE_V).
Definition ptableb (b : gmap Z Z) (pt : Z) (T : gmap pkey Z) (M : gmap Z Z) : bool :=
  bool_decide (T !! (2, 0) = Some pt) &&
  forallb (fun x => keyb T x.1.1 x.1.2 && forallb (fun j => ld64 b (x.2 + 8 * j) =? slot T M x.1.1 (x.1.2 * 512 + j)) (seqZ 0 512)) (map_to_list T) &&
  forallb (fun x => bool_decide (is_Some (T !! (0, x.1 / 512))) && leafb x.2) (map_to_list M).
Lemma ptableb_sound b pt T M : ptableb b pt T M = true -> ptable b pt T M.
Proof.
  unfold ptableb. intros [[H1%bool_decide_eq_true H2]%andb_true_iff H3]%andb_true_iff. rewrite forallb_forall in H2, H3.
  assert (HT : forall lv k p, T !! (lv, k) = Some p -> keyb T lv k = true /\ forall j, 0 <= j < 512 -> ld64 b (p + 8 * j) = slot T M lv (k * 512 + j)).
  { intros lv k p Hx. specialize (H2 ((lv, k), p)). cbn in H2. rewrite <- list_elem_of_In, elem_of_map_to_list in H2.
    apply H2 in Hx as [Hk Hw]%andb_true_iff. split; [done|]. rewrite forallb_forall in Hw. intros j Hj. apply Z.eqb_eq, Hw.
    rewrite <- list_elem_of_In. apply elem_of_seqZ. lia. }
  constructor; [done | | |].
  - intros lv k p Hx. destruct (HT _ _ _ Hx) as [Hk _]. unfold keyb in Hk. apply orb_true_iff in Hk as [Hk|Hk]; apply andb_true_iff in Hk as [Ha Hb].
    + left. apply bool_decide_eq_true in Hb. apply andb_true_iff in Ha as [?%Z.leb_le ?%Z.ltb_lt]. done.
    + right. apply Z.eqb_eq in Ha, Hb. done.
  - intros lv k p j Hx Hj. by apply HT.
  - intros v pte Hx. specialize (H3 (v, pte)). rewrite <- list_elem_of_In, elem_of_map_to_list in H3. apply H3 in Hx as [Hk Hl]%andb_true_iff. cbn in *.
    apply bool_decide_eq_true in Hk. split; [done|]. unfold leafb in Hl. apply andb_true_iff in Hl as [Hl L4%negb_true_iff%Z.eqb_neq].
    apply andb_true_iff in Hl as [Hl L3]. apply andb_true_iff in Hl as [L1%Z.leb_le L2%Z.ltb_lt].
    by split_and!.
Qed.
