(* ===== verification/Uvm.v ===== *)
(** User address spaces (vm.c: [uvmalloc], [uvmdealloc], [uvmcopy], [uvmfree];
    proc.c: [proc_pagetable], [proc_freepagetable]).

    Over the finite-map view of page tables of Ptable.v: growing and shrinking a
    process, copying its memory for [fork] and giving everything back.  Every theorem
    accounts for the pages: what is taken from the free list is in the page table or
    mapped by it, and what fails half way is undone. *)
From S2P Require Import Prelude State Spinlock Queue Boot Cstring Kalloc Vm Uspace Ptable.

(** ** Sizes in pages *)
Definition pgs (sz : Z) : nat := Z.to_nat (PGROUNDUP sz / PGSIZE).
Lemma pgs_bounds sz : 0 <= sz <= MAXVA -> PGROUNDUP sz = pgs sz * PGSIZE /\ sz <= pgs sz * PGSIZE < sz + PGSIZE /\ pgs sz * PGSIZE <= MAXVA.
Proof.
  change MAXVA with (2 ^ 26 * PGSIZE). intros H. unfold pgs. rewrite PGROUNDUP_eq by (unfold PGSIZE in *; lia). unfold PGSIZE in *.
  set (x := sz + 4096 - 1). pose proof (Z.div_mod x 4096 ltac:(lia)). pose proof (Z.mod_pos_bound x 4096 ltac:(lia)).
  replace (x - x mod 4096) with (x / 4096 * 4096) by lia. rewrite Z.div_mul by lia. assert (0 <= x / 4096) by (apply Z.div_pos; lia). unfold x in *. lia.
Qed.
Lemma pgs_mono sz sz' : 0 <= sz -> sz <= sz' -> sz' <= MAXVA -> (pgs sz <= pgs sz')%nat.
Proof.
  intros H0 H H1. destruct (pgs_bounds sz ltac:(lia)) as (_ & B1 & _). destruct (pgs_bounds sz' ltac:(lia)) as (_ & B2 & _). unfold PGSIZE in *. lia.
Qed.
Lemma vpn_page (k : Z) : vpn (k * PGSIZE) = k.
Proof. unfold vpn. by apply Z.div_mul. Qed.

(** ** An address space of [n] pages *)
Record uvm (m : memory) (l : list Z) (pt : Z) (T : gmap pkey Z) (M : gmap Z Z) (n : nat) : Prop := {
  uv_world : pworld m l pt T M;
  uv_map : forall i : nat, (i < n)%nat -> is_Some (M !! Z.of_nat i);
  uv_ok : Forall (page_ok (m_end m)) (range_pas M 0 n);
  uv_nodup : NoDup (range_pas M 0 n ++ l ++ tables T)
}.

(** bytes of a page that is not touched *)
Lemma page_kept endp ps b b' q o : same_off ps b b' -> Forall (page_ok endp) ps -> page_ok endp q -> q ∉ ps -> 0 <= o < PGSIZE ->
  ldb b' (q + o) = ldb b (q + o).
Proof.
  intros Hs Hps Hq Hni Ho. apply Hs. intros p Hp. rewrite Forall_forall in Hps. assert (q <> p) by (intros ->; done).
  pose proof (page_disj _ _ _ Hq (Hps p Hp) H). lia.
Qed.
Lemma mem_step_end s s' : mem_step s s' -> m_end (k_mm s') = m_end (k_mm s).
Proof. by intros (b & f & h & -> & _). Qed.
Lemma mem_step_hw s s' h : mem_step s s' -> k_hw s ≈h h -> k_hw s' ≈h h.
Proof. intros (b & f & h' & -> & Hh) H. cbn. by rewrite Hh. Qed.

Lemma range_pas_app M v n k : range_pas M v (n + k) = range_pas M v n ++ range_pas M (v + n) k.
Proof.
  unfold range_pas. rewrite seq_app, fmap_app. f_equal. rewrite <- (Nat.add_0_r (0 + n)), <- fmap_add_seq, <- list_fmap_compose.
  apply list_fmap_ext. intros i x _. unfold compose. do 3 f_equal. lia.
Qed.

Lemma range_pas_snoc M v (k : nat) p perm : phys_page p -> leaf_perm perm ->
  range_pas (<[v + k := leaf_pte p perm]> M) v (S k) = range_pas M v k ++ [p].
Proof.
  intros Hp Hperm. rewrite range_pas_S, lookup_insert_eq. cbn [default from_option id]. rewrite (proj1 (leaf_pte_fields p perm Hp Hperm)).
  f_equal. apply range_pas_ext. intros i Hi. by rewrite lookup_insert_ne by lia.
Qed.

(** ** uvmdealloc *)
Section dealloc.
Context (h : hwstate) (Hok : hart_ok 1 h) (Hlk : lock_free h LKmem) (pt : Z) (e : list (kstate -> kstate)).

Lemma wp_uvmdealloc oldsz newsz s l T M (Q : Z -> list (kstate -> kstate) -> kstate -> Prop) :
  k_hw s ≈h h -> 0 <= newsz <= oldsz -> oldsz <= MAXVA -> uvm (k_mm s) l pt T M (pgs oldsz) ->
  let gone := range_pas M (pgs newsz) (pgs oldsz - pgs newsz) in
  (forall s', mem_step s s' -> uvm (k_mm s') (rev gone ++ l) pt T (unmap_range M (pgs newsz) (pgs oldsz - pgs newsz)) (pgs newsz) ->
     same_off (gone ++ tables T) (m_bytes (k_mm s)) (m_bytes (k_mm s')) -> Q newsz e s') ->
  wp (uvmdealloc pt oldsz newsz) e s Q.
Proof using Hok Hlk.
  intros Hh H0 H1 Hu gone HQ. unfold uvmdealloc. pose proof Hu as [W Hmap Hpo Hnd].
  destruct (pgs_bounds oldsz ltac:(lia)) as (Eo & Bo & Bo'). destruct (pgs_bounds newsz ltac:(lia)) as (En & Bn & Bn').
  pose proof (pgs_mono newsz oldsz ltac:(lia) ltac:(lia) ltac:(lia)) as Hle. set (n := pgs oldsz) in *. set (k := pgs newsz) in *.
  assert (Hsplit : range_pas M 0 n = range_pas M 0 k ++ gone).
  { unfold gone. replace n with (k + (n - k))%nat at 1 by lia. rewrite range_pas_app. done. }
  assert (Hsame : oldsz = newsz \/ n = k -> Q newsz e s).
  { intros Heq. assert (Ek : n = k) by (destruct Heq as [E|]; [subst n k; by rewrite E | done]). apply HQ; unfold gone; rewrite ?Ek, ?Nat.sub_diag.
    - apply mem_step_refl.
    - cbn. by rewrite <- Ek.
    - apply same_off_refl. }
  destruct (Z.leb_spec oldsz newsz); [assert (oldsz = newsz) as E by lia; wp_step; rewrite E; apply Hsame; by left|].
  rewrite Eo, En. wp_step. apply wp_when; intros Hlt; [|wp_step; apply Hsame; right; apply Z.ltb_ge in Hlt; unfold PGSIZE in *; lia].
  apply Z.ltb_lt in Hlt. assert (HM : MAXVA = 2 ^ 26 * 4096) by done.
  replace (n * PGSIZE - k * PGSIZE) with (Z.of_nat (n - k) * PGSIZE) by (unfold PGSIZE in *; lia). rewrite Z.div_mul by done.
  rewrite s32_small, u64_small by (unfold PGSIZE in *; lia).
  eapply (wp_uvmunmap h Hok Hlk pt M e (k * PGSIZE) (n - k) true s l T); rewrite ?vpn_page; try done.
  - by apply Z_mod_mult.
  - unfold PGSIZE. lia.
  - unfold PGSIZE in *. lia.
  - intros i Hi. replace (Z.of_nat k + i) with (Z.of_nat (k + i)) by lia. apply Hmap. lia.
  - intros _. fold gone. rewrite Hsplit in Hpo, Hnd. split; [by apply Forall_app in Hpo as [_ ?]|].
    rewrite <- app_assoc in Hnd. by apply NoDup_app in Hnd as (_ & _ & ?).
  - intros s' (Hm & W' & Hs'). unfold freed in *. rewrite vpn_page in *. fold gone in W', Hs'.
    rewrite take_ge in W', Hs' by (unfold gone; rewrite length_range_pas; lia). wp_step. apply HQ; [done | | done].
    assert (Hext : range_pas (unmap_range M k (n - k)) 0 k = range_pas M 0 k).
    { apply range_pas_ext. intros i Hi. by rewrite lookup_unmap_range, decide_False by lia. }
    constructor; [done | | |]; rewrite ?Hext.
    + intros i Hi. rewrite lookup_unmap_range, decide_False by lia. apply Hmap. lia.
    + rewrite (mem_step_end _ _ Hm). rewrite Hsplit in Hpo. by apply Forall_app in Hpo as [? _].
    + rewrite Hsplit in Hnd. rewrite <- (Permutation_rev gone). by rewrite <- !app_assoc in *.
Qed.
End dealloc.

(** ** uvmalloc *)
Definition filled (b : gmap Z Z) (p : Z) (f : Z -> Z) : Prop := forall o, 0 <= o < PGSIZE -> ldb b (p + o) = f o.

Section alloc.
Context (h : hwstate) (Hok : hart_ok 1 h) (Hlk : lock_free h LKmem) (pt : Z) (e : list (kstate -> kstate)).

(** what growing from [n0] pages on has done *)
Record grown (perm : nat -> Z) (fill : nat -> Z -> Z) (s : kstate) (l : list Z) (T : gmap pkey Z) (M : gmap Z Z) (n0 k : nat)
    (s' : kstate) (l' : list Z) (T' : gmap pkey Z) (M' : gmap Z Z) : Prop := {
  gr_step : mem_step s s';
  gr_uvm : uvm (k_mm s') l' pt T' M' k;
  gr_old : forall v, v < n0 \/ k <= v -> M' !! v = M !! v;
  gr_new : forall i : nat, (n0 <= i < k)%nat -> leaf_perm (perm i) /\ exists p, M' !! Z.of_nat i = Some (leaf_pte p (perm i)) /\
    phys_page p /\ filled (m_bytes (k_mm s')) p (fill i);
  gr_pages : range_pas M' n0 (k - n0) ++ l' ++ tables T' ≡ₚ l ++ tables T;
  gr_tables : T ⊆ T';
  gr_off : same_off (l ++ tables T) (m_bytes (k_mm s)) (m_bytes (k_mm s'))
}.

(** a page of contents that are ready is added at the end *)
Lemma wp_add_page (k : nat) p perm s l T M (Q : Z -> list (kstate -> kstate) -> kstate -> Prop) :
  k_hw s ≈h h -> uvm (k_mm s) l pt T M k -> page_ok (m_end (k_mm s)) p -> p ∉ range_pas M 0 k ++ l ++ tables T -> leaf_perm perm ->
  M !! Z.of_nat k = None -> k * PGSIZE < MAXVA ->
  (forall s' l' T', grew s l T s' l' T' -> uvm (k_mm s') l' pt T' (<[Z.of_nat k := leaf_pte p perm]> M) (S k) ->
     (length l <= length l' + 2)%nat -> Q 0 e s') ->
  (forall s' T', grew s l T s' [] T' -> uvm (k_mm s') [] pt T' M k -> (length l <= 1)%nat -> Q (-1) e s') ->
  wp (mappages pt (k * PGSIZE) PGSIZE p perm) e s Q.
Proof using Hok Hlk.
  intros Hh [W Hmap Hpo Hnd] Hp Hni Hperm Hnone Hmax HQ HN. pose proof (page_ok_phys _ _ (pw_kern _ _ _ _ _ W) Hp) as Hpp.
  assert (Hpp' : p + PGSIZE <= 2 ^ 54) by (destruct Hp as [_ Hp]; unfold PHYSTOP, KERNBASE, PGSIZE in *; lia).
  assert (Hgrow : forall s' l' T', grew s l T s' l' T' -> m_end (k_mm s') = m_end (k_mm s) /\ l' ++ tables T' ≡ₚ l ++ tables T).
  { intros s' l' T' (Hm & u & -> & Hperm' & _). split; [by apply mem_step_end|]. rewrite Hperm'. solve_Permutation. }
  eapply (wp_map_page h pt M e (k * PGSIZE) p perm s l T); rewrite ?vpn_page; try done.
  - by apply Z_mod_mult.
  - unfold PGSIZE in *. lia.
  - intros s' l' T' G W' C. destruct (Hgrow _ _ _ G) as [Ee Hpm]. apply (HQ s' l' T' G); [|done].
    pose proof (range_pas_snoc M 0 k p perm Hpp Hperm) as Er. rewrite Z.add_0_l in Er.
    constructor; [done | | |]; rewrite ?Er, ?Ee.
    + intros i Hi. destruct (decide (i = k)) as [->|]; [rewrite lookup_insert_eq; eauto|]. rewrite lookup_insert_ne by lia. apply Hmap. lia.
    + apply Forall_app. split; [done | by apply Forall_singleton].
    + rewrite Hpm, <- app_assoc. cbn. rewrite <- Permutation_middle. by apply NoDup_cons.
  - intros s' T' G W' C. destruct (Hgrow _ _ _ G) as [Ee Hpm]. apply (HN s' T' G); [|done]. constructor; [done | done | by rewrite Ee |]. rewrite Hpm. done.
Qed.
(** a page goes back to the free list *)
Lemma wp_give_back p s l T M k (Q : unit -> list (kstate -> kstate) -> kstate -> Prop) :
  k_hw s ≈h h -> uvm (k_mm s) l pt T M k -> page_ok (m_end (k_mm s)) p -> p ∉ range_pas M 0 k ++ l ++ tables T ->
  (forall s', mem_step s s' -> uvm (k_mm s') (p :: l) pt T M k -> same_off [p] (m_bytes (k_mm s)) (m_bytes (k_mm s')) -> Q tt e s') ->
  wp (kfree p) e s Q.
Proof using Hok Hlk.
  intros Hh [W Hmap Hpo Hnd] Hp Hni HQ. symmetry in Hh. destruct (pworld_free _ _ _ _ _ p W Hp ltac:(set_solver)) as [W' Hs'].
  eapply (wp_kfree s e l); [by eapply hart_ok_eqv | by eapply lock_free_eqv | apply (pw_free _ _ _ _ _ W) | done |].
  apply HQ; [|constructor; try done|done].
  - eexists _, _, _. split; [reflexivity | apply hw_crit_eqv].
  - cbn [app]. rewrite <- Permutation_middle. by apply NoDup_cons.
Qed.

(** a page is taken, if there is one *)
Lemma wp_take s l T M k (Q : Z -> list (kstate -> kstate) -> kstate -> Prop) :
  k_hw s ≈h h -> uvm (k_mm s) l pt T M k ->
  (forall s', l = [] -> mem_step s s' -> k_mm s' = k_mm s -> Q 0 e s') ->
  (forall s' p l', l = p :: l' -> mem_step s s' -> uvm (k_mm s') l' pt T M k -> p ∉ range_pas M 0 k ++ l' ++ tables T ->
     page_ok (m_end (k_mm s)) p -> same_off [p] (m_bytes (k_mm s)) (m_bytes (k_mm s')) -> Q p e s') ->
  wp kalloc e s Q.
Proof using Hok Hlk.
  intros Hh [W Hmap Hpo Hnd] HN HQ. symmetry in Hh. pose proof (pw_free _ _ _ _ _ W) as Hf.
  eapply (wp_kalloc s e l); [by eapply hart_ok_eqv | by eapply lock_free_eqv | done |]. destruct l as [|p l].
  - apply HN; [done | | done]. exists (m_bytes (k_mm s)), (m_freelist (k_mm s)), (hw_crit (k_hw s)).
    split; [by destruct s as [? ? [] ? ?] | apply hw_crit_eqv].
  - cbn [app] in Hnd. rewrite <- Permutation_middle in Hnd. apply NoDup_cons in Hnd as [Hni Hnd].
    pose proof (pw_ok _ _ _ _ _ W) as Ho. apply Forall_cons in Ho as [Hp Ho]. apply Forall_app in Ho as [Ho1 Ho2].
    assert (Hs : same_off [p] (m_bytes (k_mm s)) (m_bytes (mm_alloc p (k_mm s)))) by (apply same_off_memset; set_solver).
    eapply HQ; [done | | | done | done | exact Hs].
    + eexists _, _, _. split; [reflexivity | apply hw_crit_eqv].
    + constructor; try done. eapply (pworld_frame _ _ _ _ _ W [p]); [by apply free_list_alloc | done | by apply Forall_singleton | set_solver | done |].
      by apply NoDup_app in Hnd as (_ & _ & ?).
Qed.
End alloc.

(** writing to a page that is nobody's *)
Lemma uvm_write pt m l T M k p b : uvm m l pt T M k -> page_ok (m_end m) p -> p ∉ range_pas M 0 k ++ l ++ tables T -> same_off [p] (m_bytes m) b ->
  uvm (set_m_bytes b m) l pt T M k.
Proof.
  intros [W Hmap Hpo Hnd] Hp Hni Hs. constructor; try done.
  pose proof (pw_ok _ _ _ _ _ W) as Ho. apply Forall_app in Ho as [Ho1 Ho2].
  eapply (pworld_frame _ _ _ _ _ W [p] b (m_freelist m)); [|done | by apply Forall_singleton | set_solver | done | apply (pw_nodup _ _ _ _ _ W)].
  apply (free_list_off m l b [p]); [apply (pw_free _ _ _ _ _ W) | done | by apply Forall_singleton | set_solver].
Qed.

Lemma user_page_kept pt m l T M k p b : uvm m l pt T M k -> p ∈ range_pas M 0 k -> same_off (l ++ tables T) (m_bytes m) b ->
  forall o, 0 <= o < PGSIZE -> ldb b (p + o) = ldb (m_bytes m) (p + o).
Proof.
  intros [W Hmap Hpo Hnd] Hp Hs o Ho. eapply page_kept; [exact Hs | apply (pw_ok _ _ _ _ _ W) | | | done].
  - rewrite Forall_forall in Hpo. by apply Hpo.
  - apply NoDup_app in Hnd as (_ & Hnd & _). by apply Hnd.
Qed.
Lemma elem_range_pas M k i pte : (i < k)%nat -> M !! Z.of_nat i = Some pte -> PTE2PA pte ∈ range_pas M 0 k.
Proof. intros Hi Hm. apply list_elem_of_lookup. exists i. rewrite lookup_range_pas by done. by rewrite Z.add_0_l, Hm. Qed.

(** one page more *)
Lemma grown_step pt perm fill s l T M n0 k s1 p l1 T1 M1 s2 s3 l3 T3 : leaf_perm (perm k) -> (n0 <= k)%nat ->
  grown pt perm fill s l T M n0 k s1 (p :: l1) T1 M1 -> mem_step s1 s2 -> same_off [p] (m_bytes (k_mm s1)) (m_bytes (k_mm s2)) ->
  filled (m_bytes (k_mm s2)) p (fill k) -> grew s2 l1 T1 s3 l3 T3 ->
  uvm (k_mm s3) l3 pt T3 (<[Z.of_nat k := leaf_pte p (perm k)]> M1) (S k) ->
  grown pt perm fill s l T M n0 (S k) s3 l3 T3 (<[Z.of_nat k := leaf_pte p (perm k)]> M1).
Proof.
  intros Hperm Hk [G1 G2 G3 G4 G5 G6 G7] Hm2 Hs2 Hz (Hm3 & u & -> & P3 & S3 & O3) Hu. pose proof G2 as [W1 Hmap Hpo Hnd].
  pose proof (pw_ok _ _ _ _ _ W1) as Ho. rewrite Forall_forall in Ho. assert (Hp : page_ok (m_end (k_mm s1)) p) by (apply Ho; set_solver).
  assert (Ho' : Forall (page_ok (m_end (k_mm s1))) (u ++ tables T1)) by (apply Forall_forall; intros x Hx; apply Ho; set_solver).
  assert (Hpp : phys_page p) by (eapply page_ok_phys; [apply (pw_kern _ _ _ _ _ W1) | done]).
  assert (Hs12 : same_off (p :: (u ++ l3) ++ tables T1) (m_bytes (k_mm s1)) (m_bytes (k_mm s3))).
  { eapply same_off_trans; eapply same_off_mono; [|exact Hs2| |exact O3]; set_solver. }
  assert (Hni : p ∉ u ++ tables T1).
  { pose proof (pw_nodup _ _ _ _ _ W1) as Hn. cbn [app] in Hn. apply NoDup_cons in Hn as [Hn _]. set_solver. }
  constructor; try done.
  - eapply mem_step_trans; [exact G1|]. by eapply mem_step_trans.
  - intros v Hv. rewrite lookup_insert_ne by lia. apply G3. lia.
  - intros i Hi. destruct (decide (i = k)) as [->|Hne].
    + split; [done|]. exists p. rewrite lookup_insert_eq. split_and!; [done | done |]. intros o Hx. rewrite <- (Hz o Hx).
      eapply page_kept; [exact O3 | | | exact Hni | done].
      * exact Ho'.
      * exact Hp.
    + destruct (G4 i ltac:(lia)) as (Hpi & q & Eq & Hq & Hzq). split; [done|]. exists q. rewrite lookup_insert_ne by lia. split_and!; [done | done |].
      intros o Hx. rewrite <- (Hzq o Hx). eapply (user_page_kept _ _ (p :: u ++ l3) T1 M1 k); [exact G2 | | exact Hs12 | done].
      rewrite <- (proj1 (leaf_pte_fields q (perm i) Hq Hpi)). apply (elem_range_pas M1 k i); [lia | done].
  - pose proof (range_pas_snoc M1 n0 (k - n0) p (perm k) Hpp Hperm) as Er. replace (n0 + (k - n0)%nat) with (Z.of_nat k) in Er by lia.
    replace (S k - n0)%nat with (S (k - n0)) by lia. rewrite Er, P3, <- G5. solve_Permutation.
  - by etransitivity.
  - eapply same_off_trans; [exact G7|]. eapply same_off_mono; [|exact Hs12]. intros x Hx. rewrite <- G5. set_solver.
Qed.

(** nothing but the bookkeeping has changed *)
Lemma grown_stay pt perm fill s l T M n0 k s1 l1 T1 M1 s2 l2 T2 :
  grown pt perm fill s l T M n0 k s1 l1 T1 M1 -> mem_step s1 s2 -> uvm (k_mm s2) l2 pt T2 M1 k -> l2 ++ tables T2 ≡ₚ l1 ++ tables T1 -> T1 ⊆ T2 ->
  same_off (l1 ++ tables T1) (m_bytes (k_mm s1)) (m_bytes (k_mm s2)) -> grown pt perm fill s l T M n0 k s2 l2 T2 M1.
Proof.
  intros [G1 G2 G3 G4 G5 G6 G7] Hm Hu Hp Ht Hs. constructor; try done.
  - by eapply mem_step_trans.
  - intros i Hi. destruct (G4 i Hi) as (Hpi & q & Eq & Hq & Hz). split; [done|]. exists q. split_and!; [done | done |]. intros o Ho. rewrite <- (Hz o Ho).
    eapply (user_page_kept _ _ l1 T1 M1 k); [exact G2 | | done | done]. rewrite <- (proj1 (leaf_pte_fields q (perm i) Hq Hpi)). apply (elem_range_pas M1 k i); [lia | done].
  - by rewrite Hp.
  - by etransitivity.
  - eapply same_off_trans; [exact G7|]. eapply same_off_mono; [|exact Hs]. intros x Hx. rewrite <- G5. set_solver.
Qed.
Lemma grown_start pt perm fill s l T M n : uvm (k_mm s) l pt T M n -> grown pt perm fill s l T M n n s l T M.
Proof.
  intros Hu. constructor; [apply mem_step_refl | done | done | intros i Hi; lia | by rewrite Nat.sub_diag | done | apply same_off_refl].
Qed.

(** the page that was taken is mapped, or given back *)
Lemma wp_grow_map {A} h pt e perm fill s l T M n0 (k : nat) s1 p l2 T1 M1 s2 b3 (err cont : K A) (Q : A -> list (kstate -> kstate) -> kstate -> Prop) :
  hart_ok 1 h -> lock_free h LKmem -> k_hw s ≈h h -> leaf_perm (perm k) -> (n0 <= k)%nat -> k * PGSIZE < MAXVA -> M1 !! Z.of_nat k = None ->
  grown pt perm fill s l T M n0 k s1 (p :: l2) T1 M1 -> mem_step s1 s2 -> uvm (k_mm s2) l2 pt T1 M1 k -> p ∉ range_pas M1 0 k ++ l2 ++ tables T1 ->
  page_ok (m_end (k_mm s1)) p -> same_off [p] (m_bytes (k_mm s1)) (m_bytes (k_mm s2)) -> same_off [p] (m_bytes (k_mm s2)) b3 -> filled b3 p (fill k) ->
  (forall s' l' T', grown pt perm fill s l T M n0 (S k) s' l' T' (<[Z.of_nat k := leaf_pte p (perm k)]> M1) ->
     (length l2 <= length l' + 2)%nat -> wp cont e s' Q) ->
  (forall s' T', grown pt perm fill s l T M n0 k s' [p] T' M1 -> (length l2 <= 1)%nat -> wp err e s' Q) ->
  wp (r <- mappages pt (k * PGSIZE) PGSIZE p (perm k);; if negb (r =? 0) then kfree p;; err else cont) e (with_bytes b3 s2) Q.
Proof.
  intros Hok Hlk Hh Hpl Hk Hmax Hnone G Hm2 Hu2 Hni Hp Hs2 Hs3 Hz3 HQ HN. set (s3 := with_bytes b3 s2). pose proof (mem_step_end _ _ Hm2) as Ee2.
  assert (Hm3 : mem_step s1 s3) by (eapply mem_step_trans; [exact Hm2 | apply mem_step_bytes]).
  assert (Hu3 : uvm (k_mm s3) l2 pt T1 M1 k) by (eapply (uvm_write pt _ _ _ _ _ p); [exact Hu2 | by rewrite Ee2 | exact Hni | exact Hs3]).
  assert (Hs13 : same_off [p] (m_bytes (k_mm s1)) (m_bytes (k_mm s3))) by (by eapply same_off_trans).
  assert (Hp3 : page_ok (m_end (k_mm s3)) p) by (by rewrite (mem_step_end _ _ Hm3)).
  assert (Hh3 : k_hw s3 ≈h h) by (do 2 (eapply mem_step_hw; [eassumption || apply (gr_step _ _ _ _ _ _ _ _ _ _ _ _ _ G)|]); exact Hh).
  wp_step. eapply (wp_add_page h Hok Hlk pt e k p (perm k) s3 l2 T1 M1); try done.
  - intros s4 l4 T4 G4 Hu4 C4. cbn [negb Z.eqb]. apply (HQ s4 l4 T4); [|done]. by eapply (grown_step pt perm fill s l T M n0 k s1 p l2 T1 M1 s3).
  - intros s4 T4 (Hm4 & u & -> & P4 & S4 & O4) Hu4 C4. cbn [negb Z.eqb]. wp_step. rewrite app_nil_r in *.
    assert (Hni4 : p ∉ range_pas M1 0 k ++ [] ++ tables T4) by (rewrite P4; set_solver).
    eapply (wp_give_back h Hok Hlk pt e p s4 [] T4 M1 k); [by eapply mem_step_hw | done | by rewrite (mem_step_end _ _ Hm4) | done |].
    intros s5 Hm5 Hu5 Hs5. apply (HN s5 T4); [|done]. eapply grown_stay; [exact G | | exact Hu5 | | done |].
    + eapply mem_step_trans; [exact Hm3|]. by eapply mem_step_trans.
    + rewrite P4. done.
    + eapply same_off_trans; [eapply same_off_mono; [|exact Hs13]; set_solver|]. eapply same_off_trans; eapply same_off_mono; [|exact O4| |exact Hs5]; set_solver.
Qed.

(** an attempt that failed: the same address space, no page lost *)
Definition undone (s : kstate) (l : list Z) (pt : Z) (T : gmap pkey Z) (M : gmap Z Z) (n : nat) (s' : kstate) : Prop :=
  exists l' T', mem_step s s' /\ uvm (k_mm s') l' pt T' M n /\ l' ++ tables T' ≡ₚ l ++ tables T /\ T ⊆ T' /\
    same_off (l ++ tables T) (m_bytes (k_mm s)) (m_bytes (k_mm s')).

Definition user_perm (xperm : Z) : Z := Z.lor (Z.lor PTE_R PTE_U) xperm.
Lemma user_perm_leaf xperm : 0 <= xperm < 1024 -> leaf_perm (user_perm xperm).
Proof.
  intros Hx. unfold user_perm. change (Z.lor PTE_R PTE_U) with 18. pose proof (lor_range 18 xperm ltac:(lia) Hx).
  pose proof (lor_ge 18 xperm ltac:(lia) ltac:(lia)). split_and!; [lia | lia | lia | change PTE_V with 1; lia].
Qed.
Lemma pgs_pages (k : nat) : k * PGSIZE <= MAXVA -> pgs (k * PGSIZE) = k.
Proof. intros H. destruct (pgs_bounds (k * PGSIZE) ltac:(unfold PGSIZE in *; lia)) as (_ & B & _). unfold PGSIZE in *. lia. Qed.

Section uvmalloc.
Context (h : hwstate) (Hok : hart_ok 1 h) (Hlk : lock_free h LKmem) (pt : Z) (e : list (kstate -> kstate)).
Context (s : kstate) (l : list Z) (T : gmap pkey Z) (M : gmap Z Z) (oldsz newsz xperm : Z).
Let n0 := pgs oldsz.
Let n1 := pgs newsz.
Let perm (_ : nat) := user_perm xperm.
Let fill (_ : nat) (_ : Z) := 0.
Context (Hh : k_hw s ≈h h) (Hu : uvm (k_mm s) l pt T M n0) (Hsz : 0 <= oldsz <= newsz) (Hmax : newsz <= MAXVA) (Hx : 0 <= xperm < 1024).
Context (Hfree : forall i : nat, (n0 <= i < n1)%nat -> M !! Z.of_nat i = None).

(** giving up after [k] pages *)
Lemma wp_undo (k : nat) s1 l1 T1 M1 (Q : Z -> list (kstate -> kstate) -> kstate -> Prop) : (n0 <= k <= n1)%nat ->
  grown pt perm fill s l T M n0 k s1 l1 T1 M1 -> (forall s', undone s l pt T M n0 s' -> Q (n0 * PGSIZE) e s') ->
  wp (uvmdealloc pt (k * PGSIZE) (n0 * PGSIZE)) e s1 Q.
Proof using All.
  intros Hk [G1 G2 G3 G4 G5 G6 G7] HQ. destruct (pgs_bounds newsz ltac:(lia)) as (_ & _ & B). fold n1 in B.
  assert (Ek : pgs (k * PGSIZE) = k) by (apply pgs_pages; unfold PGSIZE in *; lia).
  assert (E0 : pgs (n0 * PGSIZE) = n0) by (apply pgs_pages; unfold PGSIZE in *; lia).
  eapply (wp_uvmdealloc h Hok Hlk pt e (k * PGSIZE) (n0 * PGSIZE) s1 l1 T1 M1); rewrite ?Ek, ?E0; [by eapply mem_step_hw | unfold PGSIZE in *; lia | unfold PGSIZE in *; lia | exact G2 |].
  intros s' Hm Hu' Hs'. set (gone := range_pas M1 n0 (k - n0)) in *.
  assert (EM : unmap_range M1 n0 (k - n0) = M).
  { apply map_eq. intros v. rewrite lookup_unmap_range. destruct (decide (n0 <= v < n0 + (k - n0)%nat)) as [Hv|Hv].
    - replace v with (Z.of_nat (Z.to_nat v)) by lia. symmetry. apply Hfree. lia.
    - apply G3. lia. }
  rewrite EM in Hu'. apply HQ. exists (rev gone ++ l1), T1. split_and!; [by eapply mem_step_trans | done | | done |].
  - rewrite <- (Permutation_rev gone), <- app_assoc. done.
  - eapply same_off_trans; [exact G7|]. eapply same_off_mono; [|exact Hs']. intros x Hxx. rewrite <- G5. set_solver.
Qed.

Definition alloc_inv (a : Z) (e' : list (kstate -> kstate)) (s' : kstate) : Prop :=
  e' = e /\ exists (k : nat) l' T' M', (n0 <= k <= n1)%nat /\ (length l <= length l' + 3 * (k - n0))%nat /\ a = k * PGSIZE /\ grown pt perm fill s l T M n0 k s' l' T' M'.

Lemma wp_uvmalloc (Q : Z -> list (kstate -> kstate) -> kstate -> Prop) :
  (forall s' l' T' M', grown pt perm fill s l T M n0 n1 s' l' T' M' -> Q newsz e s') ->
  (forall s', undone s l pt T M n0 s' -> (length l < 3 * (n1 - n0))%nat -> Q 0 e s') ->
  wp (uvmalloc pt oldsz newsz xperm) e s Q.
Proof using All.
  intros HQ HN. unfold uvmalloc. replace (newsz <? oldsz) with false by lia. pose proof (user_perm_leaf xperm Hx) as Hpl.
  destruct (pgs_bounds oldsz ltac:(lia)) as (E0 & B0 & B0'). destruct (pgs_bounds newsz ltac:(lia)) as (E1 & B1 & B1').
  pose proof (pgs_mono oldsz newsz ltac:(lia) ltac:(lia) ltac:(lia)) as Hle. rewrite E0. fold n0 n1 in E0, B0, B0', E1, B1, B1', Hle |- *.
  assert (HM : MAXVA = 2 ^ 38) by done.
  apply (wp_mloop _ alloc_inv (fun a => n1 - Z.to_nat (a / PGSIZE))%nat).
  - rewrite Z.div_mul by done. pose proof (Z.div_mod (newsz - n0 * PGSIZE) PGSIZE ltac:(done)). pose proof (Z.mod_pos_bound (newsz - n0 * PGSIZE) PGSIZE ltac:(done)).
    unfold PGSIZE in *. lia.
  - split; [done|]. exists n0, l, T, M. split_and!; [lia | lia | lia | done |]. by apply grown_start.
  - intros a e' s1 (-> & k & l1 & T1 & M1 & Hk & Hc & -> & G). destruct (Z.leb_spec newsz (k * PGSIZE)) as [Hd|Hd].
    { wp_step. assert (k = n1) as -> by (unfold PGSIZE in *; lia). by eapply HQ. }
    assert (Hkn : (k < n1)%nat) by (unfold PGSIZE in *; lia). pose proof (gr_uvm _ _ _ _ _ _ _ _ _ _ _ _ _ G) as Hu1.
    assert (Hh1 : k_hw s1 ≈h h) by (eapply mem_step_hw; [apply (gr_step _ _ _ _ _ _ _ _ _ _ _ _ _ G) | exact Hh]).
    wp_step. eapply (wp_take h Hok Hlk pt e s1 l1 T1 M1 k); [done | done | |].
    { intros s2 El Hm2 Em. change (0 =? 0) with true. cbv iota. wp_step. eapply (wp_undo k s2 l1 T1 M1); [lia | |].
      - eapply grown_stay; [exact G | done | by rewrite Em | done | done | rewrite Em; apply same_off_refl].
      - intros s' Hun. wp_step. apply HN; [done | subst; cbn in *; lia]. }
    intros s2 p l2 -> Hm2 Hu2 Hni Hp Hs2. pose proof (uv_world _ _ _ _ _ _ Hu1) as W1.
    destruct (page_in_ram _ _ (pw_kern _ _ _ _ _ W1) Hp) as (Hr & _ & Hnz). replace (p =? 0) with false by lia.
    unfold mem_set, modify_bytes, modify_mm. rewrite Hr. wp_step. wp_step.
    eapply (wp_grow_map h pt e perm fill s l T M n0 k s1 p l2 T1 M1 s2); try done; [lia | unfold PGSIZE in *; lia | | | | |].
    + rewrite (gr_old _ _ _ _ _ _ _ _ _ _ _ _ _ G) by lia. apply Hfree. lia.
    + apply same_off_memset. set_solver.
    + intros o Ho. rewrite ldb_memset, decide_True by (unfold PGSIZE in *; lia). done.
    + intros s4 l4 T4 G4 C4. wp_step. rewrite u64_small by (unfold PGSIZE in *; lia). split.
      { replace (k * PGSIZE + PGSIZE) with ((k + 1) * PGSIZE) by (unfold PGSIZE; lia). rewrite !Z.div_mul by done. lia. }
      split; [done|]. exists (S k), l4, T4, (<[Z.of_nat k := leaf_pte p (perm k)]> M1). split_and!; [lia | lia | cbn in Hc; lia | unfold PGSIZE; lia | done].
    + intros s5 T5 G5 C5. wp_step. eapply (wp_undo k s5 [p] T5 M1); [lia | done |]. intros s' Hun. wp_step. apply HN; [done | subst; cbn in *; lia].
Qed.
End uvmalloc.

(** ** uvmcopy *)
Section uvmcopy.
Context (h : hwstate) (Hok : hart_ok 1 h) (Hlk : lock_free h LKmem) (old new : Z) (e : list (kstate -> kstate)).
Context (s : kstate) (l : list Z) (To T : gmap pkey Z) (Mo M : gmap Z Z) (sz : Z).
Let n := pgs sz.
Let opte (i : nat) : Z := default 0 (Mo !! Z.of_nat i).
Let perm (i : nat) : Z := PTE_FLAGS (opte i).
Let fill (i : nat) (o : Z) : Z := ldb (m_bytes (k_mm s)) (PTE2PA (opte i) + o).
Context (Hh : k_hw s ≈h h) (Hsz : 0 <= sz <= MAXVA).
Context (Ho : uvm (k_mm s) l old To Mo n) (Hu : uvm (k_mm s) l new T M 0).
Context (Hdisj : forall p, p ∈ tables T -> p ∉ range_pas Mo 0 n ++ tables To).
Context (Hfree : forall i : nat, (i < n)%nat -> M !! Z.of_nat i = None).

(** the parent's address space is there all along *)
Lemma old_kept k s' l' T' M' : grown new perm fill s l T M 0 k s' l' T' M' -> uvm (k_mm s') l' old To Mo n.
Proof using All.
  intros [G1 G2 G3 G4 G5 G6 G7]. pose proof Ho as [W Hmap Hpo Hnd]. pose proof G2 as [W2 _ _ Hnd2].
  pose proof (pw_ok _ _ _ _ _ (uv_world _ _ _ _ _ _ Hu)) as Hok1.
  assert (Hl' : forall p, p ∈ l' -> p ∈ l ++ tables T) by (intros p Hp; rewrite <- G5; set_solver).
  assert (Hl : forall p, p ∈ l -> p ∉ range_pas Mo 0 n ++ tables To).
  { intros p Hp. apply NoDup_app in Hnd as (_ & N1 & N2). apply NoDup_app in N2 as (_ & N2 & _). rewrite elem_of_app. intros [H|H]; [|by apply (N2 p)].
    apply (N1 p H). set_solver. }
  assert (Hd : forall p, p ∈ l ++ tables T -> p ∉ range_pas Mo 0 n ++ tables To).
  { intros p [Hp|Hp]%elem_of_app; [by apply Hl | by apply Hdisj]. }
  assert (Hnl : NoDup l') by (apply NoDup_app in Hnd2 as (_ & _ & N); by apply NoDup_app in N as (? & _)).
  pose proof (mem_step_end _ _ G1) as Ee. destruct G1 as (b & f & h' & -> & Hh').
  constructor; [| done | done |].
  - eapply (pworld_frame _ _ _ _ _ W (l ++ tables T) b f); [apply (pw_free _ _ _ _ _ W2) | exact G7 | exact Hok1 | | |].
    + intros p Hp Hin. apply (Hd p Hp). set_solver.
    + pose proof (pw_ok _ _ _ _ _ W2) as H. by apply Forall_app in H as [H _].
    + apply NoDup_app. split_and!; [done | |]. { intros p Hp Hin. apply (Hd p); [by apply Hl' | set_solver]. }
      pose proof (pw_nodup _ _ _ _ _ W) as N. by apply NoDup_app in N as (_ & _ & ?).
  - apply NoDup_app in Hnd as (N1 & N2 & N3). apply NoDup_app in N3 as (_ & _ & N3). apply NoDup_app. split_and!; [done | |].
    + intros p Hp [Hin|Hin]%elem_of_app; [apply (Hd p); [by apply Hl' | set_solver] | apply (N2 p Hp); set_solver].
    + apply NoDup_app. split_and!; [done | | done]. intros p Hp Hin. apply (Hd p); [by apply Hl' | set_solver].
Qed.

(** the entry of a page of the parent *)
Lemma old_entry (i : nat) : (i < n)%nat -> Mo !! Z.of_nat i = Some (opte i) /\ leaf (opte i) /\ leaf_perm (perm i) /\
  page_ok (m_end (k_mm s)) (PTE2PA (opte i)) /\ PTE2PA (opte i) ∈ range_pas Mo 0 n.
Proof using All.
  intros Hi. pose proof Ho as [W Hmap Hpo Hnd]. destruct (Hmap i Hi) as [pte Hpte].
  assert (Eo : opte i = pte) by (unfold opte; by rewrite Hpte). unfold perm. rewrite Eo. destruct (pt_leaf _ _ _ _ (pw_pt _ _ _ _ _ W) _ _ Hpte) as [_ Hlf].
  assert (Hin : PTE2PA pte ∈ range_pas Mo 0 n) by (by eapply elem_range_pas). rewrite Forall_forall in Hpo.
  split_and!; [done | done | | by apply Hpo | done]. destruct Hlf as (L1 & L2 & L3). rewrite flags_mod in *. pose proof (Z.mod_pos_bound pte 1024 ltac:(lia)).
  split_and!; [lia | lia | | done]. intros E0. unfold istrue in L2. rewrite land_V in L2.
  replace (pte mod 2) with ((pte mod 1024) mod 2) in L2; [by rewrite E0 in L2|]. rewrite <- Znumtheory.Zmod_div_mod; [done | lia | lia | by exists 512].
Qed.

(** giving up after [k] pages *)
Lemma wp_uncopy (k : nat) s1 l1 T1 M1 (Q : unit -> list (kstate -> kstate) -> kstate -> Prop) : (k <= n)%nat ->
  grown new perm fill s l T M 0 k s1 l1 T1 M1 -> (forall s', undone s l new T M 0 s' -> Q tt e s') ->
  wp (uvmunmap new 0 k true) e s1 Q.
Proof using All.
  intros Hk [G1 G2 G3 G4 G5 G6 G7] HQ. destruct (pgs_bounds sz ltac:(lia)) as (_ & _ & B). fold n in B. pose proof G2 as [W1 Hmap1 Hpo1 Hnd1].
  eapply (wp_uvmunmap h Hok Hlk new M1 e 0 k true s1 l1 T1); try done; [unfold PGSIZE in *; lia | by eapply mem_step_hw |].
  intros s' (Hm & W' & Hs'). unfold freed in *. change (vpn 0) with 0 in *. set (gone := range_pas M1 0 k) in *.
  rewrite take_ge in W', Hs' by (unfold gone; by rewrite length_range_pas). rewrite Nat.sub_0_r in G5. fold gone in G5.
  assert (EM : unmap_range M1 0 k = M).
  { apply map_eq. intros v. rewrite lookup_unmap_range. destruct (decide (0 <= v < 0 + k)) as [Hv|Hv].
    - replace v with (Z.of_nat (Z.to_nat v)) by lia. symmetry. apply Hfree. lia.
    - apply G3. lia. }
  rewrite EM in W'. apply HQ. exists (rev gone ++ l1), T1. split_and!; [by eapply mem_step_trans | | | done |].
  - constructor; [done | intros i Hi; lia | constructor |]. apply (pw_nodup _ _ _ _ _ W').
  - rewrite <- (Permutation_rev gone), <- app_assoc. done.
  - eapply same_off_trans; [exact G7|]. eapply same_off_mono; [|exact Hs']. intros x Hxx. rewrite <- G5. set_solver.
Qed.

Definition copy_inv (a : Z) (e' : list (kstate -> kstate)) (s' : kstate) : Prop :=
  e' = e /\ exists (k : nat) l' T' M', (k <= n)%nat /\ (length l <= length l' + 3 * k)%nat /\ a = k * PGSIZE /\ grown new perm fill s l T M 0 k s' l' T' M'.

Lemma wp_uvmcopy (Q : Z -> list (kstate -> kstate) -> kstate -> Prop) :
  (forall s' l' T' M', grown new perm fill s l T M 0 n s' l' T' M' -> uvm (k_mm s') l' old To Mo n -> Q 0 e s') ->
  (forall s', undone s l new T M 0 s' -> (length l < 3 * n)%nat -> Q (-1) e s') ->
  wp (uvmcopy old new sz) e s Q.
Proof using All.
  intros HQ HN. unfold uvmcopy. destruct (pgs_bounds sz ltac:(lia)) as (_ & B & B'). fold n in B, B'. assert (HM : MAXVA = 2 ^ 38) by done.
  apply (wp_mloop _ copy_inv (fun a => n - Z.to_nat (a / PGSIZE))%nat).
  - pose proof (Z.div_mod sz PGSIZE ltac:(done)). pose proof (Z.mod_pos_bound sz PGSIZE ltac:(done)). change (0 / PGSIZE) with 0. unfold PGSIZE in *. lia.
  - split; [done|]. exists 0%nat, l, T, M. split_and!; [lia | lia | done |]. by apply grown_start.
  - intros a e' s1 (-> & k & l1 & T1 & M1 & Hk & Hc & -> & G). destruct (Z.leb_spec sz (k * PGSIZE)) as [Hd|Hd].
    { wp_step. assert (k = n) as -> by (unfold PGSIZE in *; lia). eapply HQ; [exact G | by eapply old_kept]. }
    assert (Hkn : (k < n)%nat) by (unfold PGSIZE in *; lia). pose proof (gr_uvm _ _ _ _ _ _ _ _ _ _ _ _ _ G) as Hu1.
    assert (Hh1 : k_hw s1 ≈h h) by (eapply mem_step_hw; [apply (gr_step _ _ _ _ _ _ _ _ _ _ _ _ _ G) | exact Hh]).
    pose proof (old_kept _ _ _ _ _ G) as Ho1. pose proof (uv_world _ _ _ _ _ _ Ho1) as Wo1.
    destruct (old_entry k Hkn) as (Epte & (L1 & L2 & L3) & Hpl & Hpo & Hpin).
    assert (Hvpn : vpn (k * PGSIZE) = k) by apply vpn_page. assert (Hkey : vpn (k * PGSIZE) / 512 = key 0 (k * PGSIZE)).
    { rewrite <- key_vpn. symmetry. by apply (key_up 0). }
    destruct (pt_leaf _ _ _ _ (pw_pt _ _ _ _ _ Wo1) _ _ Epte) as [[q Hq] _]. rewrite <- Hvpn, Hkey in Hq.
    wp_step. eapply wp_walk_find; [exact Wo1 | unfold PGSIZE in *; lia |]. unfold found. rewrite Hq. cbn [from_option].
    destruct (leaf_word _ _ _ _ _ _ _ Wo1 Hq) as (Hr & Hword & Hnz). replace (q + _ =? 0) with false by lia.
    unfold load64. rewrite Hr. wp_steps. rewrite Hword, Hvpn. fold (opte k).
    assert (L2' : (Z.land (opte k) PTE_V =? 0) = false) by (unfold istrue in L2; by destruct (Z.land (opte k) PTE_V =? 0)). rewrite L2'.
    rewrite Z.div_mul by done. wp_step. eapply (wp_take h Hok Hlk new e s1 l1 T1 M1 k); [done | done | |].
    { intros s2 El Hm2 Em. change (0 =? 0) with true. cbv iota. wp_step. eapply (wp_uncopy k s2 l1 T1 M1); [lia | |].
      - eapply grown_stay; [exact G | done | by rewrite Em | done | done | rewrite Em; apply same_off_refl].
      - intros s' Hun. wp_step. apply HN; [done | subst; cbn in *; lia]. }
    intros s2 p l2 -> Hm2 Hu2 Hni Hp Hs2. pose proof (uv_world _ _ _ _ _ _ Hu1) as W1. pose proof (mem_step_end _ _ (gr_step _ _ _ _ _ _ _ _ _ _ _ _ _ G)) as Ee1.
    destruct (page_in_ram _ _ (pw_kern _ _ _ _ _ W1) Hp) as (Hpr & _ & Hpz). replace (p =? 0) with false by lia.
    assert (Hpo1 : page_ok (m_end (k_mm s1)) (PTE2PA (opte k))) by (by rewrite Ee1).
    destruct (page_in_ram _ _ (pw_kern _ _ _ _ _ W1) Hpo1) as (Hor & _). unfold mem_move, modify_bytes, modify_mm. rewrite Hpr, Hor. cbn [andb].
    assert (Hpne : PTE2PA (opte k) <> p).
    { intros E. pose proof (uv_nodup _ _ _ _ _ _ Ho1) as N. apply NoDup_app in N as (_ & N & _). apply (N p); [by rewrite <- E | set_solver]. }
    assert (Hcont : forall o, 0 <= o < PGSIZE -> ldb (m_bytes (k_mm s1)) (PTE2PA (opte k) + o) = fill k o).
    { intros o Hx. unfold fill. eapply page_kept; [apply (gr_off _ _ _ _ _ _ _ _ _ _ _ _ _ G) | apply (pw_ok _ _ _ _ _ (uv_world _ _ _ _ _ _ Hu)) | exact Hpo | | done].
      rewrite elem_of_app. intros [Hin|Hin]; [|apply (Hdisj _ Hin); set_solver].
      pose proof (uv_nodup _ _ _ _ _ _ Ho) as N. apply NoDup_app in N as (_ & N & _). apply (N _ Hpin). set_solver. }
    wp_step. wp_step. eapply (wp_grow_map h new e perm fill s l T M 0 k s1 p l2 T1 M1 s2); try done; [lia | unfold PGSIZE in *; lia | | | | |].
    + rewrite (gr_old _ _ _ _ _ _ _ _ _ _ _ _ _ G) by lia. apply Hfree. lia.
    + intros a Ha. rewrite ldb_memmove, decide_False; [done|]. specialize (Ha p ltac:(set_solver)). unfold PGSIZE in *. lia.
    + intros o Hx. rewrite ldb_memmove, decide_True by (unfold PGSIZE in *; lia). replace (p + o - p + PTE2PA (opte k)) with (PTE2PA (opte k) + o) by lia.
      rewrite <- (Hcont o Hx). eapply page_kept; [exact Hs2 | by apply Forall_singleton | exact Hpo1 | set_solver | done].
    + intros s4 l4 T4 G4 C4. wp_step. rewrite u64_small by (unfold PGSIZE in *; lia). split.
      { replace (k * PGSIZE + PGSIZE) with ((k + 1) * PGSIZE) by (unfold PGSIZE; lia). rewrite !Z.div_mul by done. lia. }
      split; [done|]. exists (S k), l4, T4, (<[Z.of_nat k := leaf_pte p (perm k)]> M1). split_and!; [lia | cbn in Hc; lia | unfold PGSIZE; lia | done].
    + intros s5 T5 G5 C5. wp_step. eapply (wp_uncopy k s5 [p] T5 M1); [lia | done |]. intros s' Hun. wp_step. apply HN; [done | subst; cbn in *; lia].
Qed.
End uvmcopy.

(** ** The address space as the user sees it *)
Definition user_pa (M : gmap Z Z) (v : Z) : Z := PTE2PA (default 0 (M !! vpn v)).

Lemma uvm_uspace m l pt T M (n : nat) lo hi : uvm m l pt T M n -> 0 <= lo -> hi <= n * PGSIZE -> n * PGSIZE <= MAXVA ->
  (forall v pte, lo / PGSIZE <= v -> v * PGSIZE < hi -> M !! v = Some pte -> istrue (Z.land pte PTE_U) = true) ->
  uspace (m_bytes m) pt lo hi (user_pa M).
Proof.
  intros [W Hmap Hpo Hnd] Hlo Hhi Hmax HU.
  assert (Hpage : forall v, upage lo hi v -> exists i : nat, (i < n)%nat /\ v = i * PGSIZE /\ lo / PGSIZE <= i /\ i * PGSIZE < hi).
  { intros v (va & Hva & ->). exists (Z.to_nat (va / PGSIZE)). rewrite PGROUNDDOWN_eq. pose proof (Z.div_mod va PGSIZE ltac:(done)).
    pose proof (Z.mod_pos_bound va PGSIZE ltac:(done)). pose proof (Z.div_le_mono lo va PGSIZE ltac:(done) ltac:(lia)).
    assert (0 <= va / PGSIZE) by (apply Z.div_pos; [lia | done]). rewrite Z2Nat.id by done. unfold PGSIZE in *. lia. }
  assert (Hpa : forall i : nat, (i < n)%nat -> range_pas M 0 n !! i = Some (user_pa M (i * PGSIZE))).
  { intros i Hi. rewrite lookup_range_pas by done. unfold user_pa. by rewrite vpn_page, Z.add_0_l. }
  assert (Hok : forall i : nat, (i < n)%nat -> page_ok (m_end m) (user_pa M (i * PGSIZE))) by (intros i Hi; eapply Forall_lookup_1; [exact Hpo | by apply Hpa]).
  assert (Hva : forall i : nat, (i < n)%nat -> 0 <= i * PGSIZE < MAXVA) by (intros i Hi; unfold PGSIZE in *; lia).
  constructor.
  - lia.
  - intros v Hv. destruct (Hpage v Hv) as (i & Hi & -> & H1 & H2). split; [|apply (page_in_ram _ _ (pw_kern _ _ _ _ _ W)), Hok, Hi].
    rewrite (proj1 (translate_pworld _ _ _ _ _ _ W (Hva i Hi))), vpn_page. unfold user_pa. rewrite vpn_page. destruct (Hmap i Hi) as [pte Hpte]. rewrite Hpte. cbn.
    by rewrite (HU i pte).
  - intros v Hv. destruct (Hpage v Hv) as (i & Hi & -> & _). apply Forall_forall. intros w Hw.
    destruct (proj2 (translate_pworld _ _ _ _ _ _ W (Hva i Hi)) w Hw) as (x & p & j & Hx & Hj & ->). by eapply pw_word.
  - intros v v' w Hv Hv' Hw. destruct (Hpage v Hv) as (i & Hi & -> & _). destruct (Hpage v' Hv') as (i' & Hi' & -> & _).
    destruct (proj2 (translate_pworld _ _ _ _ _ _ W (Hva i Hi)) w Hw) as (x & p & j & Hx & Hj & ->).
    assert (Hne : p <> user_pa M (i' * PGSIZE)).
    { intros E. apply NoDup_app in Hnd as (_ & Hnd & _). apply (Hnd p); [apply list_elem_of_lookup; exists i'; by rewrite Hpa, E|].
      apply elem_of_app. right. apply elem_tables. eauto. }
    pose proof (page_disj _ _ _ (pw_table _ _ _ _ _ W _ _ Hx) (Hok i' Hi') Hne). unfold PGSIZE in *. lia.
  - intros v v' Hv Hv' Hne. destruct (Hpage v Hv) as (i & Hi & -> & _). destruct (Hpage v' Hv') as (i' & Hi' & -> & _).
    eapply page_disj; [by apply Hok | by apply Hok|]. intros E. apply Hne. apply NoDup_app in Hnd as (Hnd & _ & _).
    rewrite (NoDup_lookup _ i i' (user_pa M (i * PGSIZE)) Hnd); [done | by apply Hpa | rewrite E; by apply Hpa].
Qed.

(** ** fork's copy *)
Lemma lor_V_odd f : f mod 2 = 1 -> Z.lor f PTE_V = f.
Proof.
  intros Hf. apply Z.bits_inj'. intros n Hn. rewrite Z.lor_spec. change PTE_V with (2 ^ 0). destruct (Z.eq_dec n 0) as [->|Hne].
  - rewrite Z.bit0_odd, Z.bit0_odd, (Zodd_mod f), Hf. done.
  - rewrite (Z.pow2_bits_false 0 n) by lia. apply orb_false_r.
Qed.
Lemma leaf_odd pte : leaf pte -> PTE_FLAGS pte mod 2 = 1.
Proof.
  intros (_ & H & _). unfold istrue in H. rewrite land_V in H. rewrite flags_mod, <- Znumtheory.Zmod_div_mod; [| lia | lia | by exists 512].
  pose proof (Z.mod_pos_bound pte 2 ltac:(lia)). destruct (Z.eqb_spec (pte mod 2) 0); [done | lia].
Qed.
Lemma undone_grown pt perm fill s l T M s' : undone s l pt T M 0 s' -> exists l' T', grown pt perm fill s l T M 0 0 s' l' T' M.
Proof. intros (l' & T' & H1 & H2 & H3 & H4 & H5). exists l', T'. by constructor; try done; intros i Hi; lia. Qed.

(** entry by entry, what a copy maps *)
Lemma copy_entries old new b s l m lo To T Mo M n s' l' T' M' : uvm m lo old To Mo n ->
  grown new (fun i : nat => PTE_FLAGS (default 0 (Mo !! Z.of_nat i))) (fun i o => ldb b (PTE2PA (default 0 (Mo !! Z.of_nat i)) + o)) s l T M 0 n s' l' T' M' ->
  forall i : nat, (i < n)%nat -> exists pte pte', Mo !! Z.of_nat i = Some pte /\ M' !! Z.of_nat i = Some pte' /\ PTE_FLAGS pte' = PTE_FLAGS pte /\
    forall o, 0 <= o < PGSIZE -> ldb (m_bytes (k_mm s')) (PTE2PA pte' + o) = ldb b (PTE2PA pte + o).
Proof.
  intros Ho G i Hi. destruct (gr_new _ _ _ _ _ _ _ _ _ _ _ _ _ G i ltac:(lia)) as (Hpl & p & Ep & Hp & Hf).
  destruct (uv_map _ _ _ _ _ _ Ho i Hi) as [pte Hpte]. rewrite Hpte in *. cbn [default from_option id] in *.
  exists pte, (leaf_pte p (PTE_FLAGS pte)). split_and!; [done | done | |].
  - destruct (leaf_pte_fields p _ Hp Hpl) as (_ & _ & _ & -> & _). apply lor_V_odd, leaf_odd.
    by destruct (pt_leaf _ _ _ _ (pw_pt _ _ _ _ _ (uv_world _ _ _ _ _ _ Ho)) _ _ Hpte).
  - intros o Hx. by rewrite (proj1 (leaf_pte_fields p _ Hp Hpl)), (Hf o Hx).
Qed.

(** what is left by a copy of the [n] pages of [Mo] into the table [T], [M] at [new] *)
Definition copy_result (old new : Z) (n : nat) (l : list Z) (To T : gmap pkey Z) (Mo M : gmap Z Z) (s : kstate) (r : Z) (s' : kstate) : Prop :=
  let b := m_bytes (k_mm s) in
  let b' := m_bytes (k_mm s') in
  mem_step s s' /\ exists l' T' M', uvm (k_mm s') l' old To Mo n /\
    (forall (i : nat) pte o, (i < n)%nat -> Mo !! Z.of_nat i = Some pte -> 0 <= o < PGSIZE -> ldb b' (PTE2PA pte + o) = ldb b (PTE2PA pte + o)) /\
    ((r = 0 /\ uvm (k_mm s') l' new T' M' n /\ (forall v, v < 0 \/ n <= v -> M' !! v = M !! v) /\
      range_pas M' 0 n ++ l' ++ tables T' ≡ₚ l ++ tables T /\
      forall i : nat, (i < n)%nat -> exists pte pte', Mo !! Z.of_nat i = Some pte /\ M' !! Z.of_nat i = Some pte' /\ PTE_FLAGS pte' = PTE_FLAGS pte /\
        forall o, 0 <= o < PGSIZE -> ldb b' (PTE2PA pte' + o) = ldb b (PTE2PA pte + o)) \/
     (r = -1 /\ (length l < 3 * n)%nat /\ uvm (k_mm s') l' new T' M 0 /\ l' ++ tables T' ≡ₚ l ++ tables T)).

(** C14: [fork] gives the child a copy of its parent's memory.  [uvmcopy] of an address
    space of [sz] bytes into a page table that maps none of it either returns 0, and then
    page after page the child's table has an entry with the same permissions, for a page of
    its own with the same bytes; or it returns -1, which takes fewer than three free pages
    for each page to copy, and then the child's table maps what it did before.  In both
    cases the parent's table and bytes are untouched and no page is lost: the free pages,
    the child's tables and the child's memory are together the same pages as before. *)
Theorem uvmcopy_copies old new e s l To T Mo M sz :
  let n := pgs sz in
  hart_ok 1 (k_hw s) -> lock_free (k_hw s) LKmem -> 0 <= sz <= MAXVA ->
  uvm (k_mm s) l old To Mo n -> uvm (k_mm s) l new T M 0 ->
  (forall p, p ∈ tables T -> p ∉ range_pas Mo 0 n ++ tables To) -> (forall i : nat, (i < n)%nat -> M !! Z.of_nat i = None) ->
  exists r s', uvmcopy old new sz e s = Ret r e s' /\ copy_result old new n l To T Mo M s r s'.
Proof.
  intros n Hok Hlk Hsz Ho Hu Hdisj Hfree. set (b := m_bytes (k_mm s)).
  set (perm := fun i : nat => PTE_FLAGS (default 0 (Mo !! Z.of_nat i))). set (fill := fun (i : nat) (o : Z) => ldb b (PTE2PA (default 0 (Mo !! Z.of_nat i)) + o)).
  assert (Hkeep : forall k s' l' T' M', grown new perm fill s l T M 0 k s' l' T' M' -> mem_step s s' /\ uvm (k_mm s') l' old To Mo n /\
    forall (i : nat) pte o, (i < n)%nat -> Mo !! Z.of_nat i = Some pte -> 0 <= o < PGSIZE -> ldb (m_bytes (k_mm s')) (PTE2PA pte + o) = ldb b (PTE2PA pte + o)).
  { intros k s' l' T' M' G. split_and!; [apply G | by eapply (old_kept (k_hw s) Hok Hlk old new e s l To T Mo M sz) |].
    intros i pte o Hi Hpte Hx. pose proof (elem_range_pas Mo n i pte Hi Hpte) as Hin.
    eapply page_kept; [apply (gr_off _ _ _ _ _ _ _ _ _ _ _ _ _ G) | apply (pw_ok _ _ _ _ _ (uv_world _ _ _ _ _ _ Hu)) | | | done].
    - pose proof (uv_ok _ _ _ _ _ _ Ho) as H. rewrite Forall_forall in H. by apply H.
    - rewrite elem_of_app. intros [Hx'|Hx']; [|apply (Hdisj _ Hx'); set_solver].
      pose proof (uv_nodup _ _ _ _ _ _ Ho) as N. apply NoDup_app in N as (_ & N & _). apply (N _ Hin). set_solver. }
  apply wp_run.
  eapply (wp_uvmcopy (k_hw s) Hok Hlk old new e s l To T Mo M sz); try done.
  - intros s' l' T' M' G Ho'. split; [done|]. destruct (Hkeep _ _ _ _ _ G) as (K1 & K2 & K3). split; [done|]. exists l', T', M'. split_and!; [done | done |]. left. pose proof G as [G1 G2 G3 G4 G5 G6 G7].
    rewrite Nat.sub_0_r in G5. split_and!; [done | done | intros v Hv; apply G3; lia | done |]. by eapply copy_entries.
  - intros s' Hun Hc. split; [done|]. destruct (undone_grown new perm fill _ _ _ _ _ Hun) as (l' & T' & G). destruct (Hkeep _ _ _ _ _ G) as (K1 & K2 & K3).
    split; [done|]. exists l', T', M. split_and!; [done | done |]. right. split_and!; [done | done | apply G | apply (gr_pages _ _ _ _ _ _ _ _ _ _ _ _ _ G)].
Qed.

(** A parent of two pages, the second of them not full, a child with an empty page
    table, and six free pages. *)
Definition copy_free : list Z := [0x80071000; 0x80072000; 0x80073000; 0x80074000; 0x80075000; 0x80076000].
Definition chain_mem (b : gmap Z Z) (l : list Z) : gmap Z Z := foldr (fun x b => st64 b x.1 x.2) b (zip l (drop 1 l)).
Definition copy_tables : gmap pkey Z := {[(2, 0) := 0x80030000; (1, 0) := 0x80031000; (0, 0) := 0x80032000]}.
Definition copy_map : gmap Z Z := {[0 := Z.lor (PA2PTE 0x80040000) user_flags; 1 := Z.lor (PA2PTE 0x80050000) user_flags]}.
Definition copy_demo : kstate :=
  set_k_mm (set_m_freelist 0x80071000 (set_m_bytes (stb (chain_mem two_pages copy_free) 0x80040003 7) mm0)) boot.

Lemma copy_demo_free : free_list (k_mm copy_demo) copy_free.
Proof.
  split_and!; [done | | |].
  - refine (bool_decide_eq_true_1 _ _). vm_compute. reflexivity.
  - refine (bool_decide_eq_true_1 _ _); vm_compute; reflexivity.
  - vm_compute. intuition.
Qed.
Lemma copy_demo_old : uvm (k_mm copy_demo) copy_free 0x80030000 copy_tables copy_map 2.
Proof.
  constructor; [constructor | | |].
  - apply copy_demo_free.
  - apply ptableb_sound. vm_compute. reflexivity.
  - refine (bool_decide_eq_true_1 _ _); vm_compute; reflexivity.
  - refine (bool_decide_eq_true_1 _ _). vm_compute. reflexivity.
  - intros i Hi. destruct i as [|[|i]]; [vm_compute; eauto..|lia].
  - refine (bool_decide_eq_true_1 _ _); vm_compute; reflexivity.
  - refine (bool_decide_eq_true_1 _ _). vm_compute. reflexivity.
Qed.
Definition root_only (p : Z) : gmap pkey Z := {[(2, 0) := p]}.
Lemma copy_demo_new : uvm (k_mm copy_demo) copy_free 0x80060000 (root_only 0x80060000) ∅ 0.
Proof.
  constructor; [constructor | | |].
  - apply copy_demo_free.
  - apply ptableb_sound. vm_compute. reflexivity.
  - refine (bool_decide_eq_true_1 _ _); vm_compute; reflexivity.
  - refine (bool_decide_eq_true_1 _ _). vm_compute. reflexivity.
  - intros i Hi. lia.
  - constructor.
  - refine (bool_decide_eq_true_1 _ _). vm_compute. reflexivity.
Qed.

Lemma uvmcopy_copies_witness :
  exists s', uvmcopy 0x80030000 0x80060000 0x1800 [] copy_demo = Ret 0 [] s' /\
    copy_result 0x80030000 0x80060000 2 copy_free copy_tables (root_only 0x80060000) copy_map ∅ copy_demo 0 s'.
Proof.
  destruct (uvmcopy_copies 0x80030000 0x80060000 [] copy_demo copy_free copy_tables (root_only 0x80060000) copy_map ∅ 0x1800) as (r & s' & E & H).
  - by apply boot_hart.
  - by apply boot_lock.
  - done.
  - exact copy_demo_old.
  - exact copy_demo_new.
  - intros p Hp. change (tables (root_only 0x80060000)) with [0x80060000] in Hp. apply list_elem_of_singleton in Hp as ->.
    refine (bool_decide_eq_false_1 _ _). vm_compute. reflexivity.
  - intros i _. apply lookup_empty.
  - exists s'. assert (r = 0) as ->; [|split; [exact E | exact H]].
    destruct H as (_ & l' & T' & M' & _ & _ & [H|H]); [by destruct H|]. destruct H as (_ & H & _). vm_compute in H. lia.
Defined.
