(* ===== verification/Ufree.v ===== *)
(** Giving an address space back (vm.c: [freewalk], [uvmfree]).

    [freewalk] recurses over the tree of page-table pages, freeing the children of a
    table before the table itself.  The subtree of a table is described by the keys
    below its own, and each step takes those keys out of the finite map of tables. *)
From S2P Require Import Prelude State Spinlock Queue Boot Cstring Kalloc Vm Uspace Ptable Uvm.

(** the keys of the tables below, or at, index [k] of level [lv] *)
Definition below (lv k : Z) (x : pkey) : Prop := x.1 <= lv /\ x.2 / 512 ^ (lv - x.1) = k.
(** those below the first [j] entries of that table *)
Definition below_first (lv k j : Z) (x : pkey) : Prop := x.1 < lv /\ k * 512 <= x.2 / 512 ^ (lv - 1 - x.1) < k * 512 + j.
#[export] Instance below_dec lv k x : Decision (below lv k x).
Proof. unfold below. apply _. Defined.
#[export] Instance below_first_dec lv k j x : Decision (below_first lv k j x).
Proof. unfold below_first. apply _. Defined.

(** every table but the root hangs on one of the level above *)
Definition closed (T : gmap pkey Z) : Prop :=
  forall lv k p, T !! (lv, k) = Some p -> 0 <= lv <= 2 /\ (lv < 2 -> is_Some (T !! (lv + 1, k / 512))).
(** the words of the tables below index [k] of level [lv], in a table with no leaf *)
Definition subtree (b : gmap Z Z) (T : gmap pkey Z) (lv k : Z) : Prop :=
  forall x p j, T !! x = Some p -> below lv k x -> 0 <= j < 512 -> ld64 b (p + 8 * j) = slot T ∅ x.1 (x.2 * 512 + j).
(** memory changes only in the pages of those tables *)
Definition same_above (T : gmap pkey Z) (lv k : Z) (b b' : gmap Z Z) : Prop :=
  forall a, (forall x p, below lv k x -> T !! x = Some p -> a < p \/ p + PGSIZE <= a) -> ldb b' a = ldb b a.

Lemma below_self lv k : below lv k (lv, k).
Proof. split; [done|]. cbn. by rewrite Z.sub_diag, Z.div_1_r. Qed.
Lemma below_split lv lv' k' : lv' < lv -> k' / 512 ^ (lv - lv') = k' / 512 ^ (lv - 1 - lv') / 512.
Proof.
  intros H. replace (lv - lv') with (lv - 1 - lv' + 1) by lia. rewrite Z.pow_add_r by lia. rewrite <- Z.div_div by (first [lia | apply Z.pow_nonzero; lia]). done.
Qed.
Lemma div_512 c k : c / 512 = k <-> k * 512 <= c < k * 512 + 512.
Proof. pose proof (Z.div_mod c 512 ltac:(lia)). pose proof (Z.mod_pos_bound c 512 ltac:(lia)). lia. Qed.
Lemma below_first_all lv k x : below lv k x <-> x = (lv, k) \/ below_first lv k 512 x.
Proof.
  unfold below, below_first. destruct x as [lv' k']. cbn. split.
  - intros [Hl Hk]. destruct (decide (lv' = lv)) as [->|Hne]; [left; rewrite Z.sub_diag, Z.div_1_r in Hk; by subst|]. right. split; [lia|].
    apply div_512. rewrite <- Hk. symmetry. apply below_split. lia.
  - intros [[= -> ->]|[Hl Hk]]; [by rewrite Z.sub_diag, Z.div_1_r|]. split; [lia|]. rewrite below_split by lia. by apply div_512.
Qed.
Lemma below_first_next lv k j x : 0 <= j -> below_first lv k (j + 1) x <-> below_first lv k j x \/ below (lv - 1) (k * 512 + j) x.
Proof. intros Hj. unfold below, below_first. split; [intros [H1 H2]; destruct (decide (x.2 / 512 ^ (lv - 1 - x.1) = k * 512 + j)); [right | left]; lia | intros [[H1 H2]|[H1 H2]]; lia]. Qed.
Lemma below_child lv k j x : 0 <= j < 512 -> below (lv - 1) (k * 512 + j) x -> below lv k x.
Proof. intros Hj Hb. apply below_first_all. right. unfold below, below_first in *. lia. Qed.

(** no table, no descendants *)
Lemma closed_up T lv x p : closed T -> T !! x = Some p -> x.1 <= lv <= 2 -> is_Some (T !! (lv, x.2 / 512 ^ (lv - x.1))).
Proof.
  intros Hc Hx Hlv. destruct x as [lv' k']. cbn [fst snd] in *. remember (Z.to_nat (lv - lv')) as d eqn:Ed. revert lv Hlv Ed. induction d as [|d IH]; intros lv Hlv Ed.
  - assert (lv = lv') as -> by lia. rewrite Z.sub_diag, Z.div_1_r. eauto.
  - destruct (IH (lv - 1) ltac:(lia) ltac:(lia)) as [q Hq]. destruct (Hc _ _ _ Hq) as [_ Hup]. specialize (Hup ltac:(lia)).
    replace (lv - 1 + 1) with lv in Hup by lia. by rewrite below_split by lia.
Qed.
Lemma closed_none T lv k x : closed T -> T !! (lv, k) = None -> lv <= 2 -> below lv k x -> T !! x = None.
Proof.
  intros Hc Hn Hl [Hx Hk]. destruct (T !! x) as [p|] eqn:E; [|done]. destruct (closed_up T lv x p Hc E ltac:(lia)) as [q Hq]. rewrite Hk in Hq. congruence.
Qed.
Lemma closed_remove T T' (P : pkey -> Prop) `{forall x, Decision (P x)} : closed T -> (forall x, T' !! x = if decide (P x) then None else T !! x) ->
  (forall lv k, 0 <= lv -> P (lv + 1, k / 512) -> P (lv, k)) -> closed T'.
Proof.
  intros Hc Hl HP lv k p Hx. rewrite Hl in Hx. destruct (decide (P (lv, k))); [done|]. destruct (Hc _ _ _ Hx) as [H1 H2]. split; [done|].
  intros H3. rewrite Hl, decide_False; [by apply H2|]. intros Hp. apply HP in Hp; [done | lia].
Qed.
Lemma below_parent lv k a c : 0 <= a -> below lv k (a + 1, c / 512) -> below lv k (a, c).
Proof.
  unfold below. cbn. intros Ha [H1 H2]. split; [lia|]. rewrite <- H2. replace (lv - a) with (1 + (lv - (a + 1))) by lia. rewrite Z.pow_add_r by lia.
  rewrite Z.div_div by (first [lia | apply Z.pow_pos_nonneg; lia]). done.
Qed.
Lemma below_up lv k a c : 0 <= a < lv -> below lv k (a, c) -> below lv k (a + 1, c / 512).
Proof.
  unfold below. cbn. intros Ha [H1 H2]. split; [lia|]. rewrite <- H2. replace (lv - a) with (1 + (lv - (a + 1))) by lia. rewrite Z.pow_add_r by lia.
  rewrite Z.div_div by (first [lia | apply Z.pow_pos_nonneg; lia]). done.
Qed.

Lemma table_pte_bits p : phys_page p -> Z.land (table_pte p) (Z.lor (Z.lor PTE_R PTE_W) PTE_X) = 0.
Proof.
  intros Hp. destruct (table_pte_fields p Hp) as (_ & _ & _ & Hf). change (Z.lor (Z.lor PTE_R PTE_W) PTE_X) with (Z.land 0x3FF 14).
  rewrite Z.land_assoc. fold (PTE_FLAGS (table_pte p)). rewrite Hf. done.
Qed.
Lemma tables_delete T x p : T !! x = Some p -> tables T ≡ₚ p :: tables (delete x T).
Proof. intros H. rewrite <- (insert_delete_id T x p H) at 1. by apply tables_insert, lookup_delete_eq. Qed.

(** free pages and tables, each on its own page *)
Record fworld (m : memory) (l : list Z) (T : gmap pkey Z) : Prop := {
  fw_free : free_list m l;
  fw_closed : closed T;
  fw_ok : Forall (page_ok (m_end m)) (l ++ tables T);
  fw_nodup : NoDup (l ++ tables T)
}.
Lemma fw_kern m l T : fworld m l T -> KERNBASE <= m_end m.
Proof. intros [(H & _) _ _ _]. done. Qed.
Lemma fw_table m l T x p : fworld m l T -> T !! x = Some p -> page_ok (m_end m) p /\ p ∉ l.
Proof.
  intros [_ _ Ho Hn] Hx. assert (Hin : p ∈ tables T) by (apply elem_tables; eauto). rewrite Forall_forall in Ho. split; [apply Ho; set_solver|].
  intros Hl. apply NoDup_app in Hn as (_ & Hn & _). by apply (Hn p).
Qed.
Lemma fw_disj m l T x y p q : fworld m l T -> T !! x = Some p -> T !! y = Some q -> x <> y -> p + PGSIZE <= q \/ q + PGSIZE <= p.
Proof.
  intros Hw Hx Hy Hne. destruct (fw_table _ _ _ _ _ Hw Hx) as [Hp _]. destruct (fw_table _ _ _ _ _ Hw Hy) as [Hq _]. eapply page_disj; [done | done|].
  intros ->. apply Hne. eapply tables_inj; [|done|done]. pose proof (fw_nodup _ _ _ Hw) as Hn. by apply NoDup_app in Hn as (_ & _ & ?).
Qed.

(** [T'] is [T] without the keys satisfying [P], their pages being free *)
Definition pruned (P : pkey -> Prop) `{forall x, Decision (P x)} (T T' : gmap pkey Z) : Prop :=
  forall x, T' !! x = if decide (P x) then None else T !! x.
Record walked (lv k : Z) (P : pkey -> Prop) `{forall x, Decision (P x)} (s : kstate) (l : list Z) (T : gmap pkey Z) (s' : kstate) : Prop := {
  wk_step : mem_step s s';
  wk_ex : exists l' T', fworld (k_mm s') l' T' /\ pruned P T T' /\ l' ++ tables T' ≡ₚ l ++ tables T /\
    subtree (m_bytes (k_mm s')) T' lv k;
  wk_off : same_above T lv k (m_bytes (k_mm s)) (m_bytes (k_mm s'))
}.

Lemma pruned_sub P `{forall x, Decision (P x)} T T' x p : pruned P T T' -> T' !! x = Some p -> T !! x = Some p /\ ~ P x.
Proof. intros Hp. rewrite Hp. by destruct (decide (P x)). Qed.
Lemma fworld_store m l T x p j v : fworld m l T -> T !! x = Some p -> 0 <= j < 512 -> fworld (set_m_bytes (st64 (m_bytes m) (p + 8 * j) v) m) l T.
Proof.
  intros Hw Hx Hj. destruct (fw_table _ _ _ _ _ Hw Hx) as [Hp Hl]. destruct Hw as [H1 H2 H3 H4]. constructor; try done.
  eapply (free_list_off _ _ _ [p]); [done | apply same_off_st64; [set_solver | lia | unfold PGSIZE; lia] | by apply Forall_singleton | set_solver].
Qed.
(** a word of a table that is not below *)
Lemma above_word m l T lv k b' x p j : fworld m l T -> same_above T lv k (m_bytes m) b' -> T !! x = Some p -> ~ below lv k x -> 0 <= j < 512 ->
  ld64 b' (p + 8 * j) = ld64 (m_bytes m) (p + 8 * j).
Proof.
  intros Hw Hs Hx Hb Hj. unfold ld64. apply (ldn_ext _ _ (p + 8 * j) 8). intros a Ha. apply Hs. intros y q Hy Hq.
  assert (x <> y) by (intros ->; done). pose proof (fw_disj _ _ _ _ _ _ _ Hw Hx Hq H). unfold PGSIZE in *. lia.
Qed.
(** taking out the subtree of an entry and clearing the entry *)
Lemma subtree_clear m l T lv k p (j : Z) T' b' : fworld m l T -> T !! (lv, k) = Some p -> 0 <= j < 512 -> 0 < lv ->
  subtree (m_bytes m) T lv k -> pruned (below (lv - 1) (k * 512 + j)) T T' -> same_above T (lv - 1) (k * 512 + j) (m_bytes m) b' ->
  subtree (st64 b' (p + 8 * j) 0) T' lv k.
Proof.
  intros Hw Hp Hj Hlv Hs Hpr Hab x r j' Hx Hb Hj'. destruct (pruned_sub _ _ _ _ _ Hpr Hx) as [Hx1 Hnb].
  assert (Hx0 : 0 <= x.1) by (destruct x as [a c]; destruct (fw_closed _ _ _ Hw _ _ _ Hx1) as [[? _] _]; done).
  destruct (decide ((x, j') = ((lv, k), j))) as [[= -> ->]|Hne].
  - pose proof (eq_trans (eq_sym Hp) Hx1) as [= <-]. rewrite ld64_st64 by lia. cbn [fst snd]. unfold slot. replace (lv =? 0) with false by lia.
    rewrite Hpr, decide_True by apply below_self. done.
  - rewrite ld64_st64_disj.
    2:{ destruct (decide (x = (lv, k))) as [->|Hxne]; [pose proof (eq_trans (eq_sym Hp) Hx1) as [= <-]; assert (j' <> j) by (intros ->; by apply Hne); lia|].
        pose proof (fw_disj _ _ _ _ _ _ _ Hw Hx1 Hp Hxne). unfold PGSIZE in *. lia. }
    rewrite (above_word _ _ _ _ _ _ _ _ _ Hw Hab Hx1 Hnb Hj'), (Hs x r j' Hx1 Hb Hj'). unfold slot. destruct (Z.eqb_spec x.1 0); [done|].
    rewrite Hpr, decide_False; [done|]. intros Hbad. destruct (decide (x.1 = lv)) as [El|El].
    + destruct Hbad as [_ Hbad]. cbn in Hbad. rewrite El, Z.sub_diag, Z.div_1_r in Hbad. destruct x as [a c]. cbn in *. subst a. apply Hne. assert (c = k) as -> by lia. f_equal. lia.
    + destruct Hb as [Hb1 _]. apply (below_up _ _ (x.1 - 1)) in Hbad; [|lia]. apply Hnb. replace (x.1 - 1 + 1) with x.1 in Hbad by lia.
      rewrite Z.div_add_l, (Z.div_small j'), Z.add_0_r in Hbad by lia. by destruct x.
Qed.

Section freewalk.
Context (h : hwstate) (Hok : hart_ok 1 h) (Hlk : lock_free h LKmem) (e : list (kstate -> kstate)).

(** the loop over the entries, and the table itself *)
Definition freewalk_spec (fuel : nat) (lv : Z) : Prop := forall k p s l T (Q : unit -> list (kstate -> kstate) -> kstate -> Prop),
  k_hw s ≈h h -> fworld (k_mm s) l T -> T !! (lv, k) = Some p -> subtree (m_bytes (k_mm s)) T lv k ->
  (forall s', walked lv k (below lv k) s l T s' -> Q tt e s') -> wp (freewalk fuel p) e s Q.

(** after [j] entries *)
Definition entries_done (lv k : Z) (s : kstate) (l : list Z) (T : gmap pkey Z) (j : nat) (s' : kstate) : Prop :=
  walked lv k (below_first lv k j) s l T s'.

Lemma slot_zero T lv k : closed T -> lv = 0 \/ T !! (lv - 1, k) = None -> slot T ∅ lv k = 0.
Proof using. intros Hc H. unfold slot. destruct (Z.eqb_spec lv 0); [by rewrite lookup_empty|]. destruct H as [H|H]; [lia | by rewrite H]. Qed.

Lemma entry_step fuel lv k p s l T (j : nat) s1 : 0 <= lv <= 2 -> (0 < lv -> freewalk_spec fuel (lv - 1)) ->
  k_hw s ≈h h -> fworld (k_mm s) l T -> T !! (lv, k) = Some p -> (j < 512)%nat -> entries_done lv k s l T j s1 ->
  wp (pte <- load64 (p + 8 * j);;
      if istrue (Z.land pte PTE_V) && (Z.land pte (Z.lor (Z.lor PTE_R PTE_W) PTE_X) =? 0) then
        freewalk fuel (PTE2PA pte);;
        store64 (p + 8 * j) 0
      else if istrue (Z.land pte PTE_V) then panic "freewalk: leaf"
      else ret tt) e s1 (fun _ e' s' => e' = e /\ entries_done lv k s l T (S j) s').
Proof using All.
  intros Hlv IH Hh Hw Hp Hj [Hm1 (l1 & T1 & W1 & P1 & N1 & S1) O1].
  assert (Hp1 : T1 !! (lv, k) = Some p) by (rewrite P1, decide_False; [done | unfold below_first; cbn; lia]).
  destruct (fw_table _ _ _ _ _ W1 Hp1) as [Hpk Hpl]. assert (Hr : in_ram (p + 8 * j) 8 = true) by (eapply page_word; [by eapply fw_kern | done | lia | unfold PGSIZE; lia]).
  pose proof (S1 (lv, k) p j Hp1 (below_self lv k) ltac:(lia)) as Hword. cbn [fst snd] in Hword.
  unfold load64. rewrite Hr. wp_step. wp_step. rewrite Hword.
  destruct (decide (lv = 0 \/ T1 !! (lv - 1, k * 512 + j) = None)) as [Hz|Hnz].
  - rewrite slot_zero by (done || apply W1). change (istrue (Z.land 0 PTE_V)) with false. cbn [andb]. wp_step. split; [done|].
    constructor; [done | | done]. exists l1, T1. split_and!; try done. intros x. rewrite P1.
    assert (Hx : below (lv - 1) (k * 512 + j) x -> T1 !! x = None).
    { intros Hb. destruct Hz as [->|Hz]; [|eapply closed_none; [apply W1 | exact Hz | lia | done]].
      destruct (T1 !! x) as [q|] eqn:E; [|done]. destruct x as [a c]. destruct (fw_closed _ _ _ W1 _ _ _ E) as [Ha _]. destruct Hb as [Hb _]. cbn in Hb. lia. }
    replace (Z.of_nat (S j)) with (Z.of_nat j + 1) by lia. pose proof (below_first_next lv k j x ltac:(lia)) as Hn.
    destruct (decide (below_first lv k j x)) as [Hd|Hd]; [by rewrite decide_True by (apply Hn; by left)|].
    destruct (decide (below_first lv k (j + 1) x)) as [Hd'|Hd']; [|done]. apply Hn in Hd' as [Hd'|Hd']; [done|]. rewrite <- (Hx Hd'), P1, decide_False by done. done.
  - assert (Hl0 : lv <> 0) by tauto. destruct (T1 !! (lv - 1, k * 512 + j)) as [q|] eqn:Eq; [|exfalso; apply Hnz; by right].
    destruct (fw_table _ _ _ _ _ W1 Eq) as [Hqk _]. assert (Hqp : phys_page q) by (eapply page_ok_phys; [by eapply fw_kern | done]).
    destruct (table_pte_fields q Hqp) as (F1 & F2 & _ & _). unfold slot. replace (lv =? 0) with false by lia. rewrite Eq. cbn [from_option].
    rewrite F1, F2, (table_pte_bits q Hqp). cbn [andb Z.eqb]. wp_step.
    eapply (IH ltac:(lia) (k * 512 + j) q s1 l1 T1); [by eapply mem_step_hw | done | done | |].
    { intros x r j' Hx Hb. apply S1; [done|]. eapply below_child; [|exact Hb]. lia. }
    intros s2 [Hm2 (l2 & T2 & W2 & P2 & N2 & S2) O2].
    assert (Hp2 : T2 !! (lv, k) = Some p) by (rewrite P2, decide_False; [done | unfold below; cbn; lia]).
    unfold store64, modify_bytes, modify_mm. rewrite Hr. apply wp_modify. split; [done|]. constructor.
    + eapply mem_step_trans; [exact Hm1|]. eapply mem_step_trans; [exact Hm2 | apply mem_step_bytes].
    + exists l2, T2. split_and!; [eapply fworld_store; [done | done | lia] | | by rewrite N2 |].
      * intros x. rewrite P2, P1. replace (Z.of_nat (S j)) with (Z.of_nat j + 1) by lia. pose proof (below_first_next lv k j x ltac:(lia)) as Hn.
        destruct (decide (below (lv - 1) (k * 512 + j) x)) as [Hb|Hb]; [by rewrite decide_True by (apply Hn; by right)|].
        destruct (decide (below_first lv k j x)) as [Hd|Hd]; [by rewrite decide_True by (apply Hn; by left)|]. rewrite decide_False; [done|]. tauto.
      * eapply (subtree_clear (k_mm s1) l1 T1); [done | done | lia | lia | done | done | done].
    + intros a Ha. cbn [m_bytes k_mm set_k_mm set_m_bytes]. unfold st64. rewrite ldb_stn, decide_False.
      2:{ pose proof (Ha (lv, k) p (below_self lv k) Hp). unfold PGSIZE in *. lia. }
      rewrite O2; [by apply O1|]. intros x r Hb Hx. apply (Ha x); [|by apply (pruned_sub _ _ _ _ _ P1)]. eapply below_child; [|exact Hb]. lia.
Qed.

Lemma pruned_all lv k T T1 : pruned (below_first lv k 512) T T1 -> pruned (below lv k) T (delete (lv, k) T1).
Proof using.
  intros Hp x. destruct (decide (x = (lv, k))) as [->|Hne].
  - rewrite lookup_delete_eq, decide_True; [done | apply below_self].
  - rewrite lookup_delete_ne by done. rewrite Hp. pose proof (below_first_all lv k x). destruct (decide (below_first lv k 512 x)); [by rewrite decide_True by tauto|].
    rewrite decide_False by tauto. done.
Qed.
(** the table itself is freed last *)
Lemma walked_free lv k p s l T s1 l1 T1 : fworld (k_mm s) l T -> T !! (lv, k) = Some p -> mem_step s s1 -> fworld (k_mm s1) l1 T1 ->
  pruned (below_first lv k 512) T T1 -> l1 ++ tables T1 ≡ₚ l ++ tables T -> same_above T lv k (m_bytes (k_mm s)) (m_bytes (k_mm s1)) ->
  walked lv k (below lv k) s l T (set_k_mm (mm_free p (k_mm s1)) (set_k_hw (hw_crit (k_hw s1)) s1)).
Proof using.
  intros Hw Hp Hm1 W1 P1 N1 O1. assert (Hp1 : T1 !! (lv, k) = Some p) by (rewrite P1, decide_False; [done | unfold below_first; cbn; lia]).
  pose proof (pruned_all _ _ _ _ P1) as P2. pose proof (tables_delete _ _ _ Hp1) as Hd. destruct (fw_table _ _ _ _ _ W1 Hp1) as [Hpk Hpl].
  constructor.
  - eapply mem_step_trans; [exact Hm1|]. eexists _, _, _. split; [reflexivity | apply hw_crit_eqv].
  - exists (p :: l1), (delete (lv, k) T1). split_and!; [|done | |].
    + destruct W1 as [F1 F2 F3 F4]. rewrite Hd, <- Permutation_middle in F4. rewrite Hd, <- Permutation_middle in F3. constructor; try done.
      * apply free_list_free; [done | done | done | by eapply free_list_head].
      * eapply (closed_remove T _ (below lv k)); [apply (fw_closed _ _ _ Hw) | exact P2 |]. intros a c Ha. by apply below_parent.
    + rewrite <- N1, Hd. cbn. by rewrite <- Permutation_middle.
    + intros x q j Hx Hb. destruct (pruned_sub _ _ _ _ _ P2 Hx) as [_ Hnb]. done.
  - intros a Ha. pose proof (Ha (lv, k) p (below_self lv k) Hp) as Hpa. cbn [k_mm set_k_mm set_k_hw mm_free m_bytes set_m_freelist set_m_bytes].
    unfold st64. rewrite ldb_stn, decide_False by (unfold PGSIZE in *; lia). rewrite ldb_memset, decide_False by (unfold PGSIZE in *; lia). by apply O1.
Qed.

Lemma freewalk_ok (fuel : nat) lv : Z.of_nat fuel = lv + 1 -> 0 <= lv <= 2 -> freewalk_spec fuel lv.
Proof using All.
  revert lv. induction fuel as [|fuel IH]; intros lv Hf Hlv k p s l T Q Hh Hw Hp Hs HQ; [lia|]. cbn [freewalk]. wp_step.
  eapply (wp_seq _ (entries_done lv k s l T)).
  - constructor; [apply mem_step_refl | | by intros a _]. exists l, T. split_and!; try done.
    intros x. rewrite decide_False; [done|]. unfold below_first. lia.
  - intros j s1 Hj Hd. eapply wp_mono; [eapply entry_step; try done|]. { intros Hl. apply IH; lia. } cbn. tauto.
  - intros s1 [Hm1 (l1 & T1 & W1 & P1 & N1 & S1) O1]. assert (Hp1 : T1 !! (lv, k) = Some p) by (rewrite P1, decide_False; [done | unfold below_first; cbn; lia]).
    destruct (fw_table _ _ _ _ _ W1 Hp1) as [Hpk Hpl]. assert (Hh1 : h ≈h k_hw s1) by (symmetry; by eapply mem_step_hw).
    eapply (wp_kfree s1 e l1); [by eapply hart_ok_eqv | by eapply lock_free_eqv | apply W1 | done |].
    apply HQ. by eapply walked_free.
Qed.
End freewalk.

(** ** uvmfree *)
Section uvmfree.
Context (h : hwstate) (Hok : hart_ok 1 h) (Hlk : lock_free h LKmem) (e : list (kstate -> kstate)).

Lemma pworld_fworld m l pt T : pworld m l pt T ∅ -> fworld m l T /\ subtree (m_bytes m) T 2 0 /\ (forall x p, T !! x = Some p -> below 2 0 x).
Proof using.
  intros [Hf [R1 R2 R3 R4] Ho Hn].
  assert (Hc : closed T) by (intros lv k p Hx; destruct (R2 _ _ _ Hx) as [[? ?]|[-> _]]; [split; [lia | done] | lia]).
  split_and!; [done | |].
  - intros [lv k] p j Hx _ Hj. by apply R3.
  - intros [lv k] p Hx. destruct (Hc _ _ _ Hx) as [Hlv _]. destruct (closed_up T 2 _ _ Hc Hx) as [q Hq]; [cbn; lia|]. split; [cbn; lia|].
    destruct (R2 _ _ _ Hq) as [[? _]|[_ ?]]; [lia | done].
Qed.

Lemma wp_freewalk_all pt s l T (Q : unit -> list (kstate -> kstate) -> kstate -> Prop) : k_hw s ≈h h -> pworld (k_mm s) l pt T ∅ ->
  (forall s' l', mem_step s s' -> free_list (k_mm s') l' -> l' ≡ₚ l ++ tables T -> same_off (tables T) (m_bytes (k_mm s)) (m_bytes (k_mm s')) -> Q tt e s') ->
  wp (freewalk 3 pt) e s Q.
Proof using All.
  intros Hh Hw HQ. destruct (pworld_fworld _ _ _ _ Hw) as (W & Hs & Hb). pose proof (pt_root _ _ _ _ (pw_pt _ _ _ _ _ Hw)) as Hr.
  eapply (freewalk_ok h Hok Hlk e 3 2 ltac:(done) ltac:(lia) 0 pt s l T); try done. intros s' [Hm (l' & T' & W' & P' & N' & _) Hoff].
  assert (T' = ∅) as ->. { apply map_eq. intros x. rewrite P', lookup_empty. destruct (decide (below 2 0 x)) as [|Hn]; [done|]. destruct (T !! x) as [p|] eqn:E; [|done]. by destruct (Hn (Hb _ _ E)). }
  apply (HQ s' l'); [done | apply W' | by rewrite <- N'; unfold tables; rewrite map_to_list_empty, app_nil_r |].
  intros a Ha. apply Hoff. intros x p _ Hx. apply Ha, elem_tables. eauto.
Qed.

Lemma wp_uvmfree pt sz s l T M (Q : unit -> list (kstate -> kstate) -> kstate -> Prop) : k_hw s ≈h h -> 0 <= sz <= MAXVA -> uvm (k_mm s) l pt T M (pgs sz) ->
  (forall v, v < 0 \/ pgs sz <= v -> M !! v = None) ->
  (forall s' l', mem_step s s' -> free_list (k_mm s') l' -> l' ≡ₚ range_pas M 0 (pgs sz) ++ l ++ tables T ->
     same_off (range_pas M 0 (pgs sz) ++ tables T) (m_bytes (k_mm s)) (m_bytes (k_mm s')) -> Q tt e s') ->
  wp (uvmfree pt sz) e s Q.
Proof using All.
  intros Hh Hsz [W Hmap Hpo Hnd] Hdom HQ. unfold uvmfree. destruct (pgs_bounds sz Hsz) as (En & Bn & Bn'). set (n := pgs sz) in *. wp_step. apply wp_when; intros Hlt.
  - rewrite En, Z.div_mul by done. eapply (wp_uvmunmap h Hok Hlk pt M e 0 n true s l T); try done.
    intros s1 (Hm1 & W1 & O1). unfold freed in *. change (vpn 0) with 0 in *. set (gone := range_pas M 0 n) in *.
    rewrite take_ge in W1, O1 by (unfold gone; by rewrite length_range_pas).
    assert (unmap_range M 0 n = ∅) as EM.
    { apply map_eq. intros v. rewrite lookup_unmap_range, lookup_empty. destruct (decide _) as [|Hv]; [done|]. apply Hdom. lia. }
    rewrite EM in W1. eapply wp_freewalk_all; [by eapply mem_step_hw | exact W1 |]. intros s2 l2 Hm2 Hf2 Hp2 O2. eapply HQ; [by eapply mem_step_trans | exact Hf2 | |].
    + rewrite Hp2, <- (Permutation_rev gone), <- app_assoc. done.
    + eapply same_off_trans; [exact O1|]. eapply same_off_mono; [|exact O2]. set_solver.
  - apply Z.ltb_ge in Hlt. assert (n = 0%nat) as E0 by (unfold PGSIZE in *; lia). rewrite E0 in *.
    assert (M = ∅) as ->. { apply map_eq. intros v. rewrite lookup_empty. apply Hdom. lia. }
    eapply wp_freewalk_all; [done | exact W |]. intros s2 l2 Hm2 Hf2 Hp2 O2. by eapply HQ.
Qed.
End uvmfree.
