(* ===== verification/Printf.v ===== *)
(** Kernel output: the polled UART path of uart.c, [consputc] of console.c and
    the formatter of printf.c.

    The UART is part of the machine state: [u_txidle] is the LSR_TX_IDLE bit and
    [u_after] what it reads after a byte is sent; polling a busy UART lets the
    rest of the machine run.  The theorems show that [printf] sends exactly the
    formatted text and that [%d] prints the decimal numeral of its argument. *)
From S2P Require Import Prelude State Spinlock Queue Boot.
From Stdlib Require Import Ascii.

(** ** uart.c *)

(** [while((ReadReg(LSR) & LSR_TX_IDLE) == 0);] *)
Fixpoint wait_tx_idle (fuel : nat) : K unit :=
  idle <- gets (fun s => u_txidle (k_io s));;
  if (idle : bool) then ret tt else
  match fuel with
  | O => fun e s => Blocked s
  | S fuel' => interfere;; wait_tx_idle fuel'
  end.

Definition write_THR (c : Z) : K unit :=
  modify_io (fun d => set_u_txidle (u_after d (u8 c)) (set_u_tx (u_tx d ++ [u8 c]) d)).

Definition uartputc_sync (c : Z) : K unit :=
  push_off;;
  panicked <- gets (fun s => pr_panicked (k_io s));;
  if istrue panicked then (fun e s => Blocked s) else
  (fun e s => wait_tx_idle (length e) e s);;
  write_THR c;;
  pop_off.

(** ** console.c *)
Definition BACKSPACE : Z := 0x100.
Definition consputc (c : Z) : K unit :=
  if c =? BACKSPACE then uartputc_sync 8;; uartputc_sync 32;; uartputc_sync 8
  else uartputc_sync c.

(** ** printf.c *)
Definition digits : list Z := chars "0123456789abcdef".
Definition digit (d : Z) : Z := default 0 (digits !! Z.to_nat d).

(** the [do ... while] loop of [printint]: the digits of [x], lowest first *)
Fixpoint print_digits (fuel : nat) (x base : Z) : list Z :=
  match fuel with
  | O => []
  | S f => digit (x mod base) :: if x / base =? 0 then [] else print_digits f (x / base) base
  end.

(** the characters [printint] leaves in [buf], in output order *)
Definition printint_chars (xx base sign : Z) : list Z :=
  let neg := istrue sign && (xx <? 0) in
  let x := if neg then u32 (- xx) else u32 xx in
  rev (print_digits 16 x base ++ if neg then chars "-" else []).
Definition printint (xx base sign : Z) : K unit :=
  mforall (printint_chars xx base sign) consputc.

(** [for (i = 0; i < 16; i++, x <<= 4) consputc(digits[x >> 60]);] *)
Fixpoint printptr_digits (n : nat) (x : Z) : list Z :=
  match n with
  | O => []
  | S n' => digit (Z.shiftr x 60) :: printptr_digits n' (u64 (Z.shiftl x 4))
  end.
Definition printptr (x : Z) : K unit :=
  consputc (char_code "0");; consputc (char_code "x");;
  mforall (printptr_digits 16 x) consputc.

(** the variable arguments of [printf] *)
Inductive varg := AInt (z : Z) | APtr (z : Z) | AStr (s : option (list Z)).

(** the loop over the format string *)
Fixpoint printf_go (fmt : list Z) (ap : list varg) : K unit :=
  match fmt with
  | [] => ret tt
  | c :: rest =>
      if negb (c =? 37) then consputc c;; printf_go rest ap else
      match rest with
      | [] => ret tt
      | c :: rest' =>
          if c =? 100 then
            match ap with AInt z :: ap' => printint (s32 z) 10 1;; printf_go rest' ap'
                        | _ => fault "va_arg" end
          else if c =? 120 then
            match ap with AInt z :: ap' => printint (s32 z) 16 1;; printf_go rest' ap'
                        | _ => fault "va_arg" end
          else if c =? 112 then
            match ap with APtr z :: ap' => printptr z;; printf_go rest' ap'
                        | _ => fault "va_arg" end
          else if c =? 115 then
            match ap with
            | AStr s :: ap' => mforall (default (chars "(null)") s) consputc;; printf_go rest' ap'
            | _ => fault "va_arg" end
          else if c =? 37 then consputc 37;; printf_go rest' ap
          else consputc 37;; consputc c;; printf_go rest' ap
      end
  end.

Definition printf (fmt : string) (ap : list varg) : K unit :=
  locking <- gets (fun s => pr_locking (k_io s));;
  when (istrue locking) (acquire LPr);;
  printf_go (chars fmt) ap;;
  when (istrue locking) (release LPr).

Definition printfinit : K unit :=
  initlock LPr "pr";; modify_io (set_pr_locking 1).

(** ** The text [printf] stands for *)
Fixpoint format (fmt : list Z) (ap : list varg) : option (list Z) :=
  match fmt with
  | [] => Some []
  | c :: rest =>
      if negb (c =? 37) then cons c <$> format rest ap else
      match rest with
      | [] => Some []
      | c :: rest' =>
          if c =? 100 then
            match ap with AInt z :: ap' => app (printint_chars (s32 z) 10 1) <$> format rest' ap'
                        | _ => None end
          else if c =? 120 then
            match ap with AInt z :: ap' => app (printint_chars (s32 z) 16 1) <$> format rest' ap'
                        | _ => None end
          else if c =? 112 then
            match ap with
            | APtr z :: ap' => app (chars "0x" ++ printptr_digits 16 z) <$> format rest' ap'
            | _ => None end
          else if c =? 115 then
            match ap with AStr s :: ap' => app (default (chars "(null)") s) <$> format rest' ap'
                        | _ => None end
          else if c =? 37 then cons 37 <$> format rest' ap
          else app [37; c] <$> format rest' ap
      end
  end.

(** A UART that takes a byte at any time. *)
Definition uart_ready (d : io) : Prop :=
  u_txidle d = true /\ (forall c, u_after d c = true) /\ pr_panicked d = 0.

Definition io_tx (l : list Z) (d : io) : io := set_u_tx (u_tx d ++ (u8 <$> l)) d.

Lemma io_tx_ready l d : uart_ready d -> uart_ready (io_tx l d).
Proof. done. Qed.
Lemma io_tx_app l l' d : io_tx l' (io_tx l d) = io_tx (l ++ l') d.
Proof. unfold io_tx. cbn. by rewrite fmap_app, app_assoc. Qed.
Lemma io_tx_nil d : io_tx [] d = d.
Proof. unfold io_tx. cbn. rewrite app_nil_r. by destruct d. Qed.

Lemma wp_uartputc_sync c e s (Q : unit -> list (kstate -> kstate) -> kstate -> Prop) :
  hart_ok 1 (k_hw s) -> uart_ready (k_io s) ->
  Q tt e (set_k_io (io_tx [c] (k_io s)) (set_k_hw (hw_crit (k_hw s)) s)) ->
  wp (uartputc_sync c) e s Q.
Proof.
  intros Hok (Hidle & Hafter & Hpan) HQ. pose proof Hok as (c' & Hc & Hn & Hs).
  unfold uartputc_sync. wp_step. apply wp_push_off; [done|]. wp_steps. cbn. rewrite Hpan. cbn.
  wp_step. apply (wp_intro _ _ _ tt e (set_k_hw (hw_push (k_hw s)) s)).
  { destruct e; unfold wait_tx_idle, bind; cbn; by rewrite Hidle. }
  unfold write_THR, modify_io. wp_steps.
  eapply (wp_pop_off _ _ (cpu_push (sie (k_hw s)) c')).
  - by apply (cur_cpu_push _ c').
  - unfold cpu_push. cbn. lia.
  - cbn. unfold sie, hw_push, cur_cpu. rewrite Hc. cbn. rewrite land_SIE. apply intr_off_bit.
  - cbn. rewrite (hw_pop_push _ c') by tauto. rewrite Hafter. revert HQ. unfold io_tx. cbn.
    destruct (k_io s). cbn in *. by subst.
Qed.

(** Printed characters are bytes, so [consputc] sends them as they are. *)
Definition printable (l : list Z) : Prop := Forall (fun c => c <> BACKSPACE) l.

(** Sending characters one after the other. *)
Lemma wp_consputs l h e s (Q : unit -> list (kstate -> kstate) -> kstate -> Prop) :
  hart_ok 1 h -> k_hw s ≈h h -> uart_ready (k_io s) -> printable l ->
  (forall h', h' ≈h h -> Q tt e (set_k_io (io_tx l (k_io s)) (set_k_hw h' s))) ->
  wp (mforall l consputc) e s Q.
Proof.
  intros Hok Heq Hr Hl. revert s Heq Hr. induction Hl as [|c l Hc Hl IH]; intros s Heq Hr HQ; cbn [mforall].
  - wp_step. specialize (HQ (k_hw s) Heq). rewrite io_tx_nil in HQ. by destruct s.
  - wp_step. unfold consputc. destruct (Z.eqb_spec c BACKSPACE); [done|].
    apply wp_uartputc_sync; [by eapply hart_ok_eqv | done |].
    apply IH; [cbn; by rewrite hw_crit_eqv | by apply io_tx_ready |].
    intros h' Hh'. specialize (HQ h' Hh'). cbn. rewrite io_tx_app. exact HQ.
Qed.

Lemma char_code_range c : 0 <= char_code c < 256.
Proof. unfold char_code. pose proof (N_ascii_bounded c). lia. Qed.
Lemma chars_printable s : printable (chars s).
Proof.
  unfold printable, chars. apply Forall_fmap, Forall_forall. intros c _. cbn.
  pose proof (char_code_range c). unfold BACKSPACE. lia.
Qed.
Lemma digit_range d : 0 <= digit d < 256.
Proof.
  unfold digit. destruct (digits !! Z.to_nat d) as [x|] eqn:E; [|cbn; lia]. cbn.
  unfold digits, chars in E. rewrite list_lookup_fmap in E.
  apply fmap_Some in E as (c & _ & ->). apply char_code_range.
Qed.
Lemma print_digits_printable f x b : printable (print_digits f x b).
Proof.
  revert x. induction f as [|f IH]; intros x; cbn; [constructor|].
  constructor; [pose proof (digit_range (x mod b)); unfold BACKSPACE; lia|].
  destruct (x / b =? 0); [constructor | apply IH].
Qed.
Lemma printptr_printable n x : printable (printptr_digits n x).
Proof.
  revert x. induction n as [|n IH]; intros x; cbn; constructor; [|apply IH].
  pose proof (digit_range (Z.shiftr x 60)). unfold BACKSPACE. lia.
Qed.
Lemma printint_printable xx b sg : printable (printint_chars xx b sg).
Proof.
  unfold printable, printint_chars. apply Forall_rev, Forall_app.
  split; [apply print_digits_printable|].
  destruct (istrue sg && (xx <? 0)); [apply chars_printable | constructor].
Qed.

Definition varg_ok (a : varg) : Prop :=
  match a with AStr (Some l) => printable l | _ => True end.

Lemma printable_app l l' : printable (l ++ l') <-> printable l /\ printable l'.
Proof. apply Forall_app. Qed.

Section printf.
Context (h : hwstate) (e : list (kstate -> kstate)).
Context (Hok : hart_ok 1 h).

(** what a printing step contributes: its text, and nothing else *)
Definition emits (m : K unit) (out : list Z) : Prop :=
  forall s (Q : unit -> list (kstate -> kstate) -> kstate -> Prop),
    k_hw s ≈h h -> uart_ready (k_io s) ->
    (forall h', h' ≈h h -> Q tt e (set_k_io (io_tx out (k_io s)) (set_k_hw h' s))) ->
    wp m e s Q.

Lemma emits_nil : emits (ret tt) [].
Proof.
  intros s Q Heq _ HQ. wp_step. specialize (HQ (k_hw s) Heq). rewrite io_tx_nil in HQ.
  by destruct s.
Qed.
Lemma emits_seq m m' l l' : emits m l -> emits m' l' -> emits (m;; m') (l ++ l').
Proof.
  intros Hm Hm' s Q Heq Hr HQ. wp_step. apply Hm; [done..|]. intros h1 H1. apply Hm'; [done..|].
  intros h2 H2. specialize (HQ h2 H2). cbn. rewrite io_tx_app. exact HQ.
Qed.
Lemma emits_chars l : printable l -> emits (mforall l consputc) l.
Proof. intros Hl s Q Heq Hr HQ. by eapply wp_consputs. Qed.
Lemma emits_consputc c : c <> BACKSPACE -> emits (consputc c) [c].
Proof.
  intros Hc s Q Heq Hr HQ. unfold consputc. destruct (Z.eqb_spec c BACKSPACE); [done|].
  apply wp_uartputc_sync; [by eapply hart_ok_eqv | done|]. apply HQ. by rewrite hw_crit_eqv.
Qed.

Lemma emits_printf_go_aux n : forall fmt ap out, (length fmt <= n)%nat -> printable fmt ->
  Forall varg_ok ap -> format fmt ap = Some out -> emits (printf_go fmt ap) out.
Proof.
  induction n as [|n IH]; intros fmt ap out Hn Hfmt Hap Hf.
  { destruct fmt; [|cbn in Hn; lia]. injection Hf as <-. apply emits_nil. }
  destruct fmt as [|c rest]; [injection Hf as <-; apply emits_nil|].
  cbn [printf_go format length] in *. inversion Hfmt as [|? ? Hc Hrest]; subst.
  destruct (Z.eqb_spec c 37) as [->|Hne]; cbn [negb] in *.
  2:{ apply fmap_Some in Hf as (o & Ho & ->). apply (emits_seq _ _ [c] o).
      - by apply emits_consputc.
      - apply IH; [lia|done..]. }
  destruct rest as [|d rest]; [injection Hf as <-; apply emits_nil|].
  inversion Hrest as [|? ? Hd Hrest']; subst. cbn [length] in Hn.
  destruct (Z.eqb_spec d 100); [|destruct (Z.eqb_spec d 120); [|destruct (Z.eqb_spec d 112);
    [|destruct (Z.eqb_spec d 115); [|destruct (Z.eqb_spec d 37)]]]].
  1,2: destruct ap as [|[z|z|z] ap]; try done; apply fmap_Some in Hf as (o & Ho & ->);
    inversion Hap; subst; apply emits_seq; [apply emits_chars, printint_printable |
    apply IH; [lia | done..]].
  - destruct ap as [|[z|z|z] ap]; try done. apply fmap_Some in Hf as (o & Ho & ->).
    inversion Hap; subst. apply emits_seq; [|apply IH; [lia | done..]].
    unfold printptr. change (chars "0x") with ([char_code "0"] ++ [char_code "x"]).
    rewrite <- app_assoc. apply emits_seq; [by apply emits_consputc|].
    apply emits_seq; [by apply emits_consputc|]. apply emits_chars, printptr_printable.
  - destruct ap as [|[z|z|z] ap]; try done. apply fmap_Some in Hf as (o & Ho & ->).
    inversion Hap as [|? ? Hz Hap']; subst. apply emits_seq; [|apply IH; [lia | done..]].
    apply emits_chars. destruct z; [exact Hz | apply chars_printable].
  - apply fmap_Some in Hf as (o & Ho & ->). apply (emits_seq _ _ [37] o);
      [by apply emits_consputc | apply IH; [lia | done..]].
  - apply fmap_Some in Hf as (o & Ho & ->). apply (emits_seq _ _ [37] (d :: o));
      [by apply emits_consputc|]. apply (emits_seq _ _ [d] o);
      [by apply emits_consputc | apply IH; [lia | done..]].
Qed.
Lemma emits_printf_go fmt ap out : printable fmt -> Forall varg_ok ap ->
  format fmt ap = Some out -> emits (printf_go fmt ap) out.
Proof. by apply (emits_printf_go_aux (length fmt)). Qed.
End printf.

(** [printf] with a suitable argument list sends its text and changes nothing
    else. *)
Lemma wp_printf fmt ap out h e s (Q : unit -> list (kstate -> kstate) -> kstate -> Prop) :
  hart_ok 2 h -> lock_free h LPr -> k_hw s ≈h h -> uart_ready (k_io s) ->
  Forall varg_ok ap -> format (chars fmt) ap = Some out ->
  (forall h', h' ≈h h -> Q tt e (set_k_io (io_tx out (k_io s)) (set_k_hw h' s))) ->
  wp (printf fmt ap) e s Q.
Proof.
  intros Hok Hlk Heq Hr Hap Hf HQ. unfold printf. wp_steps.
  pose proof (hart_ok_weaken 1 2 _ ltac:(lia) Hok) as Hok1.
  destruct (istrue (pr_locking (k_io s))) eqn:El; cbn [when].
  - apply wp_acquire; [by eapply hart_ok_eqv | by eapply lock_free_eqv |].
    rewrite (hw_acq_proper LPr _ _ Heq). wp_step.
    eapply (emits_printf_go (hw_acq LPr h)); [|apply chars_printable|done|done|reflexivity|done|].
    { replace 1 with (2 - 1) by lia. by apply hart_ok_acq. }
    intros h' Hh'. apply hw_eqv_eq in Hh' as ->; [|by eapply depth_acq].
    eapply (wp_release_acq LPr h 2); [lia|done..|]. apply (HQ (hw_crit h)), hw_crit_eqv.
  - wp_step. wp_step. eapply (emits_printf_go h); [done|apply chars_printable|done..|].
    intros h' Hh'. wp_step. by apply HQ.
Qed.

(** ** Numerals *)

(** the value of the digits [l], lowest first *)
Definition digit_value (c : Z) : Z := if c <? 58 then c - 48 else c - 87.
Fixpoint digits_value (base : Z) (l : list Z) : Z :=
  match l with [] => 0 | c :: l' => digit_value c + base * digits_value base l' end.
(** the integer a printed numeral denotes *)
Definition numeral (base : Z) (l : list Z) : Z :=
  match l with
  | c :: l' => if c =? 45 then - digits_value base (rev l') else digits_value base (rev l)
  | [] => 0
  end.

Lemma digit_ok d : 0 <= d < 16 -> digit_value (digit d) = d /\ digit d <> 45.
Proof.
  intros H. assert (Forall (fun d => digit_value (digit (Z.of_nat d)) = d /\ digit (Z.of_nat d) <> 45)
    (seq 0 16)) as Hall by (repeat (constructor; [vm_compute; split; congruence|]); constructor).
  rewrite Forall_forall in Hall. replace d with (Z.of_nat (Z.to_nat d)) by lia.
  apply Hall, elem_of_seq. lia.
Qed.
(** enough iterations give all the digits of [x], none of them a sign *)
Lemma print_digits_value (fuel : nat) base x : 2 <= base <= 16 -> 0 <= x < base ^ fuel -> (0 < fuel)%nat ->
  digits_value base (print_digits fuel x base) = x /\
  Forall (fun c => c <> 45) (print_digits fuel x base) /\ print_digits fuel x base <> [].
Proof.
  intros Hb. revert x. induction fuel as [|fuel IH]; intros x Hx Hf; [lia|]. cbn [print_digits digits_value].
  pose proof (Z.mod_pos_bound x base ltac:(lia)) as Hm.
  destruct (digit_ok (x mod base) ltac:(lia)) as [Hv Hs]. rewrite Hv.
  pose proof (Z.div_mod x base ltac:(lia)) as Hdm.
  destruct (Z.eqb_spec (x / base) 0) as [Hz|Hz].
  - cbn. split_and!; [lia | by constructor | done].
  - rewrite Nat2Z.inj_succ, Z.pow_succ_r in Hx by lia.
    assert (0 <= x / base < base ^ fuel) as Hd.
    { split; [apply Z.div_pos; lia | apply Z.div_lt_upper_bound; lia]. }
    destruct fuel as [|fuel]; [cbn in Hd; lia|].
    destruct (IH (x / base) Hd ltac:(lia)) as (H1 & H2 & _). rewrite H1.
    split_and!; [lia | by constructor | done].
Qed.

Lemma numeral_rev base (neg : bool) l : Forall (fun c => c <> 45) l -> l <> [] ->
  numeral base (rev (l ++ if neg then chars "-" else [])) =
  if neg then - digits_value base l else digits_value base l.
Proof.
  intros Hl Hne. destruct neg.
  - rewrite rev_app_distr. unfold numeral. cbn. by rewrite rev_involutive.
  - rewrite app_nil_r. unfold numeral. destruct (rev l) as [|c l'] eqn:E.
    + apply (f_equal (@rev Z)) in E. rewrite rev_involutive in E. done.
    + assert (c <> 45) as Hc.
      { rewrite Forall_forall in Hl. apply Hl. apply list_elem_of_In, in_rev. rewrite E. by left. }
      by rewrite (proj2 (Z.eqb_neq _ _) Hc), <- E, rev_involutive.
Qed.

(** ** Theorems *)

(** [printf] with arguments that match its format sends exactly the
    formatted text to the UART, whole and in order, and leaves every lock, the
    interrupt state and the rest of the kernel as they were. *)
Lemma printf_sends_text fmt ap out e s :
  hart_ok 2 (k_hw s) -> lock_free (k_hw s) LPr -> uart_ready (k_io s) ->
  Forall varg_ok ap -> format (chars fmt) ap = Some out ->
  exists s', printf fmt ap e s = Ret tt e s' /\ k_hw s' ≈h k_hw s /\
    k_io s' = io_tx out (k_io s) /\ k_ps s' = k_ps s /\ k_mm s' = k_mm s /\ k_fs s' = k_fs s.
Proof.
  intros Hok Hlk Hr Hap Hf. apply wp_run_tt.
  eapply (wp_printf fmt ap out (k_hw s)); [done..|]. intros h' Hh'. done.
Qed.

(** What [%d] and [%x] print reads back as the number: for every 32-bit
    integer, the smallest included, the characters [printint] sends denote it. *)
Lemma printint_reads_back z base :
  - 2 ^ 31 <= z < 2 ^ 31 -> base = 10 \/ base = 16 ->
  numeral base (printint_chars z base 1) = z.
Proof.
  intros Hz Hb. unfold printint_chars. change (istrue 1) with true. rewrite andb_true_l.
  assert (2 ^ 32 <= base ^ 16%nat) as Hpow by (destruct Hb as [-> | ->]; vm_compute; discriminate).
  set (x := if z <? 0 then u32 (- z) else u32 z).
  assert (x = Z.abs z) as Hx.
  { unfold x. destruct (Z.ltb_spec z 0); rewrite u32_small by lia; lia. }
  destruct (print_digits_value 16 base x) as (H1 & H2 & H3); [lia..|].
  rewrite (numeral_rev base (z <? 0)) by done. rewrite H1, Hx. destruct (Z.ltb_spec z 0); lia.
Qed.

Lemma printint_reads_back_witness : numeral 10 (printint_chars (-2147483648) 10 1) = -2147483648.
Proof. apply (printint_reads_back (-2147483648) 10); [lia | by left]. Defined.

Lemma printf_sends_text_witness :
  exists s', printf "pid %d %s" [AInt (-7); AStr None] [] boot = Ret tt [] s' /\ k_hw s' ≈h k_hw boot /\
    k_io s' = io_tx (chars "pid -7 (null)") (k_io boot) /\ k_ps s' = k_ps boot /\
    k_mm s' = k_mm boot /\ k_fs s' = k_fs boot.
Proof.
  apply (printf_sends_text "pid %d %s" [AInt (-7); AStr None]).
  - by apply boot_hart.
  - by apply boot_lock.
  - done.
  - repeat constructor.
  - reflexivity.
Defined.
