(* ===== verification/Proc.v ===== *)
(** Process state changes of proc.c that need neither user memory nor files:
    pids, sleeping and waking, killing, yielding, and the accounting of
    [update_time].

    [swtch] hands the processor to the scheduler of this hart; until it comes
    back, the rest of the machine runs ([interfere]). *)
From S2P Require Import Prelude State Spinlock Queue Boot Printf.

(** [p->field] reads and writes on the process table *)
Definition pget {A} (i : nat) (f : proc -> A) : K A := lift_ps (p <- proc_at i;; ret (f p)).
Definition pupd (i : nat) (f : proc -> proc) : K unit := lift_ps (upd_proc i f).
Definition kenqueue (p : nat) (q : Z) : K unit := lift_ps (enqueue p q).
Definition kdequeue (p : nat) (q : Z) : K unit := lift_ps (dequeue p q).

(** [myproc()] where the code dereferences it at once *)
Definition curproc : K nat :=
  p <- myproc;; match p with Some i => ret i | None => fault "null process" end.

Definition slots : list nat := seq 0 NPROC.

(** ** proc.c *)
Definition procinit : K unit :=
  initlock LPid "nextpid";;
  initlock LWait "wait_lock";;
  mforall slots (fun i =>
    initlock (LProc i) "proc";;
    pupd i (set_p_state UNUSED);;
    pupd i (set_p_kstack (KSTACK i))).

Definition allocpid : K Z :=
  acquire LPid;;
  pid <- gets (fun s => ps_nextpid (k_ps s));;
  modify_ps (fun ps => set_ps_nextpid (s32 (ps_nextpid ps + 1)) ps);;
  release LPid;;
  ret pid.

Definition swtch : K unit := interfere.

(** Switch to scheduler. *)
Definition sched : K unit :=
  p <- curproc;;
  h <- holding (LProc p);;
  if negb h then panic "sched p->lock" else
  c <- mycpu;;
  if negb (c_noff c =? 1) then panic "sched locks" else
  st <- pget p p_state;;
  if bool_decide (st = RUNNING) then panic "sched running" else
  on <- intr_get;;
  if (on : bool) then panic "sched interruptible" else
  c <- mycpu;;
  swtch;;
  upd_mycpu (set_c_intena (c_intena c)).

(** Give up the CPU for one scheduling round. *)
Definition yield : K unit :=
  p <- curproc;;
  acquire (LProc p);;
  pupd p (set_p_state RUNNABLE);;
  sched;;
  release (LProc p).

(** Atomically release lock and sleep on chan. *)
Definition sleep (ch : chan) (lk : lockid) : K unit :=
  p <- curproc;;
  acquire (LProc p);;
  release lk;;
  pupd p (set_p_chan ch);;
  pupd p (set_p_state SLEEPING);;
  q <- pget p p_queue_number;;
  kdequeue p q;;
  sched;;
  pupd p (set_p_chan CNull);;
  release (LProc p);;
  acquire lk.

(** Make a sleeping process runnable, keeping its queue ticks. *)
Definition wake_slot (i : nat) : K unit :=
  pupd i (set_p_state RUNNABLE);;
  old_ticks <- pget i p_queueticks;;
  q <- pget i p_queue_number;;
  kenqueue i q;;
  pupd i (set_p_queueticks old_ticks).

(** Wake up all processes sleeping on chan. *)
Definition wakeup (ch : chan) : K unit :=
  mforall slots (fun i =>
    me <- myproc;;
    when (negb (bool_decide (me = Some i)))
      (acquire (LProc i);;
       st <- pget i p_state;;
       c <- pget i p_chan;;
       when (bool_decide (st = SLEEPING) && bool_decide (c = ch)) (wake_slot i);;
       release (LProc i))).

(** Kill the process with the given pid. *)
Definition kill (pid : Z) : K Z :=
  r <- mfor slots (fun i =>
    acquire (LProc i);;
    ipid <- pget i p_pid;;
    if ipid =? pid then
      pupd i (set_p_killed 1);;
      st <- pget i p_state;;
      when (bool_decide (st = SLEEPING))
        (pupd i (set_p_state RUNNABLE);;
         q <- pget i p_queue_number;;
         kenqueue i q);;
      release (LProc i);;
      ret (Some 0)
    else
      release (LProc i);;
      ret None);;
  ret (default (-1) r).

Definition setkilled (p : nat) : K unit :=
  acquire (LProc p);;
  pupd p (set_p_killed 1);;
  release (LProc p).

Definition killed (p : nat) : K Z :=
  acquire (LProc p);;
  k <- pget p p_killed;;
  release (LProc p);;
  ret k.

(** Pass p's abandoned children to init. *)
Definition reparent (p : nat) : K unit :=
  mforall slots (fun i =>
    par <- pget i p_parent;;
    when (bool_decide (par = Some p))
      (init <- gets (fun s => ps_initproc (k_ps s));;
       pupd i (set_p_parent init);;
       init <- gets (fun s => ps_initproc (k_ps s));;
       wakeup (match init with Some j => CProc j | None => CNull end))).

Definition update_time : K unit :=
  mforall slots (fun i =>
    acquire (LProc i);;
    st <- pget i p_state;;
    when (bool_decide (st = RUNNING)) (pupd i (fun p => set_p_rtime (u32 (p_rtime p + 1)) p));;
    release (LProc i));;
  mforall slots (fun i =>
    pid <- pget i p_pid;;
    when ((3 <=? pid) && (pid <=? 13))
      (t <- gets (fun s => ps_ticks (k_ps s));;
       q <- pget i p_queue_number;;
       printf "%d %d %d
" [AInt t; AInt pid; AInt q])).

(** ** Debugging output *)
Definition state_name (st : procstate) : list Z :=
  chars match st with
  | UNUSED => "unused" | USED => "used" | SLEEPING => "sleep " | RUNNABLE => "runble"
  | RUNNING => "run   " | ZOMBIE => "zombie"
  end.

(** the bytes of a NUL-terminated array *)
Fixpoint cstr (l : list Z) : list Z :=
  match l with [] => [] | c :: l' => if c =? 0 then [] else c :: cstr l' end.

Definition procdump : K unit :=
  printf "
" [];;
  mforall slots (fun i =>
    st <- pget i p_state;;
    if bool_decide (st = UNUSED) then ret tt else
    pid <- pget i p_pid;;
    name <- pget i p_name;;
    q <- pget i p_queue_number;;
    printf "%d %s %s %d" [AInt pid; AStr (Some (state_name st)); AStr (Some (cstr name)); AInt q];;
    printf "
" []).

(** ** Specifications *)
Lemma wp_lift_ps {A} (m : P A) e s (Q : A -> list (kstate -> kstate) -> kstate -> Prop) :
  wp m [] (k_ps s) (fun a _ ps => Q a e (set_k_ps ps s)) -> wp (lift_ps m) e s Q.
Proof. unfold wp, lift_ps. by destruct (m [] (k_ps s)). Qed.

Lemma set_k_ps_id s : set_k_ps (k_ps s) s = s.
Proof. by destruct s. Qed.
Lemma set_k_hw_id s : set_k_hw (k_hw s) s = s.
Proof. by destruct s. Qed.

Lemma wp_pget {A} i p (f : proc -> A) e s (Q : A -> list (kstate -> kstate) -> kstate -> Prop) :
  ps_proc (k_ps s) !! i = Some p -> Q (f p) e s -> wp (pget i f) e s Q.
Proof.
  intros Hp HQ. apply wp_lift_ps. wp_step. eapply wp_proc_at; [done|]. wp_step.
  by rewrite set_k_ps_id.
Qed.
Lemma wp_pupd i p f e s (Q : unit -> list (kstate -> kstate) -> kstate -> Prop) :
  ps_proc (k_ps s) !! i = Some p -> Q tt e (set_k_ps (upd_slot i (f p) (k_ps s)) s) ->
  wp (pupd i f) e s Q.
Proof. intros Hp HQ. apply wp_lift_ps. by eapply wp_upd_proc. Qed.

(** Reading the process of this hart. *)
Definition cur_is (h : hwstate) (i : nat) : Prop := c_proc <$> cur_cpu h = Some (Some i).

Lemma cur_is_eqv h h' i : h ≈h h' -> cur_is h i -> cur_is h' i.
Proof.
  intros H. unfold cur_is. pose proof (hw_eqv_cur _ _ H) as Hc.
  destruct (cur_cpu h) as [c|], (cur_cpu h') as [c'|]; try done. cbn. by destruct Hc as [-> _].
Qed.
Lemma cur_is_taken h l p n : hart_ok n h -> lock_free h l -> cur_is h p -> cur_is (hw_acq l h) p.
Proof.
  intros Hok Hl Hc. destruct (hw_acq_cpu h l n Hok Hl) as (c & E & E1 & _). unfold cur_is in *. rewrite E1. rewrite E in Hc. cbn in *.
  unfold cpu_push. by destruct (c_noff c =? 0).
Qed.
Lemma wp_curproc i e s (Q : nat -> list (kstate -> kstate) -> kstate -> Prop) :
  hart_ok 1 (k_hw s) -> cur_is (k_hw s) i -> Q i e (set_k_hw (hw_crit (k_hw s)) s) ->
  wp curproc e s Q.
Proof.
  intros Hok Hi HQ. unfold cur_is in Hi. destruct (cur_cpu (k_hw s)) as [c|] eqn:Hc; [|done].
  injection Hi as Hi. unfold curproc. wp_step. eapply wp_myproc; [done..|]. rewrite Hi. by wp_step.
Qed.

(** *** Waking one process: it joins the queue it left, with its old ticks *)
Lemma set_wake_eta p q : p_queue_number p = q ->
  set_p_queueticks (p_queueticks p) (set_p_queue_number q (set_p_queueticks 0
    (set_p_state RUNNABLE p))) = set_p_state RUNNABLE p.
Proof. intros <-. by destruct p. Qed.

Definition ps_join (i q : nat) (l : list nat) (p : proc) (ps : procs) : procs :=
  upd_slot i p (ps_setq q (l ++ [i]) ps).

Lemma upd_slot_twice i p p' ps : upd_slot i p' (upd_slot i p ps) = upd_slot i p' ps.
Proof. unfold upd_slot. cbn. by rewrite list_insert_insert_eq. Qed.
Lemma upd_slot_setq i p q l ps : ps_setq q l (upd_slot i p ps) = upd_slot i p (ps_setq q l ps).
Proof. done. Qed.
Lemma upd_slot_length i p ps : length (ps_proc (upd_slot i p ps)) = length (ps_proc ps).
Proof. apply length_insert. Qed.

Lemma slot_self i p ps : (i < length (ps_proc ps))%nat -> ps_proc (upd_slot i p ps) !! i = Some p.
Proof. intros H. rewrite lookup_upd_slot by done. by rewrite decide_True. Qed.

(** a sleeping process becomes runnable and is appended to its queue *)
(** the slot just written is what the table holds *)
Ltac slot := apply slot_self; cbn -[upd_slot]; rewrite ?upd_slot_length; assumption.

Lemma sched_inv_join ps ls i p p' (q : nat) l :
  sched_inv ps ls -> ps_proc ps !! i = Some p -> home p = None -> used p ->
  same_key p p' -> live (p_state p') = true -> p_queue_number p' = q -> ls !! q = Some l ->
  sched_inv (ps_join i q l p' ps) (<[q := l ++ [i]]> ls).
Proof.
  intros Hinv Hp Hh Hu Hk Hl Hq Hls. pose proof Hinv as [Hok _].
  pose proof (moving_intro _ _ _ _ Hinv Hp) as Hm. rewrite Hh in Hm.
  pose proof Hm as (_ & Hi & _).
  assert (i ∉ l) as Hni by (intros Hin; by apply (Hi q l Hls) in Hin).
  pose proof (qo_queue _ _ Hok q l Hls) as (_ & _ & _ & Hall).
  pose proof (lookup_lt_Some _ _ _ Hp) as Hlt.
  eapply (moving_elim i p').
  - replace (home p') with (Some q) by (unfold home; rewrite Hl, Hq, Nat2Z.id; done).
    unfold ps_join. eapply moving_upd; [|done|].
    + eapply (moving_setq i None); try done.
      * apply NoDup_app. split_and!; [by eapply qo_nodup | set_solver | apply NoDup_singleton].
      * rewrite Forall_app. split; [done | repeat constructor; done].
      * intros j Hne. set_solver.
      * set_solver.
      * intros q' Hne. split; intros; congruence.
    + eapply (slot_ok_same ps ls); done.
  - unfold ps_join. by apply slot_self.
Qed.

(** a process leaves the run queues *)
Lemma sched_inv_leave ps ls i p p' (q : nat) l :
  sched_inv ps ls -> ps_proc ps !! i = Some p -> home p = Some q -> ls !! q = Some l ->
  same_key p p' -> live (p_state p') = false ->
  let l' := filter (fun j => j <> i) l in
  sched_inv (upd_slot i p' (ps_setq q l' ps)) (<[q := l']> ls).
Proof.
  intros Hinv Hp Hh Hls Hk Hl l'. pose proof Hinv as [Hok _].
  pose proof (moving_intro _ _ _ _ Hinv Hp) as Hm. rewrite Hh in Hm.
  pose proof (qo_queue _ _ Hok q l Hls) as (_ & _ & _ & Hall).
  pose proof (lookup_lt_Some _ _ _ Hp) as Hlt.
  eapply (moving_elim i p').
  - replace (home p') with (@None nat) by (unfold home; by rewrite Hl).
    eapply moving_upd; [|done|].
    + eapply (moving_setq i (Some q)); try done.
      * apply NoDup_filter. by eapply qo_nodup.
      * rewrite Forall_forall in Hall |- *. intros j [_ Hin]%list_elem_of_filter. by apply Hall.
      * intros j Hne. subst l'. rewrite list_elem_of_filter. tauto.
      * subst l'. rewrite list_elem_of_filter. split; [tauto | done].
      * intros q' Hne. split; intros; congruence.
    + eapply (slot_ok_same ps ls); done.
  - by apply slot_self.
Qed.

Section kqueue.
Context (ps : procs) (ls : list (list nat)) (i : nat) (p p1 : proc) (q : nat) (l : list nat).
Context (Hinv : sched_inv ps ls) (Hp : ps_proc ps !! i = Some p).
Context (Hk : same_key p p1) (Hu : used p1) (Hls : ls !! q = Some l).
Context (e : list (kstate -> kstate)) (s : kstate) (Hs : k_ps s = upd_slot i p1 ps).

Lemma moving_changed : inv_moving i (home p) (k_ps s) ls /\ ps_proc (k_ps s) !! i = Some p1.
Proof using Hinv Hp Hk Hs.
  pose proof Hinv as [Hok _]. rewrite Hs. split.
  - eapply moving_upd; [by apply moving_intro | done | by eapply slot_ok_same].
  - apply slot_self. by eapply lookup_lt_Some.
Qed.

(** enqueue a process that was in no queue *)
Lemma wp_kenqueue_join (Q : unit -> list (kstate -> kstate) -> kstate -> Prop) :
  home p = None ->
  Q tt e (set_k_ps (ps_join i q l (set_p_queue_number q (set_p_queueticks 0 p1)) ps) s) ->
  wp (kenqueue i q) e s Q.
Proof using Hinv Hp Hk Hu Hls Hs.
  intros Hh HQ. destruct moving_changed as [Hm Hp1]. rewrite Hh in Hm.
  apply wp_lift_ps. eapply (wp_enqueue_moving i _ ls p1 q l); [done..|].
  intros p' ps' _. subst ps' p'. rewrite Hs, upd_slot_setq, upd_slot_twice. exact HQ.
Qed.

(** dequeue a process from the queue it is in *)
Lemma wp_kdequeue_leave (Q : unit -> list (kstate -> kstate) -> kstate -> Prop) :
  home p = Some q ->
  Q tt e (set_k_ps (upd_slot i p1 (ps_setq q (filter (fun j => j <> i) l) ps)) s) ->
  wp (kdequeue i q) e s Q.
Proof using Hinv Hp Hk Hu Hls Hs.
  intros Hh HQ. destruct moving_changed as [Hm Hp1]. rewrite Hh in Hm.
  apply wp_lift_ps. eapply (wp_dequeue_moving i _ ls p1 q l); [done..|].
  intros l' _. subst l'. rewrite Hs, upd_slot_setq. exact HQ.
Qed.
End kqueue.

Lemma queue_lookup ps ls i p : queues_ok ps ls -> ps_proc ps !! i = Some p ->
  exists (q : nat) l, p_queue_number p = Z.of_nat q /\ ls !! q = Some l.
Proof.
  intros Hok Hp. pose proof (qo_range _ _ Hok i p Hp) as Hr.
  destruct (lookup_lt_is_Some_2 ls (Z.to_nat (p_queue_number p))) as [l Hl].
  { rewrite (qo_four _ _ Hok). lia. }
  exists (Z.to_nat (p_queue_number p)), l. split; [lia | done].
Qed.

Lemma wp_wake_slot ls i p (q : nat) l e s
    (Q : unit -> list (kstate -> kstate) -> kstate -> Prop) :
  sched_inv (k_ps s) ls -> ps_proc (k_ps s) !! i = Some p -> p_state p = SLEEPING ->
  p_queue_number p = q -> ls !! q = Some l ->
  Q tt e (set_k_ps (ps_join i q l (set_p_state RUNNABLE p) (k_ps s)) s) ->
  wp (wake_slot i) e s Q.
Proof.
  intros Hinv Hp Hst Hq Hls HQ. pose proof (lookup_lt_Some _ _ _ Hp) as Hlt.
  assert (home p = None) as Hh by (unfold home; by rewrite Hst).
  unfold wake_slot. wp_step. eapply wp_pupd; [done|].
  wp_step. eapply wp_pget; [cbn; by apply slot_self|].
  wp_step. eapply wp_pget; [cbn; by apply slot_self|]. cbn. rewrite Hq. wp_step.
  eapply (wp_kenqueue_join (k_ps s) ls i p (set_p_state RUNNABLE p) q l); try done.
  { split_and!; [done..|]. intros _. unfold used. by rewrite Hst. }
  eapply wp_pupd.
  { cbn. unfold ps_join. apply slot_self. done. }
  cbn. unfold ps_join. rewrite upd_slot_twice, set_wake_eta by done. exact HQ.
Qed.

(** *** wakeup *)
Definition wakes (ch : chan) (me : option nat) (i : nat) (p : proc) : bool :=
  negb (bool_decide (me = Some i)) && bool_decide (p_state p = SLEEPING) &&
  bool_decide (p_chan p = ch).
Definition wake_proc (ch : chan) (me : option nat) (i : nat) (p : proc) : proc :=
  if wakes ch me i p then set_p_state RUNNABLE p else p.

(** slots [wakeup] appends to queue [q], in table order, among the first [k] *)
Definition woken (ch : chan) (me : option nat) (ps : procs) (q k : nat) : list nat :=
  List.filter (fun i => match ps_proc ps !! i with
                        | Some p => wakes ch me i p && (p_queue_number p =? q)
                        | None => false end) (seq 0 k).

(** the process table after the first [k] slots were visited *)
Definition woken_table (ch : chan) (me : option nat) (k : nat) (t : list proc) : list proc :=
  imap (fun i p => if decide (i < k)%nat then wake_proc ch me i p else p) t.

#[global] Arguments woken : simpl never.
#[global] Arguments woken_table : simpl never.
#[global] Arguments wakes : simpl never.

Lemma woken_table_0 ch me t : woken_table ch me 0 t = t.
Proof.
  unfold woken_table. apply list_eq. intros i. rewrite list_lookup_imap.
  destruct (t !! i); [|done]. cbn. by rewrite decide_False by lia.
Qed.
Lemma woken_table_S ch me k t p : t !! k = Some p ->
  woken_table ch me (S k) t = <[k := wake_proc ch me k p]> (woken_table ch me k t).
Proof.
  intros Hp. unfold woken_table. apply list_eq. intros i.
  pose proof (lookup_lt_Some _ _ _ Hp). destruct (decide (k = i)) as [<-|Hne].
  - rewrite list_lookup_insert_eq by (by rewrite length_imap).
    rewrite list_lookup_imap, Hp. cbn. by rewrite decide_True by lia.
  - rewrite list_lookup_insert_ne by done. rewrite !list_lookup_imap.
    destruct (t !! i) as [x|] eqn:Hx; [|done]. cbn.
    destruct (decide (i < k)%nat); [by rewrite decide_True by lia | by rewrite decide_False by lia].
Qed.
Lemma woken_table_all ch me t : woken_table ch me (length t) t = imap (wake_proc ch me) t.
Proof.
  unfold woken_table. apply list_eq. intros i. rewrite !list_lookup_imap.
  destruct (t !! i) as [x|] eqn:Hx; [|done]. cbn.
  by rewrite decide_True by (by eapply lookup_lt_Some).
Qed.
Lemma woken_table_at ch me k t i : (k <= i)%nat -> woken_table ch me k t !! i = t !! i.
Proof.
  intros H. unfold woken_table. rewrite list_lookup_imap. destruct (t !! i); [|done]. cbn.
  by rewrite decide_False by lia.
Qed.

(** the globals of proc.c other than the table and the queues *)
Definition same_misc (ps ps' : procs) : Prop :=
  ps_initproc ps' = ps_initproc ps /\ ps_nextpid ps' = ps_nextpid ps /\
  ps_seed ps' = ps_seed ps /\ ps_ticks ps' = ps_ticks ps /\ ps_first ps' = ps_first ps.
#[export] Instance same_misc_equiv : Equivalence same_misc.
Proof. unfold same_misc. split; repeat intro; intuition congruence. Qed.
Lemma same_misc_join i q l p ps : same_misc ps (ps_join i q l p ps).
Proof. done. Qed.

(** [s'] differs from [s] in the process globals and [c_intena] only *)
Definition only_ps (s s' : kstate) : Prop :=
  k_hw s' ≈h k_hw s /\ k_mm s' = k_mm s /\ k_io s' = k_io s /\ k_fs s' = k_fs s.
#[export] Instance only_ps_equiv : Equivalence only_ps.
Proof.
  unfold only_ps. split.
  - by intros s.
  - intros s s' (H1 & H2 & H3 & H4). by rewrite H1, H2, H3, H4.
  - intros s s' s'' (H1 & H2 & H3 & H4) (H5 & H6 & H7 & H8).
    rewrite H5, H6, H7, H8. by rewrite H1.
Qed.
Lemma only_ps_set s h ps : h ≈h k_hw s -> only_ps s (set_k_ps ps (set_k_hw h s)).
Proof. done. Qed.

Definition wakeup_post (ch : chan) (me : option nat) (ls : list (list nat)) (k : nat)
    (s s' : kstate) : Prop :=
  only_ps s s' /\ same_misc (k_ps s) (k_ps s') /\
  ps_proc (k_ps s') = woken_table ch me k (ps_proc (k_ps s)) /\
  exists ls', sched_inv (k_ps s') ls' /\
    forall q, ls' !! q = (fun l => l ++ woken ch me (k_ps s) q k) <$> ls !! q.

Lemma woken_S ch me ps q k p : ps_proc ps !! k = Some p ->
  woken ch me ps q (S k) = woken ch me ps q k ++
    (if wakes ch me k p && (p_queue_number p =? q) then [k] else []).
Proof.
  intros Hp. unfold woken. rewrite seq_S, List.filter_app. cbn. by rewrite Hp.
Qed.

(** the locks [wakeup] takes are free *)
Definition proc_locks_free (h : hwstate) (me : option nat) : Prop :=
  forall i, (i < NPROC)%nat -> me <> Some i -> lock_free h (LProc i).

Section wakeup.
Context (ch : chan) (me : option nat) (ls : list (list nat)) (s0 : kstate).
Context (e : list (kstate -> kstate)) (c : cpu).
Context (Hok : hart_ok 1 (k_hw s0)) (Hc : cur_cpu (k_hw s0) = Some c) (Hme : c_proc c = me).
Context (Hlk : proc_locks_free (k_hw s0) me) (Hinv : sched_inv (k_ps s0) ls).

(** a slot that is left alone *)
Lemma wakeup_post_skip k p s : ps_proc (k_ps s0) !! k = Some p -> wakes ch me k p = false ->
  wakeup_post ch me ls k s0 s -> wakeup_post ch me ls (S k) s0 s.
Proof using.
  intros Hp Hw (H1 & H2 & H3 & ls' & H4 & H5). split_and!; try done.
  - rewrite H3, (woken_table_S _ _ _ _ p) by done. unfold wake_proc. rewrite Hw.
    symmetry. apply list_insert_id. by rewrite woken_table_at by lia.
  - exists ls'. split; [done|]. intros q. rewrite H5, (woken_S _ _ _ _ _ p) by done.
    rewrite Hw. cbn. by rewrite app_nil_r.
Qed.

Lemma wakeup_body k s : (k < NPROC)%nat -> wakeup_post ch me ls k s0 s ->
  wp (me' <- myproc;;
      when (negb (bool_decide (me' = Some k)))
        (acquire (LProc k);;
         st <- pget k p_state;;
         c <- pget k p_chan;;
         when (bool_decide (st = SLEEPING) && bool_decide (c = ch)) (wake_slot k);;
         release (LProc k))) e s
    (fun _ e' s' => e' = e /\ wakeup_post ch me ls (S k) s0 s').
Proof using Hok Hc Hme Hlk Hinv.
  intros Hk Hpost. pose proof Hpost as (Ho & Hm & Ht & ls' & Hinv' & Hls').
  destruct Ho as (Hh & Hmm & Hio & Hfs). pose proof Hinv' as [Hqok _].
  destruct (lookup_lt_is_Some_2 (ps_proc (k_ps s0)) k) as [p Hp].
  { rewrite (qo_nproc _ _ (proj1 Hinv)). done. }
  assert (ps_proc (k_ps s) !! k = Some p) as Hps by (by rewrite Ht, woken_table_at by lia).
  assert (hart_ok 1 (k_hw s)) as Hoks by (by eapply hart_ok_eqv).
  pose proof (hw_eqv_cur _ _ Hh) as Hcur. rewrite Hc in Hcur.
  destruct (cur_cpu (k_hw s)) as [c'|] eqn:Hc'; [|done]. destruct Hcur as (Hcp & _).
  wp_step. eapply wp_myproc; [done..|]. rewrite Hcp, Hme.
  set (s1 := set_k_hw (hw_crit (k_hw s)) s).
  assert (k_hw s1 ≈h k_hw s0) as Hh1 by (cbn; by rewrite hw_crit_eqv).
  assert (wakeup_post ch me ls k s0 s1) as Hpost1.
  { split_and!; try done. by exists ls'. }
  apply wp_when; intros Hcase.
  2:{ split; [done|]. eapply wakeup_post_skip; [done| |done]. unfold wakes. by rewrite Hcase. }
  assert (me <> Some k) as Hne by (intros ->; by rewrite bool_decide_eq_true_2 in Hcase).
  assert (lock_free (k_hw s1) (LProc k)) as Hfree
    by (eapply lock_free_eqv; [symmetry; exact Hh1 | by apply Hlk]).
  assert (hart_ok 1 (k_hw s1)) as Hok1 by (by eapply hart_ok_eqv).
  wp_step. apply wp_acquire; [done..|].
  wp_step. eapply wp_pget; [done|]. wp_step. eapply wp_pget; [done|]. wp_step.
  apply wp_when; intros Hw.
  - destruct (queue_lookup _ _ _ _ Hqok Hps) as (q & l & Hq & Hl).
    assert (p_state p = SLEEPING) as Hst by (by apply andb_true_iff in Hw as [?%bool_decide_eq_true_1 _]).
    eapply (wp_wake_slot ls' k p q l); try done.
    eapply (wp_release_acq (LProc k) (k_hw s1) 1); [lia|done..|].
    assert (wakes ch me k p = true) as Hwk.
    { unfold wakes. rewrite Hcase. exact Hw. }
    split; [done|]. split_and!; try done; cbn.
    + split_and!; try done. cbn. by rewrite hw_crit_eqv.
    + rewrite Ht, (woken_table_S _ _ _ _ p) by done. unfold wake_proc. by rewrite Hwk.
    + exists (<[q := l ++ [k]]> ls'). split.
      * eapply sched_inv_join; try done; cbn.
        -- unfold home. by rewrite Hst.
        -- unfold used. by rewrite Hst.
        -- split_and!; try done. unfold used. by rewrite Hst.
      * intros q'. rewrite list_lookup_insert_case, (woken_S _ _ _ _ _ p), Hwk by done.
        rewrite Hq. cbn [andb]. pose proof (lookup_lt_Some _ _ _ Hl).
        destruct (decide (q = q')) as [<-|Hqne].
        -- rewrite decide_True by done. rewrite Z.eqb_refl.
           rewrite Hls' in Hl. apply fmap_Some in Hl as (l0 & -> & ->). cbn. by rewrite app_assoc.
        -- rewrite decide_False by tauto. replace (Z.of_nat q =? q') with false by lia.
           by rewrite app_nil_r, Hls'.
  - eapply (wp_release_acq (LProc k) (k_hw s1) 1); [lia|done..|]. split; [done|].
    eapply wakeup_post_skip; [done| |].
    + unfold wakes. rewrite Hcase. exact Hw.
    + split_and!; try done.
      * cbn. split_and!; try done. cbn. by rewrite hw_crit_eqv.
      * by exists ls'.
Qed.

Lemma wp_wakeup (Q : unit -> list (kstate -> kstate) -> kstate -> Prop) :
  (forall s', wakeup_post ch me ls NPROC s0 s' -> Q tt e s') -> wp (wakeup ch) e s0 Q.
Proof using Hok Hc Hme Hlk Hinv.
  intros HQ. unfold wakeup. apply (wp_seq _ (fun k s' => wakeup_post ch me ls k s0 s')).
  - unfold wakeup_post. split_and!; [done | done | by rewrite woken_table_0 |].
    exists ls. split; [done|]. intros q. unfold woken. cbn.
    destruct (ls !! q); cbn; [by rewrite app_nil_r | done].
  - intros k s Hk Hpost. by apply wakeup_body.
  - intros s' Hpost. by apply HQ.
Qed.
End wakeup.

(** ** Theorems *)

(** C10: [wakeup] makes runnable exactly the processes that sleep on the
    channel (the caller apart), appends each of them to the queue it left in
    table order, with its queue ticks kept, and changes nothing else. *)
Theorem wakeup_exact ch me ls e s :
  hart_ok 1 (k_hw s) -> c_proc <$> cur_cpu (k_hw s) = Some me ->
  proc_locks_free (k_hw s) me -> sched_inv (k_ps s) ls ->
  exists s', wakeup ch e s = Ret tt e s' /\ only_ps s s' /\ same_misc (k_ps s) (k_ps s') /\
    ps_proc (k_ps s') = imap (wake_proc ch me) (ps_proc (k_ps s)) /\
    exists ls', sched_inv (k_ps s') ls' /\
      forall q, ls' !! q = (fun l => l ++ woken ch me (k_ps s) q NPROC) <$> ls !! q.
Proof.
  intros Hok Hme Hlk Hinv. destruct (cur_cpu (k_hw s)) as [c|] eqn:Hc; [|done]. injection Hme as Hme.
  assert (wp (wakeup ch) e s (fun _ e' s' => e' = e /\ wakeup_post ch me ls NPROC s s')) as H
    by (eapply wp_wakeup; eauto).
  apply wp_elim in H as ([] & e' & s' & Heq & -> & H1 & H2 & H3 & H4).
  exists s'. split_and!; try done. rewrite H3. rewrite <- (qo_nproc _ _ (proj1 Hinv)) at 1.
  apply woken_table_all.
Qed.

(** *** sched *)

(** what [sched] checks: the hart runs [p], holds its lock and no other, and
    has interrupts off *)
Definition sched_ready (p : nat) (h : hwstate) : Prop :=
  exists c, cur_cpu h = Some c /\ c_noff c = 1 /\ c_proc c = Some p /\ sie h = false /\
    lock_held h (LProc p).
Definition not_running (p : nat) (ps : procs) : Prop :=
  exists x, ps_proc ps !! p = Some x /\ p_state x <> RUNNING.

Lemma sched_ready_crit p h : sched_ready p h -> hw_crit h = h /\ hart_ok 1 h /\ cur_is h p.
Proof.
  intros (c & Hc & Hn & Hp & Hs & _). split_and!.
  - unfold hw_crit. by rewrite Hc, Hn.
  - exists c. split_and!; [done | lia | lia | done].
  - unfold cur_is. rewrite Hc. cbn. by rewrite Hp.
Qed.

(** [sched] up to [swtch], for both judgements: [swtch] runs in this state *)
Lemma sched_to_swtch p s e : sched_ready p (k_hw s) -> not_running p (k_ps s) ->
  exists c, cur_cpu (k_hw s) = Some c /\
    sched e s = (swtch;; upd_mycpu (set_c_intena (c_intena c))) e s.
Proof.
  intros Hr (x & Hx & Hst). destruct (sched_ready_crit _ _ Hr) as (Hcrit & Hok & Hcur).
  destruct Hr as (c & Hc & Hn & Hp & Hs & (m & Hm)). exists c. split; [done|].
  assert (wp curproc e s (fun i e' s' => i = p /\ e' = e /\ s' = s)) as Hcp.
  { eapply wp_curproc; [done..|]. by rewrite Hcrit, set_k_hw_id. }
  apply wp_elim in Hcp as (i & e' & s' & Hcp & -> & -> & ->).
  unfold sched, bind at 1. rewrite Hcp. unfold holding, lock_at, mycpu, pget, lift_ps, proc_at, bind.
  cbn. rewrite Hm. cbn. rewrite bool_decide_eq_true_2 by done. cbn.
  unfold cur_cpu in Hc. rewrite Hc. cbn. rewrite Hn. cbn. rewrite Hx. cbn.
  rewrite bool_decide_eq_false_2 by done. rewrite set_k_ps_id.
  unfold intr_get, r_sstatus, bind. cbn. unfold sie in Hs. rewrite Hs. cbn. by rewrite Hc.
Qed.

Lemma hands_sched p s (Q : kstate -> Prop) : sched_ready p (k_hw s) -> not_running p (k_ps s) ->
  Q s -> hands sched [] s Q.
Proof. intros Hr Hn HQ. destruct (sched_to_swtch p s [] Hr Hn) as (c & _ & E). unfold hands. by rewrite E. Qed.

Lemma wp_sched p s f e c2 (Q : unit -> list (kstate -> kstate) -> kstate -> Prop) :
  sched_ready p (k_hw s) -> not_running p (k_ps s) ->
  cur_cpu (k_hw (f s)) = Some c2 ->
  (forall c, cur_cpu (k_hw s) = Some c -> let h := k_hw (f s) in
     Q tt e (set_k_hw (set_h_cpus (<[h_tp h := set_c_intena (c_intena c) c2]> (h_cpus h)) h) (f s))) ->
  wp sched (f :: e) s Q.
Proof.
  intros Hr Hn Hc2 HQ. destruct (sched_to_swtch p s (f :: e) Hr Hn) as (c & Hc & E).
  unfold wp. rewrite E. apply (wp_bind swtch (fun _ => upd_mycpu (set_c_intena (c_intena c)))).
  apply wp_interfere. eapply wp_upd_mycpu; [done|]. by apply HQ.
Qed.

(** slot [x] asleep on the channel [ch] *)
Definition asleep (ch : chan) (x : proc) : proc := set_p_state SLEEPING (set_p_chan ch x).

(** [sleep] with both locks taken: it gives up the processor with the process
    asleep, the caller's lock released and the process's own lock still held *)
Section locked.
Context (ch : chan) (lk : lockid) (p : nat) (x : proc) (ls : list (list nat)) (s : kstate) (c : cpu).
Context (Hne : lk <> LProc p) (Hc : cur_cpu (k_hw s) = Some c) (Hn : c_noff c = 2).
Context (Hcp : c_proc c = Some p) (Hs : sie (k_hw s) = false).
Context (Hlk : lock_held (k_hw s) lk) (Hp : lock_held (k_hw s) (LProc p)).
Context (Hinv : sched_inv (k_ps s) ls) (Hx : ps_proc (k_ps s) !! p = Some x).
Context (Hst : p_state x = RUNNING).
Let h2 := hw_rel lk (k_hw s).

Lemma locked_hw : sched_ready p h2 /\ lock_free h2 lk /\ lock_held h2 (LProc p).
Proof using Hne Hc Hn Hcp Hs Hlk Hp.
  destruct Hlk as [n Hl], Hp as [m Hm].
  destruct (hw_rel_fields lk (k_hw s) c n Hl Hc) as (R1 & R2 & R3 & R4). fold h2 in R1, R2, R3, R4.
  assert (lock_held h2 (LProc p)) as Hh.
  { exists m. rewrite R1, R2, lookup_insert_ne by done. done. }
  split_and!; [| by exists n; rewrite R2; apply lookup_insert_eq | done].
  exists (set_c_noff (c_noff c - 1) c). rewrite R4 by lia. split_and!; try done. cbn. lia.
Qed.
Lemma hands_locked (Q : kstate -> Prop) :
  (forall (q : nat) l, p_queue_number x = q -> ls !! q = Some l ->
     let l' := filter (fun j => j <> p) l in
     let ps' := upd_slot p (asleep ch x) (ps_setq q l' (k_ps s)) in
     sched_inv ps' (<[q := l']> ls) -> Q (set_k_hw h2 (set_k_ps ps' s))) ->
  hands (release lk;; pupd p (set_p_chan ch);; pupd p (set_p_state SLEEPING);;
    q <- pget p p_queue_number;; kdequeue p q;; sched;;
    pupd p (set_p_chan CNull);; release (LProc p);; acquire lk) [] s Q.
Proof using Hne Hc Hn Hcp Hs Hlk Hp Hinv Hx Hst.
  intros HQ. pose proof Hinv as [Hqok _]. pose proof (lookup_lt_Some _ _ _ Hx) as Hlt.
  destruct (queue_lookup _ _ _ _ Hqok Hx) as (q & l & Hq & Hl). destruct locked_hw as (Hready & _).
  apply hands_bind. eapply (wp_release _ _ _ c); [done | lia | done..|]. fold h2.
  apply hands_bind. eapply wp_pupd; [done|]. apply hands_bind. eapply wp_pupd; [by apply slot_self|].
  apply hands_bind. eapply wp_pget; [apply slot_self; cbn; by rewrite length_insert|]. cbn [p_queue_number set_p_state set_p_chan].
  rewrite Hq. apply hands_bind.
  assert (home x = Some q) as Hh' by (unfold home; rewrite Hst; cbn; by rewrite Hq, Nat2Z.id).
  assert (same_key x (asleep ch x)) as Hk.
  { split_and!; try done. intros _. unfold used. by rewrite Hst. }
  eapply (wp_kdequeue_leave (k_ps s) ls p x (asleep ch x) q l); try done.
  { cbn. apply upd_slot_twice. }
  cbn. apply hands_bind_l. eapply (hands_sched p); [done | |].
  { exists (asleep ch x). split; [by apply slot_self | done]. }
  specialize (HQ q l Hq Hl). cbv zeta in HQ.
  assert (forall A B (X : kstate), A = B -> Q A -> Q B) as Hrw by (by intros ??? ->).
  eapply Hrw; [|done|apply HQ]; [done|].
  eapply sched_inv_leave; try done.
Qed.
End locked.

Section sleep.
Context (ch : chan) (lk : lockid) (p : nat) (x : proc) (ls : list (list nat)).
Context (h : hwstate) (s : kstate).
Context (Hok : hart_ok 2 h) (Hd : depth h = 0) (Hcur : cur_is h p).
Context (Hlk : lock_free h lk) (Hne : lk <> LProc p) (Hp : lock_free h (LProc p)).
Context (Hhw : k_hw s = hw_acq lk h).
Context (Hinv : sched_inv (k_ps s) ls) (Hx : ps_proc (k_ps s) !! p = Some x).
Context (Hst : p_state x = RUNNING).

Let h1 := hw_acq (LProc p) (k_hw s).
Let h2 := hw_rel lk h1.
Local Notation asleep := (asleep ch x).

(** the hardware state in which [sleep] calls [sched] *)
Lemma sleep_hw : exists c, cur_cpu h2 = Some c /\ c_noff c = 1 /\ c_proc c = Some p /\
  sie h2 = false /\ lock_held h2 (LProc p) /\ lock_free h2 lk /\ h_tp h2 = h_tp h.
Proof using Hok Hd Hcur Hlk Hne Hp Hhw.
  destruct (hw_acq_cpu h lk 2 Hok Hlk) as (c & Hc & Hc1 & Hs1 & Hn & _).
  pose proof (hart_ok_acq h lk 2 Hok Hlk) as Hok1. rewrite <- Hhw in Hc1, Hs1, Hok1.
  assert (lock_free (k_hw s) (LProc p)) as Hp1.
  { destruct Hp as [n Hn']. exists n. rewrite Hhw, (hw_acq_other h lk); done. }
  destruct (hw_acq_cpu (k_hw s) (LProc p) _ Hok1 Hp1) as (c1 & Hc1' & Hc2 & Hs2 & _).
  rewrite Hc1 in Hc1'. injection Hc1' as <-.
  destruct (hw_acq_held h lk Hlk) as [n Hheld]. rewrite <- Hhw in Hheld.
  destruct (hw_acq_fields (LProc p) (k_hw s)) as (Ht & _).
  destruct (hw_acq_fields lk h) as (Ht0 & _). rewrite <- Hhw in Ht0.
  assert (h_locks h1 !! lk = Some (mkspinlock 1 n (Some (h_tp h1)))) as Hl1.
  { subst h1. rewrite (hw_acq_other _ _ Hp1), Ht by congruence. done. }
  destruct (hw_rel_fields lk h1 _ n Hl1 Hc2) as (R1 & R2 & R3 & R4). fold h2 in R1, R2, R3, R4.
  unfold depth in Hd. rewrite Hc in Hd. unfold cur_is in Hcur. rewrite Hc in Hcur. injection Hcur as Hcp.
  assert (c_noff (cpu_push (sie (k_hw s)) (cpu_push (sie h) c)) = 2) as Hn2.
  { unfold cpu_push. rewrite Hd. cbn. lia. }
  eexists. split; [exact R3|]. rewrite Hn2. split_and!; try done.
  - unfold cpu_push. cbn. destruct (_ =? 0), (_ =? 0); done.
  - rewrite R4; [done|]. by rewrite Hn2.
  - destruct (hw_acq_held (k_hw s) (LProc p) Hp1) as [m Hm]. exists m. rewrite R1, R2.
    rewrite lookup_insert_ne by done. done.
  - exists n. rewrite R2. apply lookup_insert_eq.
  - etrans; [exact R1|]. etrans; [exact Ht | exact Ht0].
Qed.

Lemma hands_sleep (Q : kstate -> Prop) :
  (forall (q : nat) l, p_queue_number x = q -> ls !! q = Some l ->
     let l' := filter (fun j => j <> p) l in
     let ps' := upd_slot p asleep (ps_setq q l' (k_ps s)) in
     sched_inv ps' (<[q := l']> ls) -> Q (set_k_hw h2 (set_k_ps ps' s))) ->
  hands (sleep ch lk) [] s Q.
Proof using Hok Hd Hcur Hlk Hne Hp Hhw Hinv Hx Hst.
  intros HQ.
  pose proof (hart_ok_acq h lk 2 Hok Hlk) as Hok1. rewrite <- Hhw in Hok1.
  assert (lock_free (k_hw s) (LProc p)) as Hp1.
  { destruct Hp as [n Hn']. exists n. rewrite Hhw, (hw_acq_other h lk); done. }
  assert (cur_is (k_hw s) p) as Hcur1 by (rewrite Hhw; by eapply cur_is_taken).
  assert (hw_crit (k_hw s) = k_hw s) as Hcrit by (rewrite Hhw; by eapply hw_crit_acq).
  unfold sleep. apply hands_bind. eapply wp_curproc; [done..|]. rewrite Hcrit, set_k_hw_id.
  apply hands_bind. apply wp_acquire; [done..|].
  destruct sleep_hw as (c & Hc & Hn & Hcp & Hs & Hheld & Hfree & Htp).
  destruct (hw_acq_cpu (k_hw s) (LProc p) _ Hok1 Hp1) as (c1 & Hc1 & Hc2 & Hs2 & _).
  destruct (hw_acq_held h lk Hlk) as [n Hh]. rewrite <- Hhw in Hh.
  destruct (hw_acq_fields (LProc p) (k_hw s)) as (Ht & _).
  assert (h_locks h1 !! lk = Some (mkspinlock 1 n (Some (h_tp h1)))) as Hl1.
  { subst h1. rewrite (hw_acq_other _ _ Hp1), Ht by congruence. done. }
  destruct (hw_rel_fields lk h1 _ n Hl1 Hc2) as (_ & _ & R3 & _). fold h2 in R3.
  rewrite Hc in R3. injection R3 as ->.
  apply (hands_locked ch lk p x ls (set_k_hw h1 s) _ Hne Hc2); try done.
  - unfold cpu_push. cbn in *. lia.
  - by exists n.
  - by apply hw_acq_held.
Qed.
End sleep.

(** A move of the other harts, beside the running process [p] of this one: it
    leaves this hart's registers, its struct cpu and the locks it holds alone,
    [p->lock] exists and [p] runs as before, and the run queues stay well
    formed. *)
Definition same_hart (h h' : hwstate) : Prop :=
  h_tp h' = h_tp h /\ h_sstatus h' = h_sstatus h /\ cur_cpu h' = cur_cpu h.
Record other_hart (p : nat) (f : kstate -> kstate) : Prop := {
  oh_hart : forall s, same_hart (k_hw s) (k_hw (f s));
  oh_held : forall s l, lock_held (k_hw s) l -> lock_held (k_hw (f s)) l;
  oh_lock : keeps_lock (LProc p) f;
  oh_runs : forall s x, ps_proc (k_ps s) !! p = Some x -> p_state x = RUNNING ->
    exists y, ps_proc (k_ps (f s)) !! p = Some y /\ p_state y = RUNNING;
  oh_queues : forall s ls, sched_inv (k_ps s) ls -> exists ls', sched_inv (k_ps (f s)) ls';
}.

(** this hart waits for [p->lock] inside [sleep], with [lk] in its hands *)
Definition awaits_plock (lk : lockid) (p : nat) (h : hwstate) (s : kstate) : Prop :=
  same_hart h (k_hw s) /\ lock_held (k_hw s) lk /\
  (exists x, ps_proc (k_ps s) !! p = Some x /\ p_state x = RUNNING) /\
  exists ls, sched_inv (k_ps s) ls.

Lemma awaits_plock_other lk p h f s : other_hart p f -> awaits_plock lk p h s -> awaits_plock lk p h (f s).
Proof.
  intros [H1 H2 _ H4 H5] ((A1 & A2 & A3) & B & (x & C1 & C2) & ls & D).
  destruct (H1 s) as (E1 & E2 & E3). split; [|by eauto 6].
  split_and!; [by rewrite <- A1 | by rewrite <- A2 | by rewrite <- A3].
Qed.
Lemma awaits_plock_swapped lk p h s : lk <> LProc p -> awaits_plock lk p h s -> awaits_plock lk p h (swapped (LProc p) s).
Proof.
  intros Hne (A & (n & B) & C & D). unfold swapped. destruct (h_locks (k_hw s) !! LProc p); (split; [exact A|]; split; [|done]).
  - exists n. cbn. by rewrite lookup_insert_ne.
  - by exists n.
Qed.
Lemma awaits_plock_took lk p h s k : lk <> LProc p -> h_locks (k_hw s) !! LProc p = Some k ->
  awaits_plock lk p h s -> awaits_plock lk p h (took (LProc p) s).
Proof.
  intros Hne Hk (A & (n & B) & C & D). unfold took. rewrite Hk.
  split; [exact A|]. split; [|done]. exists n. cbn. by rewrite lookup_insert_ne.
Qed.

(** [p] sleeps on [ch] after [sleep] found it in the state [s]: off the run
    queues, with [lk] released and [p->lock] still held *)
Definition fell_asleep (ch : chan) (lk : lockid) (p : nat) (s s1 : kstate) : Prop :=
  (exists y, ps_proc (k_ps s) !! p = Some y /\ p_state y = RUNNING /\
     ps_proc (k_ps s1) !! p = Some (asleep ch y)) /\
  lock_free (k_hw s1) lk /\ lock_held (k_hw s1) (LProc p) /\
  exists ls, sched_inv (k_ps s1) ls /\ Forall (fun l => p ∉ l) ls.

Section sleep_beside.
Context (ch : chan) (lk : lockid) (p : nat) (x : proc) (ls : list (list nat)).
Context (h : hwstate) (e : list (kstate -> kstate)) (s : kstate).
Context (Hok : hart_ok 2 h) (Hd : depth h = 0) (Hcur : cur_is h p).
Context (Hlk : lock_free h lk) (Hne : lk <> LProc p) (Hp : not_mine h (LProc p)).
Context (Hhw : k_hw s = hw_acq lk h).
Context (Hinv : sched_inv (k_ps s) ls) (Hx : ps_proc (k_ps s) !! p = Some x).
Context (Hst : p_state x = RUNNING) (He : Forall (other_hart p) e).
Let s0 : kstate := set_k_hw (hw_push (k_hw s)) s.

Lemma pushed_waiting : awaits_plock lk p (k_hw s0) s0 /\ not_mine (k_hw s) (LProc p) /\
  hart_ok 1 (k_hw s) /\ Forall (keeps_lock (LProc p)) e.
Proof using Hok Hlk Hne Hp Hhw Hinv Hx Hst He.
  destruct (hw_push_locks (k_hw s)) as [Hpl Hpt]. destruct (hw_acq_held h lk Hlk) as [n Hh].
  rewrite <- Hhw in Hh. destruct (hw_acq_fields lk h) as (Ht & _). rewrite <- Hhw in Ht. split_and!.
  - split; [done|]. split; [exists n; cbn; by rewrite Hpl, Hpt|]. split; [by exists x | by exists ls].
  - destruct Hp as (k & Hk & Hf). exists k. rewrite Hhw, (hw_acq_other h lk) by done. split; [done|].
    rewrite <- Hhw, Ht. done.
  - rewrite Hhw. by apply (hart_ok_acq h lk 2).
  - eapply Forall_impl; [exact He | by intros f []].
Qed.
Lemma attempt_waiting n : awaits_plock lk p (k_hw s0) (attempt (LProc p) e n s0).
Proof using Hok Hlk Hne Hp Hhw Hinv Hx Hst He.
  apply attempt_ind; [intros; by apply awaits_plock_swapped | | apply pushed_waiting].
  eapply Forall_impl; [exact He|]. intros f Hf s1. by apply awaits_plock_other.
Qed.
(** [sleep] up to the call of [acquire(&p->lock)] *)
Lemma sleep_acquires : sleep ch lk e s = bind (acquire (LProc p)) (fun _ =>
    release lk;; pupd p (set_p_chan ch);; pupd p (set_p_state SLEEPING);;
    q <- pget p p_queue_number;; kdequeue p q;; sched;;
    pupd p (set_p_chan CNull);; release (LProc p);; acquire lk) e s.
Proof using Hok Hlk Hcur Hhw Hne Hp Hinv Hx Hst He.
  destruct pushed_waiting as (_ & _ & Hok1 & _).
  assert (wp curproc e s (fun a e' s' => a = p /\ e' = e /\ s' = s)) as Hc.
  { eapply (wp_curproc p); [done | rewrite Hhw; by eapply cur_is_taken |].
    split_and!; [done..|]. rewrite Hhw, (hw_crit_acq h lk 2), <- Hhw by done. by rewrite set_k_hw_id. }
  apply wp_elim in Hc as (a & e' & s' & Hc & -> & -> & ->). unfold sleep, bind at 1. by rewrite Hc.
Qed.
Lemma awaits_plock_cpu s1 : awaits_plock lk p (k_hw s0) s1 -> exists c, cur_cpu (k_hw s1) = Some c /\
  c_noff c = 2 /\ c_proc c = Some p /\ sie (k_hw s1) = false.
Proof using Hok Hd Hlk Hcur Hhw.
  intros ((_ & Hss & Hcc) & _). destruct (hw_acq_cpu h lk 2 Hok Hlk) as (c & Hc & Hc1 & Hs1 & Hn & _).
  rewrite <- Hhw in Hc1, Hs1. exists (cpu_push (sie (k_hw s)) (cpu_push (sie h) c)).
  unfold depth in Hd. rewrite Hc in Hd. unfold cur_is in Hcur. rewrite Hc in Hcur. injection Hcur as Hcp.
  split_and!.
  - rewrite Hcc. by apply (cur_cpu_push (k_hw s)).
  - unfold cpu_push. rewrite Hd. cbn. lia.
  - unfold cpu_push. cbn. destruct (_ =? 0), (_ =? 0); done.
  - unfold sie. rewrite Hss. cbn. unfold hw_push. rewrite Hc1. cbn. rewrite land_SIE. apply intr_off_bit.
Qed.

(** while [p->lock] is taken, [sleep] waits with [lk] in its hands *)
Lemma sleep_waits :
  (forall n, (n <= length e)%nat -> lock_word (attempt (LProc p) e n s0) (LProc p) <> Some 0) ->
  hands (sleep ch lk) e s (awaits_plock lk p (k_hw s0)).
Proof using Hok Hlk Hcur Hhw Hne Hp Hinv Hx Hst He.
  intros Hnz. destruct pushed_waiting as (_ & Hm & Hok1 & Hkl).
  unfold hands. rewrite sleep_acquires. unfold bind at 1. rewrite acquire_blocks by done.
  apply awaits_plock_swapped; [done | apply attempt_waiting].
Qed.
(** once it is free, [sleep] takes it and falls asleep *)
Lemma sleep_sleeps : let s1 := attempt (LProc p) e (length e) s0 in
  lock_word s1 (LProc p) = Some 0 ->
  (forall n, (n < length e)%nat -> lock_word (attempt (LProc p) e n s0) (LProc p) <> Some 0) ->
  hands (sleep ch lk) e s (fell_asleep ch lk p s1).
Proof using Hok Hd Hlk Hcur Hhw Hne Hp Hinv Hx Hst He.
  intros s1 Hz Hnz. destruct pushed_waiting as (_ & Hm & Hok1 & Hkl).
  destruct (acquire_takes (LProc p) e s Hok1 Hkl Hm (length e)) as [Ha Hh]; [done..|]. fold s0 in Ha, Hh.
  fold s1 in Ha, Hh. unfold hands. rewrite sleep_acquires. unfold bind at 1. rewrite Ha, drop_all.
  apply fmap_Some in Hz as (k & Hk & _). pose proof (attempt_waiting (length e)) as Hw. fold s1 in Hw.
  pose proof (awaits_plock_took _ _ _ _ _ Hne Hk Hw) as Hw2. pose proof Hw2 as (_ & Hl2 & (y & Hy & Hyr) & ls2 & Hi2).
  destruct (awaits_plock_cpu _ Hw2) as (c & C1 & C2 & C3 & C4).
  destruct (locked_hw lk p (took (LProc p) s1) c) as (_ & Hfree & Hheld); [done..|].
  apply (hands_locked ch lk p y ls2 (took (LProc p) s1) c); try done.
  intros q l Hq Hl l' ps' Hinv'. pose proof (lookup_lt_Some _ _ _ Hy) as Hlt.
  assert (ps_proc ps' !! p = Some (asleep ch y)) as Hp' by (by apply slot_self).
  split_and!; [|done|done|].
  - exists y. split_and!; try done. revert Hy. unfold took. by rewrite Hk.
  - exists (<[q := l']> ls2). split; [done|]. pose proof (proj2 Hinv' p _ Hp') as Hq'.
    rewrite Forall_lookup. intros i li Hi. rewrite (Hq' i li Hi). done.
Qed.
End sleep_beside.

(** a process asleep on the channel is woken *)
Lemma wakeup_wakes ch p me e s y ls :
  ps_proc (k_ps s) !! p = Some y -> p_state y = SLEEPING -> p_chan y = ch -> sched_inv (k_ps s) ls ->
  me <> Some p -> hart_ok 1 (k_hw s) -> c_proc <$> cur_cpu (k_hw s) = Some me ->
  proc_locks_free (k_hw s) me ->
  wp (wakeup ch) e s (fun _ _ s' => ps_proc (k_ps s') !! p = Some (set_p_state RUNNABLE y)).
Proof.
  intros Hy Hst Hch Hinv Hme Hok Hcur Hlk. destruct (cur_cpu (k_hw s)) as [c|] eqn:Hc; [|done].
  injection Hcur as Hme2. eapply wp_wakeup; [done..|].
  intros s3 (_ & _ & Ht & _). rewrite Ht. unfold woken_table. rewrite list_lookup_imap, Hy.
  cbn. rewrite decide_True; [|rewrite <- (qo_nproc _ _ (proj1 Hinv)); by eapply lookup_lt_Some].
  unfold wake_proc, wakes. rewrite bool_decide_eq_false_2 by done.
  by rewrite !bool_decide_eq_true_2 by done.
Qed.

(** C4: No lost wakeups.  The caller of [sleep] holds [lk], and so must whoever
    wakes the channel up.  Beside other harts that respect the locks this one
    holds, [sleep] keeps [lk] as long as [p->lock] is taken; at the first attempt that
    finds [p->lock] free it takes it, and gives up the processor with the
    process asleep on the channel, off the run queues, [lk] released and
    [p->lock] still held: there is no moment at which [lk] is free and the
    process neither locked nor asleep.  From any later state in which the
    process is still asleep on the channel, a [wakeup] of it by another thread
    makes the process runnable. *)
Theorem sleep_no_lost_wakeup ch lk p x ls h e s :
  hart_ok 2 h -> depth h = 0 -> cur_is h p ->
  lock_free h lk -> lk <> LProc p -> not_mine h (LProc p) -> k_hw s = hw_acq lk h ->
  sched_inv (k_ps s) ls -> ps_proc (k_ps s) !! p = Some x -> p_state x = RUNNING ->
  Forall (other_hart p) e ->
  let s0 := set_k_hw (hw_push (k_hw s)) s in
  let taken n := lock_word (attempt (LProc p) e n s0) (LProc p) <> Some 0 in
  let s1 := attempt (LProc p) e (length e) s0 in
  ((forall n, (n <= length e)%nat -> taken n) ->
     hands (sleep ch lk) e s (fun s2 => lock_held (k_hw s2) lk /\
       exists y, ps_proc (k_ps s2) !! p = Some y /\ p_state y = RUNNING)) /\
  (lock_word s1 (LProc p) = Some 0 -> (forall n, (n < length e)%nat -> taken n) ->
     hands (sleep ch lk) e s (fell_asleep ch lk p s1)) /\
  forall me e2 s2 y ls2,
    ps_proc (k_ps s2) !! p = Some y -> p_state y = SLEEPING -> p_chan y = ch -> sched_inv (k_ps s2) ls2 ->
    me <> Some p -> hart_ok 1 (k_hw s2) -> c_proc <$> cur_cpu (k_hw s2) = Some me ->
    proc_locks_free (k_hw s2) me ->
    wp (wakeup ch) e2 s2 (fun _ _ s3 => ps_proc (k_ps s3) !! p = Some (set_p_state RUNNABLE y)).
Proof.
  intros Hok Hd Hcur Hlk Hne Hp Hhw Hinv Hx Hst He s0 taken s1. split_and!.
  - intros Ht. eapply hands_mono; [by eapply sleep_waits|]. by intros s2 (_ & ? & ? & _).
  - by eapply sleep_sleeps.
  - intros me e2 s2 y ls2. by apply wakeup_wakes.
Qed.

(** the machine of [ps1], its running process (slot 0) holding [ticks_lock] *)
Definition hw1 : hwstate := set_h_cpus (<[0%nat := set_c_proc (Some 0%nat) cpu0]> (h_cpus hw0)) hw0.
Lemma hw1_hart n : n < 2 ^ 31 -> hart_ok n hw1.
Proof. intros H. eexists. split; [reflexivity|]. split; [cbn; lia | done]. Qed.
Lemma hw1_lock l : bool_decide (h_locks hw0 !! l = Some (mkspinlock 0 "lock" None)) = true -> lock_free hw1 l.
Proof. intros H. apply bool_decide_eq_true_1 in H. by exists "lock"%string. Qed.
Definition demo : kstate := set_k_hw hw1 (set_k_ps ps1 boot).

(** [p->lock] of the running process is in the hands of hart 1, which is about
    to leave it *)
Definition hw_busy : hwstate := hw_lock (LProc 0) (mkspinlock 1 "lock" (Some 1%nat)) hw1.
Definition others_leave (s : kstate) : kstate :=
  match h_locks (k_hw s) !! LProc 0 with
  | Some k => if bool_decide (lk_cpu k = Some (h_tp (k_hw s))) then s
              else set_k_hw (hw_lock (LProc 0) (mkspinlock 0 (lk_name k) None) (k_hw s)) s
  | None => s
  end.
Lemma others_id p : other_hart p (fun s => s).
Proof. split; [by intros s | by intros s | by intros s | eauto | eauto]. Qed.
Lemma others_leave_ok : other_hart 0 others_leave.
Proof.
  assert (forall s, others_leave s = s \/ exists k, h_locks (k_hw s) !! LProc 0 = Some k /\
    lk_cpu k <> Some (h_tp (k_hw s)) /\
    others_leave s = set_k_hw (hw_lock (LProc 0) (mkspinlock 0 (lk_name k) None) (k_hw s)) s) as H.
  { intros s. unfold others_leave. destruct (h_locks (k_hw s) !! LProc 0) as [k|]; [|by left].
    case_bool_decide; [by left | right; by exists k]. }
  split; intros s; destruct (H s) as [->|(k & Hk & Hc & ->)]; eauto; try done.
  - intros l [n Hl]. exists n. cbn. rewrite lookup_insert_ne; [done|]. intros <-. rewrite Hk in Hl.
    by injection Hl as ->.
  - intros _. cbn. rewrite lookup_insert_eq. by eexists.
Qed.
(** the machine once the process sleeps and its hart is back in the scheduler *)
Definition ps_slept : procs :=
  mkprocs (<[0%nat := asleep CTicks (demo_proc 0 RUNNING CNull 1 0 None)]> demo_table) (Some 0%nat)
    [row_of []; row_of [1; 3]; row_of []; row_of []]%nat [0; 2; 0; 0] 5 123456789 0 1.
Lemma ps_slept_inv : sched_inv ps_slept [[]; [1; 3]; []; []]%nat.
Proof. apply sched_invb_sound. vm_compute. reflexivity. Qed.

Lemma sleep_no_lost_wakeup_witness :
  let s := set_k_hw (hw_acq LTicks hw_busy) demo in
  let e := [fun s => s; others_leave] in
  hands (sleep CTicks LTicks) [fun s => s] s (fun s2 => lock_held (k_hw s2) LTicks /\
    exists y, ps_proc (k_ps s2) !! 0%nat = Some y /\ p_state y = RUNNING) /\
  hands (sleep CTicks LTicks) e s
    (fell_asleep CTicks LTicks 0 (attempt (LProc 0) e 2 (set_k_hw (hw_push (k_hw s)) s))) /\
  wp (wakeup CTicks) [] (set_k_ps ps_slept boot) (fun _ _ s3 => ps_proc (k_ps s3) !! 0%nat =
    Some (set_p_state RUNNABLE (asleep CTicks (demo_proc 0 RUNNING CNull 1 0 None)))).
Proof.
  intros s e. assert (hart_ok 2 hw_busy) as Hok by (by apply (hw1_hart 2)).
  assert (lock_free hw_busy LTicks) as Hlk by (by exists "lock"%string).
  assert (not_mine hw_busy (LProc 0)) as Hp by (eexists; split; [reflexivity | by right]).
  pose proof (fun e' => sleep_no_lost_wakeup CTicks LTicks 0 (demo_proc 0 RUNNING CNull 1 0 None) demo_queues
    hw_busy e' s Hok eq_refl eq_refl Hlk ltac:(discriminate) Hp eq_refl demo_sched_inv eq_refl eq_refl) as H.
  split_and!.
  - refine (proj1 (H [fun s => s] _) _); [apply Forall_singleton, others_id|].
    intros [|[|n]] Hn; [vm_compute; discriminate.. | cbn in Hn; lia].
  - refine (proj1 (proj2 (H e _)) _ _).
    + repeat apply Forall_cons_2; [apply others_id | apply others_leave_ok | apply Forall_nil_2].
    + vm_compute. reflexivity.
    + intros [|[|n]] Hn; [vm_compute; discriminate.. | cbn in Hn; lia].
  - refine (proj2 (proj2 (H [] ltac:(constructor))) None [] (set_k_ps ps_slept boot) _ _ eq_refl eq_refl eq_refl
      ps_slept_inv _ _ eq_refl _).
    + discriminate.
    + by apply (boot_hart 1).
    + intros i Hi _. by apply (boot_proc_locks None i Hi).
Defined.

Lemma wakeup_exact_witness :
  exists s', wakeup CTicks [] demo = Ret tt [] s' /\ only_ps demo s' /\ same_misc ps1 (k_ps s') /\
    ps_proc (k_ps s') = imap (wake_proc CTicks (Some 0%nat)) demo_table /\
    exists ls', sched_inv (k_ps s') ls' /\
      forall q, ls' !! q = (fun l => l ++ woken CTicks (Some 0%nat) ps1 q NPROC) <$> demo_queues !! q.
Proof.
  apply (wakeup_exact CTicks (Some 0%nat) demo_queues [] demo).
  - by apply hw1_hart.
  - reflexivity.
  - intros i Hi _. destruct (boot_proc_locks None i Hi) as [n Hn]; [done|]. by exists n.
  - apply demo_sched_inv.
Defined.

(** *** kill *)
Definition kill_slot (k : proc) : proc :=
  let k := set_p_killed 1 k in
  if bool_decide (p_state k = SLEEPING) then set_p_queueticks 0 (set_p_state RUNNABLE k) else k.

(** the process globals after [kill] hit slot [i] *)
Definition ps_killed (i : nat) (p : proc) (ls : list (list nat)) (ps : procs) : procs :=
  if bool_decide (p_state p = SLEEPING) then
    let q := Z.to_nat (p_queue_number p) in
    ps_join i q (default [] (ls !! q)) (kill_slot p) ps
  else upd_slot i (kill_slot p) ps.

Definition no_pid_before (pid : Z) (k : nat) (t : list proc) : Prop :=
  forall j p, (j < k)%nat -> t !! j = Some p -> p_pid p <> pid.

Lemma wp_kill pid ls e s (Q : Z -> list (kstate -> kstate) -> kstate -> Prop) :
  hart_ok 1 (k_hw s) -> proc_locks_free (k_hw s) None -> sched_inv (k_ps s) ls ->
  (forall i p s', ps_proc (k_ps s) !! i = Some p -> p_pid p = pid ->
     no_pid_before pid i (ps_proc (k_ps s)) -> only_ps s s' ->
     k_ps s' = ps_killed i p ls (k_ps s) -> (exists ls', sched_inv (k_ps s') ls') -> Q 0 e s') ->
  (forall s', no_pid_before pid NPROC (ps_proc (k_ps s)) -> only_ps s s' -> k_ps s' = k_ps s ->
     Q (-1) e s') ->
  wp (kill pid) e s Q.
Proof.
  intros Hok Hlk Hinv Hhit Hmiss. pose proof Hinv as [Hqok _]. unfold kill. wp_step.
  apply (wp_seq_for _ (fun k s' => only_ps s s' /\ k_ps s' = k_ps s /\
    no_pid_before pid k (ps_proc (k_ps s)))).
  - split_and!; [done | done |]. intros j p Hj. lia.
  - intros k s' Hk (Ho & Hps & Hno). pose proof Ho as (Hh & Hmm & Hio & Hfs).
    assert (hart_ok 1 (k_hw s')) as Hok' by (by eapply hart_ok_eqv).
    assert (lock_free (k_hw s') (LProc k)) as Hf by (eapply lock_free_eqv; [symmetry; exact Hh | by apply Hlk]).
    destruct (lookup_lt_is_Some_2 (ps_proc (k_ps s)) k) as [p Hp]; [by rewrite (qo_nproc _ _ Hqok)|].
    assert (k < length (ps_proc (k_ps s')))%nat as Hlt by (rewrite Hps; by eapply lookup_lt_Some).
    assert (forall ps', only_ps s (set_k_hw (hw_crit (k_hw s')) (set_k_ps ps' s'))) as Ho'.
    { intros ps'. split_and!; try done. cbn. by rewrite hw_crit_eqv. }
    wp_step. apply wp_acquire; [done..|]. wp_step. eapply wp_pget; [cbn; by rewrite Hps|].
    destruct (Z.eqb_spec (p_pid p) pid) as [Hpid|Hpid].
    + wp_step. eapply wp_pupd; [cbn; by rewrite Hps|]. wp_step.
      eapply wp_pget; [by apply slot_self|]. wp_step. apply wp_when; intros Hst.
      * apply bool_decide_eq_true_1 in Hst. cbn in Hst.
        destruct (queue_lookup _ _ _ _ Hqok Hp) as (q & l & Hq & Hl).
        wp_step. eapply wp_pupd; [by apply slot_self|]. wp_step.
        eapply wp_pget; [apply slot_self; cbn; by rewrite length_insert|]. cbn. rewrite Hq.
        eapply (wp_kenqueue_join (k_ps s) ls k p (set_p_state RUNNABLE (set_p_killed 1 p)) q l); try done.
        { split_and!; try done. unfold used. by rewrite Hst. }
        { cbn. by rewrite upd_slot_twice, Hps. }
        { unfold home. by rewrite Hst. }
        wp_step. eapply (wp_release_acq _ (k_hw s') 1); [lia|done..|]. wp_step. split; [done|]. wp_step.
        assert (kill_slot p = set_p_queue_number q (set_p_queueticks 0 (set_p_state RUNNABLE (set_p_killed 1 p)))) as Hks.
        { unfold kill_slot. rewrite bool_decide_eq_true_2 by done. rewrite <- Hq. by destruct p. }
        apply (Hhit k p); try done.
        -- apply Ho'.
        -- cbn. unfold ps_killed. rewrite bool_decide_eq_true_2 by done.
           cbv zeta. by rewrite Hq, Nat2Z.id, Hl, Hks.
        -- exists (<[q := l ++ [k]]> ls). cbn. eapply sched_inv_join; try done.
           ++ unfold home. by rewrite Hst.
           ++ unfold used. by rewrite Hst.
           ++ split_and!; try done. unfold used. by rewrite Hst.
      * apply bool_decide_eq_false_1 in Hst. cbn in Hst.
        wp_step. eapply (wp_release_acq _ (k_hw s') 1); [lia|done..|]. wp_step. split; [done|]. wp_step.
        assert (kill_slot p = set_p_killed 1 p) as Hks.
        { unfold kill_slot. by rewrite bool_decide_eq_false_2 by done. }
        apply (Hhit k p); try done.
        -- apply Ho'.
        -- cbn. unfold ps_killed. rewrite bool_decide_eq_false_2 by done. by rewrite Hks, Hps.
        -- exists ls. cbn. rewrite Hps. by eapply sched_inv_upd.
    + wp_step. eapply (wp_release_acq _ (k_hw s') 1); [lia|done..|]. wp_step. split; [done|].
      split_and!; [by apply (Ho' (k_ps s')) | done |].
      intros j x Hj Hx. destruct (decide (j = k)) as [->|]; [congruence | apply (Hno j); [lia | done]].
  - intros s' (Ho & Hps & Hno). wp_step. by apply Hmiss.
Qed.

(** C34: [kill] reports success exactly when a table slot carries the pid; it
    then marks the first such slot killed and, if that process slept, makes it
    runnable at the end of its queue; no other slot changes and the scheduling
    invariant is kept. *)
Theorem kill_spec pid ls e s :
  hart_ok 1 (k_hw s) -> proc_locks_free (k_hw s) None -> sched_inv (k_ps s) ls ->
  exists r s', kill pid e s = Ret r e s' /\ only_ps s s' /\ (exists ls', sched_inv (k_ps s') ls') /\
    ((r = 0 /\ exists i p, ps_proc (k_ps s) !! i = Some p /\ p_pid p = pid /\
        no_pid_before pid i (ps_proc (k_ps s)) /\ k_ps s' = ps_killed i p ls (k_ps s)) \/
     (r = -1 /\ no_pid_before pid NPROC (ps_proc (k_ps s)) /\ k_ps s' = k_ps s)).
Proof.
  intros Hok Hlk Hinv.
  assert (wp (kill pid) e s (fun r e' s' => e' = e /\ only_ps s s' /\
    (exists ls', sched_inv (k_ps s') ls') /\
    ((r = 0 /\ exists i p, ps_proc (k_ps s) !! i = Some p /\ p_pid p = pid /\
        no_pid_before pid i (ps_proc (k_ps s)) /\ k_ps s' = ps_killed i p ls (k_ps s)) \/
     (r = -1 /\ no_pid_before pid NPROC (ps_proc (k_ps s)) /\ k_ps s' = k_ps s)))) as H.
  { eapply (wp_kill pid ls); try done.
    - intros i p s' H1 H2 H3 H4 H5 H6. split_and!; try done. left. eauto 10.
    - intros s' H1 H2 H3. split_and!; try done; [by rewrite H3; exists ls | by right]. }
  apply wp_elim in H as (r & e' & s' & Heq & -> & H). eauto.
Qed.

Lemma kill_spec_witness :
  exists r s', kill 3 [] demo = Ret r [] s' /\ only_ps demo s' /\ (exists ls', sched_inv (k_ps s') ls') /\
    ((r = 0 /\ exists i p, demo_table !! i = Some p /\ p_pid p = 3 /\
        no_pid_before 3 i demo_table /\ k_ps s' = ps_killed i p demo_queues ps1) \/
     (r = -1 /\ no_pid_before 3 NPROC demo_table /\ k_ps s' = ps1)).
Proof.
  apply (kill_spec 3 demo_queues [] demo).
  - by apply hw1_hart.
  - intros i Hi _. destruct (boot_proc_locks None i Hi) as [n Hn]; [done|]. by exists n.
  - apply demo_sched_inv.
Defined.

(** *** yield *)
Section yield.
Context (p : nat) (x : proc) (s : kstate).
Context (Hok : hart_ok 2 (k_hw s)) (Hd : depth (k_hw s) = 0) (Hcur : cur_is (k_hw s) p).
Context (Hlk : lock_free (k_hw s) (LProc p)) (Hx : ps_proc (k_ps s) !! p = Some x).

(** the state in which [yield] switches to the scheduler *)
Definition yielded : kstate :=
  set_k_ps (upd_slot p (set_p_state RUNNABLE x) (k_ps s))
    (set_k_hw (hw_acq (LProc p) (hw_crit (k_hw s))) s).

Lemma yielded_ready : sched_ready p (k_hw yielded) /\ not_running p (k_ps yielded) /\
  exists c, cur_cpu (k_hw yielded) = Some c /\ c_intena c = b2z (sie (k_hw s)).
Proof using Hok Hd Hcur Hlk Hx.
  assert (hw_crit (k_hw s) ≈h k_hw s) as He by apply hw_crit_eqv.
  assert (lock_free (hw_crit (k_hw s)) (LProc p)) as Hlk'
    by (eapply lock_free_eqv; [by symmetry | done]).
  assert (hart_ok 2 (hw_crit (k_hw s))) as Hok' by (by eapply hart_ok_eqv).
  destruct (hw_acq_cpu _ _ _ Hok' Hlk') as (c & Hc & Hc' & Hs & Hn & _).
  assert (cur_is (hw_crit (k_hw s)) p) as Hcur' by (by eapply cur_is_eqv).
  unfold cur_is in Hcur'. rewrite Hc in Hcur'. injection Hcur' as Hcp.
  pose proof (hw_eqv_cur _ _ He) as Hcc. rewrite Hc in Hcc. unfold depth in Hd.
  destruct (cur_cpu (k_hw s)) as [c0|]; [|done]. destruct Hcc as (_ & _ & Hcn & _).
  assert (c_noff c = 0) as Hc0 by congruence.
  split_and!.
  - exists (cpu_push (sie (hw_crit (k_hw s))) c). split_and!; try done.
    + unfold cpu_push. cbn. lia.
    + unfold cpu_push. cbn. by rewrite Hc0.
    + by apply hw_acq_held.
  - exists (set_p_state RUNNABLE x). split; [|done]. apply slot_self. by eapply lookup_lt_Some.
  - exists (cpu_push (sie (hw_crit (k_hw s))) c). split; [done|].
    unfold cpu_push, sie. rewrite Hc0. cbn.
    by destruct (hw_eqv_fields _ _ He) as (_ & -> & _).
Qed.

Lemma yield_steps e : yield e s = (sched;; release (LProc p)) e yielded.
Proof using Hok Hd Hcur Hlk Hx.
  assert (hw_crit (k_hw s) ≈h k_hw s) as He by apply hw_crit_eqv.
  assert (wp curproc e s (fun i e' s' => i = p /\ e' = e /\ s' = set_k_hw (hw_crit (k_hw s)) s)) as H1.
  { eapply wp_curproc; [by eapply hart_ok_weaken; [|done]; lia | done..]. }
  apply wp_elim in H1 as (i & e' & s' & H1 & -> & -> & ->).
  assert (wp (acquire (LProc p);; pupd p (set_p_state RUNNABLE)) e
    (set_k_hw (hw_crit (k_hw s)) s) (fun _ e' s' => e' = e /\ s' = yielded)) as H2.
  { wp_step. apply wp_acquire.
    - eapply hart_ok_eqv; [done|]. eapply hart_ok_weaken; [|done]. lia.
    - eapply lock_free_eqv; [by symmetry | done].
    - eapply wp_pupd; [done|]. done. }
  apply wp_elim in H2 as ([] & e' & s' & H2 & -> & ->).
  unfold yield, bind in *. rewrite H1. cbv beta iota in *.
  destruct (acquire (LProc p) e (set_k_hw (hw_crit (k_hw s)) s)); try done.
  cbv beta iota in *. by rewrite H2.
Qed.
End yield.

(** [yield] hands the processor to the scheduler with the process
    RUNNABLE, its place in its queue and everybody else unchanged, and only its
    own lock held; when the scheduler switches back, [yield] returns with that
    lock released and with the interrupt state of its caller, whatever
    [intena] the hart had meanwhile. *)
Lemma yield_round_trip p x ls s f e c2 :
  hart_ok 2 (k_hw s) -> depth (k_hw s) = 0 -> cur_is (k_hw s) p ->
  lock_free (k_hw s) (LProc p) -> ps_proc (k_ps s) !! p = Some x -> p_state x = RUNNING ->
  sched_inv (k_ps s) ls ->
  let s1 := yielded p x s in
  cur_cpu (k_hw (f s1)) = Some c2 ->
  sched_ready p (k_hw (f s1)) ->
  hands yield [] s (fun s' => s' = s1 /\ sched_inv (k_ps s1) ls /\ sched_ready p (k_hw s1)) /\
  wp yield (f :: e) s (fun _ e' s' => e' = e /\ k_ps s' = k_ps (f s1) /\ k_mm s' = k_mm (f s1) /\
    lock_free (k_hw s') (LProc p) /\ depth (k_hw s') = 0 /\ sie (k_hw s') = sie (k_hw s)).
Proof.
  intros Hok Hd Hcur Hlk Hx Hst Hinv s1 Hc2 Hr2.
  destruct (yielded_ready p x s Hok Hd Hcur Hlk Hx) as (Hr & Hn & c & Hc & Hint).
  pose proof (yield_steps p x s Hok Hd Hcur Hlk Hx) as Hy. split.
  - unfold hands. rewrite Hy. apply hands_bind_l, (hands_sched p); [done..|]. split_and!; try done.
    eapply sched_inv_upd; [done..| |by rewrite Hst]. split_and!; try done. unfold used. by rewrite Hst.
  - unfold wp. rewrite Hy. apply wp_bind. eapply (wp_sched p); [done..|].
    intros c' Hc' h. rewrite Hc in Hc'. injection Hc' as <-.
    destruct Hr2 as (c3 & Hc3 & Hn3 & Hp3 & Hs3 & (m & Hm)). rewrite Hc2 in Hc3. injection Hc3 as <-.
    set (h2 := set_h_cpus _ _). assert (cur_cpu h2 = Some (set_c_intena (c_intena c) c2)) as Hcur2.
    { unfold cur_cpu, h2. cbn. apply list_lookup_insert_eq. by eapply lookup_lt_Some. }
    eapply wp_release; [exact Hcur2 | cbn; lia | done | by exists m |].
    destruct (hw_rel_fields (LProc p) h2 _ m Hm Hcur2) as (R1 & R2 & R3 & _). cbn.
    split_and!; try done.
    + exists m. rewrite R2. apply lookup_insert_eq.
    + unfold depth. rewrite R3. cbn. lia.
    + rewrite (hw_rel_last _ h2 _ m Hm Hcur2) by done. cbn. rewrite Hint. by destruct (sie (k_hw s)).
Qed.

(** the scheduler runs the process again at once, on a hart with [intena] set *)
Definition resume (s : kstate) : kstate :=
  set_k_ps (upd_slot 0 (demo_proc 0 RUNNING CNull 1 0 None) (k_ps s))
    (set_k_hw (set_h_cpus (alter (set_c_intena 1) 0%nat (h_cpus (k_hw s))) (k_hw s)) s).
Lemma yield_round_trip_witness :
  let s1 := yielded 0 (demo_proc 0 RUNNING CNull 1 0 None) demo in
  hands yield [] demo (fun s' => s' = s1 /\ sched_inv (k_ps s1) demo_queues /\ sched_ready 0 (k_hw s1)) /\
  wp yield [resume] demo (fun _ e' s' => e' = [] /\ k_ps s' = k_ps (resume s1) /\
    k_mm s' = k_mm (resume s1) /\
    lock_free (k_hw s') (LProc 0) /\ depth (k_hw s') = 0 /\ sie (k_hw s') = sie (k_hw demo)).
Proof.
  apply (yield_round_trip 0 (demo_proc 0 RUNNING CNull 1 0 None) demo_queues demo resume []
    (mkcpu (Some 0%nat) ctx0 1 1)); try reflexivity.
  - by apply hw1_hart.
  - by apply hw1_lock.
  - apply demo_sched_inv.
  - eexists. split_and!; try reflexivity. by exists "lock"%string.
Defined.
