(* ===== verification/Sched.v ===== *)
(** The CPU schedulers of proc.c: round robin (the default), the lottery
    scheduler (LBS) and the multi-level feedback queue (MLFQ), with the
    pseudo-random numbers of the lottery.

    [scheduler] is an endless loop; [scheduler_round pol] is one iteration of it
    for the policy the kernel was compiled with.  The theorems characterise the
    process each policy dispatches. *)
From S2P Require Import Prelude State Spinlock Queue Boot Printf Proc.

(** ** proc.c: rand *)
Definition LCG_A : Z := 1664525.
Definition LCG_C : Z := 1013904223.
Definition LCG_M : Z := 0xFFFFFFFF.

Definition rand : P Z :=
  seed <- gets ps_seed;;
  let seed' := Z.land (u64 (LCG_A * seed + LCG_C)) LCG_M in
  modify (set_ps_seed seed');;
  ret (u32 seed').

(** the [%] is unsigned; a zero divisor is undefined behaviour *)
Definition rand_at_max (parameter : Z) : P Z :=
  r <- rand;;
  let d := u32 (parameter + 1) in
  if d =? 0 then fault "division by zero" else ret (s32 (r mod d)).

(** ** The schedulers *)
Inductive policy := RR | LBS | MLFQ.

Definition set_cpu_proc (id : nat) (p : option nat) : K unit :=
  modify_hw (fun h => set_h_cpus (alter (set_c_proc p) id (h_cpus h)) h).

(** take the lock of [p] and, if it is still runnable, run it until it comes
    back to the scheduler of cpu [id] *)
Definition run_proc (id p : nat) : K unit :=
  acquire (LProc p);;
  st <- pget p p_state;;
  when (bool_decide (st = RUNNABLE))
    (pupd p (set_p_state RUNNING);;
     set_cpu_proc id (Some p);;
     swtch;;
     set_cpu_proc id None);;
  release (LProc p).

(** *** LBS *)

(** step 1: the number of tickets of all runnable processes *)
Definition total_tickets : K Z :=
  r <- mfold (R := Empty_set) slots 0 (fun total i =>
    acquire (LProc i);;
    st <- pget i p_state;;
    t <- pget i p_tickets;;
    release (LProc i);;
    ret (inl (if bool_decide (st = RUNNABLE) then s32 (total + t) else total)));;
  match r with inl total => ret total | inr x => match x with end end.

(** the first runnable process at which the running sum reaches [value] *)
Definition lottery_winner (value : Z) : P (option nat) :=
  r <- mfold slots 0 (fun sum i =>
    p <- proc_at i;;
    if bool_decide (p_state p = RUNNABLE) then
      let sum := s32 (sum + p_tickets p) in
      ret (if value <=? sum then inr i else inl sum)
    else ret (inl sum));;
  ret match r with inl _ => None | inr i => Some i end.

(** among the runnable processes with as many tickets, the earliest arrival *)
Definition earliest_winner (winner : nat) : P nat :=
  r <- mfold (R := Empty_set) slots winner (fun winner i =>
    p <- proc_at i;;
    w <- proc_at winner;;
    if negb (bool_decide (p_state p = RUNNABLE)) || negb (p_tickets p =? p_tickets w)
    then ret (inl winner)
    else ret (inl (if p_arrival_time p <? p_arrival_time w then i else winner)));;
  match r with inl w => ret w | inr x => match x with end end.

(** the process the lottery decides on, if any *)
Definition lbs_pick (total : Z) : P (option nat) :=
  r <- rand_at_max total;;
  let value := s32 (r + 1) in
  w <- lottery_winner value;;
  match w with
  | Some w => w' <- earliest_winner w;; ret (Some w')
  | None => ret None
  end.

Definition lbs_round (id : nat) : K unit :=
  total <- total_tickets;;
  when (0 <? total)
    (w <- lift_ps (lbs_pick total);;
     match w with
     | Some w => run_proc id w
     | None => ret tt
     end).

(** *** MLFQ *)

(** put every runnable process back in its queue, keeping its ticks *)
Definition mlfq_requeue : K unit :=
  mforall slots (fun i =>
    acquire (LProc i);;
    st <- pget i p_state;;
    when (bool_decide (st = RUNNABLE))
      (old_ticks <- pget i p_queueticks;;
       q <- pget i p_queue_number;;
       kenqueue i q;;
       pupd i (set_p_queueticks old_ticks));;
    release (LProc i)).

(** the first runnable process of the highest-priority queue that has one *)
Definition mlfq_pick : P (option nat) :=
  mfor (seq 0 4) (fun level =>
    n <- sizeofq_at (Z.of_nat level);;
    mfor (seq 0 (Z.to_nat n)) (fun j =>
      x <- multique_at (Z.of_nat level) (Z.of_nat j);;
      match x with
      | Some i => p <- proc_at i;;
                  ret (if bool_decide (p_state p = RUNNABLE) then Some i else None)
      | None => fault "null pointer"
      end)).

Definition mlfq_round (id : nat) : K unit :=
  mlfq_requeue;;
  p <- lift_ps mlfq_pick;;
  match p with
  | Some p => run_proc id p
  | None => ret tt
  end.

(** *** RR *)
Definition rr_round (id : nat) : K unit :=
  mforall slots (fun p => run_proc id p).

Definition scheduler_round (pol : policy) (id : nat) : K unit :=
  intr_on;;
  match pol with
  | LBS => lbs_round id
  | MLFQ => mlfq_round id
  | RR => rr_round id
  end.

(** the first [n] iterations of [scheduler] *)
Definition scheduler (pol : policy) (n : nat) : K unit :=
  id <- cpuid;;
  set_cpu_proc id None;;
  mforall (seq 0 n) (fun _ => scheduler_round pol id).

(** ** Tickets *)
Definition tix (p : proc) : Z := if bool_decide (p_state p = RUNNABLE) then p_tickets p else 0.
(** tickets of the runnable processes among the first [k] slots *)
Fixpoint psum (t : list proc) (k : nat) {struct k} : Z :=
  match k, t with
  | S k', p :: t' => tix p + psum t' k'
  | _, _ => 0
  end.
Lemma psum_S t k p : t !! k = Some p -> psum t (S k) = psum t k + tix p.
Proof.
  revert k. induction t as [|x t IH]; intros [|k] H; cbn in *; simplify_eq; [cbn; lia|].
  rewrite <- Z.add_assoc, <- IH by done. by destruct t.
Qed.

(** no process has a negative number of tickets and the sum, plus one, fits an
    [int] *)
Definition tickets_ok (t : list proc) : Prop :=
  length t = NPROC /\ (forall i p, t !! i = Some p -> p_state p = RUNNABLE -> 0 <= p_tickets p) /\
  psum t NPROC < 2 ^ 31 - 1.

Lemma tix_nonneg t i p : tickets_ok t -> t !! i = Some p -> 0 <= tix p.
Proof.
  intros (_ & H & _) Hp. unfold tix. case_bool_decide; [by eapply H | done].
Qed.
Lemma psum_mono t (j k : nat) : tickets_ok t -> (j <= k)%nat -> (k <= NPROC)%nat ->
  psum t j <= psum t k.
Proof.
  intros Ht Hjk Hk. induction Hjk as [|k Hjk IH]; [lia|].
  destruct (lookup_lt_is_Some_2 t k) as [p Hp]; [destruct Ht as [-> _]; lia|].
  rewrite (psum_S _ _ _ Hp). pose proof (tix_nonneg _ _ _ Ht Hp). specialize (IH ltac:(lia)). lia.
Qed.
Lemma psum_range t k : tickets_ok t -> (k <= NPROC)%nat -> 0 <= psum t k < 2 ^ 31 - 1.
Proof.
  intros Ht Hk. pose proof (psum_mono t 0 k Ht ltac:(lia) Hk).
  pose proof (psum_mono t k NPROC Ht Hk ltac:(lia)). destruct Ht as (_ & _ & Hmax).
  replace (psum t 0) with 0 in * by (by destruct t). lia.
Qed.

(** process [i] owns the lottery values in (psum i, psum (i+1)] *)
Definition owns (t : list proc) (value : Z) (i : nat) : Prop :=
  exists p, t !! i = Some p /\ p_state p = RUNNABLE /\ psum t i < value <= psum t (S i).

Lemma wp_lottery_winner value e ps (Q : option nat -> list (procs -> procs) -> procs -> Prop) :
  tickets_ok (ps_proc ps) -> 1 <= value ->
  (forall i, owns (ps_proc ps) value i -> Q (Some i) e ps) ->
  (psum (ps_proc ps) NPROC < value -> Q None e ps) ->
  wp (lottery_winner value) e ps Q.
Proof.
  intros Ht Hv Hsome Hnone. unfold lottery_winner. wp_step.
  eapply (wp_mfold _ (fun rest acc e' ps' => e' = e /\ ps' = ps /\ exists k, rest = seq k (NPROC - k) /\
    (k <= NPROC)%nat /\ acc = psum (ps_proc ps) k /\ acc < value)).
  - split_and!; [done..|]. exists 0%nat. split_and!; [done | lia | by destruct (ps_proc ps) | lia].
  - intros i rest acc e' ps' (-> & -> & k & Hrest & Hk & -> & Hlt).
    apply seq_rest in Hrest as (-> & -> & Hk').
    destruct (lookup_lt_is_Some_2 (ps_proc ps) k) as [p Hp]; [destruct Ht as [-> _]; done|].
    wp_step. eapply wp_proc_at; [done|].
    pose proof (psum_S _ _ _ Hp) as HS. pose proof (psum_range _ (S k) Ht ltac:(lia)) as HR.
    unfold tix in HS. case_bool_decide as Hst.
    + wp_step. rewrite s32_small by lia. rewrite <- HS.
      destruct (Z.leb_spec value (psum (ps_proc ps) (S k))).
      * wp_step. apply Hsome. exists p. split_and!; try done.
      * split_and!; [done..|]. exists (S k). split_and!; [done | lia | done | lia].
    + wp_step. split_and!; [done..|]. exists (S k).
      split_and!; [done | lia | lia | lia].
  - intros acc e' ps' (-> & -> & k & Hrest & Hk & -> & Hlt).
    apply seq_done in Hrest as ->; [|done]. wp_step. by apply Hnone.
Qed.

(** [w] is a runnable process that arrived no later than any other runnable
    process with as many tickets *)
Definition earliest (t : list proc) (tickets : Z) (k w : nat) : Prop :=
  exists p, t !! w = Some p /\ p_state p = RUNNABLE /\ p_tickets p = tickets /\
    forall j q, (j < k)%nat -> t !! j = Some q -> p_state q = RUNNABLE -> p_tickets q = tickets ->
      p_arrival_time p <= p_arrival_time q.

Lemma wp_earliest_winner w p e ps (Q : nat -> list (procs -> procs) -> procs -> Prop) :
  length (ps_proc ps) = NPROC -> ps_proc ps !! w = Some p -> p_state p = RUNNABLE ->
  (forall w', earliest (ps_proc ps) (p_tickets p) NPROC w' -> Q w' e ps) ->
  wp (earliest_winner w) e ps Q.
Proof.
  intros Hlen Hw Hst HQ. unfold earliest_winner. wp_step.
  eapply (wp_mfold _ (fun rest acc e' ps' => e' = e /\ ps' = ps /\ exists k, rest = seq k (NPROC - k) /\
    (k <= NPROC)%nat /\ earliest (ps_proc ps) (p_tickets p) k acc)).
  - split_and!; [done..|]. exists 0%nat. split_and!; [done | lia |].
    exists p. split_and!; try done. intros; lia.
  - intros i rest acc e' ps' (-> & -> & k & Hrest & Hk & q & Hq & Hqs & Hqt & Hmin).
    apply seq_rest in Hrest as (-> & -> & Hk').
    destruct (lookup_lt_is_Some_2 (ps_proc ps) k) as [x Hx]; [by rewrite Hlen|].
    wp_step. eapply wp_proc_at; [done|]. wp_step. eapply wp_proc_at; [done|].
    assert (forall j y, (j < S k)%nat -> ps_proc ps !! j = Some y ->
      (j < k)%nat \/ (j = k /\ y = x)) as Hcase.
    { intros j y Hj Hy. destruct (decide (j = k)) as [->|]; [right; by simplify_eq | left; lia]. }
    case_bool_decide as Hxs; cbn [negb orb]; [destruct (Z.eqb_spec (p_tickets x) (p_tickets q)) as [Heq|Hne];
      cbn [negb]|]; wp_step; (split_and!; [done..|]; exists (S k); split_and!; [done | lia |]).
    + destruct (Z.ltb_spec (p_arrival_time x) (p_arrival_time q)).
      * exists x. split_and!; try done; [congruence|].
        intros j y Hj Hy Hys Hyt. destruct (Hcase j y Hj Hy) as [Hj'|[-> ->]]; [|done].
        pose proof (Hmin j y Hj' Hy Hys Hyt). lia.
      * exists q. split_and!; try done.
        intros j y Hj Hy Hys Hyt. destruct (Hcase j y Hj Hy) as [Hj'|[-> ->]]; [|done]. eauto.
    + exists q. split_and!; try done.
      intros j y Hj Hy Hys Hyt. destruct (Hcase j y Hj Hy) as [Hj'|[-> ->]]; [eauto | congruence].
    + exists q. split_and!; try done.
      intros j y Hj Hy Hys Hyt. destruct (Hcase j y Hj Hy) as [Hj'|[-> ->]]; [eauto | congruence].
  - intros acc e' ps' (-> & -> & k & Hrest & Hk & Hear).
    apply seq_done in Hrest as ->; [|done]. wp_step. by apply HQ.
Qed.

(** ** What each round dispatches *)

(** The hart is in its scheduler: no lock taken, process locks free. *)
Definition in_scheduler (id : nat) (h : hwstate) : Prop :=
  h_tp h = id /\ hart_ok 1 h /\ depth h = 0 /\ proc_locks_free h None.
Lemma in_scheduler_eqv id h h' : h ≈h h' -> in_scheduler id h -> in_scheduler id h'.
Proof.
  intros He (Htp & Hok & Hd & Hl). pose proof (hw_eqv_fields _ _ He) as (Ht & _).
  split_and!; [congruence | by eapply hart_ok_eqv | |].
  - unfold depth in *. pose proof (hw_eqv_cur _ _ He) as Hc.
    destruct (cur_cpu h), (cur_cpu h'); try done. by destruct Hc as (_ & _ & <- & _).
  - intros i Hi Hn. eapply lock_free_eqv; [done | by apply Hl].
Qed.

(** Process [p] was runnable and has the processor in [s']; only its state, the
    cpu's current process and the lock of [p] changed. *)
Definition dispatched (id p : nat) (s s' : kstate) : Prop :=
  exists x, ps_proc (k_ps s) !! p = Some x /\ p_state x = RUNNABLE /\
    k_ps s' = upd_slot p (set_p_state RUNNING x) (k_ps s) /\
    cur_is (k_hw s') p /\ lock_held (k_hw s') (LProc p) /\ depth (k_hw s') = 1 /\
    sie (k_hw s') = false /\
    k_mm s' = k_mm s /\ k_io s' = k_io s /\ k_fs s' = k_fs s.

Lemma hands_run_proc id p x s :
  in_scheduler id (k_hw s) -> (p < NPROC)%nat ->
  ps_proc (k_ps s) !! p = Some x -> p_state x = RUNNABLE ->
  hands (run_proc id p) [] s (dispatched id p s).
Proof.
  intros (Htp & Hok & Hd & Hl) Hlt Hp Hst. assert (lock_free (k_hw s) (LProc p)) as Hf by (by apply Hl).
  unfold run_proc. apply hands_bind. apply wp_acquire; [done..|].
  apply hands_bind. eapply wp_pget; [done|]. rewrite bool_decide_eq_true_2 by done. cbn [when].
  apply hands_bind_l. apply hands_bind. eapply wp_pupd; [done|].
  apply hands_bind. unfold set_cpu_proc, modify_hw. wp_step.
  apply hands_bind_l, hands_interfere. cbn.
  destruct (hw_acq_cpu _ _ _ Hok Hf) as (c & Hc & Hc' & Hsie & _).
  destruct (hw_acq_fields (LProc p) (k_hw s)) as (Ht & _).
  assert (cur_cpu (set_h_cpus (alter (set_c_proc (Some p)) id (h_cpus (hw_acq (LProc p) (k_hw s))))
    (hw_acq (LProc p) (k_hw s))) = Some (set_c_proc (Some p) (cpu_push (sie (k_hw s)) c))) as Hcur.
  { unfold cur_cpu in *. cbn. rewrite Ht, Htp. rewrite Ht, Htp in Hc'.
    by rewrite list_lookup_alter_eq, Hc'. }
  exists x. split_and!; try done; cbn.
  - unfold cur_is. by rewrite Hcur.
  - destruct (hw_acq_held _ _ Hf) as [n Hn]. exists n. done.
  - unfold depth in *. rewrite Hcur, Hc in *. cbn. lia.
Qed.

(** a process that is not runnable is skipped *)
Lemma wp_run_proc_skip id p x e s (Q : unit -> list (kstate -> kstate) -> kstate -> Prop) :
  in_scheduler id (k_hw s) -> (p < NPROC)%nat ->
  ps_proc (k_ps s) !! p = Some x -> p_state x <> RUNNABLE ->
  Q tt e (set_k_hw (hw_crit (k_hw s)) s) -> wp (run_proc id p) e s Q.
Proof.
  intros (Htp & Hok & Hd & Hl) Hlt Hp Hst HQ. unfold run_proc.
  wp_step. apply wp_acquire; [done | by apply Hl |].
  wp_step. eapply wp_pget; [done|]. rewrite bool_decide_eq_false_2 by done. wp_steps. cbn [when].
  apply wp_ret. eapply (wp_release_acq _ (k_hw s) 1); [lia | done | by apply Hl | done |]. done.
Qed.

(** *** Runnable processes *)
Definition runnable (ps : procs) (i : nat) : Prop :=
  exists p, ps_proc ps !! i = Some p /\ p_state p = RUNNABLE.
#[export] Instance runnable_dec ps i : Decision (runnable ps i).
Proof.
  unfold runnable. destruct (ps_proc ps !! i) as [p|]; [|right; by intros (? & ? & _)].
  destruct (decide (p_state p = RUNNABLE)); [left; eauto | right; by intros (? & [= <-] & ?)].
Defined.

(** *** RR: bounded waiting *)

(** [p] has been dispatched on this hart *)
Definition running_hw (id p : nat) (h : hwstate) : Prop :=
  h_tp h = id /\ lock_held h (LProc p) /\ sie h = false /\
  (exists c, cur_cpu h = Some c /\ c_noff c = 1) /\ proc_locks_free h (Some p).

(** [p] gives the processor back: it holds its own lock only, and no process
    but [p] has stopped being runnable meanwhile *)
Definition handed_back (id p : nat) (s s' : kstate) : Prop :=
  running_hw id p (k_hw s') /\ length (ps_proc (k_ps s')) = NPROC /\
  forall j, j <> p -> runnable (k_ps s) j -> runnable (k_ps s') j.
Definition cooperative (id : nat) (f : kstate -> kstate) : Prop :=
  forall p s, (p < NPROC)%nat -> length (ps_proc (k_ps s)) = NPROC ->
    running_hw id p (k_hw s) -> cur_is (k_hw s) p -> handed_back id p s (f s).

Lemma hw_rel_scheduler id p h : (p < NPROC)%nat ->
  running_hw id p h -> in_scheduler id (hw_rel (LProc p) h).
Proof.
  intros Hp (Htp & (n & Hn) & Hs & (c & Hc & Hc1) & Hl).
  destruct (hw_rel_fields (LProc p) h c n Hn Hc) as (H1 & H2 & H3 & _). rewrite Hc1 in H3.
  split_and!; [congruence | | by unfold depth; rewrite H3 |].
  - exists (set_c_noff 0 c). split_and!; [done | cbn; lia | cbn; lia | cbn; lia].
  - intros i Hi _. unfold lock_free. rewrite H2. destruct (decide (i = p)) as [->|Hne].
    + exists n. apply lookup_insert_eq.
    + rewrite lookup_insert_ne by congruence. apply Hl; congruence.
Qed.

Lemma running_acq id p (s : kstate) (q : option nat) :
  in_scheduler id (k_hw s) -> (p < NPROC)%nat ->
  running_hw id p (set_h_cpus (alter (set_c_proc q) id (h_cpus (hw_acq (LProc p) (k_hw s))))
    (hw_acq (LProc p) (k_hw s))).
Proof.
  intros (Htp & Hok & Hd & Hl) Hp. assert (lock_free (k_hw s) (LProc p)) as Hf by (by apply Hl).
  destruct (hw_acq_cpu _ _ _ Hok Hf) as (c & Hc & Hc' & Hsie & _).
  destruct (hw_acq_fields (LProc p) (k_hw s)) as (Ht & _).
  split_and!; cbn; [congruence | | done | |].
  - destruct (hw_acq_held _ _ Hf) as [n Hn]. exists n. done.
  - exists (set_c_proc q (cpu_push (sie (k_hw s)) c)). split.
    + unfold cur_cpu in *. cbn. rewrite Ht, Htp. rewrite Ht, Htp in Hc'.
      by rewrite list_lookup_alter_eq, Hc'.
    + cbn. unfold depth in Hd. rewrite Hc in Hd. lia.
  - intros i Hi Hne. destruct (Hl i Hi) as [n Hn]; [done|]. exists n. cbn.
    rewrite hw_acq_other; [done | done | congruence].
Qed.

(** one dispatch during which the process gives the processor back *)
Lemma run_proc_back id p x f s :
  in_scheduler id (k_hw s) -> (p < NPROC)%nat -> length (ps_proc (k_ps s)) = NPROC ->
  ps_proc (k_ps s) !! p = Some x -> p_state x = RUNNABLE -> cooperative id f ->
  exists s', in_scheduler id (k_hw s') /\ length (ps_proc (k_ps s')) = NPROC /\
     (forall j, j <> p -> runnable (k_ps s) j -> runnable (k_ps s') j) /\
     forall e (Q : unit -> list (kstate -> kstate) -> kstate -> Prop),
       Q tt e s' -> wp (run_proc id p) (f :: e) s Q.
Proof.
  intros Hin Hlt Hlen Hp Hst Hf. pose proof Hin as (Htp & Hok & Hd & Hl).
  set (h1 := hw_acq (LProc p) (k_hw s)).
  set (s1 := set_k_hw (set_h_cpus (alter (set_c_proc (Some p)) id (h_cpus h1)) h1)
    (set_k_ps (upd_slot p (set_p_state RUNNING x) (k_ps s)) s)).
  destruct (Hf p s1) as (Hrun & Hlen' & Hrest); [done | by subst s1; cbn; rewrite length_insert | by apply running_acq | |].
  { destruct (hw_acq_cpu _ _ _ Hok (Hl p Hlt ltac:(done))) as (c & _ & Hc & _).
    destruct (hw_acq_fields (LProc p) (k_hw s)) as (Ht & _). subst h1 s1.
    unfold cur_is, cur_cpu in *. cbn. rewrite Ht, Htp in *. by rewrite list_lookup_alter_eq, Hc. }
  pose proof Hrun as (Htp1 & Hheld & Hsie & (c & Hc & Hc1) & Hl1).
  set (h2 := set_h_cpus (alter (set_c_proc None) id (h_cpus (k_hw (f s1)))) (k_hw (f s1))).
  assert (running_hw id p h2) as Hrun'.
  { split_and!; try done. exists (set_c_proc None c). unfold cur_cpu in *. cbn.
    rewrite Htp1 in *. by rewrite list_lookup_alter_eq, Hc. }
  exists (set_k_hw (hw_rel (LProc p) h2) (f s1)).
  split_and!; [by apply hw_rel_scheduler | done | |].
  - intros j Hne (y & Hy & Hys). apply Hrest; [done|]. exists y. split; [|done]. cbn.
    by rewrite list_lookup_insert_ne.
  - intros e Q HQ. unfold run_proc. wp_step. apply wp_acquire; [done | by apply Hl |].
    wp_step. eapply wp_pget; [done|]. rewrite bool_decide_eq_true_2 by done. cbn [when].
    wp_step. wp_step. eapply wp_pupd; [done|]. wp_step. unfold set_cpu_proc, modify_hw. wp_step.
    wp_step. apply wp_interfere. wp_step. fold h1.
    pose proof Hrun' as (_ & Hheld' & Hsie' & (c' & Hc' & Hc1') & _).
    eapply (wp_release _ _ _ c'); [done | lia | done | done |]. exact HQ.
Qed.

Lemma rr_from id i e s k : Forall (cooperative id) e -> (i - k <= length e)%nat ->
  in_scheduler id (k_hw s) -> length (ps_proc (k_ps s)) = NPROC ->
  runnable (k_ps s) i -> (k <= i)%nat -> (i < NPROC)%nat ->
  exists n, (n <= i - k)%nat /\
    hands (mforall (seq k (NPROC - k)) (run_proc id)) (take n e) s
      (fun s' => exists s1, dispatched id i s1 s').
Proof.
  intros He. remember (i - k)%nat as d eqn:Hd. revert k e s He Hd.
  induction d as [|d IH]; intros k e s He Hd Hlen Hin Hnp Hrun Hki Hi;
    replace (NPROC - k)%nat with (S (NPROC - S k)) by lia; cbn [seq mforall].
  - replace i with k in * by lia. destruct Hrun as (x & Hx & Hst). exists 0%nat. split; [lia|].
    rewrite take_0. apply hands_bind_l. pose proof (hands_run_proc id k x s Hin Hi Hx Hst) as H.
    unfold hands in *. destruct (run_proc id k [] s); try done. by exists s.
  - destruct (lookup_lt_is_Some_2 (ps_proc (k_ps s)) k) as [x Hx]; [lia|].
    destruct (decide (p_state x = RUNNABLE)) as [Hst|Hst].
    + destruct e as [|f e]; [cbn in Hlen; lia|]. apply Forall_cons in He as [Hf He].
      destruct (run_proc_back id k x f s) as (s1 & Hin1 & Hnp1 & Hrun1 & Hwp); try done; [lia|].
      destruct (IH (S k) e s1) as (n & Hn & Hh); try done; cbn in *; try lia.
      { apply Hrun1; [lia | done]. }
      exists (S n). split; [lia|]. cbn [take]. apply hands_bind. by apply Hwp.
    + destruct (IH (S k) e (set_k_hw (hw_crit (k_hw s)) s)) as (n & Hn & Hh); try done; try lia.
      { eapply in_scheduler_eqv; [|done]. cbn. by rewrite hw_crit_eqv. }
      exists n. split; [lia|]. apply hands_bind. by eapply wp_run_proc_skip; try done; lia.
Qed.

Lemma in_scheduler_on id h : in_scheduler id h ->
  in_scheduler id (set_h_sstatus (Z.lor (h_sstatus h) SSTATUS_SIE) h).
Proof.
  intros (Htp & (c & Hc & Hn & Hs) & Hd & Hl). split_and!; try done.
  exists c. split_and!; try done; try lia. unfold depth, cur_cpu in Hd. rewrite Hc in Hd. lia.
Qed.

(** C6: Bounded waiting under round robin.  If process [i] is runnable when a
    scheduling round starts, and every process that is dispatched eventually
    gives the processor back without making other processes unrunnable, then
    [i] is dispatched in that round after at most [i] other processes. *)
Theorem rr_bounded_waiting id i e s :
  Forall (cooperative id) e -> (NPROC <= length e)%nat ->
  in_scheduler id (k_hw s) -> length (ps_proc (k_ps s)) = NPROC ->
  runnable (k_ps s) i ->
  exists n, (n <= i)%nat /\
    hands (scheduler_round RR id) (take n e) s (fun s' => exists s1, dispatched id i s1 s').
Proof.
  intros He Hlen Hin Hnp Hrun. assert (i < NPROC)%nat as Hi.
  { destruct Hrun as (x & Hx & _). rewrite <- Hnp. by eapply lookup_lt_Some. }
  destruct (rr_from id i e (set_k_hw (set_h_sstatus (Z.lor (h_sstatus (k_hw s)) SSTATUS_SIE) (k_hw s)) s) 0)
    as (n & Hn & Hh); try done; try lia; [by apply in_scheduler_on|].
  exists n. split; [lia|]. unfold scheduler_round. apply hands_bind. exact Hh.
Qed.

(** a process that runs and yields at once *)
Definition yields (s : kstate) : kstate :=
  match cur_cpu (k_hw s) with
  | Some c => match c_proc c with
              | Some p => set_k_ps (set_ps_proc (alter (set_p_state RUNNABLE) p (ps_proc (k_ps s))) (k_ps s)) s
              | None => s
              end
  | None => s
  end.
Lemma yields_cooperative : cooperative 0 yields.
Proof.
  intros p s Hp Hlen Hrun Hcur. unfold yields. unfold cur_is in Hcur.
  destruct (cur_cpu (k_hw s)) as [c|]; [|done]. injection Hcur as ->.
  split_and!; [done | cbn; by rewrite length_alter |].
  intros j Hne (x & Hx & Hst). exists x. split; [|done]. cbn. by rewrite list_lookup_alter_ne.
Qed.
Lemma sched_demo_hw : in_scheduler 0 (k_hw sched_demo).
Proof. split_and!; [done | by apply boot_hart | done | exact (boot_proc_locks None)]. Qed.

Lemma rr_bounded_waiting_witness : exists n, (n <= 3)%nat /\
  hands (scheduler_round RR 0) (take n (replicate 64 yields)) sched_demo
    (fun s' => exists s1, dispatched 0 3 s1 s').
Proof.
  apply (rr_bounded_waiting 0 3).
  - apply Forall_replicate, yields_cooperative.
  - done.
  - apply sched_demo_hw.
  - done.
  - eexists. split; reflexivity.
Defined.

(** *** MLFQ *)

(** [i] is the choice of the feedback queues: runnable, the first runnable
    process of its queue, and no runnable process has a smaller queue number *)
Definition mlfq_choice (ps : procs) (ls : list (list nat)) (i : nat) : Prop :=
  exists p q l1 l2, ps_proc ps !! i = Some p /\ p_state p = RUNNABLE /\
    p_queue_number p = Z.of_nat q /\ ls !! q = Some (l1 ++ i :: l2) /\
    (forall j, j ∈ l1 -> ~ runnable ps j) /\
    (forall j x, ps_proc ps !! j = Some x -> p_state x = RUNNABLE ->
       p_queue_number p <= p_queue_number x).

Section mlfq_pick.
Context (ps : procs) (ls : list (list nat)) (Hinv : sched_inv ps ls).
Context (e : list (procs -> procs)).

Lemma runnable_queued j x : ps_proc ps !! j = Some x -> p_state x = RUNNABLE ->
  exists (q : nat) l, p_queue_number x = q /\ ls !! q = Some l /\ j ∈ l.
Proof using Hinv.
  destruct Hinv as [Hok Hin]. intros Hx Hst.
  destruct (queue_lookup _ _ _ _ Hok Hx) as (q & l & Hq & Hl). exists q, l. split_and!; try done.
  apply (Hin j x Hx q l Hl). unfold home. rewrite Hst. cbn. by rewrite Hq, Nat2Z.id.
Qed.

(** scanning one level *)
Lemma wp_mlfq_level (q : nat) l (Q : option nat -> list (procs -> procs) -> procs -> Prop) :
  ls !! q = Some l ->
  (forall l1 i l2, l = l1 ++ i :: l2 -> runnable ps i -> (forall j, j ∈ l1 -> ~ runnable ps j) ->
     Q (Some i) e ps) ->
  ((forall j, j ∈ l -> ~ runnable ps j) -> Q None e ps) ->
  wp (n <- sizeofq_at (Z.of_nat q);;
      mfor (seq 0 (Z.to_nat n)) (fun j =>
        x <- multique_at (Z.of_nat q) (Z.of_nat j);;
        match x with
        | Some i => p <- proc_at i;;
                    ret (if bool_decide (p_state p = RUNNABLE) then Some i else None)
        | None => fault "null pointer"
        end)) e ps Q.
Proof using Hinv.
  intros Hl Hsome Hnone. destruct Hinv as [Hok _].
  pose proof (qo_queue _ _ Hok q l Hl) as Hq. pose proof Hq as (Hrow & Hsz & Hlen & _).
  wp_step. eapply wp_sizeofq_at; [done|]. rewrite Nat2Z.id.
  eapply (wp_mfor _ (fun rest e' ps' => e' = e /\ ps' = ps /\ exists k,
    rest = seq k (length l - k) /\ (k <= length l)%nat /\ forall j, j ∈ take k l -> ~ runnable ps j)).
  - split_and!; [done..|]. exists 0%nat. rewrite Nat.sub_0_r, take_0.
    split_and!; [done | lia | set_solver].
  - intros x rest e' ps' (-> & -> & k & Hrest & Hk & Hno).
    destruct (length l - k)%nat as [|m] eqn:Em; cbn in Hrest; [done|]. injection Hrest as -> ->.
    destruct (lookup_lt_is_Some_2 l k ltac:(lia)) as [i Hi].
    destruct (queue_is_proc _ _ _ _ _ Hq Hi) as [y Hy].
    wp_step. eapply wp_multique_at; [done | by apply row_of_lookup |]. cbn.
    wp_step. eapply wp_proc_at; [done|]. wp_step. case_bool_decide as Hst.
    + eapply (Hsome (take k l) i (drop (S k) l)); [by rewrite take_drop_middle | by exists y | done].
    + split_and!; [done..|]. exists (S k). split_and!; [f_equal; lia | lia |].
      erewrite take_S_r by done. intros j [Hj|Hj%list_elem_of_singleton]%elem_of_app; [by apply Hno|].
      subst j. intros (z & Hz & Hzs). congruence.
  - intros e' ps' (-> & -> & k & Hrest & Hk & Hno).
    assert (k = length l) as -> by (destruct (length l - k)%nat eqn:E; [lia | done]).
    rewrite firstn_all in Hno. by apply Hnone.
Qed.

Lemma wp_mlfq_pick (Q : option nat -> list (procs -> procs) -> procs -> Prop) :
  (forall i, mlfq_choice ps ls i -> Q (Some i) e ps) ->
  ((forall i, ~ runnable ps i) -> Q None e ps) ->
  wp mlfq_pick e ps Q.
Proof using Hinv.
  intros Hsome Hnone. pose proof Hinv as [Hok _]. pose proof (qo_four _ _ Hok) as H4.
  unfold mlfq_pick.
  eapply (wp_mfor _ (fun rest e' ps' => e' = e /\ ps' = ps /\ exists k,
    rest = seq k (4 - k) /\ (k <= 4)%nat /\
    forall j x, ps_proc ps !! j = Some x -> p_state x = RUNNABLE -> k <= p_queue_number x)).
  - split_and!; [done..|]. exists 0%nat. split_and!; [done | lia |].
    intros j x Hx _. pose proof (qo_range _ _ Hok j x Hx). lia.
  - intros level rest e' ps' (-> & -> & k & Hrest & Hk & Hno).
    destruct (4 - k)%nat as [|m] eqn:Em; cbn in Hrest; [done|]. injection Hrest as -> ->.
    destruct (lookup_lt_is_Some_2 ls k ltac:(lia)) as [l Hl].
    apply (wp_mlfq_level k l); [done | |].
    + intros l1 i l2 -> (p & Hp & Hst) Hl1. apply Hsome.
      destruct Hinv as [_ Hin].
      assert (home p = Some k) as Hh by (apply (Hin i p Hp k _ Hl); set_solver).
      unfold home in Hh. rewrite Hst in Hh. injection Hh as Hh.
      pose proof (qo_range _ _ Hok i p Hp).
      assert (p_queue_number p = k) as Hq by lia.
      exists p, k, l1, l2. split_and!; try done. rewrite Hq. done.
    + intros Hl0. split_and!; [done..|]. exists (S k). split_and!; [f_equal; lia | lia |].
      intros j x Hx Hst. destruct (runnable_queued j x Hx Hst) as (q & l' & Hq & Hl' & Hj).
      destruct (decide (q = k)) as [->|Hne].
      * simplify_eq. exfalso. apply (Hl0 j Hj). by exists x.
      * pose proof (Hno j x Hx Hst). lia.
  - intros e' ps' (-> & -> & k & Hrest & Hk & Hno).
    assert (k = 4)%nat as -> by (destruct (4 - k)%nat eqn:E; [lia | done]).
    apply Hnone. intros i (p & Hp & Hst). pose proof (Hno i p Hp Hst).
    pose proof (qo_range _ _ Hok i p Hp). lia.
Qed.
End mlfq_pick.

(** the re-enqueueing pass finds every runnable process in its queue already *)
Lemma upd_slot_id i p ps : ps_proc ps !! i = Some p -> upd_slot i p ps = ps.
Proof. intros Hp. unfold upd_slot. rewrite list_insert_id by done. by destruct ps. Qed.

Lemma wp_mlfq_requeue id ls e s (Q : unit -> list (kstate -> kstate) -> kstate -> Prop) :
  in_scheduler id (k_hw s) -> sched_inv (k_ps s) ls ->
  (forall s', in_scheduler id (k_hw s') -> k_ps s' = k_ps s -> only_ps s s' -> Q tt e s') ->
  wp mlfq_requeue e s Q.
Proof.
  intros Hin Hinv HQ. pose proof Hinv as [Hok _].
  apply (wp_seq _ (fun _ s' => in_scheduler id (k_hw s') /\ k_ps s' = k_ps s /\ only_ps s s')).
  - done.
  - intros k s' Hk (Hin' & Hps & Ho). pose proof Hin' as (_ & Hok' & _ & Hl).
    destruct (lookup_lt_is_Some_2 (ps_proc (k_ps s')) k) as [p Hp];
      [rewrite Hps, (qo_nproc _ _ Hok); done|].
    assert (forall s1, s1 = set_k_hw (hw_crit (k_hw s')) s' ->
      in_scheduler id (k_hw s1) /\ k_ps s1 = k_ps s /\ only_ps s s1) as Hdone.
    { intros s1 ->. split_and!; [| done |].
      - eapply in_scheduler_eqv; [|done]. cbn. by rewrite hw_crit_eqv.
      - etrans; [done|]. split_and!; try done. cbn. by rewrite hw_crit_eqv. }
    wp_step. apply wp_acquire; [done | by apply Hl |]. wp_step. eapply wp_pget; [done|].
    wp_step. apply wp_when; intros Hst.
    + apply bool_decide_eq_true_1 in Hst. rewrite Hps in Hp.
      destruct (queue_lookup _ _ _ _ Hok Hp) as (q & l & Hq & Hl').
      wp_step. eapply wp_pget; [cbn; by rewrite Hps|]. wp_step. eapply wp_pget; [cbn; by rewrite Hps|].
      rewrite Hq. wp_step. apply wp_lift_ps. cbn.
      eapply (wp_enqueue_present k _ ls p q l); [by rewrite Hps | done | |].
      * rewrite Hps. replace (Some q) with (home p); [by apply moving_intro|].
        unfold home. rewrite Hst. cbn. by rewrite Hq, Nat2Z.id.
      * eapply wp_pupd; [cbn; by rewrite Hps|]. cbn.
        replace (set_p_queueticks (p_queueticks p) p) with p by (by destruct p).
        rewrite (upd_slot_id k p) by (by rewrite Hps).
        eapply (wp_release_acq _ (k_hw s') 1); [lia | done | by apply Hl | done |].
        split; [done|]. apply Hdone. by destruct s'.
    + eapply (wp_release_acq _ (k_hw s') 1); [lia | done | by apply Hl | done |].
      split; [done|]. by apply Hdone.
  - intros s' (? & ? & ?). by apply HQ.
Qed.

(** C3: Under the feedback queues a scheduling round dispatches a process
    whenever one is runnable, and the one it dispatches is the first runnable
    process of the best (lowest-numbered) queue that has one. *)
Theorem mlfq_round_choice id ls s :
  in_scheduler id (k_hw s) -> sched_inv (k_ps s) ls -> (exists i, runnable (k_ps s) i) ->
  hands (scheduler_round MLFQ id) [] s (fun s' =>
    exists i, mlfq_choice (k_ps s) ls i /\ dispatched id i s s').
Proof.
  intros Hin Hinv [i0 Hi0]. unfold scheduler_round. apply hands_bind.
  unfold intr_on, r_sstatus, w_sstatus, modify_hw. wp_steps. cbn.
  apply hands_bind. eapply wp_mlfq_requeue; [by apply in_scheduler_on | done |].
  intros s1 Hin1 Hps (_ & Hmm & Hio & Hfs). cbn in *. apply hands_bind, wp_lift_ps.
  apply (wp_mlfq_pick _ ls); [by rewrite Hps | | rewrite Hps; intros Hno; by destruct (Hno i0)].
  rewrite Hps. intros i Hc. pose proof Hc as (p & q & l1 & l2 & Hp & Hst & _).
  assert (i < NPROC)%nat as Hlt.
  { rewrite <- (qo_nproc _ _ (proj1 Hinv)). by eapply lookup_lt_Some. }
  pose proof (hands_run_proc id i p (set_k_ps (k_ps s) s1) Hin1 Hlt Hp Hst) as Hr.
  unfold hands in *. destruct (run_proc _ _ _ _); try done. exists i. split; [done|].
  destruct Hr as (x & Hx & Hxs & Hk & Hr). exists x. cbn in *. by rewrite <- Hmm, <- Hio, <- Hfs.
Qed.

Lemma mlfq_round_choice_witness :
  hands (scheduler_round MLFQ 0) [] sched_demo (fun s' =>
    exists i, mlfq_choice (k_ps sched_demo) demo_queues i /\ dispatched 0 i sched_demo s').
Proof.
  apply mlfq_round_choice; [apply sched_demo_hw | apply sched_demo_inv |].
  exists 1%nat. eexists. split; reflexivity.
Defined.

(** *** LBS *)

(** the next value of the generator *)
Definition next_seed (seed : Z) : Z := (LCG_A * seed + LCG_C) mod 2 ^ 32.

Lemma land_LCG_M z : Z.land (u64 z) LCG_M = z mod 2 ^ 32.
Proof.
  change LCG_M with (Z.ones 32). rewrite Z.land_ones by lia. unfold u64.
  apply Z.mod_mod_divide. by exists (2 ^ 32).
Qed.

Lemma wp_rand_at_max total e ps (Q : Z -> list (procs -> procs) -> procs -> Prop) :
  0 <= total < 2 ^ 31 - 1 ->
  (let r := next_seed (ps_seed ps) mod (total + 1) in
   Q r e (set_ps_seed (next_seed (ps_seed ps)) ps)) ->
  wp (rand_at_max total) e ps Q.
Proof.
  intros Ht HQ. unfold rand_at_max, rand. wp_steps. cbn. rewrite !land_LCG_M.
  fold (next_seed (ps_seed ps)). rewrite (u32_small (total + 1)) by lia.
  rewrite u32_small by (apply Z.mod_pos_bound; lia).
  replace (total + 1 =? 0) with false by lia. wp_step.
  rewrite s32_small; [done|].
  pose proof (Z.mod_pos_bound (next_seed (ps_seed ps)) (total + 1) ltac:(lia)). lia.
Qed.

(** [w] wins the lottery with the draw [r]: some process owns the value [r+1],
    and [w] is the earliest runnable process with as many tickets *)
Definition lbs_wins (t : list proc) (r : Z) (w : nat) : Prop :=
  exists i p, t !! i = Some p /\ owns t (r + 1) i /\ earliest t (p_tickets p) NPROC w.

Lemma wp_lbs_pick e ps (Q : option nat -> list (procs -> procs) -> procs -> Prop) :
  let t := ps_proc ps in let total := psum t NPROC in
  let r := next_seed (ps_seed ps) mod (total + 1) in
  let ps' := set_ps_seed (next_seed (ps_seed ps)) ps in
  tickets_ok t ->
  (r < total -> forall w, lbs_wins t r w -> Q (Some w) e ps') ->
  (r = total -> Q None e ps') ->
  wp (lbs_pick total) e ps Q.
Proof.
  intros t total r ps' Ht Hsome Hnone.
  pose proof (psum_range t NPROC Ht ltac:(lia)) as Hr.
  pose proof (Z.mod_pos_bound (next_seed (ps_seed ps)) (total + 1) ltac:(lia)) as Hm.
  fold r in Hm. unfold lbs_pick. wp_step. apply wp_rand_at_max; [done|].
  change (next_seed (ps_seed ps) mod (total + 1)) with r. cbv zeta. fold ps'.
  rewrite s32_small by lia. wp_step.
  apply wp_lottery_winner; [done | lia | |].
  - intros i Hown. cbn in Hown. pose proof Hown as (p & Hp & Hst & Hv).
    assert (i < NPROC)%nat as Hi by (destruct Ht as [<- _]; by eapply lookup_lt_Some).
    pose proof (psum_mono t (S i) NPROC Ht ltac:(lia) ltac:(lia)).
    wp_step. eapply (wp_earliest_winner i p); try done; [apply Ht|].
    intros w Hw. wp_step. apply Hsome; [subst t total; lia|]. exists i, p. done.
  - cbn. intros Hgt. wp_step. apply Hnone. fold t in Hgt. fold total in Hgt. lia.
Qed.

(** the tickets counted under the locks are those of the table *)
Lemma wp_total_tickets id e s (Q : Z -> list (kstate -> kstate) -> kstate -> Prop) :
  in_scheduler id (k_hw s) -> tickets_ok (ps_proc (k_ps s)) ->
  (forall s', in_scheduler id (k_hw s') -> k_ps s' = k_ps s -> only_ps s s' ->
     Q (psum (ps_proc (k_ps s)) NPROC) e s') ->
  wp total_tickets e s Q.
Proof.
  intros Hin Ht HQ. unfold total_tickets. wp_step.
  apply (wp_seq_fold _ (fun k acc s' => acc = psum (ps_proc (k_ps s)) k /\
    in_scheduler id (k_hw s') /\ k_ps s' = k_ps s /\ only_ps s s')).
  - split_and!; done.
  - intros k acc s' Hk (-> & Hin' & Hps & Ho). pose proof Hin' as (_ & Hok' & _ & Hl).
    destruct (lookup_lt_is_Some_2 (ps_proc (k_ps s')) k) as [p Hp];
      [rewrite Hps; by destruct Ht as [-> _]|].
    wp_step. apply wp_acquire; [done | by apply Hl |]. wp_step. eapply wp_pget; [done|].
    wp_step. eapply wp_pget; [done|]. wp_step.
    eapply (wp_release_acq _ (k_hw s') 1); [lia | done | by apply Hl | done |].
    wp_step. split; [done|]. eexists. split; [done|]. rewrite Hps in Hp.
    pose proof (psum_S _ _ _ Hp) as HS. pose proof (psum_range _ (S k) Ht ltac:(lia)) as HR.
    split_and!; [| | done |].
    + rewrite HS. unfold tix in *. case_bool_decide; [rewrite s32_small by lia|]; lia.
    + eapply in_scheduler_eqv; [|done]. cbn. by rewrite hw_crit_eqv.
    + etrans; [done|]. split_and!; try done. cbn. by rewrite hw_crit_eqv.
  - intros acc s' (-> & ? & ? & ?). wp_step. by apply HQ.
Qed.

(** C7: A lottery round draws [r] in [0..total] and dispatches, when
    [r < total], the earliest-arrived runnable process among those with as
    many tickets as the owner of ticket [r + 1]; when [r = total] the round
    ends without dispatching anybody. *)
Theorem lbs_round_choice id s :
  let t := ps_proc (k_ps s) in let total := psum t NPROC in
  let seed := next_seed (ps_seed (k_ps s)) in
  let r := seed mod (total + 1) in
  in_scheduler id (k_hw s) -> tickets_ok t -> 0 < total ->
  (r < total /\ hands (scheduler_round LBS id) [] s (fun s' => exists w s1,
     lbs_wins t r w /\ k_ps s1 = set_ps_seed seed (k_ps s) /\ dispatched id w s1 s')) \/
  (r = total /\ wp (scheduler_round LBS id) [] s (fun _ _ s' =>
     k_ps s' = set_ps_seed seed (k_ps s))).
Proof.
  intros t total seed r Hin Ht Hpos.
  pose proof (Z.mod_pos_bound seed (total + 1) ltac:(lia)) as Hm. fold r in Hm.
  pose proof (in_scheduler_on _ _ Hin) as Hin0.
  destruct (decide (r = total)) as [Hr|Hr]; [right|left]; (split; [lia|]); unfold scheduler_round.
  - wp_step. unfold intr_on, r_sstatus, w_sstatus, modify_hw. wp_steps. cbn.
    unfold lbs_round. wp_step. eapply wp_total_tickets; [done..|].
    intros s1 Hin1 Hps _. cbn in *. fold t total. replace (0 <? total) with true by lia. cbn [when].
    wp_step. apply wp_lift_ps. rewrite Hps. apply wp_lbs_pick; [done | |]; fold t total seed r.
    + intros; lia.
    + intros _. wp_step. done.
  - apply hands_bind. unfold intr_on, r_sstatus, w_sstatus, modify_hw. wp_steps. cbn.
    unfold lbs_round. apply hands_bind. eapply wp_total_tickets; [done..|].
    intros s1 Hin1 Hps _. cbn in *. fold t total. replace (0 <? total) with true by lia. cbn [when].
    apply hands_bind, wp_lift_ps. rewrite Hps. apply wp_lbs_pick; [done | |]; fold t total seed r.
    + intros _ w Hw. pose proof Hw as (i & p & Hi & _ & x & Hx & Hxs & _).
      assert (w < NPROC)%nat as Hlt by (destruct Ht as [<- _]; by eapply lookup_lt_Some).
      pose proof (hands_run_proc id w x (set_k_ps (set_ps_seed seed (k_ps s)) s1) Hin1 Hlt Hx Hxs) as Hh.
      unfold hands in *. destruct (run_proc _ _ _ _); try done. by exists w, (set_k_ps (set_ps_seed seed (k_ps s)) s1).
    + intros; lia.
Qed.

Lemma tickets_okb t : length t = NPROC ->
  forallb (fun p => 0 <=? p_tickets p) t = true -> (psum t NPROC <? 2 ^ 31 - 1) = true -> tickets_ok t.
Proof.
  intros Hn Hf Hs. split_and!; [done | | lia]. intros i p Hp _. rewrite forallb_forall in Hf.
  specialize (Hf p). apply Z.leb_le, Hf. rewrite <- list_elem_of_In. by eapply list_elem_of_lookup_2.
Qed.
Lemma sched_demo_tickets : tickets_ok (ps_proc (k_ps sched_demo)).
Proof. apply tickets_okb; vm_compute; reflexivity. Qed.

Lemma lbs_round_choice_witness :
  let r := next_seed 123456789 mod 4 in
  (r < 3 /\ hands (scheduler_round LBS 0) [] sched_demo (fun s' => exists w s1,
     lbs_wins (ps_proc (k_ps sched_demo)) r w /\
     k_ps s1 = set_ps_seed (next_seed 123456789) (k_ps sched_demo) /\ dispatched 0 w s1 s')) \/
  (r = 3 /\ wp (scheduler_round LBS 0) [] sched_demo (fun _ _ s' =>
     k_ps s' = set_ps_seed (next_seed 123456789) (k_ps sched_demo))).
Proof.
  apply (lbs_round_choice 0 sched_demo); [apply sched_demo_hw | apply sched_demo_tickets | vm_compute; done].
Defined.

(** With a single ticket in the lottery every second draw picks nobody: of
    any two consecutive draws exactly one finds a winner. *)
Lemma lbs_single_ticket_wasted ps e :
  tickets_ok (ps_proc ps) -> psum (ps_proc ps) NPROC = 1 ->
  exists w1 ps1 w2 ps2, lbs_pick 1 e ps = Ret w1 e ps1 /\ lbs_pick 1 e ps1 = Ret w2 e ps2 /\
    (w1 = None <-> exists w, w2 = Some w).
Proof.
  intros Ht H1.
  assert (forall ps', ps_proc ps' = ps_proc ps ->
    wp (lbs_pick 1) e ps' (fun w e' ps'' => e' = e /\ ps'' = set_ps_seed (next_seed (ps_seed ps')) ps' /\
      (w = None <-> next_seed (ps_seed ps') mod 2 = 1))) as Hp.
  { intros ps' Heq. pose proof (wp_lbs_pick e ps') as H. cbv zeta in H. rewrite Heq, H1 in H.
    change (1 + 1) with 2 in H. apply H; [done | |].
    - intros Hlt w _. split_and!; try done. split; [done | lia].
    - intros Hr. done. }
  destruct (wp_elim _ _ _ _ (Hp ps eq_refl)) as (w1 & e1 & ps1 & E1 & -> & -> & Hw1).
  destruct (wp_elim _ _ _ _ (Hp _ (eq_refl : ps_proc (set_ps_seed (next_seed (ps_seed ps)) ps) = _)))
    as (w2 & e2 & ps2 & E2 & -> & -> & Hw2).
  eexists w1, _, w2, _. split_and!; [exact E1 | exact E2 |].
  assert (next_seed (next_seed (ps_seed ps)) mod 2 = (next_seed (ps_seed ps) + 1) mod 2) as Hpar.
  { unfold next_seed at 1. set (x := next_seed (ps_seed ps)).
    rewrite Z.mod_mod_divide by (by exists (2 ^ 31)).
    unfold LCG_A, LCG_C.
    replace (1664525 * x + 1013904223) with (x + 1 + (832262 * x + 506952111) * 2) by lia.
    apply Z_mod_plus_full. }
  cbn in Hw2. rewrite Hpar in Hw2. rewrite Hw1.
  pose proof (Z.mod_pos_bound (next_seed (ps_seed ps)) 2 ltac:(lia)).
  destruct w2 as [w2|].
  - split; [by exists w2|]. intros _. destruct Hw2 as [_ Hw2].
    assert (next_seed (ps_seed ps) mod 2 <> 0); [|lia]. intros H0.
    assert ((next_seed (ps_seed ps) + 1) mod 2 = 1) by (rewrite Z.add_mod, H0 by lia; done).
    by specialize (Hw2 ltac:(done)).
  - destruct Hw2 as [Hw2 _]. specialize (Hw2 eq_refl). split; [|by intros [? ?]].
    intros Ho. rewrite Z.add_mod, Ho in Hw2 by lia. done.
Qed.

(** one runnable process with one ticket *)
Definition one_ticket : procs :=
  set_ps_proc (demo_proc 0 RUNNABLE CNull 1 0 None :: (proc0 <$> seq 1 63)) ps0.
Lemma lbs_single_ticket_wasted_witness :
  exists w1 ps1 w2 ps2, lbs_pick 1 [] one_ticket = Ret w1 [] ps1 /\
    lbs_pick 1 [] ps1 = Ret w2 [] ps2 /\ (w1 = None <-> exists w, w2 = Some w).
Proof.
  apply lbs_single_ticket_wasted; [apply tickets_okb; vm_compute; reflexivity | vm_compute; reflexivity].
Defined.
