(* ===== verification/Mlfq.v ===== *)
(** The part of [usertrap] (trap.c) that maintains the multi-level feedback
    queues on a timer interrupt: the priority boost and the demotion of a
    process that used up the time slice of its queue.

    The theorems say what each does to the queues as lists: a demoted process
    goes to the end of the next queue; a boost moves the processes at the even
    positions of queues 1 to 3 to queue 0 and leaves the others where they
    were. *)
From S2P Require Import Prelude State Spinlock Queue Boot Proc.

(** [for (int j = 0; j < sizeofq[level]; j++)] of the priority boost: every
    iteration either shortens the queue or moves on, so the size bounds it *)
Definition boost_level (level : nat) : P unit :=
  n <- sizeofq_at level;;
  mloop (S (Z.to_nat n)) 0 (fun j =>
    n <- sizeofq_at level;;
    if n <=? j then ret (inr tt) else
    x <- multique_at level j;;
    match x with
    | None => fault "null pointer"
    | Some temp =>
        t <- proc_at temp;;
        dequeue temp (p_queue_number t);;
        enqueue temp 0;;
        ret (inl (j + 1))
    end).
Definition boost : P unit := mforall [1; 2; 3]%nat boost_level.

(** move [p] to the next queue *)
Definition demote (p : nat) : P unit :=
  x <- proc_at p;;
  dequeue p (p_queue_number x);;
  x <- proc_at p;;
  let npriority := p_queue_number x + 1 in
  let npriority := if 3 <? npriority then npriority - 1 else npriority in
  enqueue p npriority.

(** does the process at the end of its tick exceed the slice of its queue? *)
Definition slice_over (p : nat) : P bool :=
  x <- proc_at p;;
  match idx (p_queue_number x) ≫= (timesliceq !!.) with
  | Some t => ret (t <=? p_queueticks x)
  | None => fault "timesliceq: out of bounds"
  end.

(** ** Moving a process between queues *)

(** the process as [enqueue] leaves it *)
Definition requeued (q : nat) (p : proc) : proc := set_p_queue_number q (set_p_queueticks 0 p).

Lemma wp_move_queue e ps ls i p (q q' : nat) l l'
    (Q : unit -> list (procs -> procs) -> procs -> Prop) :
  sched_inv ps ls -> ps_proc ps !! i = Some p -> home p = Some q -> ls !! q = Some l ->
  let ls1 := <[q := filter (fun j => j <> i) l]> ls in
  ls1 !! q' = Some l' ->
  (forall ps', sched_inv ps' (<[q' := l' ++ [i]]> ls1) -> same_misc ps ps' ->
     ps_proc ps' = <[i := requeued q' p]> (ps_proc ps) -> Q tt e ps') ->
  wp (dequeue i q;; enqueue i q') e ps Q.
Proof.
  intros Hinv Hp Hh Hl ls1 Hl' HQ. pose proof (lookup_lt_Some _ _ _ Hp) as Hlt.
  assert (live (p_state p) = true) as Hlive by (unfold home in Hh; by destruct (live _)).
  assert (used p) as Hu by (unfold used; by destruct (p_state p)).
  pose proof (moving_intro _ _ _ _ Hinv Hp) as Hm. rewrite Hh in Hm.
  wp_step. eapply wp_dequeue_moving; [done..|]. intros l1 Hm1.
  eapply (wp_enqueue_moving i _ ls1 p q' l'); [done..|]. intros p' ps' Hm2.
  apply HQ; [|done..]. apply (moving_elim i p').
  - unfold home. cbn. rewrite Hlive, Nat2Z.id. exact Hm2.
  - unfold ps'. rewrite lookup_upd_slot by done. by rewrite decide_True.
Qed.

Lemma dequeue_run e ps ls i p (q : nat) l : sched_inv ps ls -> ps_proc ps !! i = Some p ->
  ls !! q = Some l -> exists ps1, dequeue i q e ps = Ret tt e ps1 /\ ps_proc ps1 = ps_proc ps.
Proof.
  intros Hinv Hp Hl. apply wp_run_tt. eapply wp_dequeue; [|done|done].
  by eapply (qo_queue _ _ (proj1 Hinv)).
Qed.

Lemma home_queue ps ls i p q : sched_inv ps ls -> ps_proc ps !! i = Some p -> home p = Some q ->
  p_queue_number p = q /\ (q < 4)%nat /\ exists l, ls !! q = Some l /\ i ∈ l.
Proof.
  intros [Hok Hin] Hp Hh. pose proof (qo_range _ _ Hok i p Hp) as Hr.
  assert (q = Z.to_nat (p_queue_number p)) as ->
    by (unfold home in Hh; destruct (live _); [by injection Hh | done]).
  assert (Z.to_nat (p_queue_number p) < 4)%nat as Hlt by lia.
  split_and!; [lia | done |].
  destruct (lookup_lt_is_Some_2 ls (Z.to_nat (p_queue_number p))) as [l Hl];
    [by rewrite (qo_four _ _ Hok)|].
  exists l. split; [done|]. by apply (Hin i p Hp _ _ Hl).
Qed.

(** ** The boost, as a function on queues *)
Fixpoint evens {A} (l : list A) : list A :=
  match l with x :: y :: l' => x :: evens l' | [x] => [x] | [] => [] end.
Fixpoint odds {A} (l : list A) : list A :=
  match l with x :: y :: l' => y :: odds l' | _ => [] end.

(** the processes of [moved] requeued, the others as they were *)
Definition requeue_all (moved : list nat) (t : list proc) : list proc :=
  imap (fun i p => if decide (i ∈ moved) then requeued 0 p else p) t.

Lemma requeue_all_nil t : requeue_all [] t = t.
Proof. unfold requeue_all. apply list_eq. intros i. rewrite list_lookup_imap. by destruct (t !! i). Qed.
Lemma requeue_all_app a b t : requeue_all b (requeue_all a t) = requeue_all (a ++ b) t.
Proof.
  apply list_eq. intros i. unfold requeue_all. rewrite !list_lookup_imap.
  destruct (t !! i) as [p|]; cbn; [|done]. f_equal. unfold requeued.
  repeat case_decide; set_solver.
Qed.
Lemma requeue_all_one i p t : t !! i = Some p ->
  requeue_all [i] t = <[i := requeued 0 p]> t.
Proof.
  intros Hp. apply list_eq. intros j. unfold requeue_all.
  rewrite list_lookup_imap, list_lookup_insert_case.
  destruct (decide (j = i)) as [->|Hne].
  - rewrite decide_True by (split; [done | by eapply lookup_lt_Some]). rewrite Hp. cbn.
    by rewrite decide_True by set_solver.
  - rewrite decide_False by (intros [-> _]; done). destruct (t !! j); cbn; [|done].
    by rewrite decide_False by set_solver.
Qed.

Definition boost_post (ps : procs) (ls' : list (list nat)) (moved : list nat) (ps' : procs) : Prop :=
  sched_inv ps' ls' /\ same_misc ps ps' /\ ps_proc ps' = requeue_all moved (ps_proc ps).
Lemma boost_post_trans ps ps1 ps2 ls1 ls2 m1 m2 :
  boost_post ps ls1 m1 ps1 -> boost_post ps1 ls2 m2 ps2 -> boost_post ps ls2 (m1 ++ m2) ps2.
Proof.
  intros (_ & Hm1 & Ht1) (Hi2 & Hm2 & Ht2). split_and!; [done | by etrans |].
  by rewrite Ht2, Ht1, requeue_all_app.
Qed.

Lemma filter_out i (a b : list nat) : NoDup (a ++ i :: b) ->
  filter (fun j => j <> i) (a ++ i :: b) = a ++ b.
Proof.
  intros (Ha & Hd & (Hb & _)%NoDup_cons)%NoDup_app.
  rewrite filter_app, filter_cons_False by tauto.
  rewrite !list_filter_all; [done|..]; apply Forall_forall.
  - intros j Hj ->. done.
  - intros j Hj ->. apply (Hd i); set_solver.
Qed.

Section boost_level.
Context (e : list (procs -> procs)) (level : nat).
Context (Hlev : (0 < level)%nat).

Definition boost_body (j : Z) : P (Z + unit) :=
  n <- sizeofq_at level;;
  if n <=? j then ret (inr tt) else
  x <- multique_at level j;;
  match x with
  | None => fault "null pointer"
  | Some temp =>
      t <- proc_at temp;;
      dequeue temp (p_queue_number t);;
      enqueue temp 0;;
      ret (inl (j + 1))
  end.

Definition boost_queues (l0 a b : list nat) (ls : list (list nat)) : list (list nat) :=
  <[0%nat := l0 ++ evens b]> (<[level := a ++ odds b]> ls).

(** one iteration, at the process that follows [a] *)
Lemma wp_boost_body ps ls l0 a i b (Q : Z + unit -> list (procs -> procs) -> procs -> Prop) :
  sched_inv ps ls -> ls !! 0%nat = Some l0 -> ls !! level = Some (a ++ i :: b) ->
  (forall ps', boost_post ps (<[0%nat := l0 ++ [i]]> (<[level := a ++ b]> ls)) [i] ps' ->
     Q (inl (Z.of_nat (length a) + 1)) e ps') ->
  wp (boost_body (length a)) e ps Q.
Proof using Hlev.
  intros Hinv H0 Hl HQ. pose proof Hinv as [Hok Hin].
  destruct (qo_queue _ _ Hok _ _ Hl) as (Hrow & Hsz & Hle & Hall).
  assert ((a ++ i :: b) !! length a = Some i) as Hi by (by apply list_lookup_middle).
  destruct (queues_member _ _ _ _ i Hok Hl ltac:(set_solver)) as [p Hp].
  assert (home p = Some level) as Hh by (apply (Hin i p Hp level _ Hl); set_solver).
  destruct (home_queue _ _ _ _ _ Hinv Hp Hh) as (Hq & _).
  unfold boost_body. wp_step. eapply wp_sizeofq_at; [done|].
  rewrite length_app. cbn [length].
  destruct (Z.leb_spec (Z.of_nat (length a + S (length b))) (Z.of_nat (length a))); [lia|].
  wp_step. eapply wp_multique_at; [done | by apply row_of_lookup |].
  cbv iota beta. wp_step. eapply wp_proc_at; [done|]. rewrite Hq.
  apply wp_assoc, wp_bind. eapply (wp_move_queue _ _ _ _ _ _ 0); [done..| |].
  - rewrite list_lookup_insert_ne by lia. done.
  - intros ps' Hi' Hm Ht. wp_step. apply HQ.
    rewrite filter_out in Hi' by (by eapply qo_nodup).
    split_and!; [done..|]. by rewrite Ht, (requeue_all_one i p).
Qed.

Lemma wp_boost_loop n : forall fuel ps ls l0 a b
    (Q : unit -> list (procs -> procs) -> procs -> Prop),
  (length b <= n)%nat -> (n < fuel)%nat ->
  sched_inv ps ls -> ls !! 0%nat = Some l0 -> ls !! level = Some (a ++ b) ->
  (forall ps', boost_post ps (boost_queues l0 a b ls) (evens b) ps' -> Q tt e ps') ->
  wp (mloop fuel (Z.of_nat (length a)) boost_body) e ps Q.
Proof using Hlev.
  induction n as [|n IH]; intros fuel ps ls l0 a b Q Hb Hf Hinv H0 Hl HQ;
    (destruct fuel as [|fuel]; [lia|]); cbn [mloop];
    pose proof Hinv as [Hok _]; destruct (qo_queue _ _ Hok _ _ Hl) as (_ & Hsz & _);
    pose proof (lookup_lt_Some _ _ _ H0) as Hlt0; pose proof (lookup_lt_Some _ _ _ Hl) as Hltl.
  - destruct b; [|cbn in Hb; lia]. unfold boost_body at 1. wp_step. wp_step.
    eapply wp_sizeofq_at; [done|]. rewrite app_nil_r.
    destruct (Z.leb_spec (Z.of_nat (length a)) (Z.of_nat (length a))); [|lia].
    wp_step. wp_step. apply HQ. unfold boost_queues. cbn. rewrite !app_nil_r in *.
    rewrite (list_insert_id ls level) by done. rewrite list_insert_id by done.
    split_and!; [done | done | by rewrite requeue_all_nil].
  - destruct b as [|i b].
    { apply (IH (S fuel) ps ls l0 a [] Q); cbn; try done; lia. }
    wp_step. eapply wp_boost_body; [done..|]. intros ps1 Hp1.
    set (ls1 := <[0%nat := l0 ++ [i]]> (<[level := a ++ b]> ls)) in *.
    assert (ls1 !! 0%nat = Some (l0 ++ [i])) as H01
      by (apply list_lookup_insert_eq; by rewrite length_insert).
    assert (ls1 !! level = Some (a ++ b)) as Hl1
      by (unfold ls1; rewrite list_lookup_insert_ne by lia; by apply list_lookup_insert_eq).
    destruct b as [|k b].
    + destruct fuel as [|fuel]; [lia|]. cbn [mloop]. unfold boost_body at 1. wp_step. wp_step.
      destruct Hp1 as (Hi1 & Hp1). destruct (qo_queue _ _ (proj1 Hi1) _ _ Hl1) as (_ & Hsz1 & _).
      eapply wp_sizeofq_at; [done|]. rewrite app_nil_r.
      destruct (Z.leb_spec (Z.of_nat (length a)) (Z.of_nat (length a) + 1)); [|lia].
      wp_step. wp_step. by apply HQ.
    + replace (Z.of_nat (length a) + 1) with (Z.of_nat (length (a ++ [k])))
        by (rewrite length_app; cbn; lia).
      apply (IH fuel ps1 ls1 (l0 ++ [i]) (a ++ [k]) b Q);
        [cbn in Hb; lia | lia | apply Hp1 | done | by rewrite <- app_assoc |].
      intros ps' Hps'. apply HQ. pose proof (boost_post_trans _ _ _ _ _ _ _ Hp1 Hps') as H.
      assert (boost_queues (l0 ++ [i]) (a ++ [k]) b ls1 = boost_queues l0 a (i :: k :: b) ls) as <-;
        [|exact H].
      unfold boost_queues, ls1. cbn. rewrite <- !app_assoc. cbn.
      rewrite (list_insert_insert_ne _ level 0) by lia. rewrite !list_insert_insert_eq. done.
Qed.

Lemma wp_boost_level ps ls l0 l (Q : unit -> list (procs -> procs) -> procs -> Prop) :
  sched_inv ps ls -> ls !! 0%nat = Some l0 -> ls !! level = Some l ->
  (forall ps', boost_post ps (boost_queues l0 [] l ls) (evens l) ps' -> Q tt e ps') ->
  wp (boost_level level) e ps Q.
Proof using Hlev.
  intros Hinv H0 Hl HQ. destruct (qo_queue _ _ (proj1 Hinv) _ _ Hl) as (_ & Hsz & _).
  unfold boost_level. wp_step. eapply wp_sizeofq_at; [done|]. rewrite Nat2Z.id.
  apply (wp_boost_loop (length l) (S (length l)) ps ls l0 [] l Q); try done; lia.
Qed.
End boost_level.

(** [demote] after its first lookup: the process is read again once it is out of
    its queue, which does not change its queue number *)
Lemma wp_demote_tail e ps ls i p (q : nat) l (q' : nat) l'
    (Q : unit -> list (procs -> procs) -> procs -> Prop) :
  sched_inv ps ls -> ps_proc ps !! i = Some p -> home p = Some q -> ls !! q = Some l ->
  let ls1 := <[q := filter (fun j => j <> i) l]> ls in
  ls1 !! q' = Some l' ->
  (if 3 <? Z.of_nat q + 1 then Z.of_nat q + 1 - 1 else Z.of_nat q + 1) = Z.of_nat q' ->
  (forall ps', sched_inv ps' (<[q' := l' ++ [i]]> ls1) -> same_misc ps ps' ->
     ps_proc ps' = <[i := requeued q' p]> (ps_proc ps) -> Q tt e ps') ->
  wp (dequeue i q;;
      x <- proc_at i;;
      let npriority := p_queue_number x + 1 in
      let npriority := if 3 <? npriority then npriority - 1 else npriority in
      enqueue i npriority) e ps Q.
Proof.
  intros Hinv Hp Hh Hl ls1 Hl' Hq' HQ.
  destruct (home_queue _ _ _ _ _ Hinv Hp Hh) as (Hq & _).
  assert (wp (dequeue i q;; enqueue i q') e ps Q) as H by (by eapply wp_move_queue).
  destruct (dequeue_run e ps ls i p q l Hinv Hp Hl) as (ps1 & E & Ht).
  revert H. unfold wp, bind. rewrite E. unfold proc_at, bind. cbn -[Z.ltb Z.add].
  rewrite Ht, Hp. cbn -[Z.ltb Z.add]. by rewrite Hq, Hq'.
Qed.

(** ** Theorems *)

(** C2: The priority boost, exactly: of queues 1, 2 and 3 the processes at the
    even positions (the first, the third, ...) are appended to queue 0, level
    by level and in order, with their queue ticks reset; those at the odd
    positions stay where they are.  The scheduling invariant is kept. *)
Theorem boost_every_other e ps l0 l1 l2 l3 :
  sched_inv ps [l0; l1; l2; l3] ->
  exists ps', boost e ps = Ret tt e ps' /\
    sched_inv ps' [l0 ++ evens l1 ++ evens l2 ++ evens l3; odds l1; odds l2; odds l3] /\
    same_misc ps ps' /\
    ps_proc ps' = requeue_all (evens l1 ++ evens l2 ++ evens l3) (ps_proc ps).
Proof.
  intros Hinv. apply wp_run_tt. unfold boost. cbn [mforall].
  wp_step. eapply wp_boost_level; [lia | done..|]. intros ps1 H1.
  wp_step. eapply wp_boost_level; [lia | apply H1 | done..|]. intros ps2 H2.
  wp_step. eapply wp_boost_level; [lia | apply H2 | done..|]. intros ps3 H3.
  wp_step. split; [done|].
  destruct (boost_post_trans _ _ _ _ _ _ _ (boost_post_trans _ _ _ _ _ _ _ H1 H2) H3) as (Hi & Hm & Ht).
  unfold boost_queues in Hi. cbn in Hi. rewrite <- !app_assoc in *. done.
Qed.

(** C8: A process that used up its slice is moved to the end of the next
    queue (of the last one, if it is there already) with its queue ticks reset;
    nobody else moves and the scheduling invariant is kept. *)
Theorem demote_next_queue e ps ls i p (q : nat) l l' :
  sched_inv ps ls -> ps_proc ps !! i = Some p -> home p = Some q -> ls !! q = Some l ->
  let ls1 := <[q := filter (fun j => j <> i) l]> ls in
  let q' := Nat.min (q + 1) 3 in
  ls1 !! q' = Some l' ->
  exists ps', demote i e ps = Ret tt e ps' /\
    sched_inv ps' (<[q' := l' ++ [i]]> ls1) /\ same_misc ps ps' /\
    ps_proc ps' = <[i := requeued q' p]> (ps_proc ps).
Proof.
  intros Hinv Hp Hh Hl ls1 q' Hl'. apply wp_run_tt.
  destruct (home_queue _ _ _ _ _ Hinv Hp Hh) as (Hq & Hlt & _).
  assert ((if 3 <? Z.of_nat q + 1 then Z.of_nat q + 1 - 1 else Z.of_nat q + 1) = Z.of_nat q') as Hq'.
  { unfold q'. destruct (Z.ltb_spec 3 (Z.of_nat q + 1)); lia. }
  unfold demote. wp_step. eapply wp_proc_at; [done|]. rewrite Hq.
  apply (wp_demote_tail e ps ls i p q l q' l'); done.
Qed.

(** a machine whose queue 1 holds two processes and queue 2 three *)
Definition mlfq_table : list proc :=
  [demo_proc 0 RUNNING CNull 1 0 None; demo_proc 1 RUNNABLE CNull 2 1 None;
   demo_proc 2 RUNNABLE CNull 3 1 None; demo_proc 3 RUNNABLE CNull 4 2 None;
   demo_proc 4 RUNNABLE CNull 5 2 None; demo_proc 5 RUNNABLE CNull 6 2 None;
   demo_proc 6 RUNNABLE CNull 7 3 None]
  ++ (proc0 <$> seq 7 57).
Definition mlfq_ps : procs :=
  mkprocs mlfq_table (Some 0%nat) [row_of [0]; row_of [1; 2]; row_of [3; 4; 5]; row_of [6]]%nat
    [1; 2; 3; 1] 8 123456789 48 1.
Lemma mlfq_ps_inv : sched_inv mlfq_ps [[0]; [1; 2]; [3; 4; 5]; [6]]%nat.
Proof. apply sched_invb_sound. vm_compute. reflexivity. Qed.

Lemma boost_every_other_witness :
  exists ps', boost [] mlfq_ps = Ret tt [] ps' /\
    sched_inv ps' [[0; 1; 3; 5; 6]; [2]; [4]; []]%nat /\
    same_misc mlfq_ps ps' /\ ps_proc ps' = requeue_all [1; 3; 5; 6]%nat mlfq_table.
Proof. apply (boost_every_other [] mlfq_ps [0] [1; 2] [3; 4; 5] [6])%nat. apply mlfq_ps_inv. Defined.

Lemma demote_next_queue_witness :
  exists ps', demote 0 [] mlfq_ps = Ret tt [] ps' /\
    sched_inv ps' [[]; [1; 2; 0]; [3; 4; 5]; [6]]%nat /\ same_misc mlfq_ps ps' /\
    ps_proc ps' = <[0%nat := requeued 1 (demo_proc 0 RUNNING CNull 1 0 None)]> mlfq_table.
Proof.
  apply (demote_next_queue [] mlfq_ps [[0]; [1; 2]; [3; 4; 5]; [6]]%nat 0
    (demo_proc 0 RUNNING CNull 1 0 None) 0 [0] [1; 2])%nat; try reflexivity.
  apply mlfq_ps_inv.
Defined.
