(* ===== verification/Copyio.v ===== *)
(** [either_copyout] and [either_copyin] of proc.c, and loops that sleep.

    The kernel side of these copies is user memory, a physical page, or a
    buffer on the kernel stack; a buffer is a list of bytes that the caller
    keeps, so nothing is stored for it. *)
From S2P Require Import Prelude State Spinlock Queue Boot Cstring Kalloc Vm Proc.

(** where [either_copyout] writes: a user address, a kernel address, or a
    kernel buffer *)
Inductive kdst := ToUser (va : Z) | ToPhys (pa : Z) | ToBuf.
Definition kdst_add (d : kdst) (n : Z) : kdst :=
  match d with ToUser va => ToUser (u64 (va + n)) | ToPhys pa => ToPhys (u64 (pa + n)) | ToBuf => ToBuf end.

Definition either_copyout (dst : kdst) (src : list Z) : K Z :=
  p <- curproc;;
  match dst with
  | ToUser va => pt <- pget p p_pagetable;; copyout pt va src
  | ToPhys pa => write_phys pa src;; ret 0
  | ToBuf => ret 0
  end.

(** where [either_copyin] reads; a kernel buffer is given by its bytes *)
Inductive ksrc := FromUser (va : Z) | FromPhys (pa : Z) | FromBuf (bytes : list Z).
Definition ksrc_add (d : ksrc) (n : Z) : ksrc :=
  match d with
  | FromUser va => FromUser (u64 (va + n))
  | FromPhys pa => FromPhys (u64 (pa + n))
  | FromBuf l => FromBuf (drop (Z.to_nat n) l)
  end.

Definition either_copyin (src : ksrc) (len : Z) : K (Z * list Z) :=
  p <- curproc;;
  match src with
  | FromUser va => pt <- pget p p_pagetable;; copyin pt va len
  | FromPhys pa => l <- read_phys pa len;; ret (0, l)
  | FromBuf l => ret (0, take (Z.to_nat len) l)
  end.

(** A loop that gives up the processor in all but [n] of its iterations: each
    [sleep] uses up one element of the environment, which bounds the number of
    iterations; running out of fuel is impossible unless the body goes on
    without sleeping more than [n] times. *)
Definition sleep_loop {B R} (n : nat) (x : B) (body : B -> K (B + R)) : K R := fun e s =>
  mloop (S (n + length e)) x body e s.

(** [while(cond) sleep(ch, lk);] *)
Definition sleep_while (cond : K bool) (ch : chan) (lk : lockid) : K unit :=
  sleep_loop 0 tt (fun _ =>
    b <- cond;;
    if (b : bool) then sleep ch lk;; ret (inl tt) else ret (inr tt)).

(** a loop whose condition is false does not sleep *)
Lemma wp_sleep_loop_now {B R} n (x : B) (body : B -> K (B + R)) e s (Q : R -> list (kstate -> kstate) -> kstate -> Prop) :
  wp (body x) e s (fun r e' s' => exists v, r = inr v /\ Q v e' s') -> wp (sleep_loop n x body) e s Q.
Proof.
  intros H. change (wp (mloop (S (n + length e)) x body) e s Q). cbn [mloop]. wp_step.
  eapply wp_mono; [done|]. intros r e' s' (v & -> & HQ). by wp_step.
Qed.
Lemma wp_sleep_while_now cond ch lk e s (Q : unit -> list (kstate -> kstate) -> kstate -> Prop) :
  wp cond e s (fun b e' s' => b = false /\ Q tt e' s') -> wp (sleep_while cond ch lk) e s Q.
Proof.
  intros H. apply wp_sleep_loop_now. wp_step. eapply wp_mono; [done|].
  intros b e' s' [-> HQ]. wp_step. by exists tt.
Qed.
