(* ===== verification/Sleeplock.v ===== *)
(** Sleep locks (sleeplock.c).  A sleep lock is a field of a buffer or of an
    in-memory inode; its inner spin lock is [LBuf i] or [LInode i]. *)
From S2P Require Import Prelude State Spinlock Queue Boot Proc Copyio.

(** which sleep lock *)
Inductive slid := SLBuf (i : nat) | SLInode (i : nat).

Definition sl_lock (l : slid) : lockid := match l with SLBuf i => LBuf i | SLInode i => LInode i end.
Definition sl_chan (l : slid) : chan :=
  match l with SLBuf i => CBufLock i | SLInode i => CInodeLock i end.

(** the struct, and writing it back *)
Definition sl_find (l : slid) (f : fsstate) : option sleeplock :=
  match l with
  | SLBuf i => b_lock <$> fs_buf f !! i
  | SLInode i => i_lock <$> fs_inode f !! i
  end.
Definition sl_put (l : slid) (k : sleeplock) (f : fsstate) : fsstate :=
  match l with
  | SLBuf i => set_fs_buf (alter (set_b_lock k) i (fs_buf f)) f
  | SLInode i => set_fs_inode (alter (set_i_lock k) i (fs_inode f)) f
  end.
Definition sl_get (l : slid) : K sleeplock :=
  o <- gets (fun s => sl_find l (k_fs s));;
  match o with Some k => ret k | None => fault "no such sleep lock" end.
Definition sl_set (l : slid) (k : sleeplock) : K unit := modify_fs (sl_put l k).

(** ** sleeplock.c *)
Definition initsleeplock (l : slid) (name : string) : K unit :=
  initlock (sl_lock l) "sleep lock";;
  k <- sl_get l;; sl_set l (set_sl_name name k);;
  k <- sl_get l;; sl_set l (set_sl_locked 0 k);;
  k <- sl_get l;; sl_set l (set_sl_pid 0 k).

Definition acquiresleep (l : slid) : K unit :=
  acquire (sl_lock l);;
  sleep_while (k <- sl_get l;; ret (istrue (sl_locked k))) (sl_chan l) (sl_lock l);;
  k <- sl_get l;; sl_set l (set_sl_locked 1 k);;
  p <- curproc;; pid <- pget p p_pid;;
  k <- sl_get l;; sl_set l (set_sl_pid pid k);;
  release (sl_lock l).

Definition releasesleep (l : slid) : K unit :=
  acquire (sl_lock l);;
  k <- sl_get l;; sl_set l (set_sl_locked 0 k);;
  k <- sl_get l;; sl_set l (set_sl_pid 0 k);;
  wakeup (sl_chan l);;
  release (sl_lock l).

Definition holdingsleep (l : slid) : K bool :=
  acquire (sl_lock l);;
  k <- sl_get l;;
  r <- (if istrue (sl_locked k)
        then p <- curproc;; pid <- pget p p_pid;; ret (sl_pid k =? pid) else ret false);;
  release (sl_lock l);;
  ret r.

(** ** Uncontended use *)
Lemma sl_find_put l k f : is_Some (sl_find l f) -> sl_find l (sl_put l k f) = Some k.
Proof.
  destruct l; intros [k0 Hk]; cbn in *; rewrite list_lookup_alter_eq.
  - by destruct (fs_buf f !! i).
  - by destruct (fs_inode f !! i).
Qed.
Lemma sl_put_put l k k' f : sl_put l k (sl_put l k' f) = sl_put l k f.
Proof.
  destruct l; cbn; unfold set_fs_buf, set_fs_inode; cbn; f_equal; apply list_eq; intros j;
    rewrite !list_lookup_alter; repeat case_decide; subst; try done.
  - by destruct (fs_buf f !! j).
  - by destruct (fs_inode f !! j).
Qed.

Lemma wp_sl_get l k e s (Q : sleeplock -> list (kstate -> kstate) -> kstate -> Prop) :
  sl_find l (k_fs s) = Some k -> Q k e s -> wp (sl_get l) e s Q.
Proof. intros Hk HQ. unfold sl_get. wp_step. wp_step. rewrite Hk. by wp_step. Qed.

Section uncontended.
Context (l : slid) (k : sleeplock) (i : nat) (x : proc) (e : list (kstate -> kstate)) (s : kstate).
Context (Hok : hart_ok 2 (k_hw s)) (Hlk : lock_free (k_hw s) (sl_lock l)) (Hcur : cur_is (k_hw s) i).
Context (Hx : ps_proc (k_ps s) !! i = Some x) (Hk : sl_find l (k_fs s) = Some k).

Lemma cur_is_acq : cur_is (hw_acq (sl_lock l) (k_hw s)) i.
Proof using Hok Hlk Hcur.
  by eapply cur_is_taken.
Qed.
Lemma hart_acq : hart_ok 1 (hw_acq (sl_lock l) (k_hw s)).
Proof using Hok Hlk. replace 1 with (2 - 1) by lia. by apply hart_ok_acq. Qed.

(** a free sleep lock is taken at once, in the name of the process *)
Lemma wp_acquiresleep (Q : unit -> list (kstate -> kstate) -> kstate -> Prop) : sl_locked k = 0 ->
  Q tt e (set_k_hw (hw_crit (k_hw s))
    (set_k_fs (sl_put l (mksleeplock 1 (sl_name k) (p_pid x)) (k_fs s)) s)) ->
  wp (acquiresleep l) e s Q.
Proof using All.
  intros H0 HQ. unfold acquiresleep. wp_step.
  apply wp_acquire; [by eapply hart_ok_weaken; [|done]; lia | done|].
  wp_step. apply wp_sleep_while_now. wp_step. eapply wp_sl_get; [done|]. wp_step.
  rewrite H0. split; [done|]. wp_step. eapply wp_sl_get; [done|]. unfold sl_set, modify_fs. wp_steps.
  eapply wp_curproc; [apply hart_acq | apply cur_is_acq |].
  wp_step. eapply wp_pget; [done|]. wp_step.
  eapply wp_sl_get; [cbn; by apply sl_find_put|]. wp_steps. cbn.
  eapply (wp_release_acq _ (k_hw s) 2); [lia | done | done | |].
  - cbn. by apply (hw_crit_acq _ _ 2).
  - revert HQ. cbn. by rewrite sl_put_put.
Qed.

(** the holder sees that it holds the lock *)
Lemma wp_holdingsleep (Q : bool -> list (kstate -> kstate) -> kstate -> Prop) :
  Q (istrue (sl_locked k) && (sl_pid k =? p_pid x)) e (set_k_hw (hw_crit (k_hw s)) s) ->
  wp (holdingsleep l) e s Q.
Proof using All.
  intros HQ. unfold holdingsleep. wp_step.
  apply wp_acquire; [by eapply hart_ok_weaken; [|done]; lia | done|].
  wp_step. eapply wp_sl_get; [done|]. wp_step. destruct (istrue (sl_locked k)).
  - wp_step. eapply wp_curproc; [apply hart_acq | apply cur_is_acq |].
    wp_step. eapply wp_pget; [done|]. wp_steps.
    eapply (wp_release_acq _ (k_hw s) 2); [lia | done | done | cbn; by apply (hw_crit_acq _ _ 2) |].
    wp_step. done.
  - wp_steps. eapply (wp_release_acq _ (k_hw s) 2); [lia | done | done | done |]. wp_step. done.
Qed.

(** releasing wakes the processes that wait for the lock *)
Lemma wp_releasesleep ls (Q : unit -> list (kstate -> kstate) -> kstate -> Prop) :
  proc_locks_free (k_hw s) (Some i) -> sched_inv (k_ps s) ls ->
  (forall ps', (exists ls', sched_inv ps' ls') -> same_misc (k_ps s) ps' ->
     ps_proc ps' = woken_table (sl_chan l) (Some i) NPROC (ps_proc (k_ps s)) ->
     Q tt e (set_k_hw (hw_crit (k_hw s)) (set_k_ps ps'
       (set_k_fs (sl_put l (mksleeplock 0 (sl_name k) 0) (k_fs s)) s)))) ->
  wp (releasesleep l) e s Q.
Proof using All.
  intros Hpl Hinv HQ. unfold releasesleep. wp_step.
  apply wp_acquire; [by eapply hart_ok_weaken; [|done]; lia | done|].
  wp_step. eapply wp_sl_get; [done|]. unfold sl_set, modify_fs. wp_steps.
  eapply wp_sl_get; [cbn; by apply sl_find_put|]. wp_steps. cbn. rewrite sl_put_put.
  pose proof cur_is_acq as Hc. unfold cur_is in Hc.
  destruct (cur_cpu (hw_acq (sl_lock l) (k_hw s))) as [c|] eqn:Ec; [|done]. injection Hc as Hc.
  eapply (wp_wakeup _ (Some i) ls _ _ c); [cbn; apply hart_acq | done | done | | done |].
  - intros j Hj Hne. destruct (Hpl j Hj Hne) as [n Hn]. exists n. cbn. rewrite (hw_acq_other _ _ Hlk); [done|].
    by destruct l.
  - intros s' ((Hh & Hmm & Hio & Hfs) & Hmisc & Ht & ls' & Hinv' & _). cbn in *.
    assert (k_hw s' = hw_acq (sl_lock l) (k_hw s)) as Hhw.
    { apply hw_eqv_eq; [done | by eapply depth_acq]. }
    eapply (wp_release_acq _ (k_hw s) 2); [lia | done | done | done |].
    specialize (HQ (k_ps s') ltac:(eauto) Hmisc Ht). revert HQ. cbn.
    destruct s'; cbn in *; subst. done.
Qed.
End uncontended.
