(* ===== verification/Console.v ===== *)
(** The interrupt-driven UART (uart.c) and the console (console.c): the output
    ring buffer, line editing of the input, and the [read]/[write] of the
    console device. *)
From S2P Require Import Prelude State Spinlock Queue Boot Cstring Kalloc Vm Printf Proc Copyio.

Definition UART_TX_BUF_SIZE : Z := 32.
Definition INPUT_BUF_SIZE : Z := 128.
(** control characters: [C(x)] *)
Definition ctrl_D : Z := 4.
Definition ctrl_H : Z := 8.
Definition ctrl_P : Z := 16.
Definition ctrl_U : Z := 21.

Definition io_get {A} (f : io -> A) : K A := gets (fun s => f (k_io s)).

(** ** uart.c *)

(** The register writes that configure the line only concern the device; the
    kernel state they leave is the initialized lock. *)
Definition uartinit : K unit := initlock LUart "uart".

(** [uart_tx_w - uart_tx_r] bytes are buffered, so the loop ends after at most
    that many iterations *)
Definition uartstart : K unit :=
  w <- io_get uart_tx_w;;
  r <- io_get uart_tx_r;;
  mloop (S (Z.to_nat (u64 (w - r)))) tt (fun _ =>
    w <- io_get uart_tx_w;;
    r <- io_get uart_tx_r;;
    if w =? r then ret (inr tt) else
    idle <- io_get u_txidle;;
    if negb idle then ret (inr tt) else
    buf <- io_get uart_tx_buf;;
    let c := default 0 (buf !! Z.to_nat (r mod UART_TX_BUF_SIZE)) in
    modify_io (set_uart_tx_r (u64 (r + 1)));;
    wakeup CUartR;;
    write_THR c;;
    ret (inl tt)).

Definition uartputc (c : Z) : K unit :=
  acquire LUart;;
  panicked <- io_get pr_panicked;;
  if istrue panicked then (fun e s => Blocked s) else
  sleep_while (w <- io_get uart_tx_w;; r <- io_get uart_tx_r;; ret (w =? u64 (r + UART_TX_BUF_SIZE)))
    CUartR LUart;;
  w <- io_get uart_tx_w;;
  modify_io (fun d => set_uart_tx_buf (<[Z.to_nat (w mod UART_TX_BUF_SIZE) := u8 c]> (uart_tx_buf d)) d);;
  modify_io (fun d => set_uart_tx_w (u64 (uart_tx_w d + 1)) d);;
  uartstart;;
  release LUart.

(** -1 when no input is waiting *)
Definition uartgetc : K Z :=
  rx <- io_get u_rx;;
  match rx with
  | c :: rest => modify_io (set_u_rx rest);; ret (u8 c)
  | [] => ret (-1)
  end.

(** ** console.c *)
Definition consolewrite (src : ksrc) (n : Z) : K Z :=
  r <- mfold (seq 0 (Z.to_nat n)) 0 (fun i _ =>
    x <- either_copyin (ksrc_add src i) 1;;
    if x.1 =? -1 then ret (inr i) else
    uartputc (default 0 (head x.2));;
    ret (inl (i + 1)));;
  ret (match r with inl i => i | inr i => i end).

(** [c = cons.buf[cons.r++ % INPUT_BUF_SIZE]] *)
Definition cons_next : K Z :=
  r <- io_get cons_r;;
  buf <- io_get cons_buf;;
  modify_io (set_cons_r (u32 (r + 1)));;
  ret (default 0 (buf !! Z.to_nat (r mod INPUT_BUF_SIZE))).

(** [while(cons.r == cons.w)]: true when the process was killed while waiting *)
Definition cons_wait : K bool :=
  sleep_loop 0 tt (fun _ =>
    r <- io_get cons_r;;
    w <- io_get cons_w;;
    if negb (r =? w) then ret (inr false) else
    p <- curproc;;
    k <- killed p;;
    if istrue k then ret (inr true) else
    sleep CConsR LCons;;
    ret (inl tt)).

(** the loop returns what is left of [n], or [None] when killed (the lock is
    then released already) *)
Definition consoleread (dst : kdst) (n : Z) : K Z :=
  let target := n in
  acquire LCons;;
  r <- mloop (S (Z.to_nat n)) (dst, n) (fun '(dst, n) =>
    if n <=? 0 then ret (inr (Some n)) else
    dead <- cons_wait;;
    if (dead : bool) then release LCons;; ret (inr None) else
    c <- cons_next;;
    if c =? ctrl_D then
      when (n <? u32 target) (modify_io (fun d => set_cons_r (u32 (cons_r d - 1)) d));;
      ret (inr (Some n))
    else
      x <- either_copyout dst [c];;
      if x =? -1 then ret (inr (Some n)) else
      if c =? 10 then ret (inr (Some (n - 1)))
      else ret (inl (kdst_add dst 1, n - 1)));;
  match r with
  | None => ret (-1)
  | Some left_ => release LCons;; ret (s32 (target - left_))
  end.

(** the erasing loop of kill-line: at most [cons.e - cons.w] iterations *)
Definition kill_line : K unit :=
  e <- io_get cons_e;;
  w <- io_get cons_w;;
  mloop (S (Z.to_nat (u32 (e - w)))) tt (fun _ =>
    e <- io_get cons_e;;
    w <- io_get cons_w;;
    buf <- io_get cons_buf;;
    if (e =? w) || (default 0 (buf !! Z.to_nat (u32 (e - 1) mod INPUT_BUF_SIZE)) =? 10)
    then ret (inr tt)
    else modify_io (set_cons_e (u32 (e - 1)));; consputc BACKSPACE;; ret (inl tt)).

Definition consoleintr (c : Z) : K unit :=
  acquire LCons;;
  (if c =? ctrl_P then procdump
   else if c =? ctrl_U then kill_line
   else if (c =? ctrl_H) || (c =? 127) then
     e <- io_get cons_e;;
     w <- io_get cons_w;;
     when (negb (e =? w)) (modify_io (set_cons_e (u32 (e - 1)));; consputc BACKSPACE)
   else
     e <- io_get cons_e;;
     r <- io_get cons_r;;
     when (istrue c && (u32 (e - r) <? INPUT_BUF_SIZE))
       (let c := if c =? 13 then 10 else c in
        consputc c;;
        e <- io_get cons_e;;
        modify_io (fun d => set_cons_buf (<[Z.to_nat (e mod INPUT_BUF_SIZE) := u8 c]> (cons_buf d)) d);;
        modify_io (set_cons_e (u32 (e + 1)));;
        e <- io_get cons_e;;
        r <- io_get cons_r;;
        when ((c =? 10) || (c =? ctrl_D) || (u32 (e - r) =? INPUT_BUF_SIZE))
          (modify_io (set_cons_w e);; wakeup CConsR)));;
  release LCons.

Definition CONSOLE : nat := 1.
Definition consoleinit : K unit :=
  initlock LCons "cons";;
  uartinit;;
  modify_fs (fun f => set_fs_devsw (<[CONSOLE := true]> (fs_devsw f)) f).

(** ** uart.c: the interrupt handler *)

(** one iteration per waiting byte, and one that finds none *)
Definition uartintr : K unit :=
  n <- gets (fun s => length (u_rx (k_io s)));;
  mloop (S n) tt (fun _ =>
    c <- uartgetc;;
    if c =? -1 then ret (inr tt) else
    consoleintr c;;
    ret (inl tt));;
  acquire LUart;;
  uartstart;;
  release LUart.
