(* ===== verification/Tty.v ===== *)
(** The console's line discipline (console.c: [consoleintr], [consoleread]).

    The console buffer, three 32-bit counters into a ring of 128 bytes, is seen as the
    bytes that are ready to be read and the line that is being edited.  [typed] says
    what a key does to them and what is echoed, [read_line] what a read takes. *)
From S2P Require Import Prelude State Spinlock Queue Boot Cstring Kalloc Vm Uspace Printf Proc Copyio Sleeplock Console.

Record tty := mktty { t_ready : list Z; t_edit : list Z }.
Definition pending (t : tty) : list Z := t_ready t ++ t_edit t.

(** the index in the ring of the byte [i] after the read position *)
Definition ring_ix (d : io) (i : nat) : nat := Z.to_nat ((cons_r d + i) mod 128).
Record cons_is (d : io) (t : tty) : Prop := {
  ci_buf : length (cons_buf d) = 128%nat;
  ci_room : (length (pending t) <= 128)%nat;
  ci_r : 0 <= cons_r d < 2 ^ 32;
  ci_w : cons_w d = u32 (cons_r d + length (t_ready t));
  ci_e : cons_e d = u32 (cons_r d + length (pending t));
  ci_bytes : forall i c, pending t !! i = Some c -> cons_buf d !! ring_ix d i = Some c;
  ci_line : Forall (fun c => c <> 10) (t_edit t)
}.

(** erasing a character on the screen *)
Definition rubout : list Z := [8; 32; 8].
(** a key: the buffer, and what is echoed *)
Definition typed (c : Z) (t : tty) : tty * list Z :=
  if c =? ctrl_U then (mktty (t_ready t) [], mjoin (replicate (length (t_edit t)) rubout))
  else if (c =? ctrl_H) || (c =? 127) then
    match t_edit t with
    | [] => (t, [])
    | _ => (mktty (t_ready t) (take (length (t_edit t) - 1) (t_edit t)), rubout)
    end
  else if (c =? 0) || (128 <=? length (pending t))%nat then (t, [])
  else
    let c := if c =? 13 then 10 else c in
    let line := t_edit t ++ [c] in
    (if (c =? 10) || (c =? ctrl_D) || (length (pending t) =? 127)%nat then mktty (t_ready t ++ line) [] else mktty (t_ready t) line, [c]).

(** ** The ring *)
Lemma u32_mod128 z : u32 z mod 128 = z mod 128.
Proof. unfold u32. change (2 ^ 32) with (128 * 2 ^ 25). rewrite Z.rem_mul_r by lia. rewrite Z.mul_comm, Z_mod_plus_full. by apply Zmod_mod. Qed.
Lemma ring_ix_inj d i j : (i < 128)%nat -> (j < 128)%nat -> ring_ix d i = ring_ix d j -> i = j.
Proof.
  unfold ring_ix. intros Hi Hj E. pose proof (Z.mod_pos_bound (cons_r d + i) 128 ltac:(lia)). pose proof (Z.mod_pos_bound (cons_r d + j) 128 ltac:(lia)).
  pose proof (Z.div_mod (cons_r d + i) 128 ltac:(lia)). pose proof (Z.div_mod (cons_r d + j) 128 ltac:(lia)). lia.
Qed.
Lemma ring_ix_lt d i : (ring_ix d i < 128)%nat.
Proof. unfold ring_ix. pose proof (Z.mod_pos_bound (cons_r d + i) 128 ltac:(lia)). lia. Qed.
Lemma counter_sub a b : 0 <= a -> 0 <= b < 2 ^ 32 -> u32 (u32 (a + b) - a) = b.
Proof. intros Ha Hb. unfold u32. rewrite Zminus_mod_idemp_l. replace (a + b - a) with b by lia. by apply Z.mod_small. Qed.
Lemma counter_add a b : u32 (u32 a + b) = u32 (a + b).
Proof. unfold u32. apply Zplus_mod_idemp_l. Qed.
Lemma counter_pred a b : u32 (u32 a - b) = u32 (a - b).
Proof. unfold u32. apply Zminus_mod_idemp_l. Qed.
Lemma counter_eq r (a b : nat) : (a <= 128)%nat -> (b <= 128)%nat -> (u32 (r + a) =? u32 (r + b)) = (a =? b)%nat.
Proof.
  intros Ha Hb. destruct (Nat.eqb_spec a b) as [->|Hne]; [apply Z.eqb_refl|]. apply Z.eqb_neq. unfold u32. intros E.
  pose proof (Z.div_mod (r + a) (2 ^ 32) ltac:(lia)). pose proof (Z.div_mod (r + b) (2 ^ 32) ltac:(lia)). lia.
Qed.

(** the console's part of the device state *)
Definition same_cons (d d' : io) : Prop :=
  cons_buf d' = cons_buf d /\ cons_r d' = cons_r d /\ cons_w d' = cons_w d /\ cons_e d' = cons_e d.
Lemma cons_is_same d d' t : same_cons d d' -> cons_is d t -> cons_is d' t.
Proof.
  intros (E1 & E2 & E3 & E4) [H1 H2 H3 H4 H5 H6 H7]. constructor; rewrite ?E1, ?E2, ?E3, ?E4; try done.
  intros i c Hi. unfold ring_ix. rewrite E2. by apply H6.
Qed.
Lemma same_cons_tx l d : same_cons d (io_tx l d).
Proof. done. Qed.

(** the last byte of the line is dropped *)
Lemma cons_is_drop d t : cons_is d t -> t_edit t <> [] ->
  cons_is (set_cons_e (u32 (cons_e d - 1)) d) (mktty (t_ready t) (take (length (t_edit t) - 1) (t_edit t))).
Proof.
  intros [H1 H2 H3 H4 H5 H6 H7] Hne. assert (Hl : (0 < length (t_edit t))%nat) by (destruct (t_edit t); [done | cbn; lia]).
  unfold pending in *. rewrite length_app in *.
  constructor; cbn [t_ready t_edit cons_buf cons_r cons_w cons_e set_cons_e]; unfold pending; cbn [t_ready t_edit]; try done.
  - rewrite length_app, length_take. lia.
  - rewrite H5, counter_pred, length_app, length_take. f_equal. lia.
  - intros i c Hi. apply (H6 i c). destruct (decide (i < length (t_ready t))%nat).
    + rewrite lookup_app_l in * by lia. done.
    + rewrite lookup_app_r in * by lia. rewrite lookup_take in Hi. by destruct (decide _).
  - by apply Forall_take.
Qed.
(** a byte is added, and the line perhaps committed *)
Lemma cons_is_push d t c : cons_is d t -> (length (pending t) < 128)%nat ->
  let d' := set_cons_e (u32 (cons_e d + 1)) (set_cons_buf (<[Z.to_nat (cons_e d mod INPUT_BUF_SIZE) := c]> (cons_buf d)) d) in
  (c <> 10 -> cons_is d' (mktty (t_ready t) (t_edit t ++ [c]))) /\
  cons_is (set_cons_w (cons_e d') d') (mktty (t_ready t ++ t_edit t ++ [c]) []).
Proof.
  intros [H1 H2 H3 H4 H5 H6 H7] Hroom d'.
  assert (Hix : Z.to_nat (cons_e d mod INPUT_BUF_SIZE) = ring_ix d (length (pending t))).
  { unfold ring_ix, INPUT_BUF_SIZE. by rewrite H5, u32_mod128. }
  assert (Hb : forall i x, (pending t ++ [c]) !! i = Some x -> cons_buf d' !! ring_ix d i = Some x).
  { intros i x Hi. unfold d'. cbn [cons_buf set_cons_e set_cons_buf]. rewrite Hix.
    pose proof (lookup_lt_Some _ _ _ Hi) as Hl. rewrite length_app in Hl. cbn in Hl.
    destruct (decide (i = length (pending t))) as [->|Hne].
    - rewrite lookup_app_r, Nat.sub_diag in Hi by lia. injection Hi as <-. apply list_lookup_insert_eq. rewrite H1. apply ring_ix_lt.
    - rewrite list_lookup_insert_ne by (intros E; apply ring_ix_inj in E; lia). apply H6. by rewrite lookup_app_l in Hi by lia. }
  assert (He : cons_e d' = u32 (cons_r d + length (pending t ++ [c]))).
  { unfold d'. cbn. rewrite H5, counter_add, length_app. cbn. f_equal. lia. }
  assert (Hp : forall u v, u ++ v = pending t ++ [c] -> length (cons_buf d') = 128%nat /\ (length (u ++ v) <= 128)%nat).
  { intros u v ->. unfold d'. cbn. rewrite length_insert, length_app. cbn. lia. }
  split.
  - intros Hc. assert (E : pending (mktty (t_ready t) (t_edit t ++ [c])) = pending t ++ [c]) by (unfold pending; cbn; by rewrite app_assoc).
    constructor; rewrite ?E; try done.
    + apply (Hp _ _ E).
    + rewrite <- E. apply (Hp _ _ E).
    + apply Forall_app. split; [done | by constructor].
  - assert (E : pending (mktty (t_ready t ++ t_edit t ++ [c]) []) = pending t ++ [c]) by (unfold pending; cbn; by rewrite app_nil_r, app_assoc).
    constructor; rewrite ?E; try done.
    + apply (Hp _ _ E).
    + rewrite <- E. apply (Hp _ _ E).
    + cbn [cons_w set_cons_w cons_r t_ready]. rewrite He. unfold pending. by rewrite app_assoc.
Qed.

(** ** Keys *)
Section keys.
Context (h : hwstate) (Hok : hart_ok 1 h) (e : list (kstate -> kstate)).

(** [s'] is [s] with the echo sent and the console at [t] *)
Definition keyed (s : kstate) (t : tty) (echo : list Z) (s' : kstate) : Prop :=
  exists h' d', s' = set_k_io d' (set_k_hw h' s) /\ h' ≈h h /\ cons_is d' t /\ uart_ready d' /\
    u_tx d' = u_tx (k_io s) ++ (u8 <$> echo).

Lemma wp_rubout s (Q : unit -> list (kstate -> kstate) -> kstate -> Prop) : k_hw s ≈h h -> uart_ready (k_io s) ->
  (forall h', h' ≈h h -> Q tt e (set_k_io (io_tx rubout (k_io s)) (set_k_hw h' s))) -> wp (consputc BACKSPACE) e s Q.
Proof using Hok.
  intros Hh Hr HQ. unfold consputc. change (BACKSPACE =? BACKSPACE) with true. cbv iota. symmetry in Hh.
  assert (O1 : hart_ok 1 (k_hw s)) by (by eapply hart_ok_eqv). pose proof (hw_crit_eqv (k_hw s)) as E1.
  assert (O2 : hart_ok 1 (hw_crit (k_hw s))) by (eapply hart_ok_eqv; [symmetry; exact E1 | done]).
  assert (O3 : hart_ok 1 (hw_crit (hw_crit (k_hw s)))) by (eapply hart_ok_eqv; [symmetry; apply hw_crit_eqv | done]).
  wp_step. apply wp_uartputc_sync; [done | done |]. wp_step. apply wp_uartputc_sync; [done | by apply io_tx_ready |].
  apply wp_uartputc_sync; [done | by do 2 apply io_tx_ready |]. cbn [k_io set_k_io k_hw set_k_hw]. rewrite !io_tx_app.
  apply (HQ (hw_crit (hw_crit (hw_crit (k_hw s))))). rewrite !hw_crit_eqv. by symmetry.
Qed.

(** erasing the whole line *)
Lemma wp_kill_line fuel t s (Q : unit -> list (kstate -> kstate) -> kstate -> Prop) :
  (length (t_edit t) < fuel)%nat -> k_hw s ≈h h -> uart_ready (k_io s) -> cons_is (k_io s) t ->
  (forall s', keyed s (mktty (t_ready t) []) (mjoin (replicate (length (t_edit t)) rubout)) s' -> Q tt e s') ->
  wp (mloop fuel tt (fun _ =>
    e <- io_get cons_e;;
    w <- io_get cons_w;;
    buf <- io_get cons_buf;;
    if (e =? w) || (default 0 (buf !! Z.to_nat (u32 (e - 1) mod INPUT_BUF_SIZE)) =? 10)
    then ret (inr tt)
    else modify_io (set_cons_e (u32 (e - 1)));; consputc BACKSPACE;; ret (inl tt))) e s Q.
Proof using Hok.
  revert fuel t s Q. induction fuel as [|fuel IH]; intros t s Q Hf Hh Hr Hc HQ; [lia|].
  pose proof Hc as [C1 C2 C3 C4 C5 C6 C7]. cbn [mloop]. unfold io_get, modify_io. wp_steps.
  rewrite C4, C5, counter_eq by (unfold pending in *; rewrite length_app in *; lia).
  destruct (t_edit t) as [|x l0] eqn:El.
  - unfold pending. rewrite El, app_nil_r, Nat.eqb_refl. cbn [orb]. wp_steps. apply HQ.
    exists (k_hw s), (k_io s). split_and!; [by destruct s | done | | done | by rewrite app_nil_r].
    destruct t. cbn in *. by subst.
  - assert (Hne : t_edit t <> []) by (rewrite El; done). rewrite <- El in *. clear x l0 El.
    destruct (length (t_edit t)) as [|k] eqn:Hk; [by destruct (t_edit t)|].
    assert (Hlast : exists c, t_edit t !! k = Some c /\ pending t !! (length (pending t) - 1)%nat = Some c).
    { destruct (lookup_lt_is_Some_2 (t_edit t) k ltac:(lia)) as [c Hcc]. exists c. split; [done|]. unfold pending.
      rewrite length_app, lookup_app_r by lia. rewrite <- Hcc. f_equal. lia. }
    destruct Hlast as (c & Hcc & Hcp). pose proof (C6 _ _ Hcp) as Hbuf.
    assert (Hp : length (pending t) = (length (t_ready t) + S k)%nat) by (unfold pending; rewrite length_app; lia).
    assert (Hix : Z.to_nat (u32 (u32 (cons_r (k_io s) + length (pending t)) - 1) mod INPUT_BUF_SIZE) = ring_ix (k_io s) (length (pending t) - 1)).
    { unfold ring_ix, INPUT_BUF_SIZE. rewrite counter_pred, u32_mod128. do 2 f_equal. lia. }
    rewrite Hix, Hbuf. change (default 0 (Some c)) with c.
    assert (Hc10 : c <> 10) by exact (Forall_lookup_1 _ _ _ _ C7 Hcc).
    replace (length (pending t) =? length (t_ready t))%nat with false by (symmetry; apply Nat.eqb_neq; lia).
    replace (c =? 10) with false by lia. cbn [orb]. wp_steps.
    set (d1 := set_cons_e _ (k_io s)). set (t1 := mktty (t_ready t) (take k (t_edit t))).
    assert (Hc1 : cons_is d1 t1).
    { unfold d1, t1. rewrite <- C5. replace k with (length (t_edit t) - 1)%nat by lia. by apply cons_is_drop. }
    eapply (wp_rubout (set_k_io d1 s)); [done | done |]. intros h' Hh'. wp_steps.
    eapply (IH t1).
    + unfold t1. cbn. rewrite length_take. lia.
    + done.
    + by apply io_tx_ready.
    + eapply cons_is_same; [apply same_cons_tx | exact Hc1].
    + intros s' (h2 & d2 & -> & Hh2 & Hc2 & Hr2 & Ht2). apply HQ. exists h2, d2. split_and!; try done.
      rewrite Ht2. cbn [k_io set_k_io set_k_hw io_tx u_tx set_u_tx]. unfold t1. cbn [t_edit].
      rewrite length_take, Nat.min_l by lia. change (replicate (S k) rubout) with (rubout :: replicate k rubout).
      change (mjoin (rubout :: ?l)) with (rubout ++ mjoin l). by rewrite fmap_app, app_assoc.
Qed.
End keys.

Lemma wp_unlock_cons (s s1 : kstate) e (Q : unit -> list (kstate -> kstate) -> kstate -> Prop) :
  hart_ok 2 (k_hw s) -> lock_free (k_hw s) LCons -> k_hw s1 ≈h hw_acq LCons (k_hw s) ->
  Q tt e (set_k_hw (hw_crit (k_hw s)) s1) -> wp (release LCons) e s1 Q.
Proof.
  intros Hok Hlk Hh HQ. eapply (wp_release_acq LCons (k_hw s) 2); [lia | done | done | | exact HQ].
  apply hw_eqv_eq; [done | by eapply depth_acq].
Qed.
(** the input interrupt with the lock held *)
Section interrupt.
Context (s : kstate) (t : tty) (e : list (kstate -> kstate)) (me : option nat) (ls : list (list nat)).
Context (Hok : hart_ok 2 (k_hw s)) (Hlk : lock_free (k_hw s) LCons) (Hr : uart_ready (k_io s)) (Hc : cons_is (k_io s) t).
Context (Hme : c_proc <$> cur_cpu (k_hw s) = Some me) (Hpl : proc_locks_free (k_hw s) me) (Hinv : sched_inv (k_ps s) ls).

(** what a key leaves: the console, the echo, and who is woken *)
Definition key_done (t' : tty) (echo : list Z) (s' : kstate) : Prop :=
  k_hw s' ≈h k_hw s /\ k_mm s' = k_mm s /\ k_fs s' = k_fs s /\ cons_is (k_io s') t' /\ uart_ready (k_io s') /\
  u_tx (k_io s') = u_tx (k_io s) ++ (u8 <$> echo) /\
  (exists ls', sched_inv (k_ps s') ls') /\
  ps_proc (k_ps s') = if decide (t_ready t' = t_ready t) then ps_proc (k_ps s)
                      else imap (wake_proc CConsR me) (ps_proc (k_ps s)).
Let h1 := hw_acq LCons (k_hw s).
Lemma hart_h1 : hart_ok 1 h1.
Proof using Hok Hlk. replace 1 with (2 - 1) by lia. by apply hart_ok_acq. Qed.

(** nothing happens but on the console *)
Lemma key_quiet t' echo s1 (Q : unit -> list (kstate -> kstate) -> kstate -> Prop) :
  keyed h1 (set_k_hw h1 s) t' echo s1 -> t_ready t' = t_ready t ->
  (forall s', key_done t' echo s' -> Q tt e s') -> wp (release LCons) e s1 Q.
Proof using Hok Hlk Hinv.
  intros (h' & d' & -> & Hh & Hc' & Hr' & Htx) Ht HQ. eapply (wp_unlock_cons s); [done | done | exact Hh |]. apply HQ.
  split_and!; try done; [cbn; apply hw_crit_eqv | by exists ls |]. by rewrite decide_True.
Qed.

(** a key that is entered *)
Lemma wp_enter_key c (Q : unit -> list (kstate -> kstate) -> kstate -> Prop) :
  0 < c < 256 -> (length (pending t) < 128)%nat ->
  let c' := if c =? 13 then 10 else c in
  let t' := if (c' =? 10) || (c' =? ctrl_D) || (length (pending t) =? 127)%nat then mktty (t_ready t ++ t_edit t ++ [c']) []
            else mktty (t_ready t) (t_edit t ++ [c']) in
  (forall s', key_done t' [c'] s' -> Q tt e s') ->
  wp (consputc c';;
      e <- io_get cons_e;;
      modify_io (fun d => set_cons_buf (<[Z.to_nat (e mod INPUT_BUF_SIZE) := u8 c']> (cons_buf d)) d);;
      modify_io (set_cons_e (u32 (e + 1)));;
      e <- io_get cons_e;;
      r <- io_get cons_r;;
      when ((c' =? 10) || (c' =? ctrl_D) || (u32 (e - r) =? INPUT_BUF_SIZE))
        (modify_io (set_cons_w e);; wakeup CConsR)) e (set_k_hw h1 s) (fun _ e' s' => wp (release LCons) e' s' Q).
Proof using All.
  intros Hcr Hroom c' t' HQ. assert (Hc' : 0 < c' < 256) by (unfold c'; destruct (c =? 13); lia).
  pose proof hart_h1 as Hh1. assert (E1 : hw_crit h1 = h1) by (apply hw_eqv_eq; [apply hw_crit_eqv | by eapply depth_acq]).
  wp_step. unfold consputc. replace (c' =? BACKSPACE) with false by (unfold BACKSPACE; lia).
  apply wp_uartputc_sync; [exact Hh1 | exact Hr |]. cbn [k_hw set_k_hw k_io]. rewrite E1. unfold io_get, modify_io.
  set (d1 := io_tx [c'] (k_io s)). assert (C1 : cons_is d1 t) by (eapply cons_is_same; [apply same_cons_tx | exact Hc]).
  assert (Eu : u8 c' = c') by (unfold u8; apply Z.mod_small; lia). rewrite Eu. wp_steps. cbn [k_io set_k_io].
  set (d2 := set_cons_e _ _). destruct (cons_is_push d1 t c' C1 Hroom) as [P1 P2].
  change (set_cons_e (u32 (cons_e d1 + 1)) (set_cons_buf (<[Z.to_nat (cons_e d1 mod INPUT_BUF_SIZE):=c']> (cons_buf d1)) d1)) with d2 in P1, P2.
  assert (Er : cons_r d2 = cons_r d1) by done.
  assert (Ee : u32 (cons_e d2 - cons_r d2) = Z.of_nat (length (pending t)) + 1).
  { change (cons_e d2) with (u32 (cons_e d1 + 1)). rewrite Er, (ci_e _ _ C1), counter_add. rewrite <- Z.add_assoc.
    apply counter_sub; [apply (ci_r _ _ C1) | lia]. }
  rewrite Ee. replace (Z.of_nat (length (pending t)) + 1 =? INPUT_BUF_SIZE) with (length (pending t) =? 127)%nat
    by (unfold INPUT_BUF_SIZE; destruct (Nat.eqb_spec (length (pending t)) 127); symmetry; [apply Z.eqb_eq | apply Z.eqb_neq]; lia).
  set (commit := (c' =? 10) || (c' =? ctrl_D) || (length (pending t) =? 127)%nat) in *. apply wp_when; intros Hcm.
  - assert (Et : t' = mktty (t_ready t ++ t_edit t ++ [c']) []) by (unfold t'; by rewrite Hcm). wp_steps.
    match goal with |- wp _ _ ?x _ => set (s2 := x) end.
    destruct (cur_cpu (k_hw s)) as [cp|] eqn:Ecp; [|done]. injection Hme as Hme'.
    destruct (hw_acq_cpu (k_hw s) LCons 2 Hok Hlk) as (cp' & Ecp' & Ecp2 & _). rewrite Ecp in Ecp'. injection Ecp' as <-.
    eapply (wp_wakeup CConsR me ls s2 e (cpu_push (sie (k_hw s)) cp)); [exact Hh1 | exact Ecp2 | | | exact Hinv |].
    + rewrite <- Hme'. unfold cpu_push. by destruct (c_noff cp =? 0).
    + intros j Hj Hne. destruct (Hpl j Hj Hne) as [nm Hn]. exists nm. cbn. unfold h1. by rewrite (hw_acq_other _ _ Hlk).
    + intros s3 ((Hh & Hmm & Hio & Hfs) & Hmisc & Htab & ls' & Hinv' & _).
      eapply (wp_unlock_cons s); [done | done | exact Hh |]. apply HQ. rewrite Et.
      unfold key_done. cbn [k_hw set_k_hw k_mm k_fs k_io k_ps]. rewrite Hmm, Hfs, Hio. split_and!; try done.
      * apply hw_crit_eqv.
      * by exists ls'.
      * rewrite decide_False; [|cbn; intros E; apply (f_equal length) in E; rewrite !length_app in E; cbn in E; lia].
        rewrite Htab. rewrite <- (qo_nproc _ _ (proj1 Hinv)) at 1. apply woken_table_all.
  - assert (Et : t' = mktty (t_ready t) (t_edit t ++ [c'])) by (unfold t'; by rewrite Hcm).
    eapply (key_quiet t' [c']); [|by rewrite Et | exact HQ]. exists h1, d2. split_and!; try done.
    rewrite Et. apply P1. intros E10. unfold commit in Hcm. rewrite E10 in Hcm. done.
Qed.

Lemma wp_consoleintr c (Q : unit -> list (kstate -> kstate) -> kstate -> Prop) :
  0 <= c < 256 -> c <> ctrl_P -> (forall s', key_done (typed c t).1 (typed c t).2 s' -> Q tt e s') -> wp (consoleintr c) e s Q.
Proof using All.
  intros Hb Hp HQ. pose proof hart_h1 as Hh1. unfold consoleintr. wp_step.
  apply wp_acquire; [by eapply hart_ok_weaken; [|done]; lia | done |]. fold h1. wp_step.
  replace (c =? ctrl_P) with false by lia. unfold typed in HQ. pose proof Hc as [C1 C2 C3 C4 C5 C6 C7].
  assert (Hlen : (length (t_ready t) <= length (pending t))%nat) by (unfold pending; rewrite length_app; lia).
  destruct (c =? ctrl_U).
  { unfold kill_line, io_get at 1 2. wp_steps. change (k_io (set_k_hw h1 s)) with (k_io s).
    assert (Ef : u32 (cons_e (k_io s) - cons_w (k_io s)) = Z.of_nat (length (t_edit t))).
    { rewrite C4, C5. unfold pending in *. rewrite length_app in *. unfold u32. rewrite <- Zminus_mod.
      replace (_ - _) with (Z.of_nat (length (t_edit t))) by lia. apply Z.mod_small. lia. }
    rewrite Ef. eapply (wp_kill_line h1 Hh1 e _ t (set_k_hw h1 s)); [lia | done | done | done |].
    intros s1 Hk. by eapply key_quiet. }
  destruct ((c =? ctrl_H) || (c =? 127)).
  { unfold io_get. wp_steps. change (k_io (set_k_hw h1 s)) with (k_io s). rewrite C4, C5, counter_eq by lia. destruct (t_edit t) as [|x l0] eqn:El.
    - unfold pending. rewrite El, app_nil_r, Nat.eqb_refl. cbn [negb]. unfold when. wp_steps.
      eapply (key_quiet t []); [|done | exact HQ]. exists h1, (k_io s). split_and!; try done; by rewrite app_nil_r.
    - replace (length (pending t) =? length (t_ready t))%nat with false
        by (symmetry; apply Nat.eqb_neq; unfold pending; rewrite length_app, El; cbn; lia).
      cbn [negb]. apply wp_when; [intros _ | done]. unfold modify_io. wp_steps.
      assert (Hne : t_edit t <> []) by (by rewrite El). pose proof (cons_is_drop _ _ Hc Hne) as Hd. rewrite C5, El in Hd.
      set (d1 := set_cons_e _ _) in *. eapply (wp_rubout h1 Hh1 e (set_k_io d1 (set_k_hw h1 s))); [done | done |]. intros h' Hh'.
      cbn [fst snd] in HQ. eapply key_quiet; [| |exact HQ]; [|done]. exists h', (io_tx rubout d1). split_and!; try done.
      eapply cons_is_same; [apply same_cons_tx | exact Hd]. }
  unfold io_get at 1 2. wp_steps. change (k_io (set_k_hw h1 s)) with (k_io s). rewrite C5, counter_sub by lia.
  destruct ((c =? 0) || (128 <=? length (pending t))%nat) eqn:Eoff.
  { replace (istrue c && (Z.of_nat (length (pending t)) <? INPUT_BUF_SIZE)) with false.
    2:{ symmetry. unfold istrue, INPUT_BUF_SIZE. apply orb_true_iff in Eoff as [E%Z.eqb_eq|E%Nat.leb_le]; [by rewrite E|].
        replace (Z.of_nat (length (pending t)) <? 128) with false by lia. by rewrite andb_false_r. }
    unfold when. wp_steps. eapply (key_quiet t []); [|done | exact HQ]. exists h1, (k_io s). split_and!; try done; by rewrite app_nil_r. }
  apply orb_false_iff in Eoff as [Eoff1 Eoff2%Nat.leb_gt].
  replace (istrue c && (Z.of_nat (length (pending t)) <? INPUT_BUF_SIZE)) with true
    by (unfold istrue, INPUT_BUF_SIZE; rewrite Eoff1; symmetry; apply Z.ltb_lt; lia).
  unfold when at 1. eapply wp_enter_key; [lia | done |]. intros s' Hk. by apply HQ.
Qed.
End interrupt.

(** ** Reading *)

(** what a read of [n] bytes takes, [None] when it has to wait: up to a newline, which is
    included, or to an end-of-file mark, which is taken only by a read that has no
    byte yet *)
Fixpoint read_line (n : nat) (first : bool) (ready : list Z) : option (list Z * list Z) :=
  match n, ready with
  | O, _ => Some ([], ready)
  | S _, [] => None
  | S n', c :: rest =>
      if c =? ctrl_D then Some ([], if first then rest else ready)
      else if c =? 10 then Some ([c], rest)
      else '(out, rest') ← read_line n' false rest; Some (c :: out, rest')
  end.

Lemma read_line_length n : forall first ready out rest, read_line n first ready = Some (out, rest) -> (length out <= n)%nat.
Proof.
  induction n as [|n IH]; intros first ready out rest; [by intros [= <- <-]|]. destruct ready as [|c ready]; [done|]. cbn [read_line].
  destruct (c =? ctrl_D); [intros [= <- <-]; cbn; lia|]. destruct (c =? 10); [intros [= <- <-]; cbn; lia|].
  destruct (read_line n false ready) as [[o r]|] eqn:E; [|done]. intros [= <- <-]. cbn. apply IH in E. lia.
Qed.
Lemma cons_is_pop d t c rest : cons_is d t -> t_ready t = c :: rest ->
  cons_buf d !! Z.to_nat (cons_r d mod INPUT_BUF_SIZE) = Some c /\ cons_r d <> cons_w d /\
  cons_is (set_cons_r (u32 (cons_r d + 1)) d) (mktty rest (t_edit t)).
Proof.
  intros [H1 H2 H3 H4 H5 H6 H7] Er. unfold pending in *. rewrite Er in *. cbn [length app] in *. split; [|split].
  - pose proof (H6 0%nat c eq_refl) as H. unfold ring_ix in H. by rewrite Z.add_0_r in H.
  - rewrite H4. intros E. pose proof (counter_eq (cons_r d) 0 (S (length rest)) ltac:(lia) ltac:(rewrite length_app in H2; lia)) as Hne.
    rewrite Z.add_0_r, (u32_small (cons_r d)), <- E, Z.eqb_refl in Hne by lia. done.
  - constructor; cbn [cons_buf cons_r cons_w cons_e set_cons_r t_ready t_edit]; unfold pending; cbn [t_ready t_edit]; try done.
    + lia.
    + apply u32_range.
    + rewrite H4, counter_add. f_equal. lia.
    + rewrite H5, counter_add. f_equal. lia.
    + intros i x Hi. pose proof (H6 (S i) x Hi) as H. rewrite <- H. f_equal. unfold ring_ix. cbn [cons_r set_cons_r]. f_equal.
      rewrite <- (u32_mod128 (u32 _ + _)), counter_add, u32_mod128. f_equal. lia.
Qed.

Lemma uspace_sub b pt lo hi pa lo' hi' : uspace b pt lo hi pa -> lo <= lo' -> hi' <= hi -> uspace b pt lo' hi' pa.
Proof.
  intros [H1 H2 H3 H4 H5] Hl Hh. assert (Hs : forall v, upage lo' hi' v -> upage lo hi v) by (intros v (va & ? & ?); exists va; split; [lia | done]).
  constructor; [lia | auto | auto | |]; eauto.
Qed.
(** one byte more *)
Lemma copied_one b0 pt lo pa (len : nat) src k b b' c : uspace b0 pt lo (lo + len) pa -> (k < len)%nat -> src !! k = Some c ->
  copied b0 pa lo src k b -> copied b pa (lo + k) [c] 1 b' -> copied b0 pa lo src (S k) b'.
Proof.
  intros Hu Hk Hc [A1 A2] [B1 B2]. split.
  - intros i Hi. destruct (decide (i = k)) as [->|Hne].
    + pose proof (B1 0%nat ltac:(lia)) as B. rewrite Z.add_0_r in B. rewrite B, Hc. done.
    + rewrite B2; [apply A1; lia|]. intros j Hj E. assert (j = 0%nat) as -> by lia. rewrite Z.add_0_r in E.
      apply (phys_inj _ _ _ _ _ Hu) in E; lia.
  - intros a Ha. rewrite B2; [apply A2; intros i Hi; apply Ha; lia|]. intros j Hj. assert (j = 0%nat) as -> by lia.
    rewrite Z.add_0_r. apply Ha. lia.
Qed.

Section reading.
Context (i : nat) (p : proc) (va : Z) (n : nat) (pa : Z -> Z) (e : list (kstate -> kstate)) (s : kstate) (t : tty) (out rest : list Z).
Let b0 := m_bytes (k_mm s).
Context (Hok : hart_ok 2 (k_hw s)) (Hlk : lock_free (k_hw s) LCons) (Hcur : cur_is (k_hw s) i) (Hp : ps_proc (k_ps s) !! i = Some p).
Context (Hc : cons_is (k_io s) t) (Hu : uspace b0 (p_pagetable p) va (va + n) pa) (Hn : Z.of_nat n < 2 ^ 31).
Context (Hread : read_line n true (t_ready t) = Some (out, rest)).
Let h1 := hw_acq LCons (k_hw s).

(** after [k] bytes *)
Definition read_inv (x : kdst * Z) (e' : list (kstate -> kstate)) (s' : kstate) : Prop :=
  e' = e /\ exists k b d tl, (k <= n)%nat /\ x = (ToUser (va + k), Z.of_nat n - k) /\ s' = set_k_io d (with_bytes b (set_k_hw h1 s)) /\
    copied b0 pa va out k b /\ cons_is d (mktty tl (t_edit t)) /\ (k <= length out)%nat /\
    read_line (n - k) (k =? 0)%nat tl = Some (drop k out, rest).

Lemma wp_consoleread (Q : Z -> list (kstate -> kstate) -> kstate -> Prop) :
  (forall b d, copied b0 pa va out (length out) b -> cons_is d (mktty rest (t_edit t)) ->
     Q (Z.of_nat (length out)) e (set_k_io d (with_bytes b (set_k_hw (hw_crit (k_hw s)) s)))) ->
  wp (consoleread (ToUser va) n) e s Q.
Proof using All.
  intros HQ. assert (Hh1 : hart_ok 1 h1) by (replace 1 with (2 - 1) by lia; by apply hart_ok_acq).
  assert (E1 : hw_crit h1 = h1) by (apply hw_eqv_eq; [apply hw_crit_eqv | exact (depth_acq _ _ _ Hok Hlk)]).
  assert (Hcur1 : cur_is h1 i).
  { unfold cur_is, h1 in *. destruct (hw_acq_cpu (k_hw s) LCons 2 Hok Hlk) as (cp & Ecp & -> & _). rewrite Ecp in Hcur.
    cbn in *. rewrite <- Hcur. unfold cpu_push. by destruct (c_noff cp =? 0). }
  unfold consoleread. wp_step. apply wp_acquire; [by eapply hart_ok_weaken; [|done]; lia | done |]. fold h1. wp_step.
  apply (wp_mloop _ read_inv (fun x => Z.to_nat x.2)); [cbn; lia | |].
  { split; [done|]. exists 0%nat, b0, (k_io s), (t_ready t). split_and!; try done; try lia.
    - f_equal; [f_equal; lia | lia].
    - unfold with_bytes, b0. by destruct s as [? ? [] ? ?].
    - split; [intros j Hj; lia | done].
    - by destruct t.
    - by rewrite Nat.sub_0_r, drop_0. }
  intros x e' s' (-> & k & b & d & tl & Hk & -> & -> & Hcp & Hcd & Hko & Hrl).
  assert (Hfin : forall m v b1 d', m = length out -> v = Z.of_nat n - Z.of_nat m -> copied b0 pa va out m b1 -> cons_is d' (mktty rest (t_edit t)) ->
    wp (release LCons) e (set_k_io d' (with_bytes b1 (set_k_hw h1 s))) (fun _ e' s' => wp (ret (s32 (Z.of_nat n - v))) e' s' Q)).
  { intros m v b1 d' -> -> Hcp' Hcd'. eapply (wp_unlock_cons s); [done | done | done |]. wp_step.
    replace (Z.of_nat n - (Z.of_nat n - Z.of_nat (length out))) with (Z.of_nat (length out)) by lia.
    pose proof (read_line_length _ _ _ _ _ Hread). rewrite s32_small by lia. by apply HQ. }
  destruct (Z.leb_spec (Z.of_nat n - Z.of_nat k) 0) as [Hz|Hz].
  { replace (n - k)%nat with 0%nat in Hrl by lia. injection Hrl as Hd Hr. wp_steps.
    apply (Hfin k _ b); [|done | done | by rewrite <- Hr]. symmetry in Hd. apply (f_equal length) in Hd. rewrite length_drop in Hd. cbn in Hd. lia. }
  destruct (n - k)%nat as [|m] eqn:Em; [lia|]. destruct tl as [|c tl']; [done|]. cbn [read_line] in Hrl.
  destruct (cons_is_pop d _ c tl' Hcd eq_refl) as (Hbuf & Hrw & Hpop). cbn [t_edit] in Hpop. set (d1 := set_cons_r _ d) in *.
  wp_step. apply wp_sleep_loop_now. unfold io_get. wp_steps. cbn [k_io set_k_io].
  replace (cons_r d =? cons_w d) with false by lia. cbn [negb]. wp_step. eexists. split; [done|]. cbv iota.
  wp_step. unfold cons_next, io_get, modify_io. wp_steps. cbn [k_io set_k_io]. rewrite Hbuf. change (default 0 (Some c)) with c.
  fold d1. cbn [k_io set_k_io]. destruct (c =? ctrl_D) eqn:Ecd.
  - assert (Hout : length out = k /\ rest = if (k =? 0)%nat then tl' else c :: tl').
    { injection Hrl as Hd <-. split; [|done]. apply (f_equal length) in Hd. rewrite length_drop in Hd. cbn in Hd. lia. }
    destruct Hout as [Hout ->]. rewrite (u32_small (Z.of_nat n)) by lia. wp_step. apply wp_when; intros Hlt.
    + unfold modify_io. wp_steps. apply (Hfin k _ b); [done | done | done |].
      replace (k =? 0)%nat with false by (symmetry; apply Nat.eqb_neq; lia). cbn [k_io set_k_io].
      replace (set_cons_r (u32 (cons_r d1 - 1)) d1) with d; [done|].
      unfold d1. cbn [cons_r set_cons_r]. rewrite counter_pred. pose proof (ci_r _ _ Hcd). replace (cons_r d + 1 - 1) with (cons_r d) by lia.
      rewrite u32_small by lia. by destruct d.
    + wp_steps. apply (Hfin k _ b); [done | done | done |]. replace (k =? 0)%nat with true by (symmetry; apply Nat.eqb_eq; lia). done.
  - assert (Hck : out !! k = Some c /\ (k < length out)%nat /\ exists o' r', drop (S k) out = o' /\ rest = r' /\
      if c =? 10 then o' = [] /\ r' = tl' else read_line m false tl' = Some (o', r')).
    { assert (Hd : exists o', drop k out = c :: o' /\ if c =? 10 then o' = [] /\ rest = tl' else read_line m false tl' = Some (o', rest)).
      { destruct (c =? 10); [injection Hrl as <- <-; by eauto|]. destruct (read_line m false tl') as [[o r]|]; [|done].
        injection Hrl as <- <-. by eauto. }
      destruct Hd as (o' & Hd & Hcase). assert (Hk' : out !! k = Some c) by (rewrite <- (Nat.add_0_r k), <- lookup_drop, Hd; done).
      split_and!; [done | by eapply lookup_lt_Some |]. exists o', rest. split_and!; try done.
      rewrite <- Nat.add_1_r, <- drop_drop, Hd. done. }
    destruct Hck as (Hck & Hklt & o' & r' & Ho' & -> & Hcase).
    assert (Hub : uspace b (p_pagetable p) va (va + n) pa).
    { apply (uspace_frame _ _ _ _ _ Hu). eapply (copied_user_only b0 va pa n out k); [lia | exact Hcp]. }
    wp_step. unfold either_copyout. wp_step. eapply wp_curproc; [exact Hh1 | exact Hcur1 |]. wp_step. eapply wp_pget; [exact Hp|].
    cbn [k_hw set_k_io with_bytes set_k_hw set_k_mm]. rewrite E1.
    match goal with |- wp _ _ ?x _ => set (s2 := x) end.
    assert (Eb : m_bytes (k_mm s2) = b) by done.
    eapply (wp_copyout (p_pagetable p) (va + k) pa [c] e s2).
    { rewrite Eb. eapply uspace_sub; [exact Hub | lia | cbn; lia]. }
    intros b' Hcp'. rewrite Eb in Hcp'. change (0 =? -1) with false. cbv iota.
    assert (Hcp2 : copied b0 pa va out (S k) b') by (eapply copied_one; [exact Hu | lia | exact Hck | exact Hcp | exact Hcp']).
    destruct (c =? 10).
    + destruct Hcase as [-> ->]. wp_steps. apply (Hfin (S k) _ b' d1); [|lia | exact Hcp2 | exact Hpop].
      apply (f_equal length) in Ho'. rewrite length_drop in Ho'. cbn in Ho'. lia.
    + destruct Hu as [[U1 U2] _ _ _ _]. wp_step. split; [cbn; lia|]. split; [done|].
      exists (S k), b', d1, tl'. split_and!; try done; try lia.
      * cbn [kdst_add]. change MAXVA with (2 ^ 38) in U2. rewrite u64_small by lia. apply f_equal2; [f_equal; lia | lia].
      * replace (n - S k)%nat with m by lia. change (S k =? 0)%nat with false. by rewrite Ho', H.
Qed.
End reading.

(** ** The console's contract *)

(** C20: The console edits lines as it promises.  With the console buffer seen as a queue
    of bytes ready to be read and the line being edited, a key (any byte but Ctrl-P)
    changes the two as [typed] says: Ctrl-U erases the line, Ctrl-H and DEL its last
    byte, any other key is added to it (CR as NL) unless the 128 bytes are taken, and a
    newline, Ctrl-D or a full buffer makes the line ready.  What is echoed is sent to
    the UART, the processes asleep on the console are woken exactly when a line becomes
    ready, and nothing else changes. *)
Theorem consoleintr_edits s t e me ls c :
  hart_ok 2 (k_hw s) -> lock_free (k_hw s) LCons -> uart_ready (k_io s) -> cons_is (k_io s) t ->
  c_proc <$> cur_cpu (k_hw s) = Some me -> proc_locks_free (k_hw s) me -> sched_inv (k_ps s) ls ->
  0 <= c < 256 -> c <> ctrl_P ->
  exists s', consoleintr c e s = Ret tt e s' /\ key_done s t me (typed c t).1 (typed c t).2 s'.
Proof.
  intros. apply wp_run_tt. by eapply wp_consoleintr.
Qed.

(** C21: A console read takes what [read_line] says of the bytes that are ready and no
    more: at most [n], up to and with the first newline, or up to an end-of-file mark,
    which is consumed only by a read that has nothing to return before it.  The bytes
    reach the caller's memory at the address it gave, in order, the count is returned,
    the line being edited is left alone, and only console state and user memory change. *)
Theorem consoleread_line i p va n pa e s t out rest :
  hart_ok 2 (k_hw s) -> lock_free (k_hw s) LCons -> cur_is (k_hw s) i -> ps_proc (k_ps s) !! i = Some p ->
  cons_is (k_io s) t -> uspace (m_bytes (k_mm s)) (p_pagetable p) va (va + Z.of_nat n) pa -> Z.of_nat n < 2 ^ 31 ->
  read_line n true (t_ready t) = Some (out, rest) ->
  exists b d, consoleread (ToUser va) (Z.of_nat n) e s =
      Ret (Z.of_nat (length out)) e (set_k_io d (with_bytes b (set_k_hw (hw_crit (k_hw s)) s))) /\
    copied (m_bytes (k_mm s)) pa va out (length out) b /\ cons_is d (mktty rest (t_edit t)).
Proof.
  intros H1 H2 H3 H4 H5 H6 H7 H8.
  assert (wp (consoleread (ToUser va) (Z.of_nat n)) e s (fun r e' s' => e' = e /\ exists b d, r = Z.of_nat (length out) /\
    s' = set_k_io d (with_bytes b (set_k_hw (hw_crit (k_hw s)) s)) /\
    copied (m_bytes (k_mm s)) pa va out (length out) b /\ cons_is d (mktty rest (t_edit t)))) as H.
  { eapply wp_consoleread; eauto 10. }
  apply wp_run in H as (r & s' & E & b & d & -> & -> & Hc & Hd). eauto.
Qed.

(** the counters about to wrap around, "hi" and a newline ready, an end of file, "x" being edited *)
Definition tty_keys : list Z := [104; 105; 10; 4].
Definition tty_io : io :=
  set_cons_e 3 (set_cons_w 2 (set_cons_r (2 ^ 32 - 2) (set_cons_buf ([10; 4; 120] ++ replicate 123 0 ++ [104; 105]) io0))).
Definition tty_demo : kstate :=
  set_k_io tty_io (set_k_mm (set_m_bytes two_pages mm0)
    (set_k_ps (set_ps_proc (alter (set_p_pagetable 0x80030000) 0%nat demo_table) ps1) demo)).
Lemma tty_demo_cons : cons_is tty_io (mktty tty_keys [120]).
Proof.
  constructor; try done; cbn; try lia.
  - intros i c Hi. do 5 (destruct i as [|i]; [injection Hi as <-; reflexivity|]). done.
  - by repeat constructor.
Qed.

(** Ctrl-D after "x": the line is ready, and the process that reads is woken *)
Lemma consoleintr_edits_witness :
  exists s', consoleintr ctrl_D [] tty_demo = Ret tt [] s' /\
    key_done tty_demo (mktty tty_keys [120]) (Some 0%nat) (mktty (tty_keys ++ [120; 4]) []) [4] s'.
Proof.
  apply (consoleintr_edits tty_demo (mktty tty_keys [120]) [] (Some 0%nat) demo_queues ctrl_D).
  - by apply hw1_hart.
  - by apply hw1_lock.
  - done.
  - apply tty_demo_cons.
  - reflexivity.
  - intros i Hi _. destruct (boot_proc_locks None i Hi) as [n Hn]; [done|]. by exists n.
  - apply sched_invb_sound. vm_compute. reflexivity.
  - done.
  - done.
Defined.

(** a read of four bytes gets "hi" and the newline, over a page boundary *)
Lemma consoleread_line_witness :
  exists b d, consoleread (ToUser 0xffe) 4 [] tty_demo = Ret 3 [] (set_k_io d (with_bytes b (set_k_hw (hw_crit hw1) tty_demo))) /\
    copied two_pages two_pa 0xffe [104; 105; 10] 3 b /\ cons_is d (mktty [4] [120]).
Proof.
  apply (consoleread_line 0 (set_p_pagetable 0x80030000 (demo_proc 0 RUNNING CNull 1 0 None)) 0xffe 4 two_pa [] tty_demo
    (mktty tty_keys [120]) [104; 105; 10] [4]); try done.
  - by apply hw1_hart.
  - by apply hw1_lock.
  - apply tty_demo_cons.
  - apply two_pages_uspace.
Defined.
