(* ===== verification/Pipe.v ===== *)
(** Pipes (pipe.c).  A pipe lives in a page of its own: the 512-byte ring
    buffer and the counters are at the offsets struct pipe gives them; its spin
    lock is [LPipe pi].  [pipealloc] is with the file table (File). *)
From S2P Require Import Prelude State Spinlock Queue Boot Cstring Kalloc Vm Proc Copyio.

Definition PIPESIZE : Z := 512.
(** offsets in struct pipe *)
Definition pi_data : Z := 24.
Definition pi_nread : Z := 536.
Definition pi_nwrite : Z := 540.
Definition pi_readopen : Z := 544.
Definition pi_writeopen : Z := 548.

Definition load32 (a : Z) : K Z :=
  if in_ram a 4 then gets (fun s => ld32 (m_bytes (k_mm s)) a) else fault "load".
Definition store32 (a v : Z) : K unit :=
  if in_ram a 4 then modify_bytes (fun b => st32 b a v) else fault "store".
Definition load8 (a : Z) : K Z :=
  if in_ram a 1 then gets (fun s => ldb (m_bytes (k_mm s)) a) else fault "load".
Definition store8 (a v : Z) : K unit :=
  if in_ram a 1 then modify_bytes (fun b => stb b a v) else fault "store".

(** ** pipe.c *)
Definition pipeclose (pi : Z) (writable : bool) : K unit :=
  acquire (LPipe pi);;
  (if writable then store32 (pi + pi_writeopen) 0;; wakeup (CPipeR pi)
   else store32 (pi + pi_readopen) 0;; wakeup (CPipeW pi));;
  r <- load32 (pi + pi_readopen);;
  w <- load32 (pi + pi_writeopen);;
  if (r =? 0) && (w =? 0) then release (LPipe pi);; kfree pi
  else release (LPipe pi).

(** [pi->data[pi->nwrite++ % PIPESIZE] = ch] *)
Definition pipe_put (pi ch : Z) : K unit :=
  nw <- load32 (pi + pi_nwrite);;
  store32 (pi + pi_nwrite) (u32 (nw + 1));;
  store8 (pi + pi_data + nw mod PIPESIZE) ch.
(** [ch = pi->data[pi->nread++ % PIPESIZE]] *)
Definition pipe_get (pi : Z) : K Z :=
  nr <- load32 (pi + pi_nread);;
  store32 (pi + pi_nread) (u32 (nr + 1));;
  load8 (pi + pi_data + nr mod PIPESIZE).

(** [None]: the reader is gone or the writer was killed *)
Definition pipewrite (pi addr n : Z) : K Z :=
  pr <- curproc;;
  acquire (LPipe pi);;
  r <- sleep_loop (S (Z.to_nat n)) 0 (fun i =>
    if n <=? i then ret (inr (Some i)) else
    ro <- load32 (pi + pi_readopen);;
    dead <- (if ro =? 0 then ret true else k <- killed pr;; ret (istrue k));;
    if (dead : bool) then release (LPipe pi);; ret (inr None) else
    nw <- load32 (pi + pi_nwrite);;
    nr <- load32 (pi + pi_nread);;
    if nw =? u32 (nr + PIPESIZE) then
      wakeup (CPipeR pi);;
      sleep (CPipeW pi) (LPipe pi);;
      ret (inl i)
    else
      pt <- pget pr p_pagetable;;
      x <- copyin pt (u64 (addr + i)) 1;;
      if x.1 =? -1 then ret (inr (Some i)) else
      pipe_put pi (default 0 (head x.2));;
      ret (inl (i + 1)));;
  match r with
  | None => ret (-1)
  | Some i => wakeup (CPipeR pi);; release (LPipe pi);; ret i
  end.

Definition piperead (pi addr n : Z) : K Z :=
  pr <- curproc;;
  acquire (LPipe pi);;
  dead <- sleep_loop 0 tt (fun _ =>
    nr <- load32 (pi + pi_nread);;
    nw <- load32 (pi + pi_nwrite);;
    wo <- load32 (pi + pi_writeopen);;
    if negb ((nr =? nw) && istrue wo) then ret (inr false) else
    k <- killed pr;;
    if istrue k then release (LPipe pi);; ret (inr true) else
    sleep (CPipeR pi) (LPipe pi);;
    ret (inl tt));;
  if (dead : bool) then ret (-1) else
  r <- mfold (seq 0 (Z.to_nat n)) 0 (fun i _ =>
    nr <- load32 (pi + pi_nread);;
    nw <- load32 (pi + pi_nwrite);;
    if nr =? nw then ret (inr i) else
    ch <- pipe_get pi;;
    pt <- pget pr p_pagetable;;
    x <- copyout pt (u64 (addr + i)) [ch];;
    if x =? -1 then ret (inr i) else
    ret (inl (i + 1)));;
  wakeup (CPipeW pi);;
  release (LPipe pi);;
  ret (match r with inl i => i | inr i => i end).

(** ** The ring buffer as a queue of bytes *)
Section ring.
Context (pi : Z).
Context (Hram : in_ram pi PGSIZE = true).

(** the pipe holds the bytes [l], oldest first; the counters may have wrapped *)
Definition pipe_is (b : gmap Z Z) (l : list Z) : Prop :=
  let nr := ld32 b (pi + pi_nread) in
  (length l <= Z.to_nat PIPESIZE)%nat /\
  ld32 b (pi + pi_nwrite) = u32 (nr + length l) /\
  forall i c, l !! i = Some c -> ldb b (pi + pi_data + (nr + Z.of_nat i) mod PIPESIZE) = c.

Lemma pipe_ram o n : 0 <= o -> 0 <= n -> o + n <= PGSIZE -> in_ram (pi + o) n = true.
Proof using Hram.
  intros. unfold in_ram in *. apply andb_true_iff in Hram as [?%Z.leb_le ?%Z.leb_le].
  apply andb_true_iff. lia.
Qed.
Lemma ld32_st32 m a v : 0 <= v < 2 ^ 32 -> ld32 (st32 m a v) a = v.
Proof. intros H. unfold ld32, st32. rewrite ldn_stn. by apply Z.mod_small. Qed.
Lemma ld32_frame m m' a : (forall o, 0 <= o < 4 -> ldb m' (a + o) = ldb m (a + o)) -> ld32 m' a = ld32 m a.
Proof. intros H. unfold ld32. apply (ldn_shift _ _ _ _ 4). intros o Ho. apply H. lia. Qed.
Lemma ld32_range m a : 0 <= ld32 m a < 2 ^ 32.
Proof. apply (ldn_range m a 4). Qed.

(** 512 divides [2^32], so positions survive the wrap-around of the counters *)
Lemma u32_pos z : u32 z mod PIPESIZE = z mod PIPESIZE.
Proof.
  unfold u32, PIPESIZE. replace (2 ^ 32) with (512 * 2 ^ 23) by lia.
  rewrite Z.rem_mul_r by lia. rewrite (Z.mul_comm 512), Z_mod_plus_full, Z.mod_mod by lia. done.
Qed.
Lemma pos_range z : 0 <= z mod PIPESIZE < 512.
Proof. apply Z.mod_pos_bound. unfold PIPESIZE. lia. Qed.
Lemma pos_inj z i j : 0 <= i < 512 -> 0 <= j < 512 -> (z + i) mod PIPESIZE = (z + j) mod PIPESIZE -> i = j.
Proof.
  unfold PIPESIZE. intros Hi Hj H.
  pose proof (Z.div_mod (z + i) 512 ltac:(lia)). pose proof (Z.div_mod (z + j) 512 ltac:(lia)). lia.
Qed.

(** memory after a byte is put in, and after one is taken out *)
Definition put_bytes_at (b : gmap Z Z) (c : Z) : gmap Z Z :=
  let nw := ld32 b (pi + pi_nwrite) in
  stb (st32 b (pi + pi_nwrite) (u32 (nw + 1))) (pi + pi_data + nw mod PIPESIZE) c.
Definition got_bytes (b : gmap Z Z) : gmap Z Z :=
  st32 b (pi + pi_nread) (u32 (ld32 b (pi + pi_nread) + 1)).

Lemma put_is b l c : pipe_is b l -> (length l < Z.to_nat PIPESIZE)%nat ->
  pipe_is (put_bytes_at b c) (l ++ [u8 c]).
Proof using.
  intros (Hlen & Hnw & Hl) Hlt. unfold pipe_is, put_bytes_at. cbv zeta. set (nr := ld32 b (pi + pi_nread)) in *.
  pose proof (ld32_range b (pi + pi_nread)) as Hr. fold nr in Hr.
  rewrite Hnw. rewrite u32_pos. set (q := (nr + Z.of_nat (length l)) mod PIPESIZE).
  pose proof (pos_range (nr + Z.of_nat (length l))) as Hq. fold q in Hq.
  unfold pi_data, pi_nread, pi_nwrite in *.
  rewrite (ld32_frame b _ (pi + 536)) by (intros o Ho; unfold st32; rewrite ldb_stb, decide_False, ldb_stn, decide_False by lia; done).
  fold nr. split_and!.
  - rewrite length_app. cbn. lia.
  - rewrite (ld32_frame (st32 b (pi + 540) (u32 (u32 (nr + Z.of_nat (length l)) + 1))))
      by (intros o Ho; rewrite ldb_stb, decide_False by lia; done).
    rewrite ld32_st32 by apply u32_range. rewrite length_app. cbn. unfold u32.
    rewrite Zplus_mod_idemp_l. f_equal. lia.
  - intros i x Hi. rewrite ldb_stb. destruct (decide (i = length l)) as [->|Hne].
    + rewrite decide_True by done. rewrite lookup_app_r, Nat.sub_diag in Hi by lia. by injection Hi.
    + assert (i < length l)%nat as Hil.
      { apply lookup_lt_Some in Hi. rewrite length_app in Hi. cbn in Hi. lia. }
      rewrite lookup_app_l in Hi by done. unfold PIPESIZE in Hlt.
      rewrite decide_False.
      2:{ intros Heq. apply Hne. apply Nat2Z.inj. apply (pos_inj nr); [lia..|]. unfold q in Heq. lia. }
      pose proof (pos_range (nr + Z.of_nat i)). unfold st32. rewrite ldb_stn, decide_False by lia.
      by apply Hl.
Qed.

Lemma got_is b l c : pipe_is b (c :: l) -> pipe_is (got_bytes b) l /\
  ldb b (pi + pi_data + ld32 b (pi + pi_nread) mod PIPESIZE) = c.
Proof using.
  intros (Hlen & Hnw & Hl). split.
  - unfold pipe_is, got_bytes. set (nr := ld32 b (pi + pi_nread)) in *.
    pose proof (ld32_range b (pi + pi_nread)) as Hr. fold nr in Hr. cbn [length] in *.
    rewrite ld32_st32 by apply u32_range. split_and!; [lia| |].
    + unfold pi_nread, pi_nwrite in *.
      rewrite (ld32_frame b _ (pi + 540)) by (intros o Ho; unfold st32; rewrite ldb_stn, decide_False by lia; done).
      rewrite Hnw. unfold u32. rewrite Zplus_mod_idemp_l. f_equal. lia.
    + intros i x Hi.
      assert ((u32 (nr + 1) + Z.of_nat i) mod PIPESIZE = (nr + Z.of_nat (S i)) mod PIPESIZE) as ->.
      { rewrite Zplus_mod, u32_pos, <- Zplus_mod. f_equal. lia. }
      pose proof (pos_range (nr + Z.of_nat (S i))). unfold pi_nread, pi_data, st32 in *.
      rewrite ldb_stn, decide_False by lia. by apply Hl.
  - specialize (Hl 0%nat c eq_refl). by rewrite Z.add_0_r in Hl.
Qed.
Lemma put_frame b c a : ~ (pi <= a < pi + PGSIZE) -> ldb (put_bytes_at b c) a = ldb b a.
Proof using.
  intros Ha. unfold put_bytes_at, st32. pose proof (pos_range (ld32 b (pi + pi_nwrite))).
  unfold pi_data, pi_nwrite, PGSIZE in *.
  rewrite ldb_stb, decide_False, ldb_stn, decide_False by lia. done.
Qed.
Lemma got_frame b a : ~ (pi <= a < pi + PGSIZE) -> ldb (got_bytes b) a = ldb b a.
Proof using.
  intros Ha. unfold got_bytes, st32, pi_nread, PGSIZE in *. rewrite ldb_stn, decide_False by lia. done.
Qed.
End ring.

(** ** Theorems *)

(** the pipe of state [s] *)
Definition pipe_holds (pi : Z) (s : kstate) (l : list Z) : Prop := pipe_is pi (m_bytes (k_mm s)) l.

Definition only_page (pi : Z) (s s' : kstate) : Prop :=
  forall a, ~ (pi <= a < pi + PGSIZE) -> ldb (m_bytes (k_mm s')) a = ldb (m_bytes (k_mm s)) a.

Lemma data_ram pi z : in_ram pi PGSIZE = true -> in_ram (pi + pi_data + z mod PIPESIZE) 1 = true.
Proof.
  intros Hr. rewrite <- Z.add_assoc. pose proof (pos_range z).
  apply pipe_ram; [done | unfold pi_data, PGSIZE; lia..].
Qed.
Lemma pipe_put_run pi c l e s : in_ram pi PGSIZE = true -> pipe_holds pi s l ->
  (length l < Z.to_nat PIPESIZE)%nat ->
  exists s', pipe_put pi c e s = Ret tt e s' /\ pipe_holds pi s' (l ++ [u8 c]) /\ only_page pi s s'.
Proof.
  intros Hram Hl Hlt. apply wp_run_tt.
  unfold pipe_put, load32, store32, store8, modify_bytes, modify_mm.
  rewrite !(pipe_ram pi Hram pi_nwrite 4) by (unfold pi_nwrite, PGSIZE; lia). wp_steps.
  rewrite data_ram by done. wp_steps. split_and!; [done | by apply put_is |].
  intros a Ha. by apply put_frame.
Qed.
Lemma pipe_get_run pi x l e s : in_ram pi PGSIZE = true -> pipe_holds pi s (x :: l) ->
  exists s', pipe_get pi e s = Ret x e s' /\ pipe_holds pi s' l /\ only_page pi s s'.
Proof.
  intros Hram Hl. pose proof (got_is _ _ _ _ Hl) as [H2 H3].
  assert (wp (pipe_get pi) e s (fun r e' s' => e' = e /\ r = x /\ pipe_holds pi s' l /\ only_page pi s s')) as H.
  { unfold pipe_get, load32, store32, load8, modify_bytes, modify_mm.
    rewrite !(pipe_ram pi Hram pi_nread 4) by (unfold pi_nread, PGSIZE; lia). wp_steps.
    rewrite data_ram by done. wp_steps. split_and!; [done | | done |].
    - rewrite <- H3. cbn. set (b := m_bytes (k_mm s)). pose proof (pos_range (ld32 b (pi + pi_nread))).
      unfold st32, pi_data, pi_nread in *. rewrite ldb_stn, decide_False by lia. done.
    - intros a Ha. by apply got_frame. }
  apply wp_run in H as (r & s' & E & -> & H). eauto.
Qed.

(** The ring buffer is a queue, also across the wrap-around of its 32-bit
    counters: a byte put into a pipe that is not full goes to the end, the next
    byte taken is the oldest one, and both touch only the pipe's page. *)
Lemma pipe_fifo pi c l e s :
  in_ram pi PGSIZE = true -> pipe_holds pi s l -> (length l < Z.to_nat PIPESIZE)%nat ->
  exists s1, pipe_put pi c e s = Ret tt e s1 /\ pipe_holds pi s1 (l ++ [u8 c]) /\
    only_page pi s s1 /\
    exists x l' s2, l ++ [u8 c] = x :: l' /\ pipe_get pi e s1 = Ret x e s2 /\ pipe_holds pi s2 l' /\
      only_page pi s1 s2.
Proof.
  intros Hram Hl Hlt. destruct (pipe_put_run pi c l e s Hram Hl Hlt) as (s1 & E1 & H1 & P1).
  exists s1. split_and!; [done..|]. destruct (l ++ [u8 c]) as [|x l'] eqn:E; [by destruct l|].
  destruct (pipe_get_run pi x l' e s1 Hram H1) as (s2 & E2 & H2 & P2).
  by exists x, l', s2.
Qed.

(** an empty pipe whose counters are about to wrap around *)
Definition pipe_demo : kstate :=
  set_k_mm (set_m_bytes (st32 (st32 ∅ (0x80023000 + pi_nread) (2 ^ 32 - 1))
    (0x80023000 + pi_nwrite) (2 ^ 32 - 1)) mm0) boot.
Lemma pipe_fifo_witness :
  exists s1 s2, pipe_put 0x80023000 65 [] pipe_demo = Ret tt [] s1 /\
    pipe_get 0x80023000 [] s1 = Ret 65 [] s2 /\ pipe_holds 0x80023000 s2 [].
Proof.
  destruct (pipe_fifo 0x80023000 65 [] [] pipe_demo) as (s1 & E1 & _ & _ & x & l' & s2 & El & E2 & H2 & _).
  - reflexivity.
  - split_and!; [unfold PIPESIZE; cbn [length]; lia | vm_compute; reflexivity | by intros i c Hi].
  - unfold PIPESIZE. cbn [length]. lia.
  - injection El as <- <-. exists s1, s2. split; [exact E1|]. split; [exact E2 | exact H2].
Defined.
