(* ===== verification/Disk.v ===== *)
(** The virtio disk driver (virtio_disk.c): descriptor management, requests and
    the completion interrupt.

    The device itself is not part of the kernel: it acts, like every other
    thread, when the driver sleeps.  What it sees is the driver's queue (the
    descriptor table, the available ring and the request headers), and it
    answers by writing the used ring, the status byte and, for reads, the data
    of the buffer. *)
From S2P Require Import Prelude State Spinlock Queue Boot Cstring Kalloc Proc Copyio.

(** ** virtio.h *)
Definition NUM : nat := 8.
Definition VRING_DESC_F_NEXT : Z := 1.
Definition VRING_DESC_F_WRITE : Z := 2.
Definition VIRTIO_BLK_T_IN : Z := 0.
Definition VIRTIO_BLK_T_OUT : Z := 1.
Definition BSIZE : Z := 1024.
Definition VIRTIO_MMIO_MAGIC_VALUE : Z := 0x000.
Definition VIRTIO_MMIO_VERSION : Z := 0x004.
Definition VIRTIO_MMIO_DEVICE_ID : Z := 0x008.
Definition VIRTIO_MMIO_VENDOR_ID : Z := 0x00c.
Definition VIRTIO_MMIO_DEVICE_FEATURES : Z := 0x010.
Definition VIRTIO_MMIO_DRIVER_FEATURES : Z := 0x020.
Definition VIRTIO_MMIO_QUEUE_SEL : Z := 0x030.
Definition VIRTIO_MMIO_QUEUE_NUM_MAX : Z := 0x034.
Definition VIRTIO_MMIO_QUEUE_NUM : Z := 0x038.
Definition VIRTIO_MMIO_QUEUE_READY : Z := 0x044.
Definition VIRTIO_MMIO_QUEUE_NOTIFY : Z := 0x050.
Definition VIRTIO_MMIO_INTERRUPT_STATUS : Z := 0x060.
Definition VIRTIO_MMIO_INTERRUPT_ACK : Z := 0x064.
Definition VIRTIO_MMIO_STATUS : Z := 0x070.
Definition VIRTIO_MMIO_QUEUE_DESC_LOW : Z := 0x080.
Definition VIRTIO_MMIO_QUEUE_DESC_HIGH : Z := 0x084.
Definition VIRTIO_MMIO_DRIVER_DESC_LOW : Z := 0x090.
Definition VIRTIO_MMIO_DRIVER_DESC_HIGH : Z := 0x094.
Definition VIRTIO_MMIO_DEVICE_DESC_LOW : Z := 0x0a0.
Definition VIRTIO_MMIO_DEVICE_DESC_HIGH : Z := 0x0a4.
(** status bits *)
Definition VIRTIO_CONFIG_S_ACKNOWLEDGE : Z := 1.
Definition VIRTIO_CONFIG_S_DRIVER : Z := 2.
Definition VIRTIO_CONFIG_S_DRIVER_OK : Z := 4.
Definition VIRTIO_CONFIG_S_FEATURES_OK : Z := 8.
(** the feature bits the driver turns off *)
Definition virtio_off : list Z := [5; 7; 11; 12; 27; 29; 28].

Definition vd_gets {A} (f : vdisk -> A) : K A := gets (fun s => f (fs_vd (k_fs s))).
Definition vd_mod (f : vdisk -> vdisk) : K unit :=
  modify_fs (fun x => set_fs_vd (f (fs_vd x)) x).

(** memory-mapped registers; the device decides what the status register reads *)
Definition read_reg (r : Z) : K Z := regs <- vd_gets dk_regs;; ret (default 0 (regs !! r)).
Definition write_reg (r v : Z) : K unit :=
  vd_mod (fun d => set_dk_regs (<[r := if r =? VIRTIO_MMIO_STATUS then dk_react d (u32 v) else u32 v]>
    (dk_regs d)) d).

(** ** virtio_disk.c *)
Definition virtio_disk_init : K unit :=
  initlock LDisk "virtio_disk";;
  magic <- read_reg VIRTIO_MMIO_MAGIC_VALUE;;
  version <- read_reg VIRTIO_MMIO_VERSION;;
  dev <- read_reg VIRTIO_MMIO_DEVICE_ID;;
  vendor <- read_reg VIRTIO_MMIO_VENDOR_ID;;
  if negb (magic =? 0x74726976) || negb (version =? 2) || negb (dev =? 2) || negb (vendor =? 0x554d4551)
  then panic "could not find virtio disk" else
  let status := 0 in
  write_reg VIRTIO_MMIO_STATUS status;;
  let status := Z.lor status VIRTIO_CONFIG_S_ACKNOWLEDGE in
  write_reg VIRTIO_MMIO_STATUS status;;
  let status := Z.lor status VIRTIO_CONFIG_S_DRIVER in
  write_reg VIRTIO_MMIO_STATUS status;;
  features <- read_reg VIRTIO_MMIO_DEVICE_FEATURES;;
  write_reg VIRTIO_MMIO_DRIVER_FEATURES
    (fold_left (fun f b => Z.land f (Z.lnot (Z.shiftl 1 b))) virtio_off features);;
  let status := Z.lor status VIRTIO_CONFIG_S_FEATURES_OK in
  write_reg VIRTIO_MMIO_STATUS status;;
  status <- read_reg VIRTIO_MMIO_STATUS;;
  if Z.land status VIRTIO_CONFIG_S_FEATURES_OK =? 0 then panic "virtio disk FEATURES_OK unset" else
  write_reg VIRTIO_MMIO_QUEUE_SEL 0;;
  ready <- read_reg VIRTIO_MMIO_QUEUE_READY;;
  if istrue ready then panic "virtio disk should not be ready" else
  max <- read_reg VIRTIO_MMIO_QUEUE_NUM_MAX;;
  if max =? 0 then panic "virtio disk has no queue 0" else
  if max <? NUM then panic "virtio disk max queue too short" else
  desc <- kalloc;;
  avail <- kalloc;;
  used <- kalloc;;
  vd_mod (set_dk_pages [desc; avail; used]);;
  if (desc =? 0) || (avail =? 0) || (used =? 0) then panic "virtio disk kalloc" else
  mem_set desc 0 PGSIZE;; vd_mod (set_dk_desc (replicate NUM (mkvdesc DNull 0 0 0)));;
  mem_set avail 0 PGSIZE;; vd_mod (set_dk_avail_idx 0);; vd_mod (set_dk_avail_ring (replicate NUM 0));;
  mem_set used 0 PGSIZE;; vd_mod (set_dk_dev_idx 0);; vd_mod (set_dk_used_ring (replicate NUM 0));;
  write_reg VIRTIO_MMIO_QUEUE_NUM NUM;;
  write_reg VIRTIO_MMIO_QUEUE_DESC_LOW desc;;
  write_reg VIRTIO_MMIO_QUEUE_DESC_HIGH (Z.shiftr desc 32);;
  write_reg VIRTIO_MMIO_DRIVER_DESC_LOW avail;;
  write_reg VIRTIO_MMIO_DRIVER_DESC_HIGH (Z.shiftr avail 32);;
  write_reg VIRTIO_MMIO_DEVICE_DESC_LOW used;;
  write_reg VIRTIO_MMIO_DEVICE_DESC_HIGH (Z.shiftr used 32);;
  write_reg VIRTIO_MMIO_QUEUE_READY 1;;
  mforall (seq 0 NUM) (fun i => vd_mod (fun d => set_dk_free (<[i := 1]> (dk_free d)) d));;
  write_reg VIRTIO_MMIO_STATUS (Z.lor status VIRTIO_CONFIG_S_DRIVER_OK).

(** -1 when every descriptor is taken *)
Definition alloc_desc : K Z :=
  r <- mfor (seq 0 NUM) (fun i =>
    free <- vd_gets dk_free;;
    if istrue (default 0 (free !! i)) then
      vd_mod (fun d => set_dk_free (<[i := 0]> (dk_free d)) d);;
      ret (Some (Z.of_nat i))
    else ret None);;
  ret (default (-1) r).

Definition free_desc (i : Z) : K unit :=
  if NUM <=? i then panic "free_desc 1" else
  free <- vd_gets dk_free;;
  match idx i ≫= (free !!.) with
  | None => fault "free_desc: out of bounds"
  | Some f =>
      if istrue f then panic "free_desc 2" else
      vd_mod (fun d => set_dk_desc (<[Z.to_nat i := mkvdesc DNull 0 0 0]> (dk_desc d)) d);;
      vd_mod (fun d => set_dk_free (<[Z.to_nat i := 1]> (dk_free d)) d);;
      wakeup CDiskFree
  end.

Definition desc_at (i : Z) : K vdesc :=
  l <- vd_gets dk_desc;;
  match idx i ≫= (l !!.) with Some d => ret d | None => fault "disk.desc: out of bounds" end.
Definition set_desc (i : Z) (f : vdesc -> vdesc) : K unit :=
  vd_mod (fun d => set_dk_desc (alter f (Z.to_nat i) (dk_desc d)) d).

(** a chain that does not end frees a free descriptor after NUM steps at most,
    which panics *)
Definition free_chain (i : Z) : K unit :=
  mloop (S NUM) i (fun i =>
    d <- desc_at i;;
    free_desc i;;
    if istrue (Z.land (vd_flags d) VRING_DESC_F_NEXT) then ret (inl (vd_next d)) else ret (inr tt)).

(** the three indices, or [None] for -1 *)
Definition alloc3_desc : K (option (Z * Z * Z)) :=
  r <- mfold [0; 1; 2]%nat [] (fun idx _ =>
    d <- alloc_desc;;
    if d <? 0 then mforall idx free_desc;; ret (inr tt) else ret (inl (idx ++ [d])));;
  match r with
  | inl [i0; i1; i2] => ret (Some (i0, i1, i2))
  | _ => ret None
  end.

Definition buf_at (b : nat) : K buf :=
  l <- gets (fun s => fs_buf (k_fs s));;
  match l !! b with Some x => ret x | None => fault "no such buffer" end.
Definition buf_upd (b : nat) (f : buf -> buf) : K unit :=
  modify_fs (fun x => set_fs_buf (alter f b (fs_buf x)) x).

Definition virtio_disk_rw (b : nat) (write : bool) : K unit :=
  x <- buf_at b;;
  let sector := u32 (b_blockno x * (BSIZE / 512)) in
  acquire LDisk;;
  idx <- sleep_loop 0 tt (fun _ =>
    r <- alloc3_desc;;
    match r with
    | Some idx => ret (inr idx)
    | None => sleep CDiskFree LDisk;; ret (inl tt)
    end);;
  let '(i0, i1, i2) := idx in
  vd_mod (fun d => set_dk_ops (<[Z.to_nat i0 := mkblkreq (if write then VIRTIO_BLK_T_OUT else VIRTIO_BLK_T_IN) 0 sector]>
    (dk_ops d)) d);;
  set_desc i0 (fun _ => mkvdesc (DReq (Z.to_nat i0)) 16 VRING_DESC_F_NEXT i1);;
  set_desc i1 (fun _ => mkvdesc (DData b) BSIZE
    (Z.lor (if write then 0 else VRING_DESC_F_WRITE) VRING_DESC_F_NEXT) i2);;
  vd_mod (fun d => set_dk_info_status (<[Z.to_nat i0 := 0xff]> (dk_info_status d)) d);;
  set_desc i2 (fun _ => mkvdesc (DStatus (Z.to_nat i0)) 1 VRING_DESC_F_WRITE 0);;
  buf_upd b (set_b_disk 1);;
  vd_mod (fun d => set_dk_info_b (<[Z.to_nat i0 := Some b]> (dk_info_b d)) d);;
  vd_mod (fun d => set_dk_avail_ring (<[Z.to_nat (dk_avail_idx d mod NUM) := i0]> (dk_avail_ring d)) d);;
  vd_mod (fun d => set_dk_avail_idx ((dk_avail_idx d + 1) mod 2 ^ 16) d);;
  write_reg VIRTIO_MMIO_QUEUE_NOTIFY 0;;
  sleep_while (x <- buf_at b;; ret (b_disk x =? 1)) (CBufDisk b) LDisk;;
  vd_mod (fun d => set_dk_info_b (<[Z.to_nat i0 := None]> (dk_info_b d)) d);;
  free_chain i0;;
  release LDisk.

(** the loop follows the device's index: at most 2^16 - 1 completions away *)
Definition virtio_disk_intr : K unit :=
  acquire LDisk;;
  st <- read_reg VIRTIO_MMIO_INTERRUPT_STATUS;;
  write_reg VIRTIO_MMIO_INTERRUPT_ACK (Z.land st 3);;
  dev <- vd_gets dk_dev_idx;;
  seen <- vd_gets dk_used_idx;;
  mloop (S (Z.to_nat ((dev - seen) mod 2 ^ 16))) tt (fun _ =>
    dev <- vd_gets dk_dev_idx;;
    seen <- vd_gets dk_used_idx;;
    if seen =? dev then ret (inr tt) else
    ring <- vd_gets dk_used_ring;;
    let id := Z.to_nat (default 0 (ring !! Z.to_nat (seen mod NUM))) in
    status <- vd_gets (fun d => default 0 (dk_info_status d !! id));;
    if istrue status then panic "virtio_disk_intr status" else
    b <- vd_gets (fun d => mjoin (dk_info_b d !! id));;
    match b with
    | None => fault "null buffer"
    | Some b =>
        buf_upd b (set_b_disk 0);;
        wakeup (CBufDisk b);;
        vd_mod (fun d => set_dk_used_idx ((dk_used_idx d + 1) mod 2 ^ 16) d);;
        ret (inl tt)
    end);;
  release LDisk.
