(* ===== verification/Bio.v ===== *)
(** The buffer cache (bio.c): a list of NBUF buffers in least-recently-used
    order, threaded through the [prev]/[next] fields; the list head is entry
    [NBUF] of the buffer table.

    [BufCache] is the interface the logging layer is written against: read,
    write, release and unpin a block, and access the data of a buffer.  The
    operations of this file are one instance of it ([bio_cache]). *)
From S2P Require Import Prelude State Spinlock Queue Boot Cstring Kalloc Proc Copyio Sleeplock Disk.

Definition bhead : nat := NBUF.

Definition binit : K unit :=
  initlock LBcache "bcache";;
  buf_upd bhead (set_b_prev bhead);;
  buf_upd bhead (set_b_next bhead);;
  mforall (seq 0 NBUF) (fun b =>
    h <- buf_at bhead;;
    buf_upd b (set_b_next (b_next h));;
    buf_upd b (set_b_prev bhead);;
    initsleeplock (SLBuf b) "buffer";;
    h <- buf_at bhead;;
    buf_upd (b_next h) (set_b_prev b);;
    buf_upd bhead (set_b_next b)).

(** [for(b = head.next; b != &head; b = b->next)] (or [prev]): the first buffer
    for which [test] holds.  A well-formed list has NBUF entries. *)
Definition bscan (step : buf -> nat) (test : buf -> bool) : K (option nat) :=
  h <- buf_at bhead;;
  mloop (S NBUF) (step h) (fun b =>
    if decide (b = bhead) then ret (inr None) else
    x <- buf_at b;;
    if test x then ret (inr (Some b)) else ret (inl (step x))).

Definition bget (dev blockno : Z) : K nat :=
  acquire LBcache;;
  c <- bscan b_next (fun x => (b_dev x =? dev) && (b_blockno x =? blockno));;
  match c with
  | Some b =>
      buf_upd b (fun x => set_b_refcnt (u32 (b_refcnt x + 1)) x);;
      release LBcache;;
      acquiresleep (SLBuf b);;
      ret b
  | None =>
      c <- bscan b_prev (fun x => b_refcnt x =? 0);;
      match c with
      | Some b =>
          buf_upd b (set_b_dev dev);;
          buf_upd b (set_b_blockno blockno);;
          buf_upd b (set_b_valid 0);;
          buf_upd b (set_b_refcnt 1);;
          release LBcache;;
          acquiresleep (SLBuf b);;
          ret b
      | None => panic "bget: no buffers"
      end
  end.

Definition bread (dev blockno : Z) : K nat :=
  b <- bget dev blockno;;
  x <- buf_at b;;
  when (b_valid x =? 0) (virtio_disk_rw b false;; buf_upd b (set_b_valid 1));;
  ret b.

Definition bwrite (b : nat) : K unit :=
  h <- holdingsleep (SLBuf b);;
  if negb h then panic "bwrite" else virtio_disk_rw b true.

(** move [b] to the front of the list *)
Definition bmove_front (b : nat) : K unit :=
  x <- buf_at b;;
  buf_upd (b_next x) (set_b_prev (b_prev x));;
  x <- buf_at b;;
  buf_upd (b_prev x) (set_b_next (b_next x));;
  h <- buf_at bhead;;
  buf_upd b (set_b_next (b_next h));;
  buf_upd b (set_b_prev bhead);;
  h <- buf_at bhead;;
  buf_upd (b_next h) (set_b_prev b);;
  buf_upd bhead (set_b_next b).

Definition brelse (b : nat) : K unit :=
  h <- holdingsleep (SLBuf b);;
  if negb h then panic "brelse" else
  releasesleep (SLBuf b);;
  acquire LBcache;;
  buf_upd b (fun x => set_b_refcnt (u32 (b_refcnt x - 1)) x);;
  x <- buf_at b;;
  when (b_refcnt x =? 0) (bmove_front b);;
  release LBcache.

Definition bpin (b : nat) : K unit :=
  acquire LBcache;;
  buf_upd b (fun x => set_b_refcnt (u32 (b_refcnt x + 1)) x);;
  release LBcache.
Definition bunpin (b : nat) : K unit :=
  acquire LBcache;;
  buf_upd b (fun x => set_b_refcnt (u32 (b_refcnt x - 1)) x);;
  release LBcache.

(** ** The interface of the buffer cache *)
Class BufCache (S : Type) := {
  bc_read : Z -> Z -> M S nat;
  bc_write : nat -> M S unit;
  bc_relse : nat -> M S unit;
  bc_pin : nat -> M S unit;
  bc_unpin : nat -> M S unit;
  bc_data : nat -> M S (list Z);
  bc_set_data : nat -> list Z -> M S unit;
  bc_blockno : nat -> M S Z;
}.

(** the data and the block number of a buffer *)
Definition buf_data (b : nat) : K (list Z) := x <- buf_at b;; ret (b_data x).
Definition buf_set_data (b : nat) (l : list Z) : K unit := buf_upd b (set_b_data l).
Definition buf_blockno (b : nat) : K Z := x <- buf_at b;; ret (b_blockno x).

#[export] Instance bio_cache : BufCache kstate := {
  bc_read := bread;
  bc_write := bwrite;
  bc_relse := brelse;
  bc_pin := bpin;
  bc_unpin := bunpin;
  bc_data := buf_data;
  bc_set_data := buf_set_data;
  bc_blockno := buf_blockno;
}.
