(* ===== verification/Bcache.v ===== *)
(** The buffer cache as an LRU cache.

    The doubly linked list through [prev] and [next] is related to the list of the
    buffers, most recently used first ([lru]).  [bget] finds the block's buffer or
    recycles the last one that is not in use, and [brelse] of the last reference
    moves a buffer to the front, both keeping the list and the rule that a block
    has at most one buffer. *)
From S2P Require Import Prelude State Spinlock Queue Boot Cstring Kalloc Proc Copyio Sleeplock Disk Bio.

(** ** Doubly linked lists

    [dchain nx pv a l z]: following [nx] from [a] visits the elements of [l] and
    then [z], and [pv] leads back. *)
Section dchain.
Implicit Types (nx pv : nat -> nat) (l : list nat).

Fixpoint dchain nx pv (a : nat) l (z : nat) : Prop :=
  match l with
  | [] => nx a = z /\ pv z = a
  | x :: l' => (nx a = x /\ pv x = a) /\ dchain nx pv x l' z
  end.

Lemma dchain_app nx pv a l1 x l2 z :
  dchain nx pv a (l1 ++ x :: l2) z <-> dchain nx pv a l1 x /\ dchain nx pv x l2 z.
Proof. revert a. induction l1 as [|y l1 IH]; intros a; cbn; [done|]. rewrite IH. tauto. Qed.
Lemma dchain_ext nx pv nx' pv' a l z : (forall x, x ∈ a :: l -> nx' x = nx x) ->
  (forall x, x ∈ l ++ [z] -> pv' x = pv x) -> dchain nx pv a l z -> dchain nx' pv' a l z.
Proof.
  revert a. induction l as [|y l IH]; intros a Hn Hp; cbn.
  - rewrite (Hn a), (Hp z) by (by left). done.
  - rewrite (Hn a), (Hp y) by (by left). intros [? ?]. split; [done|].
    apply IH; [intros x Hx; apply Hn; by right | intros x Hx; apply Hp; by right | done].
Qed.

Lemma dchain_nx_in nx pv a l z x : dchain nx pv a l z -> x ∈ a :: l -> nx x ∈ l ++ [z].
Proof.
  revert a. induction l as [|y l IH]; intros a; cbn.
  - intros [<- _] ->%list_elem_of_singleton. by left.
  - intros [[<- _] H] [->|Hx]%elem_of_cons; [by left | right; by eapply IH].
Qed.
Lemma dchain_pv_in nx pv a l z x : dchain nx pv a l z -> x ∈ l ++ [z] -> pv x ∈ a :: l.
Proof.
  revert a. induction l as [|y l IH]; intros a; cbn.
  - intros [_ <-] ->%list_elem_of_singleton. by left.
  - intros [[_ <-] H] [->|Hx]%elem_of_cons; [by left | right; by eapply IH].
Qed.

(** a pointer field after an assignment *)
Definition upd (f : nat -> nat) (i x : nat) : nat -> nat := fun j => if decide (j = i) then x else f j.
Lemma upd_eq f i x : upd f i x i = x.
Proof. unfold upd. by rewrite decide_True. Qed.
Lemma upd_ne f i x j : j <> i -> upd f i x j = f j.
Proof. intros. unfold upd. by rewrite decide_False. Qed.

(** the two ends of a dchain *)
Lemma dchain_snoc nx pv a l x z : dchain nx pv a (l ++ [x]) z <-> dchain nx pv a l x /\ nx x = z /\ pv z = x.
Proof. apply dchain_app. Qed.

(** taking [b] out of the list *)
Lemma dchain_remove nx pv h l1 b l2 : NoDup (h :: l1 ++ b :: l2) -> dchain nx pv h (l1 ++ b :: l2) h ->
  dchain (upd nx (pv b) (nx b)) (upd pv (nx b) (pv b)) h (l1 ++ l2) h /\ nx b <> b /\ pv b <> b.
Proof.
  intros Hnd [H1 H2]%dchain_app.
  destruct l1 as [|p l1 _] using rev_ind; destruct l2 as [|n l2]; cbn [dchain app] in H1, H2 |- *;
    repeat first [rewrite NoDup_cons in Hnd | rewrite NoDup_app in Hnd].
  - destruct H1 as [_ Hp], H2 as [Hn _]. rewrite Hp, Hn, !upd_eq. set_solver.
  - destruct H1 as [_ Hp], H2 as [[Hn _] H2]. rewrite Hp, Hn, !upd_eq.
    split_and!; [done | done | | set_solver..].
    apply (dchain_ext nx pv); [intros x Hx; apply upd_ne; set_solver.. | done].
  - apply dchain_snoc in H1 as (H1 & _ & Hp). destruct H2 as [Hn _]. rewrite Hp, Hn, app_nil_r, dchain_snoc, !upd_eq.
    split_and!; [|done.. | set_solver | set_solver].
    apply (dchain_ext nx pv); [intros x Hx; apply upd_ne; set_solver.. | done].
  - apply dchain_snoc in H1 as (H1 & _ & Hp). destruct H2 as [[Hn _] H2].
    rewrite Hp, Hn, <- app_assoc. cbn [app]. rewrite dchain_app. cbn [dchain]. rewrite !upd_eq.
    split_and!; [|done.. | | set_solver | set_solver].
    + apply (dchain_ext nx pv); [intros x Hx; apply upd_ne; set_solver.. | done].
    + apply (dchain_ext nx pv); [intros x Hx; apply upd_ne; set_solver.. | done].
Qed.
(** putting [b] at the front *)
Lemma dchain_push nx pv h b l : NoDup (h :: b :: l) -> dchain nx pv h l h ->
  dchain (upd (upd nx b (nx h)) h b) (upd (upd pv b h) (nx h) b) h (b :: l) h.
Proof.
  intros Hnd Hl. repeat rewrite NoDup_cons in Hnd. cbn [dchain]. rewrite upd_eq.
  destruct l as [|n l]; cbn [dchain] in Hl |- *.
  - destruct Hl as [-> _]. unfold upd. split_and!; repeat case_decide; set_solver.
  - destruct Hl as [[-> _] Hl]. rewrite NoDup_cons in Hnd.
    split_and!; [done | unfold upd; repeat case_decide; set_solver.. |].
    apply (dchain_ext nx pv); [intros x Hx; unfold upd; repeat case_decide; set_solver.. | done].
Qed.
End dchain.

(** ** The cache's list *)
Definition nx (bufs : list buf) (i : nat) : nat := from_option b_next bhead (bufs !! i).
Definition pv (bufs : list buf) (i : nat) : nat := from_option b_prev bhead (bufs !! i).

(** the buffers from the most to the least recently used *)
Definition lru (bufs : list buf) (l : list nat) : Prop :=
  length bufs = S NBUF /\ l ≡ₚ seq 0 NBUF /\ dchain (nx bufs) (pv bufs) bhead l bhead.

(** a block of a device has at most one buffer (device 0 is what unused buffers
    start with) *)
Definition one_copy (bufs : list buf) : Prop := forall i j x y,
  (i < NBUF)%nat -> (j < NBUF)%nat -> bufs !! i = Some x -> bufs !! j = Some y ->
  b_dev x <> 0 -> b_dev x = b_dev y -> b_blockno x = b_blockno y -> i = j.

Lemma lru_nodup bufs l : lru bufs l -> NoDup (bhead :: l).
Proof.
  intros (_ & Hp & _). apply NoDup_cons. rewrite Hp. split; [|apply NoDup_seq].
  unfold bhead. rewrite elem_of_seq. lia.
Qed.
Lemma lru_lt bufs l i : lru bufs l -> i ∈ bhead :: l -> (i < length bufs)%nat.
Proof.
  intros (-> & Hp & _). rewrite elem_of_cons, Hp, elem_of_seq. unfold bhead. lia.
Qed.

(** the list after an assignment to a field *)
Lemma nx_next v bufs i j : (i < length bufs)%nat -> nx (alter (set_b_next v) i bufs) j = upd (nx bufs) i v j.
Proof.
  intros Hi. unfold nx, upd. case_decide as H; [subst|by rewrite list_lookup_alter_ne].
  destruct (lookup_lt_is_Some_2 bufs i Hi) as [x Hx]. by rewrite list_lookup_alter_eq, Hx.
Qed.
Lemma pv_prev v bufs i j : (i < length bufs)%nat -> pv (alter (set_b_prev v) i bufs) j = upd (pv bufs) i v j.
Proof.
  intros Hi. unfold pv, upd. case_decide as H; [subst|by rewrite list_lookup_alter_ne].
  destruct (lookup_lt_is_Some_2 bufs i Hi) as [x Hx]. by rewrite list_lookup_alter_eq, Hx.
Qed.
Lemma nx_same f bufs i j : (forall x, b_next (f x) = b_next x) -> nx (alter f i bufs) j = nx bufs j.
Proof.
  intros Hf. unfold nx. rewrite list_lookup_alter. case_decide; [subst|done]. by destruct (bufs !! j); cbn.
Qed.
Lemma pv_same f bufs i j : (forall x, b_prev (f x) = b_prev x) -> pv (alter f i bufs) j = pv bufs j.
Proof.
  intros Hf. unfold pv. rewrite list_lookup_alter. case_decide; [subst|done]. by destruct (bufs !! j); cbn.
Qed.
(** updates of the other fields keep the list *)
Lemma lru_same f bufs i l : (forall x, b_next (f x) = b_next x) -> (forall x, b_prev (f x) = b_prev x) ->
  lru bufs l -> lru (alter f i bufs) l.
Proof.
  intros Hn Hp (H1 & H2 & H3). split_and!; [by rewrite length_alter | done |].
  apply (dchain_ext (nx bufs) (pv bufs)); [intros; by apply nx_same | intros; by apply pv_same | done].
Qed.

(** [bmove_front] on the table *)
Definition moved_front (b : nat) (bufs : list buf) : list buf :=
  let bufs1 := alter (set_b_prev (pv bufs b)) (nx bufs b) bufs in
  let bufs2 := alter (set_b_next (nx bufs1 b)) (pv bufs1 b) bufs1 in
  let bufs3 := alter (set_b_prev bhead) b (alter (set_b_next (nx bufs2 bhead)) b bufs2) in
  alter (set_b_next b) bhead (alter (set_b_prev b) (nx bufs3 bhead) bufs3).

(** the fields after it *)
Section moved.
Context (bufs : list buf) (b : nat).
Context (Hb : (b < length bufs)%nat) (Hh : (bhead < length bufs)%nat).
Context (Hn : (nx bufs b < length bufs)%nat) (Hp : (pv bufs b < length bufs)%nat) (Hnb : nx bufs b <> b).
Context (Hhn : forall i, (nx bufs i < length bufs)%nat).

Let nx1 := upd (nx bufs) (pv bufs b) (nx bufs b).
Let pv1 := upd (pv bufs) (nx bufs b) (pv bufs b).

Lemma moved_front_fields : length (moved_front b bufs) = length bufs /\
  (forall j, nx (moved_front b bufs) j = upd (upd nx1 b (nx1 bhead)) bhead b j) /\
  (bhead <> b -> forall j, pv (moved_front b bufs) j = upd (upd pv1 b bhead) (nx1 bhead) b j).
Proof using All.
  unfold moved_front.
  set (bufs1 := alter (set_b_prev (pv bufs b)) (nx bufs b) bufs).
  assert (L1 : length bufs1 = length bufs) by apply length_alter.
  assert (N1 : forall j, nx bufs1 j = nx bufs j) by (intros; by apply nx_same).
  assert (P1 : forall j, pv bufs1 j = pv1 j) by (intros; by apply pv_prev).
  rewrite N1, P1. replace (pv1 b) with (pv bufs b) by (unfold pv1; by rewrite upd_ne).
  set (bufs2 := alter (set_b_next (nx bufs b)) (pv bufs b) bufs1).
  assert (L2 : length bufs2 = length bufs) by (unfold bufs2; by rewrite length_alter).
  assert (N2 : forall j, nx bufs2 j = nx1 j).
  { intros j. unfold bufs2. rewrite nx_next by lia. unfold nx1, upd. case_decide; [done | apply N1]. }
  assert (P2 : forall j, pv bufs2 j = pv1 j) by (intros; unfold bufs2; rewrite pv_same by done; apply P1).
  rewrite N2. set (bufs3 := alter (set_b_prev bhead) b (alter (set_b_next (nx1 bhead)) b bufs2)).
  assert (L3 : length bufs3 = length bufs) by (unfold bufs3; by rewrite !length_alter).
  assert (N3 : forall j, nx bufs3 j = upd nx1 b (nx1 bhead) j).
  { intros j. unfold bufs3. rewrite nx_same, nx_next by (done || lia). unfold upd. case_decide; [done | apply N2]. }
  assert (P3 : forall j, pv bufs3 j = upd pv1 b bhead j).
  { intros j. unfold bufs3. rewrite pv_prev by (rewrite length_alter; lia). unfold upd.
    case_decide; [done | rewrite pv_same by done; apply P2]. }
  split_and!.
  - by rewrite !length_alter.
  - intros j. rewrite nx_next by (rewrite length_alter; lia).
    destruct (decide (j = bhead)) as [->|Hj]; [by rewrite !upd_eq|].
    rewrite !(upd_ne _ bhead _ j), nx_same by done. apply N3.
  - intros Hne j. rewrite N3, upd_ne by done. rewrite pv_same, pv_prev by (done ||
      (unfold nx1, upd; case_decide; [lia | specialize (Hhn bhead); lia])).
    destruct (decide (j = nx1 bhead)) as [->|Hj]; [by rewrite !upd_eq|].
    rewrite !(upd_ne _ (nx1 bhead) _ j) by done. apply P3.
Qed.
End moved.

Lemma lru_in bufs l i : lru bufs l -> i ∈ bhead :: l <-> (i < length bufs)%nat.
Proof.
  intros (Hlen & Hp & _). rewrite elem_of_cons, Hp, elem_of_seq, Hlen. unfold bhead. lia.
Qed.
Lemma lru_nx bufs l i : lru bufs l -> (nx bufs i < length bufs)%nat.
Proof.
  intros Hl. destruct (decide (i < length bufs)%nat) as [Hi|Hi].
  - apply (lru_in _ l); [done|]. apply (lru_in _ l) in Hi; [|done]. destruct Hl as (_ & _ & Hc).
    apply (dchain_nx_in _ _ _ _ _ _ Hc) in Hi. set_solver.
  - unfold nx. rewrite lookup_ge_None_2 by lia. destruct Hl as (-> & _). cbn. unfold bhead. lia.
Qed.
Lemma lru_pv bufs l i : lru bufs l -> (i < length bufs)%nat -> (pv bufs i < length bufs)%nat.
Proof.
  intros Hl Hi. apply (lru_in _ l); [done|]. apply (lru_in _ l) in Hi; [|done]. destruct Hl as (_ & _ & Hc).
  apply (dchain_pv_in _ _ _ _ _ _ Hc). set_solver.
Qed.

Lemma moved_front_lru bufs l1 b l2 : lru bufs (l1 ++ b :: l2) -> lru (moved_front b bufs) (b :: l1 ++ l2).
Proof.
  intros Hl. pose proof (lru_nodup _ _ Hl) as Hnd. pose proof Hl as (Hlen & Hperm & Hc).
  assert (Hb : (b < length bufs)%nat) by (apply (lru_in _ _ b Hl); set_solver).
  destruct (dchain_remove _ _ _ _ _ _ Hnd Hc) as (Hc1 & Hnb & Hpb).
  assert (Hbh : bhead <> b) by (apply NoDup_cons in Hnd as [Hnd _]; set_solver).
  destruct (moved_front_fields bufs b) as (Hlen' & Hn & Hp);
    [done | rewrite Hlen; unfold bhead; lia | by eapply lru_nx | by eapply lru_pv | done | intros; by eapply lru_nx |].
  split_and!; [by rewrite Hlen' | by rewrite Permutation_middle|].
  eapply dchain_ext; [intros x _; apply Hn | intros x _; by apply Hp |].
  apply dchain_push; [|done]. rewrite <- Permutation_middle in Hnd. done.
Qed.

(** ** The scans *)
Definition bufs_of (s : kstate) : list buf := fs_buf (k_fs s).
Definition with_bufs (s : kstate) (bufs : list buf) : kstate := set_k_fs (set_fs_buf bufs (k_fs s)) s.

Lemma with_bufs_twice s b1 b2 : with_bufs (with_bufs s b1) b2 = with_bufs s b2.
Proof. done. Qed.
Lemma bufs_of_with s t : bufs_of (with_bufs s t) = t.
Proof. done. Qed.
Lemma with_bufs_id s : with_bufs s (bufs_of s) = s.
Proof. by destruct s as [? ? ? ? []]. Qed.

Lemma wp_buf_at b x e s (Q : buf -> list (kstate -> kstate) -> kstate -> Prop) :
  bufs_of s !! b = Some x -> Q x e s -> wp (buf_at b) e s Q.
Proof. intros Hx HQ. unfold buf_at. wp_steps. unfold bufs_of in Hx. rewrite Hx. by wp_step. Qed.
Lemma wp_buf_upd b f e s (Q : unit -> list (kstate -> kstate) -> kstate -> Prop) :
  Q tt e (with_bufs s (alter f b (bufs_of s))) -> wp (buf_upd b f) e s Q.
Proof. intros HQ. unfold buf_upd, modify_fs. by wp_step. Qed.

(** the first buffer of a list that passes a test *)
Fixpoint first_in (test : buf -> bool) (bufs : list buf) (l : list nat) : option nat :=
  match l with
  | [] => None
  | b :: l' => if from_option test false (bufs !! b) then Some b else first_in test bufs l'
  end.
Lemma first_in_some test bufs l b : first_in test bufs l = Some b ->
  b ∈ l /\ from_option test false (bufs !! b) = true.
Proof.
  induction l as [|y l IH]; [done|]. cbn. destruct (from_option test false (bufs !! y)) eqn:E.
  - intros [= ->]. split; [by left | done].
  - intros [? ?]%IH. split; [by right | done].
Qed.
Lemma first_in_none test bufs l b : first_in test bufs l = None -> b ∈ l ->
  from_option test false (bufs !! b) = false.
Proof.
  induction l as [|y l IH]; [by intros _ ?%elem_of_nil|]. cbn.
  destruct (from_option test false (bufs !! y)) eqn:E; [done|]. intros H [->|Hb]%elem_of_cons; [done | auto].
Qed.

(** following the field [step] from [a] visits [l] and ends at the list head *)
Fixpoint walks (step : buf -> nat) (bufs : list buf) (a : nat) (l : list nat) : Prop :=
  match l with
  | [] => step <$> bufs !! a = Some bhead
  | x :: l' => step <$> bufs !! a = Some x /\ x <> bhead /\ walks step bufs x l'
  end.
Lemma wp_bscan step test l e s (Q : option nat -> list (kstate -> kstate) -> kstate -> Prop) :
  walks step (bufs_of s) bhead l -> length l = NBUF ->
  Q (first_in test (bufs_of s) l) e s -> wp (bscan step test) e s Q.
Proof.
  intros Hw Hlen HQ. unfold bscan. wp_step.
  assert (exists h, bufs_of s !! bhead = Some h) as [h Hh].
  { destruct l; cbn in Hw; destruct (bufs_of s !! bhead); naive_solver. }
  eapply wp_buf_at; [done|]. assert (Hn : (length l < S NBUF)%nat) by lia. clear Hlen.
  revert Hn. generalize (S NBUF). revert h Hh Hw. generalize bhead at 1 2 as a.
  induction l as [|b l IH]; intros a h Hh Hw [|n] Hn; cbn [length] in Hn; try lia; cbn [mloop walks] in Hw |- *;
    rewrite Hh in Hw; cbn in Hw.
  - injection Hw as ->. wp_step. rewrite decide_True by done. by repeat wp_step.
  - destruct Hw as ([= ->] & Hb & Hw). wp_step. rewrite decide_False by done.
    assert (exists y, bufs_of s !! b = Some y) as [y Hy].
    { destruct l; cbn in Hw; destruct (bufs_of s !! b); naive_solver. }
    wp_step. eapply wp_buf_at; [done|]. cbn [first_in] in HQ. rewrite Hy in HQ. cbn in HQ.
    destruct (test y); [by repeat wp_step|]. wp_step. by apply (IH HQ b y Hy Hw n ltac:(lia)).
Qed.

Lemma dchain_rev f g a l z : dchain f g a l z -> dchain g f z (rev l) a.
Proof.
  revert a. induction l as [|x l IH]; intros a; cbn; [tauto|].
  intros [[? ?] Hl]. apply dchain_app. split; [by apply IH | done].
Qed.
Lemma walks_chain step bufs g a l : dchain (fun i => from_option step bhead (bufs !! i)) g a l bhead ->
  (forall i, i ∈ a :: l -> is_Some (bufs !! i)) -> bhead ∉ l -> walks step bufs a l.
Proof.
  revert a. induction l as [|x l IH]; intros a Hc Hin Hb; cbn in *.
  - destruct (Hin a) as [y Hy]; [by left|]. rewrite Hy in *. cbn in *. by destruct Hc as [-> _].
  - destruct Hc as [[Hx _] Hc]. destruct (Hin a) as [y Hy]; [by left|]. rewrite Hy in *. cbn in *. subst.
    split_and!; [done | set_solver |]. apply IH; [done | intros i Hi; apply Hin; by right | set_solver].
Qed.
Lemma lru_walks bufs l : lru bufs l ->
  walks b_next bufs bhead l /\ walks b_prev bufs bhead (rev l) /\ length l = NBUF.
Proof.
  intros Hl. pose proof (lru_nodup _ _ Hl) as [Hb _]%NoDup_cons. split_and!.
  - eapply walks_chain; [by apply Hl | | done]. intros i Hi. by apply lookup_lt_is_Some_2, (lru_in _ l).
  - eapply walks_chain; [eapply dchain_rev, Hl | |].
    + intros i Hi. apply lookup_lt_is_Some_2, (lru_in _ l); [done|]. by rewrite <- (Permutation_rev l) in Hi.
    + by rewrite <- (Permutation_rev l).
  - destruct Hl as (_ & Hp & _). apply Permutation_length in Hp. by rewrite Hp, length_seq.
Qed.

(** ** bget *)
Definition is_block (dev blockno : Z) (x : buf) : bool := (b_dev x =? dev) && (b_blockno x =? blockno).
Definition unused (x : buf) : bool := b_refcnt x =? 0.

(** the buffer [bget] should answer, and whether the block is cached: the block's
    own, or the least recently used one that is not in use *)
Definition bget_choice (dev blockno : Z) (bufs : list buf) (l : list nat) : option (nat * bool) :=
  match first_in (is_block dev blockno) bufs l with
  | Some b => Some (b, true)
  | None => match first_in unused bufs (rev l) with Some b => Some (b, false) | None => None end
  end.
(** the buffer after [bget], locked by process [pid] *)
Definition taken (hit : bool) (dev blockno pid : Z) (x : buf) : buf :=
  set_b_lock (mksleeplock 1 (sl_name (b_lock x)) pid)
    (if hit then set_b_refcnt (u32 (b_refcnt x + 1)) x
     else set_b_refcnt 1 (set_b_valid 0 (set_b_blockno blockno (set_b_dev dev x)))).

Lemma one_copy_alter f b bufs : one_copy bufs ->
  (forall x, b_dev (f x) = b_dev x) -> (forall x, b_blockno (f x) = b_blockno x) -> one_copy (alter f b bufs).
Proof.
  intros H Hd Hn i j x y Hi Hj. rewrite !list_lookup_alter.
  assert (forall k z, (if decide (b = k) then f <$> bufs !! b else bufs !! k) = Some z ->
    exists z0, bufs !! k = Some z0 /\ b_dev z = b_dev z0 /\ b_blockno z = b_blockno z0) as Hz.
  { intros k z. case_decide; subst; [|eauto]. destruct (bufs !! k) as [z0|]; [|done]. cbn. intros [= <-]. eauto. }
  intros (x0 & Hx & -> & ->)%Hz (y0 & Hy & -> & ->)%Hz. by apply (H i j).
Qed.
Lemma one_copy_miss dev blockno pid bufs l b : lru bufs l -> one_copy bufs ->
  first_in (is_block dev blockno) bufs l = None -> one_copy (alter (taken false dev blockno pid) b bufs).
Proof.
  intros Hl H Hnone i j x y Hi Hj. rewrite !list_lookup_alter.
  assert (forall k z, (k < NBUF)%nat -> bufs !! k = Some z -> b_dev z = dev -> b_blockno z = blockno -> False) as Hno.
  { intros k z Hk Hz Hd Hn. assert (k ∈ l) as Hin.
    { destruct Hl as (_ & Hp & _). rewrite Hp, elem_of_seq. lia. }
    pose proof (first_in_none _ _ _ _ Hnone Hin) as Hf. rewrite Hz in Hf. cbn in Hf. unfold is_block in Hf.
    by rewrite Hd, Hn, !Z.eqb_refl in Hf. }
  destruct (decide (b = i)) as [Ei|], (decide (b = j)) as [Ej|]; [congruence | | | by apply (H i j)].
  - destruct (bufs !! b); [|done]. cbn. intros [= <-] Hy ? ? ?. destruct (Hno j y); done.
  - intros Hx. destruct (bufs !! b); [|done]. cbn. intros [= <-] ? ? ?. destruct (Hno i x); done.
Qed.

Lemma alter_alter (f g : buf -> buf) (i : nat) (l : list buf) : alter f i (alter g i l) = alter (fun x => f (g x)) i l.
Proof. revert i. induction l as [|x l IH]; intros [|i]; cbn; [done.. |]. f_equal. apply IH. Qed.
Lemma alter_at (f g : buf -> buf) (i : nat) (l : list buf) x : l !! i = Some x -> f x = g x -> alter f i l = alter g i l.
Proof.
  revert i. induction l as [|y l IH]; intros [|i] Hx Hf; cbn in *; [done | done | congruence |].
  f_equal. by apply IH.
Qed.

Section bget.
Context (dev blockno : Z) (e : list (kstate -> kstate)) (s : kstate) (l : list nat) (i : nat) (p : proc).
Context (Hok : hart_ok 2 (k_hw s)) (Hlk : lock_free (k_hw s) LBcache).
Context (Hcur : cur_is (k_hw s) i) (Hp : ps_proc (k_ps s) !! i = Some p).
Context (Hl : lru (bufs_of s) l) (Hone : one_copy (bufs_of s)).

(** the buffer is not locked by anyone *)
Definition unlocked (b : nat) : Prop := lock_free (k_hw s) (LBuf b) /\
  exists y, bufs_of s !! b = Some y /\ sl_locked (b_lock y) = 0.

(** the end of [bget], after the table has been changed by [f] *)
Lemma wp_bget_take b f (Q : nat -> list (kstate -> kstate) -> kstate -> Prop) : unlocked b ->
  (forall x, b_lock (f x) = b_lock x) ->
  (forall h', h' ≈h k_hw s -> Q b e (set_k_hw h' (with_bufs s
     (alter (fun x => set_b_lock (mksleeplock 1 (sl_name (b_lock x)) (p_pid p)) (f x)) b (bufs_of s))))) ->
  wp (release LBcache;; acquiresleep (SLBuf b);; ret b) e
    (with_bufs (set_k_hw (hw_acq LBcache (k_hw s)) s) (alter f b (bufs_of s))) Q.
Proof using All.
  intros [Hbl (y & Hy & Hy0)] Hf HQ. wp_step.
  eapply (wp_release_acq _ (k_hw s) 2); [lia | done | done | done |].
  pose proof (hw_crit_eqv (k_hw s)) as Heqv.
  wp_step. eapply (wp_acquiresleep (SLBuf b) (b_lock y) i p).
  - eapply hart_ok_eqv; [by symmetry | done].
  - eapply lock_free_eqv; [by symmetry | done].
  - eapply cur_is_eqv; [by symmetry | done].
  - done.
  - unfold bufs_of in *. cbn. rewrite list_lookup_alter_eq, Hy. cbn. by rewrite Hf.
  - done.
  - wp_step. cbn. specialize (HQ (hw_crit (hw_crit (k_hw s)))).
    rewrite (alter_alter (set_b_lock _) f).
    rewrite (alter_at _ (fun x => set_b_lock (mksleeplock 1 (sl_name (b_lock x)) (p_pid p)) (f x)) _ _ y Hy) by done.
    apply HQ. rewrite (hw_crit_eqv (hw_crit _)). done.
Qed.

Lemma wp_bget b hit (Q : nat -> list (kstate -> kstate) -> kstate -> Prop) :
  bget_choice dev blockno (bufs_of s) l = Some (b, hit) -> unlocked b ->
  (forall h', h' ≈h k_hw s -> Q b e (set_k_hw h' (with_bufs s
     (alter (taken hit dev blockno (p_pid p)) b (bufs_of s))))) ->
  wp (bget dev blockno) e s Q.
Proof using All.
  intros Hc Hun HQ. destruct (lru_walks _ _ Hl) as (Hw1 & Hw2 & Hlen).
  unfold bget. wp_step. apply wp_acquire; [by eapply hart_ok_weaken; [|done]; lia | done|].
  wp_step. apply (wp_bscan b_next _ l); [done | done |]. unfold bget_choice in Hc. change (bufs_of (set_k_hw _ s)) with (bufs_of s).
  fold (is_block dev blockno). destruct (first_in (is_block dev blockno) (bufs_of s) l) as [b'|] eqn:E1.
  - injection Hc as -> <-. wp_step. apply wp_buf_upd.
    apply wp_bget_take; [done | done|]. exact HQ.
  - wp_step. apply (wp_bscan b_prev _ (rev l)); [done | by rewrite length_rev |].
    change (bufs_of (set_k_hw _ s)) with (bufs_of s). fold unused.
    destruct (first_in unused (bufs_of s) (rev l)) as [b'|] eqn:E2; [|done]. injection Hc as -> <-.
    wp_step. apply wp_buf_upd. wp_step. apply wp_buf_upd. wp_step. apply wp_buf_upd. wp_step. apply wp_buf_upd.
    unfold bufs_of at 1 2 3 4. cbn. rewrite !alter_alter.
    apply (wp_bget_take b (fun x => set_b_refcnt 1 (set_b_valid 0 (set_b_blockno blockno (set_b_dev dev x)))));
      [done | done|]. exact HQ.
Qed.
End bget.

(** ** Theorems *)

(** the cache is in order: the list is the recency order [l] and no block has two
    buffers *)
Definition cache_ok (s : kstate) (l : list nat) : Prop := lru (bufs_of s) l /\ one_copy (bufs_of s).

(** C29: [bget] is an LRU cache lookup: in a cache that is in order it answers the block's
    own buffer if there is one, otherwise the least recently used buffer that is not
    in use, taken over for the block with its contents invalid; if nobody has its lock,
    it is returned locked by the caller and with one more reference; nothing else changes, the recency
    order stays and no block gets a second buffer.  With every buffer in use it
    panics. *)
Theorem bget_lru (dev blockno : Z) e s l i p :
  hart_ok 2 (k_hw s) -> lock_free (k_hw s) LBcache -> cur_is (k_hw s) i ->
  ps_proc (k_ps s) !! i = Some p -> cache_ok s l ->
  match bget_choice dev blockno (bufs_of s) l with
  | Some (b, hit) => unlocked s b ->
      exists s', bget dev blockno e s = Ret b e s' /\ k_hw s' ≈h k_hw s /\
        s' = set_k_hw (k_hw s') (with_bufs s (alter (taken hit dev blockno (p_pid p)) b (bufs_of s))) /\
        cache_ok s' l
  | None => dies (bget dev blockno) e s "bget: no buffers"
  end.
Proof.
  intros Hok Hlk Hcur Hp [Hl Hone]. destruct (bget_choice dev blockno (bufs_of s) l) as [[b hit]|] eqn:Hc.
  - intros Hun.
    assert (H : wp (bget dev blockno) e s (fun r e' s' => e' = e /\ r = b /\ exists h', h' ≈h k_hw s /\
      s' = set_k_hw h' (with_bufs s (alter (taken hit dev blockno (p_pid p)) b (bufs_of s))))).
    { eapply wp_bget; eauto. }
    apply wp_run in H as (r & s' & Hr & -> & h' & Hh & ->). eexists. split; [done|]. split; [done|].
    split; [done|]. split.
    + apply lru_same; [by intros; destruct hit | by intros; destruct hit | done].
    + unfold bget_choice in Hc. destruct (first_in (is_block dev blockno) (bufs_of s) l) eqn:E.
      * injection Hc as -> <-. by apply one_copy_alter.
      * destruct (first_in unused (bufs_of s) (rev l)); [|done]. injection Hc as -> <-. by eapply one_copy_miss.
  - destruct (lru_walks _ _ Hl) as (Hw1 & Hw2 & Hlen). unfold bget_choice in Hc.
    apply dies_bind, wp_acquire; [by eapply hart_ok_weaken; [|done]; lia | done|].
    apply dies_bind, (wp_bscan b_next _ l); [done | done |]. change (bufs_of (set_k_hw _ s)) with (bufs_of s).
    fold (is_block dev blockno). destruct (first_in (is_block dev blockno) (bufs_of s) l); [done|].
    apply dies_bind, (wp_bscan b_prev _ (rev l)); [done | by rewrite length_rev |].
    change (bufs_of (set_k_hw _ s)) with (bufs_of s). fold unused.
    destruct (first_in unused (bufs_of s) (rev l)); [done|]. apply dies_panic.
Qed.

(** *** brelse *)

(** the order after a buffer has been used *)
Definition touch (b : nat) (l : list nat) : list nat := b :: filter (.≠ b) l.
(** the buffer with its lock and one reference given back *)
Definition dropped (x : buf) : buf :=
  set_b_refcnt (u32 (b_refcnt x - 1)) (set_b_lock (mksleeplock 0 (sl_name (b_lock x)) 0) x).

Lemma touch_split b l1 l2 : NoDup (l1 ++ b :: l2) -> touch b (l1 ++ b :: l2) = b :: l1 ++ l2.
Proof.
  intros (Hnd1 & Hd & [Hb Hnd2]%NoDup_cons)%NoDup_app. unfold touch. f_equal.
  rewrite filter_app, filter_cons_False by (by intros ?). f_equal; apply list_filter_all.
  - apply Forall_forall. intros x Hx ->. apply (Hd b Hx). by left.
  - apply Forall_forall. intros x Hx ->. done.
Qed.

Lemma buf_links bufs i : (i < length bufs)%nat ->
  exists y, bufs !! i = Some y /\ b_next y = nx bufs i /\ b_prev y = pv bufs i.
Proof.
  intros Hi. destruct (lookup_lt_is_Some_2 bufs i Hi) as [y Hy]. exists y. unfold nx, pv. by rewrite Hy.
Qed.
Lemma wp_bmove_front b e s (Q : unit -> list (kstate -> kstate) -> kstate -> Prop) :
  (b < length (bufs_of s))%nat -> (bhead < length (bufs_of s))%nat ->
  Q tt e (with_bufs s (moved_front b (bufs_of s))) -> wp (bmove_front b) e s Q.
Proof.
  intros Hb Hh HQ. unfold bmove_front.
  assert (Hat : forall i t (Q : buf -> list (kstate -> kstate) -> kstate -> Prop), (i < length t)%nat ->
    (forall y, b_next y = nx t i -> b_prev y = pv t i -> Q y e (with_bufs s t)) ->
    wp (buf_at i) e (with_bufs s t) Q).
  { intros i t Q' Hi HQ'. destruct (buf_links t i Hi) as (y & Hy & ? & ?). eapply wp_buf_at; [done | by apply HQ']. }
  rewrite <- (with_bufs_id s) at 1. wp_step. apply Hat; [done|]. intros y -> ->.
  wp_step. apply wp_buf_upd. wp_step. apply Hat; [by repeat first [rewrite length_alter | rewrite bufs_of_with]|]. intros y1 -> ->.
  wp_step. apply wp_buf_upd. wp_step. apply Hat; [by repeat first [rewrite length_alter | rewrite bufs_of_with]|]. intros y2 -> _.
  wp_step. apply wp_buf_upd. wp_step. apply wp_buf_upd.
  wp_step. apply Hat; [by repeat first [rewrite length_alter | rewrite bufs_of_with]|]. intros y3 -> _.
  wp_step. apply wp_buf_upd. apply wp_buf_upd. exact HQ.
Qed.


(** what a buffer holds, without its links *)
Definition payload (x : buf) : Z * Z * Z * Z * Z * list Z * sleeplock :=
  (b_valid x, b_disk x, b_dev x, b_blockno x, b_refcnt x, b_data x, b_lock x).
Lemma alter_payload f (k : nat) (t : list buf) : (forall x, payload (f x) = payload x) ->
  payload <$> alter f k t = payload <$> t.
Proof.
  intros Hf. apply list_eq. intros j. rewrite !list_lookup_fmap, list_lookup_alter.
  case_decide; [subst|done]. destruct (t !! j); cbn; [by rewrite Hf | done].
Qed.
Lemma moved_front_payload b bufs : payload <$> moved_front b bufs = payload <$> bufs.
Proof. unfold moved_front. by rewrite !alter_payload by done. Qed.
Lemma one_copy_payload bufs bufs' : payload <$> bufs = payload <$> bufs' -> one_copy bufs -> one_copy bufs'.
Proof.
  intros Heq H i j x y Hi Hj Hx Hy.
  assert (Hz : forall k z, bufs' !! k = Some z -> exists z0, bufs !! k = Some z0 /\ payload z0 = payload z).
  { intros k z Hk. assert (E : (payload <$> bufs) !! k = Some (payload z)) by by rewrite Heq, list_lookup_fmap, Hk.
    rewrite list_lookup_fmap in E. destruct (bufs !! k) as [z0|]; [|done]. exists z0. split; [done | exact (f_equal (default (payload z0)) E)]. }
  destruct (Hz i x Hx) as (x0 & Hx0 & [= _ _ <- <- _ _ _]), (Hz j y Hy) as (y0 & Hy0 & [= _ _ <- <- _ _ _]).
  by apply (H i j).
Qed.

(** the table after [brelse] *)
Definition relsed (b : nat) (bufs : list buf) : list buf :=
  let bufs' := alter dropped b bufs in
  if from_option b_refcnt 0 (bufs' !! b) =? 0 then moved_front b bufs' else bufs'.

Section brelse.
Context (b : nat) (e : list (kstate -> kstate)) (s : kstate) (l : list nat) (i : nat) (p : proc) (y : buf).
Context (ls : list (list nat)).
Context (Hok : hart_ok 2 (k_hw s)) (Hlk : lock_free (k_hw s) LBcache) (Hbl : lock_free (k_hw s) (LBuf b)).
Context (Hcur : cur_is (k_hw s) i) (Hp : ps_proc (k_ps s) !! i = Some p).
Context (Hpl : proc_locks_free (k_hw s) (Some i)) (Hinv : sched_inv (k_ps s) ls).
Context (Hl : lru (bufs_of s) l) (Hb : b ∈ l) (Hy : bufs_of s !! b = Some y).

Lemma eqv_env h : h ≈h k_hw s -> hart_ok 2 h /\ lock_free h LBcache /\ lock_free h (LBuf b) /\ cur_is h i /\
  proc_locks_free h (Some i).
Proof using All.
  intros H. symmetry in H. split_and!; [by eapply hart_ok_eqv | by eapply lock_free_eqv.. | by eapply cur_is_eqv |].
  intros j Hj Hne. eapply lock_free_eqv; [done | by apply Hpl].
Qed.

Lemma wp_brelse (Q : unit -> list (kstate -> kstate) -> kstate -> Prop) :
  sl_locked (b_lock y) = 1 -> sl_pid (b_lock y) = p_pid p ->
  (forall h' ps', h' ≈h k_hw s -> (exists ls', sched_inv ps' ls') -> same_misc (k_ps s) ps' ->
     ps_proc ps' = woken_table (CBufLock b) (Some i) NPROC (ps_proc (k_ps s)) ->
     Q tt e (set_k_hw h' (set_k_ps ps' (with_bufs s (relsed b (bufs_of s)))))) ->
  wp (brelse b) e s Q.
Proof using All.
  intros H1 Hpid HQ. unfold brelse. wp_step.
  assert (Hk : sl_find (SLBuf b) (k_fs s) = Some (b_lock y)) by (unfold bufs_of in Hy; cbn; by rewrite Hy).
  eapply (wp_holdingsleep (SLBuf b) (b_lock y) i p); [done..|]. rewrite H1, Hpid, Z.eqb_refl. cbn [istrue andb negb Z.eqb].
  pose proof (hw_crit_eqv (k_hw s)) as E1. destruct (eqv_env _ E1) as (O1 & L1 & B1 & C1 & P1).
  wp_step. eapply (wp_releasesleep (SLBuf b) (b_lock y) i p e (set_k_hw (hw_crit (k_hw s)) s) O1 B1 C1 Hp Hk ls); [exact P1 | exact Hinv |].
  intros ps' Hinv' Hmisc Ht. set (h2 := hw_crit (hw_crit (k_hw s))).
  assert (E2 : h2 ≈h k_hw s) by (unfold h2; by rewrite hw_crit_eqv). destruct (eqv_env _ E2) as (O2 & L2 & _).
  cbn [k_hw set_k_hw]. fold h2. wp_step.
  apply wp_acquire; [cbn; by eapply hart_ok_weaken; [|done]; lia | done|].
  wp_step. apply wp_buf_upd. cbn [sl_put].
  set (bufs' := alter dropped b (bufs_of s)).
  assert (Eb : alter (fun x => set_b_refcnt (u32 (b_refcnt x - 1)) x) b
    (alter (set_b_lock (mksleeplock 0 (sl_name (b_lock y)) 0)) b (bufs_of s)) = bufs').
  { rewrite alter_alter. by apply (alter_at _ _ _ _ y). }
  match goal with |- wp _ _ ?s1 _ => assert (Es : s1 = set_k_hw (hw_acq LBcache h2) (set_k_ps ps' (with_bufs s bufs'))) end.
  { unfold with_bufs, bufs_of in *. cbn. rewrite Eb. done. }
  rewrite Es. clear Es Eb. wp_step. eapply wp_buf_at.
  { unfold bufs_of. cbn. unfold bufs'. rewrite list_lookup_alter_eq, Hy. done. }
  assert (Hr : relsed b (bufs_of s) = if b_refcnt (dropped y) =? 0 then moved_front b bufs' else bufs').
  { unfold relsed. fold bufs'. unfold bufs' at 1. by rewrite list_lookup_alter_eq, Hy. }
  wp_step. apply wp_when; intros Hz; rewrite Hz in Hr.
  - apply wp_bmove_front.
    + unfold bufs_of. cbn. unfold bufs'. rewrite length_alter. by eapply lookup_lt_Some.
    + unfold bufs_of. cbn. unfold bufs'. rewrite length_alter. destruct Hl as [-> _]. unfold bhead. lia.
    + eapply (wp_release_acq _ h2 2); [lia | done | done | done |].
      specialize (HQ (hw_crit h2) ps'). rewrite Hr in HQ. apply HQ; [by rewrite hw_crit_eqv | done..].
  - eapply (wp_release_acq _ h2 2); [lia | done | done | done |]. cbn. rewrite <- Hr.
    apply (HQ (hw_crit h2)); [by rewrite hw_crit_eqv | done..].
Qed.
End brelse.

(** C30: [brelse] keeps the cache in order: called by the process that holds the buffer, it
    unlocks it, drops one reference and wakes exactly the processes waiting for the
    buffer; the buffer moves to the front of the recency order when that was the last
    reference, and otherwise the order stays; no buffer's contents or identity
    changes.  Called by any other process it panics. *)
Theorem brelse_lru b e s l i p y ls :
  hart_ok 2 (k_hw s) -> lock_free (k_hw s) LBcache -> lock_free (k_hw s) (LBuf b) ->
  cur_is (k_hw s) i -> ps_proc (k_ps s) !! i = Some p ->
  proc_locks_free (k_hw s) (Some i) -> sched_inv (k_ps s) ls ->
  cache_ok s l -> b ∈ l -> bufs_of s !! b = Some y -> 1 <= b_refcnt y < 2 ^ 32 ->
  if istrue (sl_locked (b_lock y)) && (sl_pid (b_lock y) =? p_pid p) then
    sl_locked (b_lock y) = 1 ->
    exists s', brelse b e s = Ret tt e s' /\ k_hw s' ≈h k_hw s /\ k_mm s' = k_mm s /\
      cache_ok s' (if b_refcnt y =? 1 then touch b l else l) /\
      payload <$> bufs_of s' = payload <$> alter dropped b (bufs_of s) /\
      ps_proc (k_ps s') = woken_table (CBufLock b) (Some i) NPROC (ps_proc (k_ps s))
  else dies (brelse b) e s "brelse".
Proof.
  intros Hok Hlk Hbl Hcur Hp Hpl Hinv [Hl Hone] Hb Hy Href.
  assert (Hk : sl_find (SLBuf b) (k_fs s) = Some (b_lock y)) by (unfold bufs_of in Hy; cbn; by rewrite Hy).
  destruct (istrue (sl_locked (b_lock y)) && (sl_pid (b_lock y) =? p_pid p)) eqn:Hheld.
  2:{ apply dies_bind. eapply (wp_holdingsleep (SLBuf b) (b_lock y) i p); [done..|]. rewrite Hheld. apply dies_panic. }
  intros H1. apply andb_true_iff in Hheld as [_ Hpid%Z.eqb_eq].
  assert (H : wp (brelse b) e s (fun r e' s' => e' = e /\ k_hw s' ≈h k_hw s /\ k_mm s' = k_mm s /\
    bufs_of s' = relsed b (bufs_of s) /\
    ps_proc (k_ps s') = woken_table (CBufLock b) (Some i) NPROC (ps_proc (k_ps s)))).
  { eapply (wp_brelse b e s l i p y ls); eauto 10. }
  apply wp_run in H as ([] & s' & Hr & Hh & Hm & Ht & Hw). exists s'. unfold cache_ok. rewrite Ht.
  assert (Hpay : payload <$> relsed b (bufs_of s) = payload <$> alter dropped b (bufs_of s)).
  { unfold relsed. by destruct (_ =? 0); [rewrite moved_front_payload|]. }
  assert (Hl' : lru (alter dropped b (bufs_of s)) l) by by apply lru_same.
  split_and!; try done.
  - unfold relsed. rewrite list_lookup_alter_eq, Hy. cbn.
    destruct (Z.eqb_spec (b_refcnt y) 1) as [E|E].
    + rewrite E. change (u32 (1 - 1) =? 0) with true. cbv iota.
      pose proof (lru_nodup _ _ Hl) as [_ Hnd]%NoDup_cons.
      apply list_elem_of_split in Hb as (l1 & l2 & ->). rewrite touch_split by done. by apply moved_front_lru.
    + rewrite u32_small by lia. destruct (Z.eqb_spec (b_refcnt y - 1) 0); [lia | done].
  - eapply one_copy_payload; [by symmetry|]. by apply one_copy_alter.
Qed.

(** *** binit *)

(** one round of [binit]'s loop on the table, [k] being the buffer's new lock *)
Definition linked_front (b : nat) (k : sleeplock) (bufs : list buf) : list buf :=
  let t := alter (set_b_lock k) b (alter (set_b_prev bhead) b (alter (set_b_next (nx bufs bhead)) b bufs)) in
  alter (set_b_next b) bhead (alter (set_b_prev b) (nx bufs bhead) t).

Lemma linked_front_chain b k bufs l : length bufs = S NBUF -> (b < NBUF)%nat -> (forall x, x ∈ l -> (x < b)%nat) ->
  NoDup l -> dchain (nx bufs) (pv bufs) bhead l bhead ->
  length (linked_front b k bufs) = S NBUF /\
  dchain (nx (linked_front b k bufs)) (pv (linked_front b k bufs)) bhead (b :: l) bhead.
Proof.
  intros Hlen Hb Hl Hnd Hc. unfold linked_front.
  assert (Hne : bhead <> b) by (unfold bhead; lia).
  assert (Hnx : (nx bufs bhead < length bufs)%nat).
  { pose proof (dchain_nx_in _ _ _ _ _ bhead Hc ltac:(by left)) as Hin.
    apply elem_of_app in Hin as [Hin%Hl| ->%list_elem_of_singleton]; rewrite Hlen; [lia | unfold bhead; lia]. }
  set (t := alter (set_b_lock k) b _).
  assert (Lt : length t = S NBUF) by (unfold t; by rewrite !length_alter).
  assert (Nt : forall j, nx t j = upd (nx bufs) b (nx bufs bhead) j).
  { intros j. unfold t. by rewrite !nx_same, nx_next by (done || lia). }
  assert (Pt : forall j, pv t j = upd (pv bufs) b bhead j).
  { intros j. unfold t. rewrite pv_same, pv_prev by (done || (rewrite length_alter; lia)).
    unfold upd. case_decide; [done | by apply pv_same]. }
  split; [by rewrite !length_alter|].
  eapply dchain_ext; [| |apply (dchain_push (nx bufs) (pv bufs) bhead b l); [|done]].
  - intros j _. rewrite nx_next by (rewrite length_alter, Lt; unfold bhead; lia).
    destruct (decide (j = bhead)) as [->|Hj]; [by rewrite !upd_eq|]. rewrite !(upd_ne _ bhead), nx_same by done. apply Nt.
  - intros j _. rewrite pv_same, pv_prev by (done || lia).
    destruct (decide (j = nx bufs bhead)) as [->|Hj]; [by rewrite !upd_eq|].
    rewrite !(upd_ne _ (nx bufs bhead)) by done. apply Pt.
  - apply NoDup_cons. split; [|apply NoDup_cons; split; [intros ?%Hl; lia | done]].
    intros [?|Hin%Hl]%elem_of_cons; [done | unfold bhead in *; lia].
Qed.

Lemma wp_initsleeplock b name x e s (Q : unit -> list (kstate -> kstate) -> kstate -> Prop) :
  bufs_of s !! b = Some x ->
  (forall h, Q tt e (set_k_hw h (with_bufs s (alter (set_b_lock (mksleeplock 0 name 0)) b (bufs_of s))))) ->
  wp (initsleeplock (SLBuf b) name) e s Q.
Proof.
  intros Hx HQ. assert (Hf : sl_find (SLBuf b) (k_fs s) = Some (b_lock x)) by (unfold bufs_of in Hx; cbn; by rewrite Hx).
  unfold initsleeplock, initlock, upd_lock, modify_hw, sl_set, modify_fs. wp_steps.
  eapply wp_sl_get; [done|]. wp_steps. eapply wp_sl_get; [cbn [k_fs set_k_fs set_k_hw]; by apply sl_find_put|]. wp_steps.
  eapply wp_sl_get; [cbn [k_fs set_k_fs set_k_hw]; apply sl_find_put; by rewrite sl_find_put|]. wp_steps.
  cbn [k_fs set_k_fs set_k_hw]. rewrite !sl_put_put. apply HQ.
Qed.

Lemma Forall_alter_same {A} (P : A -> Prop) f (i : nat) (l : list A) : (forall x, P (f x) <-> P x) ->
  Forall P (alter f i l) <-> Forall P l.
Proof.
  intros Hf. revert i. induction l as [|x l IH]; intros [|i]; cbn; rewrite ?Forall_cons, ?Hf, ?IH; done.
Qed.

(** one round of the loop *)
Lemma wp_binit_round b e s (Q : unit -> list (kstate -> kstate) -> kstate -> Prop) :
  (b < length (bufs_of s))%nat -> (bhead < length (bufs_of s))%nat -> bhead <> b ->
  (forall h, Q tt e (set_k_hw h (with_bufs s (linked_front b (mksleeplock 0 "buffer" 0) (bufs_of s))))) ->
  wp (h <- buf_at bhead;;
      buf_upd b (set_b_next (b_next h));;
      buf_upd b (set_b_prev bhead);;
      initsleeplock (SLBuf b) "buffer";;
      h <- buf_at bhead;;
      buf_upd (b_next h) (set_b_prev b);;
      buf_upd bhead (set_b_next b)) e s Q.
Proof.
  intros Hb Hh Hne HQ. destruct (buf_links (bufs_of s) bhead Hh) as (y & Hy & Hn & _).
  wp_step. eapply wp_buf_at; [done|]. rewrite Hn. wp_step. apply wp_buf_upd. wp_step. apply wp_buf_upd.
  destruct (lookup_lt_is_Some_2 (bufs_of s) b Hb) as [x Hx].
  wp_step. eapply wp_initsleeplock.
  { rewrite !bufs_of_with, !list_lookup_alter_eq, Hx. done. }
  intros h. wp_step. eapply wp_buf_at.
  { unfold bufs_of in *. cbn. rewrite !list_lookup_alter_ne by done. exact Hy. }
  rewrite Hn. wp_step. apply wp_buf_upd. apply wp_buf_upd. exact (HQ h).
Qed.

Lemma binit_ok e s : length (bufs_of s) = S NBUF -> Forall (fun x => b_dev x = 0) (bufs_of s) ->
  exists s', binit e s = Ret tt e s' /\ cache_ok s' (rev (seq 0 NBUF)) /\
    Forall (fun x => b_dev x = 0) (bufs_of s') /\
    k_ps s' = k_ps s /\ k_mm s' = k_mm s /\ k_io s' = k_io s.
Proof.
  intros Hlen Hdev. apply wp_run_tt. unfold binit, initlock, upd_lock, modify_hw. wp_steps. apply wp_buf_upd.
  wp_step. apply wp_buf_upd.
  apply (wp_seq _ (fun k s' => length (bufs_of s') = S NBUF /\ dchain (nx (bufs_of s')) (pv (bufs_of s')) bhead (rev (seq 0 k)) bhead /\
    Forall (fun x => b_dev x = 0) (bufs_of s') /\ k_ps s' = k_ps s /\ k_mm s' = k_mm s /\ k_io s' = k_io s)).
  - unfold bufs_of in *. cbn. rewrite !length_alter.
    assert (Hh : (bhead < length (fs_buf (k_fs s)))%nat) by (rewrite Hlen; unfold bhead; lia).
    split_and!; try done.
    + rewrite nx_next, upd_eq by (by rewrite length_alter). done.
    + rewrite pv_same, pv_prev, upd_eq by done. done.
    + by rewrite !Forall_alter_same.
  - intros k s1 Hk (L & C & D & P & M & I). rewrite seq_S, rev_app_distr. cbn [rev app].
    destruct (linked_front_chain k (mksleeplock 0 "buffer" 0) (bufs_of s1) (rev (seq 0 k))) as [L' C']; [done | done | | | done |].
    { intros x. rewrite <- Permutation_rev, elem_of_seq. lia. }
    { rewrite <- Permutation_rev. apply NoDup_seq. }
    apply (wp_binit_round k e s1); [by rewrite L; lia | rewrite L; unfold bhead; lia | unfold bhead; lia |]. intros h.
    split; [done|]. split_and!; [exact L' | exact C' | | exact P | exact M | exact I].
    unfold linked_front. cbn. by rewrite !Forall_alter_same.
  - intros s' (L & C & D & E). split; [done|]. split; [|done]. split.
    + split_and!; [done | by rewrite <- Permutation_rev | done].
    + intros i j x y _ _ Hx _ Hd. rewrite (Forall_lookup_1 _ _ _ _ D Hx) in Hd. done.
Qed.

(** [binit] puts the zero-initialised cache in order: all NBUF buffers are linked, the
    last one first, each buffer's lock is free, and no block is cached. *)
Lemma binit_lru e s : length (bufs_of s) = S NBUF -> Forall (fun x => b_dev x = 0) (bufs_of s) ->
  exists s', binit e s = Ret tt e s' /\ cache_ok s' (rev (seq 0 NBUF)) /\
    Forall (fun x => b_dev x = 0) (bufs_of s') /\
    k_ps s' = k_ps s /\ k_mm s' = k_mm s /\ k_io s' = k_io s.
Proof. apply binit_ok. Qed.

(** the cache of a machine whose slot 0 runs, just initialised *)
Definition cache_boot : kstate := mkK hw1 ps1 mm0 io0 fs0.
Definition after {A} (m : K A) (s : kstate) : kstate := match m [] s with Ret _ _ s' => s' | _ => s end.
Definition cache_demo : kstate := after binit cache_boot.

Lemma binit_lru_witness :
  exists s', binit [] cache_boot = Ret tt [] s' /\ cache_ok s' (rev (seq 0 NBUF)).
Proof.
  destruct (binit_lru [] cache_boot) as (s' & H1 & H2 & _).
  - vm_compute. reflexivity.
  - vm_compute. repeat constructor.
  - exists s'. split; [exact H1 | exact H2].
Defined.

Lemma cache_demo_ok : cache_ok cache_demo (rev (seq 0 NBUF)) /\ k_ps cache_demo = ps1.
Proof.
  destruct (binit_ok [] cache_boot) as (s' & H1 & H2 & _ & H3 & _);
    [vm_compute; reflexivity | vm_compute; repeat constructor |].
  unfold cache_demo, after. rewrite H1. split; [exact H2 | exact H3].
Qed.
Definition free_in (h : hwstate) (l : lockid) : bool :=
  match h_locks h !! l with
  | Some k => (lk_locked k =? 0) && bool_decide (lk_cpu k = None)
  | None => false
  end.
Lemma free_in_spec h l : free_in h l = true -> lock_free h l.
Proof.
  unfold free_in, lock_free. destruct (h_locks h !! l) as [[k n c]|]; [|done]. cbn.
  intros [->%Z.eqb_eq ->%bool_decide_eq_true]%andb_true_iff. by exists n.
Qed.
Lemma cache_demo_hw : hart_ok 2 (k_hw cache_demo) /\ cur_is (k_hw cache_demo) 0 /\
  free_in (k_hw cache_demo) LBcache = true /\ free_in (k_hw cache_demo) (LBuf 0) = true /\
  proc_locks_free (k_hw cache_demo) (Some 0%nat).
Proof.
  split_and!; [| vm_compute; reflexivity | vm_compute; reflexivity | vm_compute; reflexivity |].
  - eexists. split; [vm_compute; reflexivity|]. split; [cbn; lia | vm_compute; done].
  - intros i Hi _. apply free_in_spec.
    assert (H : forallb (fun i => free_in (k_hw cache_demo) (LProc i)) (seq 0 NPROC) = true) by (vm_compute; reflexivity).
    rewrite forallb_forall in H. apply H, in_seq. lia.
Qed.
Definition demo_me : proc := demo_proc 0 RUNNING CNull 1 0 None.

Lemma bget_lru_witness : exists s', bget 1 5 [] cache_demo = Ret 0%nat [] s' /\
  cache_ok s' (rev (seq 0 NBUF)).
Proof.
  destruct cache_demo_hw as (H1 & H2 & H3 & H4 & _). destruct cache_demo_ok as [H5 H6].
  pose proof (bget_lru 1 5 [] cache_demo (rev (seq 0 NBUF)) 0 demo_me H1 (free_in_spec _ _ H3) H2
    ltac:(vm_compute; reflexivity) H5) as H.
  assert (E : bget_choice 1 5 (bufs_of cache_demo) (rev (seq 0 NBUF)) = Some (0%nat, false)) by (vm_compute; reflexivity).
  rewrite E in H. destruct H as (s' & Hr & _ & _ & Hok).
  - split; [exact (free_in_spec _ _ H4)|]. eexists. split; [vm_compute; reflexivity | vm_compute; reflexivity].
  - exists s'. split; [exact Hr | exact Hok].
Defined.

(** the same cache with block 5 of device 1 taken by the running process *)
Definition cache_held : kstate := with_bufs cache_demo (alter (taken false 1 5 (p_pid demo_me)) 0%nat (bufs_of cache_demo)).
Lemma cache_held_ok : cache_ok cache_held (rev (seq 0 NBUF)).
Proof.
  destruct cache_demo_ok as [[H1 H2] _]. split.
  - by apply lru_same.
  - eapply one_copy_miss; [exact H1 | exact H2 | vm_compute; reflexivity].
Qed.
Lemma with_bufs_rest s t : k_hw (with_bufs s t) = k_hw s /\ k_ps (with_bufs s t) = k_ps s.
Proof. done. Qed.
Lemma brelse_lru_witness : exists s', brelse 0 [] cache_held = Ret tt [] s' /\
  cache_ok s' (touch 0 (rev (seq 0 NBUF))).
Proof.
  destruct cache_demo_hw as (H1 & H2 & H3%free_in_spec & H4%free_in_spec & H5).
  destruct (with_bufs_rest cache_demo (alter (taken false 1 5 (p_pid demo_me)) 0%nat (bufs_of cache_demo))) as [Eh Ep].
  fold cache_held in Eh, Ep. rewrite <- Eh in H1, H2, H3, H4, H5. rewrite (proj2 cache_demo_ok) in Ep.
  destruct (bufs_of cache_held !! 0%nat) as [y|] eqn:Hy; [|vm_compute in Hy; discriminate].
  assert (Hf : sl_locked (b_lock y) = 1 /\ sl_pid (b_lock y) = p_pid demo_me /\ b_refcnt y = 1).
  { vm_compute in Hy. injection Hy as <-. vm_compute. tauto. }
  destruct Hf as (F1 & F2 & F3).
  pose proof (brelse_lru 0 [] cache_held (rev (seq 0 NBUF)) 0 demo_me y demo_queues H1 H3 H4 H2) as H.
  rewrite Ep in H. specialize (H eq_refl H5 demo_sched_inv cache_held_ok).
  rewrite F1, F2, F3, !Z.eqb_refl in H. destruct H as (s' & Hr & _ & _ & Hok & _); [| exact Hy | lia | reflexivity |].
  - apply (bool_decide_unpack _). vm_compute. exact I.
  - exists s'. split; [exact Hr | exact Hok].
Defined.
