(* ===== verification/Log.v ===== *)
(** The write-ahead log (log.c).

    The routines that move blocks between the cache, the log and their home
    locations are written against the interface [BufCache]; the kernel uses them
    with the buffer cache of bio.c.  With an ideal cache over a disk that writes
    one block at a time, [commit] is proved atomic with respect to crashes: from
    any point of it, [recover_from_log] restores either all old or all new
    contents ([LogCrash]). *)
From S2P Require Import Prelude State Spinlock Queue Boot Cstring Kalloc Proc Copyio Sleeplock Disk Bio.

(** ** Little-endian words in a block *)
Definition get8 (l : list Z) (off : nat) : Z := default 0 (l !! off).
Definition get32 (l : list Z) (off : nat) : Z :=
  get8 l off + 256 * (get8 l (off + 1) + 256 * (get8 l (off + 2) + 256 * get8 l (off + 3))).
Definition put32 (l : list Z) (off : nat) (v : Z) : list Z :=
  <[off := u8 v]> (<[(off + 1)%nat := u8 (v / 2 ^ 8)]>
    (<[(off + 2)%nat := u8 (v / 2 ^ 16)]> (<[(off + 3)%nat := u8 (v / 2 ^ 24)]> l))).

(** struct logheader: [n] at offset 0, [block[i]] at offset 4 + 4 i *)
Definition lh_block (i : nat) : nat := (4 + 4 * i)%nat.

(** ** log.c, over any buffer cache *)
Class HasLog (S : Type) := {
  log_get : S -> logst;
  log_put : (logst -> logst) -> S -> S;
}.

Section log.
Context {S : Type} `{!HasLog S} `{!BufCache S}.

Definition lgets {A} (f : logst -> A) : M S A := gets (fun s => f (log_get s)).
Definition lmod (f : logst -> logst) : M S unit := modify (log_put f).

(** [log.lh.block[i]] *)
Definition log_block_at (i : nat) : M S Z :=
  l <- lgets log_block;;
  match l !! i with Some b => ret b | None => fault "log.lh.block: out of bounds" end.
Definition log_set_block (i : nat) (b : Z) : M S unit :=
  l <- lgets log_block;;
  if decide (i < length l)%nat then lmod (set_log_block (<[i := b]> l))
  else fault "log.lh.block: out of bounds".

(** Copy committed blocks from log to their home location. *)
Definition install_trans (recovering : bool) : M S unit :=
  n <- lgets log_n;;
  mforall (seq 0 (Z.to_nat n)) (fun tail =>
    dev <- lgets log_dev;;
    start <- lgets log_start;;
    lbuf <- bc_read dev (u32 (start + tail + 1));;
    b <- log_block_at tail;;
    dbuf <- bc_read dev (u32 b);;
    data <- bc_data lbuf;;
    bc_set_data dbuf data;;
    bc_write dbuf;;
    when (negb recovering) (bc_unpin dbuf);;
    bc_relse lbuf;;
    bc_relse dbuf).

(** Read the log header from disk into the in-memory log header. *)
Definition read_head : M S unit :=
  dev <- lgets log_dev;;
  start <- lgets log_start;;
  buf <- bc_read dev (u32 start);;
  lh <- bc_data buf;;
  lmod (set_log_n (s32 (get32 lh 0)));;
  n <- lgets log_n;;
  mforall (seq 0 (Z.to_nat n)) (fun i => log_set_block i (s32 (get32 lh (lh_block i))));;
  bc_relse buf.

(** Write in-memory log header to disk. *)
Definition write_head : M S unit :=
  dev <- lgets log_dev;;
  start <- lgets log_start;;
  buf <- bc_read dev (u32 start);;
  n <- lgets log_n;;
  hb <- bc_data buf;;
  bc_set_data buf (put32 hb 0 n);;
  mforall (seq 0 (Z.to_nat n)) (fun i =>
    b <- log_block_at i;;
    hb <- bc_data buf;;
    bc_set_data buf (put32 hb (lh_block i) b));;
  bc_write buf;;
  bc_relse buf.

Definition recover_from_log : M S unit :=
  read_head;;
  install_trans true;;
  lmod (set_log_n 0);;
  write_head.

(** Copy modified blocks from cache to log. *)
Definition write_log : M S unit :=
  n <- lgets log_n;;
  mforall (seq 0 (Z.to_nat n)) (fun tail =>
    dev <- lgets log_dev;;
    start <- lgets log_start;;
    to <- bc_read dev (u32 (start + tail + 1));;
    b <- log_block_at tail;;
    from <- bc_read dev (u32 b);;
    data <- bc_data from;;
    bc_set_data to data;;
    bc_write to;;
    bc_relse from;;
    bc_relse to).

Definition commit : M S unit :=
  n <- lgets log_n;;
  when (0 <? n)
    (write_log;;
     write_head;;
     install_trans false;;
     lmod (set_log_n 0);;
     write_head).

(** the absorption loop of [log_write]: the entry of block [b], or [n] *)
Definition log_find (b : Z) : M S nat :=
  n <- lgets log_n;;
  r <- mfor (seq 0 (Z.to_nat n)) (fun i =>
    x <- log_block_at i;;
    ret (if u32 x =? b then Some i else None));;
  ret (default (Z.to_nat n) r).
End log.

(** ** log.c, in the kernel *)
#[export] Instance kernel_log : HasLog kstate := {
  log_get s := fs_log (k_fs s);
  log_put f s := set_k_fs (set_fs_log (f (fs_log (k_fs s))) (k_fs s)) s;
}.

(** [sizeof(struct logheader)] is 124 < BSIZE, so the first test never fires *)
Definition initlog (dev : Z) (sb : superblock) : K unit :=
  if BSIZE <=? 4 + 4 * LOGSIZE then panic "initlog: too big logheader" else
  initlock LLog "log";;
  lmod (set_log_start (s32 (sb_logstart sb)));;
  lmod (set_log_size (s32 (sb_nlog sb)));;
  lmod (set_log_dev dev);;
  recover_from_log.

Definition begin_op : K unit :=
  acquire LLog;;
  sleep_loop 0 tt (fun _ =>
    committing <- lgets log_committing;;
    n <- lgets log_n;;
    out <- lgets log_outstanding;;
    if istrue committing then sleep CLog LLog;; ret (inl tt)
    else if LOGSIZE <? n + (out + 1) * MAXOPBLOCKS then sleep CLog LLog;; ret (inl tt)
    else
      lmod (set_log_outstanding (s32 (out + 1)));;
      release LLog;;
      ret (inr tt)).

Definition end_op : K unit :=
  acquire LLog;;
  out <- lgets log_outstanding;;
  lmod (set_log_outstanding (s32 (out - 1)));;
  committing <- lgets log_committing;;
  if istrue committing then panic "log.committing" else
  out <- lgets log_outstanding;;
  let do_commit := out =? 0 in
  (if do_commit then lmod (set_log_committing 1) else wakeup CLog);;
  release LLog;;
  when do_commit
    (commit;;
     acquire LLog;;
     lmod (set_log_committing 0);;
     wakeup CLog;;
     release LLog).

Definition log_write (b : nat) : K unit :=
  acquire LLog;;
  n <- lgets log_n;;
  size <- lgets log_size;;
  if (LOGSIZE <=? n) || (size - 1 <=? n) then panic "too big a transaction" else
  out <- lgets log_outstanding;;
  if out <? 1 then panic "log_write outside of trans" else
  blockno <- buf_blockno b;;
  i <- log_find blockno;;
  log_set_block i (s32 blockno);;
  when (Z.of_nat i =? n)
    (bpin b;;
     lmod (set_log_n (s32 (n + 1))));;
  release LLog.
