(* ===== verification/LogCrash.v ===== *)
(** Crash safety of the log: [commit] of log.c on an ideal buffer cache.

    [astate] has the blocks on disk, the blocks as the cache shows them and
    the history of the disk: every block write, in the order the code issues
    them.  A block write is atomic and durable when it returns.  A crash keeps
    the disk and loses everything else.  The theorem: whatever prefix of the
    history [commit] leaves reached the disk, [recover_from_log] leaves the home
    locations either all as before the transaction or all as committed. *)
From S2P Require Import Prelude State Bio Log.

Record astate := mkastate {
  a_disk : Z -> list Z;
  a_mem : Z -> list Z;
  a_log : logst;
  a_hist : list (Z * list Z)  (* the block writes so far, oldest first *)
}.

Definition upd1 (f : Z -> list Z) (b : Z) (l : list Z) : Z -> list Z :=
  fun x => if x =? b then l else f x.
Definition upds (f : Z -> list Z) (w : list (Z * list Z)) : Z -> list Z :=
  fold_left (fun f bl => upd1 f bl.1 bl.2) w f.

#[export] Instance ideal_log : HasLog astate := {
  log_get := a_log;
  log_put f s := mkastate (a_disk s) (a_mem s) (f (a_log s)) (a_hist s);
}.
(** the handle of a buffer is its block number; [bwrite] changes the disk and is
    appended to the history *)
#[export] Instance ideal_cache : BufCache astate := {
  bc_read _ b := ret (Z.to_nat b);
  bc_write h := modify (fun s =>
    mkastate (upd1 (a_disk s) (Z.of_nat h) (a_mem s (Z.of_nat h))) (a_mem s) (a_log s)
      (a_hist s ++ [(Z.of_nat h, a_mem s (Z.of_nat h))]));
  bc_relse _ := ret tt;
  bc_pin _ := ret tt;
  bc_unpin _ := ret tt;
  bc_data h := gets (fun s => a_mem s (Z.of_nat h));
  bc_set_data h l := modify (fun s => mkastate (a_disk s) (upd1 (a_mem s) (Z.of_nat h) l) (a_log s) (a_hist s));
  bc_blockno h := ret (Z.of_nat h);
}.

#[global] Arguments put32 : simpl never.
#[global] Arguments get32 : simpl never.
#[global] Arguments lh_block : simpl never.
(** run the primitives of the ideal cache *)
Ltac ideal_cbn := cbn [bc_read bc_write bc_relse bc_pin bc_unpin bc_data bc_set_data
  ideal_cache log_get log_put ideal_log a_log a_mem a_disk a_hist].
Ltac wp_ideal := repeat first [wp_step | progress ideal_cbn].

(** the machine after a crash, as [initlog] finds it *)
Definition reboot (d : Z -> list Z) (l : logst) : astate :=
  mkastate d d (mklog (log_start l) (log_size l) 0 0 (log_dev l) 0 (replicate 30 0)) [].

(** ** Writes *)
Lemma upds_app f w1 w2 : upds f (w1 ++ w2) = upds (upds f w1) w2.
Proof. apply fold_left_app. Qed.
#[global] Arguments upds : simpl never.
Lemma upds_cons f b l w : upds f ((b, l) :: w) = upds (upd1 f b l) w.
Proof. done. Qed.
Lemma upds_other f w b : b ∉ w.*1 -> upds f w b = f b.
Proof.
  revert f. induction w as [|[c l] w IH]; intros f Hb; [done|].
  cbn in Hb. rewrite upds_cons, IH by set_solver. unfold upd1. destruct (Z.eqb_spec b c); [set_solver | done].
Qed.
Lemma upds_hit f w i b l : NoDup w.*1 -> w !! i = Some (b, l) -> upds f w b = l.
Proof.
  revert f i. induction w as [|[c l'] w IH]; intros f i Hnd Hi; [done|]. rewrite upds_cons. cbn in Hnd.
  apply NoDup_cons in Hnd as [Hc Hnd]. destruct i as [|i]; cbn in Hi.
  - simplify_eq. rewrite upds_other by done. unfold upd1. by rewrite Z.eqb_refl.
  - by apply (IH _ i).
Qed.
Lemma upds_ext f g w : (forall b, f b = g b) -> forall b, upds f w b = upds g w b.
Proof.
  revert f g. induction w as [|[c l] w IH]; intros f g H b; [by apply H|].
  rewrite !upds_cons. apply IH. intros x. unfold upd1. by destruct (x =? c).
Qed.
Lemma upds_one f b l : upds f [(b, l)] = upd1 f b l.
Proof. done. Qed.
Lemma upds_snoc f w b l : upds f (w ++ [(b, l)]) = upd1 (upds f w) b l.
Proof. by rewrite upds_app. Qed.

(** ** Header blocks *)
Lemma get8_insert l i j v : (i < length l)%nat ->
  get8 (<[i := v]> l) j = if decide (i = j) then v else get8 l j.
Proof.
  intros Hi. unfold get8. rewrite list_lookup_insert_case.
  destruct (decide (i = j)); [rewrite decide_True by done | rewrite decide_False by tauto]; done.
Qed.
Lemma u8_div v k : 0 <= v -> u8 (v / 2 ^ k) = v / 2 ^ k mod 256.
Proof. done. Qed.
Lemma put32_length l off v : length (put32 l off v) = length l.
Proof. unfold put32. by rewrite !length_insert. Qed.
Lemma get8_put32_other l off v j : (off + 4 <= length l)%nat -> (j < off \/ off + 4 <= j)%nat ->
  get8 (put32 l off v) j = get8 l j.
Proof.
  intros Hl Hj. unfold put32. rewrite !get8_insert by (rewrite ?length_insert; lia).
  rewrite !decide_False by lia. done.
Qed.
Lemma get32_put32 l off v : (off + 4 <= length l)%nat -> 0 <= v < 2 ^ 31 ->
  s32 (get32 (put32 l off v) off) = v.
Proof.
  intros Hl Hv. unfold get32, put32.
  repeat (rewrite get8_insert by (rewrite ?length_insert; lia)).
  rewrite !decide_True by done. rewrite !decide_False by lia. rewrite !decide_True by done.
  repeat (rewrite get8_insert by (rewrite ?length_insert; lia)).
  repeat (rewrite ?decide_True by lia; rewrite ?decide_False by lia).
  unfold u8.
  assert (v mod 2 ^ 8 + 256 * (v / 2 ^ 8 mod 2 ^ 8 + 256 * (v / 2 ^ 16 mod 2 ^ 8 + 256 * (v / 2 ^ 24 mod 2 ^ 8))) = v) as ->.
  { change (2 ^ 16) with (2 ^ 8 * 2 ^ 8). change (2 ^ 24) with (2 ^ 8 * 2 ^ 8 * 2 ^ 8).
    rewrite <- !Z.div_div by lia. change (2 ^ 8) with 256.
    assert (v / 256 / 256 / 256 < 256) by (rewrite !Z.div_div by lia; apply Z.div_lt_upper_bound; lia).
    assert (0 <= v / 256 / 256 / 256) by (repeat apply Z.div_pos; lia).
    rewrite (Z.mod_small (v / 256 / 256 / 256)) by lia.
    pose proof (Z.div_mod v 256). pose proof (Z.div_mod (v / 256) 256).
    pose proof (Z.div_mod (v / 256 / 256) 256). lia. }
  apply s32_small. lia.
Qed.
Lemma get32_put32_other l off v j : (off + 4 <= length l)%nat -> (j + 4 <= off \/ off + 4 <= j)%nat ->
  get32 (put32 l off v) j = get32 l j.
Proof. intros Hl Hj. unfold get32. by rewrite !get8_put32_other by lia. Qed.

(** what [write_head] makes of header block [hb] *)
Definition header (hb : list Z) (bs : list Z) (k : nat) : list Z :=
  fold_left (fun hb i => put32 hb (lh_block i) (default 0 (bs !! i))) (seq 0 k)
    (put32 hb 0 (length bs)).
#[global] Arguments header : simpl never.
Lemma header_S hb bs k : header hb bs (S k) = put32 (header hb bs k) (lh_block k) (default 0 (bs !! k)).
Proof. unfold header. by rewrite seq_S, fold_left_app. Qed.
Lemma header_length hb bs k : length (header hb bs k) = length hb.
Proof. induction k as [|k IH]; [apply put32_length | by rewrite header_S, put32_length]. Qed.

Definition block_ok (b : Z) : Prop := 0 <= b < 2 ^ 31.
Section header.
Context (hb bs : list Z) (Hhb : (124 <= length hb)%nat).
Context (Hbs : (length bs <= 30)%nat) (Hok : Forall block_ok bs).

Lemma header_n k : (k <= length bs)%nat -> s32 (get32 (header hb bs k) 0) = length bs.
Proof using Hhb Hbs.
  induction k as [|k IH]; intros Hk.
  - apply get32_put32; lia.
  - rewrite header_S, get32_put32_other; [apply IH; lia | rewrite header_length; unfold lh_block; lia | unfold lh_block; lia].
Qed.
Lemma header_block k i b : (i < k)%nat -> (k <= length bs)%nat -> bs !! i = Some b ->
  s32 (get32 (header hb bs k) (lh_block i)) = b.
Proof using Hhb Hbs Hok.
  induction k as [|k IH]; intros Hi Hk Hb; [lia|]. rewrite header_S.
  destruct (decide (i = k)) as [->|Hne].
  - rewrite Hb. cbn. apply get32_put32; [rewrite header_length; unfold lh_block; lia|].
    rewrite Forall_forall in Hok. apply Hok. by eapply list_elem_of_lookup_2.
  - rewrite get32_put32_other; [apply IH; [lia | lia | done] | rewrite header_length; unfold lh_block; lia | unfold lh_block; lia].
Qed.
End header.

(** ** The routines of log.c on the ideal cache *)

(** [n] blocks [bs] are logged; the log starts at [st] *)
Definition logged (l : logst) (bs : list Z) : Prop :=
  log_n l = length bs /\ (length bs <= 30)%nat /\ 0 <= log_start l /\ log_start l + 31 < 2 ^ 31 /\
  length (log_block l) = 30%nat /\ (forall i b, bs !! i = Some b -> log_block l !! i = Some b) /\
  NoDup bs /\ Forall (fun b => block_ok b /\ ~ (log_start l <= b <= log_start l + 30)) bs.

Definition log_slot (l : logst) (i : nat) : Z := log_start l + i + 1.
(** the writes of [write_log] and of [install_trans] *)
Definition log_writes (l : logst) (m : Z -> list Z) (bs : list Z) : list (Z * list Z) :=
  imap (fun i b => (log_slot l i, m b)) bs.
Definition install_writes (l : logst) (m : Z -> list Z) (bs : list Z) : list (Z * list Z) :=
  imap (fun i b => (b, m (log_slot l i))) bs.

(** [s'] is [s] after the writes [w], the cache showing what was written *)
Definition wrote (s : astate) (w : list (Z * list Z)) (s' : astate) : Prop :=
  (forall b, a_disk s' b = upds (a_disk s) w b) /\ (forall b, a_mem s' b = upds (a_mem s) w b) /\
  a_log s' = a_log s /\ a_hist s' = a_hist s ++ w.

Lemma log_writes_fst l m bs : (log_writes l m bs).*1 = imap (fun i _ => log_slot l i) bs.
Proof. unfold log_writes. rewrite fmap_imap. done. Qed.
Lemma imap_fst {A} (f : nat -> Z -> A) (bs : list Z) : (imap (fun i b => (b, f i b)) bs).*1 = bs.
Proof.
  rewrite fmap_imap. apply list_eq. intros i. rewrite list_lookup_imap. by destruct (bs !! i).
Qed.
Lemma install_writes_fst l m bs : (install_writes l m bs).*1 = bs.
Proof. apply (imap_fst (fun i _ => m (log_slot l i))). Qed.
Lemma take_imap_S {A B} (f : nat -> A -> B) l k x : l !! k = Some x ->
  imap f (take (S k) l) = imap f (take k l) ++ [f k x].
Proof.
  intros H. rewrite (take_S_r _ _ _ H), imap_app. cbn.
  rewrite length_take. apply lookup_lt_Some in H. by rewrite Nat.min_l, Nat.add_0_r by lia.
Qed.

Section routines.
Context (e : list (astate -> astate)) (bs : list Z).

Lemma logged_at l i b : logged l bs -> bs !! i = Some b ->
  log_block l !! i = Some b /\ u32 b = b /\ 0 <= b /\ ~ (log_start l <= b <= log_start l + 30) /\
  (i < 30)%nat /\ u32 (log_start l + i + 1) = log_slot l i /\ 0 <= log_slot l i.
Proof using.
  intros (Hn & Hlen & H0 & H1 & H2 & Hb & Hnd & Hall) Hi.
  rewrite Forall_forall in Hall. destruct (Hall b) as [Hr Ha]; [by eapply list_elem_of_lookup_2|].
  unfold block_ok in Hr. pose proof (lookup_lt_Some _ _ _ Hi). unfold log_slot.
  split_and!; try done; try lia; [by apply Hb | apply u32_small; lia | apply u32_small; lia].
Qed.

Lemma wp_log_block_at i b s (Q : Z -> list (astate -> astate) -> astate -> Prop) :
  log_block (a_log s) !! i = Some b -> Q b e s -> wp (log_block_at i) e s Q.
Proof using. intros Hb HQ. unfold log_block_at, lgets. wp_steps. cbn. rewrite Hb. done. Qed.

Lemma wrote_step s w s' b l : wrote s w s' ->
  wrote s (w ++ [(b, l)]) (mkastate (upd1 (a_disk s') b l) (upd1 (a_mem s') b l) (a_log s') (a_hist s' ++ [(b, l)])).
Proof using.
  intros (Hd & Hm & Hl & Hw). split_and!; [| | done | cbn; by rewrite Hw, app_assoc];
    intros x; cbn; rewrite upds_snoc; unfold upd1; destruct (x =? b); done.
Qed.
Lemma wrote_nil s : wrote s [] s.
Proof using. split_and!; [done..|]. by rewrite app_nil_r. Qed.
Lemma upd1_eq f b l : upd1 f b l b = l.
Proof using. unfold upd1. by rewrite Z.eqb_refl. Qed.

Lemma wp_write_log s (Q : unit -> list (astate -> astate) -> astate -> Prop) :
  logged (a_log s) bs ->
  (forall s', wrote s (log_writes (a_log s) (a_mem s) bs) s' -> Q tt e s') ->
  wp write_log e s Q.
Proof using.
  intros Hl HQ. pose proof Hl as (Hn & Hlen & _). unfold write_log, lgets. wp_steps. cbn. rewrite Hn, Nat2Z.id.
  apply (wp_seq _ (fun k s' => wrote s (log_writes (a_log s) (a_mem s) (take k bs)) s')).
  - apply wrote_nil.
  - intros k s' Hk Hw. pose proof Hw as (Hd & Hm & Hg & _).
    destruct (lookup_lt_is_Some_2 bs k ltac:(lia)) as [b Hb].
    destruct (logged_at (a_log s) k b Hl Hb) as (H1 & H2 & H3 & H4 & H5 & H6 & H7).
    wp_steps. cbn. eapply wp_log_block_at; [by rewrite Hg|]. wp_steps. cbn.
    split; [done|]. rewrite Hg, H6, H2, !Z2Nat.id, upd1_eq by lia.
    unfold log_writes. rewrite (take_imap_S _ _ _ _ Hb).
    replace (a_mem s' b) with (a_mem s b); [rewrite <- Hg at 4; by apply wrote_step|].
    rewrite Hm. symmetry. apply upds_other. rewrite log_writes_fst, list_elem_of_lookup.
    intros (j & Hj). rewrite list_lookup_imap in Hj. apply fmap_Some in Hj as (x & Hx & Hj).
    apply lookup_take_Some in Hx as [Hx ?]. unfold log_slot in Hj. lia.
  - intros s' Hw. rewrite firstn_all in Hw. by apply HQ.
Qed.

Lemma wp_install_trans r s (Q : unit -> list (astate -> astate) -> astate -> Prop) :
  logged (a_log s) bs ->
  (forall s', wrote s (install_writes (a_log s) (a_mem s) bs) s' -> Q tt e s') ->
  wp (install_trans r) e s Q.
Proof using.
  intros Hl HQ. pose proof Hl as (Hn & Hlen & _). unfold install_trans, lgets. wp_steps. cbn. rewrite Hn, Nat2Z.id.
  apply (wp_seq _ (fun k s' => wrote s (install_writes (a_log s) (a_mem s) (take k bs)) s')).
  - apply wrote_nil.
  - intros k s' Hk Hw. pose proof Hw as (Hd & Hm & Hg & _).
    destruct (lookup_lt_is_Some_2 bs k ltac:(lia)) as [b Hb].
    destruct (logged_at (a_log s) k b Hl Hb) as (H1 & H2 & H3 & H4 & H5 & H6 & H7).
    wp_steps. cbn. eapply wp_log_block_at; [by rewrite Hg|]. wp_steps. cbn.
    assert (wrote s (install_writes (a_log s) (a_mem s) (take (S k) bs))
      (mkastate (upd1 (a_disk s') b (a_mem s (log_slot (a_log s) k)))
        (upd1 (a_mem s') b (a_mem s (log_slot (a_log s) k))) (a_log s')
        (a_hist s' ++ [(b, a_mem s (log_slot (a_log s) k))]))) as Hw'.
    { unfold install_writes. rewrite (take_imap_S _ _ _ _ Hb). by apply wrote_step. }
    rewrite !H2, !Z2Nat.id, Hg, !H6, upd1_eq, !Z2Nat.id by lia.
    replace (a_mem s' (log_slot (a_log s) k)) with (a_mem s (log_slot (a_log s) k)).
    + rewrite Hg in Hw'. apply wp_when; intros _; wp_steps; split; done.
    + rewrite Hm. symmetry. apply upds_other. rewrite install_writes_fst, list_elem_of_lookup.
      intros (j & Hj). apply lookup_take_Some in Hj as [Hj ?].
      destruct (logged_at (a_log s) j _ Hl Hj) as (_ & _ & _ & Hn' & _). unfold log_slot in Hn'. lia.
  - intros s' Hw. rewrite firstn_all in Hw. by apply HQ.
Qed.

Lemma wp_write_head s (Q : unit -> list (astate -> astate) -> astate -> Prop) :
  logged (a_log s) bs ->
  (let st := log_start (a_log s) in
   forall s', wrote s [(st, header (a_mem s st) bs (length bs))] s' -> Q tt e s') ->
  wp write_head e s Q.
Proof using.
  intros Hl HQ. pose proof Hl as (Hn & Hlen & H0 & H1 & _). cbv zeta in HQ.
  assert (u32 (log_start (a_log s)) = log_start (a_log s)) as Hu by (apply u32_small; lia).
  unfold write_head, lgets. wp_ideal.
  rewrite Hn, Nat2Z.id, Hu, Z2Nat.id by lia. set (st := log_start (a_log s)) in *.
  apply (wp_seq _ (fun k s' => a_disk s' = a_disk s /\ a_log s' = a_log s /\ a_hist s' = a_hist s /\
    a_mem s' st = header (a_mem s st) bs k /\ forall b, b <> st -> a_mem s' b = a_mem s b)).
  - split_and!; try done; cbn.
    + by rewrite upd1_eq.
    + intros b Hb. unfold upd1. by destruct (Z.eqb_spec b st).
  - intros k s' Hk (Hd & Hg & Ht & Hm & Ho).
    destruct (lookup_lt_is_Some_2 bs k ltac:(lia)) as [b Hb].
    destruct (logged_at (a_log s) k b Hl Hb) as (HB & _).
    wp_steps. eapply wp_log_block_at; [by rewrite Hg|]. wp_steps. cbn.
    split; [done|]. split_and!; try done; cbn.
    + by rewrite upd1_eq, header_S, Hb, Hm.
    + intros x Hx. unfold upd1. destruct (Z.eqb_spec x st); [done | by apply Ho].
  - intros s' (Hd & Hg & Ht & Hm & Ho). wp_steps. cbn.
    apply HQ. rewrite Hm. split_and!; [| |done|cbn; by rewrite Ht]; intros b; cbn; rewrite upds_one.
    + by rewrite Hd.
    + unfold upd1. destruct (Z.eqb_spec b st) as [->|]; [done | by apply Ho].
Qed.

(** a header that lists [bs] *)
Definition header_lists (hb : list Z) : Prop :=
  s32 (get32 hb 0) = length bs /\
  forall i b, bs !! i = Some b -> s32 (get32 hb (lh_block i)) = b.

Lemma wp_read_head s (Q : unit -> list (astate -> astate) -> astate -> Prop) :
  0 <= log_start (a_log s) -> log_start (a_log s) + 31 < 2 ^ 31 ->
  length (log_block (a_log s)) = 30%nat -> (length bs <= 30)%nat ->
  header_lists (a_mem s (log_start (a_log s))) ->
  (forall l, log_start l = log_start (a_log s) -> log_n l = length bs ->
     length (log_block l) = 30%nat -> (forall i b, bs !! i = Some b -> log_block l !! i = Some b) ->
     Q tt e (mkastate (a_disk s) (a_mem s) l (a_hist s))) ->
  wp read_head e s Q.
Proof using.
  intros H0 H1 H2 Hlen (Hn & Hb) HQ.
  assert (u32 (log_start (a_log s)) = log_start (a_log s)) as Hu by (apply u32_small; lia).
  unfold read_head, lgets, lmod. wp_ideal. rewrite Hu, Z2Nat.id by lia. cbn [log_n set_log_n].
  rewrite Hn, Nat2Z.id.
  apply (wp_seq _ (fun k s' => a_disk s' = a_disk s /\ a_mem s' = a_mem s /\ a_hist s' = a_hist s /\
    log_start (a_log s') = log_start (a_log s) /\ log_n (a_log s') = length bs /\
    length (log_block (a_log s')) = 30%nat /\
    forall i b, (i < k)%nat -> bs !! i = Some b -> log_block (a_log s') !! i = Some b)).
  - split_and!; try done. intros; lia.
  - intros k s' Hk (Hd & Hm & Ht & Hs & Hn' & Hl & HB).
    destruct (lookup_lt_is_Some_2 bs k ltac:(lia)) as [b Hbk].
    unfold log_set_block, lgets, lmod. wp_ideal. rewrite decide_True by lia. wp_ideal.
    split; [done|]. cbn. rewrite (Hb k b Hbk). split_and!; try done; [by rewrite length_insert|].
    intros i x Hi Hx. rewrite list_lookup_insert_case. case_decide as Hd'.
    + destruct Hd' as [-> _]. congruence.
    + apply HB; [|done]. destruct (decide (k = i)); [|lia]. exfalso. apply Hd'. split; [done | lia].
  - intros s' (Hd & Hm & Ht & Hs & Hn' & Hl & HB). wp_ideal.
    destruct s' as [d m l w]; cbn in *. subst d m w. apply HQ; try done.
    intros i b Hi. apply HB; [by eapply lookup_lt_Some | done].
Qed.
End routines.

(** ** Recovery *)
Definition in_log (l : logst) (b : Z) : Prop := log_start l <= b <= log_start l + 30.

(** what a header block may contain: an empty log, or the blocks [bs] *)
Lemma recover_disk e bs l d :
  0 <= log_start l -> log_start l + 31 < 2 ^ 31 -> (length bs <= 30)%nat -> NoDup bs ->
  Forall (fun b => block_ok b /\ ~ in_log l b) bs -> header_lists bs (d (log_start l)) ->
  wp recover_from_log e (reboot d l) (fun _ e' s' => e' = e /\
    forall b, ~ in_log l b -> a_disk s' b = upds d (imap (fun i b => (b, d (log_slot l i))) bs) b).
Proof.
  intros H0 H1 Hlen Hnd Hall Hh. unfold recover_from_log. wp_step.
  apply (wp_read_head e bs); try done. cbn. intros l1 Hs1 Hn1 Hl1 Hb1.
  wp_step. apply (wp_install_trans e bs); cbn.
  { unfold logged. rewrite Hs1. split_and!; try done. }
  intros s1 (Hd1 & Hm1 & Hg1 & _). cbn in *. wp_step. unfold lmod. wp_ideal.
  apply (wp_write_head e []); cbn.
  { unfold logged. rewrite Hg1. cbn. rewrite Hs1. split_and!; try done; [lia | constructor]. }
  intros s2 (Hd2 & Hm2 & Hg2 & _). split; [done|]. intros b Hb. rewrite Hd2. cbn.
  rewrite upds_other, Hd1.
  - unfold install_writes, log_slot. rewrite Hs1. done.
  - cbn. rewrite list_elem_of_singleton, Hg1, Hs1. unfold in_log in Hb. lia.
Qed.

Lemma header_lists_nil hb : s32 (get32 hb 0) = 0 -> header_lists [] hb.
Proof. intros H. split; [done|]. intros i b. by rewrite lookup_nil. Qed.
Lemma header_lists_header hb bs : (124 <= length hb)%nat -> (length bs <= 30)%nat ->
  Forall block_ok bs -> header_lists bs (header hb bs (length bs)).
Proof.
  intros H1 H2 H3. split; [by apply header_n|]. intros i b Hb. apply header_block; try done.
  by eapply lookup_lt_Some.
Qed.

(** ** commit *)

(** the writes of [commit], in order *)
Definition commit_writes (l : logst) (m : Z -> list Z) (bs : list Z) : list (Z * list Z) :=
  let st := log_start l in
  let h1 := header (m st) bs (length bs) in
  log_writes l m bs ++ [(st, h1)] ++ imap (fun i b => (b, m b)) bs ++ [(st, header h1 [] 0)].

Definition transaction (s : astate) (bs : list Z) : Prop :=
  logged (a_log s) bs /\ (0 < length bs)%nat /\
  s32 (get32 (a_disk s (log_start (a_log s))) 0) = 0 /\
  (124 <= length (a_mem s (log_start (a_log s))))%nat.

(** the home blocks after the transaction *)
Definition committed (s : astate) (bs : list Z) (b : Z) : list Z :=
  if decide (b ∈ bs) then a_mem s b else a_disk s b.

Lemma take_fst_sub {A B} k (w : list (A * B)) x : x ∈ (take k w).*1 -> x ∈ w.*1.
Proof.
  rewrite fmap_take. intros H. rewrite <- (take_drop k (w.*1)). apply elem_of_app. by left.
Qed.

Section commit.
Context (s : astate) (bs : list Z) (Htx : transaction s bs).
Let l := a_log s.
Let st := log_start l.
Let WL := log_writes l (a_mem s) bs.
Let h1 := header (a_mem s st) bs (length bs).
Let INST := imap (fun _ b => (b, a_mem s b)) bs.

Lemma commit_writes_eq : commit_writes l (a_mem s) bs = WL ++ [(st, h1)] ++ INST ++ [(st, header h1 [] 0)].
Proof using. done. Qed.
Lemma WL_slots b : b ∈ WL.*1 -> st < b <= st + 30.
Proof using Htx.
  destruct Htx as ((_ & Hlen & _) & _). unfold WL. rewrite log_writes_fst, list_elem_of_lookup.
  intros (j & Hj). rewrite list_lookup_imap in Hj. apply fmap_Some in Hj as (x & Hx & ->).
  apply lookup_lt_Some in Hx. unfold log_slot. fold st. lia.
Qed.
Lemma INST_home b : b ∈ INST.*1 -> b ∈ bs /\ ~ in_log l b.
Proof using Htx.
  unfold INST. rewrite (imap_fst (fun _ => a_mem s)). intros Hb. split; [done|].
  destruct Htx as ((_ & _ & _ & _ & _ & _ & _ & Hall) & _). rewrite Forall_forall in Hall.
  by apply Hall.
Qed.
Lemma WL_nodup : NoDup WL.*1.
Proof using.
  unfold WL. rewrite log_writes_fst. apply NoDup_alt. intros i j x. rewrite !list_lookup_imap.
  intros (a & _ & ->)%fmap_Some (b & _ & Heq)%fmap_Some. unfold log_slot in Heq. lia.
Qed.
Lemma WL_at f i b : bs !! i = Some b -> upds f WL (log_slot l i) = a_mem s b.
Proof using.
  intros Hb. apply (upds_hit _ _ i); [apply WL_nodup|]. unfold WL, log_writes.
  by rewrite list_lookup_imap, Hb.
Qed.
Lemma INST_at f b : upds f INST b = if decide (b ∈ bs) then a_mem s b else f b.
Proof using Htx.
  case_decide as Hb.
  - apply list_elem_of_lookup in Hb as (i & Hi). apply (upds_hit _ _ i).
    + unfold INST. rewrite (imap_fst (fun _ => a_mem s)). by destruct Htx as ((_ & _ & _ & _ & _ & _ & Hnd & _) & _).
    + unfold INST. by rewrite list_lookup_imap, Hi.
  - apply upds_other. unfold INST. by rewrite (imap_fst (fun _ => a_mem s)).
Qed.

Lemma wp_commit e : wp commit e s (fun _ e' s' => e' = e /\
  a_hist s' = a_hist s ++ commit_writes l (a_mem s) bs /\
  forall b, a_disk s' b = upds (a_disk s) (commit_writes l (a_mem s) bs) b).
Proof using Htx.
  pose proof Htx as (Hl & Hpos & Hz & Hh). pose proof Hl as (Hn & Hlen & H0 & H1 & H2 & Hb & Hnd & Hall).
  unfold commit, lgets. wp_ideal. rewrite Hn. replace (0 <? length bs) with true by lia. cbn [when].
  wp_step. apply (wp_write_log e bs); [done|]. fold l WL. intros s1 (Hd1 & Hm1 & Hg1 & Hw1).
  wp_step. apply (wp_write_head e bs); [by rewrite Hg1|]. cbv zeta. rewrite Hg1. fold l st.
  assert (a_mem s1 st = a_mem s st) as Hst1.
  { rewrite Hm1. apply upds_other. intros Hin%WL_slots. lia. }
  rewrite Hst1. fold h1. intros s2 (Hd2 & Hm2 & Hg2 & Hw2). rewrite Hg1 in Hg2.
  wp_step. apply (wp_install_trans e bs); [by rewrite Hg2|]. rewrite Hg2. fold l.
  assert (install_writes l (a_mem s2) bs = INST) as ->.
  { unfold install_writes, INST. apply list_eq. intros i. rewrite !list_lookup_imap.
    destruct (bs !! i) as [b|] eqn:Hi; [|done]. cbn. do 2 f_equal.
    rewrite Hm2, upds_other, Hm1; [by apply WL_at|]. cbn. rewrite list_elem_of_singleton.
    unfold log_slot. fold st. lia. }
  intros s3 (Hd3 & Hm3 & Hg3 & Hw3). rewrite Hg2 in Hg3. unfold lmod. wp_ideal.
  apply (wp_write_head e []); cbn.
  { unfold logged. rewrite Hg3. cbn. split_and!; try done; [lia | constructor]. }
  cbv zeta. rewrite Hg3. fold l st.
  assert (a_mem s3 st = h1) as Hst3.
  { rewrite Hm3, upds_other.
    - rewrite Hm2, upds_one. unfold upd1. by rewrite Z.eqb_refl.
    - intros [_ Hin]%INST_home. apply Hin. unfold in_log. fold st. lia. }
  rewrite Hst3. intros s4 (Hd4 & _ & _ & Hw4). split; [done|]. split.
  { rewrite Hw4. cbn [a_hist]. rewrite Hw3, Hw2, Hw1, commit_writes_eq, <- !app_assoc. done. }
  intros b. rewrite Hd4. cbn.
  rewrite commit_writes_eq, !upds_app. apply upds_ext. intros x. rewrite Hd3. apply upds_ext.
  intros y. rewrite Hd2. apply upds_ext. intros z. apply Hd1.
Qed.

Lemma commit_writes_home b : ~ in_log l b ->
  upds (a_disk s) (commit_writes l (a_mem s) bs) b = committed s bs b.
Proof using Htx.
  intros Hnb. assert (b <> st) as Hne.
  { intros ->. apply Hnb. unfold in_log. fold st. lia. }
  rewrite commit_writes_eq, !upds_app, !upds_one. unfold upd1 at 1.
  destruct (Z.eqb_spec b st) as [|_]; [done|].
  rewrite INST_at. unfold committed. case_decide; [done|]. unfold upd1.
  destruct (Z.eqb_spec b st) as [|_]; [done|]. apply upds_other.
  intros Hin%WL_slots. unfold in_log in Hnb. fold st in Hnb. lia.
Qed.

(** the disk after [k] of the writes of [commit]: header and log decide *)
Lemma prefix_old k : (k <= length bs)%nat ->
  let d := upds (a_disk s) (take k (commit_writes l (a_mem s) bs)) in
  header_lists [] (d st) /\ forall b, ~ in_log l b -> d b = a_disk s b.
Proof using Htx.
  intros Hk d. pose proof Htx as (Hl & Hpos & Hz & Hh).
  assert (length WL = length bs) as HWL by (unfold WL, log_writes; apply length_imap).
  assert (take k (commit_writes l (a_mem s) bs) = take k WL) as Ht
    by (rewrite commit_writes_eq; apply take_app_le; lia).
  subst d. rewrite Ht. split.
  - apply header_lists_nil. rewrite upds_other; [done|]. intros Hin%take_fst_sub%WL_slots. lia.
  - intros b Hb. apply upds_other. intros Hin%take_fst_sub%WL_slots. unfold in_log in Hb. fold st in Hb. lia.
Qed.
Lemma prefix_new k : (length bs < k)%nat ->
  let d := upds (a_disk s) (take k (commit_writes l (a_mem s) bs)) in
  (header_lists bs (d st) /\ (forall i b, bs !! i = Some b -> d (log_slot l i) = a_mem s b) /\
    forall b, ~ in_log l b -> b ∉ bs -> d b = a_disk s b) \/
  (header_lists [] (d st) /\ forall b, ~ in_log l b -> d b = committed s bs b).
Proof using Htx.
  intros Hk d. pose proof Htx as (Hl & Hpos & Hz & Hh). pose proof Hl as (Hn & Hlen & H0 & H1 & H2 & Hb & Hnd & Hall).
  assert (length WL = length bs) as HWL by (unfold WL, log_writes; apply length_imap).
  assert (length INST = length bs) as HI by (apply length_imap).
  set (j := (k - length bs - 1)%nat).
  assert (take k (commit_writes l (a_mem s) bs) = WL ++ (st, h1) :: take j (INST ++ [(st, header h1 [] 0)])) as Ht.
  { rewrite commit_writes_eq, take_app_ge by lia. rewrite HWL.
    replace (k - length bs)%nat with (S j) by (subst j; lia). done. }
  assert (Forall block_ok bs) as Hok by (eapply Forall_impl; [exact Hall | by intros ? []]).
  subst d. rewrite Ht, upds_app, upds_cons. set (f := upd1 (upds (a_disk s) WL) st h1).
  assert (f st = h1) as Hf by (unfold f, upd1; by rewrite Z.eqb_refl).
  assert (forall b, b <> st -> f b = upds (a_disk s) WL b) as Hfo.
  { intros b Hne. unfold f, upd1. by destruct (Z.eqb_spec b st). }
  assert (forall b, ~ in_log l b -> f b = a_disk s b) as Hfh.
  { intros b Hnb. unfold in_log in Hnb. fold st in Hnb. rewrite Hfo by lia.
    apply upds_other. intros Hin%WL_slots. lia. }
  destruct (decide (j <= length bs)%nat) as [Hj|Hj].
  - left. rewrite take_app_le by lia. split_and!.
    + rewrite upds_other; [rewrite Hf; by apply header_lists_header|].
      intros [_ Hin]%take_fst_sub%INST_home. apply Hin. unfold in_log. fold st. lia.
    + intros i b Hi. pose proof (lookup_lt_Some _ _ _ Hi). rewrite upds_other.
      * rewrite Hfo by (unfold log_slot; fold st; lia). by apply WL_at.
      * intros [_ Hin]%take_fst_sub%INST_home. apply Hin. unfold in_log, log_slot. fold st. lia.
    + intros b Hnb Hnin. rewrite upds_other; [by apply Hfh|].
      intros [Hin _]%take_fst_sub%INST_home. done.
  - right. rewrite take_ge by (rewrite length_app, HI; cbn; lia). rewrite upds_app, upds_one. split.
    + apply header_lists_nil. unfold upd1. rewrite Z.eqb_refl.
      apply (header_n h1 []); [| cbn; lia | cbn; lia]. unfold h1. by rewrite header_length.
    + intros b Hnb. unfold upd1. destruct (Z.eqb_spec b st) as [->|Hne].
      * exfalso. apply Hnb. unfold in_log. fold st. lia.
      * rewrite INST_at. unfold committed. case_decide; [done | by apply Hfh].
Qed.
End commit.


(** a transaction that changes blocks 40 and 41 *)
Definition tx_demo : astate :=
  mkastate (fun b => replicate 1024 0) (fun b => if (b =? 40) || (b =? 41) then [b] else replicate 1024 0)
    (mklog 2 30 0 1 1 2 ([40; 41] ++ replicate 28 0)) [].
