(* ===== verification/LogWrite.v ===== *)
(** [log_write] (log.c): recording a modified block in the running transaction.

    The blocks of the transaction are the first [n] entries of the in-memory header
    ([logged]).  A block is recorded once, however often it is written, and its
    buffer stays in the cache, pinned, until the commit. *)
From S2P Require Import Prelude State Spinlock Queue Boot Cstring Kalloc Proc Copyio Sleeplock Disk Bio Bcache Log.

(** the block numbers of the running transaction *)
Definition logged (lg : logst) : list Z := u32 <$> take (Z.to_nat (log_n lg)) (log_block lg).

Definition log_of (s : kstate) : logst := fs_log (k_fs s).
Definition with_log (s : kstate) (lg : logst) : kstate := set_k_fs (set_fs_log lg (k_fs s)) s.

Lemma wp_bpin b e s0 (Q : unit -> list (kstate -> kstate) -> kstate -> Prop) :
  hart_ok 1 (k_hw s0) -> lock_free (k_hw s0) LBcache ->
  Q tt e (set_k_hw (hw_crit (k_hw s0)) (with_bufs s0
    (alter (fun y => set_b_refcnt (u32 (b_refcnt y + 1)) y) b (bufs_of s0)))) ->
  wp (bpin b) e s0 Q.
Proof.
  intros Hok0 Hlk0 HQ. unfold bpin. wp_step. apply wp_acquire; [done..|]. wp_step. apply wp_buf_upd.
  eapply (wp_release_acq _ (k_hw s0) 1); [lia | done | done | done |]. exact HQ.
Qed.

Section log_write.
Context (b : nat) (x : buf) (e : list (kstate -> kstate)) (s : kstate).
Context (Hok : hart_ok 2 (k_hw s)) (Hlk : lock_free (k_hw s) LLog) (Hbc : lock_free (k_hw s) LBcache).
Context (Hx : bufs_of s !! b = Some x) (Hno : 0 <= b_blockno x < 2 ^ 32).
Context (Hlen : length (log_block (log_of s)) = Z.to_nat LOGSIZE) (Hn : 0 <= log_n (log_of s)).

Let lg := log_of s.
Let n := Z.to_nat (log_n lg).
Let s1 := set_k_hw (hw_acq LLog (k_hw s)) s.

(** the entry [log_write] uses: the block's own, or the first free one *)
Definition entry_of (i : nat) : Prop :=
  (i < n)%nat /\ u32 <$> log_block lg !! i = Some (b_blockno x) \/
  i = n /\ b_blockno x ∉ logged lg.

Lemma wp_log_find (Q : nat -> list (kstate -> kstate) -> kstate -> Prop) : log_n lg < LOGSIZE ->
  (forall i, entry_of i -> Q i e s1) -> wp (log_find (b_blockno x)) e s1 Q.
Proof using Hlen Hn.
  intros Hlt HQ. unfold log_find, lgets. wp_steps. cbn. change (fs_log (k_fs s)) with lg. fold n.
  apply (wp_seq_for _ (fun k s' => s' = s1 /\ forall j y, (j < k)%nat -> log_block lg !! j = Some y ->
    u32 y <> b_blockno x)).
  - split; [done | intros; lia].
  - intros k s' Hk [-> Hbefore]. unfold log_block_at, lgets. wp_steps. cbn. change (fs_log (k_fs s)) with lg.
    destruct (lookup_lt_is_Some_2 (log_block lg) k) as [y Hy]; [unfold n, lg, LOGSIZE, MAXOPBLOCKS in *; lia|].
    rewrite Hy. wp_steps. split; [done|]. destruct (Z.eqb_spec (u32 y) (b_blockno x)) as [E|E].
    + cbn. wp_step. apply HQ. left. split; [done|]. rewrite Hy. cbn. by rewrite E.
    + split; [done|]. intros j z Hj Hz. destruct (decide (j = k)) as [->|]; [congruence | apply (Hbefore j z); [lia | done]].
  - intros s' [-> Hall]. cbn. wp_step. apply HQ. right. split; [done|].
    intros (j & Hj)%list_elem_of_lookup. unfold logged in Hj. rewrite list_lookup_fmap in Hj.
    destruct (decide (j < Z.to_nat (log_n lg))%nat) as [Hjn|Hjn]; [|by rewrite lookup_take_ge in Hj by lia].
    rewrite lookup_take_lt in Hj by lia. destruct (log_block lg !! j) as [y|] eqn:Hy; [|done]. cbn in Hj.
    injection Hj as Hj. by apply (Hall j y).
Qed.

(** the log after the entry has been written *)
Definition log_after (i : nat) : logst :=
  let lg' := set_log_block (<[i := s32 (b_blockno x)]> (log_block lg)) lg in
  if decide (i = n) then set_log_n (log_n lg + 1) lg' else lg'.

Lemma logged_after i : log_n lg < LOGSIZE -> entry_of i ->
  logged (log_after i) = if decide (i = n) then logged lg ++ [b_blockno x] else logged lg.
Proof using Hlen Hn Hno.
  intros Hlt He. unfold logged, log_after. case_decide as Hi; cbn.
  - subst i. replace (Z.to_nat (log_n lg + 1)) with (S n) by (unfold n, lg in *; lia).
    assert (n < length (log_block lg))%nat as Hl by (unfold n, lg, LOGSIZE, MAXOPBLOCKS in *; lia).
    rewrite (take_S_r _ _ (s32 (b_blockno x))) by by apply list_lookup_insert_eq.
    rewrite fmap_app, take_insert_ge by lia. cbn. by rewrite u32_s32, u32_small.
  - fold n. destruct He as [[Hin Hy]|[? _]]; [|done]. apply list_eq. intros j.
    rewrite !list_lookup_fmap. destruct (decide (j < n)%nat) as [Hj|Hj]; [|by rewrite !lookup_take_ge by lia].
    rewrite !lookup_take_lt by lia. destruct (decide (j = i)) as [->|Hne]; [|by rewrite list_lookup_insert_ne].
    destruct (log_block lg !! i) as [y|] eqn:E; [|done]. cbn in Hy. injection Hy as Hy.
    rewrite list_lookup_insert_eq by (by eapply lookup_lt_Some). cbn. by rewrite u32_s32, u32_small, Hy.
Qed.

Lemma wp_log_write (Q : unit -> list (kstate -> kstate) -> kstate -> Prop) :
  log_n lg < LOGSIZE -> log_n lg < log_size lg - 1 -> 1 <= log_outstanding lg ->
  (forall i h', entry_of i -> h' ≈h k_hw s -> Q tt e (set_k_hw h'
     (with_log (if decide (i = n) then with_bufs s (alter (fun y => set_b_refcnt (u32 (b_refcnt y + 1)) y) b (bufs_of s)) else s)
        (log_after i)))) ->
  wp (log_write b) e s Q.
Proof using All.
  intros Hlt Hsz Hout HQ. unfold log_write, lgets. wp_step.
  apply wp_acquire; [by eapply hart_ok_weaken; [|done]; lia | done|]. wp_steps. cbn.
  change (fs_log (k_fs s)) with lg.
  replace (LOGSIZE <=? log_n lg) with false by lia. replace (log_size lg - 1 <=? log_n lg) with false by lia. cbn [orb].
  wp_steps. cbn. change (fs_log (k_fs s)) with lg. replace (log_outstanding lg <? 1) with false by lia.
  unfold buf_blockno. wp_steps. eapply wp_buf_at; [done|]. wp_steps. apply wp_log_find; [done|].
  intros i He. assert (Hil : (i < length (log_block lg))%nat).
  { destruct He as [[Hi _]|[-> _]]; unfold n, lg, LOGSIZE, MAXOPBLOCKS in *; lia. }
  wp_step. unfold log_set_block, lgets. wp_steps. cbn. change (fs_log (k_fs s)) with lg.
  rewrite decide_True by done. unfold lmod. wp_steps.
  specialize (HQ i (hw_crit (k_hw s)) He (hw_crit_eqv _)).
  destruct (decide (i = n)) as [Hi|Hi]; unfold log_after in HQ.
  - replace (Z.of_nat i =? log_n lg) with true by (unfold n, lg in *; lia). cbn [when].
    rewrite decide_True in HQ by done.
    wp_step. apply wp_bpin; [cbn; replace 1 with (2 - 1) by lia; by apply hart_ok_acq | |].
    { destruct Hbc as [m Hm]. exists m. cbn. by rewrite (hw_acq_other _ _ Hlk) by done. }
    wp_steps. rewrite s32_small by (unfold LOGSIZE, MAXOPBLOCKS, lg in *; lia).
    eapply (wp_release_acq _ (k_hw s) 2); [lia | done | done | cbn; by apply (hw_crit_acq _ _ 2) |]. exact HQ.
  - replace (Z.of_nat i =? log_n lg) with false by (unfold n, lg in *; lia). cbn [when].
    rewrite decide_False in HQ by done. wp_step.
    eapply (wp_release_acq _ (k_hw s) 2); [lia | done | done | done |]. exact HQ.
Qed.
End log_write.

Lemma log_write_full b e s : hart_ok 1 (k_hw s) -> lock_free (k_hw s) LLog ->
  (LOGSIZE <=? log_n (log_of s)) || (log_size (log_of s) - 1 <=? log_n (log_of s)) = true ->
  dies (log_write b) e s "too big a transaction".
Proof.
  intros Hok Hlk Hfull. apply dies_bind, wp_acquire; [done..|]. apply dies_bind. unfold lgets. wp_step. apply dies_bind. wp_step.
  cbn. change (fs_log (k_fs s)) with (log_of s). rewrite Hfull. apply dies_panic.
Qed.
(** the entry used is new exactly when the block is *)
Lemma entry_new x s i : entry_of x s i -> i = Z.to_nat (log_n (log_of s)) <-> b_blockno x ∉ logged (log_of s).
Proof.
  intros [[Hi Hy]|[Hi Hy]]; [|done]. split; [lia|]. intros []. apply list_elem_of_lookup. exists i. unfold logged.
  by rewrite list_lookup_fmap, lookup_take_lt.
Qed.

(** ** Theorems *)

(** [log_write] records a block exactly once: inside a transaction that has room, a block
    that is already logged is absorbed and nothing changes, and a new block is added
    at the end and its buffer gets the reference that keeps it cached until the
    commit; the other blocks and fields of the log stay, so the logged blocks remain
    distinct.  A log that is full and a call outside a transaction panic. *)
Lemma log_write_absorbs b x e s :
  hart_ok 2 (k_hw s) -> lock_free (k_hw s) LLog -> lock_free (k_hw s) LBcache ->
  bufs_of s !! b = Some x -> 0 <= b_blockno x < 2 ^ 32 ->
  length (log_block (log_of s)) = Z.to_nat LOGSIZE -> 0 <= log_n (log_of s) ->
  let lg := log_of s in
  if (LOGSIZE <=? log_n lg) || (log_size lg - 1 <=? log_n lg) then dies (log_write b) e s "too big a transaction"
  else if log_outstanding lg <? 1 then dies (log_write b) e s "log_write outside of trans"
  else exists s', log_write b e s = Ret tt e s' /\ k_hw s' ≈h k_hw s /\ k_ps s' = k_ps s /\ k_mm s' = k_mm s /\
    log_outstanding (log_of s') = log_outstanding lg /\ log_size (log_of s') = log_size lg /\
    length (log_block (log_of s')) = Z.to_nat LOGSIZE /\
    (NoDup (logged lg) -> NoDup (logged (log_of s'))) /\
    if decide (b_blockno x ∈ logged lg) then logged (log_of s') = logged lg /\ bufs_of s' = bufs_of s
    else logged (log_of s') = logged lg ++ [b_blockno x] /\
      bufs_of s' = alter (fun y => set_b_refcnt (u32 (b_refcnt y + 1)) y) b (bufs_of s).
Proof.
  intros Hok Hlk Hbc Hx Hno Hlen Hn lg.
  assert (Hok1 : hart_ok 1 (k_hw s)) by (by eapply hart_ok_weaken; [|done]; lia).
  destruct ((LOGSIZE <=? log_n lg) || (log_size lg - 1 <=? log_n lg)) eqn:Hfull.
  { by apply log_write_full. }
  destruct (Z.ltb_spec (log_outstanding lg) 1) as [Hout|Hout].
  { apply dies_bind, wp_acquire; [done..|]. apply dies_bind. unfold lgets. wp_step. apply dies_bind. wp_step.
    cbn. change (fs_log (k_fs s)) with lg. rewrite Hfull. apply dies_bind. wp_step.
    cbn. change (fs_log (k_fs s)) with lg. replace (log_outstanding lg <? 1) with true by lia. apply dies_panic. }
  apply orb_false_iff in Hfull as [H1 H2].
  assert (Hlt : log_n lg < LOGSIZE) by lia.
  assert (H : wp (log_write b) e s (fun _ e' s' => e' = e /\ exists i h', entry_of x s i /\ h' ≈h k_hw s /\
    s' = set_k_hw h' (with_log (if decide (i = Z.to_nat (log_n lg))
      then with_bufs s (alter (fun y => set_b_refcnt (u32 (b_refcnt y + 1)) y) b (bufs_of s)) else s) (log_after x s i)))).
  { apply (wp_log_write b x e s); try done; [fold lg; lia..|]. eauto 10. }
  apply wp_run_tt in H as (s' & Hr & i & h' & He & Hh & ->). eexists. split; [exact Hr|].
  assert (Hlog : logged (log_after x s i) = if decide (i = Z.to_nat (log_n lg)) then logged lg ++ [b_blockno x] else logged lg)
    by by apply logged_after.
  assert (Hmem : i = Z.to_nat (log_n lg) <-> b_blockno x ∉ logged lg).
  { by apply entry_new. }
  change (log_of (set_k_hw h' (with_log ?t ?g))) with g. rewrite Hlog.
  assert (Hfields : log_outstanding (log_after x s i) = log_outstanding lg /\ log_size (log_after x s i) = log_size lg /\
    length (log_block (log_after x s i)) = Z.to_nat LOGSIZE).
  { unfold log_after. destruct (decide (i = Z.to_nat (log_n (log_of s)))); (split_and!; [done | done | by rewrite <- Hlen; apply length_insert]). }
  destruct Hfields as (F1 & F2 & F3).
  destruct (decide (i = Z.to_nat (log_n lg))) as [Hi|Hi].
  - apply Hmem in Hi. rewrite decide_False by done. split_and!; try done.
    intros Hnd. apply NoDup_app. split_and!; [done | | apply NoDup_singleton].
    intros z Hz ->%list_elem_of_singleton. done.
  - rewrite decide_True; [split_and!; done|]. destruct (decide (b_blockno x ∈ logged lg)); [done|].
    by apply Hmem in n.
Qed.

(** block 5, held in buffer 0, is added to a transaction that has logged block 7 *)
Definition log_demo : kstate := with_log cache_held (mklog 2 30 1 0 1 1 (7 :: replicate 29 0)).
Lemma with_log_rest s lg : k_hw (with_log s lg) = k_hw s /\ bufs_of (with_log s lg) = bufs_of s /\ log_of (with_log s lg) = lg.
Proof. done. Qed.
Lemma log_write_absorbs_witness : exists s', log_write 0 [] log_demo = Ret tt [] s' /\ logged (log_of s') = [7; 5].
Proof.
  destruct cache_demo_hw as (H1 & _ & H3 & _).
  assert (H4 : free_in (k_hw cache_demo) LLog = true) by (vm_compute; reflexivity).
  destruct (with_bufs_rest cache_demo (alter (taken false 1 5 (p_pid demo_me)) 0%nat (bufs_of cache_demo))) as [Eh _].
  fold cache_held in Eh.
  destruct (with_log_rest cache_held (mklog 2 30 1 0 1 1 (7 :: replicate 29 0))) as (Eh' & Eb & El).
  fold log_demo in Eh', Eb, El. rewrite Eh in Eh'. rewrite <- Eh' in H1, H3, H4.
  destruct (bufs_of cache_held !! 0%nat) as [y|] eqn:Hy; [|vm_compute in Hy; discriminate].
  assert (Hb : b_blockno y = 5) by (vm_compute in Hy; injection Hy as <-; reflexivity).
  pose proof (log_write_absorbs 0 y [] log_demo H1 (free_in_spec _ _ H4) (free_in_spec _ _ H3)) as H.
  rewrite Eb, El, Hb in H. specialize (H Hy ltac:(lia) eq_refl ltac:(cbn; lia)).
  destruct H as (s' & Hr & _ & _ & _ & _ & _ & _ & _ & Hl & _).
  exists s'. split; [exact Hr | exact Hl].
Defined.
