(* ===== verification/LogOps.v ===== *)
(** Transactions of the log (log.c): [begin_op], [end_op] and the reservation that
    keeps [log_write] from running out of log blocks.

    The log is seen as a transition system: the blocks logged so far and, for each
    operation in flight, the blocks it has written.  [begin_op] admits an operation
    only if every operation in flight, the new one included, could still log
    [MAXOPBLOCKS] blocks.  The theorems relate the kernel's routines to this system
    and show what the reservation guarantees: a log of more than [LOGSIZE] blocks
    (header included) never overflows, one of exactly [LOGSIZE] blocks can. *)
From S2P Require Import Prelude State Spinlock Queue Boot Cstring Kalloc Proc Copyio Sleeplock Disk Bio Bcache Log LogWrite.

(** ** The transition system *)
Record txn := mktxn { t_blocks : list Z; t_ops : list (list Z); t_committing : bool }.
Inductive tevent := EBegin | EWrite (i : nat) (b : Z) | EEnd (i : nat) | ECommit.

Definition room (t : txn) : bool := length (t_blocks t) + (length (t_ops t) + 1) * MAXOPBLOCKS <=? LOGSIZE.
(** an operation may log up to [MAXOPBLOCKS] distinct blocks *)
Definition may_write (ws : list Z) (b : Z) : bool := bool_decide (b ∈ ws) || (Z.of_nat (length ws) <? MAXOPBLOCKS).
Definition add_new (b : Z) (l : list Z) : list Z := if decide (b ∈ l) then l else l ++ [b].
Definition tnext (ev : tevent) (t : txn) : option txn :=
  match ev with
  | EBegin => if negb (t_committing t) && room t then Some (mktxn (t_blocks t) ([] :: t_ops t) false) else None
  | EWrite i b =>
      match t_ops t !! i with
      | Some ws => if may_write ws b then
                     Some (mktxn (add_new b (t_blocks t)) (<[i := add_new b ws]> (t_ops t)) (t_committing t))
                   else None
      | None => None
      end
  | EEnd i =>
      match t_ops t !! i with
      | Some _ => let ops := delete i (t_ops t) in Some (mktxn (t_blocks t) ops (bool_decide (ops = [])))
      | None => None
      end
  | ECommit => if t_committing t then Some (mktxn [] [] false) else None
  end.
Definition tstep (t t' : txn) : Prop := exists ev, tnext ev t = Some t'.
Definition reach : txn -> Prop := rtc tstep (mktxn [] [] false).

(** what is left of the reservations *)
Definition reserved (ops : list (list Z)) : Z := foldr (fun ws n => MAXOPBLOCKS - length ws + n) 0 ops.
Record txn_ok (t : txn) : Prop := {
  tk_nodup : NoDup (t_blocks t);
  tk_sub : Forall (fun ws => NoDup ws /\ ws ⊆ t_blocks t /\ length ws <= MAXOPBLOCKS) (t_ops t);
  tk_fits : length (t_blocks t) + reserved (t_ops t) <= LOGSIZE;
  tk_idle : t_committing t = true -> t_ops t = [];
  tk_ops : (length (t_ops t) <= 3)%nat
}.

Lemma add_new_elem b c l : c ∈ add_new b l <-> c ∈ l \/ c = b.
Proof. unfold add_new. case_decide; [naive_solver|]. by rewrite elem_of_app, list_elem_of_singleton. Qed.
Lemma add_new_nodup b l : NoDup l -> NoDup (add_new b l).
Proof.
  intros H. unfold add_new. case_decide as Hb; [done|]. apply NoDup_app. split_and!; [done | | apply NoDup_singleton].
  by intros c Hc ->%list_elem_of_singleton.
Qed.
Lemma add_new_length b l : Z.of_nat (length (add_new b l)) = length l + (if decide (b ∈ l) then 0 else 1).
Proof. unfold add_new. case_decide; [lia|]. rewrite length_app. cbn. lia. Qed.
Lemma reserved_cons ws ops : reserved (ws :: ops) = MAXOPBLOCKS - length ws + reserved ops.
Proof. done. Qed.
Lemma reserved_perm ops ops' : ops ≡ₚ ops' -> reserved ops = reserved ops'.
Proof. induction 1; rewrite ?reserved_cons in *; lia. Qed.
Lemma reserved_insert ops i ws ws' : ops !! i = Some ws -> reserved (<[i := ws']> ops) = reserved ops + (length ws - length ws').
Proof.
  intros Hi. pose proof (lookup_lt_Some _ _ _ Hi) as Hlt.
  rewrite (reserved_perm _ _ (delete_Permutation ops i ws Hi)).
  assert (Hi' : <[i := ws']> ops !! i = Some ws') by by apply list_lookup_insert_eq.
  rewrite (reserved_perm _ _ (delete_Permutation _ i ws' Hi')), !reserved_cons.
  rewrite !delete_take_drop, take_insert_ge, drop_insert_lt by lia. lia.
Qed.
Lemma reserved_le ops : reserved ops <= length ops * MAXOPBLOCKS.
Proof. induction ops as [|ws ops IH]; [done|]. rewrite reserved_cons. cbn [length]. unfold MAXOPBLOCKS in *. lia. Qed.
Lemma reserved_pos ops : Forall (fun ws : list Z => length ws <= MAXOPBLOCKS) ops -> 0 <= reserved ops.
Proof. induction 1 as [|ws ops Hw _ IH]; [done|]. rewrite reserved_cons. lia. Qed.

Lemma may_write_length ws b : may_write ws b = true -> length ws <= MAXOPBLOCKS -> length (add_new b ws) <= MAXOPBLOCKS.
Proof.
  unfold may_write. rewrite orb_true_iff, bool_decide_eq_true, Z.ltb_lt. intros H Hle. rewrite add_new_length.
  case_decide; [lia|]. destruct H; [done | lia].
Qed.
(** writing within the reservation leaves room for the others *)
Lemma write_fits t i ws b : txn_ok t -> t_ops t !! i = Some ws -> may_write ws b = true ->
  length (add_new b (t_blocks t)) + reserved (<[i := add_new b ws]> (t_ops t)) <= LOGSIZE.
Proof.
  intros [T1 T2 T3 T4 T5] Hi Hm. rewrite (reserved_insert _ i ws) by done. rewrite !add_new_length.
  rewrite Forall_forall in T2. destruct (T2 ws (list_elem_of_lookup_2 _ _ _ Hi)) as (_ & Hsub & _).
  destruct (decide (b ∈ ws)) as [Hb|Hb]; [rewrite decide_True by (by apply Hsub)|]; [lia|]. case_decide; lia.
Qed.
Lemma tnext_ok ev t t' : txn_ok t -> tnext ev t = Some t' -> txn_ok t'.
Proof.
  intros Hok. pose proof Hok as [T1 T2 T3 T4 T5]. destruct ev as [|i b|i|]; cbn [tnext].
  - destruct (negb (t_committing t) && room t) eqn:E; [|done]. intros [= <-]. apply andb_true_iff in E as [_ E].
    unfold room in E. apply Z.leb_le in E.
    constructor; cbn [t_blocks t_ops t_committing]; [done | | | done | cbn [length]; unfold LOGSIZE, MAXOPBLOCKS in E; lia].
    + constructor; [|done]. split_and!; [apply NoDup_nil_2 | by intros ? ?%elem_of_nil | done].
    + rewrite reserved_cons. pose proof (reserved_le (t_ops t)). cbn [length]. lia.
  - destruct (t_ops t !! i) as [ws|] eqn:Hi; [|done]. destruct (may_write ws b) eqn:Hm; [|done]. intros [= <-].
    pose proof (write_fits t i ws b Hok Hi Hm) as Hf.
    assert (HT2 : Forall (fun ws => NoDup ws /\ ws ⊆ add_new b (t_blocks t) /\ length ws <= MAXOPBLOCKS) (t_ops t)).
    { eapply Forall_impl; [exact T2|]. intros w (W1 & W2 & W3). split_and!; [done | | done]. intros c Hc. apply add_new_elem. left. by apply W2. }
    constructor; cbn [t_blocks t_ops t_committing]; [by apply add_new_nodup | | done | | by rewrite length_insert].
    + apply Forall_insert; [done|]. rewrite Forall_forall in T2.
      destruct (T2 ws (list_elem_of_lookup_2 _ _ _ Hi)) as (W1 & W2 & W3). split_and!; [by apply add_new_nodup | | by apply may_write_length].
      intros c. rewrite !add_new_elem. intros [|]; [left; by apply W2 | by right].
    + intros Hc. by rewrite (T4 Hc) in Hi.
  - destruct (t_ops t !! i) as [ws|] eqn:Hi; [|done]. intros [= <-]. pose proof (delete_Permutation _ i ws Hi) as HP.
    constructor; cbn [t_blocks t_ops t_committing]; [done | | | | rewrite HP in T5; cbn [length] in T5; lia].
    + rewrite HP in T2. by apply Forall_cons in T2 as [_ T2].
    + rewrite (reserved_perm _ _ HP), reserved_cons in T3. rewrite Forall_forall in T2.
      destruct (T2 ws (list_elem_of_lookup_2 _ _ _ Hi)) as (_ & _ & W3). lia.
    + by rewrite bool_decide_eq_true.
  - destruct (t_committing t); [|done]. intros [= <-]. constructor; cbn [t_blocks t_ops t_committing]; [apply NoDup_nil_2 | done | done | done | cbn; lia].
Qed.
Lemma reach_ok t : reach t -> txn_ok t.
Proof.
  unfold reach. intros Hr. remember (mktxn [] [] false) as t0 eqn:E0.
  assert (H0 : txn_ok t0) by (subst t0; constructor; cbn [t_blocks t_ops t_committing]; [apply NoDup_nil_2 | done | done | done | cbn; lia]). clear E0.
  induction Hr as [|t0 t1 t2 (ev & Hev) _ IH]; [done|]. apply IH. by eapply tnext_ok.
Qed.

(** ** The kernel's log and the transition system *)
Record log_rep (lg : logst) (t : txn) : Prop := {
  lr_blocks : logged lg = t_blocks t;
  lr_n : log_n lg = length (t_blocks t);
  lr_len : length (log_block lg) = Z.to_nat LOGSIZE;
  lr_out : log_outstanding lg = length (t_ops t);
  lr_committing : istrue (log_committing lg) = t_committing t
}.

Lemma room_spec lg t : log_rep lg t ->
  (LOGSIZE <? log_n lg + (log_outstanding lg + 1) * MAXOPBLOCKS) = negb (room t).
Proof. intros [_ -> _ -> _]. unfold room. rewrite Z.leb_antisym. by rewrite negb_involutive. Qed.
Lemma ops_bound t : txn_ok t -> room t = true -> (length (t_ops t) <= 2)%nat.
Proof. intros _. unfold room, LOGSIZE, MAXOPBLOCKS. rewrite Z.leb_le. lia. Qed.

Section begin_op.
Context (s : kstate) (t : txn).
Context (Hrep : log_rep (log_of s) t) (Hok : txn_ok t) (Hlk : lock_free (k_hw s) LLog).

Lemma wp_begin_op e : hart_ok 1 (k_hw s) -> negb (t_committing t) && room t = true ->
  wp begin_op e s (fun _ e' s' => e' = e /\
    s' = set_k_hw (hw_crit (k_hw s)) (with_log s (set_log_outstanding (length (t_ops t) + 1) (log_of s)))).
Proof using Hrep Hok Hlk.
  intros Hhart [Hc Hroom]%andb_true_iff. unfold begin_op. wp_step. apply wp_acquire; [done..|].
  apply wp_sleep_loop_now. unfold lgets. wp_steps. cbn. change (fs_log (k_fs s)) with (log_of s).
  rewrite (room_spec _ _ Hrep), (lr_committing _ _ Hrep), Hroom. destruct (t_committing t); [done|]. cbn [negb].
  pose proof (ops_bound t Hok Hroom). rewrite (lr_out _ _ Hrep), s32_small by lia.
  unfold lmod. wp_steps. eapply (wp_release_acq LLog (k_hw s) 1); [lia | done | done | done |]. wp_steps.
  exists tt. split_and!; [done | done |]. done.
Qed.

Lemma hands_begin_op p x ls : hart_ok 2 (k_hw s) -> depth (k_hw s) = 0 -> cur_is (k_hw s) p -> lock_free (k_hw s) (LProc p) ->
  sched_inv (k_ps s) ls -> ps_proc (k_ps s) !! p = Some x -> p_state x = RUNNING ->
  negb (t_committing t) && room t = false ->
  hands begin_op [] s (fun s1 => log_of s1 = log_of s /\ ps_proc (k_ps s1) !! p = Some (asleep CLog x) /\ lock_free (k_hw s1) LLog).
Proof using Hrep Hlk.
  intros Hhart Hd Hcur Hp Hinv Hx Hst Hno. pose proof (lookup_lt_Some _ _ _ Hx) as Hlt.
  assert (Hhart1 : hart_ok 1 (k_hw s)) by (by eapply hart_ok_weaken; [|done]; lia).
  set (s1 := set_k_hw (hw_acq LLog (k_hw s)) s).
  assert (Hsleep : hands (sleep CLog LLog) [] s1 (fun s2 => log_of s2 = log_of s /\
    ps_proc (k_ps s2) !! p = Some (asleep CLog x) /\ lock_free (k_hw s2) LLog)).
  { destruct (sleep_hw LLog p (k_hw s) s1 Hhart Hd Hcur Hlk ltac:(done) Hp eq_refl) as (c & _ & _ & _ & _ & _ & Hfree & _).
    eapply (hands_sleep CLog LLog p x ls (k_hw s)); try done. intros q l Hq Hl l' ps' Hinv'. split_and!; [done | | done].
    by apply slot_self. }
  unfold begin_op. apply hands_bind, wp_acquire; [done..|]. fold s1.
  unfold sleep_loop, hands. change (hands (mloop 1 tt (fun _ =>
    committing <- lgets log_committing;; n <- lgets log_n;; out <- lgets log_outstanding;;
    if istrue committing then sleep CLog LLog;; ret (inl tt)
    else if LOGSIZE <? n + (out + 1) * MAXOPBLOCKS then sleep CLog LLog;; ret (inl tt)
    else lmod (set_log_outstanding (s32 (out + 1)));; release LLog;; ret (inr tt))) [] s1
    (fun s2 => log_of s2 = log_of s /\ ps_proc (k_ps s2) !! p = Some (asleep CLog x) /\ lock_free (k_hw s2) LLog)).
  cbn [mloop]. apply hands_bind_l. unfold lgets. do 3 (apply hands_bind; wp_step). cbn -[hands].
  change (fs_log (k_fs s)) with (log_of s). rewrite (room_spec _ _ Hrep), (lr_committing _ _ Hrep).
  destruct (t_committing t); [by apply hands_bind_l|]. cbn [negb andb] in Hno. rewrite Hno. cbn [negb]. by apply hands_bind_l.
Qed.
End begin_op.

(** ** [end_op] when other operations are in flight *)
Section end_op.
Context (s : kstate) (t : txn) (me : option nat) (ls : list (list nat)).
Context (Hrep : log_rep (log_of s) t) (Hlk : lock_free (k_hw s) LLog) (Hhart : hart_ok 2 (k_hw s)).
Context (Hme : c_proc <$> cur_cpu (k_hw s) = Some me) (Hlocks : proc_locks_free (k_hw s) me).
Context (Hinv : sched_inv (k_ps s) ls).

Lemma wp_end_op e : t_committing t = false -> (2 <= length (t_ops t))%nat -> Z.of_nat (length (t_ops t)) < 2 ^ 31 ->
  wp end_op e s (fun _ e' s' => e' = e /\ k_hw s' ≈h k_hw s /\
    log_of s' = set_log_outstanding (length (t_ops t) - 1) (log_of s) /\
    ps_proc (k_ps s') = imap (wake_proc CLog me) (ps_proc (k_ps s))).
Proof using All.
  intros Hc Hn Hmax. assert (Hhart1 : hart_ok 1 (k_hw s)) by (by eapply hart_ok_weaken; [|done]; lia).
  unfold end_op. wp_step. apply wp_acquire; [done..|]. unfold lgets, lmod. wp_steps. cbn.
  change (fs_log (k_fs s)) with (log_of s). rewrite (lr_committing _ _ Hrep), Hc, (lr_out _ _ Hrep), s32_small by lia.
  wp_steps. cbn. replace (Z.of_nat (length (t_ops t)) - 1 =? 0) with false by lia.
  set (s1 := set_k_fs _ _). assert (Hhw1 : k_hw s1 = hw_acq LLog (k_hw s)) by done.
  destruct (hw_acq_cpu (k_hw s) LLog 2 Hhart Hlk) as (c & Hcc & Hc1 & _).
  assert (Hme1 : c_proc c = me) by (rewrite Hcc in Hme; by injection Hme).
  eapply (wp_wakeup CLog me ls s1); try done.
  - rewrite Hhw1. replace 1 with (2 - 1) by lia. by apply hart_ok_acq.
  - rewrite <- Hme1. unfold cpu_push. by destruct (c_noff c =? 0).
  - intros i Hi Hne. rewrite Hhw1. destruct (Hlocks i Hi Hne) as [m Hm]. exists m. by rewrite (hw_acq_other _ _ Hlk) by done.
  - intros s2 ((E1 & E2 & E3 & E4) & _ & Ht & _). apply hw_eqv_eq in E1 as E1'; [|rewrite Hhw1; by eapply depth_acq].
    rewrite Hhw1 in E1'. wp_step. eapply (wp_release_acq LLog (k_hw s) 2); [lia | done | done | done |]. cbn [when]. wp_step.
    split_and!; [done | apply hw_crit_eqv | | ].
    + unfold log_of. cbn [k_fs set_k_hw]. rewrite E4. done.
    + cbn [k_ps set_k_hw]. rewrite Ht. rewrite <- (qo_nproc _ _ (proj1 Hinv)) at 1. apply woken_table_all.
Qed.
End end_op.

(** ** [log_write] of an operation within its reservation *)
Lemma wp_log_write_in b x e s t i ws : hart_ok 2 (k_hw s) -> lock_free (k_hw s) LLog -> lock_free (k_hw s) LBcache ->
  bufs_of s !! b = Some x -> 0 <= b_blockno x < 2 ^ 32 -> txn_ok t -> log_rep (log_of s) t ->
  t_ops t !! i = Some ws -> may_write ws (b_blockno x) = true ->
  log_n (log_of s) < LOGSIZE -> log_n (log_of s) < log_size (log_of s) - 1 ->
  wp (log_write b) e s (fun _ e' s' => e' = e /\ log_size (log_of s') = log_size (log_of s) /\
    log_rep (log_of s') (mktxn (add_new (b_blockno x) (t_blocks t)) (<[i := add_new (b_blockno x) ws]> (t_ops t)) (t_committing t))).
Proof.
  intros Hok Hlk Hbc Hx Hno Ht [R1 R2 R3 R4 R5] Hi Hm Hlt Hsz.
  assert (Hout : 1 <= log_outstanding (log_of s)) by (rewrite R4; apply lookup_lt_Some in Hi; lia).
  apply (wp_log_write b x e s); try done; [by rewrite R2; lia|]. intros j h' He Hh. split; [done|].
  change (log_of (set_k_hw h' (with_log ?a ?g))) with g.
  assert (Hn0 : 0 <= log_n (log_of s)) by (rewrite R2; lia).
  pose proof (logged_after x s Hno R3 Hn0 j Hlt He) as Hl. pose proof (entry_new x s j He) as Hnew. rewrite R1 in Hl, Hnew.
  assert (Hlogd : logged (log_after x s j) = add_new (b_blockno x) (t_blocks t)).
  { rewrite Hl. unfold add_new. destruct (decide (j = Z.to_nat (log_n (log_of s)))) as [E|E], (decide (b_blockno x ∈ t_blocks t)) as [Hb|Hb]; try done.
    - by apply Hnew in E.
    - by destruct E; apply Hnew. }
  unfold log_after in *. destruct (decide (j = Z.to_nat (log_n (log_of s)))) as [E|E]; (split; [done|]).
  - apply Hnew in E. constructor; cbn [t_blocks t_ops t_committing]; try done.
    + cbn [log_n set_log_n]. rewrite add_new_length, decide_False, R2 by done. done.
    + cbn. by rewrite length_insert.
    + cbn. by rewrite length_insert.
  - constructor; cbn [t_blocks t_ops t_committing]; try done.
    + cbn [log_n set_log_block]. rewrite add_new_length, R2. destruct (decide (b_blockno x ∈ t_blocks t)); [lia|]. by destruct E; apply Hnew.
    + cbn. by rewrite length_insert.
    + cbn. by rewrite length_insert.
Qed.

(** the blocks an operation may use in a log of [size] blocks, the header included *)
Definition allowance (size : Z) : Z := Z.min MAXOPBLOCKS (MAXOPBLOCKS - (LOGSIZE + 1 - size)).
Lemma reserved_room t i ws size : txn_ok t -> t_ops t !! i = Some ws -> length ws < allowance size ->
  length (t_blocks t) < LOGSIZE /\ length (t_blocks t) < size - 1.
Proof.
  intros [_ T2 T3 _ _] Hi Ha. rewrite (reserved_perm _ _ (delete_Permutation _ i ws Hi)), reserved_cons in T3.
  assert (Hp : 0 <= reserved (delete i (t_ops t))).
  { apply reserved_pos. rewrite (delete_Permutation _ i ws Hi) in T2. apply Forall_cons in T2 as [_ T2].
    eapply Forall_impl; [exact T2|]. by intros w (_ & _ & ?). }
  unfold allowance, LOGSIZE, MAXOPBLOCKS in *. lia.
Qed.

(** ** Theorems *)

(** C22: [begin_op] implements the admission of an operation: when the log has room for it and no commit is running, it
    returns with the operation counted and nothing else changed; otherwise it gives up the processor with the log
    unchanged, its lock free and the process asleep on the channel that [end_op] wakes *)
Theorem begin_op_admits p x ls s t :
  reach t -> log_rep (log_of s) t -> hart_ok 2 (k_hw s) -> depth (k_hw s) = 0 -> cur_is (k_hw s) p ->
  lock_free (k_hw s) LLog -> lock_free (k_hw s) (LProc p) -> sched_inv (k_ps s) ls ->
  ps_proc (k_ps s) !! p = Some x -> p_state x = RUNNING ->
  match tnext EBegin t with
  | Some t' => exists s', begin_op [] s = Ret tt [] s' /\ log_rep (log_of s') t' /\ k_hw s' ≈h k_hw s /\ k_ps s' = k_ps s /\
      s' = set_k_hw (k_hw s') (with_log s (set_log_outstanding (length (t_ops t) + 1) (log_of s)))
  | None => hands begin_op [] s (fun s1 => log_of s1 = log_of s /\ ps_proc (k_ps s1) !! p = Some (asleep CLog x) /\
      lock_free (k_hw s1) LLog)
  end.
Proof.
  intros Ht Hrep Hhart Hd Hcur Hlk Hp Hinv Hx Hst. apply reach_ok in Ht. cbn [tnext].
  destruct (negb (t_committing t) && room t) eqn:E.
  - assert (Hhart1 : hart_ok 1 (k_hw s)) by (by eapply hart_ok_weaken; [|done]; lia).
    pose proof (wp_begin_op s t Hrep Ht Hlk [] Hhart1 E) as H. apply wp_run_tt in H as (s' & Hr & ->).
    eexists. split; [exact Hr|]. split_and!; [|apply hw_crit_eqv | done | done].
    change (log_of (set_k_hw _ (with_log s ?g))) with g. apply andb_true_iff in E as [E _]. destruct Hrep as [R1 R2 R3 R4 R5].
    constructor; cbn [t_blocks t_ops t_committing length]; try done; [cbn; lia|]. cbn. rewrite R5. by destruct (t_committing t).
  - by eapply hands_begin_op.
Qed.

(** C23: the reservation of [begin_op] is enough: in every state the operations can reach, an operation that has logged
    fewer blocks than its allowance can call [log_write] on any block without a panic, and the log then holds the
    transaction with that block added once *)
Theorem log_write_reserved b x e s t i ws :
  reach t -> log_rep (log_of s) t -> t_ops t !! i = Some ws -> length ws < allowance (log_size (log_of s)) ->
  hart_ok 2 (k_hw s) -> lock_free (k_hw s) LLog -> lock_free (k_hw s) LBcache ->
  bufs_of s !! b = Some x -> 0 <= b_blockno x < 2 ^ 32 ->
  exists s' t', log_write b e s = Ret tt e s' /\ tnext (EWrite i (b_blockno x)) t = Some t' /\ reach t' /\
    log_rep (log_of s') t' /\ log_size (log_of s') = log_size (log_of s).
Proof.
  intros Ht Hrep Hi Ha Hok Hlk Hbc Hx Hno. pose proof (reach_ok t Ht) as Htok.
  destruct (reserved_room t i ws _ Htok Hi Ha) as [H1 H2]. rewrite <- (lr_n _ _ Hrep) in H1, H2.
  assert (Hm : may_write ws (b_blockno x) = true).
  { unfold may_write. apply orb_true_iff. right. apply Z.ltb_lt. unfold allowance in Ha. lia. }
  pose proof (wp_log_write_in b x e s t i ws Hok Hlk Hbc Hx Hno Htok Hrep Hi Hm H1 H2) as H.
  apply wp_run_tt in H as (s' & Hr & Hsz & Hrep'). eexists s', _. split; [exact Hr|]. cbn [tnext]. rewrite Hi, Hm.
  split_and!; try done. eapply rtc_r; [exact Ht|]. exists (EWrite i (b_blockno x)). cbn [tnext]. by rewrite Hi, Hm.
Qed.

(** [end_op] of an operation that is not the last leaves the log to the others and makes runnable exactly the
    processes that wait for room *)
Lemma end_op_leaves s t i ws me ls e :
  reach t -> log_rep (log_of s) t -> t_ops t !! i = Some ws -> (2 <= length (t_ops t))%nat ->
  lock_free (k_hw s) LLog -> hart_ok 2 (k_hw s) -> c_proc <$> cur_cpu (k_hw s) = Some me ->
  proc_locks_free (k_hw s) me -> sched_inv (k_ps s) ls ->
  exists s' t', end_op e s = Ret tt e s' /\ tnext (EEnd i) t = Some t' /\ log_rep (log_of s') t' /\ k_hw s' ≈h k_hw s /\
    ps_proc (k_ps s') = imap (wake_proc CLog me) (ps_proc (k_ps s)).
Proof.
  intros Ht Hrep Hi Hn Hlk Hhart Hme Hlocks Hinv. pose proof (reach_ok t Ht) as [T1 T2 T3 T4 T5].
  assert (Hc : t_committing t = false).
  { destruct (t_committing t); [|done]. by rewrite (T4 eq_refl) in Hi. }
  assert (Hmax : Z.of_nat (length (t_ops t)) < 2 ^ 31) by lia.
  pose proof (wp_end_op s t me ls Hrep Hlk Hhart Hme Hlocks Hinv e Hc Hn Hmax) as H.
  apply wp_run_tt in H as (s' & Hr & Hh & Hl & Hps). cbn [tnext]. rewrite Hi. eexists s', _. split_and!; try done.
  destruct Hrep as [R1 R2 R3 R4 R5]. pose proof (delete_Permutation _ i ws Hi) as HP. pose proof (Permutation_length HP) as Hlen.
  cbn [length] in Hlen. rewrite Hl. constructor; cbn [t_blocks t_ops t_committing]; try done.
  - cbn. lia.
  - cbn. rewrite R5, Hc. symmetry. apply bool_decide_eq_false. intros E. rewrite E in Hlen. cbn in Hlen. lia.
Qed.

(** ** Runs of the transition system *)
Definition trun (evs : list tevent) : option txn := foldl (fun o ev => o ≫= tnext ev) (Some (mktxn [] [] false)) evs.
Lemma trun_reach evs t : trun evs = Some t -> reach t.
Proof.
  unfold trun. revert t. induction evs as [|ev evs IH] using rev_ind; intros t; [intros [= <-]; apply rtc_refl|].
  rewrite foldl_app. cbn. destruct (foldl _ _ evs) as [t0|] eqn:E; [|done]. cbn. intros H.
  eapply rtc_r; [by apply IH | by exists ev].
Qed.

(** the first operation on an idle log, by the running process of the demo machine *)
Definition idle_log : logst := mklog 2 31 0 0 1 0 (replicate 30 0).
Definition begin_demo : kstate := with_log demo idle_log.
Lemma begin_op_admits_witness : exists s', begin_op [] begin_demo = Ret tt [] s' /\
  log_rep (log_of s') (mktxn [] [[]] false) /\ k_hw s' ≈h k_hw begin_demo /\ k_ps s' = k_ps begin_demo /\
    s' = set_k_hw (k_hw s') (with_log begin_demo (set_log_outstanding 1 (log_of begin_demo))).
Proof.
  apply (begin_op_admits 0 (demo_proc 0 RUNNING CNull 1 0 None) demo_queues begin_demo (mktxn [] [] false)).
  - apply rtc_refl.
  - by constructor.
  - by apply hw1_hart.
  - reflexivity.
  - reflexivity.
  - by apply hw1_lock.
  - by apply hw1_lock.
  - apply demo_sched_inv.
  - reflexivity.
  - reflexivity.
Defined.
(** block 5, held in buffer 0, logged by an operation that has logged block 7 *)
Lemma log_write_reserved_witness : exists s' t', log_write 0 [] log_demo = Ret tt [] s' /\
  tnext (EWrite 0 5) (mktxn [7] [[7]] false) = Some t' /\ reach t' /\ log_rep (log_of s') t' /\
  log_size (log_of s') = log_size (log_of log_demo).
Proof.
  destruct cache_demo_hw as (H1 & _ & H3 & _).
  assert (H4 : free_in (k_hw cache_demo) LLog = true) by (vm_compute; reflexivity).
  destruct (with_bufs_rest cache_demo (alter (taken false 1 5 (p_pid demo_me)) 0%nat (bufs_of cache_demo))) as [Eh _].
  fold cache_held in Eh.
  destruct (with_log_rest cache_held (mklog 2 30 1 0 1 1 (7 :: replicate 29 0))) as (Eh' & Eb & El).
  fold log_demo in Eh', Eb, El. rewrite Eh in Eh'. rewrite <- Eh' in H1, H3, H4.
  destruct (bufs_of cache_held !! 0%nat) as [y|] eqn:Hy; [|vm_compute in Hy; discriminate].
  assert (Hb : b_blockno y = 5) by (vm_compute in Hy; injection Hy as <-; reflexivity).
  pose proof (log_write_reserved 0 y [] log_demo (mktxn [7] [[7]] false) 0 [7]) as H. rewrite Hb, El, Eb in H.
  rewrite El. apply H; [apply (trun_reach [EBegin; EWrite 0 7]); reflexivity | by constructor | reflexivity | reflexivity
    | exact H1 | exact (free_in_spec _ _ H4) | exact (free_in_spec _ _ H3) | exact Hy | lia].
Defined.
