(* ===== verification/Fs.v ===== *)
(** The file system (fs.c): block allocation, inodes, file contents,
    directories and path names.

    A pointer to an in-memory inode is an index of the inode table; the null
    pointer is [None].  Path names and names of directory entries are lists of
    bytes without the terminating NUL; the [DIRSIZ]-byte name buffers keep
    theirs. *)
From S2P Require Import Prelude State Spinlock Queue Boot Cstring Kalloc Vm Printf Proc Copyio.
From S2P Require Import Sleeplock Disk Bio Log.

(** ** fs.h, stat.h *)
Definition ROOTINO : Z := 1.
Definition FSMAGIC : Z := 0x10203040.
Definition NDIRECT : nat := 12.
Definition NINDIRECT : Z := BSIZE / 4.
Definition MAXFILE : Z := NDIRECT + NINDIRECT.
Definition IPB : Z := BSIZE / 64.
Definition BPB : Z := BSIZE * 8.
Definition DIRSIZ : nat := 14.
Definition T_DIR : Z := 1.
Definition T_FILE : Z := 2.
Definition T_DEVICE : Z := 3.
Definition IBLOCK (i : Z) (sb : superblock) : Z := u32 (i / IPB + sb_inodestart sb).
Definition BBLOCK (b : Z) (sb : superblock) : Z := u32 (b / BPB + sb_bmapstart sb).

(** ** Structures in the bytes of a block *)
Definition s16 (z : Z) : Z := (z + 2 ^ 15) mod 2 ^ 16 - 2 ^ 15.
Definition get16 (l : list Z) (off : nat) : Z := get8 l off + 256 * get8 l (off + 1).
Definition put16 (l : list Z) (off : nat) (v : Z) : list Z :=
  <[off := u8 v]> (<[(off + 1)%nat := u8 (v / 2 ^ 8)]> l).
(** [memmove] into a buffer at an offset *)
Definition splice (l : list Z) (off : nat) (bytes : list Z) : list Z :=
  take off l ++ bytes ++ drop (off + length bytes) l.

(** struct superblock *)
Definition parse_sb (l : list Z) : superblock :=
  mksuperblock (get32 l 0) (get32 l 4) (get32 l 8) (get32 l 12) (get32 l 16) (get32 l 20)
    (get32 l 24) (get32 l 28).

(** struct dinode: type 0, major 2, minor 4, nlink 6, size 8, addrs 12 *)
Definition di_addr (i : nat) : nat := (12 + 4 * i)%nat.
(** the offset of inode [inum] in its block *)
Definition di_off (inum : Z) : nat := (64 * Z.to_nat (inum mod IPB))%nat.
Definition di_read (l : list Z) (o : nat) (ip : inode) : inode :=
  set_i_addrs ((fun i => get32 l (o + di_addr i)) <$> seq 0 13)
    (set_i_size (get32 l (o + 8)) (set_i_nlink (s16 (get16 l (o + 6)))
      (set_i_minor (s16 (get16 l (o + 4))) (set_i_major (s16 (get16 l (o + 2)))
        (set_i_type (s16 (get16 l o)) ip))))).
Definition di_write (l : list Z) (o : nat) (ip : inode) : list Z :=
  fold_left (fun l i => put32 l (o + di_addr i) (default 0 (i_addrs ip !! i))) (seq 0 13)
    (put32 (put16 (put16 (put16 (put16 l o (i_type ip)) (o + 2) (i_major ip)) (o + 4) (i_minor ip))
      (o + 6) (i_nlink ip)) (o + 8) (i_size ip)).

(** ** Access to the state *)
Definition sb_get : K superblock := gets (fun s => fs_sb (k_fs s)).
Definition inode_at (ip : nat) : K inode :=
  l <- gets (fun s => fs_inode (k_fs s));;
  match l !! ip with Some x => ret x | None => fault "no such inode" end.
Definition inode_upd (ip : nat) (f : inode -> inode) : K unit :=
  modify_fs (fun x => set_fs_inode (alter f ip (fs_inode x)) x).

(** ** Blocks *)
Definition readsb (dev : Z) : K unit :=
  bp <- bread dev 1;;
  data <- buf_data bp;;
  modify_fs (set_fs_sb (parse_sb data));;
  brelse bp.

Definition fsinit (dev : Z) : K unit :=
  readsb dev;;
  sb <- sb_get;;
  if negb (sb_magic sb =? FSMAGIC) then panic "invalid file system" else
  initlog dev sb.

Definition bzero (dev bno : Z) : K unit :=
  bp <- bread dev bno;;
  buf_set_data bp (replicate (Z.to_nat BSIZE) 0);;
  log_write bp;;
  brelse bp.

(** allocate a zeroed block; 0 when the disk is full *)
Definition balloc (dev : Z) : K Z :=
  sb <- sb_get;;
  r <- mfor (seq 0 (Z.to_nat ((sb_size sb + BPB - 1) / BPB))) (fun k =>
    let b := k * BPB in
    bp <- bread dev (BBLOCK b sb);;
    r <- mfor (seq 0 (Z.to_nat (Z.min BPB (sb_size sb - b)))) (fun bi =>
      let m := Z.shiftl 1 (bi mod 8) in
      data <- buf_data bp;;
      let byte := get8 data (bi / 8) in
      if Z.land byte m =? 0 then
        buf_set_data bp (<[(bi / 8)%nat := Z.lor byte m]> data);;
        log_write bp;;
        brelse bp;;
        bzero dev (b + bi);;
        ret (Some (b + bi))
      else ret None);;
    match r with
    | Some x => ret (Some x)
    | None => brelse bp;; ret None
    end);;
  match r with
  | Some b => ret b
  | None => printf "balloc: out of blocks
" [];; ret 0
  end.

Definition bfree (dev b : Z) : K unit :=
  sb <- sb_get;;
  bp <- bread dev (BBLOCK b sb);;
  let bi := Z.to_nat (b mod BPB) in
  let m := Z.shiftl 1 (bi mod 8) in
  data <- buf_data bp;;
  let byte := get8 data (bi / 8) in
  if Z.land byte m =? 0 then panic "freeing free block" else
  buf_set_data bp (<[(bi / 8)%nat := Z.land byte (Z.lnot m)]> data);;
  log_write bp;;
  brelse bp.

(** ** Inodes *)
Definition iinit : K unit :=
  initlock LItable "itable";;
  mforall (seq 0 NINODE) (fun i => initsleeplock (SLInode i) "inode").

Definition iget (dev inum : Z) : K nat :=
  acquire LItable;;
  r <- mfold (seq 0 NINODE) None (fun empty ip =>
    x <- inode_at ip;;
    if (0 <? i_ref x) && (i_dev x =? dev) && (i_inum x =? inum) then
      inode_upd ip (fun x => set_i_ref (s32 (i_ref x + 1)) x);;
      release LItable;;
      ret (inr ip)
    else ret (inl (match empty with
                   | None => if i_ref x =? 0 then Some ip else None
                   | Some _ => empty end)));;
  match r with
  | inr ip => ret ip
  | inl None => panic "iget: no inodes"
  | inl (Some ip) =>
      inode_upd ip (set_i_dev dev);;
      inode_upd ip (set_i_inum inum);;
      inode_upd ip (set_i_ref 1);;
      inode_upd ip (set_i_valid 0);;
      release LItable;;
      ret ip
  end.

Definition ialloc (dev type : Z) : K (option nat) :=
  sb <- sb_get;;
  r <- mfor (seq 1 (Z.to_nat (sb_ninodes sb - 1))) (fun inum =>
    bp <- bread dev (IBLOCK inum sb);;
    data <- buf_data bp;;
    let o := di_off inum in
    if s16 (get16 data o) =? 0 then
      buf_set_data bp (put16 (splice data o (replicate 64 0)) o type);;
      log_write bp;;
      brelse bp;;
      ip <- iget dev inum;;
      ret (Some ip)
    else brelse bp;; ret None);;
  match r with
  | Some ip => ret (Some ip)
  | None => printf "ialloc: no inodes
" [];; ret None
  end.

Definition iupdate (ip : nat) : K unit :=
  sb <- sb_get;;
  x <- inode_at ip;;
  bp <- bread (i_dev x) (IBLOCK (i_inum x) sb);;
  data <- buf_data bp;;
  x <- inode_at ip;;
  buf_set_data bp (di_write data (di_off (i_inum x)) x);;
  log_write bp;;
  brelse bp.

Definition idup (ip : nat) : K nat :=
  acquire LItable;;
  inode_upd ip (fun x => set_i_ref (s32 (i_ref x + 1)) x);;
  release LItable;;
  ret ip.

Definition ilock (o : option nat) : K unit :=
  match o with
  | None => panic "ilock"
  | Some ip =>
      x <- inode_at ip;;
      if i_ref x <? 1 then panic "ilock" else
      acquiresleep (SLInode ip);;
      x <- inode_at ip;;
      when (i_valid x =? 0)
        (sb <- sb_get;;
         bp <- bread (i_dev x) (IBLOCK (i_inum x) sb);;
         data <- buf_data bp;;
         inode_upd ip (di_read data (di_off (i_inum x)));;
         brelse bp;;
         inode_upd ip (set_i_valid 1);;
         x <- inode_at ip;;
         when (i_type x =? 0) (panic "ilock: no type"))
  end.

Definition iunlock (o : option nat) : K unit :=
  match o with
  | None => panic "iunlock"
  | Some ip =>
      h <- holdingsleep (SLInode ip);;
      if negb h then panic "iunlock" else
      x <- inode_at ip;;
      if i_ref x <? 1 then panic "iunlock" else
      releasesleep (SLInode ip)
  end.

(** discard the contents *)
Definition itrunc (ip : nat) : K unit :=
  mforall (seq 0 NDIRECT) (fun i =>
    x <- inode_at ip;;
    let a := default 0 (i_addrs x !! i) in
    when (istrue a)
      (bfree (i_dev x) a;;
       inode_upd ip (fun x => set_i_addrs (<[i := 0]> (i_addrs x)) x)));;
  x <- inode_at ip;;
  let ind := default 0 (i_addrs x !! NDIRECT) in
  when (istrue ind)
    (bp <- bread (i_dev x) ind;;
     mforall (seq 0 (Z.to_nat NINDIRECT)) (fun j =>
       data <- buf_data bp;;
       let a := get32 data (4 * j) in
       when (istrue a) (bfree (i_dev x) a));;
     brelse bp;;
     bfree (i_dev x) ind;;
     inode_upd ip (fun x => set_i_addrs (<[NDIRECT := 0]> (i_addrs x)) x));;
  inode_upd ip (set_i_size 0);;
  iupdate ip.

Definition iput (ip : nat) : K unit :=
  acquire LItable;;
  x <- inode_at ip;;
  when ((i_ref x =? 1) && istrue (i_valid x) && (i_nlink x =? 0))
    (acquiresleep (SLInode ip);;
     release LItable;;
     itrunc ip;;
     inode_upd ip (set_i_type 0);;
     iupdate ip;;
     inode_upd ip (set_i_valid 0);;
     releasesleep (SLInode ip);;
     acquire LItable);;
  inode_upd ip (fun x => set_i_ref (s32 (i_ref x - 1)) x);;
  release LItable.

Definition iunlockput (ip : nat) : K unit := iunlock (Some ip);; iput ip.

(** ** Inode content *)

(** the block holding block [bn] of the file, allocated if need be *)
Definition bmap (ip : nat) (bn : Z) : K Z :=
  x <- inode_at ip;;
  if bn <? NDIRECT then
    let addr := default 0 (i_addrs x !! Z.to_nat bn) in
    if addr =? 0 then
      addr <- balloc (i_dev x);;
      if addr =? 0 then ret 0 else
      inode_upd ip (fun x => set_i_addrs (<[Z.to_nat bn := addr]> (i_addrs x)) x);;
      ret addr
    else ret addr
  else
  let bn := bn - NDIRECT in
  if bn <? NINDIRECT then
    let addr := default 0 (i_addrs x !! NDIRECT) in
    addr <- (if addr =? 0 then
               addr <- balloc (i_dev x);;
               when (istrue addr)
                 (inode_upd ip (fun x => set_i_addrs (<[NDIRECT := addr]> (i_addrs x)) x));;
               ret addr
             else ret addr);;
    if addr =? 0 then ret 0 else
    bp <- bread (i_dev x) addr;;
    data <- buf_data bp;;
    let addr := get32 data (4 * Z.to_nat bn) in
    addr <- (if addr =? 0 then
               addr <- balloc (i_dev x);;
               when (istrue addr)
                 (data <- buf_data bp;;
                  buf_set_data bp (put32 data (4 * Z.to_nat bn) addr);;
                  log_write bp);;
               ret addr
             else ret addr);;
    brelse bp;;
    ret addr
  else panic "bmap: out of range".

(** struct stat: dev 0, ino 4, type 8, nlink 10, size 16 *)
Definition stati (ip : nat) : K (list Z) :=
  x <- inode_at ip;;
  ret (put32 (put32 (put16 (put16 (put32 (put32 (replicate 24 0) 0 (i_dev x)) 4 (i_inum x))
    8 (i_type x)) 10 (i_nlink x)) 16 (i_size x)) 20 0).

(** the result, and the bytes when the destination is a kernel buffer *)
Definition readi (ip : nat) (dst : kdst) (off n : Z) : K (Z * list Z) :=
  x <- inode_at ip;;
  if (i_size x <? off) || (u32 (off + n) <? off) then ret (0, []) else
  let n := if i_size x <? u32 (off + n) then i_size x - off else n in
  mloop (S (Z.to_nat n)) (0, off, dst, []) (fun '(tot, off, dst, acc) =>
    if n <=? tot then ret (inr (tot, acc)) else
    addr <- bmap ip (off / BSIZE);;
    if addr =? 0 then ret (inr (tot, acc)) else
    bp <- bread (i_dev x) addr;;
    let m := Z.min (n - tot) (BSIZE - off mod BSIZE) in
    data <- buf_data bp;;
    let bytes := take (Z.to_nat m) (drop (Z.to_nat (off mod BSIZE)) data) in
    r <- either_copyout dst bytes;;
    if r =? -1 then brelse bp;; ret (inr (-1, acc)) else
    brelse bp;;
    ret (inl (tot + m, u32 (off + m), kdst_add dst m, acc ++ bytes))).

Definition writei (ip : nat) (src : ksrc) (off n : Z) : K Z :=
  x <- inode_at ip;;
  if (i_size x <? off) || (u32 (off + n) <? off) then ret (-1) else
  if MAXFILE * BSIZE <? u32 (off + n) then ret (-1) else
  r <- mloop (S (Z.to_nat n)) (0, off, src) (fun '(tot, off, src) =>
    if n <=? tot then ret (inr (tot, off)) else
    addr <- bmap ip (off / BSIZE);;
    if addr =? 0 then ret (inr (tot, off)) else
    bp <- bread (i_dev x) addr;;
    let m := Z.min (n - tot) (BSIZE - off mod BSIZE) in
    c <- either_copyin src m;;
    data <- buf_data bp;;
    buf_set_data bp (splice data (Z.to_nat (off mod BSIZE)) c.2);;
    if c.1 =? -1 then brelse bp;; ret (inr (tot, off)) else
    log_write bp;;
    brelse bp;;
    ret (inl (tot + m, u32 (off + m), ksrc_add src m)));;
  let '(tot, off) := r in
  x <- inode_at ip;;
  when (i_size x <? off) (inode_upd ip (set_i_size off));;
  iupdate ip;;
  ret tot.

(** ** Directories *)

(** [strncmp] on names: bytes past the end of a list are NUL *)
Fixpoint strncmp_l (p q : list Z) (n : nat) : Z :=
  match n with
  | O => 0
  | S n' =>
      let a := default 0 (head p) in
      let b := default 0 (head q) in
      if istrue a && (a =? b) then strncmp_l (tail p) (tail q) n' else a - b
  end.
Definition namecmp (s t : list Z) : Z := strncmp_l s t DIRSIZ.

(** struct dirent: inum 0, name 2 *)
Definition DIRENT : Z := 16.
Definition de_inum (de : list Z) : Z := get16 de 0.
Definition de_name (de : list Z) : list Z := drop 2 de.
(** [strncpy(de.name, name, DIRSIZ)] *)
Definition strncpy_l (name : list Z) (n : nat) : list Z :=
  take n (cstr name) ++ replicate (n - length (take n (cstr name))) 0.
Definition mk_dirent (inum : Z) (name : list Z) : list Z :=
  [u8 inum; u8 (inum / 2 ^ 8)] ++ strncpy_l name DIRSIZ.

(** the inode and the offset of its entry *)
Definition dirlookup (dp : nat) (name : list Z) : K (option (nat * Z)) :=
  x <- inode_at dp;;
  if negb (i_type x =? T_DIR) then panic "dirlookup not DIR" else
  mloop (S (S (Z.to_nat (i_size x / DIRENT)))) 0 (fun off =>
    x <- inode_at dp;;
    if i_size x <=? off then ret (inr None) else
    r <- readi dp ToBuf off DIRENT;;
    if negb (r.1 =? DIRENT) then panic "dirlookup read" else
    let de := r.2 in
    if negb (de_inum de =? 0) && (namecmp name (de_name de) =? 0) then
      x <- inode_at dp;;
      ip <- iget (i_dev x) (de_inum de);;
      ret (inr (Some (ip, off)))
    else ret (inl (u32 (off + DIRENT)))).

Definition dirlink (dp : nat) (name : list Z) (inum : Z) : K Z :=
  r <- dirlookup dp name;;
  match r with
  | Some (ip, _) => iput ip;; ret (-1)
  | None =>
      x <- inode_at dp;;
      off <- mloop (S (S (Z.to_nat (i_size x / DIRENT)))) 0 (fun off =>
        x <- inode_at dp;;
        if i_size x <=? off then ret (inr off) else
        r <- readi dp ToBuf off DIRENT;;
        if negb (r.1 =? DIRENT) then panic "dirlink read" else
        if de_inum r.2 =? 0 then ret (inr off) else ret (inl (off + DIRENT)));;
      r <- writei dp (FromBuf (mk_dirent inum name)) off DIRENT;;
      ret (if r =? DIRENT then 0 else -1)
  end.

(** ** Paths *)
Definition slash : Z := 47.
Fixpoint skip_slashes (path : list Z) : list Z :=
  match path with c :: rest => if c =? slash then skip_slashes rest else path | [] => [] end.
Fixpoint split_elem (path : list Z) : list Z * list Z :=
  match path with
  | c :: rest => if c =? slash then ([], path)
                 else let '(a, b) := split_elem rest in (c :: a, b)
  | [] => ([], [])
  end.
(** [None] for the null pointer; else the rest of the path and the name buffer *)
Definition skipelem (path name : list Z) : option (list Z * list Z) :=
  let path := skip_slashes path in
  match path with
  | [] => None
  | _ =>
      let '(s, path) := split_elem path in
      let name := if decide (DIRSIZ <= length s)%nat then splice name 0 (take DIRSIZ s)
                  else splice name 0 (s ++ [0]) in
      Some (skip_slashes path, name)
  end.

(** the inode, and the name buffer *)
Definition namex (path : list Z) (parent : bool) : K (option nat * list Z) :=
  ip <- (if default 0 (head path) =? slash then iget ROOTDEV ROOTINO
         else p <- curproc;; cwd <- pget p p_cwd;;
              match cwd with Some c => idup c | None => fault "null inode" end);;
  mloop (S (length path)) (path, replicate DIRSIZ 0, ip) (fun '(path, name, ip) =>
    match skipelem path name with
    | None =>
        if parent then iput ip;; ret (inr (None, name)) else ret (inr (Some ip, name))
    | Some (path, name) =>
        ilock (Some ip);;
        x <- inode_at ip;;
        if negb (i_type x =? T_DIR) then iunlockput ip;; ret (inr (None, name)) else
        if parent && bool_decide (path = []) then iunlock (Some ip);; ret (inr (Some ip, name)) else
        next <- dirlookup ip name;;
        match next with
        | None => iunlockput ip;; ret (inr (None, name))
        | Some (next, _) => iunlockput ip;; ret (inl (path, name, next))
        end
    end).

Definition namei (path : list Z) : K (option nat) := r <- namex path false;; ret r.1.
Definition nameiparent (path : list Z) : K (option nat * list Z) := namex path true.
