(* ===== verification/FsRead.v ===== *)
(** Reading files through the buffer cache (fs.c: [bmap], [readi], [dirlookup]).

    The blocks of the file are taken to be in the cache, valid and not in use, which
    is what [bread] makes true of a block the first time it is read; then reading
    changes nothing but the recency order, and returns the bytes the blocks hold. *)
From S2P Require Import Prelude State Spinlock Queue Boot Cstring Kalloc Proc Copyio Sleeplock Disk Bio Bcache Log Fs.

(** ** Process [i] runs and nothing it needs is locked *)
Record calm (i : nat) (p : proc) (s : kstate) : Prop := {
  cm_hart : hart_ok 2 (k_hw s);
  cm_bcache : lock_free (k_hw s) LBcache;
  cm_itable : lock_free (k_hw s) LItable;
  cm_bufs : forall b, (b < NBUF)%nat -> lock_free (k_hw s) (LBuf b);
  cm_inodes : forall j, (j < NINODE)%nat -> lock_free (k_hw s) (LInode j);
  cm_cur : cur_is (k_hw s) i;
  cm_proc : ps_proc (k_ps s) !! i = Some p;
  cm_locks : proc_locks_free (k_hw s) (Some i);
  cm_sched : exists ls, sched_inv (k_ps s) ls;
  cm_cache : exists l, cache_ok s l
}.
(** the block is in the cache, with these contents *)
Definition holds_block (dev bno : Z) (data : list Z) (y : buf) : Prop :=
  b_dev y = dev /\ b_blockno y = bno /\ b_valid y = 1 /\ b_data y = data /\ sl_locked (b_lock y) = 0 /\ 0 <= b_refcnt y < 2 ^ 32 - 1.
Definition cached (s : kstate) (dev bno : Z) (data : list Z) : Prop :=
  exists b y, (b < NBUF)%nat /\ bufs_of s !! b = Some y /\ holds_block dev bno data y.
(** [s'] differs from [s] in what reading may change *)
Definition quiet (s s' : kstate) : Prop :=
  k_mm s' = k_mm s /\ fs_inode (k_fs s') = fs_inode (k_fs s) /\ fs_sb (k_fs s') = fs_sb (k_fs s) /\
  forall dev bno data, cached s dev bno data -> cached s' dev bno data.
#[export] Instance quiet_preorder : PreOrder quiet.
Proof.
  split; [by intros s|]. intros s1 s2 s3 (A1 & A2 & A3 & A4) (B1 & B2 & B3 & B4). split_and!; [congruence.. |]. auto.
Qed.
(** [s1] is [s] with buffer [b], which holds [data], locked for reading by [p] *)
Definition reading (i : nat) (p : proc) (dev bno : Z) (data : list Z) (b : nat) (s s1 : kstate) : Prop :=
  calm i p s /\ (b < NBUF)%nat /\ (exists y, bufs_of s !! b = Some y /\ holds_block dev bno data y) /\
  exists h, h ≈h k_hw s /\ s1 = set_k_hw h (with_bufs s (alter (taken true dev bno (p_pid p)) b (bufs_of s))).

Section read.
Context (i : nat) (p : proc).

(** the cache finds the block *)
Lemma cached_choice s l dev bno data : cache_ok s l -> dev <> 0 -> cached s dev bno data ->
  exists b y, bget_choice dev bno (bufs_of s) l = Some (b, true) /\ (b < NBUF)%nat /\ bufs_of s !! b = Some y /\ holds_block dev bno data y.
Proof.
  intros [(Hlen & Hp & Hd) Hone] Hdev (b & y & Hb & Hy & Hh). unfold bget_choice.
  assert (Hin : b ∈ l) by (rewrite Hp; apply elem_of_seq; lia).
  assert (Htest : from_option (is_block dev bno) false (bufs_of s !! b) = true).
  { rewrite Hy. cbn. unfold is_block. destruct Hh as (-> & -> & _). by rewrite !Z.eqb_refl. }
  destruct (first_in (is_block dev bno) (bufs_of s) l) as [b'|] eqn:E.
  - apply first_in_some in E as [Hin' Htest']. destruct (bufs_of s !! b') as [y'|] eqn:Hy'; [|done]. cbn in Htest'.
    unfold is_block in Htest'. apply andb_true_iff in Htest' as [E1%Z.eqb_eq E2%Z.eqb_eq].
    assert (Hb' : (b' < NBUF)%nat) by (rewrite Hp in Hin'; apply elem_of_seq in Hin'; lia).
    destruct Hh as (H1 & H2 & H3). assert (b' = b) as ->.
    { apply (Hone b' b y' y); try done; congruence. }
    rewrite Hy in Hy'. injection Hy' as <-. by exists b, y.
  - pose proof (first_in_none _ _ _ _ E Hin) as Hn. congruence.
Qed.

Lemma wp_bread_cached dev bno data e s (Q : nat -> list (kstate -> kstate) -> kstate -> Prop) :
  calm i p s -> dev <> 0 -> cached s dev bno data ->
  (forall b s1, reading i p dev bno data b s s1 -> Q b e s1) -> wp (bread dev bno) e s Q.
Proof.
  intros Hc Hdev Hcd HQ. pose proof Hc as [C1 C2 _ C3 _ C4 C5 C6 C7 (l & Hl)].
  destruct (cached_choice s l dev bno data Hl Hdev Hcd) as (b & y & Hch & Hb & Hy & Hh).
  pose proof Hh as (H1 & H2 & H3 & H4 & H5 & H6).
  unfold bread. wp_step. eapply (wp_bget dev bno e s l i p); try done; [apply Hl | apply Hl | |].
  { split; [by apply C3 | by exists y]. }
  intros h' Hh'. wp_step. eapply wp_buf_at.
  { unfold bufs_of in *. cbn. rewrite list_lookup_alter_eq, Hy. done. }
  cbn. rewrite H3. wp_steps. apply HQ. split_and!; [done | done | by exists y | by exists h'].
Qed.

Lemma reading_at dev bno data b s s1 : reading i p dev bno data b s s1 ->
  exists y, bufs_of s1 !! b = Some y /\ b_data y = data /\ sl_locked (b_lock y) = 1 /\ sl_pid (b_lock y) = p_pid p /\
    1 <= b_refcnt y < 2 ^ 32.
Proof.
  intros (_ & _ & (y & Hy & (H1 & H2 & H3 & H4 & H5 & H6)) & h & _ & ->).
  exists (taken true dev bno (p_pid p) y). unfold bufs_of in *. cbn. rewrite list_lookup_alter_eq, Hy. cbn.
  rewrite u32_small by lia. split_and!; try done; lia.
Qed.
Lemma wp_buf_data dev bno data b s s1 e (Q : list Z -> list (kstate -> kstate) -> kstate -> Prop) :
  reading i p dev bno data b s s1 -> Q data e s1 -> wp (buf_data b) e s1 Q.
Proof.
  intros Hr HQ. destruct (reading_at _ _ _ _ _ _ Hr) as (y & Hy & <- & _). unfold buf_data. wp_step.
  eapply wp_buf_at; [exact Hy|]. by wp_step.
Qed.
(** [either_copyout] into a kernel buffer *)
Lemma wp_copyout_buf dev bno data b s s1 bytes e (Q : Z -> list (kstate -> kstate) -> kstate -> Prop) :
  reading i p dev bno data b s s1 -> (forall s2, reading i p dev bno data b s s2 -> Q 0 e s2) ->
  wp (either_copyout ToBuf bytes) e s1 Q.
Proof.
  intros (Hc & Hb & Hy & h & Hh & ->) HQ. unfold either_copyout. symmetry in Hh. wp_step. eapply wp_curproc.
  - eapply hart_ok_weaken; [|eapply hart_ok_eqv; [exact Hh | apply Hc]]. lia.
  - eapply cur_is_eqv; [exact Hh | apply Hc].
  - wp_step. apply HQ. split_and!; try done. eexists. split; [|done]. cbn. rewrite hw_crit_eqv. by symmetry.
Qed.

Lemma woken_self ch t : (i < NPROC)%nat -> woken_table ch (Some i) NPROC t !! i = t !! i.
Proof.
  intros Hi. unfold woken_table. rewrite list_lookup_imap. destruct (t !! i) as [q|]; [|done]. cbn.
  rewrite decide_True by done. unfold wake_proc, wakes. by rewrite bool_decide_eq_true_2 by done.
Qed.
(** the buffer is given back: all that is left of the visit is the recency order *)
Lemma relsed_payload b bufs : payload <$> relsed b bufs = payload <$> alter dropped b bufs.
Proof. unfold relsed. by destruct (_ =? 0); [rewrite moved_front_payload|]. Qed.
Lemma holds_payload dev bno data z z' : payload z' = payload z -> holds_block dev bno data z -> holds_block dev bno data z'.
Proof. unfold holds_block. intros [= -> _ -> -> -> -> ->]. done. Qed.
Lemma relsed_holds b bufs dev bno pid j d n dt z : bufs !! j = Some z -> holds_block d n dt z ->
  exists z', relsed b (alter (taken true dev bno pid) b bufs) !! j = Some z' /\ holds_block d n dt z'.
Proof.
  intros Hz Hh. set (t := alter (taken true dev bno pid) b bufs).
  assert (Hd : exists z1, alter dropped b t !! j = Some z1 /\ holds_block d n dt z1).
  { unfold t. rewrite !list_lookup_alter, Hz. destruct (decide (b = j)); [|by exists z].
    exists (dropped (taken true dev bno pid z)). split; [rewrite decide_True by done; subst; by rewrite Hz|]. destruct Hh as (H1 & H2 & H3 & H4 & H5 & H6).
    split_and!; try done; cbn; rewrite (u32_small (b_refcnt z + 1)), u32_small by lia; lia. }
  destruct Hd as (z1 & Hz1 & Hh1). assert (E : (payload <$> relsed b t) !! j = Some (payload z1)).
  { by rewrite relsed_payload, list_lookup_fmap, Hz1. }
  rewrite list_lookup_fmap in E. destruct (relsed b t !! j) as [z'|]; [|done]. exists z'. split; [done|].
  eapply holds_payload; [|exact Hh1]. exact (f_equal (default (payload z')) E).
Qed.

Lemma lru_relsed b bufs l y : lru bufs l -> b ∈ l -> bufs !! b = Some y -> exists l', lru (relsed b bufs) l'.
Proof.
  intros Hl Hb Hy. assert (Hl' : lru (alter dropped b bufs) l) by by apply lru_same.
  unfold relsed. destruct (_ =? 0); [|by exists l]. apply list_elem_of_split in Hb as (l1 & l2 & ->).
  eexists. by apply moved_front_lru.
Qed.
Lemma wp_brelse_reading dev bno data b s s1 e (Q : unit -> list (kstate -> kstate) -> kstate -> Prop) :
  reading i p dev bno data b s s1 -> (forall s2, calm i p s2 -> quiet s s2 -> Q tt e s2) -> wp (brelse b) e s1 Q.
Proof.
  intros Hr HQ. destruct (reading_at _ _ _ _ _ _ Hr) as (y1 & Hy1 & _ & L1 & L2 & L3).
  destruct Hr as (Hc & Hb & (y & Hy & Hh) & h & Hhq & ->). pose proof Hc as [C1 C2 C9 C3 C10 C4 C5 C6 (ls & C7) (l & Hl & Hone)].
  symmetry in Hhq. set (t := alter (taken true dev bno (p_pid p)) b (bufs_of s)) in *.
  assert (Hlt : lru t l) by (apply lru_same; done). assert (Hin : b ∈ l) by (destruct Hl as (_ & HP & _); rewrite HP; apply elem_of_seq; lia).
  assert (Honet : one_copy t) by (by apply one_copy_alter).
  assert (Hip : (i < NPROC)%nat) by (rewrite <- (qo_nproc _ _ (proj1 C7)); by eapply lookup_lt_Some).
  eapply (wp_brelse b e _ l i p y1 ls); try done.
  - by eapply hart_ok_eqv.
  - by eapply lock_free_eqv.
  - eapply lock_free_eqv; [done | by apply C3].
  - by eapply cur_is_eqv.
  - intros j Hj Hne. eapply lock_free_eqv; [done | by apply C6].
  - intros h' ps' Hh' Hs' Hm Ht. cbn [k_hw set_k_hw] in Hh'. change (bufs_of (set_k_hw h (with_bufs s t))) with t.
    assert (Hhs : k_hw s ≈h h') by (by rewrite Hh'). apply HQ.
    + constructor; cbn [k_hw k_ps set_k_hw set_k_ps with_bufs].
      * by eapply hart_ok_eqv.
      * by eapply lock_free_eqv.
      * by eapply lock_free_eqv.
      * intros b' Hb'. eapply lock_free_eqv; [done | by apply C3].
      * intros j Hj. eapply lock_free_eqv; [done | by apply C10].
      * by eapply cur_is_eqv.
      * rewrite Ht. rewrite woken_self by done. exact C5.
      * intros j Hj Hne. eapply lock_free_eqv; [done | by apply C6].
      * exact Hs'.
      * destruct (lru_relsed b t l y1 Hlt Hin Hy1) as (l' & Hl'). exists l'. split; [exact Hl'|].
        eapply one_copy_payload; [symmetry; apply relsed_payload|]. by apply one_copy_alter.
    + split_and!; [done.. |]. intros d n dt (j & z & Hj & Hz & Hhz).
      destruct (relsed_holds b (bufs_of s) dev bno (p_pid p) j d n dt z Hz Hhz) as (z' & Hz' & Hhz').
      exists j, z'. split_and!; [done | exact Hz' | done].
Qed.

(** ** Files in the cache *)

(** [blk] is block [k] of a file with contents [data] *)
Definition holds_part (data : list Z) (k : nat) (blk : list Z) : Prop :=
  length blk = 1024%nat /\ forall o, (o < 1024)%nat -> (1024 * k + o < length data)%nat -> blk !! o = data !! (1024 * k + o)%nat.
(** the address of block [k]: in the inode, or in the indirect block *)
Definition address (s : kstate) (x : inode) (k : nat) (b : Z) : Prop :=
  (k < 12)%nat /\ i_addrs x !! k = Some b \/
  (12 <= k < 268)%nat /\ exists ind l, i_addrs x !! 12%nat = Some ind /\ ind <> 0 /\ cached s (i_dev x) ind l /\
    get32 l (4 * (k - 12)) = b.
Record file_cached (s : kstate) (x : inode) (data : list Z) : Prop := {
  fc_dev : i_dev x <> 0;
  fc_size : i_size x = length data;
  fc_max : (length data <= 1024 * 268)%nat;
  fc_block : forall k, (1024 * k < length data)%nat -> exists b blk,
      b <> 0 /\ address s x k b /\ cached s (i_dev x) b blk /\ holds_part data k blk
}.
Lemma address_quiet s s' x k b : quiet s s' -> address s x k b -> address s' x k b.
Proof.
  intros (_ & _ & _ & Hq) [?|(Hk & ind & l & H1 & H2 & H3 & H4)]; [by left | right]. split; [done|]. exists ind, l. split_and!; auto.
Qed.
Lemma file_cached_quiet s s' x data : quiet s s' -> file_cached s x data -> file_cached s' x data.
Proof.
  intros Hq [F1 F2 F3 F4]. constructor; try done. intros k Hk. destruct (F4 k Hk) as (b & blk & H1 & H2 & H3 & H4).
  exists b, blk. split_and!; [done | by eapply address_quiet | by apply Hq | done].
Qed.

Definition inode_is (s : kstate) (ip : nat) (x : inode) : Prop := fs_inode (k_fs s) !! ip = Some x.
Lemma wp_inode_at ip x e s (Q : inode -> list (kstate -> kstate) -> kstate -> Prop) :
  inode_is s ip x -> Q x e s -> wp (inode_at ip) e s Q.
Proof. intros Hx HQ. unfold inode_at. wp_steps. unfold inode_is in Hx. rewrite Hx. by wp_step. Qed.

(** [bmap] of a block that is there reads its address and changes nothing *)
Lemma wp_bmap ip x k b e s (Q : Z -> list (kstate -> kstate) -> kstate -> Prop) :
  calm i p s -> inode_is s ip x -> i_dev x <> 0 -> address s x k b -> b <> 0 ->
  (forall s', calm i p s' -> quiet s s' -> Q b e s') -> wp (bmap ip (Z.of_nat k)) e s Q.
Proof.
  intros Hc Hx Hdev Ha Hb HQ. unfold bmap. wp_step. eapply wp_inode_at; [done|].
  destruct Ha as [[Hk Ha]|[Hk (ind & l & H1 & H2 & H3 & H4)]].
  - replace (Z.of_nat k <? NDIRECT)%Z with true by (symmetry; apply Z.ltb_lt; unfold NDIRECT; lia).
    rewrite Nat2Z.id, Ha. change (default 0 (Some b)) with b. replace (b =? 0) with false by lia. wp_step. by apply HQ.
  - replace (Z.of_nat k <? NDIRECT)%Z with false by (symmetry; apply Z.ltb_ge; unfold NDIRECT; lia).
    replace (Z.of_nat k - NDIRECT <? NINDIRECT)%Z with true
      by (symmetry; apply Z.ltb_lt; change NINDIRECT with 256; unfold NDIRECT; lia).
    change (i_addrs x !! NDIRECT) with (i_addrs x !! 12%nat). rewrite H1. change (default 0 (Some ind)) with ind.
    replace (ind =? 0) with false by lia. wp_step. wp_step. replace (ind =? 0) with false by lia.
    wp_step. eapply wp_bread_cached; [done | done | exact H3 |]. intros bp s1 Hr.
    wp_step. eapply wp_buf_data; [exact Hr|]. replace (Z.to_nat (Z.of_nat k - NDIRECT)) with (k - 12)%nat by (unfold NDIRECT; lia).
    rewrite H4. replace (b =? 0) with false by lia. wp_step. wp_step. wp_step.
    eapply wp_brelse_reading; [exact Hr|]. intros s2 Hc2 Hq2. wp_step. by apply HQ.
Qed.

(** ** [readi] into a kernel buffer *)
Definition file_slice (data : list Z) (off n : Z) : list Z := take (Z.to_nat n) (drop (Z.to_nat off) data).

Lemma part_slice data k blk o m : holds_part data k blk -> (o + m <= 1024)%nat -> (1024 * k + o + m <= length data)%nat ->
  take m (drop o blk) = take m (drop (1024 * k + o) data).
Proof.
  intros [Hl Hp] Hm Hd. apply list_eq. intros j. destruct (decide (j < m)%nat) as [Hj|Hj].
  - rewrite !lookup_take_lt, !lookup_drop by lia. rewrite Hp by lia. f_equal. lia.
  - by rewrite !lookup_take_ge by lia.
Qed.

Lemma wp_readi_loop ip x data n off e s (Q : Z * list Z -> list (kstate -> kstate) -> kstate -> Prop) :
  calm i p s -> inode_is s ip x -> file_cached s x data -> 0 <= off -> 0 <= n -> off + n <= length data ->
  (forall s', calm i p s' -> quiet s s' -> Q (n, file_slice data off n) e s') ->
  wp (mloop (S (Z.to_nat n)) (0, off, ToBuf, []) (fun '(tot, off, dst, acc) =>
    if n <=? tot then ret (inr (tot, acc)) else
    addr <- bmap ip (off / BSIZE);;
    if addr =? 0 then ret (inr (tot, acc)) else
    bp <- bread (i_dev x) addr;;
    let m := Z.min (n - tot) (BSIZE - off mod BSIZE) in
    data <- buf_data bp;;
    let bytes := take (Z.to_nat m) (drop (Z.to_nat (off mod BSIZE)) data) in
    r <- either_copyout dst bytes;;
    if r =? -1 then brelse bp;; ret (inr (-1, acc)) else
    brelse bp;;
    ret (inl (tot + m, u32 (off + m), kdst_add dst m, acc ++ bytes)))) e s Q.
Proof.
  intros Hc Hx Hfile Hoff Hn Hend HQ. pose proof (fc_max _ _ _ Hfile) as Hmax.
  apply (wp_mloop _ (fun '(tot, o, dst, acc) e' s' => e' = e /\ calm i p s' /\ quiet s s' /\ 0 <= tot <= n /\ o = off + tot /\
    dst = ToBuf /\ acc = file_slice data off tot) (fun '(tot, _, _, _) => Z.to_nat (n - tot))).
  - lia.
  - split_and!; try done; lia.
  - intros [[[tot o] dst] acc] e' s' (-> & Hc' & Hq & Ht & -> & -> & ->).
    destruct (Z.leb_spec n tot) as [Hle|Hlt].
    { wp_step. replace tot with n by lia. by apply HQ. }
    change BSIZE with 1024. set (k := Z.to_nat ((off + tot) / 1024)). set (r := Z.to_nat ((off + tot) mod 1024)).
    assert (Hdm : off + tot = 1024 * Z.of_nat k + Z.of_nat r /\ (r < 1024)%nat).
    { pose proof (Z.div_mod (off + tot) 1024 ltac:(lia)). pose proof (Z.mod_pos_bound (off + tot) 1024 ltac:(lia)).
      assert (0 <= (off + tot) / 1024) by (apply Z.div_pos; lia). unfold k, r. lia. }
    assert (Ek : (off + tot) / 1024 = Z.of_nat k) by (unfold k; rewrite Z2Nat.id; [done | apply Z.div_pos; lia]).
    assert (Er : (off + tot) mod 1024 = Z.of_nat r) by (unfold r; rewrite Z2Nat.id; [done | apply Z.mod_pos_bound; lia]).
    rewrite Ek, Er. pose proof (file_cached_quiet _ _ _ _ Hq Hfile) as Hfile'.
    destruct (fc_block _ _ _ Hfile' k ltac:(lia)) as (b & blk & B1 & B2 & B3 & B4).
    assert (Hx' : inode_is s' ip x) by (destruct Hq as (_ & E & _); unfold inode_is; by rewrite E).
    wp_step. eapply wp_bmap; [exact Hc' | exact Hx' | apply Hfile | exact B2 | exact B1 |]. intros s1 Hc1 Hq1.
    replace (b =? 0) with false by lia. wp_step.
    eapply wp_bread_cached; [exact Hc1 | apply Hfile | apply Hq1; exact B3 |]. intros bp s2 Hr2. cbn zeta.
    wp_step. eapply wp_buf_data; [exact Hr2|]. set (m := Z.min (n - tot) (1024 - Z.of_nat r)).
    wp_step. eapply wp_copyout_buf; [exact Hr2|]. intros s3 Hr3. change (0 =? -1) with false. cbn match.
    wp_step. eapply wp_brelse_reading; [exact Hr3|]. intros s4 Hc4 Hq4. wp_step.
    assert (Hm : 1 <= m <= n - tot /\ m <= 1024 - Z.of_nat r) by (unfold m; lia).
    split; [lia|]. split_and!; try done; try lia.
    + by rewrite Hq, Hq1.
    + rewrite u32_small by lia. lia.
    + rewrite (part_slice data k blk r (Z.to_nat m) B4) by lia. unfold file_slice.
      replace (Z.to_nat (tot + m)) with (Z.to_nat tot + Z.to_nat m)%nat by lia.
      rewrite <- take_take_drop, drop_drop. do 3 f_equal. lia.
Qed.

Lemma wp_readi ip x data off n e s (Q : Z * list Z -> list (kstate -> kstate) -> kstate -> Prop) :
  calm i p s -> inode_is s ip x -> file_cached s x data -> 0 <= off -> 0 <= n -> off + n < 2 ^ 32 ->
  (forall s', calm i p s' -> quiet s s' -> Q (Z.of_nat (length (file_slice data off n)), file_slice data off n) e s') ->
  wp (readi ip ToBuf off n) e s Q.
Proof.
  intros Hc Hx Hfile Hoff Hn Hsum HQ. unfold readi. wp_step. eapply wp_inode_at; [done|].
  rewrite (fc_size _ _ _ Hfile), u32_small by lia.
  destruct (Z.ltb_spec (length data) off) as [Hgt|Hle]; cbn [orb].
  { wp_step. assert (E : file_slice data off n = []).
    { unfold file_slice. rewrite drop_ge by lia. apply take_nil. }
    rewrite E in HQ. by apply HQ. }
  replace (off + n <? off) with false by lia. set (n' := if _ <? _ then _ else _).
  assert (Hn' : n' = Z.min n (length data - off)) by (unfold n'; destruct (Z.ltb_spec (length data) (off + n)); lia).
  assert (Es : file_slice data off n' = file_slice data off n).
  { unfold file_slice. destruct (decide (n <= length data - off)) as [|Hl]; [by rewrite Hn', Z.min_l by lia|].
    rewrite !take_ge; [done | rewrite length_drop; lia..]. }
  assert (El : Z.of_nat (length (file_slice data off n)) = n').
  { rewrite <- Es. unfold file_slice. rewrite length_take, length_drop. lia. }
  rewrite El, <- Es in HQ. apply wp_readi_loop with (data := data); try done; lia.
Qed.
End read.

(** ** The inode table *)
Definition is_inode (dev inum : Z) (x : inode) : Prop := 0 < i_ref x /\ i_dev x = dev /\ i_inum x = inum.
#[export] Instance is_inode_dec dev inum x : Decision (is_inode dev inum x).
Proof. unfold is_inode. apply _. Defined.
Definition free_slot (x : inode) : Prop := i_ref x = 0.
#[export] Instance free_slot_dec x : Decision (free_slot x).
Proof. unfold free_slot. apply _. Defined.
(** the slot [iget] should answer: the inode's own, or the first free one *)
Definition iget_choice (dev inum : Z) (t : list inode) : option (nat * bool) :=
  match list_find (is_inode dev inum) t with
  | Some (k, _) => Some (k, true)
  | None => match list_find free_slot t with Some (k, _) => Some (k, false) | None => None end
  end.
Definition igot (hit : bool) (dev inum : Z) (x : inode) : inode :=
  if hit then set_i_ref (i_ref x + 1) x else set_i_valid 0 (set_i_ref 1 (set_i_inum inum (set_i_dev dev x))).
Definition inodes_of (s : kstate) : list inode := fs_inode (k_fs s).
Definition with_inodes (s : kstate) (t : list inode) : kstate := set_k_fs (set_fs_inode t (k_fs s)) s.

(** the scan: nothing matched so far, and the first free slot is remembered *)
Definition scanned (dev inum : Z) (t : list inode) (k : nat) (empty : option nat) : Prop :=
  Forall (fun x => ~ is_inode dev inum x) (take k t) /\ empty = fst <$> list_find free_slot (take k t).
Lemma scanned_next dev inum t k empty x : scanned dev inum t k empty -> t !! k = Some x -> ~ is_inode dev inum x ->
  scanned dev inum t (S k) (match empty with None => if i_ref x =? 0 then Some k else None | Some _ => empty end).
Proof.
  intros [H1 H2] Hx Hn. unfold scanned. rewrite (take_S_r _ _ _ Hx). split.
  { apply Forall_app. split; [done|]. by constructor. }
  assert (Hk : length (take k t) = k) by (rewrite length_take; apply lookup_lt_Some in Hx; lia).
  subst empty. destruct (list_find free_slot (take k t)) as [[j y]|] eqn:E; cbn [fmap option_fmap option_map fst].
  - by rewrite (list_find_app_l _ _ _ _ _ E).
  - rewrite (list_find_app_r _ _ _ E), Hk. cbn. unfold free_slot. destruct (Z.eqb_spec (i_ref x) 0) as [E0|E0].
    + by rewrite decide_True by done.
    + by rewrite decide_False by done.
Qed.
Lemma wp_inode_upd ip f e s (Q : unit -> list (kstate -> kstate) -> kstate -> Prop) :
  Q tt e (with_inodes s (alter f ip (inodes_of s))) -> wp (inode_upd ip f) e s Q.
Proof. intros HQ. unfold inode_upd, modify_fs. by wp_step. Qed.
Lemma alter_alter_inode (f g : inode -> inode) (k : nat) (l : list inode) : alter f k (alter g k l) = alter (fun x => f (g x)) k l.
Proof. revert k. induction l as [|x l IH]; intros [|k]; cbn; [done.. |]. f_equal. apply IH. Qed.

(** [iget] answers the slot of the inode with one more reference, or takes over a free slot *)
Lemma wp_iget dev inum k hit e s (Q : nat -> list (kstate -> kstate) -> kstate -> Prop) :
  hart_ok 1 (k_hw s) -> lock_free (k_hw s) LItable -> length (inodes_of s) = NINODE ->
  Forall (fun x => i_ref x < 2 ^ 31 - 1) (inodes_of s) -> iget_choice dev inum (inodes_of s) = Some (k, hit) ->
  Q k e (set_k_hw (hw_crit (k_hw s)) (with_inodes s (alter (igot hit dev inum) k (inodes_of s)))) ->
  wp (iget dev inum) e s Q.
Proof.
  intros Hok Hlk Hlen Href Hch HQ. unfold iget. wp_step. apply wp_acquire; [done..|]. set (s1 := set_k_hw _ s).
  assert (Hin : forall j x, inodes_of s !! j = Some x -> inode_is s1 j x) by done.
  wp_step. apply (wp_mfold _ (fun rest empty e' s' => e' = e /\ s' = s1 /\ exists j, rest = seq j (NINODE - j) /\
    (j <= NINODE)%nat /\ scanned dev inum (inodes_of s) j empty)).
  - split_and!; [done | done |]. exists 0%nat. split_and!; [done | lia |]. by split.
  - intros j rest empty e' s' (-> & -> & j' & Hrest & Hj & Hsc). apply seq_rest in Hrest as (-> & -> & Hlt).
    destruct (lookup_lt_is_Some_2 (inodes_of s) j') as [x Hx]; [lia|].
    wp_step. eapply wp_inode_at; [by apply Hin|].
    destruct ((0 <? i_ref x) && (i_dev x =? dev) && (i_inum x =? inum)) eqn:E.
    + apply andb_true_iff in E as [[E1%Z.ltb_lt E2%Z.eqb_eq]%andb_true_iff E3%Z.eqb_eq].
      assert (Hf : list_find (is_inode dev inum) (inodes_of s) = Some (j', x)).
      { apply list_find_Some. split_and!; [done | done |]. intros i y Hy Hi Hno. destruct Hsc as [Hsc _].
        rewrite Forall_forall in Hsc. apply (Hsc y); [|done]. apply (list_elem_of_lookup_2 _ i). by rewrite lookup_take_lt. }
      unfold iget_choice in Hch. rewrite Hf in Hch. injection Hch as <- <-.
      wp_step. apply wp_inode_upd. wp_step. eapply (wp_release_acq LItable (k_hw s) 1); [lia | done | done | done |].
      wp_steps. revert HQ. rewrite Forall_forall in Href. pose proof (Href x (list_elem_of_lookup_2 _ _ _ Hx)).
      replace (alter (igot true dev inum) j' (inodes_of s)) with (alter (fun x => set_i_ref (s32 (i_ref x + 1)) x) j' (inodes_of s)); [done|].
      apply list_eq. intros i. rewrite !list_lookup_alter. case_decide; [subst i|done]. rewrite Hx. cbn. by rewrite s32_small by lia.
    + wp_step. split_and!; [done | done |]. exists (S j'). split_and!; [done | lia |]. apply (scanned_next _ _ _ _ _ x); try done.
      intros (N1 & N2 & N3). rewrite N2, N3, !Z.eqb_refl, !andb_true_r in E. lia.
  - intros empty e' s' (-> & -> & j & Hrest & Hj & [Hsc1 Hsc2]). apply seq_done in Hrest as ->; [|done].
    rewrite take_ge in Hsc1, Hsc2 by lia. unfold iget_choice in Hch.
    assert (Hf : list_find (is_inode dev inum) (inodes_of s) = None).
    { apply list_find_None. eapply Forall_impl; [exact Hsc1|]. done. }
    rewrite Hf in Hch. destruct (list_find free_slot (inodes_of s)) as [[k' y]|]; [|done]. injection Hch as -> <-.
    cbn in Hsc2. subst empty.
    wp_step. apply wp_inode_upd. wp_step. apply wp_inode_upd. wp_step. apply wp_inode_upd. wp_step. apply wp_inode_upd.
    wp_step. eapply (wp_release_acq LItable (k_hw s) 1); [lia | done | done | done |]. wp_step.
    unfold inodes_of, with_inodes in *. cbn. rewrite !alter_alter_inode. exact HQ.
Qed.

(** ** Directories *)

(** what a name denotes: the bytes before the first NUL, at most [DIRSIZ] *)
Definition cname (n : nat) (name : list Z) : list Z := take n (cstr name).
(** entry [k] of a directory, and the entries in order *)
Definition dirent (data : list Z) (k : nat) : list Z := file_slice data (16 * k) 16.
Definition dirents (data : list Z) : list (list Z) := dirent data <$> seq 0 (length data / 16).
(** the entry is in use, under that name *)
Definition entry_for (name de : list Z) : Prop := de_inum de <> 0 /\ cname DIRSIZ name = cname DIRSIZ (de_name de).
#[export] Instance entry_for_dec name de : Decision (entry_for name de).
Proof. unfold entry_for. apply _. Defined.

Lemma strncmp_names n : forall p q, strncmp_l p q n = 0 <-> cname n p = cname n q.
Proof.
  unfold cname. induction n as [|n IH]; intros p q; [done|].
  destruct p as [|a p], q as [|b q]; cbn [strncmp_l cstr head tail default from_option id].
  - done.
  - destruct (Z.eqb_spec b 0) as [->|Hb]; cbn; [done|]. split; [lia | done].
  - unfold istrue. destruct (Z.eqb_spec a 0) as [->|Ha]; cbn; [done|].
    replace (a =? 0) with false by lia. split; [lia | done].
  - change (default 0 (Some a)) with a. change (default 0 (Some b)) with b. unfold istrue.
    destruct (Z.eqb_spec a b) as [->|Hab].
    + destruct (Z.eqb_spec b 0) as [->|Hb]; cbn; [done|]. rewrite IH. split; [by intros -> | by intros [= ->]].
    + rewrite andb_false_r. split; [lia|]. destruct (Z.eqb_spec a 0), (Z.eqb_spec b 0); cbn; try done; [lia|].
      intros [= E _]. lia.
Qed.
Lemma namecmp_names p q : namecmp p q = 0 <-> cname DIRSIZ p = cname DIRSIZ q.
Proof. apply strncmp_names. Qed.

Lemma dirents_lookup data k : (k < length data / 16)%nat -> dirents data !! k = Some (dirent data k).
Proof. intros Hk. unfold dirents. rewrite list_lookup_fmap, lookup_seq_lt by done. done. Qed.
Lemma dirent_length data k m : length data = (16 * m)%nat -> (k < m)%nat -> length (dirent data k) = 16%nat.
Proof. intros Hd Hk. unfold dirent, file_slice. rewrite length_take, length_drop. lia. Qed.

Section lookup.
Context (i : nat) (p : proc).

(** the table of inodes is large enough for [iget] and no reference count overflows *)
Definition itable_ok (t : list inode) : Prop := length t = NINODE /\ Forall (fun x => i_ref x < 2 ^ 31 - 1) t.

(** [dirlookup] walks over the entries up to the first one for the name *)
Lemma wp_dirlookup dp x data m name e s (Q : option (nat * Z) -> list (kstate -> kstate) -> kstate -> Prop) :
  calm i p s -> inode_is s dp x -> i_type x = T_DIR -> file_cached s x data -> length data = (16 * m)%nat ->
  itable_ok (inodes_of s) ->
  match list_find (entry_for name) (dirents data) with
  | None => forall s', calm i p s' -> quiet s s' -> Q None e s'
  | Some (k, de) => exists j hit, iget_choice (i_dev x) (de_inum de) (inodes_of s) = Some (j, hit) /\
      forall s0, calm i p s0 -> quiet s s0 ->
        Q (Some (j, 16 * Z.of_nat k)) e
          (set_k_hw (hw_crit (k_hw s0)) (with_inodes s0 (alter (igot hit (i_dev x) (de_inum de)) j (inodes_of s0))))
  end ->
  wp (dirlookup dp name) e s Q.
Proof.
  intros Hc Hx Hty Hfile Hm [Hlen Href] HQ. pose proof (fc_max _ _ _ Hfile) as Hmax. unfold dirlookup.
  assert (Hdiv : (length data / 16)%nat = m) by (rewrite Hm, Nat.mul_comm; apply Nat.div_mul; lia).
  assert (Hsz : i_size x = 16 * Z.of_nat m) by (rewrite (fc_size _ _ _ Hfile); lia).
  wp_step. eapply wp_inode_at; [done|]. rewrite Hty. change (T_DIR =? T_DIR) with true. cbn [negb].
  apply (wp_mloop _ (fun off e' s' => e' = e /\ calm i p s' /\ quiet s s' /\ exists k, off = 16 * Z.of_nat k /\ (k <= m)%nat /\
      forall k', (k' < k)%nat -> ~ entry_for name (dirent data k'))
    (fun off => (m - Z.to_nat (off / 16))%nat)).
  - rewrite Hsz. change DIRENT with 16. rewrite Z.mul_comm, Z.div_mul by lia. lia.
  - split_and!; try done. exists 0%nat. split_and!; lia.
  - intros off e' s' (-> & Hc' & Hq & k & -> & Hk & Hno).
    assert (Hx' : inode_is s' dp x) by (destruct Hq as (_ & E & _); unfold inode_is; by rewrite E).
    wp_step. eapply wp_inode_at; [done|]. rewrite Hsz. destruct (Z.leb_spec (16 * Z.of_nat m) (16 * Z.of_nat k)) as [Hle|Hlt].
    { wp_step. assert (k = m) as -> by lia.
      assert (Hf : list_find (entry_for name) (dirents data) = None).
      { apply list_find_None, Forall_lookup. intros k' de Hde. unfold dirents in Hde.
        apply list_lookup_fmap_Some in Hde as (k'' & -> & [-> ?]%lookup_seq). apply Hno. lia. }
      rewrite Hf in HQ. by apply HQ. }
    wp_step. eapply (wp_readi i p dp x data); [done | done | by eapply file_cached_quiet | lia | done | change DIRENT with 16; lia |].
    intros s1 Hc1 Hq1. change (file_slice data (16 * Z.of_nat k) DIRENT) with (dirent data k).
    rewrite (dirent_length data k m Hm) by lia. cbn [fst snd]. change (negb (Z.of_nat 16 =? DIRENT)) with false. cbv iota.
    destruct (negb (de_inum (dirent data k) =? 0) && (namecmp name (de_name (dirent data k)) =? 0)) eqn:E.
    + apply andb_true_iff in E as [E1 E2%Z.eqb_eq]. rewrite namecmp_names in E2.
      assert (Hent : entry_for name (dirent data k)) by (split; [lia | done]).
      assert (Hf : list_find (entry_for name) (dirents data) = Some (k, dirent data k)).
      { apply list_find_Some. split_and!; [by apply dirents_lookup; lia | done |]. intros k' de Hde Hlt'. unfold dirents in Hde.
        apply list_lookup_fmap_Some in Hde as (k'' & -> & [-> ?]%lookup_seq). apply Hno. lia. }
      rewrite Hf in HQ. destruct HQ as (j & hit & Hch & HQ).
      assert (Hqq : quiet s s1) by (by rewrite Hq). assert (Et : inodes_of s1 = inodes_of s) by apply Hqq.
      wp_step. eapply wp_inode_at; [unfold inode_is, inodes_of in *; by rewrite Et|]. wp_step.
      apply (wp_iget _ _ j hit); rewrite ?Et; try done.
      * eapply hart_ok_weaken; [|apply Hc1]. lia.
      * apply Hc1.
      * wp_step. rewrite <- Et. by apply HQ.
    + wp_step. change DIRENT with 16. rewrite u32_small by lia. replace (16 * Z.of_nat k + 16) with (16 * Z.of_nat (S k)) by lia.
      split; [rewrite !(Z.mul_comm 16), !Z.div_mul by lia; lia|]. split_and!; [done | done | by rewrite Hq |].
      exists (S k). split_and!; [lia | lia |]. intros k' Hk'. destruct (decide (k' = k)) as [->|]; [|apply Hno; lia].
      intros [N1 N2]. apply andb_false_iff in E as [E|E%Z.eqb_neq]; [lia|]. by apply E, namecmp_names.
Qed.
End lookup.

(** C19: [readi] into a kernel buffer returns the file's contents: for a file whose blocks,
    direct and indirect, are in the cache, the bytes from [off] on, at most [n] and
    none past the end of the file, with their number; an offset past the end gives
    nothing.  The contents of the cache, the inode table and memory stay, every
    buffer and lock it took is free again. *)
Theorem readi_reads i p ip x data off n e s :
  calm i p s -> inode_is s ip x -> file_cached s x data -> 0 <= off -> 0 <= n -> off + n < 2 ^ 32 ->
  let out := file_slice data off n in
  exists s', readi ip ToBuf off n e s = Ret (Z.of_nat (length out), out) e s' /\ calm i p s' /\ quiet s s'.
Proof.
  intros Hc Hx Hf Hoff Hn Hsum out.
  assert (H : wp (readi ip ToBuf off n) e s (fun r e' s' => e' = e /\ r = (Z.of_nat (length out), out) /\ calm i p s' /\ quiet s s')).
  { eapply (wp_readi i p ip x data); try done. }
  apply wp_run in H as (r & s' & Hr & -> & Hc' & Hq). by exists s'.
Qed.

(** [dirlookup] finds names: in a directory whose blocks are in the cache it answers the
    first entry that is in use and has that name, names being compared up to their
    NUL and at most [DIRSIZ] bytes, with the entry's offset and a reference to its
    inode, which is the inode's own slot of the table or the first free one; without
    such an entry it answers none and takes nothing.  On anything but a directory it
    panics. *)
Lemma dirlookup_finds i p dp x data m name e s :
  calm i p s -> inode_is s dp x -> file_cached s x data -> length data = (16 * m)%nat -> itable_ok (inodes_of s) ->
  if i_type x =? T_DIR then
    match list_find (entry_for name) (dirents data) with
    | None => exists s', dirlookup dp name e s = Ret None e s' /\ calm i p s' /\ quiet s s'
    | Some (k, de) => forall j hit, iget_choice (i_dev x) (de_inum de) (inodes_of s) = Some (j, hit) ->
        exists s', dirlookup dp name e s = Ret (Some (j, 16 * Z.of_nat k)) e s' /\ k_mm s' = k_mm s /\
          inodes_of s' = alter (igot hit (i_dev x) (de_inum de)) j (inodes_of s) /\
          forall dev bno l, cached s dev bno l -> cached s' dev bno l
    end
  else dies (dirlookup dp name) e s "dirlookup not DIR".
Proof.
  intros Hc Hx Hf Hm Ht. destruct (Z.eqb_spec (i_type x) T_DIR) as [Hty|Hty].
  - destruct (list_find (entry_for name) (dirents data)) as [[k de]|] eqn:E.
    + intros j hit Hch. assert (H : wp (dirlookup dp name) e s (fun r e' s' => e' = e /\ r = Some (j, 16 * Z.of_nat k) /\
        k_mm s' = k_mm s /\ inodes_of s' = alter (igot hit (i_dev x) (de_inum de)) j (inodes_of s) /\
        forall dev bno l, cached s dev bno l -> cached s' dev bno l)).
      { eapply (wp_dirlookup i p dp x data m); try done. rewrite E. exists j, hit. split; [done|].
        intros s0 Hc0 (Q1 & Q2 & _ & Q3). split_and!; try done. cbn. unfold inodes_of. by rewrite Q2. }
      apply wp_run in H as (r & s' & Hr & -> & H). by exists s'.
    + assert (H : wp (dirlookup dp name) e s (fun r e' s' => e' = e /\ r = None /\ calm i p s' /\ quiet s s')).
      { eapply (wp_dirlookup i p dp x data m); try done. by rewrite E. }
      apply wp_run in H as (r & s' & Hr & -> & H). by exists s'.
  - unfold dirlookup. apply dies_bind. eapply wp_inode_at; [done|]. replace (i_type x =? T_DIR) with false by lia. apply dies_panic.
Qed.

(** ** A small volume
    Block 32 holds the inodes: 1 is the root, 2 the directory [sub] in it, 3 the file
    [a] in [sub].  Their contents are in blocks 46, 47 and 48. *)
Definition pad (l : list Z) : list Z := l ++ replicate (1024 - length l) 0.
Definition demo_root : list Z := mk_dirent 1 (chars ".") ++ mk_dirent 1 (chars "..") ++ mk_dirent 2 (chars "sub").
Definition demo_sub : list Z := mk_dirent 2 (chars ".") ++ mk_dirent 1 (chars "..") ++ mk_dirent 3 (chars "a").
Definition demo_text : list Z := chars "hello".
Definition demo_inode (inum ref valid type size addr : Z) : inode :=
  mkinode 1 inum ref sl0 valid type 0 0 1 size (addr :: replicate 12 0).
Definition demo_inodes : list Z :=
  fold_left (fun l x => di_write l (di_off (i_inum x)) x)
    [demo_inode 1 0 0 T_DIR 48 46; demo_inode 2 0 0 T_DIR 48 47; demo_inode 3 0 0 T_FILE 5 48] (replicate 1024 0).
Definition loaded (bno : Z) (data : list Z) (y : buf) : buf :=
  set_b_valid 1 (set_b_data data (set_b_dev 1 (set_b_blockno bno y))).
Definition demo_bufs : list buf :=
  alter (loaded 48 (pad demo_text)) 3%nat (alter (loaded 47 (pad demo_sub)) 2%nat
    (alter (loaded 46 (pad demo_root)) 1%nat (alter (loaded 32 demo_inodes) 0%nat (bufs_of cache_demo)))).
(** the inode table has the root and the file *)
Definition fs_demo : kstate :=
  let s := after iinit cache_demo in
  let t := <[0%nat := demo_inode 1 1 1 T_DIR 48 46]> (<[1%nat := demo_inode 3 1 1 T_FILE 5 48]> (inodes_of s)) in
  set_k_fs (set_fs_sb (mksuperblock FSMAGIC 2000 1954 200 30 2 32 45) (set_fs_inode t (set_fs_buf demo_bufs (k_fs s)))) s.

Lemma one_copy_check bufs :
  forallb (fun i => forallb (fun j => match bufs !! i, bufs !! j with
    | Some x, Some y => (b_dev x =? 0) || negb ((b_dev x =? b_dev y) && (b_blockno x =? b_blockno y)) || (i =? j)%nat
    | _, _ => true end) (seq 0 NBUF)) (seq 0 NBUF) = true -> one_copy bufs.
Proof.
  intros H i j x y Hi Hj Hx Hy Hd E1 E2. rewrite forallb_forall in H. specialize (H i ltac:(apply in_seq; lia)). cbv beta in H.
  rewrite forallb_forall in H. specialize (H j ltac:(apply in_seq; lia)). cbv beta in H. rewrite Hx, Hy, E1, E2, !Z.eqb_refl in H.
  replace (b_dev y =? 0) with false in H by lia. by apply Nat.eqb_eq.
Qed.
Lemma free_locks h (f : nat -> lockid) n : forallb (fun j => free_in h (f j)) (seq 0 n) = true -> forall j, (j < n)%nat -> lock_free h (f j).
Proof. intros H j Hj. apply free_in_spec. rewrite forallb_forall in H. apply H, in_seq. lia. Qed.
Lemma fs_demo_calm : calm 0 demo_me fs_demo.
Proof.
  constructor.
  - eexists. split; [vm_compute; reflexivity|]. split; [cbn; lia | vm_compute; done].
  - apply free_in_spec. vm_compute. reflexivity.
  - apply free_in_spec. vm_compute. reflexivity.
  - apply free_locks. vm_compute. reflexivity.
  - apply free_locks. vm_compute. reflexivity.
  - vm_compute. reflexivity.
  - vm_compute. reflexivity.
  - intros j Hj _. revert j Hj. apply free_locks. vm_compute. reflexivity.
  - exists demo_queues. replace (k_ps fs_demo) with ps1 by (vm_compute; reflexivity). exact demo_sched_inv.
  - exists (rev (seq 0 NBUF)). destruct cache_demo_ok as [[H1 _] _]. split.
    + change (bufs_of fs_demo) with demo_bufs. unfold demo_bufs. do 4 (apply lru_same; [done | done |]). exact H1.
    + apply one_copy_check. vm_compute. reflexivity.
Qed.
Lemma fs_demo_cached : cached fs_demo 1 32 demo_inodes /\ cached fs_demo 1 46 (pad demo_root) /\
  cached fs_demo 1 47 (pad demo_sub) /\ cached fs_demo 1 48 (pad demo_text).
Proof.
  split_and!; [exists 0%nat | exists 1%nat | exists 2%nat | exists 3%nat]; eexists;
    (split; [unfold NBUF; lia | split; [vm_compute; reflexivity | vm_compute; intuition discriminate]]).
Qed.
Lemma pad_part data : (length data <= 1024)%nat -> holds_part data 0 (pad data).
Proof.
  intros Hl. unfold pad. split; [rewrite length_app, length_replicate; lia|]. intros o _ Ho. by rewrite lookup_app_l by lia.
Qed.
(** a file of one block *)
Lemma one_block s x b data : i_dev x = 1 -> i_size x = length data -> (0 < length data <= 1024)%nat -> i_addrs x !! 0%nat = Some b ->
  b <> 0 -> cached s 1 b (pad data) -> file_cached s x data.
Proof.
  intros Hd Hs Hl Ha Hb Hc. constructor; [lia | done | lia |]. intros k Hk. assert (k = 0%nat) as -> by lia.
  exists b, (pad data). rewrite Hd. split_and!; [done | left; split; [lia | done] | done | apply pad_part; lia].
Qed.
Lemma readi_reads_witness : exists s', readi 1 ToBuf 1 3 [] fs_demo = Ret (3, chars "ell") [] s' /\ quiet fs_demo s'.
Proof.
  destruct (readi_reads 0 demo_me 1 (demo_inode 3 1 1 T_FILE 5 48) demo_text 1 3 [] fs_demo) as (s' & H1 & _ & H2).
  - apply fs_demo_calm.
  - vm_compute. reflexivity.
  - apply (one_block _ _ 48); [reflexivity | reflexivity | cbn; lia | reflexivity | lia | apply fs_demo_cached].
  - lia.
  - lia.
  - lia.
  - exists s'. split; [exact H1 | exact H2].
Defined.
Lemma dirlookup_finds_witness : exists s', dirlookup 0 (chars "sub") [] fs_demo = Ret (Some (2%nat, 32)) [] s' /\
  i_inum <$> inodes_of s' !! 2%nat = Some 2.
Proof.
  pose proof (dirlookup_finds 0 demo_me 0 (demo_inode 1 1 1 T_DIR 48 46) demo_root 3 (chars "sub") [] fs_demo) as H.
  change (i_type _ =? T_DIR) with true in H. cbv iota in H.
  assert (E : list_find (entry_for (chars "sub")) (dirents demo_root) = Some (2%nat, mk_dirent 2 (chars "sub"))) by (vm_compute; reflexivity).
  rewrite E in H. destruct (H fs_demo_calm ltac:(vm_compute; reflexivity)) with (j := 2%nat) (hit := false) as (s' & H1 & _ & H2 & _).
  - apply (one_block _ _ 46); [reflexivity | reflexivity | apply (bool_decide_unpack _); vm_compute; exact I | reflexivity | lia | apply fs_demo_cached].
  - reflexivity.
  - split; [vm_compute; reflexivity | apply (bool_decide_unpack _); vm_compute; exact I].
  - vm_compute. reflexivity.
  - exists s'. split; [exact H1|]. rewrite H2. vm_compute. reflexivity.
Defined.
