(* ===== verification/FsName.v ===== *)
(** Path names (fs.c: [skipelem], [iget], [ilock], [iunlock], [iput], [namex]).

    The inode table is seen as a finite map from the inodes in use to their reference
    counts, and a volume as a finite map from inode numbers to inodes; against these
    [namex] is the walk of the path's elements through the directories. *)
From S2P Require Import Prelude State Spinlock Queue Boot Cstring Kalloc Proc Copyio Sleeplock Disk Bio Bcache Log Fs FsRead.

(** ** The elements of a path *)
Fixpoint pieces (path : list Z) : list (list Z) :=
  match path with
  | [] => [[]]
  | c :: rest => if c =? slash then [] :: pieces rest
                 else match pieces rest with [] => [[c]] | w :: ws => (c :: w) :: ws end
  end.
(** what stands between the slashes *)
Definition elems (path : list Z) : list (list Z) := filter (.≠ []) (pieces path).

Lemma pieces_cons path : exists w ws, pieces path = w :: ws.
Proof. destruct path as [|c path]; cbn; [eauto|]. destruct (c =? slash); [eauto|]. destruct (pieces path); eauto. Qed.
Lemma elems_skip path : elems (skip_slashes path) = elems path.
Proof.
  induction path as [|c path IH]; cbn [skip_slashes]; [done|]. destruct (Z.eqb_spec c slash) as [->|]; [|done].
  rewrite IH. unfold elems. cbn [pieces]. rewrite Z.eqb_refl. by rewrite filter_cons_False by (by intros []).
Qed.
Lemma skip_slashes_head path c rest : skip_slashes path = c :: rest -> c <> slash.
Proof. induction path as [|d path IH]; cbn; [done|]. destruct (Z.eqb_spec d slash); [exact IH | congruence]. Qed.
Lemma split_elem_spec path w rest : split_elem path = (w, rest) ->
  path = w ++ rest /\ Forall (.≠ slash) w /\ (forall c t, rest = c :: t -> c = slash).
Proof.
  revert w. induction path as [|c path IH]; intros w; cbn; [by intros [= <- <-]|].
  destruct (Z.eqb_spec c slash) as [->|Hc]; [intros [= <- <-]; split_and!; [done | done | congruence]|].
  destruct (split_elem path) as [a b]. intros [= <- <-]. destruct (IH a eq_refl) as (-> & H2 & H3).
  split_and!; [done | by constructor | done].
Qed.
Lemma pieces_app w rest : Forall (.≠ slash) w -> (forall c t, rest = c :: t -> c = slash) ->
  exists ws, pieces (w ++ rest) = w :: ws /\ filter (.≠ []) ws = elems rest.
Proof.
  intros Hw Hr. induction w as [|c w IH].
  - destruct rest as [|c t]; cbn; [by exists []|]. rewrite (Hr c t eq_refl), Z.eqb_refl. exists (pieces t). split; [done|].
    unfold elems. cbn. done.
  - apply Forall_cons in Hw as [Hc Hw]. destruct (IH Hw) as (ws & H1 & H2). exists ws. cbn.
    replace (c =? slash) with false by lia. by rewrite H1.
Qed.
Lemma elems_nil path : elems path = [] <-> skip_slashes path = [].
Proof.
  rewrite <- elems_skip. destruct (skip_slashes path) as [|c rest] eqn:E; [done|]. split; [|done].
  pose proof (skip_slashes_head _ _ _ E) as Hc. unfold elems. cbn. replace (c =? slash) with false by lia.
  destruct (pieces_cons rest) as (w & ws & ->). cbn. done.
Qed.

(** the name buffer after the element has been copied to it *)
Lemma splice_front l bytes : (length bytes <= length l)%nat -> splice l 0 bytes = bytes ++ drop (length bytes) l.
Proof. intros _. unfold splice. by rewrite take_0. Qed.
Lemma cstr_app_nul w rest : Forall (.≠ 0) w -> cstr (w ++ 0 :: rest) = w.
Proof. induction 1 as [|c w Hc _ IH]; cbn; [done|]. replace (c =? 0) with false by lia. by rewrite IH. Qed.
Lemma cstr_nonul w : Forall (.≠ 0) w -> cstr w = w.
Proof. induction 1 as [|c w Hc _ IH]; cbn; [done|]. replace (c =? 0) with false by lia. by rewrite IH. Qed.
Lemma cstr_take n w : Forall (.≠ 0) w -> cstr (take n w) = take n w.
Proof. intros H. by apply cstr_nonul, Forall_take. Qed.

(** [skipelem] takes the first element off the path, cut at [DIRSIZ] bytes *)
Lemma skipelem_spec path name : Forall (.≠ 0) path -> length name = DIRSIZ ->
  match elems path with
  | [] => skipelem path name = None
  | w :: ws => exists path' name', skipelem path name = Some (path', name') /\ elems path' = ws /\
      cname DIRSIZ name' = take DIRSIZ w /\ length name' = DIRSIZ /\ Forall (.≠ 0) path' /\
      (length path' < length path)%nat /\ (path' = [] <-> ws = [])
  end.
Proof.
  intros Hnz Hlen. destruct (elems path) as [|w ws] eqn:E.
  { unfold skipelem. apply elems_nil in E. by rewrite E. }
  assert (Hns : skip_slashes path <> []) by (intros H; apply elems_nil in H; congruence).
  assert (Hsk : forall t, exists u, t = u ++ skip_slashes t).
  { induction t as [|c t (u & IH)]; cbn; [by exists []|]. destruct (c =? slash); [exists (c :: u); cbn; by f_equal | by exists []]. }
  unfold skipelem. destruct (skip_slashes path) as [|c0 p0] eqn:Esk; [done|]. rewrite <- Esk. clear Hns.
  destruct (split_elem (skip_slashes path)) as [w' rest] eqn:Esp.
  destruct (split_elem_spec _ _ _ Esp) as (Hp & Hw' & Hrest).
  assert (Hw0 : w' <> []).
  { intros ->. cbn in Hp. pose proof (skip_slashes_head path c0 p0 Esk) as Hc. apply Hc, (Hrest c0 p0). congruence. }
  assert (Hel : w = w' /\ ws = elems rest).
  { rewrite <- elems_skip, Hp in E. unfold elems in E. destruct (pieces_app w' rest Hw' Hrest) as (ps & H1 & H2).
    rewrite H1 in E. rewrite filter_cons_True in E by done. rewrite H2 in E. by injection E as <- <-. }
  destruct Hel as [-> ->]. destruct (Hsk path) as (u & Hu). destruct (Hsk rest) as (v & Hv).
  rewrite Hu, Hp, !Forall_app in Hnz. destruct Hnz as (_ & Hnzw & Hnzr).
  exists (skip_slashes rest), (if decide (DIRSIZ <= length w')%nat then splice name 0 (take DIRSIZ w') else splice name 0 (w' ++ [0])).
  split; [done|]. split; [apply elems_skip|].
  assert (Hname : forall o, o = (if decide (DIRSIZ <= length w')%nat then splice name 0 (take DIRSIZ w') else splice name 0 (w' ++ [0])) ->
    cname DIRSIZ o = take DIRSIZ w' /\ length o = DIRSIZ).
  { intros o ->. destruct (decide (DIRSIZ <= length w')%nat) as [Hge|Hlt].
    - rewrite splice_front by (rewrite length_take; lia). rewrite drop_ge by (rewrite length_take; lia).
      rewrite app_nil_r. unfold cname. rewrite cstr_take by done. rewrite take_take, Nat.min_id, length_take. split; [done | lia].
    - rewrite splice_front by (rewrite length_app; cbn; lia). rewrite <- app_assoc. unfold cname. cbn [app].
      rewrite cstr_app_nul by done. split; [done|]. rewrite !length_app, length_cons, length_drop. cbn [length]. lia. }
  destruct (Hname _ eq_refl) as [Hn1 Hn2]. split; [exact Hn1|]. split; [exact Hn2|]. split.
  { rewrite Hv, Forall_app in Hnzr. apply Hnzr. }
  split.
  - rewrite Hu, Hp, !length_app. rewrite Hv at 2. rewrite length_app. destruct w'; [done|]. cbn. lia.
  - by rewrite <- elems_nil.
Qed.

(** ** The inode table as a map of reference counts *)
Definition ikey (x : inode) : Z * Z := (i_dev x, i_inum x).
Definition live_l (t : list inode) : list (Z * Z * Z) :=
  omap (fun x => if decide (0 < i_ref x) then Some (ikey x, i_ref x) else None) t.
Definition refs (t : list inode) : gmap (Z * Z) Z := list_to_map (live_l t).
(** an inode has at most one slot in use *)
Definition one_slot (t : list inode) : Prop := NoDup (live_l t).*1.
Definition take_ref (k : Z * Z) (M : gmap (Z * Z) Z) : gmap (Z * Z) Z := <[k := default 0 (M !! k) + 1]> M.
Definition drop_ref (k : Z * Z) (M : gmap (Z * Z) Z) : gmap (Z * Z) Z :=
  match M !! k with Some r => if r =? 1 then delete k M else <[k := r - 1]> M | None => M end.

Lemma drop_take k M : map_Forall (fun _ r => 0 < r) M -> drop_ref k (take_ref k M) = M.
Proof.
  intros HM. unfold drop_ref, take_ref. rewrite lookup_insert_eq. destruct (M !! k) as [r|] eqn:E; cbn.
  - specialize (HM k r E). cbn in HM. replace (r + 1 =? 1) with false by lia. rewrite insert_insert_eq.
    apply insert_id. rewrite E. f_equal. lia.
  - by apply delete_insert_id.
Qed.
Lemma drop_take_take k k' M : map_Forall (fun _ r => 0 < r) M -> drop_ref k (take_ref k' (take_ref k M)) = take_ref k' M.
Proof.
  intros HM. destruct (decide (k' = k)) as [->|Hne].
  - rewrite (drop_take k (take_ref k M)); [done|]. intros k2 r. unfold take_ref. rewrite lookup_insert_Some.
    intros [[-> <-]|[_ H]]; [|by eapply HM]. destruct (M !! k2) as [r'|] eqn:E; cbn; [|lia]. specialize (HM _ _ E). cbn in HM. lia.
  - pose proof (drop_take k M HM) as H. unfold drop_ref, take_ref in *. rewrite lookup_insert_eq in H.
    rewrite lookup_insert_ne, lookup_insert_eq, lookup_insert_ne by done.
    destruct (default 0 (M !! k) + 1 =? 1).
    + by rewrite delete_insert_ne, H.
    + by rewrite insert_insert_ne, H.
Qed.
Lemma take_ref_size k M : (size (take_ref k M) <= S (size M))%nat.
Proof. unfold take_ref. destruct (M !! k) eqn:E; [rewrite map_size_insert_Some by eauto; lia | by rewrite map_size_insert_None]. Qed.
Lemma take_ref_pos k M : map_Forall (fun _ r => 0 < r) M -> map_Forall (fun _ r => 0 < r) (take_ref k M).
Proof.
  intros HM k2 r. unfold take_ref. rewrite lookup_insert_Some. intros [[-> <-]|[_ H]]; [|by eapply HM].
  destruct (M !! k2) as [r'|] eqn:E; cbn; [|lia]. specialize (HM _ _ E). cbn in HM. lia.
Qed.

(** one slot's part of the map *)
Definition put_slot (x : inode) (k : Z * Z) (R : gmap (Z * Z) Z) : gmap (Z * Z) Z :=
  if decide (0 < i_ref x) then <[k := i_ref x]> R else R.
Lemma refs_pos t : map_Forall (fun _ r => 0 < r) (refs t).
Proof.
  intros k r H%elem_of_list_to_map_2. unfold live_l in H. apply list_elem_of_omap in H as (x & _ & H).
  destruct (decide (0 < i_ref x)); [|done]. by injection H as <- <-.
Qed.
Lemma refs_slot t j x k : one_slot t -> t !! j = Some x -> (0 < i_ref x -> ikey x = k) ->
  (~ 0 < i_ref x -> refs t !! k = None) ->
  exists R, R !! k = None /\ refs t = put_slot x k R /\
    forall f, (0 < i_ref (f x) -> ikey (f x) = k) -> one_slot (alter f j t) /\ refs (alter f j t) = put_slot (f x) k R.
Proof.
  intros Hnd Hx Hk Hnone. set (l1 := take j t). set (l2 := drop (S j) t).
  assert (Ht : t = l1 ++ x :: l2) by (by symmetry; apply take_drop_middle).
  assert (Hl1 : length l1 = j) by (unfold l1; rewrite length_take; apply lookup_lt_Some in Hx; lia).
  set (r := live_l l1 ++ live_l l2). set (one := fun y => live_l [y]).
  assert (Hperm : forall y, live_l (l1 ++ y :: l2) ≡ₚ one y ++ r).
  { intros y. unfold live_l, one, r. change (y :: l2) with ([y] ++ l2). rewrite !omap_app. apply Permutation_app_swap_app. }
  assert (Hone : forall y, one y = if decide (0 < i_ref y) then [(ikey y, i_ref y)] else []).
  { intros y. unfold one, live_l. cbn. by destruct (decide (0 < i_ref y)). }
  assert (Hndr : NoDup (one x ++ r).*1) by (unfold one_slot in Hnd; rewrite Ht, (Hperm x) in Hnd; exact Hnd).
  assert (Hput : forall y, NoDup (one y ++ r).*1 -> (0 < i_ref y -> ikey y = k) ->
    one_slot (l1 ++ y :: l2) /\ refs (l1 ++ y :: l2) = put_slot y k (list_to_map r)).
  { intros y Hny Hky. assert (Hs : one_slot (l1 ++ y :: l2)) by (unfold one_slot; by rewrite (Hperm y)). split; [done|].
    unfold refs. rewrite (list_to_map_proper _ _ Hs (Hperm y)). rewrite Hone. unfold put_slot.
    destruct (decide (0 < i_ref y)) as [Hp|]; [|done]. cbn. by rewrite Hky. }
  assert (Hkr : k ∉ r.*1).
  { destruct (decide (0 < i_ref x)) as [Hp|Hp].
    - rewrite Hone, decide_True in Hndr by done. cbn in Hndr. rewrite Hk in Hndr by done. by apply NoDup_cons in Hndr as [? _].
    - specialize (Hnone Hp). rewrite Ht in Hnone. destruct (Hput x Hndr Hk) as [_ E]. rewrite E in Hnone. unfold put_slot in Hnone.
      rewrite decide_False in Hnone by done. by apply not_elem_of_list_to_map. }
  exists (list_to_map r). split; [by apply not_elem_of_list_to_map|]. split; [rewrite Ht; by apply Hput|].
  intros f Hf. assert (Ef : alter f j t = l1 ++ f x :: l2).
  { rewrite Ht, <- (Nat.add_0_r j), <- Hl1. by rewrite alter_app_r. }
  rewrite Ef. apply Hput; [|done]. rewrite Hone.
  assert (Hndr' : NoDup r.*1) by (rewrite fmap_app in Hndr; by apply NoDup_app in Hndr as (_ & _ & ?)).
  destruct (decide (0 < i_ref (f x))) as [Hp|]; [|done]. cbn. rewrite Hf by done. by constructor.
Qed.
Lemma refs_same (f : inode -> inode) j t : (forall x, ikey (f x) = ikey x) -> (forall x, i_ref (f x) = i_ref x) ->
  live_l (alter f j t) = live_l t.
Proof.
  intros Hk Hr. revert j. induction t as [|x t IH]; intros [|j]; cbn; [done | done | |].
  - rewrite Hr, Hk. done.
  - unfold live_l in IH. cbn in IH. by rewrite IH.
Qed.

Lemma refs_lookup t j x : one_slot t -> t !! j = Some x -> 0 < i_ref x -> refs t !! ikey x = Some (i_ref x).
Proof.
  intros Hnd Hx Hp. apply elem_of_list_to_map_1; [exact Hnd|]. apply list_elem_of_omap. exists x.
  split; [by eapply list_elem_of_lookup_2 | by rewrite decide_True].
Qed.
Lemma refs_absent dev inum t : list_find (is_inode dev inum) t = None -> refs t !! (dev, inum) = None.
Proof.
  intros Hf%list_find_None. apply not_elem_of_list_to_map. intros Hin. apply list_elem_of_fmap in Hin as ([k r] & Hk & Hin).
  apply list_elem_of_omap in Hin as (x & Hx & Hx2). rewrite Forall_forall in Hf. apply (Hf x Hx).
  destruct (decide (0 < i_ref x)); [|done]. injection Hx2 as <- <-. cbn in Hk. unfold is_inode. unfold ikey in Hk. by injection Hk as -> ->.
Qed.
Lemma free_slot_exists t : one_slot t -> Forall (fun x => 0 <= i_ref x) t -> (size (refs t) < length t)%nat ->
  exists j x, list_find free_slot t = Some (j, x).
Proof.
  intros Hnd Hpos Hsz. destruct (list_find free_slot t) as [[j x]|] eqn:E; [by eauto|]. exfalso. apply list_find_None in E.
  unfold refs in Hsz. rewrite map_size_list_to_map in Hsz by exact Hnd.
  assert (length (live_l t) = length t); [|lia]. clear Hsz Hnd. induction t as [|x t IH]; [done|].
  apply Forall_cons in Hpos as [H1 H2]. apply Forall_cons in E as [E1 E2]. unfold free_slot in E1. unfold live_l. cbn.
  rewrite decide_True by lia. cbn. f_equal. by apply IH.
Qed.

(** ** Volumes *)

(** an inode on the disk and the contents of its file *)
Record vnode := mkvnode { v_type : Z; v_nlink : Z; v_addrs : list Z; v_data : list Z }.
Definition agrees (x : inode) (v : vnode) : Prop :=
  i_type x = v_type v /\ i_nlink x = v_nlink v /\ i_size x = length (v_data v) /\ i_addrs x = v_addrs v.
Lemma agrees_valid z x v : agrees x v -> agrees (set_i_valid z x) v.
Proof. done. Qed.
(** the inodes, in their blocks; the directories, whose entries name inodes of the volume *)
Record vnode_ok (s : kstate) (V : gmap Z vnode) (n : Z) (v : vnode) : Prop := {
  vo_used : v_type v <> 0 /\ v_nlink v <> 0;
  vo_disk : exists blk, cached s ROOTDEV (IBLOCK n (fs_sb (k_fs s))) blk /\ forall x, agrees (di_read blk (di_off n) x) v;
  vo_dir : v_type v = T_DIR -> (exists m, length (v_data v) = (16 * m)%nat) /\
    (forall x, agrees x v -> i_dev x = ROOTDEV -> file_cached s x (v_data v)) /\
    forall de, de ∈ dirents (v_data v) -> de_inum de <> 0 -> is_Some (V !! de_inum de)
}.
Definition volume (s : kstate) (V : gmap Z vnode) : Prop := map_Forall (vnode_ok s V) V.

(** what holds of the memory and of the cached blocks stays *)
Definition steady (s s' : kstate) : Prop :=
  k_mm s' = k_mm s /\ fs_sb (k_fs s') = fs_sb (k_fs s) /\ forall dev bno data, cached s dev bno data -> cached s' dev bno data.
#[export] Instance steady_preorder : PreOrder steady.
Proof. split; [by intros s|]. intros s1 s2 s3 (A1 & A2 & A3) (B1 & B2 & B3). split_and!; [congruence.. |]. auto. Qed.
Lemma quiet_steady s s' : quiet s s' -> steady s s'.
Proof. intros (H1 & _ & H3 & H4). done. Qed.
Lemma file_cached_steady s s' x data : steady s s' -> file_cached s x data -> file_cached s' x data.
Proof.
  intros (_ & _ & Hq) [F1 F2 F3 F4]. constructor; try done. intros k Hk. destruct (F4 k Hk) as (b & blk & H1 & H2 & H3 & H4).
  exists b, blk. split_and!; [done | | by apply Hq | done].
  destruct H2 as [?|(Hl & ind & l & A1 & A2 & A3 & A4)]; [by left | right]. split; [done|]. exists ind, l. split_and!; auto.
Qed.
Lemma volume_steady s s' V : steady s s' -> volume s V -> volume s' V.
Proof.
  intros Hs HV n v Hv. destruct (HV n v Hv) as [H1 (blk & H2 & H3) H4]. constructor; [done | |].
  - exists blk. destruct Hs as (_ & -> & Hc). auto.
  - intros Hd. destruct (H4 Hd) as (H5 & H6 & H7). split_and!; [done | | done]. intros x Ha Hx. eapply file_cached_steady; eauto.
Qed.

(** ** The walk's states *)
Definition lock_ok (p : proc) (held : option nat) (j : nat) (x : inode) : Prop :=
  if decide (held = Some j) then sl_locked (i_lock x) = 1 /\ sl_pid (i_lock x) = p_pid p else sl_locked (i_lock x) = 0.
Record table_in (p : proc) (V : gmap Z vnode) (held : option nat) (t : list inode) : Prop := {
  ti_len : length t = NINODE;
  ti_one : one_slot t;
  ti_slot : forall j x, t !! j = Some x -> 0 <= i_ref x /\ lock_ok p held j x /\
    (0 < i_ref x -> i_dev x = ROOTDEV -> i_valid x <> 0 -> forall v, V !! i_inum x = Some v -> agrees x v)
}.
Definition slot_is (s : kstate) (j : nat) (n : Z) : Prop :=
  exists x, inodes_of s !! j = Some x /\ 0 < i_ref x /\ ikey x = (ROOTDEV, n).

Lemma calm_inodes i p s t : calm i p s -> calm i p (with_inodes s t).
Proof. intros [C1 C2 C3 C4 C5 C6 C7 C8 C9 C10]. by constructor. Qed.
Lemma calm_hw i p s h : k_hw s ≈h h -> calm i p s -> calm i p (set_k_hw h s).
Proof.
  intros E [C1 C2 C9 C3 C10 C4 C5 C6 C7 C8]. constructor; cbn; try done.
  - by eapply hart_ok_eqv.
  - by eapply lock_free_eqv.
  - by eapply lock_free_eqv.
  - intros b Hb. eapply lock_free_eqv; [done | by apply C3].
  - intros j Hj. eapply lock_free_eqv; [done | by apply C10].
  - by eapply cur_is_eqv.
  - intros j Hj Hne. eapply lock_free_eqv; [done | by apply C6].
Qed.
Lemma calm_woken i p s ps' ch : calm i p s -> (exists ls, sched_inv ps' ls) ->
  ps_proc ps' = woken_table ch (Some i) NPROC (ps_proc (k_ps s)) -> calm i p (set_k_ps ps' s).
Proof.
  intros [C1 C2 C3 C4 C5 C6 C7 C8 (ls & C9) C10] Hs Ht. constructor; try done. cbn. rewrite Ht, woken_self; [done|].
  rewrite <- (qo_nproc _ _ (proj1 C9)). by eapply lookup_lt_Some.
Qed.
Lemma inodes_with h s t : inodes_of (set_k_hw h (with_inodes s t)) = t.
Proof. done. Qed.
Lemma inode_alter h s j x f : inode_is s j x -> inode_is (set_k_hw h (with_inodes s (alter f j (inodes_of s)))) j (f x).
Proof. unfold inode_is. change (fs_inode (k_fs s)) with (inodes_of s). intros Hx. cbn. by rewrite list_lookup_alter_eq, Hx. Qed.
Lemma steady_hw s s' h : steady s s' -> steady s (set_k_hw h s').
Proof. done. Qed.
Lemma steady_inodes s s' t : steady s s' -> steady s (with_inodes s' t).
Proof. done. Qed.
Lemma steady_ps s s' ps' : steady s s' -> steady s (set_k_ps ps' s').
Proof. done. Qed.

Lemma reading_inodes i p dev bno data b s s1 t : reading i p dev bno data b s s1 ->
  reading i p dev bno data b (with_inodes s t) (with_inodes s1 t).
Proof.
  intros (Hc & Hb & Hy & h & Hh & ->). split_and!; [by apply calm_inodes | done | exact Hy |]. by exists h.
Qed.

(** ** Resolving a path *)

(** the first entry in use under the element, cut at [DIRSIZ] bytes *)
Definition dir_entry (v : vnode) (w : list Z) : option Z :=
  (fun '(_, de) => de_inum de) <$>
    list_find (fun de => de_inum de <> 0 /\ take DIRSIZ w = cname DIRSIZ (de_name de)) (dirents (v_data v)).
(** from inode [n] along the elements; with [parent], to the directory of the last one *)
Fixpoint resolve (V : gmap Z vnode) (parent : bool) (n : Z) (es : list (list Z)) : option Z :=
  match es with
  | [] => if parent then None else Some n
  | w :: ws =>
      v ← V !! n;
      if v_type v =? T_DIR then
        if parent && bool_decide (ws = []) then Some n
        else m ← dir_entry v w; resolve V parent m ws
      else None
  end.

Lemma one_slot_inj t j k x y : one_slot t -> t !! j = Some x -> t !! k = Some y -> 0 < i_ref x -> 0 < i_ref y ->
  ikey x = ikey y -> j = k.
Proof.
  intros Hs Hx Hy Hpx Hpy Hk. destruct (decide (j = k)) as [|Hne]; [done | exfalso].
  destruct (refs_slot t j x (ikey x)) as (R & HR & _ & HR2); [done | done | done | done |].
  destruct (HR2 (set_i_ref 0)) as [H1 H2]; [done|]. unfold put_slot in H2. rewrite decide_False in H2 by (cbn; lia).
  assert (H3 : refs (alter (set_i_ref 0) j t) !! ikey y = Some (i_ref y)).
  { eapply refs_lookup; [exact H1 | | done]. by rewrite list_lookup_alter_ne. }
  rewrite H2, <- Hk, HR in H3. done.
Qed.
Lemma take_ref_bound b k M : 0 < b -> map_Forall (fun _ r => r < b) M -> map_Forall (fun _ r => r < b + 1) (take_ref k M).
Proof.
  intros Hb HM k2 r. unfold take_ref. rewrite lookup_insert_Some. intros [[-> <-]|[_ H]].
  - destruct (M !! k2) as [r'|] eqn:E; cbn; [|lia]. specialize (HM _ _ E). cbn in HM. lia.
  - specialize (HM _ _ H). cbn in HM. lia.
Qed.
Lemma map_bound_weaken (b b' : Z) (M : gmap (Z * Z) Z) : b <= b' -> map_Forall (fun _ r => r < b) M -> map_Forall (fun _ r => r < b') M.
Proof. intros Hb HM k r H. specialize (HM k r H). cbn in HM. lia. Qed.

Section walk.
Context (i : nat) (p : proc) (V : gmap Z vnode) (s0 : kstate) (HV : volume s0 V).

(** in the course of the walk: slot [held] is locked, and the references are [M] *)
Record walking (held : option nat) (M : gmap (Z * Z) Z) (s : kstate) : Prop := {
  wk_calm : calm i p s;
  wk_steady : steady s0 s;
  wk_table : table_in p V held (inodes_of s);
  wk_refs : refs (inodes_of s) = M
}.
Lemma walking_volume held M s : walking held M s -> volume s V.
Proof using HV. intros H. eapply volume_steady; [apply H | exact HV]. Qed.
Lemma walking_quiet held M s s' : walking held M s -> calm i p s' -> quiet s s' -> walking held M s'.
Proof.
  intros [W1 W2 W3 W4] Hc Hq. assert (E : inodes_of s' = inodes_of s) by apply Hq.
  constructor; [done | | by rewrite E | by rewrite E]. rewrite W2. by apply quiet_steady.
Qed.
Lemma walking_itable held M s : walking held M s -> map_Forall (fun _ r => r < 2 ^ 31 - 1) M -> itable_ok (inodes_of s).
Proof.
  intros W HM. split; [apply W|]. apply Forall_lookup. intros j x Hx. destruct (decide (0 < i_ref x)) as [Hp|]; [|lia].
  apply (HM (ikey x)). rewrite <- (wk_refs _ _ _ W). eapply refs_lookup; [apply W | done | done].
Qed.

(** the slots [iget] may answer *)
Lemma walking_choice held M s n : walking held M s -> (size M < NINODE)%nat ->
  exists j hit, iget_choice ROOTDEV n (inodes_of s) = Some (j, hit).
Proof.
  intros W Hsz. unfold iget_choice. destruct (list_find (is_inode ROOTDEV n) (inodes_of s)) as [[j x]|]; [eauto|].
  destruct (free_slot_exists (inodes_of s)) as (j & x & ->); [apply W | | | eauto].
  - apply Forall_lookup. intros j x Hx. apply (ti_slot _ _ _ _ (wk_table _ _ _ W) j x Hx).
  - rewrite (wk_refs _ _ _ W), (ti_len _ _ _ _ (wk_table _ _ _ W)). done.
Qed.
(** one more reference, as [iget] takes it *)
Lemma walking_igot held M s n j hit h : walking held M s ->
  iget_choice ROOTDEV n (inodes_of s) = Some (j, hit) -> k_hw s ≈h h ->
  walking held (take_ref (ROOTDEV, n) M) (set_k_hw h (with_inodes s (alter (igot hit ROOTDEV n) j (inodes_of s)))) /\
  slot_is (set_k_hw h (with_inodes s (alter (igot hit ROOTDEV n) j (inodes_of s)))) j n.
Proof.
  intros [W1 W2 W3 W4] Hch Hh. pose proof W3 as [T1 T2 T3]. set (t := inodes_of s) in *.
  assert (exists x, t !! j = Some x /\ (hit = true -> is_inode ROOTDEV n x) /\
    (hit = false -> free_slot x /\ list_find (is_inode ROOTDEV n) t = None)) as (x & Hx & Hhit & Hmiss).
  { unfold iget_choice in Hch. destruct (list_find (is_inode ROOTDEV n) t) as [[k x]|] eqn:E.
    - apply list_find_Some in E as (E1 & E2 & _). injection Hch as -> <-. by exists x.
    - destruct (list_find free_slot t) as [[k x]|] eqn:E2; [|done]. injection Hch as -> <-.
      apply list_find_Some in E2 as (E3 & E4 & _). exists x. done. }
  destruct (refs_slot t j x (ROOTDEV, n)) as (R & HR & HR1 & HR2); [done | done | | |].
  { destruct hit; intros Hp; [destruct (Hhit eq_refl) as (_ & H1 & H2); unfold ikey; congruence|].
    destruct (Hmiss eq_refl) as [Hf _]. unfold free_slot in Hf. lia. }
  { intros Hp. destruct hit; [destruct (Hhit eq_refl); lia|]. apply refs_absent, Hmiss. done. }
  assert (Hnew : 0 < i_ref (igot hit ROOTDEV n x) /\ ikey (igot hit ROOTDEV n x) = (ROOTDEV, n)).
  { destruct hit; cbn; [|split; [lia | done]]. destruct (Hhit eq_refl) as (H1 & H2 & H3). unfold ikey. cbn. split; [lia | congruence]. }
  destruct Hnew as [Hn1 Hn2]. destruct (HR2 (igot hit ROOTDEV n) ltac:(done)) as [HR3 HR4].
  split.
  - constructor; [by apply calm_hw, calm_inodes | done | constructor | ].
    + cbn. by rewrite length_alter.
    + exact HR3.
    + intros k y Hy. rewrite inodes_with, list_lookup_alter in Hy.
      destruct (decide (j = k)) as [<-|Hne]; [|by apply T3]. rewrite Hx in Hy. injection Hy as <-.
      destruct (T3 j x Hx) as (S1 & S2 & S3). destruct hit; cbn.
      * split; [lia|]. split; [exact S2|]. destruct (Hhit eq_refl) as (H1 & _). intros _ Hd Hv v Hvn. exact (S3 H1 Hd Hv v Hvn).
      * split; [lia|]. split; [exact S2|]. done.
    + etransitivity; [exact HR4|]. rewrite <- W4, HR1. unfold put_slot, take_ref. rewrite (decide_True _ _ Hn1). destruct hit.
      * destruct (Hhit eq_refl) as (H1 & _). rewrite decide_True, lookup_insert_eq, insert_insert_eq by done. done.
      * destruct (Hmiss eq_refl) as [Hf _]. unfold free_slot in Hf. rewrite decide_False by lia. by rewrite HR.
  - exists (igot hit ROOTDEV n x). split_and!; [|done..]. rewrite inodes_with.
    by rewrite list_lookup_alter_eq, Hx.
Qed.
Lemma slot_igot s n j hit h j0 n0 : iget_choice ROOTDEV n (inodes_of s) = Some (j, hit) -> slot_is s j0 n0 ->
  slot_is (set_k_hw h (with_inodes s (alter (igot hit ROOTDEV n) j (inodes_of s)))) j0 n0.
Proof.
  intros Hch (x & Hx & Hp & Hk). unfold slot_is. rewrite inodes_with, list_lookup_alter.
  case_decide as E; [subst j0|by exists x]. rewrite Hx. exists (igot hit ROOTDEV n x). split; [done|].
  unfold iget_choice in Hch. destruct (list_find (is_inode ROOTDEV n) (inodes_of s)) as [[k y]|].
  - injection Hch as -> <-. cbn. split; [lia | exact Hk].
  - destruct (list_find free_slot (inodes_of s)) as [[k y]|] eqn:E2; [|done]. injection Hch as -> <-.
    apply list_find_Some in E2 as (E3 & E4 & _). rewrite Hx in E3. injection E3 as <-. unfold free_slot in E4. lia.
Qed.

(** a slot whose key and references stay *)
Lemma slot_alter s (f : inode -> inode) h j j0 n : (forall x, ikey (f x) = ikey x) -> (forall x, i_ref (f x) = i_ref x) ->
  slot_is s j0 n -> slot_is (set_k_hw h (with_inodes s (alter f j (inodes_of s)))) j0 n.
Proof.
  intros Hk Hr (x & Hx & Hp & Hkey). unfold slot_is. rewrite inodes_with, list_lookup_alter.
  case_decide; [subst|by exists x]. rewrite Hx. exists (f x). by rewrite Hk, Hr.
Qed.
Lemma walking_alter held held' M s (f : inode -> inode) h j x : walking held M s -> inodes_of s !! j = Some x ->
  (forall x, ikey (f x) = ikey x) -> (forall x, i_ref (f x) = i_ref x) -> k_hw s ≈h h ->
  (forall k y, k <> j -> inodes_of s !! k = Some y -> lock_ok p held k y -> lock_ok p held' k y) ->
  lock_ok p held' j (f x) ->
  (i_dev x = ROOTDEV -> i_valid (f x) <> 0 -> forall v, V !! i_inum x = Some v -> agrees (f x) v) ->
  walking held' M (set_k_hw h (with_inodes s (alter f j (inodes_of s)))).
Proof.
  intros [W1 W2 W3 W4] Hx Hk Hr Hh Hlk Hlj Hag. destruct W3 as [T1 T2 T3].
  assert (El : live_l (alter f j (inodes_of s)) = live_l (inodes_of s)) by (by apply refs_same).
  constructor; [by apply calm_hw, calm_inodes | done | constructor |].
  - cbn. by rewrite length_alter.
  - unfold one_slot. rewrite inodes_with, El. exact T2.
  - intros k y Hy. rewrite inodes_with, list_lookup_alter in Hy.
    destruct (decide (j = k)) as [<-|Hne].
    + rewrite Hx in Hy. injection Hy as <-. destruct (T3 j x Hx) as (S1 & S2 & S3). rewrite Hr. split_and!; [done | done |].
      intros _. specialize (Hk x). unfold ikey in Hk. injection Hk as -> ->. done.
    + destruct (T3 k y Hy) as (S1 & S2 & S3). split_and!; [done | by apply (Hlk k y) | done].
  - unfold refs. rewrite inodes_with, El. exact W4.
Qed.

(** [ilock] of a slot of the volume locks it and has its inode read *)
Lemma wp_ilock M s j n v e (Q : unit -> list (kstate -> kstate) -> kstate -> Prop) :
  walking None M s -> slot_is s j n -> V !! n = Some v ->
  (forall s' x, walking (Some j) M s' -> slot_is s' j n -> inode_is s' j x -> i_dev x = ROOTDEV -> agrees x v -> Q tt e s') ->
  wp (ilock (Some j)) e s Q.
Proof using HV.
  intros W (x & Hx & Hp & Hkey) Hv HQ. pose proof W as [C S T _]. injection Hkey as Hdev Hnum.
  destruct (ti_slot _ _ _ _ T j x Hx) as (_ & Hl & Hag). unfold lock_ok in Hl. rewrite decide_False in Hl by done.
  assert (Hj : (j < NINODE)%nat) by (rewrite <- (ti_len _ _ _ _ T); by eapply lookup_lt_Some).
  unfold ilock. wp_step. eapply wp_inode_at; [exact Hx|]. replace (i_ref x <? 1) with false by lia.
  wp_step. eapply (wp_acquiresleep (SLInode j) (i_lock x) i p); [apply C | by apply C | apply C | apply C | | done |].
  { unfold inodes_of in Hx. cbn. by rewrite Hx. }
  set (lk := mksleeplock 1 (sl_name (i_lock x)) (p_pid p)). set (h := hw_crit (k_hw s)). cbn [sl_put].
  change (set_k_fs _ s) with (with_inodes s (alter (set_i_lock lk) j (inodes_of s))).
  set (s1 := set_k_hw h _). assert (Hx1 : inode_is s1 j (set_i_lock lk x)).
  { by apply inode_alter. }
  assert (W1 : walking (Some j) M s1).
  { eapply walking_alter; [exact W | exact Hx | done | done | by symmetry; apply hw_crit_eqv | | |].
    - intros k y Hne _. unfold lock_ok. by rewrite !decide_False by congruence.
    - unfold lock_ok. by rewrite decide_True.
    - intros Hd Hvl v' Hv'. exact (Hag Hp Hd Hvl v' Hv'). }
  assert (Hs1 : slot_is s1 j n) by (exists (set_i_lock lk x); split_and!; [done | done |]; unfold ikey; cbn; congruence).
  wp_step. eapply wp_inode_at; [exact Hx1|]. apply wp_when; cbn [i_valid set_i_lock]; intros Hval.
  2:{ apply (HQ s1 (set_i_lock lk x)); try done. apply Hag; try done; [lia | by rewrite Hnum]. }
  apply Z.eqb_eq in Hval. destruct (HV n v Hv) as [[Hty _] (blk & Hblk & Hdi) _].
  destruct (wk_steady _ _ _ W1) as (_ & Esb & Hcd). unfold sb_get. wp_step. wp_step. rewrite Esb.
  wp_step. cbn [i_dev i_inum set_i_lock]. rewrite Hdev, Hnum.
  eapply wp_bread_cached; [apply W1 | done | apply Hcd; exact Hblk |]. intros b s2 Hr.
  wp_step. eapply wp_buf_data; [exact Hr|]. wp_step. apply wp_inode_upd.
  set (g := di_read blk (di_off n)). set (s1' := with_inodes s1 (alter g j (inodes_of s1))).
  assert (W1' : walking (Some j) M s1').
  { eapply (walking_alter (Some j) (Some j) M s1 g (k_hw s1) j (set_i_lock lk x)); try done.
    - unfold lock_ok. by rewrite decide_True. }
  wp_step. eapply (wp_brelse_reading i p ROOTDEV (IBLOCK n (fs_sb (k_fs s0))) blk b s1').
  { assert (Ei : inodes_of s2 = inodes_of s1) by (destruct Hr as (_ & _ & _ & h2 & _ & ->); done).
    fold g. rewrite Ei. by apply reading_inodes. }
  intros s3 Hc3 Hq3. pose proof (walking_quiet _ _ _ _ W1' Hc3 Hq3) as W3.
  assert (Hx3 : inode_is s3 j (g (set_i_lock lk x))).
  { destruct Hq3 as (_ & Hq3 & _). unfold inode_is. rewrite Hq3. exact (inode_alter (k_hw s1) _ _ _ g Hx1). }
  wp_step. apply wp_inode_upd. set (s4 := with_inodes s3 _).
  assert (Kg : i_ref (g (set_i_lock lk x)) = i_ref x /\ i_lock (g (set_i_lock lk x)) = lk /\
    ikey (g (set_i_lock lk x)) = ikey x) by done.
  pose proof (agrees_valid 1 _ _ (Hdi (set_i_lock lk x))) as Ha. fold g in Ha. set (x3 := g (set_i_lock lk x)) in *.
  clearbody g. clearbody x3. destruct Kg as (Kg1 & Kg2 & Kg3). injection Kg3 as Kd Kn.
  assert (W4 : walking (Some j) M s4).
  { eapply (walking_alter (Some j) (Some j) M s3 (set_i_valid 1) (k_hw s3) j x3); try done.
    - unfold lock_ok. rewrite decide_True by done. cbn. by rewrite Kg2.
    - rewrite Kn, Hnum, Hv. intros _ _ v' [= <-]. exact Ha. }
  assert (Hx4 : inode_is s4 j (set_i_valid 1 x3)) by exact (inode_alter (k_hw s3) _ _ _ (set_i_valid 1) Hx3).
  wp_step. eapply wp_inode_at; [exact Hx4|]. apply wp_when; intros Ht.
  - apply Z.eqb_eq in Ht. destruct Ha as (Ha & _). congruence.
  - eapply (HQ s4); [done | | exact Hx4 | cbn; congruence | exact Ha].
    eexists. split_and!; [exact Hx4 | cbn; lia |]. unfold ikey. cbn. congruence.
Qed.

(** [iunlock] of the slot that is held *)
Lemma wp_iunlock M s j n e (Q : unit -> list (kstate -> kstate) -> kstate -> Prop) :
  walking (Some j) M s -> slot_is s j n ->
  (forall s', walking None M s' -> (forall j0 n0, slot_is s j0 n0 -> slot_is s' j0 n0) -> Q tt e s') -> wp (iunlock (Some j)) e s Q.
Proof.
  intros W (x & Hx & Hp & Hkey) HQ. pose proof W as [C S T _].
  destruct (ti_slot _ _ _ _ T j x Hx) as (_ & Hl & Hag). unfold lock_ok in Hl. rewrite decide_True in Hl by done.
  destruct Hl as [Hl1 Hl2]. assert (Hj : (j < NINODE)%nat) by (rewrite <- (ti_len _ _ _ _ T); by eapply lookup_lt_Some).
  assert (Hfind : sl_find (SLInode j) (k_fs s) = Some (i_lock x)) by (unfold inodes_of in Hx; cbn; by rewrite Hx).
  pose proof (hw_crit_eqv (k_hw s)) as E. symmetry in E. pose proof (calm_hw _ _ _ _ E C) as C'.
  unfold iunlock. wp_step. eapply (wp_holdingsleep (SLInode j) (i_lock x) i p); [apply C | by apply C | apply C | apply C | exact Hfind |].
  rewrite Hl1, Hl2, Z.eqb_refl. cbn [istrue andb negb Z.eqb]. wp_step. eapply wp_inode_at; [exact Hx|].
  replace (i_ref x <? 1) with false by lia. destruct (cm_sched _ _ _ C) as (ls & Hls).
  set (s1 := set_k_hw _ s) in *.
  eapply (wp_releasesleep (SLInode j) (i_lock x) i p e s1); [apply C' | by apply C' | apply C' | apply C' | exact Hfind | apply C' | exact Hls |].
  intros ps' Hinv _ Ht. set (lk := mksleeplock 0 (sl_name (i_lock x)) 0). set (h := hw_crit (k_hw s1)).
  assert (Eh : k_hw s ≈h h) by (rewrite E; symmetry; apply hw_crit_eqv).
  assert (W' : walking None M (set_k_hw h (with_inodes s (alter (set_i_lock lk) j (inodes_of s))))).
  { eapply walking_alter; [exact W | exact Hx | done | done | exact Eh | | |].
    - intros k y Hne _. unfold lock_ok. by rewrite !decide_False by congruence.
    - done.
    - intros Hd Hvl v' Hv'. exact (Hag Hp Hd Hvl v' Hv'). }
  apply HQ.
  - destruct W' as [A1 A2 A3 A4]. constructor; [|exact A2 | exact A3 | exact A4].
    exact (calm_woken i p _ ps' (CInodeLock j) A1 Hinv Ht).
  - intros j0 n0 H0. exact (slot_alter s (set_i_lock lk) h j j0 n0 ltac:(done) ltac:(done) H0).
Qed.

(** [iput] of an inode that has links gives back one reference *)
Lemma wp_iput M s j n v e (Q : unit -> list (kstate -> kstate) -> kstate -> Prop) :
  walking None M s -> slot_is s j n -> V !! n = Some v -> map_Forall (fun _ r => r < 2 ^ 31) M ->
  (forall s', walking None (drop_ref (ROOTDEV, n) M) s' ->
     (forall j0 n0, slot_is s j0 n0 -> is_Some (drop_ref (ROOTDEV, n) M !! (ROOTDEV, n0)) -> slot_is s' j0 n0) -> Q tt e s') ->
  wp (iput j) e s Q.
Proof using HV.
  intros W (x & Hx & Hp & Hkey) Hv HM HQ. pose proof W as [C S T R]. destruct T as [T1 T2 T3].
  destruct (T3 j x Hx) as (_ & Hl & Hag). pose proof (f_equal fst Hkey) as Hd. pose proof (f_equal snd Hkey) as Hn. cbn in Hd, Hn.
  assert (Hr : M !! (ROOTDEV, n) = Some (i_ref x)) by (rewrite <- R, <- Hkey; by eapply refs_lookup).
  unfold iput. wp_step. apply wp_acquire; [eapply hart_ok_weaken; [|apply C]; lia | apply C |].
  set (s1 := set_k_hw _ s). wp_step. eapply wp_inode_at; [exact Hx|]. wp_step. apply wp_when; intros Hcond.
  { exfalso. apply andb_true_iff in Hcond as [[_ Hval]%andb_true_iff Hnl%Z.eqb_eq]. unfold istrue in Hval.
    destruct (Hag Hp Hd ltac:(intros E; rewrite E in Hval; done) v ltac:(by rewrite Hn)) as (_ & Ha & _).
    destruct (HV n v Hv) as [[_ Hnz] _ _]. congruence. }
  wp_step. apply wp_inode_upd. eapply (wp_release_acq LItable (k_hw s) 2); [lia | apply C | apply C | done |].
  set (f := fun x => set_i_ref (s32 (i_ref x - 1)) x). set (h := hw_crit (k_hw s)).
  specialize (HM _ _ Hr). cbn in HM. assert (Ef : i_ref (f x) = i_ref x - 1) by (cbn; by rewrite s32_small by lia).
  destruct (refs_slot (inodes_of s) j x (ROOTDEV, n)) as (Rm & HR & HR1 & HR2); [done | done | done | lia |].
  destruct (HR2 f) as [HR3 HR4]; [intros _; exact Hkey|].
  assert (Hrefs : refs (alter f j (inodes_of s)) = drop_ref (ROOTDEV, n) M).
  { rewrite HR4, <- R, HR1. unfold put_slot, drop_ref. rewrite Ef, (decide_True _ _ Hp), lookup_insert_eq.
    destruct (Z.eqb_spec (i_ref x) 1) as [E|E].
    - rewrite decide_False by lia. by rewrite delete_insert_id.
    - rewrite decide_True by lia. by rewrite insert_insert_eq. }
  change (wp (ret tt) e (set_k_hw h (with_inodes s (alter f j (inodes_of s)))) Q) || change (Q tt e (set_k_hw h (with_inodes s (alter f j (inodes_of s))))).
  apply HQ.
  - constructor; [apply calm_hw; [symmetry; apply hw_crit_eqv | by apply calm_inodes] | done | constructor | exact Hrefs].
    + rewrite inodes_with. by rewrite length_alter.
    + exact HR3.
    + intros k y Hy. rewrite inodes_with, list_lookup_alter in Hy. destruct (decide (j = k)) as [<-|Hne]; [|by apply T3].
      rewrite Hx in Hy. injection Hy as <-. rewrite Ef. split_and!; [lia | exact Hl |].
      intros _ Hd' Hv' v' Hvn. exact (Hag Hp Hd' Hv' v' Hvn).
  - intros j0 n0 (y & Hy & Hyp & Hyk) [r Hsome]. unfold slot_is. rewrite inodes_with, list_lookup_alter.
    destruct (decide (j = j0)) as [<-|Hne]; [|by exists y]. rewrite Hx in Hy. injection Hy as <-. rewrite Hx. exists (f x).
    split_and!; [done | | exact Hyk]. rewrite Hkey in Hyk. injection Hyk as <-. rewrite Ef.
    unfold drop_ref in Hsome. rewrite Hr in Hsome. destruct (Z.eqb_spec (i_ref x) 1) as [E|]; [|lia].
    by rewrite lookup_delete_eq in Hsome.
Qed.

(** one step into a directory: the entry's inode, with a reference of its own *)
Lemma wp_enter M s j n v name w e (Q : option (nat * Z) -> list (kstate -> kstate) -> kstate -> Prop) x :
  walking (Some j) M s -> slot_is s j n -> inode_is s j x -> i_dev x = ROOTDEV -> agrees x v -> V !! n = Some v ->
  v_type v = T_DIR -> cname DIRSIZ name = take DIRSIZ w -> (size M < NINODE)%nat -> map_Forall (fun _ r => r < 2 ^ 31 - 1) M ->
  match dir_entry v w with
  | None => forall s', walking (Some j) M s' -> slot_is s' j n -> Q None e s'
  | Some m => forall s' k off, walking (Some j) (take_ref (ROOTDEV, m) M) s' -> slot_is s' j n -> slot_is s' k m ->
      is_Some (V !! m) -> Q (Some (k, off)) e s'
  end -> wp (dirlookup j name) e s Q.
Proof using HV.
  intros W Hs Hx Hd Ha Hv Hty Hname Hsz HM HQ. destruct (walking_volume _ _ _ W n v Hv) as [_ _ Hdir].
  destruct (Hdir Hty) as ((m & Hm) & Hfile & Hents). specialize (Hfile x Ha Hd).
  eapply (wp_dirlookup i p j x (v_data v) m); [apply W | done | destruct Ha; congruence | done | done | by eapply walking_itable |].
  unfold dir_entry in HQ.
  rewrite (list_find_ext _ (entry_for name)) in HQ by (intros de; unfold entry_for; by rewrite Hname).
  destruct (list_find (entry_for name) (dirents (v_data v))) as [[k de]|] eqn:E; cbn in HQ.
  - apply list_find_Some in E as (Ek & [En _] & _).
    destruct (walking_choice _ _ _ (de_inum de) W Hsz) as (j' & hit & Hch). exists j', hit. rewrite Hd. split; [done|].
    intros s1 Hc1 Hq1. pose proof (walking_quiet _ _ _ _ W Hc1 Hq1) as W1.
    assert (Et : inodes_of s1 = inodes_of s) by apply Hq1. rewrite <- Et in Hch.
    destruct (walking_igot _ _ _ _ _ _ (hw_crit (k_hw s1)) W1 Hch ltac:(symmetry; apply hw_crit_eqv)) as [W2 S2].
    apply HQ; [exact W2 | | exact S2 | ].
    + apply slot_igot; [done|]. unfold slot_is. by rewrite Et.
    + apply (Hents de); [by eapply list_elem_of_lookup_2 | done].
  - intros s1 Hc1 Hq1. apply HQ; [by eapply walking_quiet|]. unfold slot_is. assert (Et : inodes_of s1 = inodes_of s) by apply Hq1.
    by rewrite Et.
Qed.

Lemma wp_iunlockput M s j n v e (Q : unit -> list (kstate -> kstate) -> kstate -> Prop) :
  walking (Some j) M s -> slot_is s j n -> V !! n = Some v -> map_Forall (fun _ r => r < 2 ^ 31) M ->
  (forall s', walking None (drop_ref (ROOTDEV, n) M) s' ->
     (forall j0 n0, slot_is s j0 n0 -> is_Some (drop_ref (ROOTDEV, n) M !! (ROOTDEV, n0)) -> slot_is s' j0 n0) -> Q tt e s') ->
  wp (iunlockput j) e s Q.
Proof using HV.
  intros W Hs Hv HM HQ. unfold iunlockput. wp_step. eapply wp_iunlock; [done | done |]. intros s1 W1 Hkeep.
  eapply wp_iput; [done | by apply Hkeep | done | done |]. intros s2 W2 Hkeep2. apply HQ; [done|]. eauto.
Qed.

(** what [namex] answers, with which references *)
Definition answer (parent : bool) (es : list (list Z)) (M : gmap (Z * Z) Z) (o : option Z) (r : option nat * list Z) (s' : kstate) : Prop :=
  match o with
  | Some m => walking None (take_ref (ROOTDEV, m) M) s' /\ (exists j, r.1 = Some j /\ slot_is s' j m) /\
      (parent = true -> Some (cname DIRSIZ r.2) = take DIRSIZ <$> last es)
  | None => walking None M s' /\ r.1 = None
  end.

Lemma wp_namex_loop parent fuel path0 name0 ip0 n0 M e s (Q : option nat * list Z -> list (kstate -> kstate) -> kstate -> Prop) :
  walking None (take_ref (ROOTDEV, n0) M) s -> slot_is s ip0 n0 -> is_Some (V !! n0) -> map_Forall (fun _ r => 0 < r < 2 ^ 31 - 3) M ->
  (size M + 2 <= NINODE)%nat -> length name0 = DIRSIZ -> Forall (.≠ 0) path0 -> (length path0 < fuel)%nat ->
  (forall r s', answer parent (elems path0) M (resolve V parent n0 (elems path0)) r s' -> Q r e s') ->
  wp (mloop fuel (path0, name0, ip0) (fun '(path, name, ip) =>
    match skipelem path name with
    | None =>
        if parent then iput ip;; ret (inr (None, name)) else ret (inr (Some ip, name))
    | Some (path, name) =>
        ilock (Some ip);;
        x <- inode_at ip;;
        if negb (i_type x =? T_DIR) then iunlockput ip;; ret (inr (None, name)) else
        if parent && bool_decide (path = []) then iunlock (Some ip);; ret (inr (Some ip, name)) else
        next <- dirlookup ip name;;
        match next with
        | None => iunlockput ip;; ret (inr (None, name))
        | Some (next, _) => iunlockput ip;; ret (inl (path, name, next))
        end
    end)) e s Q.
Proof using HV.
  intros W0 S0 V0 HM Hsz Hlen Hnz Hfuel HQ.
  assert (Hpos : map_Forall (fun _ r => 0 < r) M) by (intros k r H; by apply (HM k r)).
  assert (Hbd : map_Forall (fun _ r => r < 2 ^ 31 - 3) M) by (intros k r H; by apply (HM k r)).
  apply (wp_mloop _ (fun '(path, name, ip) e' s' => e' = e /\ length name = DIRSIZ /\ Forall (.≠ 0) path /\
    exists n, walking None (take_ref (ROOTDEV, n) M) s' /\ slot_is s' ip n /\ is_Some (V !! n) /\
      resolve V parent n (elems path) = resolve V parent n0 (elems path0) /\
      (elems path <> [] -> last (elems path) = last (elems path0)))
    (fun '(path, _, _) => length path)).
  - lia.
  - split_and!; try done. by exists n0.
  - intros [[path name] ip] e' s1 (-> & Hl & Hz & n & W & Hs & [v Hv] & Hres & Hlast).
    pose proof (take_ref_bound (2 ^ 31 - 3) (ROOTDEV, n) M ltac:(lia) Hbd) as HM1.
    pose proof (skipelem_spec path name Hz Hl) as Hsk. destruct (elems path) as [|w ws] eqn:Ees.
    + rewrite Hsk. cbn [resolve] in Hres. rewrite <- Hres in HQ. destruct parent.
      * wp_step. eapply wp_iput; [exact W | exact Hs | exact Hv | by eapply map_bound_weaken; [|exact HM1]; lia |].
        intros s2 W2 _. rewrite drop_take in W2 by done. wp_step. apply HQ. by split.
      * wp_step. apply HQ. split_and!; [done | by exists ip | done].
    + destruct Hsk as (path' & name' & -> & Hes' & Hname & Hl' & Hz' & Hshort & Hend).
      wp_step. eapply wp_ilock; [exact W | exact Hs | exact Hv |]. intros s2 x W2 Hs2 Hx Hd Ha.
      wp_step. eapply wp_inode_at; [exact Hx|]. pose proof Ha as (Hty & _). rewrite Hty.
      cbn [resolve] in Hres. rewrite Hv in Hres. cbn [mbind option_bind] in Hres.
      specialize (Hlast ltac:(done)).
      destruct (v_type v =? T_DIR) eqn:Edir; cbn [negb].
      2:{ rewrite <- Hres in HQ. wp_step. eapply wp_iunlockput; [exact W2 | exact Hs2 | exact Hv | by eapply map_bound_weaken; [|exact HM1]; lia |].
          intros s3 W3 _. rewrite drop_take in W3 by done. wp_step. apply HQ. by split. }
      rewrite (bool_decide_ext _ _ Hend). destruct (parent && bool_decide (ws = [])) eqn:Epar.
      { rewrite <- Hres in HQ. apply andb_true_iff in Epar as [-> ->%bool_decide_eq_true].
        wp_step. eapply wp_iunlock; [exact W2 | exact Hs2 |]. intros s3 W3 Hk3. wp_step. apply HQ. split_and!; [done | by eauto |].
        intros _. rewrite <- Hlast. change (Some (cname DIRSIZ name') = Some (take DIRSIZ w)). by rewrite Hname. }
      apply Z.eqb_eq in Edir. wp_step.
      eapply (wp_enter _ _ _ _ _ _ w); [exact W2 | exact Hs2 | exact Hx | exact Hd | exact Ha | exact Hv | exact Edir | exact Hname | | |].
      { pose proof (take_ref_size (ROOTDEV, n) M). lia. }
      { by eapply map_bound_weaken; [|exact HM1]; lia. }
      destruct (dir_entry v w) as [m|]; cbn in Hres.
      * intros s3 k off W3 Hs3 Hk3 [vm Hvm].
        pose proof (take_ref_bound (2 ^ 31 - 3 + 1) (ROOTDEV, m) _ ltac:(lia) HM1) as HM2.
        wp_step. eapply wp_iunlockput; [exact W3 | exact Hs3 | exact Hv | by eapply map_bound_weaken; [|exact HM2]; lia |].
        intros s4 W4 Hkeep. rewrite drop_take_take in W4, Hkeep by done. wp_step. split; [done|]. split_and!; try done.
        exists m. split_and!; [done | | by eauto | by rewrite Hes' | ].
        -- apply Hkeep; [done|]. unfold take_ref. rewrite lookup_insert_eq. by eauto.
        -- rewrite Hes'. intros Hne. rewrite <- Hlast. by destruct ws.
      * rewrite <- Hres in HQ. intros s3 W3 Hs3. wp_step.
        eapply wp_iunlockput; [exact W3 | exact Hs3 | exact Hv | by eapply map_bound_weaken; [|exact HM1]; lia |].
        intros s4 W4 _. rewrite drop_take in W4 by done. wp_step. apply HQ. by split.
Qed.

(** [iget] and [idup] take a reference *)
Lemma wp_iget_walk M s n e (Q : nat -> list (kstate -> kstate) -> kstate -> Prop) :
  walking None M s -> (size M < NINODE)%nat -> map_Forall (fun _ r => r < 2 ^ 31 - 1) M ->
  (forall j s', walking None (take_ref (ROOTDEV, n) M) s' -> slot_is s' j n -> Q j e s') -> wp (iget ROOTDEV n) e s Q.
Proof.
  intros W Hsz HM HQ. destruct (walking_choice _ _ _ n W Hsz) as (j & hit & Hch).
  destruct (walking_itable _ _ _ W HM) as [Hlen Href].
  eapply wp_iget; [eapply hart_ok_weaken; [|apply W]; lia | apply W | done | done | done |].
  apply HQ; eapply walking_igot; try done; symmetry; apply hw_crit_eqv.
Qed.
Lemma wp_idup M s j n e (Q : nat -> list (kstate -> kstate) -> kstate -> Prop) :
  walking None M s -> slot_is s j n -> map_Forall (fun _ r => r < 2 ^ 31 - 1) M ->
  (forall s', walking None (take_ref (ROOTDEV, n) M) s' -> slot_is s' j n -> Q j e s') -> wp (idup j) e s Q.
Proof.
  intros W (x & Hx & Hp & Hk) HM HQ. pose proof W as [C _ T R]. injection Hk as Hd Hn.
  destruct (walking_itable _ _ _ W HM) as [_ Href]. pose proof (Forall_lookup_1 _ _ _ _ Href Hx) as Hb. cbn in Hb.
  assert (Hch : iget_choice ROOTDEV n (inodes_of s) = Some (j, true)).
  { unfold iget_choice. destruct (list_find (is_inode ROOTDEV n) (inodes_of s)) as [[k y]|] eqn:E.
    - apply list_find_Some in E as (E1 & (E2 & E3 & E4) & _). f_equal. f_equal.
      eapply (one_slot_inj (inodes_of s) k j y x); try done; [apply T | unfold ikey; congruence].
    - apply list_find_None in E. exfalso. by apply (Forall_lookup_1 _ _ _ _ E Hx). }
  unfold idup. wp_step. apply wp_acquire; [eapply hart_ok_weaken; [|apply C]; lia | apply C |].
  wp_step. apply wp_inode_upd. wp_step. eapply (wp_release_acq LItable (k_hw s) 2); [lia | apply C | apply C | done |]. wp_step.
  destruct (walking_igot None M s n j true (hw_crit (k_hw s)) W Hch ltac:(symmetry; apply hw_crit_eqv)) as [W2 S2].
  assert (Ea : alter (fun x => set_i_ref (s32 (i_ref x + 1)) x) j (inodes_of s) = alter (igot true ROOTDEV n) j (inodes_of s)).
  { apply list_eq. intros k. rewrite !list_lookup_alter. case_decide; [subst k|done]. rewrite Hx. cbn. by rewrite s32_small by lia. }
  rewrite <- Ea in W2, S2. apply HQ; [exact W2 | exact S2].
Qed.

(** where the walk starts: at the root, or at the current directory *)
Definition starts (s : kstate) (path : list Z) (n : Z) : Prop :=
  if default 0 (head path) =? slash then n = ROOTINO else exists c, p_cwd p = Some c /\ slot_is s c n.

Lemma wp_namex parent path n0 M e s (Q : option nat * list Z -> list (kstate -> kstate) -> kstate -> Prop) :
  walking None M s -> starts s path n0 -> is_Some (V !! n0) -> map_Forall (fun _ r => 0 < r < 2 ^ 31 - 3) M ->
  (size M + 2 <= NINODE)%nat -> Forall (.≠ 0) path ->
  (forall r s', answer parent (elems path) M (resolve V parent n0 (elems path)) r s' -> Q r e s') ->
  wp (namex path parent) e s Q.
Proof using HV.
  intros W Hst HV0 HM Hsz Hnz HQ.
  assert (Hbd : map_Forall (fun _ r => r < 2 ^ 31 - 1) M) by (intros k r H; specialize (HM k r H); cbn in HM; lia).
  unfold namex. wp_step.
  assert (Hgo : forall ip s1, walking None (take_ref (ROOTDEV, n0) M) s1 -> slot_is s1 ip n0 ->
    wp (mloop (S (length path)) (path, replicate DIRSIZ 0, ip) _) e s1 Q) by
    (intros ip s1 W1 S1; eapply wp_namex_loop; try done; lia).
  unfold starts in Hst. destruct (default 0 (head path) =? slash).
  - subst n0. eapply wp_iget_walk; [exact W | lia | exact Hbd |]. exact Hgo.
  - destruct Hst as (c & Hc & Hs). pose proof (wk_calm _ _ _ W) as C.
    wp_step. eapply wp_curproc; [eapply hart_ok_weaken; [|apply C]; lia | apply C |].
    wp_step. eapply wp_pget; [apply C|]. rewrite Hc.
    assert (E : k_hw s ≈h hw_crit (k_hw s)) by (symmetry; apply hw_crit_eqv).
    eapply (wp_idup M (set_k_hw (hw_crit (k_hw s)) s)); [|exact Hs | exact Hbd | exact (Hgo c)].
    destruct W as [W1 W2 W3 W4]. constructor; [by apply calm_hw | exact W2 | exact W3 | exact W4].
Qed.
End walk.

(** C18: [namex] resolves paths: on a volume whose inodes and directories are in the cache
    it answers what walking the path's elements through the directories gives, from
    the root or from the current directory, each element cut at [DIRSIZ] bytes and
    repeated slashes ignored; for [nameiparent] the directory of the last element,
    with that element in the name buffer.  An element that is missing, or a file in
    the place of a directory, gives none.  The answer has one reference more, and no
    other reference count changes: whatever the walk took on its way, it gave back,
    and every lock is free again. *)
Theorem namex_resolves i p V path parent n e s :
  calm i p s -> volume s V -> table_in p V None (inodes_of s) -> starts p s path n -> is_Some (V !! n) ->
  (size (refs (inodes_of s)) + 2 <= NINODE)%nat -> map_Forall (fun _ r => r < 2 ^ 31 - 3) (refs (inodes_of s)) ->
  Forall (.≠ 0) path ->
  exists r s', namex path parent e s = Ret r e s' /\ calm i p s' /\ steady s s' /\ table_in p V None (inodes_of s') /\
    match resolve V parent n (elems path) with
    | Some m => (exists j, r.1 = Some j /\ slot_is s' j m) /\
        refs (inodes_of s') = take_ref (ROOTDEV, m) (refs (inodes_of s)) /\
        (parent = true -> Some (cname DIRSIZ r.2) = take DIRSIZ <$> last (elems path))
    | None => r.1 = None /\ refs (inodes_of s') = refs (inodes_of s)
    end.
Proof.
  intros Hc HV Ht Hst Hn Hsz Hbd Hnz.
  assert (W : walking i p V s None (refs (inodes_of s)) s) by (by constructor).
  assert (H : wp (namex path parent) e s (fun r e' s' => e' = e /\
    answer i p V s parent (elems path) (refs (inodes_of s)) (resolve V parent n (elems path)) r s')).
  { eapply (wp_namex i p V s HV); try done. intros k r Hr. split; [by eapply refs_pos | by eapply Hbd]. }
  apply wp_run in H as (r & s' & Hr & Ha). exists r, s'. split; [done|]. unfold answer in Ha.
  destruct (resolve V parent n (elems path)) as [m|].
  - destruct Ha as ([W1 W2 W3 W4] & Hj & Hp). done.
  - destruct Ha as ([W1 W2 W3 W4] & Hj). done.
Qed.

Definition demo_volume : gmap Z vnode :=
  <[1 := mkvnode T_DIR 1 (46 :: replicate 12 0) demo_root]>
  (<[2 := mkvnode T_DIR 1 (47 :: replicate 12 0) demo_sub]>
  (<[3 := mkvnode T_FILE 1 (48 :: replicate 12 0) demo_text]> ∅)).
(** an inode of the demo volume, with entries that name inodes of the volume *)
Lemma demo_vnode n type b data m : type <> 0 -> b <> 0 -> IBLOCK n (fs_sb (k_fs fs_demo)) = 32 ->
  (forall x, agrees (di_read demo_inodes (di_off n) x) (mkvnode type 1 (b :: replicate 12 0) data)) ->
  cached fs_demo 1 b (pad data) -> (0 < length data <= 1024)%nat ->
  (type = T_DIR -> length data = (16 * m)%nat /\ forallb (fun de => (de_inum de =? 0) || bool_decide (is_Some (demo_volume !! de_inum de))) (dirents data) = true) ->
  vnode_ok fs_demo demo_volume n (mkvnode type 1 (b :: replicate 12 0) data).
Proof.
  intros Hty Hb Hblk Hdi Hc Hl Hdir. constructor; cbn [v_type v_nlink v_data].
  - done.
  - exists demo_inodes. rewrite Hblk. split; [apply fs_demo_cached | exact Hdi].
  - intros Ht. destruct (Hdir Ht) as [H1 H2]. split_and!; [by exists m | |].
    + intros x (_ & _ & Hs & Ha) Hd. cbn [v_data v_addrs] in Hs, Ha. eapply one_block; [exact Hd | exact Hs | done | by rewrite Ha | done | done].
    + intros de Hde Hn. rewrite forallb_forall in H2. specialize (H2 de ltac:(by apply list_elem_of_In)). cbv beta in H2.
      replace (de_inum de =? 0) with false in H2 by lia. by apply bool_decide_eq_true in H2.
Qed.
Lemma demo_volume_ok : volume fs_demo demo_volume.
Proof.
  destruct fs_demo_cached as (C0 & C1 & C2 & C3). intros n v Hv. unfold demo_volume in Hv.
  apply lookup_insert_Some in Hv as [[<- <-]|[_ Hv]];
    [|apply lookup_insert_Some in Hv as [[<- <-]|[_ Hv]]; [|apply lookup_insert_Some in Hv as [[<- <-]|[_ Hv]]; [|done]]].
  - apply (demo_vnode 1 T_DIR 46 demo_root 3);
      [done | done | vm_compute; reflexivity | intros x; split_and!; vm_compute; reflexivity | exact C1 | apply (bool_decide_unpack _); vm_compute; exact I | intros _; split; vm_compute; reflexivity].
  - apply (demo_vnode 2 T_DIR 47 demo_sub 3);
      [done | done | vm_compute; reflexivity | intros x; split_and!; vm_compute; reflexivity | exact C2 | apply (bool_decide_unpack _); vm_compute; exact I | intros _; split; vm_compute; reflexivity].
  - apply (demo_vnode 3 T_FILE 48 demo_text 0);
      [done | done | vm_compute; reflexivity | intros x; split_and!; vm_compute; reflexivity | exact C3 | apply (bool_decide_unpack _); vm_compute; exact I | done].
Qed.
Lemma demo_itable : table_in demo_me demo_volume None (inodes_of fs_demo).
Proof.
  constructor; [vm_compute; reflexivity | apply (bool_decide_unpack _); vm_compute; exact I |].
  assert (H : Forall (fun x => 0 <= i_ref x /\ sl_locked (i_lock x) = 0 /\
    (i_ref x = 0 \/ agrees x (default (mkvnode 0 0 [] []) (demo_volume !! i_inum x)))) (inodes_of fs_demo)).
  { apply (bool_decide_unpack _). vm_compute. exact I. }
  intros j x Hx. destruct (Forall_lookup_1 _ _ _ _ H Hx) as (H1 & H2 & H3). split_and!; [done | done |].
  intros Hp _ _ v Hv. destruct H3 as [H3|H3]; [lia|]. by rewrite Hv in H3.
Qed.
Lemma namex_resolves_witness : exists r s', namex (chars "/sub//a") false [] fs_demo = Ret r [] s' /\
  (exists j, r.1 = Some j /\ slot_is s' j 3) /\ refs (inodes_of s') !! (1, 3) = Some 2 /\ refs (inodes_of s') !! (1, 2) = None.
Proof.
  destruct (namex_resolves 0 demo_me demo_volume (chars "/sub//a") false 1 [] fs_demo) as (r & s' & H1 & _ & _ & _ & H2).
  - apply fs_demo_calm.
  - apply demo_volume_ok.
  - apply demo_itable.
  - vm_compute. reflexivity.
  - eexists. vm_compute. reflexivity.
  - apply (bool_decide_unpack _). vm_compute. exact I.
  - apply (bool_decide_unpack _). vm_compute. exact I.
  - apply (bool_decide_unpack _). vm_compute. exact I.
  - assert (E : resolve demo_volume false 1 (elems (chars "/sub//a")) = Some 3) by (vm_compute; reflexivity).
    rewrite E in H2. destruct H2 as (H2 & H3 & _). exists r, s'. split; [exact H1|]. split; [exact H2|]. rewrite H3.
    split; vm_compute; reflexivity.
Defined.
