(* ===== verification/File.v ===== *)
(** The file table (file.c) and [pipealloc] of pipe.c: reference-counted open
    files that dispatch to pipes, devices and inodes. *)
From S2P Require Import Prelude State Spinlock Queue Boot Cstring Kalloc Vm Printf Proc Copyio.
From S2P Require Import Sleeplock Console Pipe Disk Bio Log Fs.

Definition file_at (f : nat) : K file :=
  l <- gets (fun s => fs_file (k_fs s));;
  match l !! f with Some x => ret x | None => fault "no such file" end.
Definition file_upd (f : nat) (g : file -> file) : K unit :=
  modify_fs (fun x => set_fs_file (alter g f (fs_file x)) x).

(** ** file.c *)
Definition fileinit : K unit := initlock LFtable "ftable".

Definition filealloc : K (option nat) :=
  acquire LFtable;;
  r <- mfor (seq 0 NFILE) (fun f =>
    x <- file_at f;;
    if f_ref x =? 0 then
      file_upd f (set_f_ref 1);;
      release LFtable;;
      ret (Some f)
    else ret None);;
  match r with
  | Some f => ret (Some f)
  | None => release LFtable;; ret None
  end.

Definition filedup (f : nat) : K nat :=
  acquire LFtable;;
  x <- file_at f;;
  if f_ref x <? 1 then panic "filedup" else
  file_upd f (fun x => set_f_ref (s32 (f_ref x + 1)) x);;
  release LFtable;;
  ret f.

Definition fileclose (f : nat) : K unit :=
  acquire LFtable;;
  x <- file_at f;;
  if f_ref x <? 1 then panic "fileclose" else
  file_upd f (fun x => set_f_ref (s32 (f_ref x - 1)) x);;
  x <- file_at f;;
  if 0 <? f_ref x then release LFtable else
  let ff := x in
  file_upd f (set_f_ref 0);;
  file_upd f (set_f_type FD_NONE);;
  release LFtable;;
  match f_type ff with
  | FD_PIPE => pipeclose (f_pipe ff) (istrue (f_writable ff))
  | FD_INODE | FD_DEVICE =>
      begin_op;;
      match f_ip ff with Some ip => iput ip | None => fault "null inode" end;;
      end_op
  | FD_NONE => ret tt
  end.

(** the inode of a file, where the code dereferences it *)
Definition file_ip (x : file) : K nat :=
  match f_ip x with Some ip => ret ip | None => fault "null inode" end.

Definition filestat (f : nat) (addr : Z) : K Z :=
  p <- curproc;;
  x <- file_at f;;
  match f_type x with
  | FD_INODE | FD_DEVICE =>
      ilock (f_ip x);;
      ip <- file_ip x;;
      st <- stati ip;;
      iunlock (f_ip x);;
      pt <- pget p p_pagetable;;
      r <- copyout pt addr st;;
      ret (if r <? 0 then -1 else 0)
  | _ => ret (-1)
  end.

(** is there a driver for device [major]? *)
Definition devsw_set (major : Z) : K bool :=
  l <- gets (fun s => fs_devsw (k_fs s));;
  ret (negb (major <? 0) && (major <? NDEV) && default false (l !! Z.to_nat major)).

Definition fileread (f : nat) (addr n : Z) : K Z :=
  x <- file_at f;;
  if f_readable x =? 0 then ret (-1) else
  match f_type x with
  | FD_PIPE => piperead (f_pipe x) addr n
  | FD_DEVICE =>
      d <- devsw_set (f_major x);;
      if negb d then ret (-1) else consoleread (ToUser addr) n
  | FD_INODE =>
      ilock (f_ip x);;
      ip <- file_ip x;;
      x <- file_at f;;
      r <- readi ip (ToUser addr) (f_off x) (u32 n);;
      when (0 <? r.1) (file_upd f (fun x => set_f_off (u32 (f_off x + r.1)) x));;
      iunlock (Some ip);;
      ret r.1
  | FD_NONE => panic "fileread"
  end.

(** bytes of a [write] that go into one transaction *)
Definition write_max : Z := (MAXOPBLOCKS - 1 - 1 - 2) / 2 * BSIZE.

Definition filewrite (f : nat) (addr n : Z) : K Z :=
  x <- file_at f;;
  if f_writable x =? 0 then ret (-1) else
  match f_type x with
  | FD_PIPE => pipewrite (f_pipe x) addr n
  | FD_DEVICE =>
      d <- devsw_set (f_major x);;
      if negb d then ret (-1) else consolewrite (FromUser addr) n
  | FD_INODE =>
      i <- mloop (S (Z.to_nat n)) 0 (fun i =>
        if n <=? i then ret (inr i) else
        let n1 := Z.min (n - i) write_max in
        begin_op;;
        ilock (f_ip x);;
        ip <- file_ip x;;
        y <- file_at f;;
        r <- writei ip (FromUser (u64 (addr + i))) (f_off y) n1;;
        when (0 <? r) (file_upd f (fun x => set_f_off (u32 (f_off x + r)) x));;
        iunlock (Some ip);;
        end_op;;
        if negb (r =? n1) then ret (inr i) else ret (inl (i + r)));;
      ret (if i =? n then n else -1)
  | FD_NONE => panic "filewrite"
  end.

(** ** pipe.c: pipealloc

    The two files of a new pipe, or [None] for -1. *)
Definition pipealloc : K (option (nat * nat)) :=
  let bad (pi : Z) (f0 f1 : option nat) : K (option (nat * nat)) :=
    when (istrue pi) (kfree pi);;
    match f0 with Some f => fileclose f | None => ret tt end;;
    match f1 with Some f => fileclose f | None => ret tt end;;
    ret None in
  f0 <- filealloc;;
  match f0 with
  | None => bad 0 None None
  | Some f0 =>
      f1 <- filealloc;;
      match f1 with
      | None => bad 0 (Some f0) None
      | Some f1 =>
          pi <- kalloc;;
          if pi =? 0 then bad 0 (Some f0) (Some f1) else
          store32 (pi + pi_readopen) 1;;
          store32 (pi + pi_writeopen) 1;;
          store32 (pi + pi_nwrite) 0;;
          store32 (pi + pi_nread) 0;;
          initlock (LPipe pi) "pipe";;
          file_upd f0 (set_f_type FD_PIPE);;
          file_upd f0 (set_f_readable 1);;
          file_upd f0 (set_f_writable 0);;
          file_upd f0 (set_f_pipe pi);;
          file_upd f1 (set_f_type FD_PIPE);;
          file_upd f1 (set_f_readable 0);;
          file_upd f1 (set_f_writable 1);;
          file_upd f1 (set_f_pipe pi);;
          ret (Some (f0, f1))
      end
  end.
