(* ===== verification/Lifecycle.v ===== *)
(** The life of a process (proc.c): [allocproc], [freeproc], [fork], [exit],
    [wait], [waitx], and the user page tables they set up.

    The trapframe of a process is a page of its own, addressed by the field
    offsets of struct trapframe. *)
From S2P Require Import Prelude State Spinlock Queue Boot Cstring Kalloc Vm Printf Proc Copyio.
From S2P Require Import Sleeplock Console Pipe Disk Bio Log Fs File.

(** ** struct trapframe (proc.h) *)
Definition tf_kernel_satp : Z := 0.
Definition tf_kernel_sp : Z := 8.
Definition tf_kernel_trap : Z := 16.
Definition tf_epc : Z := 24.
Definition tf_kernel_hartid : Z := 32.
Definition tf_sp : Z := 48.
Definition tf_a0 : Z := 112.
(** register [a<n>] *)
Definition tf_a (n : Z) : Z := tf_a0 + 8 * n.
Definition tf_size : Z := 288.

Definition tf_get (p : nat) (off : Z) : K Z := tf <- pget p p_trapframe;; load64 (tf + off).
Definition tf_set (p : nat) (off v : Z) : K unit := tf <- pget p p_trapframe;; store64 (tf + off) v.

(** [safestrcpy(dst, s, n)] on a name field: a string that fits is followed by
    two NULs, the copied one and the final one *)
Definition safestrcpy_l (old s : list Z) (n : nat) : list Z :=
  let c := cstr s in
  splice old 0 (if decide (length c < n - 1)%nat then c ++ [0; 0] else take (n - 1) c ++ [0]).

(** ** Page tables *)
Definition proc_mapstacks (kpgtbl : Z) : K unit :=
  mforall slots (fun i =>
    pa <- kalloc;;
    if pa =? 0 then panic "kalloc" else
    kvmmap kpgtbl (KSTACK i) pa PGSIZE (Z.lor PTE_R PTE_W)).

Definition proc_pagetable (p : nat) : K Z :=
  pagetable <- uvmcreate;;
  if pagetable =? 0 then ret 0 else
  tramp <- gets (fun s => m_trampoline (k_mm s));;
  r <- mappages pagetable TRAMPOLINE PGSIZE tramp (Z.lor PTE_R PTE_X);;
  if r <? 0 then uvmfree pagetable 0;; ret 0 else
  tf <- pget p p_trapframe;;
  r <- mappages pagetable TRAPFRAME PGSIZE tf (Z.lor PTE_R PTE_W);;
  if r <? 0 then
    uvmunmap pagetable TRAMPOLINE 1 false;;
    uvmfree pagetable 0;;
    ret 0
  else ret pagetable.

Definition proc_freepagetable (pagetable sz : Z) : K unit :=
  uvmunmap pagetable TRAMPOLINE 1 false;;
  uvmunmap pagetable TRAPFRAME 1 false;;
  uvmfree pagetable sz.

(** ** Allocation *)
Definition freeproc (p : nat) : K unit :=
  tf <- pget p p_trapframe;;
  when (istrue tf) (kfree tf);;
  pupd p (set_p_trapframe 0);;
  pt <- pget p p_pagetable;;
  sz <- pget p p_sz;;
  when (istrue pt) (proc_freepagetable pt sz);;
  pupd p (set_p_pagetable 0);;
  pupd p (set_p_sz 0);;
  pupd p (set_p_pid 0);;
  pupd p (set_p_parent None);;
  pupd p (fun x => set_p_name (<[0%nat := 0]> (p_name x)) x);;
  pupd p (set_p_chan CNull);;
  pupd p (set_p_killed 0);;
  pupd p (set_p_xstate 0);;
  pupd p (set_p_state UNUSED);;
  q <- pget p p_queue_number;;
  kdequeue p q.

(** the initialization of a slot after the label [found] *)
Definition allocproc_found (p : nat) : K (option nat) :=
  let fail : K (option nat) := freeproc p;; release (LProc p);; ret None in
  pid <- allocpid;;
  pupd p (set_p_pid pid);;
  pupd p (set_p_state USED);;
  tf <- kalloc;;
  pupd p (set_p_trapframe tf);;
  if tf =? 0 then fail else
  pt <- proc_pagetable p;;
  pupd p (set_p_pagetable pt);;
  if pt =? 0 then fail else
  pupd p (set_p_ticks 0);;
  pupd p (set_p_cur_ticks 0);;
  pupd p (set_p_alarm_tf 0);;
  pupd p (set_p_alarm_on 0);;
  pupd p (set_p_handler 0);;
  pupd p (set_p_queueticks 0);;
  par <- pget p p_parent;;
  (match par with
   | Some q => t <- pget q p_tickets;; pupd p (set_p_tickets t)
   | None => pupd p (set_p_tickets 1)
   end);;
  ra <- gets (fun s => m_forkret (k_mm s));;
  kstack <- pget p p_kstack;;
  pupd p (set_p_context (mkcontext ra (u64 (kstack + PGSIZE)) (replicate 12 0)));;
  pupd p (set_p_rtime 0);;
  pupd p (set_p_etime 0);;
  t <- gets (fun s => ps_ticks (k_ps s));;
  pupd p (set_p_ctime t);;
  pupd p (fun x => set_p_arrival_time (p_ctime x) x);;
  pupd p (set_p_syscall_count (replicate 32 0));;
  ret (Some p).

(** a fresh slot, its lock held; [None] for the null pointer *)
Definition allocproc : K (option nat) :=
  r <- mfor slots (fun p =>
    acquire (LProc p);;
    st <- pget p p_state;;
    if bool_decide (st = UNUSED) then ret (Some p)
    else release (LProc p);; ret None);;
  match r with
  | None => ret None
  | Some p => allocproc_found p
  end.

Definition initcode : list Z :=
  [0x17; 0x05; 0x00; 0x00; 0x13; 0x05; 0x45; 0x02;
   0x97; 0x05; 0x00; 0x00; 0x93; 0x85; 0x35; 0x02;
   0x93; 0x08; 0x70; 0x00; 0x73; 0x00; 0x00; 0x00;
   0x93; 0x08; 0x20; 0x00; 0x73; 0x00; 0x00; 0x00;
   0xef; 0xf0; 0x9f; 0xff; 0x2f; 0x69; 0x6e; 0x69;
   0x74; 0x00; 0x00; 0x24; 0x00; 0x00; 0x00; 0x00;
   0x00; 0x00; 0x00; 0x00].

Definition userinit : K unit :=
  r <- allocproc;;
  modify_ps (set_ps_initproc r);;
  match r with
  | None => fault "null process"
  | Some p =>
      pt <- pget p p_pagetable;;
      uvmfirst pt initcode;;
      pupd p (set_p_sz PGSIZE);;
      tf_set p tf_epc 0;;
      tf_set p tf_sp PGSIZE;;
      pupd p (fun x => set_p_name (safestrcpy_l (p_name x) (chars "initcode") 16) x);;
      cwd <- namei (chars "/");;
      pupd p (set_p_cwd cwd);;
      pupd p (set_p_state RUNNABLE);;
      pupd p (set_p_tickets 1);;
      printf "shell is ready to run
" [];;
      kenqueue p 0;;
      release (LProc p)
  end.

Definition growproc (n : Z) : K Z :=
  p <- curproc;;
  sz <- pget p p_sz;;
  pt <- pget p p_pagetable;;
  if 0 <? n then
    r <- uvmalloc pt sz (u64 (sz + n)) PTE_W;;
    if r =? 0 then ret (-1) else pupd p (set_p_sz r);; ret 0
  else if n <? 0 then
    r <- uvmdealloc pt sz (u64 (sz + n));;
    pupd p (set_p_sz r);; ret 0
  else pupd p (set_p_sz sz);; ret 0.

(** ** fork *)
Definition fork_files (p np : nat) : K unit :=
  mforall (seq 0 NOFILE) (fun i =>
    o <- pget p (fun x => mjoin (p_ofile x !! i));;
    match o with
    | Some f => f <- filedup f;; pupd np (fun x => set_p_ofile (<[i := Some f]> (p_ofile x)) x)
    | None => ret tt
    end).

Definition fork : K Z :=
  p <- curproc;;
  r <- allocproc;;
  match r with
  | None => ret (-1)
  | Some np =>
      old <- pget p p_pagetable;;
      new <- pget np p_pagetable;;
      sz <- pget p p_sz;;
      r <- uvmcopy old new sz;;
      if r <? 0 then freeproc np;; release (LProc np);; ret (-1) else
      sz <- pget p p_sz;;
      pupd np (set_p_sz sz);;
      ptf <- pget p p_trapframe;;
      ntf <- pget np p_trapframe;;
      mem_move ntf ptf tf_size;;
      tf_set np tf_a0 0;;
      fork_files p np;;
      cwd <- pget p p_cwd;;
      cwd <- match cwd with Some ip => idup ip | None => fault "null inode" end;;
      pupd np (set_p_cwd (Some cwd));;
      name <- pget p p_name;;
      pupd np (fun x => set_p_name (safestrcpy_l (p_name x) name 16) x);;
      pid <- pget np p_pid;;
      release (LProc np);;
      acquire LWait;;
      pupd np (set_p_parent (Some p));;
      release LWait;;
      acquire (LProc np);;
      pupd np (set_p_state RUNNABLE);;
      kenqueue np 0;;
      release (LProc np);;
      ret pid
  end.

(** ** exit *)
Definition exit_files (p : nat) : K unit :=
  mforall (seq 0 NOFILE) (fun fd =>
    o <- pget p (fun x => mjoin (p_ofile x !! fd));;
    match o with
    | Some f => fileclose f;; pupd p (fun x => set_p_ofile (<[fd := None]> (p_ofile x)) x)
    | None => ret tt
    end).

Definition exit (status : Z) : K unit :=
  p <- curproc;;
  init <- gets (fun s => ps_initproc (k_ps s));;
  if bool_decide (init = Some p) then panic "init exiting" else
  exit_files p;;
  begin_op;;
  cwd <- pget p p_cwd;;
  match cwd with Some ip => iput ip | None => fault "null inode" end;;
  end_op;;
  pupd p (set_p_cwd None);;
  acquire LWait;;
  reparent p;;
  par <- pget p p_parent;;
  wakeup (match par with Some q => CProc q | None => CNull end);;
  acquire (LProc p);;
  pupd p (set_p_xstate status);;
  pupd p (set_p_state ZOMBIE);;
  t <- gets (fun s => ps_ticks (k_ps s));;
  pupd p (set_p_etime t);;
  q <- pget p p_queue_number;;
  kdequeue p q;;
  release LWait;;
  sched;;
  panic "zombie exit".

(** ** wait *)

(** a 32-bit integer as the bytes [copyout] sends *)
Definition bytes32 (z : Z) : list Z := [u8 z; u8 (z / 2 ^ 8); u8 (z / 2 ^ 16); u8 (z / 2 ^ 24)].

(** [p->syscall_count[i] += pp->syscall_count[i]] for all 32 counters *)
Definition add_counts (a b : list Z) : list Z := zip_with (fun x y => s32 (x + y)) a b.

(** deliver the status of the zombie [pp] and free its slot *)
Definition reap (p pp : nat) (addr : Z) : K Z :=
  pid <- pget pp p_pid;;
  pt <- pget p p_pagetable;;
  xstate <- pget pp p_xstate;;
  bad <- (if istrue addr then r <- copyout pt addr (bytes32 xstate);; ret (r <? 0) else ret false);;
  if (bad : bool) then release (LProc pp);; release LWait;; ret (-1) else
  freeproc pp;;
  release (LProc pp);;
  release LWait;;
  ret pid.

(** one scan of the table: the result of a [return], or whether there were
    children *)
Definition wait_scan (p : nat) (addr : Z) : K (bool + Z) :=
  mfold slots false (fun havekids pp =>
    par <- pget pp p_parent;;
    if negb (bool_decide (par = Some p)) then ret (inl havekids) else
    acquire (LProc pp);;
    st <- pget pp p_state;;
    if bool_decide (st = ZOMBIE) then
      c <- pget pp p_syscall_count;;
      pupd p (fun x => set_p_syscall_count (add_counts (p_syscall_count x) c) x);;
      r <- reap p pp addr;;
      ret (inr r)
    else
      release (LProc pp);;
      ret (inl true)).

Definition wait (addr : Z) : K Z :=
  p <- curproc;;
  acquire LWait;;
  sleep_loop 0 tt (fun _ =>
    r <- wait_scan p addr;;
    match r with
    | inr v => ret (inr v)
    | inl havekids =>
        stop <- (if negb havekids then ret true else k <- killed p;; ret (istrue k));;
        if (stop : bool) then release LWait;; ret (inr (-1)) else
        sleep (CProc p) LWait;;
        ret (inl tt)
    end).

(** [waitx] also reports the waiting and running time of the child; the result
    is the return value with [*wtime] and [*rtime] where they were set *)
Definition waitx_scan (p : nat) (addr : Z) : K (bool + (Z * option (Z * Z))) :=
  mfold slots false (fun havekids np =>
    par <- pget np p_parent;;
    if negb (bool_decide (par = Some p)) then ret (inl havekids) else
    acquire (LProc np);;
    st <- pget np p_state;;
    if bool_decide (st = ZOMBIE) then
      rtime <- pget np p_rtime;;
      wtime <- pget np (fun x => u32 (p_etime x - p_ctime x - p_rtime x));;
      r <- reap p np addr;;
      ret (inr (r, Some (wtime, rtime)))
    else
      release (LProc np);;
      ret (inl true)).

Definition waitx (addr : Z) : K (Z * option (Z * Z)) :=
  p <- curproc;;
  acquire LWait;;
  sleep_loop 0 tt (fun _ =>
    r <- waitx_scan p addr;;
    match r with
    | inr v => ret (inr v)
    | inl havekids =>
        stop <- (if negb havekids then ret true else k <- pget p p_killed;; ret (istrue k));;
        if (stop : bool) then release LWait;; ret (inr (-1, None)) else
        sleep (CProc p) LWait;;
        ret (inl tt)
    end).

(** ** Trapframe accesses *)
Definition mm_st64 (a v : Z) (m : memory) : memory := set_m_bytes (st64 (m_bytes m) a v) m.

Section trapframe.
Context (p : nat) (x : proc) (e : list (kstate -> kstate)) (s : kstate).
Context (Hx : ps_proc (k_ps s) !! p = Some x).

Lemma wp_tf_set off v (Q : unit -> list (kstate -> kstate) -> kstate -> Prop) :
  in_ram (p_trapframe x + off) 8 = true ->
  Q tt e (set_k_mm (mm_st64 (p_trapframe x + off) v (k_mm s)) s) -> wp (tf_set p off v) e s Q.
Proof using Hx.
  intros Hr HQ. unfold tf_set. wp_step. eapply wp_pget; [done|]. unfold store64. by rewrite Hr.
Qed.
Lemma wp_tf_get off (Q : Z -> list (kstate -> kstate) -> kstate -> Prop) :
  in_ram (p_trapframe x + off) 8 = true ->
  Q (ld64 (m_bytes (k_mm s)) (p_trapframe x + off)) e s -> wp (tf_get p off) e s Q.
Proof using Hx.
  intros Hr HQ. unfold tf_get. wp_step. eapply wp_pget; [done|]. unfold load64. by rewrite Hr.
Qed.
End trapframe.
