(* ===== verification/Uproc.v ===== *)
(** The page tables of processes (proc.c: [proc_pagetable], [proc_freepagetable],
    [growproc]).

    The theorems on address spaces of Uvm.v and Ufree.v applied to a process: what
    [sbrk] does to its size and memory, what a new page table maps, and that freeing it
    returns every page. *)
From S2P Require Import Prelude State Spinlock Queue Boot Cstring Kalloc Vm Uspace Ptable Uvm Ufree Printf Proc Copyio.
From S2P Require Import Sleeplock Console Pipe Disk Bio Log Fs File Lifecycle.

(** ** growproc *)
Lemma mem_step_hwcrit s : mem_step s (set_k_hw (hw_crit (k_hw s)) s).
Proof.
  exists (m_bytes (k_mm s)), (m_freelist (k_mm s)), (hw_crit (k_hw s)). split; [by destruct s as [? ? [] ? ?] | apply hw_crit_eqv].
Qed.
Lemma mem_step_ps s s' : mem_step s s' -> k_ps s' = k_ps s /\ k_io s' = k_io s /\ k_fs s' = k_fs s.
Proof. by intros (b & f & h & -> & _). Qed.

(** the process [i] with size [sz], in the memory of [s1] *)
Definition resized (i : nat) (p : proc) (sz : Z) (s1 : kstate) : kstate := set_k_ps (upd_slot i (set_p_sz sz p) (k_ps s1)) s1.

(** the user addresses from [lo] to [hi] are the process's own and read as zero *)
Definition zero_memory (b : gmap Z Z) (pt lo hi : Z) (M : gmap Z Z) : Prop :=
  uspace b pt lo hi (user_pa M) /\ forall va, lo <= va < hi -> ldb b (phys (user_pa M) va) = 0.

Lemma grown_zero pt s l T M n0 n1 s' l' T' M' hi :
  grown pt (fun _ => user_perm PTE_W) (fun _ _ => 0) s l T M n0 n1 s' l' T' M' -> n1 * PGSIZE <= MAXVA -> hi <= n1 * PGSIZE ->
  zero_memory (m_bytes (k_mm s')) pt (n0 * PGSIZE) hi M'.
Proof.
  intros [G1 G2 G3 G4 G5 G6 G7] Hmax Hhi. split.
  - eapply uvm_uspace; [exact G2 | unfold PGSIZE; lia | lia | lia |]. intros v pte H1 H2 Hm. rewrite Z.div_mul in H1 by done.
    destruct (G4 (Z.to_nat v) ltac:(unfold PGSIZE in *; lia)) as (Hpl & p & Ep & Hp & _). rewrite Z2Nat.id in Ep by lia. rewrite Hm in Ep. injection Ep as ->.
    destruct (leaf_pte_fields p _ Hp Hpl) as (_ & _ & _ & Hf & _). unfold istrue. change PTE_U with (Z.land 0x3FF PTE_U). rewrite Z.land_assoc.
    fold (PTE_FLAGS (leaf_pte p (user_perm PTE_W))). by rewrite Hf.
  - intros va Hva. assert (Hpg : exists i : nat, (n0 <= i < n1)%nat /\ PGROUNDDOWN va = i * PGSIZE).
    { exists (Z.to_nat (va / PGSIZE)). rewrite PGROUNDDOWN_eq. pose proof (Z.div_mod va PGSIZE ltac:(done)). pose proof (Z.mod_pos_bound va PGSIZE ltac:(done)).
      assert (0 <= va / PGSIZE) by (apply Z.div_pos; [unfold PGSIZE in *; lia | done]). rewrite Z2Nat.id by done. unfold PGSIZE in *. lia. }
    destruct Hpg as (i & Hi & Epg). destruct (G4 i Hi) as (Hpl & p & Ep & Hp & Hf). pose proof (page_of va) as Hpo. unfold phys. rewrite Epg in *.
    unfold user_pa. rewrite vpn_page, Ep. change (default 0 (Some ?x)) with x. rewrite (proj1 (leaf_pte_fields p _ Hp Hpl)). apply (Hf (va - i * PGSIZE)). lia.
Qed.

Section growproc.
Context (i : nat) (p : proc) (n : Z) (e : list (kstate -> kstate)) (s : kstate) (l : list Z) (T : gmap pkey Z) (M : gmap Z Z).
Let sz := p_sz p.
Let pt := p_pagetable p.
Context (Hok : hart_ok 1 (k_hw s)) (Hlk : lock_free (k_hw s) LKmem) (Hcur : cur_is (k_hw s) i) (Hp : ps_proc (k_ps s) !! i = Some p).
Context (Hsz : 0 <= sz) (Hn : - 2 ^ 31 <= n < 2 ^ 31) (Hmax : sz <= TRAPFRAME) (Hmax' : sz + n <= TRAPFRAME) (Hu : uvm (k_mm s) l pt T M (pgs sz)).
Context (Hfree : forall v, pgs sz <= v < vpn TRAPFRAME -> M !! v = None).

(** what [growproc] leaves *)
Definition grow_result (r : Z) (s' : kstate) : Prop :=
  exists s1, mem_step s s1 /\
  if 0 <? n then
    (r = 0 /\ s' = resized i p (sz + n) s1 /\ exists l' T' M', uvm (k_mm s1) l' pt T' M' (pgs (sz + n)) /\
       (forall v, v < pgs sz \/ pgs (sz + n) <= v -> M' !! v = M !! v) /\
       (forall k : nat, (pgs sz <= k < pgs (sz + n))%nat -> exists pg, M' !! Z.of_nat k = Some (leaf_pte pg (user_perm PTE_W))) /\
       zero_memory (m_bytes (k_mm s1)) pt (PGROUNDUP sz) (PGROUNDUP (sz + n)) M' /\
       same_off (l ++ tables T) (m_bytes (k_mm s)) (m_bytes (k_mm s1)) /\
       range_pas M' (pgs sz) (pgs (sz + n) - pgs sz) ++ l' ++ tables T' ≡ₚ l ++ tables T) \/
    (r = -1 /\ s' = s1 /\ (length l < 3 * (pgs (sz + n) - pgs sz))%nat /\ undone s l pt T M (pgs sz) s1)
  else if sz + n <? 0 then r = 0 /\ s' = resized i p sz s1 /\ k_mm s1 = k_mm s
  else r = 0 /\ s' = resized i p (sz + n) s1 /\
    let gone := range_pas M (pgs (sz + n)) (pgs sz - pgs (sz + n)) in
    uvm (k_mm s1) (rev gone ++ l) pt T (unmap_range M (pgs (sz + n)) (pgs sz - pgs (sz + n))) (pgs (sz + n)) /\
    same_off (gone ++ tables T) (m_bytes (k_mm s)) (m_bytes (k_mm s1)).

Lemma trapframe_max : TRAPFRAME = 2 ^ 38 - 2 * 4096 /\ TRAPFRAME <= MAXVA /\ vpn TRAPFRAME = 2 ^ 26 - 2.
Proof using. by split_and!. Qed.

Lemma wp_growproc (Q : Z -> list (kstate -> kstate) -> kstate -> Prop) :
  (forall r s', grow_result r s' -> Q r e s') -> wp (growproc n) e s Q.
Proof using All.
  intros HQ. destruct trapframe_max as (ET & ET1 & ET2). unfold growproc. wp_step. eapply wp_curproc; [done | exact Hcur |]. set (s0 := set_k_hw _ s).
  assert (Hm0 : mem_step s s0) by apply mem_step_hwcrit. assert (Hh0 : k_hw s0 ≈h k_hw s) by apply hw_crit_eqv.
  wp_step. eapply wp_pget; [exact Hp|]. wp_step. eapply wp_pget; [exact Hp|]. fold sz pt.
  assert (Hset : forall s1 v (Q' : unit -> list (kstate -> kstate) -> kstate -> Prop), mem_step s s1 -> Q' tt e (resized i p v s1) -> wp (pupd i (set_p_sz v)) e s1 Q').
  { intros s1 v Q' Hm HQ'. eapply (wp_pupd i p); [|exact HQ']. destruct (mem_step_ps _ _ Hm) as (-> & _). done. }
  destruct (Z.ltb_spec 0 n) as [Hpos|Hneg].
  - rewrite u64_small by lia. destruct (pgs_bounds (sz + n) ltac:(lia)) as (E1 & B1 & B1'). destruct (pgs_bounds sz ltac:(lia)) as (E0 & B0 & _).
    wp_step. eapply (wp_uvmalloc (k_hw s) Hok Hlk pt e s0 l T M sz (sz + n) PTE_W); [exact Hh0 | exact Hu | lia | lia | done | | |].
    + intros k Hk. apply Hfree. rewrite ET2. unfold PGSIZE in *. lia.
    + intros s1 l1 T1 M1 G. replace (sz + n =? 0) with false by lia. wp_step. assert (Hm1 : mem_step s s1) by (eapply mem_step_trans; [exact Hm0 | apply G]).
      apply Hset; [done|]. wp_step. apply HQ. exists s1. split; [done|]. replace (0 <? n) with true by lia. left. split_and!; [done | done |].
      exists l1, T1, M1. pose proof (grown_zero _ _ _ _ _ _ _ _ _ _ _ _ G B1' ltac:(reflexivity)) as Hz. destruct G as [G1 G2 G3 G4 G5 G6 G7].
      rewrite E0, E1. split_and!; try done. intros k Hk. destruct (G4 k Hk) as (_ & pg & Epg & _). by exists pg.
    + intros s1 Hun Hc. change (0 =? 0) with true. cbv iota. wp_step. apply HQ. assert (Hm1 : mem_step s s1).
      { destruct Hun as (l1 & T1 & H1 & _). by eapply mem_step_trans. }
      exists s1. split; [done|]. replace (0 <? n) with true by lia. right. split_and!; [done | done | done |].
      destruct Hun as (l1 & T1 & H1 & H2). exists l1, T1. split; [done | exact H2].
  - destruct (Z.ltb_spec n 0) as [Hlt|Hge].
    + wp_step. destruct (Z.ltb_spec (sz + n) 0) as [Hw|Hw].
      * assert (Eu : u64 (sz + n) = sz + n + 2 ^ 64) by (unfold u64; symmetry; apply (Z.mod_unique _ _ (-1)); lia).
        unfold uvmdealloc. rewrite Eu. replace (sz <=? sz + n + 2 ^ 64) with true by lia. wp_step. wp_step. apply Hset; [done|]. wp_step. apply HQ.
        exists s0. split; [done|]. replace (0 <? n) with false by lia. replace (sz + n <? 0) with true by lia. done.
      * rewrite u64_small by lia. eapply (wp_uvmdealloc (k_hw s) Hok Hlk pt e sz (sz + n) s0 l T M); [exact Hh0 | lia | lia | exact Hu |].
        intros s1 Hm1 Hu1 Hs1. assert (Hm : mem_step s s1) by (by eapply mem_step_trans). wp_step. apply Hset; [done|]. wp_step. apply HQ.
        exists s1. split; [done|]. replace (0 <? n) with false by lia. replace (sz + n <? 0) with false by lia. split_and!; done.
    + assert (n = 0) as E0 by lia. wp_step. apply Hset; [done|]. wp_step. apply HQ. exists s0. split; [done|].
      rewrite E0, Z.add_0_r. change (0 <? 0) with false. replace (sz <? 0) with false by lia. cbv iota. rewrite Nat.sub_diag. split_and!; [done | done | split; [exact Hu | apply same_off_refl]].
Qed.
End growproc.

(** ** proc_freepagetable *)
Section free.
Context (h : hwstate) (Hok : hart_ok 1 h) (Hlk : lock_free h LKmem) (e : list (kstate -> kstate)).

(** an entry is cleared, its page staying where it is *)
Lemma wp_unmap_one pt va s l T M (Q : unit -> list (kstate -> kstate) -> kstate -> Prop) :
  k_hw s ≈h h -> va mod PGSIZE = 0 -> 0 <= va -> va + PGSIZE <= MAXVA -> pworld (k_mm s) l pt T M -> is_Some (M !! vpn va) ->
  (forall s', mem_step s s' -> pworld (k_mm s') l pt T (delete (vpn va) M) -> same_off (tables T) (m_bytes (k_mm s)) (m_bytes (k_mm s')) -> Q tt e s') ->
  wp (uvmunmap pt va 1 false) e s Q.
Proof using Hok Hlk.
  intros Hh Hal H0 Hmax Hw Hm HQ. eapply (wp_uvmunmap h Hok Hlk pt M e va 1 false s l T); [done | done | unfold PGSIZE in *; lia | done | done | | done |].
  - intros i Hi. replace (vpn va + i) with (vpn va) by lia. done.
  - intros s' (Hm' & W' & O'). unfold freed in W'. cbn [unmap_range app] in *. rewrite Z.add_0_r in W'. by apply HQ.
Qed.

(** the page numbers above the memory of a process *)
Definition tops : list Z := [vpn TRAMPOLINE; vpn TRAPFRAME].
Lemma tops_eq : tops = [2 ^ 26 - 1; 2 ^ 26 - 2].
Proof using. done. Qed.

Lemma wp_proc_freepagetable pt sz s l T M (Q : unit -> list (kstate -> kstate) -> kstate -> Prop) :
  k_hw s ≈h h -> 0 <= sz <= TRAPFRAME -> uvm (k_mm s) l pt T M (pgs sz) ->
  is_Some (M !! vpn TRAMPOLINE) -> is_Some (M !! vpn TRAPFRAME) -> (forall v, v < 0 \/ pgs sz <= v -> v ∉ tops -> M !! v = None) ->
  (forall s' l', mem_step s s' -> free_list (k_mm s') l' -> l' ≡ₚ range_pas M 0 (pgs sz) ++ l ++ tables T ->
     same_off (range_pas M 0 (pgs sz) ++ tables T) (m_bytes (k_mm s)) (m_bytes (k_mm s')) -> Q tt e s') ->
  wp (proc_freepagetable pt sz) e s Q.
Proof using All.
  intros Hh Hsz [W Hmap Hpo Hnd] Htr Htf Hdom HQ. destruct trapframe_max as (ET & ET1 & ET2). unfold proc_freepagetable.
  destruct (pgs_bounds sz ltac:(lia)) as (_ & B & _). pose proof tops_eq as Etops. assert (Etr : vpn TRAMPOLINE = 2 ^ 26 - 1) by done.
  wp_step. eapply wp_unmap_one; [done | done | done | done | exact W | done |]. intros s1 Hm1 W1 O1.
  wp_step. eapply wp_unmap_one; [by eapply mem_step_hw | done | done | done | exact W1 | by rewrite lookup_delete_ne by (rewrite Etr, ET2; lia) |]. intros s2 Hm2 W2 O2.
  assert (Hm : mem_step s s2) by (by eapply mem_step_trans). set (M2 := delete _ (delete _ M)) in *.
  assert (Hlow : forall v, v < 2 ^ 26 - 2 -> M2 !! v = M !! v) by (intros v Hv; unfold M2; rewrite ET2, Etr, !lookup_delete_ne by lia; done).
  assert (Er : range_pas M2 0 (pgs sz) = range_pas M 0 (pgs sz)) by (apply range_pas_ext; intros i Hi; apply Hlow; unfold PGSIZE in *; lia).
  eapply (wp_uvmfree h Hok Hlk e pt sz s2 l T M2); [by eapply mem_step_hw | lia | | |].
  - constructor; rewrite ?Er; try done; [|by rewrite (mem_step_end _ _ Hm)]. intros i Hi. rewrite Hlow by (unfold PGSIZE in *; lia). by apply Hmap.
  - intros v Hv. destruct (decide (v ∈ tops)) as [Hin|Hin].
    + rewrite Etops in Hin. unfold M2. rewrite ET2, Etr. apply elem_of_cons in Hin as [->|Hin]; [by rewrite lookup_delete_ne, lookup_delete_eq by lia|].
      apply list_elem_of_singleton in Hin as ->. by rewrite lookup_delete_eq.
    + unfold M2. rewrite !lookup_delete_None. right. right. by apply Hdom.
  - intros s3 l3 Hm3 Hf3 Hp3 O3. rewrite Er in *. eapply HQ; [by eapply mem_step_trans | done | done |].
    eapply same_off_trans; [|exact O3]. eapply same_off_trans; eapply same_off_mono; [|exact O1| |exact O2]; set_solver.
Qed.
End free.

(** ** proc_pagetable *)
Lemma pworld_root m p l : free_list m (p :: l) ->
  let b := memset (m_bytes (mm_alloc p m)) p 0 (Z.to_nat PGSIZE) in
  pworld (set_m_bytes b (mm_alloc p m)) l p (root_only p) ∅ /\ same_off [p] (m_bytes m) b.
Proof.
  intros Hf b. pose proof Hf as (He & Hnd & Hok & _). pose proof Hok as Hok'. apply NoDup_cons in Hnd as [Hni Hnd]. apply Forall_cons in Hok as [Hp Hok].
  assert (Et : tables (root_only p) = [p]) by (unfold tables, root_only; by rewrite map_to_list_singleton).
  split; [constructor|].
  - eapply (free_list_off _ _ _ [p]); [by apply free_list_alloc | apply same_off_memset; set_solver | by apply Forall_singleton | set_solver].
  - constructor.
    + apply lookup_singleton_eq.
    + intros lv k q Hx. unfold root_only in Hx. apply lookup_singleton_Some in Hx as [[= <- <-] _]. by right.
    + intros lv k q j Hx Hj. unfold root_only in Hx. apply lookup_singleton_Some in Hx as [[= <- <-] <-]. cbn [m_bytes set_m_bytes]. unfold b. rewrite ld64_zeroed by (unfold PGSIZE; lia).
      unfold slot. change (2 =? 0) with false. cbv iota. unfold root_only. rewrite lookup_singleton_ne; [done|]. intros [=].
    + intros v pte Hv. by rewrite lookup_empty in Hv.
  - rewrite Et. apply Forall_app. split; [done | by apply Forall_singleton].
  - rewrite Et. apply NoDup_app. split_and!; [done | set_solver | apply NoDup_singleton].
  - eapply (same_off_trans _ _ (m_bytes (mm_alloc p m))); apply same_off_memset; set_solver.
Qed.

Section create.
Context (h : hwstate) (Hok : hart_ok 1 h) (Hlk : lock_free h LKmem) (e : list (kstate -> kstate)).
Context (i : nat) (p : proc) (s : kstate) (l : list Z).
Let tramp := m_trampoline (k_mm s).
Let tf := p_trapframe p.
Context (Hh : k_hw s ≈h h) (Hfl : free_list (k_mm s) l) (Hp : ps_proc (k_ps s) !! i = Some p).
Context (Htramp : phys_page tramp) (Htramp' : tramp + PGSIZE <= 2 ^ 54) (Htf : phys_page tf) (Htf' : tf + PGSIZE <= 2 ^ 54).

(** what every process maps above its memory *)
Definition top_map : gmap Z Z :=
  <[vpn TRAPFRAME := leaf_pte tf (Z.lor PTE_R PTE_W)]> {[vpn TRAMPOLINE := leaf_pte tramp (Z.lor PTE_R PTE_X)]}.

(** a table that was given up *)
Lemma wp_give_up pt s1 l1 T1 (Q : Z -> list (kstate -> kstate) -> kstate -> Prop) :
  mem_step s s1 -> pworld (k_mm s1) l1 pt T1 ∅ -> l1 ++ tables T1 ≡ₚ l -> same_off l (m_bytes (k_mm s)) (m_bytes (k_mm s1)) ->
  (forall s' l', mem_step s s' -> free_list (k_mm s') l' -> l' ≡ₚ l -> same_off l (m_bytes (k_mm s)) (m_bytes (k_mm s')) -> Q 0 e s') ->
  wp (uvmfree pt 0;; ret 0) e s1 Q.
Proof using Hok Hlk Hh p.
  intros Hm1 W1 P1 O1 HN. wp_step. eapply (wp_uvmfree h Hok Hlk e pt 0 s1 l1 T1 ∅); [by eapply mem_step_hw | done | | |].
  - constructor; [done | change (pgs 0) with 0%nat; intros k Hk; lia | change (pgs 0) with 0%nat; constructor | apply (pw_nodup _ _ _ _ _ W1)].
  - intros v _. apply lookup_empty.
  - change (pgs 0) with 0%nat. intros s2 l2 Hm2 Hf2 P2 O2. wp_step. eapply (HN s2 l2); [by eapply mem_step_trans | done | by rewrite P2 |].
    eapply same_off_trans; [exact O1|]. eapply same_off_mono; [|exact O2]. intros x Hx. rewrite <- P1, elem_of_app. right. exact Hx.
Qed.

Lemma wp_proc_pagetable (Q : Z -> list (kstate -> kstate) -> kstate -> Prop) :
  (forall s' l' pt T, mem_step s s' -> uvm (k_mm s') l' pt T top_map 0 -> l' ++ tables T ≡ₚ l -> pt <> 0 -> (length l <= length l' + 5)%nat ->
     same_off l (m_bytes (k_mm s)) (m_bytes (k_mm s')) -> Q pt e s') ->
  (forall s' l', mem_step s s' -> free_list (k_mm s') l' -> l' ≡ₚ l -> (length l < 5)%nat ->
     same_off l (m_bytes (k_mm s)) (m_bytes (k_mm s')) -> Q 0 e s') ->
  wp (proc_pagetable i) e s Q.
Proof using All.
  intros HQ HN. unfold proc_pagetable, uvmcreate. pose proof Hh as Hh'. symmetry in Hh'. wp_step. wp_step.
  eapply (wp_kalloc s e l); [by eapply hart_ok_eqv | by eapply lock_free_eqv | done |]. destruct l as [|pt l0] eqn:El.
  { change (0 =? 0) with true. cbv iota. wp_steps. apply (HN _ []); [apply mem_step_hwcrit | done | done | cbn; lia | apply same_off_refl]. }
  rewrite <- El in *. pose proof (pworld_root (k_mm s) pt l0 ltac:(by rewrite <- El)) as [W1 O1]. pose proof Hfl as (He & _ & Hok1 & _). rewrite El in Hok1. apply Forall_cons in Hok1 as [Hpk _].
  destruct (page_in_ram _ _ He Hpk) as (Hr & _ & Hz). replace (pt =? 0) with false by lia. unfold mem_set, modify_bytes, modify_mm. rewrite Hr. wp_steps.
  replace (pt =? 0) with false by lia. wp_steps. match goal with |- context [wp _ _ ?x _] => set (s1 := x) end.
  assert (Hm1 : mem_step s s1) by (eexists _, _, _; split; [reflexivity | apply hw_crit_eqv]).
  assert (Et : tables (root_only pt) = [pt]) by (unfold tables, root_only; by rewrite map_to_list_singleton).
  assert (Hgrow : forall s2 l2 T2 s', mem_step s s' -> same_off l (m_bytes (k_mm s)) (m_bytes (k_mm s')) -> forall l' T', l' ++ tables T' ≡ₚ l -> grew s' l' T' s2 l2 T2 ->
    mem_step s s2 /\ l2 ++ tables T2 ≡ₚ l /\ same_off l (m_bytes (k_mm s)) (m_bytes (k_mm s2))).
  { intros s2 l2 T2 s' Hm' O' l' T' P' (Hm2 & u & -> & P2 & S2 & O2). split_and!; [by eapply mem_step_trans | rewrite P2, <- P'; solve_Permutation |].
    eapply same_off_trans; [exact O'|]. eapply same_off_mono; [|exact O2]. intros x Hx. rewrite <- P'. set_solver. }
  assert (P1 : l0 ++ tables (root_only pt) ≡ₚ l) by (rewrite Et, El; by rewrite Permutation_app_comm).
  assert (O1' : same_off l (m_bytes (k_mm s)) (m_bytes (k_mm s1))) by (eapply same_off_mono; [|exact O1]; rewrite El; set_solver).
  assert (Hh1 : k_hw s1 ≈h h) by (by eapply mem_step_hw). assert (Etr : m_trampoline (k_mm s1) = tramp) by done.
  eapply (wp_map_page h pt ∅ e TRAMPOLINE tramp (Z.lor PTE_R PTE_X) s1 l0 (root_only pt)); try done.
  - intros s2 l2 T2 G2 W2 C2. destruct (Hgrow _ _ _ _ Hm1 O1' _ _ P1 G2) as (Hm2 & P2 & O2). change (0 <? 0) with false. cbv iota. wp_step.
    eapply wp_pget; [destruct (mem_step_ps _ _ Hm2) as (-> & _); exact Hp|]. fold tf. wp_step.
    eapply (wp_map_page h pt _ e TRAPFRAME tf (Z.lor PTE_R PTE_W) s2 l2 T2); try done; [by eapply mem_step_hw | |].
    + intros s3 l3 T3 G3 W3 C3. destruct (Hgrow _ _ _ _ Hm2 O2 _ _ P2 G3) as (Hm3 & P3 & O3). change (0 <? 0) with false. cbv iota. wp_step.
      apply (HQ s3 l3 pt T3); try done; [|rewrite El; cbn; lia]. constructor; [exact W3 | intros k Hk; lia | constructor | apply (pw_nodup _ _ _ _ _ W3)].
    + intros s3 T3 G3 W3 C3. destruct (Hgrow _ _ _ _ Hm2 O2 _ _ P2 G3) as (Hm3 & P3 & O3). change (-1 <? 0) with true. cbv iota. wp_step.
      eapply (wp_unmap_one h Hok Hlk e pt TRAMPOLINE s3 [] T3); [by eapply mem_step_hw | done | done | done | exact W3 | by rewrite lookup_insert_eq |].
      intros s4 Hm4 W4 O4. rewrite delete_insert_eq, delete_empty in W4. eapply (wp_give_up pt s4 [] T3); [by eapply mem_step_trans | done | done | |].
      * eapply same_off_trans; [exact O3|]. eapply same_off_mono; [|exact O4]. intros x Hx. rewrite <- P3. set_solver.
      * intros s' l' A1 A2 A3 A4. apply (HN s' l'); try done. rewrite El. cbn. lia.
  - intros s2 T2 G2 W2 C2. destruct (Hgrow _ _ _ _ Hm1 O1' _ _ P1 G2) as (Hm2 & P2 & O2). change (-1 <? 0) with true. cbv iota.
    eapply (wp_give_up pt s2 [] T2); try done. intros s' l' A1 A2 A3 A4. apply (HN s' l'); try done. rewrite El. cbn. lia.
Qed.
End create.

(** ** Theorems *)

(** C15: [growproc], which is [sbrk].  With a size of [sz] and a change of [n], and the
    address space of the process within bounds: growing either succeeds, and then the size
    is [sz + n], the memory from the old end on belongs to the user and reads as zero and
    all the rest is as it was, or returns -1 with the size and the address space
    unchanged, which takes fewer than three free pages for each page asked for; shrinking
    unmaps exactly the pages past the new end and frees them; and a shrink by more than
    the size is ignored, since the new size wraps around.  No page is lost in any case. *)
Theorem growproc_spec i p n e s l T M :
  hart_ok 1 (k_hw s) -> lock_free (k_hw s) LKmem -> cur_is (k_hw s) i -> ps_proc (k_ps s) !! i = Some p ->
  0 <= p_sz p -> - 2 ^ 31 <= n < 2 ^ 31 -> p_sz p <= TRAPFRAME -> p_sz p + n <= TRAPFRAME ->
  uvm (k_mm s) l (p_pagetable p) T M (pgs (p_sz p)) -> (forall v, pgs (p_sz p) <= v < vpn TRAPFRAME -> M !! v = None) ->
  exists r s', growproc n e s = Ret r e s' /\ grow_result i p n s l T M r s'.
Proof.
  intros H1 H2 H3 H4 H5 H6 H7 H8 H9 H10. apply wp_run. eapply wp_growproc; try done.
Qed.

(** Freeing the page table of a process gives back every page it holds.
    [proc_freepagetable] unmaps the trampoline and trapframe without freeing them, frees the
    memory of the process and then all tables, [freewalk] going through the three
    levels; it ends without a panic, and the free list then holds exactly the pages that
    were free, those of the process and those of the tables, each once. *)
Lemma proc_freepagetable_all pt sz e s l T M :
  hart_ok 1 (k_hw s) -> lock_free (k_hw s) LKmem -> 0 <= sz <= TRAPFRAME -> uvm (k_mm s) l pt T M (pgs sz) ->
  is_Some (M !! vpn TRAMPOLINE) -> is_Some (M !! vpn TRAPFRAME) -> (forall v, v < 0 \/ pgs sz <= v -> v ∉ tops -> M !! v = None) ->
  exists s' l', proc_freepagetable pt sz e s = Ret tt e s' /\ mem_step s s' /\ free_list (k_mm s') l' /\
    l' ≡ₚ range_pas M 0 (pgs sz) ++ l ++ tables T /\
    same_off (range_pas M 0 (pgs sz) ++ tables T) (m_bytes (k_mm s)) (m_bytes (k_mm s')).
Proof.
  intros H1 H2 H3 H4 H5 H6 H7.
  assert (wp (proc_freepagetable pt sz) e s (fun _ e' s' => e' = e /\ exists l', mem_step s s' /\ free_list (k_mm s') l' /\
    l' ≡ₚ range_pas M 0 (pgs sz) ++ l ++ tables T /\ same_off (range_pas M 0 (pgs sz) ++ tables T) (m_bytes (k_mm s)) (m_bytes (k_mm s')))) as H.
  { eapply (wp_proc_freepagetable (k_hw s)); try done. intros s' l' A1 A2 A3 A4. split; [done|]. exists l'. done. }
  apply wp_run_tt in H as (s' & E & l' & H). eauto.
Qed.

(** A page table that is made and freed leaves the free pages as they were.
    [proc_pagetable] fails only when fewer than five pages are free, and then keeps
    none; otherwise it maps the trampoline and the trapframe of the process and nothing
    else, with the permissions of the code, and [proc_freepagetable] of it returns all
    its pages. *)
Lemma pagetable_roundtrip i p e s l :
  hart_ok 1 (k_hw s) -> lock_free (k_hw s) LKmem -> free_list (k_mm s) l -> ps_proc (k_ps s) !! i = Some p ->
  phys_page (m_trampoline (k_mm s)) -> m_trampoline (k_mm s) + PGSIZE <= 2 ^ 54 -> phys_page (p_trapframe p) -> p_trapframe p + PGSIZE <= 2 ^ 54 ->
  exists pt s1, proc_pagetable i e s = Ret pt e s1 /\ mem_step s s1 /\
    ((pt = 0 /\ (length l < 5)%nat /\ exists l', free_list (k_mm s1) l' /\ l' ≡ₚ l) \/
     (exists l1 T, uvm (k_mm s1) l1 pt T (top_map p s) 0 /\ l1 ++ tables T ≡ₚ l /\
        exists s2 l2, proc_freepagetable pt 0 e s1 = Ret tt e s2 /\ free_list (k_mm s2) l2 /\ l2 ≡ₚ l)).
Proof.
  intros H1 H2 H3 H4 H5 H6 H7 H8. apply wp_run. eapply (wp_proc_pagetable (k_hw s)); try done.
  - intros s1 l1 pt T A1 A2 A3 A4 _ A5. split; [done|]. split; [done|]. right. exists l1, T. split_and!; [done | done |].
    assert (wp (proc_freepagetable pt 0) e s1 (fun _ e' s' => e' = e /\ exists l', free_list (k_mm s') l' /\ l' ≡ₚ l)) as H.
    { eapply (wp_proc_freepagetable (k_hw s) H1 H2 e pt 0 s1 l1 T (top_map p s)); [by eapply mem_step_hw | done | exact A2 | | | |].
      - unfold top_map. rewrite lookup_insert_ne by done. rewrite lookup_singleton_eq. done.
      - unfold top_map. rewrite lookup_insert_eq. done.
      - intros v _ Hv. unfold top_map. rewrite lookup_insert_ne, lookup_singleton_ne; [done | |]; intros <-; apply Hv; unfold tops; set_solver.
      - intros s2 l2 B1 B2 B3 _. split; [done|]. exists l2. split; [done|]. by rewrite B3. }
    apply wp_run_tt in H as (s2 & E & l2 & B1 & B2). eauto 10.
  - intros s1 l1 A1 A2 A3 A4 A5. split; [done|]. split; [done|]. left. eauto.
Qed.

(** ** Witnesses *)

(** the machine of Uvm.v with its parent process running *)
Definition grow_proc : proc :=
  set_p_trapframe 0x80025000 (set_p_sz 0x1800 (set_p_pagetable 0x80030000 (demo_proc 0 RUNNING CNull 1 0 None))).
Definition grow_demo : kstate := set_k_mm (k_mm copy_demo) (set_k_ps (set_ps_proc (<[0%nat := grow_proc]> demo_table) ps1) demo).

Lemma growproc_spec_witness : exists s', growproc 0x1000 [] grow_demo = Ret 0 [] s' /\ grow_result 0 grow_proc 0x1000 grow_demo copy_free copy_tables copy_map 0 s'.
Proof.
  destruct (growproc_spec 0 grow_proc 0x1000 [] grow_demo copy_free copy_tables copy_map) as (r & s' & E & H).
  - by apply hw1_hart.
  - by apply hw1_lock.
  - reflexivity.
  - reflexivity.
  - done.
  - done.
  - done.
  - done.
  - exact copy_demo_old.
  - change (pgs (p_sz grow_proc)) with 2%nat. intros v Hv. unfold copy_map. rewrite !lookup_insert_ne, lookup_singleton_ne by lia. done.
  - exists s'. assert (r = 0) as ->; [|split; [exact E | exact H]].
    destruct H as (s1 & _ & H). cbn [Z.ltb] in H. destruct H as [H|H]; [by destruct H|]. destruct H as (_ & _ & H & _). vm_compute in H. lia.
Defined.

(** the same page table with the trampoline and the trapframe mapped *)
Definition full_tables : gmap pkey Z := <[(1, 255) := 0x80033000]> (<[(0, 131071) := 0x80034000]> copy_tables).
Definition full_map : gmap Z Z :=
  <[vpn TRAMPOLINE := leaf_pte 0x80007000 (Z.lor PTE_R PTE_X)]> (<[vpn TRAPFRAME := leaf_pte 0x80025000 (Z.lor PTE_R PTE_W)]> copy_map).
Definition full_mem : gmap Z Z :=
  st64 (st64 (st64 (st64 (m_bytes (k_mm copy_demo)) (0x80030000 + 8 * 255) (table_pte 0x80033000)) (0x80033000 + 8 * 511) (table_pte 0x80034000))
    (0x80034000 + 8 * 511) (leaf_pte 0x80007000 (Z.lor PTE_R PTE_X))) (0x80034000 + 8 * 510) (leaf_pte 0x80025000 (Z.lor PTE_R PTE_W)).
Definition full_demo : kstate := set_k_mm (set_m_bytes full_mem (k_mm copy_demo)) boot.
Lemma full_demo_uvm : uvm (k_mm full_demo) copy_free 0x80030000 full_tables full_map 2.
Proof.
  constructor; [constructor | | |].
  - split_and!; [done | refine (bool_decide_eq_true_1 _ _); vm_compute; reflexivity | refine (bool_decide_eq_true_1 _ _); vm_compute; reflexivity | vm_compute; intuition].
  - apply ptableb_sound. vm_compute. reflexivity.
  - refine (bool_decide_eq_true_1 _ _); vm_compute; reflexivity.
  - refine (bool_decide_eq_true_1 _ _). vm_compute. reflexivity.
  - intros i Hi. destruct i as [|[|i]]; [vm_compute; eauto..|lia].
  - refine (bool_decide_eq_true_1 _ _); vm_compute; reflexivity.
  - refine (bool_decide_eq_true_1 _ _). vm_compute. reflexivity.
Qed.
Lemma proc_freepagetable_all_witness :
  exists s' l', proc_freepagetable 0x80030000 0x1800 [] full_demo = Ret tt [] s' /\ free_list (k_mm s') l' /\
    l' ≡ₚ [0x80040000; 0x80050000] ++ copy_free ++ [0x80030000; 0x80031000; 0x80032000; 0x80033000; 0x80034000].
Proof.
  destruct (proc_freepagetable_all 0x80030000 0x1800 [] full_demo copy_free full_tables full_map) as (s' & l' & E & _ & Hf & Hp & _).
  - by apply boot_hart.
  - by apply boot_lock.
  - done.
  - exact full_demo_uvm.
  - vm_compute. eauto.
  - vm_compute. eauto.
  - change (pgs 0x1800) with 2%nat. intros v Hv Hn. unfold full_map, copy_map.
    rewrite !lookup_insert_ne, lookup_singleton_ne; [done | lia | lia | |]; intros <-; apply Hn; unfold tops; set_solver.
  - exists s', l'. split_and!; [exact E | exact Hf |]. rewrite Hp. refine (bool_decide_eq_true_1 _ _). vm_compute. reflexivity.
Defined.

Lemma pagetable_roundtrip_witness : exists pt s1 s2 l2, proc_pagetable 0 [] grow_demo = Ret pt [] s1 /\
  proc_freepagetable pt 0 [] s1 = Ret tt [] s2 /\ free_list (k_mm s2) l2 /\ l2 ≡ₚ copy_free.
Proof.
  destruct (pagetable_roundtrip 0 grow_proc [] grow_demo copy_free) as (pt & s1 & E1 & _ & H).
  - by apply hw1_hart.
  - by apply hw1_lock.
  - exact copy_demo_free.
  - reflexivity.
  - done.
  - done.
  - done.
  - done.
  - exists pt, s1. destruct H as [(_ & H & _)|(l1 & T & _ & _ & s2 & l2 & E2 & Hf & Hp)]; [vm_compute in H; lia|].
    exists s2, l2. split; [exact E1|]. split; [exact E2|]. split; [exact Hf | exact Hp].
Defined.
