(* ===== verification/Reap.v ===== *)
(** The end of a process (proc.c: [freeproc], [wait]).

    A zombie's parent collects its status and its system-call counts; its slot becomes
    free and its memory goes back to the free list. *)
From S2P Require Import Prelude State Spinlock Queue Boot Cstring Kalloc Vm Uspace Ptable Uvm Ufree Printf Proc Copyio.
From S2P Require Import Sleeplock Console Pipe Disk Bio Log Fs File Lifecycle Uproc.

(** ** freeproc *)

(** the slot of a process that is gone *)
Definition gone_slot (x : proc) : proc :=
  set_p_state UNUSED (set_p_xstate 0 (set_p_killed 0 (set_p_chan CNull (set_p_name (<[0%nat := 0]> (p_name x))
    (set_p_parent None (set_p_pid 0 (set_p_sz 0 (set_p_pagetable 0 (set_p_trapframe 0 x))))))))).

(** the memory of the process [x]: its trapframe, its page table with the trampoline and
    the trapframe at the top, and its pages *)
Record owns (m : memory) (l : list Z) (T : gmap pkey Z) (M : gmap Z Z) (x : proc) : Prop := {
  ow_size : 0 <= p_sz x <= TRAPFRAME;
  ow_uvm : uvm m l (p_pagetable x) T M (pgs (p_sz x));
  ow_tramp : is_Some (M !! vpn TRAMPOLINE);
  ow_tf : is_Some (M !! vpn TRAPFRAME);
  ow_only : forall v, v < 0 \/ pgs (p_sz x) <= v -> v ∉ tops -> M !! v = None;
  ow_frame : page_ok (m_end m) (p_trapframe x) /\ p_trapframe x ∉ range_pas M 0 (pgs (p_sz x)) ++ l ++ tables T
}.
(** all of its pages *)
Definition holdings (T : gmap pkey Z) (M : gmap Z Z) (x : proc) : list Z := p_trapframe x :: range_pas M 0 (pgs (p_sz x)) ++ tables T.

Lemma mem_step_set_ps s s' ps : mem_step s s' -> mem_step (set_k_ps ps s) (set_k_ps ps s').
Proof. intros (b & f & h & -> & Hh). exists b, f, h. split; [done | exact Hh]. Qed.

Lemma gone_inv ps ls j x : sched_inv ps ls -> ps_proc ps !! j = Some x -> home x = None ->
  inv_moving j None (upd_slot j (gone_slot x) ps) ls /\ sched_inv (upd_slot j (gone_slot x) ps) ls.
Proof.
  intros Hinv Hx Hh. pose proof (moving_intro _ _ _ _ Hinv Hx) as Hm. rewrite Hh in Hm. pose proof Hinv as [Hok _].
  assert (Hs : slot_ok ps j (gone_slot x)) by (split; [apply (qo_range _ _ Hok j x Hx) | intros H; by destruct H]).
  assert (Hm' : inv_moving j None (upd_slot j (gone_slot x) ps) ls) by (eapply moving_upd; [exact Hm | exact Hx | exact Hs]).
  split; [done|]. eapply (moving_elim j (gone_slot x)); [done | apply slot_self; by eapply lookup_lt_Some].
Qed.

Section freeproc.
Context (h : hwstate) (Hok : hart_ok 1 h) (Hlk : lock_free h LKmem) (e : list (kstate -> kstate)).

Lemma wp_freeproc j x s l T M ls (Q : unit -> list (kstate -> kstate) -> kstate -> Prop) :
  k_hw s ≈h h -> ps_proc (k_ps s) !! j = Some x -> sched_inv (k_ps s) ls -> home x = None -> owns (k_mm s) l T M x ->
  (forall s1 l', mem_step s s1 -> free_list (k_mm s1) l' -> l' ≡ₚ holdings T M x ++ l ->
     same_off (holdings T M x) (m_bytes (k_mm s)) (m_bytes (k_mm s1)) -> Q tt e (set_k_ps (upd_slot j (gone_slot x) (k_ps s)) s1)) ->
  wp (freeproc j) e s Q.
Proof using Hok Hlk.
  intros Hh Hx Hinv Hhome [O1 O2 O3 O4 O5 [O6 O7]] HQ. pose proof (lookup_lt_Some _ _ _ Hx) as Hlt.
  assert (Hself : forall y s' ps, k_ps s' = upd_slot j y ps -> length (ps_proc ps) = length (ps_proc (k_ps s)) -> ps_proc (k_ps s') !! j = Some y).
  { intros y s' ps -> Hlen. apply slot_self. by rewrite Hlen. }
  pose proof (pw_kern _ _ _ _ _ (uv_world _ _ _ _ _ _ O2)) as Hkern. destruct (page_in_ram _ _ Hkern O6) as (_ & _ & Hz).
  pose proof (pt_root _ _ _ _ (pw_pt _ _ _ _ _ (uv_world _ _ _ _ _ _ O2))) as Hroot. destruct (page_in_ram _ _ Hkern (pw_table _ _ _ _ _ (uv_world _ _ _ _ _ _ O2) _ _ Hroot)) as (_ & _ & Hz').
  unfold freeproc. wp_step. eapply wp_pget; [exact Hx|]. unfold istrue. replace (p_trapframe x =? 0) with false by lia. cbn [negb when]. wp_step.
  eapply (wp_give_back h Hok Hlk (p_pagetable x) e (p_trapframe x) s l T M); [done | exact O2 | done | done |]. intros s1 Hm1 Hu1 Hs1.
  destruct (mem_step_ps _ _ Hm1) as (Ep1 & _). wp_step. eapply wp_pupd; [by rewrite Ep1|]. rewrite Ep1. set (x1 := set_p_trapframe 0 x). set (s2 := set_k_ps _ s1).
  assert (Hx2 : ps_proc (k_ps s2) !! j = Some x1) by (by eapply Hself).
  wp_step. eapply wp_pget; [exact Hx2|]. wp_step. eapply wp_pget; [exact Hx2|]. change (p_pagetable x1) with (p_pagetable x). change (p_sz x1) with (p_sz x).
  replace (p_pagetable x =? 0) with false by lia. cbn [negb when]. wp_step.
  eapply (wp_proc_freepagetable h Hok Hlk e (p_pagetable x) (p_sz x) s2 (p_trapframe x :: l) T M); [exact (mem_step_hw _ _ _ Hm1 Hh) | exact O1 | exact Hu1 | exact O3 | exact O4 | exact O5 |].
  intros s3 l3 Hm3 Hf3 Hp3 Hs3. destruct (mem_step_ps _ _ Hm3) as (Ep3 & _). change (k_ps s2) with (upd_slot j x1 (k_ps s)) in Ep3.
  repeat (wp_step; eapply wp_pupd; [apply (Hself _ _ (k_ps s)); [cbn [k_ps set_k_ps]; rewrite ?Ep3, ?upd_slot_twice; reflexivity | done]|]; cbn [k_ps set_k_ps]; rewrite ?Ep3, ?upd_slot_twice).
  match goal with |- context [set_k_ps (upd_slot j ?y (k_ps s))] => change y with (gone_slot x) end.
  destruct (gone_inv _ _ _ _ Hinv Hx Hhome) as [Hmv _]. pose proof Hinv as [Hqok _]. pose proof (qo_range _ _ Hqok j x Hx) as Hq.
  wp_step. eapply (wp_pget j (gone_slot x)); [by eapply Hself|]. change (p_queue_number (gone_slot x)) with (p_queue_number x).
  destruct (lookup_lt_is_Some_2 ls (Z.to_nat (p_queue_number x))) as [lq Hlq]; [rewrite (qo_four _ _ Hqok); lia|].
  unfold kdequeue. apply wp_lift_ps. replace (p_queue_number x) with (Z.of_nat (Z.to_nat (p_queue_number x))) by lia.
  eapply (wp_dequeue_absent j _ ls (gone_slot x) _ lq); [by apply slot_self | exact Hlq | exact Hmv | right; done |].
  assert (E3 : mem_step s (set_k_ps (k_ps s) s3)).
  { eapply mem_step_trans; [exact Hm1|]. apply (mem_step_set_ps _ _ (k_ps s)) in Hm3. replace s1 with (set_k_ps (k_ps s) s2); [exact Hm3|]. unfold s2. destruct Hm1 as (? & ? & ? & -> & _). done. }
  apply (HQ (set_k_ps (k_ps s) s3) l3 E3 Hf3).
  - rewrite Hp3. unfold holdings. cbn [app]. rewrite <- Permutation_middle. apply Permutation_skip. rewrite <- app_assoc. apply Permutation_app_head. apply Permutation_app_comm.
  - eapply same_off_trans; eapply same_off_mono; [|exact Hs1| |exact Hs3]; unfold holdings; set_solver.
Qed.
End freeproc.

(** ** The status of a child *)
Lemma owns_frame m l T M x ps b : owns m l T M x -> same_off ps (m_bytes m) b -> Forall (page_ok (m_end m)) ps -> (forall p, p ∈ ps -> p ∉ l ++ tables T) ->
  owns (set_m_bytes b m) l T M x.
Proof.
  intros [O1 [W Hmap Hpo Hnd] O3 O4 O5 O6] Hs Hps Hd. constructor; try done. constructor; try done.
  pose proof (pw_ok _ _ _ _ _ W) as Ho. apply Forall_app in Ho as [Ho1 Ho2].
  eapply (pworld_frame _ _ _ _ _ W ps b (m_freelist m)); [|done | done | set_solver | done | apply (pw_nodup _ _ _ _ _ W)].
  apply (free_list_off m l b ps); [apply (pw_free _ _ _ _ _ W) | done | done | set_solver].
Qed.
(** a user address lies in one of the pages *)
Lemma user_page m l pt T M (n : nat) va : uvm m l pt T M n -> 0 <= va < n * PGSIZE ->
  exists p, p ∈ range_pas M 0 n /\ p = user_pa M (PGROUNDDOWN va) /\ p <= phys (user_pa M) va < p + PGSIZE.
Proof.
  intros Hu Hva. exists (user_pa M (PGROUNDDOWN va)). pose proof (page_of va) as Hpg. split_and!; [|done | unfold phys; lia | unfold phys; lia].
  assert (Ei : PGROUNDDOWN va = Z.to_nat (va / PGSIZE) * PGSIZE /\ (Z.to_nat (va / PGSIZE) < n)%nat).
  { rewrite PGROUNDDOWN_eq. pose proof (Z.div_mod va PGSIZE ltac:(done)). pose proof (Z.mod_pos_bound va PGSIZE ltac:(done)).
    assert (0 <= va / PGSIZE) by (apply Z.div_pos; [lia | done]). rewrite Z2Nat.id by done. unfold PGSIZE in *. lia. }
  destruct Ei as [-> Hi]. apply list_elem_of_lookup. eexists. rewrite lookup_range_pas by exact Hi. unfold user_pa. by rewrite vpn_page, Z.add_0_l.
Qed.
Lemma copied_same_off m l pt T M (n : nat) lo src (k : nat) b : uvm m l pt T M n -> 0 <= lo -> lo + k <= n * PGSIZE -> copied (m_bytes m) (user_pa M) lo src k b ->
  same_off (range_pas M 0 n) (m_bytes m) b.
Proof.
  intros Hu H0 H1 [_ Hc] a Ha. apply Hc. intros i Hi ->. destruct (user_page _ _ _ _ _ _ (lo + i) Hu ltac:(lia)) as (p & Hp & _ & Hr). specialize (Ha p Hp). lia.
Qed.

Section wait.
Context (i j : nat) (xi xj : proc) (e : list (kstate -> kstate)) (s : kstate) (ls : list (list nat)) (l : list Z).
Context (Ti Tj : gmap pkey Z) (Mi Mj : gmap Z Z) (addr : Z).
Let ni := pgs (p_sz xi).
Context (Hok : hart_ok 3 (k_hw s)) (Hcur : cur_is (k_hw s) i) (Hlw : lock_free (k_hw s) LWait) (Hlm : lock_free (k_hw s) LKmem).
Context (Hlp : proc_locks_free (k_hw s) None) (Hxi : ps_proc (k_ps s) !! i = Some xi) (Hxj : ps_proc (k_ps s) !! j = Some xj) (Hij : i <> j).
Context (Hinv : sched_inv (k_ps s) ls) (Hpar : p_parent xj = Some i) (Hzom : p_state xj = ZOMBIE).
Context (Hfirst : forall k x, (k < j)%nat -> ps_proc (k_ps s) !! k = Some x -> p_parent x = Some i -> p_state x <> ZOMBIE).
Context (Hchild : owns (k_mm s) l Tj Mj xj) (Hme : uvm (k_mm s) l (p_pagetable xi) Ti Mi ni) (Hsz : ni * PGSIZE <= MAXVA).
Context (Hdisj : forall p, p ∈ range_pas Mi 0 ni -> p ∉ holdings Tj Mj xj).
Context (Haddr : addr <> 0 -> 0 <= addr /\ addr + 4 <= ni * PGSIZE /\
  forall v pte, addr / PGSIZE <= v -> v * PGSIZE < addr + 4 -> Mi !! v = Some pte -> istrue (Z.land pte PTE_U) = true).

(** the parent with the counts of its child *)
Definition counted : proc := set_p_syscall_count (add_counts (p_syscall_count xi) (p_syscall_count xj)) xi.

(** what a successful [wait] leaves *)
Definition reaped (s' : kstate) : Prop :=
  k_hw s' ≈h k_hw s /\ k_io s' = k_io s /\ k_fs s' = k_fs s /\ same_misc (k_ps s) (k_ps s') /\
  ps_proc (k_ps s') = <[j := gone_slot xj]> (<[i := counted]> (ps_proc (k_ps s))) /\ sched_inv (k_ps s') ls /\
  (exists l', free_list (k_mm s') l' /\ l' ≡ₚ holdings Tj Mj xj ++ l) /\
  (addr <> 0 -> forall k c, bytes32 (p_xstate xj) !! k = Some c -> ldb (m_bytes (k_mm s')) (phys (user_pa Mi) (addr + Z.of_nat k)) = c) /\
  forall a, off_pages (holdings Tj Mj xj) a -> (addr <> 0 -> forall k : nat, (k < 4)%nat -> a <> phys (user_pa Mi) (addr + k)) ->
    ldb (m_bytes (k_mm s')) a = ldb (m_bytes (k_mm s)) a.

Let H0 := hw_crit (k_hw s).
Let h1 := hw_acq LWait H0.
Let h2 := hw_acq (LProc j) h1.
Lemma wait_locks : hart_ok 3 H0 /\ lock_free H0 LWait /\ hart_ok 2 h1 /\ (forall k, (k < NPROC)%nat -> lock_free h1 (LProc k)) /\
  hart_ok 1 h2 /\ lock_free h2 LKmem /\ hw_crit h1 = h1 /\ hw_crit h2 = h2.
Proof using All.
  assert (E0 : k_hw s ≈h H0) by (symmetry; apply hw_crit_eqv). assert (A : hart_ok 3 H0) by (by eapply hart_ok_eqv). assert (B : lock_free H0 LWait) by (by eapply lock_free_eqv).
  assert (C : hart_ok 2 h1) by (replace 2 with (3 - 1) by lia; by apply hart_ok_acq). assert (Hj : (j < NPROC)%nat) by (rewrite <- (qo_nproc _ _ (proj1 Hinv)); by eapply lookup_lt_Some).
  assert (D : forall k, (k < NPROC)%nat -> lock_free h1 (LProc k)).
  { intros k Hk. destruct (Hlp k Hk ltac:(done)) as [nm Hn]. exists nm. unfold h1. rewrite (hw_acq_other _ _ B) by done.
    destruct (lock_free_eqv _ _ (LProc k) E0 ltac:(by exists nm)) as [nm' Hn']. unfold H0 in *. destruct (hw_eqv_fields _ _ E0) as (_ & _ & El & _). by rewrite <- El. }
  assert (E : hart_ok 1 h2) by (replace 1 with (2 - 1) by lia; apply hart_ok_acq; [done | by apply D]).
  assert (F : lock_free h2 LKmem).
  { destruct (lock_free_eqv _ _ LKmem E0 Hlm) as [nm Hn]. exists nm. unfold h2. rewrite (hw_acq_other _ _ (D j Hj)) by done. unfold h1. by rewrite (hw_acq_other _ _ B) by done. }
  split_and!; try done.
  - apply hw_eqv_eq; [apply hw_crit_eqv | by eapply depth_acq].
  - apply hw_eqv_eq; [apply hw_crit_eqv | eapply depth_acq; [exact C | by apply D]].
Qed.

(** the status reaches the parent *)
Lemma wp_status s2 (Q : bool -> list (kstate -> kstate) -> kstate -> Prop) : k_mm s2 = k_mm s ->
  (forall b, owns (set_m_bytes b (k_mm s)) l Tj Mj xj -> same_off (range_pas Mi 0 ni) (m_bytes (k_mm s)) b ->
     (addr <> 0 -> copied (m_bytes (k_mm s)) (user_pa Mi) addr (bytes32 (p_xstate xj)) 4 b) -> (addr = 0 -> b = m_bytes (k_mm s)) ->
     Q false e (with_bytes b s2)) ->
  wp (if istrue addr then r <- copyout (p_pagetable xi) addr (bytes32 (p_xstate xj));; ret (r <? 0) else ret false) e s2 Q.
Proof using All.
  intros Em HQ. unfold istrue. destruct (Z.eqb_spec addr 0) as [E|E]; cbn [negb].
  - wp_step. replace s2 with (with_bytes (m_bytes (k_mm s)) s2) by (unfold with_bytes; rewrite <- Em; by destruct s2 as [? ? [] ? ?]).
    apply HQ; [| apply same_off_refl | done | done]. by destruct (k_mm s).
  - destruct (Haddr E) as (Ha0 & Ha1 & HU). wp_step. eapply (wp_copyout (p_pagetable xi) addr (user_pa Mi)).
    { rewrite Em. change (Z.of_nat (length (bytes32 (p_xstate xj)))) with 4. eapply uvm_uspace; [exact Hme | done | lia | lia | done]. }
    intros b Hc. rewrite Em in Hc. change (length (bytes32 (p_xstate xj))) with 4%nat in Hc. wp_step. change (0 <? 0) with false.
    assert (Hso : same_off (range_pas Mi 0 ni) (m_bytes (k_mm s)) b) by (eapply (copied_same_off _ _ _ _ _ _ addr _ 4); [exact Hme | done | lia | exact Hc]).
    apply HQ; [| done | done | done]. eapply owns_frame; [exact Hchild | exact Hso | apply Hme |]. intros p Hp. rewrite elem_of_app. intros [Hin|Hin].
    + pose proof (uv_nodup _ _ _ _ _ _ Hme) as N. apply NoDup_app in N as (_ & N & _). apply (N p Hp). set_solver.
    + apply (Hdisj p Hp). unfold holdings. set_solver.
Qed.

Lemma wp_reap (Q : Z -> list (kstate -> kstate) -> kstate -> Prop) : (forall s', reaped s' -> Q (p_pid xj) e s') ->
  wp (reap i j addr) e (set_k_ps (upd_slot i counted (k_ps s)) (set_k_hw h2 s)) Q.
Proof using All.
  intros HQ. destruct wait_locks as (A1 & A2 & A3 & A4 & A5 & A6 & A7 & A8). unfold reap. pose proof Hinv as [Hqok _].
  assert (Hli : (i < length (ps_proc (k_ps s)))%nat) by (by eapply lookup_lt_Some). assert (Hlj : (j < length (ps_proc (k_ps s)))%nat) by (by eapply lookup_lt_Some).
  set (ps1 := upd_slot i counted (k_ps s)). set (s2 := set_k_ps ps1 _).
  assert (Hj2 : ps_proc (k_ps s2) !! j = Some xj) by (cbn; by rewrite list_lookup_insert_ne).
  assert (Hi2 : ps_proc (k_ps s2) !! i = Some counted) by (by apply slot_self).
  assert (Hinv2 : sched_inv ps1 ls) by (eapply sched_inv_upd; [exact Hinv | exact Hxi | done | done]).
  assert (Hhome : home xj = None) by (unfold home; by rewrite Hzom).
  wp_step. eapply wp_pget; [exact Hj2|]. wp_step. eapply wp_pget; [exact Hi2|]. change (p_pagetable counted) with (p_pagetable xi). wp_step. eapply wp_pget; [exact Hj2|].
  wp_step. apply wp_status; [done|]. intros b Hown Hso Hcp Hnc. cbv iota. wp_step.
  eapply (wp_freeproc h2 A5 A6 e j xj (with_bytes b s2) l Tj Mj ls); [done | exact Hj2 | exact Hinv2 | done | exact Hown |].
  intros s3 l3 Hm3 Hf3 Hp3 Hs3. assert (Eh : k_hw s3 = h2) by (apply hw_eqv_eq; [exact (mem_step_hw _ _ _ Hm3 ltac:(reflexivity)) | eapply depth_acq; [exact A3 | by apply A4; rewrite <- (qo_nproc _ _ Hqok)]]).
  destruct (mem_step_ps _ _ Hm3) as (_ & Eio & Efs). wp_step.
  eapply (wp_release_acq (LProc j) h1 2); [lia | done | by apply A4; rewrite <- (qo_nproc _ _ Hqok) | exact Eh |]. rewrite A7. wp_step.
  eapply (wp_release_acq LWait H0 3); [lia | done | done | done |]. wp_step. apply HQ. change (k_ps (with_bytes b s2)) with ps1.
  unfold reaped. cbn [k_hw k_io k_fs k_ps k_mm set_k_hw set_k_ps]. split_and!; try done.
  - etransitivity; apply hw_crit_eqv.
  - by destruct (gone_inv _ _ _ _ Hinv2 Hj2 Hhome).
  - by exists l3.
  - intros Ha k c Hk. destruct (Haddr Ha) as (Ha0 & Ha1 & _). assert (Hk4 : (k < 4)%nat) by (by apply lookup_lt_Some in Hk).
    destruct (user_page _ _ _ _ _ _ (addr + k) Hme ltac:(lia)) as (p & Hp & Ep & Hr).
    replace (phys (user_pa Mi) (addr + k)) with (p + (phys (user_pa Mi) (addr + k) - p)) by lia.
    assert (Hkend : m_end (k_mm (with_bytes b s2)) = m_end (k_mm s)) by done.
    rewrite (page_kept (m_end (k_mm s)) _ _ _ p _ Hs3); [| | | by apply Hdisj | lia].
    + replace (p + (phys (user_pa Mi) (addr + k) - p)) with (phys (user_pa Mi) (addr + k)) by lia. change (m_bytes (k_mm (with_bytes b s2))) with b.
      rewrite (proj1 (Hcp Ha) k Hk4), Hk. cbn. do 4 (destruct k as [|k]; [injection Hk as <-; unfold u8; by rewrite Zmod_mod|]). lia.
    + destruct Hchild as [_ [W _ Hpo _] _ _ _ [Hfr _]]. pose proof (pw_ok _ _ _ _ _ W) as Ho. apply Forall_app in Ho as [_ Ho].
      unfold holdings. constructor; [done|]. by apply Forall_app.
    + pose proof (uv_ok _ _ _ _ _ _ Hme) as Ho. rewrite Forall_forall in Ho. by apply Ho.
  - intros a Ha1 Ha2. rewrite Hs3 by done. change (m_bytes (k_mm (with_bytes b s2))) with b. destruct (Z.eq_dec addr 0) as [E|E]; [by rewrite (Hnc E)|].
    apply (proj2 (Hcp E)). intros k Hk. by apply Ha2.
Qed.

Lemma wp_wait_scan (Q : bool + Z -> list (kstate -> kstate) -> kstate -> Prop) : (forall s', reaped s' -> Q (inr (p_pid xj)) e s') ->
  wp (wait_scan i addr) e (set_k_hw h1 s) Q.
Proof using All.
  intros HQ. destruct wait_locks as (A1 & A2 & A3 & A4 & A5 & A6 & A7 & A8). pose proof Hinv as [Hqok _]. pose proof (qo_nproc _ _ Hqok) as Hnp.
  assert (Hjn : (j < NPROC)%nat) by (rewrite <- Hnp; by eapply lookup_lt_Some). unfold wait_scan, slots.
  apply (wp_mfold _ (fun rest _ e' s' => e' = e /\ s' = set_k_hw h1 s /\ exists k, rest = seq k (NPROC - k) /\ (k <= j)%nat)).
  - split_and!; [done | done |]. exists 0%nat. split; [done | lia].
  - intros x rest acc e' s' (-> & -> & k & Hrest & Hk). apply seq_rest in Hrest as (-> & -> & Hlt).
    destruct (lookup_lt_is_Some_2 (ps_proc (k_ps s)) k) as [xk Hxk]; [by rewrite Hnp|].
    assert (Hnext : k <> j -> e = e /\ set_k_hw h1 s = set_k_hw h1 s /\ exists k', seq (S k) (NPROC - S k) = seq k' (NPROC - k') /\ (k' <= j)%nat).
    { intros Hne. split_and!; [done | done |]. exists (S k). split; [done | lia]. }
    wp_step. eapply wp_pget; [exact Hxk|]. destruct (bool_decide (p_parent xk = Some i)) eqn:Epar; cbn [negb].
    + apply bool_decide_eq_true_1 in Epar. wp_step. apply wp_acquire; [by eapply hart_ok_weaken; [|exact A3]; lia | by apply A4 |].
      wp_step. eapply wp_pget; [exact Hxk|]. destruct (bool_decide (p_state xk = ZOMBIE)) eqn:Est.
      * apply bool_decide_eq_true_1 in Est. assert (k = j) as ->. { destruct (decide (k = j)) as [|Hne]; [done|]. by destruct (Hfirst k xk ltac:(lia) Hxk Epar). }
        rewrite Hxj in Hxk. injection Hxk as <-. wp_step. eapply wp_pget; [exact Hxj|]. wp_step. eapply wp_pupd; [exact Hxi|]. wp_step.
        apply wp_reap. intros s' Hr. wp_step. by apply HQ.
      * assert (Hne : k <> j) by (intros ->; rewrite Hxj in Hxk; injection Hxk as <-; by rewrite bool_decide_eq_true_2 in Est). wp_step.
        eapply (wp_release_acq (LProc k) h1 2); [lia | done | by apply A4 | done |]. rewrite A7. wp_step. by apply Hnext.
    + wp_step. apply Hnext. intros ->. rewrite Hxj in Hxk. injection Hxk as <-. by rewrite bool_decide_eq_true_2 in Epar.
  - intros acc e' s' (_ & _ & k & Hrest & Hk). apply seq_done in Hrest; lia.
Qed.

Lemma wp_wait (Q : Z -> list (kstate -> kstate) -> kstate -> Prop) : (forall s', reaped s' -> Q (p_pid xj) e s') -> wp (wait addr) e s Q.
Proof using All.
  intros HQ. destruct wait_locks as (A1 & A2 & _). unfold wait. wp_step. eapply wp_curproc; [by eapply hart_ok_weaken; [|exact Hok]; lia | exact Hcur |]. fold H0.
  wp_step. apply wp_acquire; [by eapply hart_ok_weaken; [|exact A1]; lia | exact A2 |]. apply wp_sleep_loop_now. wp_step.
  apply wp_wait_scan. intros s' Hr. wp_step. exists (p_pid xj). split; [done | by apply HQ].
Qed.
End wait.

(** C13: [wait] collects a child that has exited.  When the caller has a zombie child, the
    first one in the table is collected: its process id is returned, its exit status is in
    the caller's memory at the address given (if one was), its system-call counts are
    added to the caller's, its slot is free, and its trapframe, its pages and all tables
    of its page table are on the free list, each once.  Scheduling stays well-formed, all
    locks are free again and nothing else has changed. *)
Theorem wait_reaps i j xi xj e s ls l Ti Tj Mi Mj addr :
  hart_ok 3 (k_hw s) -> cur_is (k_hw s) i -> lock_free (k_hw s) LWait -> lock_free (k_hw s) LKmem -> proc_locks_free (k_hw s) None ->
  ps_proc (k_ps s) !! i = Some xi -> ps_proc (k_ps s) !! j = Some xj -> i <> j -> sched_inv (k_ps s) ls ->
  p_parent xj = Some i -> p_state xj = ZOMBIE ->
  (forall k x, (k < j)%nat -> ps_proc (k_ps s) !! k = Some x -> p_parent x = Some i -> p_state x <> ZOMBIE) ->
  owns (k_mm s) l Tj Mj xj -> uvm (k_mm s) l (p_pagetable xi) Ti Mi (pgs (p_sz xi)) -> pgs (p_sz xi) * PGSIZE <= MAXVA ->
  (forall p, p ∈ range_pas Mi 0 (pgs (p_sz xi)) -> p ∉ holdings Tj Mj xj) ->
  (addr <> 0 -> 0 <= addr /\ addr + 4 <= pgs (p_sz xi) * PGSIZE /\
     forall v pte, addr / PGSIZE <= v -> v * PGSIZE < addr + 4 -> Mi !! v = Some pte -> istrue (Z.land pte PTE_U) = true) ->
  exists s', wait addr e s = Ret (p_pid xj) e s' /\ reaped i j xi xj s ls l Tj Mi Mj addr s'.
Proof.
  intros. assert (wp (wait addr) e s (fun r e' s' => e' = e /\ r = p_pid xj /\ reaped i j xi xj s ls l Tj Mi Mj addr s')) as H'.
  { eapply wp_wait; eauto. }
  apply wp_run in H' as (r & s' & E & -> & Hr). eauto.
Qed.

(** Slot 0 runs with two pages of memory; its child in slot 2 is a zombie with one. *)
Definition reap_parent : proc :=
  set_p_syscall_count (replicate 32 1) (set_p_sz 0x1800 (set_p_pagetable 0x80030000 (demo_proc 0 RUNNING CNull 1 0 None))).
Definition reap_child : proc :=
  set_p_syscall_count (replicate 32 2) (set_p_xstate (-1) (set_p_trapframe 0x80064000 (set_p_sz 0x1000
    (set_p_pagetable 0x80061000 (demo_proc 2 ZOMBIE CNull 3 1 (Some 0%nat)))))).
Definition reap_tables : gmap pkey Z :=
  {[(2, 0) := 0x80061000; (1, 255) := 0x80062000; (0, 131071) := 0x80063000; (1, 0) := 0x80065000; (0, 0) := 0x80066000]}.
Definition reap_map : gmap Z Z :=
  {[vpn TRAMPOLINE := leaf_pte 0x80007000 (Z.lor PTE_R PTE_X); vpn TRAPFRAME := leaf_pte 0x80064000 (Z.lor PTE_R PTE_W);
    0 := leaf_pte 0x80067000 (user_perm PTE_W)]}.
Definition reap_mem : gmap Z Z :=
  foldr (fun x b => st64 b x.1 x.2) (m_bytes (k_mm copy_demo))
    [(0x80061000, table_pte 0x80065000); (0x80061000 + 8 * 255, table_pte 0x80062000); (0x80062000 + 8 * 511, table_pte 0x80063000);
     (0x80063000 + 8 * 511, leaf_pte 0x80007000 (Z.lor PTE_R PTE_X)); (0x80063000 + 8 * 510, leaf_pte 0x80064000 (Z.lor PTE_R PTE_W));
     (0x80065000, table_pte 0x80066000); (0x80066000, leaf_pte 0x80067000 (user_perm PTE_W))].
Definition reap_demo : kstate :=
  set_k_mm (set_m_bytes reap_mem (k_mm copy_demo)) (set_k_ps (set_ps_proc (<[2%nat := reap_child]> (<[0%nat := reap_parent]> demo_table)) ps1) demo).

Lemma reap_demo_parent : uvm (k_mm reap_demo) copy_free 0x80030000 copy_tables copy_map 2.
Proof.
  constructor; [constructor | | |]; try (refine (bool_decide_eq_true_1 _ _); vm_compute; reflexivity).
  - apply ptableb_sound. vm_compute. reflexivity.
  - intros i Hi. destruct i as [|[|i]]; [vm_compute; eauto..|lia].
Qed.
Lemma reap_demo_child : owns (k_mm reap_demo) copy_free reap_tables reap_map reap_child.
Proof.
  change (p_sz reap_child) with 0x1000. constructor; change (pgs (p_sz reap_child)) with 1%nat.
  - done.
  - constructor; [constructor | | |]; try (refine (bool_decide_eq_true_1 _ _); vm_compute; reflexivity).
    + apply ptableb_sound. vm_compute. reflexivity.
    + intros i Hi. destruct i as [|i]; [vm_compute; eauto|lia].
  - vm_compute. eauto.
  - vm_compute. eauto.
  - intros v Hv Hn. unfold reap_map. rewrite !lookup_insert_ne, lookup_singleton_ne; [done | lia | |]; intros <-; apply Hn; unfold tops; set_solver.
  - split; refine (bool_decide_eq_true_1 _ _); vm_compute; reflexivity.
Qed.

Lemma wait_reaps_witness : exists s', wait 0xffe [] reap_demo = Ret 3 [] s' /\
  reaped 0 2 reap_parent reap_child reap_demo demo_queues copy_free reap_tables copy_map reap_map 0xffe s'.
Proof.
  apply (wait_reaps 0 2 reap_parent reap_child [] reap_demo demo_queues copy_free copy_tables reap_tables copy_map reap_map 0xffe).
  - by apply hw1_hart.
  - reflexivity.
  - by apply hw1_lock.
  - by apply hw1_lock.
  - intros i Hi _. destruct (boot_proc_locks None i Hi) as [n Hn]; [done|]. by exists n.
  - reflexivity.
  - reflexivity.
  - done.
  - apply sched_invb_sound. vm_compute. reflexivity.
  - reflexivity.
  - reflexivity.
  - intros k x Hk Hx _. destruct k as [|[|k]]; [injection Hx as <-; done | injection Hx as <-; done | lia].
  - exact reap_demo_child.
  - exact reap_demo_parent.
  - done.
  - intros p Hp. refine (proj1 (Forall_forall (fun p => p ∉ holdings reap_tables reap_map reap_child) (range_pas copy_map 0 2)) _ p Hp).
    refine (bool_decide_eq_true_1 _ _). vm_compute. reflexivity.
  - intros _. split; [done|]. split; [done|]. intros v pte H1 H2 Hm. assert (v = 0 \/ v = 1) as [-> | ->].
    + change (4094 / PGSIZE) with 0 in H1. unfold PGSIZE in H2. lia.
    + injection Hm as <-. reflexivity.
    + injection Hm as <-. reflexivity.
Defined.
