(* ===== verification/Fork.v ===== *)
(** The start of a process (proc.c: [allocproc], [fork]).

    A child gets the first free slot of the table, a trapframe, a page table and a copy
    of its parent's memory, shares its parent's open files and directory, and is put
    at the end of the first queue. *)
From S2P Require Import Prelude State Spinlock Queue Boot Cstring Kalloc Vm Uspace Ptable Uvm Ufree Printf Proc Copyio.
From S2P Require Import Sleeplock Console Pipe Disk Bio Log Fs File FsRead Lifecycle Uproc Reap.

(** ** Memory that other code works on *)

(** only the bytes and the head of the free list differ *)
Definition mem_only (m m' : memory) : Prop := exists b f, m' = set_m_freelist f (set_m_bytes b m).
#[export] Instance mem_only_preorder : PreOrder mem_only.
Proof.
  split.
  - intros m. exists (m_bytes m), (m_freelist m). by destruct m.
  - intros m m1 m2 (b & f & ->) (b' & f' & ->). by exists b', f'.
Qed.
Lemma mem_step_only s s' : mem_step s s' -> mem_only (k_mm s) (k_mm s').
Proof. intros (b & f & h & -> & _). by exists b, f. Qed.
Lemma mem_only_bytes m b : mem_only m (set_m_bytes b m).
Proof. exists b, (m_freelist m). by destruct m. Qed.
Lemma mem_only_end m m' : mem_only m m' -> m_end m' = m_end m /\ m_trampoline m' = m_trampoline m /\ m_forkret m' = m_forkret m.
Proof. by intros (b & f & ->). Qed.

(** an address space stays while the pages that were free are used *)
Lemma uvm_keep m l pt T M n m' l' : uvm m l pt T M n -> mem_only m m' -> free_list m' l' -> same_off l (m_bytes m) (m_bytes m') -> l' ⊆ l ->
  uvm m' l' pt T M n.
Proof.
  intros [W Hmap Hpo Hnd] (b & f & ->) Hf Hs Hl. pose proof (pw_ok _ _ _ _ _ W) as Ho. apply Forall_app in Ho as [Ho1 Ho2].
  apply NoDup_app in Hnd as (N1 & N2 & N3). apply NoDup_app in N3 as (N3 & N4 & N5). pose proof Hf as (_ & Hnl & Hol & _).
  assert (Hd : forall p, p ∈ l' -> p ∉ tables T) by (intros p Hp; apply N4; by apply Hl).
  assert (Nl : NoDup (l' ++ tables T)) by (apply NoDup_app; split_and!; done).
  constructor; [| done | done |].
  - apply (pworld_frame _ _ _ _ _ W l b f); done.
  - apply NoDup_app. split_and!; [done | | done]. intros p Hp [Hin|Hin]%elem_of_app; apply (N2 p Hp); set_solver.
Qed.
Lemma uvm_free m l pt T M n : uvm m l pt T M n -> free_list m l.
Proof. intros H. apply (pw_free _ _ _ _ _ (uv_world _ _ _ _ _ _ H)). Qed.

(** a lock held makes the saved interrupt state exact *)
Lemma held_exact n l h h' : hart_ok n h -> lock_free h l -> h' ≈h hw_acq l h -> h' = hw_acq l h.
Proof. intros H1 H2 H. apply hw_eqv_eq; [exact H | by eapply depth_acq]. Qed.

(** updates of a slot, one after the other *)
Lemma set_k_ps_twice a b s : set_k_ps a (set_k_ps b s) = set_k_ps a s.
Proof. done. Qed.
Ltac slot_upd Hself := eapply wp_pupd; [by eapply Hself|]; cbn [k_ps set_k_ps]; rewrite ?upd_slot_twice, ?set_k_ps_twice.
Ltac slot_upds Hself := repeat (wp_step; slot_upd Hself).

(** ** allocproc *)

(** the slot [x] after [allocproc] has set it up *)
Definition fresh_slot (pid tf pt ra t : Z) (x : proc) : proc :=
  set_p_syscall_count (replicate 32 0) (set_p_arrival_time t (set_p_ctime t (set_p_etime 0 (set_p_rtime 0
    (set_p_context (mkcontext ra (u64 (p_kstack x + PGSIZE)) (replicate 12 0)) (set_p_tickets 1 (set_p_queueticks 0 (set_p_handler 0
    (set_p_alarm_on 0 (set_p_alarm_tf 0 (set_p_cur_ticks 0 (set_p_ticks 0 (set_p_pagetable pt (set_p_trapframe tf
    (set_p_state USED (set_p_pid pid x)))))))))))))))).

(** the table with the next process id taken *)
Definition next_pid (ps : procs) : procs := set_ps_nextpid (s32 (ps_nextpid ps + 1)) ps.

Lemma fresh_inv ps ls j x tf pt ra t : sched_inv ps ls -> ps_proc ps !! j = Some x -> p_state x = UNUSED -> 1 <= ps_nextpid ps < 2 ^ 31 - 1 ->
  sched_inv (upd_slot j (fresh_slot (ps_nextpid ps) tf pt ra t x) (next_pid ps)) ls.
Proof.
  intros Hinv Hx Hst Hn. assert (Hh : home x = None) by (unfold home; by rewrite Hst).
  assert (Es : s32 (ps_nextpid ps + 1) = ps_nextpid ps + 1) by (apply s32_small; lia).
  assert (Hinv' : sched_inv (next_pid ps) ls).
  { destruct Hinv as [[A1 A2 A3 A4 A5 A6 A7 A8] Hin]. split; [|done]. constructor; try done.
    intros i p Hp Hu. cbn. rewrite Es. specialize (A7 i p Hp Hu). lia. }
  pose proof (moving_intro _ _ _ _ Hinv' Hx) as Hm. rewrite Hh in Hm.
  eapply (moving_elim j (fresh_slot (ps_nextpid ps) tf pt ra t x)); [|apply slot_self; by eapply lookup_lt_Some].
  eapply moving_upd; [exact Hm | exact Hx |]. split; [apply (qo_range _ _ (proj1 Hinv) j x Hx)|]. intros _. cbn. rewrite Es. split; [lia|].
  intros k y Hne Hy Hu. pose proof (qo_pid _ _ (proj1 Hinv) k y Hy Hu). lia.
Qed.

(** a process that has its trapframe and a page table for nothing but the top pages *)
Record set_up (j : nat) (x : proc) (s : kstate) (l : list Z) (s1 : kstate) (l1 : list Z) (tf pt : Z) (T : gmap pkey Z) : Prop := {
  su_hw : k_hw s1 = k_hw s;
  su_rest : k_io s1 = k_io s /\ k_fs s1 = k_fs s;
  su_ps : k_ps s1 = upd_slot j (fresh_slot (ps_nextpid (k_ps s)) tf pt (m_forkret (k_mm s)) (ps_ticks (k_ps s)) x) (next_pid (k_ps s));
  su_mem : mem_only (k_mm s) (k_mm s1);
  su_uvm : uvm (k_mm s1) l1 pt T (<[vpn TRAPFRAME := leaf_pte tf (Z.lor PTE_R PTE_W)]> {[vpn TRAMPOLINE := leaf_pte (m_trampoline (k_mm s)) (Z.lor PTE_R PTE_X)]}) 0;
  su_frame : page_ok (m_end (k_mm s)) tf;
  su_pages : tf :: l1 ++ tables T ≡ₚ l;
  su_off : same_off l (m_bytes (k_mm s)) (m_bytes (k_mm s1));
  su_count : (length l <= length l1 + 6)%nat
}.

Section allocproc.
Context (h : hwstate) (j : nat) (e : list (kstate -> kstate)).
Let h1 := hw_acq (LProc j) h.
Context (Hok : hart_ok 2 h) (Hlj : lock_free h (LProc j)) (Hlm : lock_free h LKmem) (Hlp : lock_free h LPid).

Lemma inner_locks : hart_ok 1 h1 /\ lock_free h1 LKmem /\ lock_free h1 LPid /\ hw_crit h1 = h1.
Proof using Hok Hlj Hlm Hlp.
  split_and!.
  - replace 1 with (2 - 1) by lia. by apply hart_ok_acq.
  - destruct Hlm as [n Hn]. exists n. unfold h1. by rewrite (hw_acq_other _ _ Hlj) by done.
  - destruct Hlp as [n Hn]. exists n. unfold h1. by rewrite (hw_acq_other _ _ Hlj) by done.
  - eapply held_exact; [exact Hok | exact Hlj | apply hw_crit_eqv].
Qed.

(** the id is unique and the counter goes on *)
Lemma wp_allocpid s1 (Q : Z -> list (kstate -> kstate) -> kstate -> Prop) : k_hw s1 = h1 ->
  Q (ps_nextpid (k_ps s1)) e (set_k_ps (next_pid (k_ps s1)) s1) -> wp allocpid e s1 Q.
Proof using Hok Hlj Hlm Hlp.
  intros Eh HQ. destruct inner_locks as (A1 & A2 & A3 & A4). unfold allocpid, modify_ps. wp_step. apply wp_acquire; [by rewrite Eh | by rewrite Eh |].
  wp_step. wp_step. wp_step. wp_step. wp_step. eapply (wp_release_acq LPid h1 1); [lia | done | done | cbn; by rewrite Eh |]. rewrite A4. wp_step.
  replace (set_k_hw h1 _) with (set_k_ps (next_pid (k_ps s1)) s1); [exact HQ|]. destruct s1. cbn in Eh. by subst.
Qed.

Context (x : proc) (s : kstate) (l : list Z).
Context (Hx : ps_proc (k_ps s) !! j = Some x) (Hpar : p_parent x = None) (Hfl : free_list (k_mm s) l) (Hlen : (6 <= length l)%nat).
Context (Htr : phys_page (m_trampoline (k_mm s)) /\ m_trampoline (k_mm s) + PGSIZE <= 2 ^ 54).

Lemma wp_allocproc_found (Q : option nat -> list (kstate -> kstate) -> kstate -> Prop) : k_hw s = h1 ->
  (forall s1 l1 tf pt T, set_up j x s l s1 l1 tf pt T -> Q (Some j) e s1) -> wp (allocproc_found j) e s Q.
Proof using All.
  intros Eh HQ. destruct inner_locks as (A1 & A2 & A3 & A4). unfold allocproc_found. pose proof (lookup_lt_Some _ _ _ Hx) as Hlt.
  assert (Hself : forall y s', k_ps s' = upd_slot j y (next_pid (k_ps s)) -> ps_proc (k_ps s') !! j = Some y).
  { intros y s' ->. by apply slot_self. }
  wp_step. apply wp_allocpid; [exact Eh|]. wp_step. eapply wp_pupd; [exact Hx|]. wp_step. eapply wp_pupd; [by eapply Hself|].
  cbn [k_ps set_k_ps]. rewrite upd_slot_twice. set (x0 := set_p_state USED _). set (s0 := set_k_ps (upd_slot j x0 _) _).
  destruct l as [|tf l0] eqn:El; [cbn in Hlen; lia|]. rewrite <- El in *.
  assert (Hh0 : h1 = k_hw s0) by (symmetry; exact Eh). wp_step. eapply (wp_kalloc s0 e l); [by rewrite <- Hh0 | by rewrite <- Hh0 | exact Hfl |]. rewrite El.
  pose proof Hfl as (He & Hnd & Hpk & _). rewrite El in Hnd, Hpk. apply NoDup_cons in Hnd as [Hni Hnd]. apply Forall_cons in Hpk as [Hpk Hpk'].
  destruct (page_in_ram _ _ He Hpk) as (_ & _ & Hz). rewrite <- Hh0, A4. set (s1 := set_k_mm _ _).
  assert (Hf1 : free_list (k_mm s1) l0) by (apply free_list_alloc; by rewrite <- El).
  wp_step. eapply wp_pupd; [by eapply Hself|]. replace (tf =? 0) with false by lia. cbn [k_ps set_k_ps s1 set_k_mm set_k_hw s0]. rewrite upd_slot_twice. set (x1 := set_p_trapframe tf x0). set (s2 := set_k_ps (upd_slot j x1 _) _).
  pose proof (page_ok_phys _ _ He Hpk) as Hpp. assert (Htop : tf + PGSIZE <= 2 ^ 54) by (destruct Hpk as [_ Hpk]; unfold PHYSTOP, KERNBASE, PGSIZE in *; lia).
  wp_step. eapply (wp_proc_pagetable h1 A1 A2 e j x1 s2 l0); [done | exact Hf1 | by eapply Hself | apply Htr | apply Htr | exact Hpp | exact Htop | |].
  2:{ intros s3 l3 _ _ _ Hc _. exfalso. rewrite El in Hlen. cbn in Hlen. lia. }
  intros s3 l3 pt T Hm3 Hu3 P3 Hz3 C3 O3. destruct (mem_step_ps _ _ Hm3) as (E3 & E3a & E3b). change (k_ps s2) with (upd_slot j x1 (next_pid (k_ps s))) in E3.
  wp_step. eapply wp_pupd; [by eapply Hself|]. replace (pt =? 0) with false by lia. rewrite E3, upd_slot_twice. slot_upds Hself.
  wp_step. eapply wp_pget; [by eapply Hself|]. change (p_parent _) with (p_parent x). rewrite Hpar. wp_step. slot_upd Hself.
  wp_step. wp_step. wp_step. eapply wp_pget; [by eapply Hself|]. change (p_kstack _) with (p_kstack x). slot_upds Hself.
  wp_step. wp_step. slot_upds Hself. wp_step. apply (HQ _ l3 tf pt T). destruct (mem_only_end _ _ (mem_step_only _ _ Hm3)) as (M1 & M2 & M3).
  assert (Hs1 : same_off [tf] (m_bytes (k_mm s)) (m_bytes (k_mm s1))) by (apply same_off_memset; set_solver).
  constructor.
  - cbn. rewrite Eh. eapply held_exact; [exact Hok | exact Hlj | exact (mem_step_hw _ _ _ Hm3 ltac:(reflexivity))].
  - done.
  - cbn [k_ps set_k_ps k_mm]. by rewrite M3.
  - cbn. etrans; [|apply (mem_step_only _ _ Hm3)]. eexists _, _. reflexivity.
  - exact Hu3.
  - done.
  - by rewrite P3, El.
  - eapply same_off_trans; [eapply same_off_mono; [|exact Hs1] | eapply same_off_mono; [|exact O3]]; rewrite El; set_solver.
  - rewrite El. cbn. lia.
Qed.
End allocproc.

(** the scan takes the first free slot and keeps its lock *)
Lemma wp_allocproc j x e s l ls (Q : option nat -> list (kstate -> kstate) -> kstate -> Prop) :
  hart_ok 2 (k_hw s) -> proc_locks_free (k_hw s) None -> lock_free (k_hw s) LKmem -> lock_free (k_hw s) LPid ->
  queues_ok (k_ps s) ls -> ps_proc (k_ps s) !! j = Some x -> p_state x = UNUSED -> p_parent x = None ->
  (forall k y, (k < j)%nat -> ps_proc (k_ps s) !! k = Some y -> p_state y <> UNUSED) ->
  free_list (k_mm s) l -> (6 <= length l)%nat -> phys_page (m_trampoline (k_mm s)) /\ m_trampoline (k_mm s) + PGSIZE <= 2 ^ 54 ->
  (forall s1 l1 tf pt T, set_up j x (set_k_hw (hw_acq (LProc j) (k_hw s)) s) l s1 l1 tf pt T -> Q (Some j) e s1) ->
  wp allocproc e s Q.
Proof.
  intros Hok Hlp Hlm Hlpid Hq Hx Hst Hpar Hfirst Hfl Hlen Htr HQ. unfold allocproc, slots. pose proof (qo_nproc _ _ Hq) as Hnp.
  assert (Hjn : (j < NPROC)%nat) by (rewrite <- Hnp; by eapply lookup_lt_Some). wp_step.
  apply (wp_mfor _ (fun rest e' s' => e' = e /\ (exists h', s' = set_k_hw h' s /\ h' ≈h k_hw s) /\ exists k, rest = seq k (NPROC - k) /\ (k <= j)%nat)).
  - split_and!; [done | |]. { exists (k_hw s). by destruct s. } exists 0%nat. split; [done | lia].
  - intros k rest e' s' (-> & (h' & -> & Hh') & k0 & Hrest & Hk). apply seq_rest in Hrest as (-> & -> & Hlt).
    destruct (lookup_lt_is_Some_2 (ps_proc (k_ps s)) k0) as [y Hy]; [by rewrite Hnp|]. symmetry in Hh'.
    assert (B1 : hart_ok 2 h') by (by eapply hart_ok_eqv). assert (B2 : forall lk, lock_free (k_hw s) lk -> lock_free h' lk) by (intros lk; by apply lock_free_eqv).
    assert (B3 : lock_free h' (LProc k0)) by (apply B2; by apply Hlp).
    wp_step. apply wp_acquire; [eapply hart_ok_weaken; [|exact B1]; lia | exact B3 |]. wp_step. eapply wp_pget; [exact Hy|].
    destruct (bool_decide (p_state y = UNUSED)) eqn:E.
    + apply bool_decide_eq_true_1 in E. assert (k0 = j) as ->. { destruct (decide (k0 = j)) as [|Hne]; [done|]. by destruct (Hfirst k0 y ltac:(lia) Hy). }
      rewrite Hx in Hy. injection Hy as <-. wp_step. cbn [k_hw set_k_hw]. replace (hw_acq (LProc j) h') with (hw_acq (LProc j) (k_hw s)) by (by apply hw_acq_proper).
      eapply (wp_allocproc_found (k_hw s) j e Hok ltac:(by apply Hlp) Hlm Hlpid x (set_k_hw (hw_acq (LProc j) (k_hw s)) s) l); try done.
    + assert (Hne : k0 <> j) by (intros ->; rewrite Hx in Hy; injection Hy as <-; by rewrite bool_decide_eq_true_2 in E).
      wp_step. eapply (wp_release_acq (LProc k0) h' 2); [lia | done | done | done |]. wp_step. split_and!; [done | |].
      * exists (hw_crit h'). split; [done|]. etransitivity; [apply hw_crit_eqv | by symmetry].
      * exists (S k0). split; [done | lia].
  - intros e' s' (_ & _ & k & Hrest & Hk). apply seq_done in Hrest; lia.
Qed.

(** ** Open files *)

(** one more reference *)
Definition ref_up (n : Z) (x : file) : file := set_f_ref (f_ref x + n) x.
(** how often the file [f] is open in the list [o] *)
Definition opens (f : nat) (o : list (option nat)) : Z := Z.of_nat (length (filter (fun y => y = Some f) o)).
(** the file table when [d] references are added for each descriptor of [o] *)
Definition shift (d : Z) (o : list (option nat)) (t : list file) : list file := foldl (fun t y => from_option (fun f => alter (ref_up d) f t) t y) t o.
Definition dups : list (option nat) -> list file -> list file := shift 1.

Lemma opens_bounds f o : 0 <= opens f o <= Z.of_nat (length o).
Proof. unfold opens. pose proof (length_filter (fun y => y = Some f) o). lia. Qed.
Lemma opens_app f o o' : opens f (o ++ o') = opens f o + opens f o'.
Proof. unfold opens. rewrite filter_app, length_app. lia. Qed.
Lemma shift_snoc d o y t : shift d (o ++ [y]) t = from_option (fun f => alter (ref_up d) f (shift d o t)) (shift d o t) y.
Proof. unfold shift. by rewrite foldl_app. Qed.
Lemma ref_up_up n k x : ref_up n (ref_up k x) = ref_up (k + n) x.
Proof. unfold ref_up. cbn. unfold set_f_ref. cbn. f_equal. lia. Qed.
Lemma opens_one f y : opens f [y] = if decide (y = Some f) then 1 else 0.
Proof. unfold opens, filter, list_filter. by destruct (decide (y = Some f)). Qed.
Lemma ref_up_0 x : ref_up 0 x = x.
Proof. unfold ref_up. rewrite Z.add_0_r. by destruct x. Qed.
Lemma lookup_shift d o t f : shift d o t !! f = ref_up (d * opens f o) <$> t !! f.
Proof.
  induction o as [|y o IH] using rev_ind.
  - change (opens f []) with 0. rewrite Z.mul_0_r. cbn. destruct (t !! f) as [x|]; [|done]. cbn. by rewrite ref_up_0.
  - rewrite shift_snoc, opens_app, Z.mul_add_distr_l, opens_one. destruct y as [g|]; cbn [from_option].
    + rewrite list_lookup_alter. destruct (decide (g = f)) as [->|Hne].
      * rewrite IH, decide_True, Z.mul_1_r by done. destruct (t !! f) as [x|]; [|done]. cbn [fmap option_fmap option_map]. by rewrite ref_up_up.
      * rewrite IH, decide_False by congruence. by rewrite Z.mul_0_r, Z.add_0_r.
    + rewrite IH, decide_False by done. by rewrite Z.mul_0_r, Z.add_0_r.
Qed.
Lemma lookup_dups o t f : dups o t !! f = ref_up (opens f o) <$> t !! f.
Proof. unfold dups. by rewrite lookup_shift, Z.mul_1_l. Qed.
Lemma dups_snoc o y t : dups (o ++ [y]) t = from_option (fun f => alter (ref_up 1) f (dups o t)) (dups o t) y.
Proof. apply shift_snoc. Qed.

Definition with_files (t : list file) (s : kstate) : kstate := set_k_fs (set_fs_file t (k_fs s)) s.

Section files.
Context (h : hwstate) (e : list (kstate -> kstate)) (Hok : hart_ok 1 h) (Hlf : lock_free h LFtable) (Hcrit : hw_crit h = h).

Lemma wp_filedup f x s1 (Q : nat -> list (kstate -> kstate) -> kstate -> Prop) : k_hw s1 = h -> fs_file (k_fs s1) !! f = Some x ->
  1 <= f_ref x < 2 ^ 31 - 1 -> Q f e (with_files (alter (ref_up 1) f (fs_file (k_fs s1))) s1) -> wp (filedup f) e s1 Q.
Proof using Hok Hlf Hcrit.
  intros E1 Hx Hr HQ. unfold filedup, file_at, file_upd, modify_fs. wp_step. apply wp_acquire; [by rewrite E1 | by rewrite E1 |].
  wp_step. wp_step. wp_step. cbn [k_fs set_k_hw]. rewrite Hx. wp_step. replace (f_ref x <? 1) with false by lia. wp_step. wp_step.
  wp_step. eapply (wp_release_acq LFtable h 1); [lia | done | done | cbn; by rewrite E1 |]. rewrite Hcrit. wp_step.
  replace (alter (fun x => set_f_ref (s32 (f_ref x + 1)) x) f (fs_file (k_fs s1))) with (alter (ref_up 1) f (fs_file (k_fs s1))).
  2:{ apply list_eq. intros g. rewrite !list_lookup_alter. destruct (decide (f = g)) as [<-|]; [|done]. rewrite Hx. cbn. unfold ref_up. by rewrite s32_small by lia. }
  replace (set_k_hw h _) with (with_files (alter (ref_up 1) f (fs_file (k_fs s1))) s1); [exact HQ|]. destruct s1. cbn in E1. by subst.
Qed.

Context (i j : nat) (xi y : proc) (s : kstate) (Eh : k_hw s = h).
Let o := p_ofile xi.
Let t := fs_file (k_fs s).
Context (Hij : i <> j) (Hi : ps_proc (k_ps s) !! i = Some xi) (Hj : ps_proc (k_ps s) !! j = Some y).
Context (Hlen : length o = NOFILE) (Hy : p_ofile y = replicate NOFILE None).
Context (Hrefs : forall f, Some f ∈ o -> exists x, t !! f = Some x /\ 1 <= f_ref x < 2 ^ 31 - 1 - Z.of_nat NOFILE).

(** the first [k] descriptors shared *)
Definition sharing (k : nat) : kstate :=
  set_k_ps (upd_slot j (set_p_ofile (take k o ++ replicate (NOFILE - k) None) y) (k_ps s)) (with_files (dups (take k o) t) s).

Lemma wp_fork_files (Q : unit -> list (kstate -> kstate) -> kstate -> Prop) :
  Q tt e (set_k_ps (upd_slot j (set_p_ofile o y) (k_ps s)) (with_files (dups o t) s)) -> wp (fork_files i j) e s Q.
Proof using All.
  intros HQ. unfold fork_files. pose proof (lookup_lt_Some _ _ _ Hj) as Hlt.
  apply (wp_mforall _ (fun rest e' s' => e' = e /\ exists k, rest = seq k (NOFILE - k) /\ (k <= NOFILE)%nat /\ s' = sharing k)).
  - split; [done|]. exists 0%nat. split_and!; [by rewrite Nat.sub_0_r | lia |]. unfold sharing. rewrite take_0, Nat.sub_0_r, <- Hy. cbn [app].
    replace (set_p_ofile (p_ofile y) y) with y by (by destruct y). unfold upd_slot, with_files. rewrite list_insert_id by exact Hj. unfold dups. cbn. by destruct s as [? [] ? ? []].
  - intros z rest e' s' (-> & k & Hrest & Hk & ->). apply seq_rest in Hrest as (-> & -> & Hkn).
    destruct (lookup_lt_is_Some_2 o k) as [d Hd]; [lia|]. assert (Et : take (S k) o = take k o ++ [d]) by (by apply take_S_r).
    assert (Hlt' : length (take k o) = k) by (rewrite length_take; lia).
    wp_step. eapply (wp_pget i xi); [cbn; by rewrite list_lookup_insert_ne|]. fold o. rewrite Hd. cbn [mjoin option_join].
    assert (Er : replicate (NOFILE - k) (@None nat) = None :: replicate (NOFILE - S k) None) by (replace (NOFILE - k)%nat with (S (NOFILE - S k)) by lia; done).
    assert (Hnext : forall s', s' = sharing (S k) -> e = e /\ exists k', seq (S k) (NOFILE - S k) = seq k' (NOFILE - k') /\ (k' <= NOFILE)%nat /\ s' = sharing k').
    { intros s' ->. split; [done|]. exists (S k). done. }
    destruct d as [f|].
    + destruct (Hrefs f) as (x & Hx & Hr); [by eapply list_elem_of_lookup_2|]. pose proof (opens_bounds f (take k o)) as Hb. rewrite Hlt' in Hb.
      wp_step. eapply (wp_filedup f (ref_up (opens f (take k o)) x)); [exact Eh | cbn; by rewrite lookup_dups, Hx | cbn; lia |].
      eapply (wp_pupd j); [by apply slot_self|]. apply Hnext. unfold sharing. rewrite Et, dups_snoc. cbn [from_option].
      cbn [p_ofile set_p_ofile]. rewrite Er, insert_app_r_alt by lia. rewrite Hlt', Nat.sub_diag, <- app_assoc. cbn [insert list_insert app k_ps set_k_ps with_files set_k_fs]. rewrite upd_slot_twice. done.
    + wp_step. apply Hnext. unfold sharing. rewrite Et, dups_snoc, Er, <- app_assoc. done.
  - intros e' s' (-> & k & Hrest & Hk & ->). apply seq_done in Hrest as ->; [|done]. unfold sharing. rewrite Nat.sub_diag, take_ge, app_nil_r by lia. exact HQ.
Qed.
End files.

(** ** The registers of the child *)
Definition frame_bytes (b : gmap Z Z) (tf ptf : Z) : gmap Z Z := st64 (memmove b tf ptf (Z.to_nat tf_size)) (tf + tf_a0) 0.

Lemma frame_off b tf ptf : same_off [tf] b (frame_bytes b tf ptf).
Proof.
  intros a Ha. specialize (Ha tf ltac:(set_solver)). unfold frame_bytes, st64, tf_size, tf_a0, PGSIZE in *.
  rewrite ldb_stn, decide_False, ldb_memmove, decide_False by lia. done.
Qed.
Lemma frame_copied b tf ptf o : 0 <= o < tf_size -> ldb (frame_bytes b tf ptf) (tf + o) = if decide (tf_a0 <= o < tf_a0 + 8) then 0 else ldb b (ptf + o).
Proof.
  intros Ho. unfold frame_bytes, st64. rewrite ldb_stn. unfold tf_size, tf_a0 in *. destruct (decide (112 <= o < 112 + 8)) as [H|H].
  - rewrite decide_True by lia. unfold u8. by rewrite Zdiv_0_l.
  - rewrite decide_False, ldb_memmove, decide_True by lia. f_equal. lia.
Qed.

(** ** fork *)
Section fork.
Context (i j : nat) (xi xj : proc) (e : list (kstate -> kstate)) (s : kstate) (ls : list (list nat)) (q0 : list nat) (l : list Z).
Context (Ti : gmap pkey Z) (Mi : gmap Z Z) (c : nat) (ino : inode).
Let n := pgs (p_sz xi).

(** the slot of the child, from its parent's and from what the slot held before *)
Definition named (tf pt : Z) : proc :=
  set_p_name (safestrcpy_l (p_name xj) (p_name xi) 16) (set_p_cwd (Some c) (set_p_ofile (p_ofile xi) (set_p_sz (p_sz xi)
    (fresh_slot (ps_nextpid (k_ps s)) tf pt (m_forkret (k_mm s)) (ps_ticks (k_ps s)) xj)))).
Definition child (tf pt : Z) : proc := set_p_queue_number 0 (set_p_queueticks 0 (set_p_state RUNNABLE (set_p_parent (Some i) (named tf pt)))).

(** what a successful [fork] leaves *)
Record forked (s' : kstate) (tf pt : Z) (l' : list Z) (T : gmap pkey Z) (M : gmap Z Z) : Prop := {
  fk_hw : k_hw s' ≈h k_hw s;
  fk_io : k_io s' = k_io s;
  fk_fs : k_fs s' = set_fs_inode (alter (fun x => set_i_ref (i_ref x + 1) x) c (fs_inode (k_fs s))) (set_fs_file (dups (p_ofile xi) (fs_file (k_fs s))) (k_fs s));
  fk_ps : k_ps s' = ps_join j 0 q0 (child tf pt) (next_pid (k_ps s));
  fk_sched : sched_inv (k_ps s') (<[0%nat := q0 ++ [j]]> ls);
  fk_owns : owns (k_mm s') l' T M (child tf pt);
  fk_pages : holdings T M (child tf pt) ++ l' ≡ₚ l;
  fk_parent : uvm (k_mm s') l' (p_pagetable xi) Ti Mi n;
  fk_off : same_off l (m_bytes (k_mm s)) (m_bytes (k_mm s'));
  fk_copy : forall k : nat, (k < n)%nat -> exists pte pte', Mi !! Z.of_nat k = Some pte /\ M !! Z.of_nat k = Some pte' /\ PTE_FLAGS pte' = PTE_FLAGS pte /\
    forall o, 0 <= o < PGSIZE -> ldb (m_bytes (k_mm s')) (PTE2PA pte' + o) = ldb (m_bytes (k_mm s)) (PTE2PA pte + o);
  fk_frame : forall o, 0 <= o < tf_size -> ldb (m_bytes (k_mm s')) (tf + o) =
    if decide (tf_a0 <= o < tf_a0 + 8) then 0 else ldb (m_bytes (k_mm s)) (p_trapframe xi + o)
}.

Context (Hok : hart_ok 2 (k_hw s)) (Hcur : cur_is (k_hw s) i) (Hlp : proc_locks_free (k_hw s) None).
Context (Hlw : lock_free (k_hw s) LWait) (Hlm : lock_free (k_hw s) LKmem) (Hlpid : lock_free (k_hw s) LPid).
Context (Hlf : lock_free (k_hw s) LFtable) (Hli : lock_free (k_hw s) LItable).
Context (Hinv : sched_inv (k_ps s) ls) (Hq0 : ls !! 0%nat = Some q0) (Hpid : 1 <= ps_nextpid (k_ps s) < 2 ^ 31 - 1).
Context (Hxi : ps_proc (k_ps s) !! i = Some xi) (Hxj : ps_proc (k_ps s) !! j = Some xj) (Hij : i <> j) (Hst : p_state xj = UNUSED).

Let h := hw_crit (k_hw s).
Let h1 := hw_acq (LProc j) h.
Lemma Ehw : h ≈h k_hw s.
Proof using. apply hw_crit_eqv. Qed.
Lemma fork_locks : hart_ok 2 h /\ (forall lk, lock_free (k_hw s) lk -> lock_free h lk) /\ lock_free h (LProc j) /\
  hart_ok 1 h1 /\ (forall lk, lk <> LProc j -> lock_free (k_hw s) lk -> lock_free h1 lk) /\ hw_crit h1 = h1.
Proof using All.
  pose proof Ehw as E. symmetry in E. assert (A : hart_ok 2 h) by (by eapply hart_ok_eqv).
  assert (B : forall lk, lock_free (k_hw s) lk -> lock_free h lk) by (intros lk; by apply lock_free_eqv).
  assert (C : lock_free h (LProc j)). { apply B, Hlp; [|done]. rewrite <- (qo_nproc _ _ (proj1 Hinv)). by eapply lookup_lt_Some. }
  split_and!; [done | done | done | | |].
  - replace 1 with (2 - 1) by lia. by apply hart_ok_acq.
  - intros lk Hne Hlk. destruct (B lk Hlk) as [m Hm]. exists m. unfold h1. by rewrite (hw_acq_other _ _ C) by congruence.
  - eapply held_exact; [exact A | exact C | apply hw_crit_eqv].
Qed.

(** the child is complete: it gets its parent and joins the first queue *)
Lemma wp_fork_finish tf pt s3 (Q : Z -> list (kstate -> kstate) -> kstate -> Prop) :
  k_hw s3 = h1 -> k_ps s3 = upd_slot j (named tf pt) (next_pid (k_ps s)) ->
  (forall s', k_hw s' ≈h k_hw s -> k_mm s' = k_mm s3 -> k_io s' = k_io s3 -> k_fs s' = k_fs s3 ->
     k_ps s' = ps_join j 0 q0 (child tf pt) (next_pid (k_ps s)) -> sched_inv (k_ps s') (<[0%nat := q0 ++ [j]]> ls) -> Q (ps_nextpid (k_ps s)) e s') ->
  wp (pid <- pget j p_pid;; release (LProc j);; acquire LWait;; pupd j (set_p_parent (Some i));; release LWait;;
      acquire (LProc j);; pupd j (set_p_state RUNNABLE);; kenqueue j 0;; release (LProc j);; ret pid) e s3 Q.
Proof using All.
  intros Eh Eps HQ. destruct fork_locks as (A1 & A2 & A3 & A4 & A5 & A6). pose proof (lookup_lt_Some _ _ _ Hxj) as Hlt.
  assert (Hself : forall y s', k_ps s' = upd_slot j y (next_pid (k_ps s)) -> ps_proc (k_ps s') !! j = Some y) by (intros y s' ->; by apply slot_self).
  assert (Hh : forall h', h' ≈h k_hw s -> hart_ok 2 h' /\ hart_ok 1 h' /\ forall lk, lock_free (k_hw s) lk -> lock_free h' lk).
  { intros h' E. symmetry in E. assert (hart_ok 2 h') by (by eapply hart_ok_eqv). split_and!; [done | eapply hart_ok_weaken; [|done]; lia |]. intros lk. by apply lock_free_eqv. }
  assert (Hj' : lock_free (k_hw s) (LProc j)). { apply Hlp; [|done]. rewrite <- (qo_nproc _ _ (proj1 Hinv)). by eapply lookup_lt_Some. }
  wp_step. eapply wp_pget; [eapply Hself; exact Eps|]. change (p_pid (named tf pt)) with (ps_nextpid (k_ps s)).
  wp_step. eapply (wp_release_acq (LProc j) h 2); [lia | done | done | exact Eh |]. set (g1 := hw_crit h).
  assert (E1 : g1 ≈h k_hw s) by (etransitivity; apply hw_crit_eqv). destruct (Hh _ E1) as (B1 & B2 & B3).
  wp_step. apply wp_acquire; [done | by apply B3 |]. wp_step. eapply wp_pupd; [eapply Hself; exact Eps|]. cbn [k_ps set_k_hw]. rewrite Eps, upd_slot_twice.
  wp_step. eapply (wp_release_acq LWait g1 2); [lia | done | by apply B3 | done |]. set (g2 := hw_crit g1).
  assert (E2 : g2 ≈h k_hw s) by (etransitivity; [apply hw_crit_eqv | done]). destruct (Hh _ E2) as (C1 & C2 & C3).
  wp_step. apply wp_acquire; [done | by apply C3 |]. wp_step. eapply wp_pupd; [eapply Hself; reflexivity|]. cbn [k_ps set_k_hw set_k_ps]. rewrite upd_slot_twice.
  pose proof (fresh_inv _ _ j xj tf pt (m_forkret (k_mm s)) (ps_ticks (k_ps s)) Hinv Hxj Hst Hpid) as Hf.
  set (y := fresh_slot _ _ _ _ _ _) in Hf. assert (Hy : ps_proc (upd_slot j y (next_pid (k_ps s))) !! j = Some y) by (by apply slot_self).
  pose proof (moving_intro _ _ _ _ Hf Hy) as Hm. change (home y) with (@None nat) in Hm. set (y1 := set_p_state RUNNABLE _).
  assert (Hk : same_key y y1) by (unfold same_key, used, y1, y, named, fresh_slot; lazy [p_pid p_queue_number p_state set_p_pid set_p_state set_p_name set_p_cwd set_p_ofile set_p_sz set_p_parent set_p_syscall_count set_p_arrival_time set_p_ctime set_p_etime set_p_rtime set_p_context set_p_tickets set_p_queueticks set_p_handler set_p_alarm_on set_p_alarm_tf set_p_cur_ticks set_p_ticks set_p_pagetable set_p_trapframe]; done).
  pose proof (moving_upd j None _ ls y y1 Hm Hy (slot_ok_same _ ls j y y1 (proj1 Hf) Hy Hk)) as Hm1. rewrite upd_slot_twice in Hm1.
  wp_step. unfold kenqueue. apply wp_lift_ps. change 0 with (Z.of_nat 0). eapply (wp_enqueue_moving j _ ls y1 0 q0); [by apply slot_self | exact Hq0 | exact Hm1 | done |].
  cbv zeta. cbn [k_ps set_k_ps set_k_hw]. rewrite upd_slot_setq, upd_slot_twice. intros Hm2. change (set_p_queue_number _ _) with (child tf pt) in *.
  wp_step. eapply (wp_release_acq (LProc j) g2 2); [lia | done | by apply C3 | done |]. wp_step. apply HQ; [| reflexivity..|].
  - etransitivity; [apply hw_crit_eqv | exact E2].
  - eapply (moving_elim j (child tf pt)); [exact Hm2 | by apply slot_self].
Qed.

Context (Hsz : 0 <= p_sz xi <= TRAPFRAME) (Hme : uvm (k_mm s) l (p_pagetable xi) Ti Mi n) (Hroom : (3 * n + 6 <= length l)%nat).
Context (Hptf : page_ok (m_end (k_mm s)) (p_trapframe xi)) (Hptl : p_trapframe xi ∉ l).
Context (Htr : phys_page (m_trampoline (k_mm s)) /\ m_trampoline (k_mm s) + PGSIZE <= 2 ^ 54).

(** the memory of the child, once its page table is made and its parent's pages are copied *)
Section memory.
Context (sb s1 : kstate) (tf pt : Z) (l1 : list Z) (T : gmap pkey Z).
Let top : gmap Z Z := <[vpn TRAPFRAME := leaf_pte tf (Z.lor PTE_R PTE_W)]> {[vpn TRAMPOLINE := leaf_pte (m_trampoline (k_mm s)) (Z.lor PTE_R PTE_X)]}.
Context (Esb : k_mm sb = k_mm s) (Hsu : set_up j xj sb l s1 l1 tf pt T).

Lemma top_low v : v < n -> top !! v = None.
Proof using All.
  intros Hv. destruct trapframe_max as (ET & ET1 & ET2). destruct (pgs_bounds (p_sz xi) ltac:(lia)) as (_ & B & _). fold n in B.
  assert (Etr : vpn TRAMPOLINE = 2 ^ 26 - 1) by done. unfold top. rewrite lookup_insert_ne, lookup_singleton_ne; [done | |]; rewrite ?Etr, ?ET2; unfold PGSIZE in *; lia.
Qed.
Lemma l1_sub : l1 ⊆ l.
Proof using All. intros p Hp. rewrite <- (su_pages _ _ _ _ _ _ _ _ _ Hsu). set_solver. Qed.
Lemma parent_kept : uvm (k_mm s1) l1 (p_pagetable xi) Ti Mi n.
Proof using All.
  destruct Hsu as [_ _ _ S4 S5 _ _ S8 _]. rewrite Esb in *. eapply uvm_keep; [exact Hme | exact S4 | by eapply uvm_free | exact S8 | exact l1_sub].
Qed.
Lemma parent_pages p : p ∈ range_pas Mi 0 n ++ tables Ti -> p ∉ l.
Proof using All.
  pose proof (uv_nodup _ _ _ _ _ _ Hme) as N. apply NoDup_app in N as (_ & N1 & N2). apply NoDup_app in N2 as (_ & N2 & _). intros [H|H]%elem_of_app Hl.
  - apply (N1 p H). set_solver.
  - by apply (N2 p Hl).
Qed.

Context (s2 : kstate) (l2 : list Z) (T2 : gmap pkey Z) (M2 : gmap Z Z).
Context (G : grown pt (fun k : nat => PTE_FLAGS (default 0 (Mi !! Z.of_nat k))) (fun k o => ldb (m_bytes (k_mm s1)) (PTE2PA (default 0 (Mi !! Z.of_nat k)) + o))
  s1 l1 T top 0 n s2 l2 T2 M2).
Let m' := set_m_bytes (frame_bytes (m_bytes (k_mm s2)) tf (p_trapframe xi)) (k_mm s2).

Lemma child_pages : tf :: range_pas M2 0 n ++ tables T2 ++ l2 ≡ₚ l /\ tf ∉ range_pas M2 0 n ++ l2 ++ tables T2.
Proof using All.
  pose proof (gr_pages _ _ _ _ _ _ _ _ _ _ _ _ _ G) as P2. pose proof (su_pages _ _ _ _ _ _ _ _ _ Hsu) as P1. rewrite Nat.sub_0_r in P2.
  assert (N : NoDup (tf :: l1 ++ tables T)). { rewrite P1. pose proof (uv_nodup _ _ _ _ _ _ Hme) as N. apply NoDup_app in N as (_ & _ & N). by apply NoDup_app in N as (? & _). }
  apply NoDup_cons in N as [N _]. split; [|by rewrite P2]. rewrite <- P1, <- P2. apply Permutation_skip, Permutation_app_head, Permutation_app_comm.
Qed.
Lemma child_steps : mem_only (k_mm s) m' /\ same_off l (m_bytes (k_mm s)) (m_bytes m') /\ uvm m' l2 pt T2 M2 n /\ page_ok (m_end m') tf.
Proof using All.
  destruct Hsu as [_ _ _ S4 S5 S6 S7 S8 _]. rewrite Esb in *. pose proof G as [G1 G2 G3 G4 G5 G6 G7]. destruct child_pages as [C1 C2].
  pose proof (mem_step_only _ _ G1) as M1. assert (M : mem_only (k_mm s) (k_mm s2)) by (by etrans). destruct (mem_only_end _ _ M) as (E & _).
  split_and!.
  - etrans; [exact M | apply mem_only_bytes].
  - eapply same_off_trans; [exact S8|]. eapply same_off_trans.
    + eapply same_off_mono; [|exact G7]. intros p Hp. rewrite <- S7. set_solver.
    + eapply same_off_mono; [|apply frame_off]. intros p Hp. rewrite <- S7. set_solver.
  - eapply uvm_write; [exact G2 | by rewrite E | exact C2 | apply frame_off].
  - cbn. by rewrite E.
Qed.
Lemma child_owns : owns m' l2 T2 M2 (child tf pt).
Proof using All.
  destruct child_steps as (A1 & A2 & A3 & A4). destruct child_pages as [_ C2]. pose proof (gr_old _ _ _ _ _ _ _ _ _ _ _ _ _ G) as G3.
  destruct trapframe_max as (ET & ET1 & ET2). destruct (pgs_bounds (p_sz xi) ltac:(lia)) as (_ & B & _). fold n in B. assert (Etr : vpn TRAMPOLINE = 2 ^ 26 - 1) by done.
  constructor; change (p_sz (child tf pt)) with (p_sz xi); change (p_pagetable (child tf pt)) with pt; change (p_trapframe (child tf pt)) with tf; fold n.
  - exact Hsz.
  - exact A3.
  - rewrite G3 by (right; rewrite Etr; unfold PGSIZE in *; lia). unfold top. rewrite lookup_insert_ne by (rewrite Etr, ET2; lia). rewrite lookup_singleton_eq. done.
  - rewrite G3 by (right; rewrite ET2; unfold PGSIZE in *; lia). unfold top. rewrite lookup_insert_eq. done.
  - intros v Hv Hni. rewrite G3 by lia. unfold top. rewrite lookup_insert_ne, lookup_singleton_ne; [done | |]; intros <-; apply Hni; unfold tops; set_solver.
  - split; [exact A4 | exact C2].
Qed.
(** the copy of a page *)
Lemma child_copy (k : nat) : (k < n)%nat -> exists pte pte', Mi !! Z.of_nat k = Some pte /\ M2 !! Z.of_nat k = Some pte' /\ PTE_FLAGS pte' = PTE_FLAGS pte /\
  forall o, 0 <= o < PGSIZE -> ldb (m_bytes m') (PTE2PA pte' + o) = ldb (m_bytes (k_mm s)) (PTE2PA pte + o).
Proof using All.
  intros Hk. destruct (copy_entries (p_pagetable xi) pt _ s1 l1 _ _ Ti T Mi top n s2 l2 T2 M2 parent_kept G k Hk) as (pte & pte' & E1 & E2 & E3 & E4).
  exists pte, pte'. split_and!; [done..|]. intros o Ho. destruct child_steps as (A1 & A2 & A3 & A4). destruct child_pages as [_ C2].
  pose proof (elem_range_pas Mi n k pte Hk E1) as Hin. pose proof (elem_range_pas M2 n k pte' Hk E2) as Hin2.
  assert (Hp' : page_ok (m_end m') (PTE2PA pte')) by (pose proof (uv_ok _ _ _ _ _ _ A3) as H; rewrite Forall_forall in H; by apply H).
  assert (Hp : page_ok (m_end (k_mm s)) (PTE2PA pte)) by (pose proof (uv_ok _ _ _ _ _ _ Hme) as H; rewrite Forall_forall in H; by apply H).
  assert (Hn : PTE2PA pte' ∉ [tf]). { rewrite list_elem_of_singleton. intros E. apply C2. rewrite <- E, elem_of_app. by left. }
  assert (Hf : Forall (page_ok (m_end m')) [tf]) by (by apply Forall_singleton).
  change (m_bytes m') with (frame_bytes (m_bytes (k_mm s2)) tf (p_trapframe xi)).
  rewrite (page_kept (m_end m') [tf] _ _ (PTE2PA pte') o (frame_off _ tf (p_trapframe xi)) Hf Hp' Hn Ho), (E4 o Ho). eapply (page_kept (m_end (k_mm s)) l); [| | exact Hp | apply parent_pages; rewrite elem_of_app; by left | exact Ho].
  - destruct Hsu as [_ _ _ _ _ _ _ S8 _]. by rewrite Esb in S8.
  - pose proof (pw_ok _ _ _ _ _ (uv_world _ _ _ _ _ _ Hme)) as H. by apply Forall_app in H as [H _].
Qed.
(** its registers *)
Lemma child_frame o : 0 <= o < tf_size -> ldb (m_bytes m') (tf + o) = if decide (tf_a0 <= o < tf_a0 + 8) then 0 else ldb (m_bytes (k_mm s)) (p_trapframe xi + o).
Proof using All.
  intros Ho. cbn [m' m_bytes set_m_bytes]. rewrite frame_copied by done. destruct (decide (tf_a0 <= o < tf_a0 + 8)); [done|].
  destruct Hsu as [_ _ _ S4 S5 S6 S7 S8 _]. rewrite Esb in *. pose proof G as [G1 G2 G3 G4 G5 G6 G7].
  eapply (page_kept (m_end (k_mm s)) l); [| | exact Hptf | exact Hptl | unfold tf_size, PGSIZE in *; lia].
  - eapply same_off_trans; [exact S8|]. eapply same_off_mono; [|exact G7]. intros p Hp. rewrite <- S7. set_solver.
  - pose proof (pw_ok _ _ _ _ _ (uv_world _ _ _ _ _ _ Hme)) as H. by apply Forall_app in H as [H _].
Qed.
End memory.

Context (Hpar : p_parent xj = None) (Hfirst : forall k y, (k < j)%nat -> ps_proc (k_ps s) !! k = Some y -> p_state y <> UNUSED).
Context (Hof : p_ofile xj = replicate NOFILE None) (Hlen : length (p_ofile xi) = NOFILE).
Context (Hrefs : forall f, Some f ∈ p_ofile xi -> exists x, fs_file (k_fs s) !! f = Some x /\ 1 <= f_ref x < 2 ^ 31 - 1 - Z.of_nat NOFILE).
Context (Hcwd : p_cwd xi = Some c) (Hino : fs_inode (k_fs s) !! c = Some ino) (Hiref : 0 <= i_ref ino < 2 ^ 31 - 1).

Lemma wp_idup_ref s3 (Q : nat -> list (kstate -> kstate) -> kstate -> Prop) : k_hw s3 = h1 -> fs_inode (k_fs s3) = fs_inode (k_fs s) ->
  Q c e (with_inodes s3 (alter (fun x => set_i_ref (i_ref x + 1) x) c (fs_inode (k_fs s)))) -> wp (idup c) e s3 Q.
Proof using All.
  intros Eh Ei HQ. destruct fork_locks as (A1 & A2 & A3 & A4 & A5 & A6). assert (Hl1 : lock_free h1 LItable) by (by apply A5).
  unfold idup. wp_step. apply wp_acquire; [by rewrite Eh | by rewrite Eh |]. wp_step. apply wp_inode_upd.
  wp_step. eapply (wp_release_acq LItable h1 1); [lia | done | done | cbn; by rewrite Eh |]. rewrite A6. wp_step.
  replace (alter _ c (inodes_of _)) with (alter (fun x => set_i_ref (i_ref x + 1) x) c (fs_inode (k_fs s))).
  2:{ unfold inodes_of. cbn. rewrite Ei. apply list_eq. intros g. rewrite !list_lookup_alter. destruct (decide (c = g)) as [<-|]; [|done]. rewrite Hino. cbn. by rewrite s32_small by lia. }
  replace (set_k_hw h1 _) with (with_inodes s3 (alter (fun x => set_i_ref (i_ref x + 1) x) c (fs_inode (k_fs s)))); [exact HQ|].
  destruct s3. cbn in Eh. rewrite Eh. done.
Qed.

(** the child shares the files and the directory of its parent *)
Lemma wp_fork_share tf pt s3 (Q : Z -> list (kstate -> kstate) -> kstate -> Prop) :
  k_hw s3 = h1 -> k_fs s3 = k_fs s ->
  k_ps s3 = upd_slot j (set_p_sz (p_sz xi) (fresh_slot (ps_nextpid (k_ps s)) tf pt (m_forkret (k_mm s)) (ps_ticks (k_ps s)) xj)) (next_pid (k_ps s)) ->
  (forall s', k_hw s' ≈h k_hw s -> k_mm s' = k_mm s3 -> k_io s' = k_io s3 ->
     k_fs s' = set_fs_inode (alter (fun x => set_i_ref (i_ref x + 1) x) c (fs_inode (k_fs s))) (set_fs_file (dups (p_ofile xi) (fs_file (k_fs s))) (k_fs s)) ->
     k_ps s' = ps_join j 0 q0 (child tf pt) (next_pid (k_ps s)) -> sched_inv (k_ps s') (<[0%nat := q0 ++ [j]]> ls) -> Q (ps_nextpid (k_ps s)) e s') ->
  wp (fork_files i j;; cwd <- pget i p_cwd;; cwd <- match cwd with Some ip => idup ip | None => fault "null inode" end;;
      pupd j (set_p_cwd (Some cwd));; name <- pget i p_name;; pupd j (fun x => set_p_name (safestrcpy_l (p_name x) name 16) x);;
      pid <- pget j p_pid;; release (LProc j);; acquire LWait;; pupd j (set_p_parent (Some i));; release LWait;;
      acquire (LProc j);; pupd j (set_p_state RUNNABLE);; kenqueue j 0;; release (LProc j);; ret pid) e s3 Q.
Proof using All.
  intros Eh Efs Eps HQ. destruct fork_locks as (A1 & A2 & A3 & A4 & A5 & A6). pose proof (lookup_lt_Some _ _ _ Hxj) as Hlt.
  set (y := set_p_sz _ _) in Eps. assert (Hofy : p_ofile y = replicate NOFILE None) by exact Hof.
  assert (Hself : forall z s', k_ps s' = upd_slot j z (next_pid (k_ps s)) -> ps_proc (k_ps s') !! j = Some z) by (intros z s' ->; by apply slot_self).
  assert (Hoth : forall z s', k_ps s' = upd_slot j z (next_pid (k_ps s)) -> ps_proc (k_ps s') !! i = Some xi) by (intros z s' ->; cbn; by rewrite list_lookup_insert_ne).
  wp_step. eapply (wp_fork_files h1 e A4 ltac:(by apply A5) A6 i j xi y s3); [exact Eh | exact Hij | by eapply Hoth | by eapply Hself | exact Hlen | exact Hofy | by rewrite Efs |].
  rewrite Eps, upd_slot_twice, Efs. set (s4 := set_k_ps _ _). wp_step. eapply wp_pget; [eapply Hoth; reflexivity|]. rewrite Hcwd. wp_step.
  apply wp_idup_ref; [exact Eh | cbn; by rewrite Efs |]. wp_step. eapply wp_pupd; [eapply Hself; reflexivity|]. cbn [s4 k_ps set_k_ps set_k_fs with_inodes]. rewrite upd_slot_twice.
  wp_step. eapply wp_pget; [eapply Hoth; reflexivity|]. wp_step. eapply wp_pupd; [eapply Hself; reflexivity|]. cbn [k_ps set_k_ps]. rewrite upd_slot_twice.
  match goal with |- context [set_p_name (safestrcpy_l ?a _ _) _] => change a with (p_name xj) end. set (s5 := set_k_ps _ _).
  assert (E5 : k_hw s5 = h1) by exact Eh. assert (P5 : k_ps s5 = upd_slot j (named tf pt) (next_pid (k_ps s))) by (unfold s5, named; reflexivity).
  eapply (wp_fork_finish tf pt s5 Q E5 P5). intros s' F1 F2 F3 F4 F5 F6. apply HQ; [exact F1 | exact F2 | exact F3 | | exact F5 | exact F6].
  rewrite F4. cbn. by rewrite Efs.
Qed.

Lemma wp_fork (Q : Z -> list (kstate -> kstate) -> kstate -> Prop) :
  (forall s' tf pt l' T M, forked s' tf pt l' T M -> Q (ps_nextpid (k_ps s)) e s') -> wp fork e s Q.
Proof using All.
  intros HQ. destruct fork_locks as (A1 & A2 & A3 & A4 & A5 & A6). pose proof (lookup_lt_Some _ _ _ Hxj) as Hlt. pose proof trapframe_max as (ET & ET1 & ET2).
  unfold fork. wp_step. eapply wp_curproc; [by eapply hart_ok_weaken; [|exact Hok]; lia | exact Hcur |]. fold h. set (s0 := set_k_hw h s). wp_step.
  eapply (wp_allocproc j xj e s0 l ls); [exact A1 | intros k Hk Hn; by apply A2, Hlp | by apply A2 | by apply A2 | apply Hinv | exact Hxj | exact Hst | exact Hpar | exact Hfirst
    | by eapply uvm_free | lia | exact Htr |].
  set (sb := set_k_hw h1 s0). intros s1 l1 tf pt T Hsu. change (set_k_hw _ s0) with sb in Hsu. pose proof Hsu as [S1 [S2 S2'] S3 S4 S5 S6 S7 S8 S9]. set (y := fresh_slot _ _ _ _ _ _) in S3.
  assert (Hoth : forall z s', k_ps s' = upd_slot j z (next_pid (k_ps s)) -> ps_proc (k_ps s') !! i = Some xi) by (intros z s' ->; cbn; by rewrite list_lookup_insert_ne).
  assert (Hself : forall z s', k_ps s' = upd_slot j z (next_pid (k_ps s)) -> ps_proc (k_ps s') !! j = Some z) by (intros z s' ->; by apply slot_self).
  wp_step. eapply wp_pget; [by eapply Hoth|]. wp_step. eapply wp_pget; [by eapply Hself|]. wp_step. eapply wp_pget; [by eapply Hoth|]. change (p_pagetable y) with pt.
  pose proof (parent_kept sb s1 tf pt l1 T eq_refl Hsu) as Hpk. assert (Eh1 : k_hw s1 = h1) by exact S1.
  wp_step. eapply (wp_uvmcopy h1 A4 ltac:(by apply A5) (p_pagetable xi) pt e s1 l1 Ti T Mi _ (p_sz xi)); [by rewrite Eh1 | lia | exact Hpk | exact S5 | | | |].
  { intros p Hp Hin. apply (parent_pages sb s1 tf pt l1 T eq_refl Hsu p Hin). rewrite <- S7. set_solver. }
  { intros k Hk. apply (top_low sb s1 tf pt l1 T eq_refl Hsu). unfold n. lia. }
  2:{ intros s2 _ Hc. exfalso. fold n in Hc. lia. }
  intros s2 l2 T2 M2 G _. fold n in G. destruct (mem_step_ps _ _ (gr_step _ _ _ _ _ _ _ _ _ _ _ _ _ G)) as (E2 & E2a & E2b). rewrite S3 in E2.
  assert (Eh2 : k_hw s2 = h1) by (eapply held_exact; [exact A1 | exact A3 | eapply mem_step_hw; [apply G | by rewrite Eh1]]).
  destruct (child_steps sb s1 tf pt l1 T eq_refl Hsu s2 l2 T2 M2 G) as (B1 & B2 & B3 & B4). set (m' := set_m_bytes _ _) in *.
  change (0 <? 0) with false. cbv iota. wp_step. eapply wp_pget; [by eapply Hoth|]. wp_step. eapply wp_pupd; [by eapply Hself|]. rewrite E2, upd_slot_twice.
  set (y2 := set_p_sz (p_sz xi) y). set (s3 := set_k_ps _ s2). wp_step. eapply wp_pget; [eapply Hoth; reflexivity|]. wp_step. eapply wp_pget; [eapply Hself; reflexivity|].
  change (p_trapframe y2) with tf. destruct (mem_only_end _ _ B1) as (Ee & _). change (m_end m') with (m_end (k_mm s2)) in *.
  pose proof (uvm_free _ _ _ _ _ _ B3) as (He & _). change (m_end m') with (m_end (k_mm s2)) in He.
  wp_step. unfold mem_move, modify_bytes, modify_mm. rewrite !(page_part (m_end (k_mm s2))) by (first [exact He | exact B4 | rewrite Ee; exact Hptf | unfold tf_size, PGSIZE; lia]).
  cbn [andb]. wp_step. wp_step. eapply (wp_tf_set j y2); [eapply Hself; reflexivity | |].
  { change (p_trapframe y2) with tf. eapply page_word; [exact He | exact B4 | done | unfold tf_a0, PGSIZE; lia]. }
  match goal with |- wp _ _ ?x _ => set (s4 := x) end.
  assert (Em : k_mm s4 = m') by reflexivity.
  eapply (wp_fork_share tf pt s4); [exact Eh2 | cbn; by rewrite E2b, S2' | reflexivity |].
  intros s' F1 F2 F3 F4 F5 F6. apply (HQ s' tf pt l2 T2 M2). destruct (child_pages sb s1 tf pt l1 T eq_refl Hsu s2 l2 T2 M2 G) as [C1 C2]. rewrite Em in F2.
  constructor; rewrite ?F2.
  - exact F1.
  - rewrite F3. cbn. by rewrite E2a, S2.
  - exact F4.
  - exact F5.
  - exact F6.
  - exact (child_owns sb s1 tf pt l1 T eq_refl Hsu s2 l2 T2 M2 G).
  - unfold holdings. change (p_sz (child tf pt)) with (p_sz xi). change (p_trapframe (child tf pt)) with tf. fold n. cbn [app]. rewrite <- app_assoc. exact C1.
  - eapply uvm_keep; [exact Hme | exact B1 | by eapply uvm_free | exact B2 |]. intros p Hp. rewrite <- C1. set_solver.
  - exact B2.
  - exact (child_copy sb s1 tf pt l1 T eq_refl Hsu s2 l2 T2 M2 G).
  - exact (child_frame sb s1 tf pt l1 T eq_refl Hsu s2 l2 T2 M2 G).
Qed.
End fork.

(** C11: [fork] makes a child that is a copy of its caller.  With a free slot, and three
    free pages for each page of the caller and six more, [fork] returns the next process id
    and the first free slot holds the child: runnable, last in the first queue, with the
    caller as its parent, the caller's name, size, open files and directory, one ticket,
    and zero system-call counts.  Each page of the caller has a copy with the same
    permissions and bytes, the registers are the caller's except that a0 is zero, so that
    the child's [fork] returns 0; each open file has one more reference for each
    descriptor and the directory one.  The child's pages come from the free list, with no
    page lost or shared, the caller's memory is as it was, scheduling is well-formed and
    all locks are free again. *)
Theorem fork_child i j xi xj e s ls q0 l Ti Mi c ino :
  hart_ok 2 (k_hw s) -> cur_is (k_hw s) i -> proc_locks_free (k_hw s) None -> Forall (lock_free (k_hw s)) [LWait; LKmem; LPid; LFtable; LItable] ->
  sched_inv (k_ps s) ls -> ls !! 0%nat = Some q0 -> 1 <= ps_nextpid (k_ps s) < 2 ^ 31 - 1 ->
  ps_proc (k_ps s) !! i = Some xi -> ps_proc (k_ps s) !! j = Some xj -> i <> j -> p_state xj = UNUSED ->
  0 <= p_sz xi <= TRAPFRAME -> uvm (k_mm s) l (p_pagetable xi) Ti Mi (pgs (p_sz xi)) -> (3 * pgs (p_sz xi) + 6 <= length l)%nat ->
  page_ok (m_end (k_mm s)) (p_trapframe xi) -> p_trapframe xi ∉ l ->
  phys_page (m_trampoline (k_mm s)) /\ m_trampoline (k_mm s) + PGSIZE <= 2 ^ 54 ->
  p_parent xj = None -> (forall k y, (k < j)%nat -> ps_proc (k_ps s) !! k = Some y -> p_state y <> UNUSED) ->
  p_ofile xj = replicate NOFILE None -> length (p_ofile xi) = NOFILE ->
  (forall f, Some f ∈ p_ofile xi -> exists x, fs_file (k_fs s) !! f = Some x /\ 1 <= f_ref x < 2 ^ 31 - 1 - Z.of_nat NOFILE) ->
  p_cwd xi = Some c -> fs_inode (k_fs s) !! c = Some ino -> 0 <= i_ref ino < 2 ^ 31 - 1 ->
  exists s' tf pt l' T M, fork e s = Ret (ps_nextpid (k_ps s)) e s' /\
    forked i j xi xj s ls q0 l Ti Mi c s' tf pt l' T M /\
    forall f, fs_file (k_fs s') !! f = ref_up (opens f (p_ofile xi)) <$> fs_file (k_fs s) !! f.
Proof.
  intros H1 H2 H3 H4 H5 H6 H7 H8 H9 H10 H11 H12 H13 H14 H15 H16 H17 H18 H19 H20 H21 H22 H23 H24 H25. rewrite !Forall_cons in H4. destruct H4 as (L1 & L2 & L3 & L4 & L5 & _).
  assert (wp fork e s (fun r e' s' => e' = e /\ r = ps_nextpid (k_ps s) /\ exists tf pt l' T M, forked i j xi xj s ls q0 l Ti Mi c s' tf pt l' T M)) as H.
  { eapply (wp_fork i j xi xj e s ls q0 l Ti Mi c ino); eauto 10. }
  apply wp_run in H as (r & s' & E & -> & tf & pt & l' & T & M & F). exists s', tf, pt, l', T, M. split_and!; [done | done |]. intros f. rewrite (fk_fs _ _ _ _ _ _ _ _ _ _ _ _ _ _ _ _ _ F). apply lookup_dups.
Qed.

(** The running process has two pages, descriptors 0 and 1 on one file and 2 on another;
    twelve pages are free, and slot 4 is the first free one. *)
Definition fork_free : list Z := (fun k : nat => 0x80071000 + k * PGSIZE) <$> seq 0 12.
Definition fork_parent : proc := set_p_cwd (Some 0%nat) (set_p_ofile ([Some 0; Some 0; Some 1]%nat ++ replicate 13 None) grow_proc).
Definition fork_demo : kstate :=
  set_k_fs (set_fs_inode (<[0%nat := mkinode 1 1 1 sl0 0 0 0 0 0 0 (replicate 13 0)]> (fs_inode fs0))
    (set_fs_file (<[0%nat := mkfile FD_NONE 2 1 1 0 None 0 0]> (<[1%nat := mkfile FD_NONE 1 1 1 0 None 0 0]> (fs_file fs0))) fs0))
  (set_k_mm (set_m_freelist 0x80071000 (set_m_bytes (stb (chain_mem two_pages fork_free) 0x80040003 7) mm0))
    (set_k_ps (set_ps_proc (<[0%nat := fork_parent]> demo_table) ps1) demo)).

Lemma fork_demo_parent : uvm (k_mm fork_demo) fork_free 0x80030000 copy_tables copy_map 2.
Proof.
  constructor; [constructor | | |]; try (refine (bool_decide_eq_true_1 _ _); vm_compute; reflexivity).
  - apply ptableb_sound. vm_compute. reflexivity.
  - intros i Hi. destruct i as [|[|i]]; [vm_compute; eauto..|lia].
Qed.

Lemma fork_child_witness : exists s' tf pt l' T M, fork [] fork_demo = Ret 5 [] s' /\
  forked 0 4 fork_parent (proc0 4) fork_demo demo_queues [0%nat] fork_free copy_tables copy_map 0 s' tf pt l' T M /\
  forall f, fs_file (k_fs s') !! f = ref_up (opens f (p_ofile fork_parent)) <$> fs_file (k_fs fork_demo) !! f.
Proof.
  apply (fork_child 0 4 fork_parent (proc0 4) [] fork_demo demo_queues [0%nat] fork_free copy_tables copy_map 0 (mkinode 1 1 1 sl0 0 0 0 0 0 0 (replicate 13 0))).
  - by apply hw1_hart.
  - reflexivity.
  - intros i Hi _. destruct (boot_proc_locks None i Hi) as [n Hn]; [done|]. by exists n.
  - repeat constructor; by apply hw1_lock.
  - apply sched_invb_sound. vm_compute. reflexivity.
  - reflexivity.
  - done.
  - reflexivity.
  - reflexivity.
  - done.
  - reflexivity.
  - done.
  - exact fork_demo_parent.
  - change (pgs (p_sz fork_parent)) with 2%nat. cbn. lia.
  - refine (bool_decide_eq_true_1 _ _). vm_compute. reflexivity.
  - refine (bool_decide_eq_true_1 _ _). vm_compute. reflexivity.
  - done.
  - reflexivity.
  - intros k y Hk Hy. do 4 (destruct k as [|k]; [injection Hy as <-; done|]). lia.
  - reflexivity.
  - reflexivity.
  - intros f Hf. change (p_ofile fork_parent) with ([Some 0; Some 0; Some 1]%nat ++ replicate 13 None) in Hf.
    apply elem_of_app in Hf as [Hf|Hf]; [|by apply elem_of_replicate in Hf as [? _]].
    rewrite !elem_of_cons in Hf. destruct Hf as [[= ->]|[[= ->]|[[= ->]|Hf]]]; [..|by apply elem_of_nil in Hf]; eexists; (split; [reflexivity | done]).
  - reflexivity.
  - reflexivity.
  - done.
Defined.
