(* ===== verification/Zombie.v ===== *)
(** The last act of a process (proc.c: [exit]).

    A process that exits gives up its files and its directory, hands its children to
    init, wakes its parent and leaves the processor as a zombie. *)
From S2P Require Import Prelude State Spinlock Queue Boot Cstring Kalloc Vm Uspace Ptable Uvm Ufree Printf Proc Copyio.
From S2P Require Import Sleeplock Console Pipe Disk Bio Bcache Log LogWrite LogOps Fs File FsRead Lifecycle Uproc Reap Fork.

(** ** Changes of the process table slot by slot *)

(** the table has gone through [f]; memory and devices are as they were *)
Record moved (f : nat -> proc -> proc) (s s' : kstate) : Prop := {
  mv_only : only_ps s s';
  mv_misc : same_misc (k_ps s) (k_ps s');
  mv_table : ps_proc (k_ps s') = imap f (ps_proc (k_ps s));
  mv_inv : exists ls, sched_inv (k_ps s') ls
}.
Lemma moved_trans f g s s1 s2 : moved f s s1 -> moved g s1 s2 -> moved (fun i x => g i (f i x)) s s2.
Proof.
  intros [A1 A2 A3 A4] [B1 B2 B3 B4]. constructor; [by etrans | by etrans | | done]. rewrite B3, A3. apply list_eq. intros i. rewrite !list_lookup_imap. by destruct (ps_proc (k_ps s) !! i).
Qed.
Lemma moved_ext f g s s' : (forall i x, ps_proc (k_ps s) !! i = Some x -> f i x = g i x) -> moved f s s' -> moved g s s'.
Proof.
  intros E [A1 A2 A3 A4]. constructor; [done | done | | done]. rewrite A3. apply list_eq. intros i. rewrite !list_lookup_imap.
  destruct (ps_proc (k_ps s) !! i) as [x|] eqn:Hx; [|done]. cbn. by rewrite E.
Qed.

(** the process [x] in slot [i], woken if it sleeps on one of the channels *)
Definition woken_by (W : list chan) (me i : nat) (x : proc) : proc :=
  if bool_decide (me <> i) && bool_decide (p_state x = SLEEPING) && bool_decide (p_chan x ∈ W) then set_p_state RUNNABLE x else x.
Lemma woken_by_nil me i x : woken_by [] me i x = x.
Proof. unfold woken_by. rewrite (bool_decide_eq_false_2 (p_chan x ∈ [])) by apply not_elem_of_nil. by rewrite andb_false_r. Qed.
Lemma woken_by_spec W me i x : woken_by W me i x = if decide (me <> i /\ p_state x = SLEEPING /\ p_chan x ∈ W) then set_p_state RUNNABLE x else x.
Proof. unfold woken_by. rewrite <- andb_assoc, <- !bool_decide_and. by destruct (decide _) as [H|H]; [rewrite bool_decide_eq_true_2 | rewrite bool_decide_eq_false_2]. Qed.
Lemma wake_woken W ch me i x : wake_proc ch (Some me) i (woken_by W me i x) = woken_by (W ++ [ch]) me i x.
Proof.
  assert (E : forall y, wake_proc ch (Some me) i y = if decide (me <> i /\ p_state y = SLEEPING /\ p_chan y = ch) then set_p_state RUNNABLE y else y).
  { intros y. unfold wake_proc, wakes. rewrite <- bool_decide_not, <- andb_assoc, <- !bool_decide_and. rewrite (bool_decide_ext _ (me <> i /\ p_state y = SLEEPING /\ p_chan y = ch)) by naive_solver.
    by destruct (decide _) as [H|H]; [rewrite bool_decide_eq_true_2 | rewrite bool_decide_eq_false_2]. }
  rewrite E, !woken_by_spec. destruct (decide (me <> i /\ p_state x = SLEEPING /\ p_chan x ∈ W)) as [(H1 & H2 & H3)|H].
  - rewrite decide_False by (cbn; naive_solver). rewrite decide_True; [done|]. rewrite elem_of_app. tauto.
  - destruct (decide (me <> i /\ p_state x = SLEEPING /\ p_chan x = ch)) as [(H1 & H2 & H3)|H'].
    + rewrite decide_True; [done|]. rewrite elem_of_app, list_elem_of_singleton. tauto.
    + rewrite decide_False; [done|]. rewrite elem_of_app, list_elem_of_singleton. tauto.
Qed.
Lemma woken_one ch me i x : wake_proc ch (Some me) i x = woken_by [ch] me i x.
Proof. rewrite <- (woken_by_nil me i x) at 1. apply (wake_woken [] ch). Qed.
Lemma woken_by_parent W me i x par : woken_by W me i (set_p_parent par x) = set_p_parent par (woken_by W me i x).
Proof. unfold woken_by. change (p_state (set_p_parent par x)) with (p_state x). change (p_chan (set_p_parent par x)) with (p_chan x). by destruct (_ && _). Qed.
Lemma woken_by_fields W me i x : p_parent (woken_by W me i x) = p_parent x /\ p_queue_number (woken_by W me i x) = p_queue_number x.
Proof. unfold woken_by. by destruct (_ && _). Qed.
Lemma woken_by_me W me x : woken_by W me me x = x.
Proof. unfold woken_by. by rewrite bool_decide_eq_false_2 by tauto. Qed.

(** [wakeup] by the running process [p] *)
Lemma wp_wakeup_by p ch e s ls (Q : unit -> list (kstate -> kstate) -> kstate -> Prop) :
  hart_ok 1 (k_hw s) -> cur_is (k_hw s) p -> proc_locks_free (k_hw s) (Some p) -> sched_inv (k_ps s) ls ->
  (forall s', moved (woken_by [ch] p) s s' -> Q tt e s') -> wp (wakeup ch) e s Q.
Proof.
  intros Hok Hc Hlk Hinv HQ. unfold cur_is in Hc. destruct (cur_cpu (k_hw s)) as [c|] eqn:Ec; [|done]. injection Hc as Hc.
  eapply (wp_wakeup ch (Some p) ls s e c); try done. intros s' (A1 & A2 & A3 & ls' & A4 & _). apply HQ. constructor; [done | done | | by exists ls'].
  rewrite A3. rewrite <- (qo_nproc _ _ (proj1 Hinv)) at 1. rewrite woken_table_all. apply imap_ext. intros i x _. apply woken_one.
Qed.

(** ** Giving up the files *)
Section files.
Context (h : hwstate) (e : list (kstate -> kstate)) (Hok : hart_ok 1 h) (Hlf : lock_free h LFtable).

Lemma wp_fileclose_shared f x s1 (Q : unit -> list (kstate -> kstate) -> kstate -> Prop) : k_hw s1 ≈h h -> fs_file (k_fs s1) !! f = Some x ->
  2 <= f_ref x < 2 ^ 31 -> (forall h', h' ≈h h -> Q tt e (set_k_hw h' (with_files (alter (ref_up (-1)) f (fs_file (k_fs s1))) s1))) -> wp (fileclose f) e s1 Q.
Proof using Hok Hlf.
  intros E1 Hx Hr HQ. pose proof E1 as E1'. symmetry in E1'. assert (Hok1 : hart_ok 1 (k_hw s1)) by (by eapply hart_ok_eqv). assert (Hl1 : lock_free (k_hw s1) LFtable) by (by eapply lock_free_eqv).
  unfold fileclose, file_at, file_upd, modify_fs. wp_step. apply wp_acquire; [done | done |].
  wp_step. wp_step. wp_step. cbn [k_fs set_k_hw]. rewrite Hx. wp_step. replace (f_ref x <? 1) with false by lia. wp_step. wp_step.
  wp_step. wp_step. wp_step. cbn [k_fs set_k_hw set_k_fs fs_file set_fs_file]. rewrite list_lookup_alter, decide_True, Hx by done. cbn [fmap option_fmap option_map]. wp_step.
  cbn [f_ref set_f_ref]. rewrite s32_small by lia. replace (0 <? f_ref x - 1) with true by lia.
  eapply (wp_release_acq LFtable (k_hw s1) 1); [lia | done | done | done |].
  replace (alter (fun x => set_f_ref (s32 (f_ref x - 1)) x) f (fs_file (k_fs s1))) with (alter (ref_up (-1)) f (fs_file (k_fs s1))).
  2:{ apply list_eq. intros g. rewrite !list_lookup_alter. destruct (decide (f = g)) as [<-|]; [|done]. rewrite Hx. cbn. unfold ref_up. by rewrite s32_small by lia. }
  apply (HQ (hw_crit (k_hw s1))). etransitivity; [apply hw_crit_eqv | done].
Qed.

Context (p : nat) (x : proc) (s : kstate) (Eh : k_hw s ≈h h) (Hx : ps_proc (k_ps s) !! p = Some x) (Hlen : length (p_ofile x) = NOFILE).
Let o := p_ofile x.
Let t := fs_file (k_fs s).
Context (Hrefs : forall f, Some f ∈ o -> exists y, t !! f = Some y /\ opens f o < f_ref y < 2 ^ 31).

(** the first [k] descriptors given up *)
Definition closing (k : nat) (h' : hwstate) : kstate :=
  set_k_hw h' (set_k_ps (upd_slot p (set_p_ofile (replicate k None ++ drop k o) x) (k_ps s)) (with_files (shift (-1) (take k o) t) s)).

Lemma wp_exit_files (Q : unit -> list (kstate -> kstate) -> kstate -> Prop) :
  (forall h', h' ≈h h -> Q tt e (set_k_hw h' (set_k_ps (upd_slot p (set_p_ofile (replicate NOFILE None) x) (k_ps s)) (with_files (shift (-1) o t) s)))) ->
  wp (exit_files p) e s Q.
Proof using All.
  intros HQ. unfold exit_files. pose proof (lookup_lt_Some _ _ _ Hx) as Hlt.
  apply (wp_mforall _ (fun rest e' s' => e' = e /\ exists k h', rest = seq k (NOFILE - k) /\ (k <= NOFILE)%nat /\ h' ≈h h /\ s' = closing k h')).
  - split; [done|]. exists 0%nat, (k_hw s). split_and!; [by rewrite Nat.sub_0_r | lia | done |]. unfold closing. rewrite take_0, drop_0. cbn [replicate app].
    replace (set_p_ofile o x) with x by (unfold o; by destruct x). unfold upd_slot, with_files, shift. rewrite list_insert_id by exact Hx. cbn. by destruct s as [? [] ? ? []].
  - intros z rest e' s' (-> & k & h' & Hrest & Hk & Hh' & ->). apply seq_rest in Hrest as (-> & -> & Hkn).
    destruct (lookup_lt_is_Some_2 o k) as [d Hd]; [unfold o; lia|]. assert (Et : take (S k) o = take k o ++ [d]) by (by apply take_S_r).
    assert (Ed : drop k o = d :: drop (S k) o) by (by apply drop_S).
    assert (Hlr : length (replicate k (@None nat)) = k) by apply length_replicate.
    assert (Hself : ps_proc (k_ps (closing k h')) !! p = Some (set_p_ofile (replicate k None ++ drop k o) x)) by (by apply slot_self).
    wp_step. eapply wp_pget; [exact Hself|]. cbn [p_ofile set_p_ofile]. rewrite lookup_app_r, Hlr, Nat.sub_diag, Ed by lia. cbn [lookup list_lookup mjoin option_join].
    assert (Hnext : forall s' h', h' ≈h h -> s' = closing (S k) h' -> e = e /\ exists k' h', seq (S k) (NOFILE - S k) = seq k' (NOFILE - k') /\ (k' <= NOFILE)%nat /\ h' ≈h h /\ s' = closing k' h').
    { intros s' h2 Hh2 ->. split; [done|]. by exists (S k), h2. }
    assert (Er : forall y : option nat, replicate k None ++ [y] ++ drop (S k) o = (replicate k None ++ [y]) ++ drop (S k) o) by (intros y; by rewrite app_assoc).
    assert (Er' : replicate k (@None nat) ++ [None] = replicate (S k) None) by (by rewrite replicate_S_end).
    destruct d as [f|].
    + destruct (Hrefs f) as (y & Hy & Hr1 & Hr2); [by eapply list_elem_of_lookup_2|].
      assert (Ho : opens f o = opens f (take k o) + 1 + opens f (drop (S k) o)).
      { rewrite <- (take_drop k o) at 1. rewrite Ed. change (Some f :: drop (S k) o) with ([Some f] ++ drop (S k) o). rewrite !opens_app, opens_one, decide_True by done. lia. }
      pose proof (opens_bounds f (take k o)). pose proof (opens_bounds f (drop (S k) o)).
      wp_step. eapply (wp_fileclose_shared f (ref_up (-1 * opens f (take k o)) y)); [exact Hh' | cbn; by rewrite lookup_shift, Hy | cbn; lia |]. intros h2 Hh2.
      eapply wp_pupd; [exact Hself|]. apply (Hnext _ h2 Hh2). unfold closing. rewrite Et, shift_snoc. cbn [from_option p_ofile set_p_ofile].
      rewrite Ed, insert_app_r_alt, Hlr, Nat.sub_diag by lia. cbn [insert list_insert]. change (None :: drop (S k) o) with ([None] ++ drop (S k) o). rewrite Er, Er'.
      cbn [k_ps set_k_hw set_k_ps with_files set_k_fs]. rewrite upd_slot_twice. done.
    + wp_step. apply (Hnext _ h' Hh'). unfold closing. rewrite Et, shift_snoc, Ed. change (None :: drop (S k) o) with ([None] ++ drop (S k) o). rewrite Er, Er'. done.
  - intros e' s' (-> & k & h' & Hrest & Hk & Hh' & ->). apply seq_done in Hrest as ->; [|done]. unfold closing. rewrite drop_ge, take_ge, app_nil_r by (unfold o; lia). by apply HQ.
Qed.
End files.

(** ** Giving up the directory *)
Lemma wp_iput_shared h ip y e s1 (Q : unit -> list (kstate -> kstate) -> kstate -> Prop) : hart_ok 1 h -> lock_free h LItable ->
  k_hw s1 ≈h h -> fs_inode (k_fs s1) !! ip = Some y -> 2 <= i_ref y < 2 ^ 31 ->
  (forall h', h' ≈h h -> Q tt e (set_k_hw h' (with_inodes s1 (alter (fun x => set_i_ref (i_ref x - 1) x) ip (fs_inode (k_fs s1)))))) -> wp (iput ip) e s1 Q.
Proof.
  intros Hok Hl E1 Hy Hr HQ. pose proof E1 as E1'. symmetry in E1'. assert (Hok1 : hart_ok 1 (k_hw s1)) by (by eapply hart_ok_eqv). assert (Hl1 : lock_free (k_hw s1) LItable) by (by eapply lock_free_eqv).
  unfold iput. wp_step. apply wp_acquire; [done | done |]. wp_step. eapply (wp_inode_at ip y); [exact Hy|]. replace (i_ref y =? 1) with false by lia. cbn [andb when].
  wp_step. wp_step. wp_step. apply wp_inode_upd. eapply (wp_release_acq LItable (k_hw s1) 1); [lia | done | done | done |].
  replace (alter _ ip (inodes_of _)) with (alter (fun x => set_i_ref (i_ref x - 1) x) ip (fs_inode (k_fs s1))).
  2:{ unfold inodes_of. cbn. apply list_eq. intros g. rewrite !list_lookup_alter. destruct (decide (ip = g)) as [<-|]; [|done]. rewrite Hy. cbn. by rewrite s32_small by lia. }
  apply (HQ (hw_crit (k_hw s1))). etransitivity; [apply hw_crit_eqv | done].
Qed.

(** an operation that has written nothing ends: there is nothing to commit *)
Lemma wp_end_op_idle p lg e s1 ls (Q : unit -> list (kstate -> kstate) -> kstate -> Prop) :
  hart_ok 2 (k_hw s1) -> lock_free (k_hw s1) LLog -> cur_is (k_hw s1) p -> proc_locks_free (k_hw s1) (Some p) -> sched_inv (k_ps s1) ls ->
  log_of s1 = set_log_outstanding 1 lg -> log_outstanding lg = 0 -> log_committing lg = 0 -> log_n lg = 0 ->
  (forall s', moved (woken_by [CLog] p) (with_log s1 lg) s' -> Q tt e s') -> wp end_op e s1 Q.
Proof.
  intros Hok Hlk Hcur Hlp Hinv El Eo Ec En HQ. assert (Hok1 : hart_ok 1 (k_hw s1)) by (by eapply hart_ok_weaken; [|done]; lia).
  unfold end_op. wp_step. apply wp_acquire; [done..|]. unfold lgets, lmod. do 2 wp_step. cbn. change (fs_log (k_fs s1)) with (log_of s1). rewrite El. cbn [log_outstanding set_log_outstanding].
  change (s32 (1 - 1)) with 0. do 4 wp_step. cbn. change (fs_log (k_fs s1)) with (log_of s1). rewrite El. cbn. rewrite Ec. change (istrue 0) with false. cbv iota. do 2 wp_step. cbn. do 2 wp_step. cbn. wp_step.
  eapply (wp_release_acq LLog (k_hw s1) 2); [lia | done | done | done |]. set (h := hw_crit (k_hw s1)).
  assert (Eh : h ≈h k_hw s1) by apply hw_crit_eqv. pose proof Eh as Eh'. symmetry in Eh'.
  assert (A1 : hart_ok 2 h) by (by eapply hart_ok_eqv). assert (A2 : lock_free h LLog) by (by eapply lock_free_eqv). assert (A3 : cur_is h p) by (by eapply cur_is_eqv).
  wp_step. unfold commit, lgets. do 2 wp_step. cbn. rewrite En. change (0 <? 0) with false. cbn [when]. wp_step. wp_step. apply wp_acquire; [by eapply hart_ok_weaken; [|exact A1]; lia | exact A2 |].
  wp_step. wp_step. set (s4 := set_k_fs _ _).
  assert (E4 : s4 = set_k_hw (hw_acq LLog h) (with_log s1 lg)).
  { unfold s4, with_log. clear -Eo Ec. destruct lg. cbn in *. subst. by destruct s1 as [? ? ? ? []]. }
  rewrite E4. wp_step. eapply (wp_wakeup_by p CLog e _ ls); [| | | exact Hinv |].
  - cbn. replace 1 with (2 - 1) by lia. by apply hart_ok_acq.
  - cbn. by eapply cur_is_taken.
  - intros i Hi Hne. cbn. destruct (Hlp i Hi Hne) as [m Hm]. exists m. rewrite (hw_acq_other _ _ A2) by done. destruct (hw_eqv_fields _ _ Eh) as (_ & _ & -> & _). done.
  - intros s5 [(B1 & B2 & B3 & B4) B5 B6 B7]. cbn in B1. eapply (wp_release_acq LLog h 2); [lia | done | done | by eapply held_exact |].
    apply HQ. constructor; [|done..]. split_and!; try done. cbn. etransitivity; [apply hw_crit_eqv | exact Eh].
Qed.

(** ** Giving up the children *)
Definition adopt (p i0 : nat) (x : proc) : proc := if decide (p_parent x = Some p) then set_p_parent (Some i0) x else x.
Definition kids (p : nat) (t : list proc) : nat := length (filter (.= Some p) (p_parent <$> t)).

Lemma adopt_woken p i0 W me i x : adopt p i0 (woken_by W me i x) = woken_by W me i (adopt p i0 x).
Proof. unfold adopt. destruct (woken_by_fields W me i x) as [-> _]. destruct (decide (p_parent x = Some p)); [by rewrite woken_by_parent | done]. Qed.
Lemma kids_take_S p t k x : t !! k = Some x -> kids p (take (S k) t) = (kids p (take k t) + if decide (p_parent x = Some p) then 1 else 0)%nat.
Proof.
  intros Hx. unfold kids. rewrite (take_S_r _ _ _ Hx), fmap_app, filter_app, length_app. f_equal. cbn [fmap list_fmap].
  destruct (decide (p_parent x = Some p)); [by rewrite filter_cons_True | by rewrite filter_cons_False].
Qed.

(** one slot is written *)
Lemma moved_upd f s s' k x z' : moved f s s' -> ps_proc (k_ps s) !! k = Some x -> same_key (f k x) z' -> live (p_state z') = live (p_state (f k x)) ->
  moved (fun i y => if decide (i = k) then z' else f i y) s (set_k_ps (upd_slot k z' (k_ps s')) s').
Proof.
  intros [A1 A2 A3 (ls & A4)] Hx Hk Hl. assert (Hz : ps_proc (k_ps s') !! k = Some (f k x)) by (by rewrite A3, list_lookup_imap, Hx). constructor.
  - exact A1.
  - exact A2.
  - cbn. rewrite A3. apply list_eq. intros i. rewrite list_lookup_insert_case, !list_lookup_imap, length_imap. destruct (decide (k = i)) as [<-|Hne].
    + rewrite decide_True by (split; [done | by eapply lookup_lt_Some]). rewrite Hx. cbn. by rewrite decide_True.
    + rewrite decide_False by tauto. destruct (ps_proc (k_ps s) !! i); [|done]. cbn. by rewrite decide_False by done.
  - exists ls. by eapply sched_inv_upd.
Qed.

Section reparent.
Context (p i0 : nat) (e : list (kstate -> kstate)) (s : kstate) (h : hwstate) (lk : lockid).
Context (Hok : hart_ok 2 h) (Hlk : lock_free h lk) (Eh : k_hw s = hw_acq lk h) (Hcur : cur_is (k_hw s) p) (Hlp : proc_locks_free (k_hw s) (Some p)).
Context (Hinit : ps_initproc (k_ps s) = Some i0) (Hinv : exists ls, sched_inv (k_ps s) ls).
Let t := ps_proc (k_ps s).
Let ch := CProc i0.

(** the first [k] slots visited *)
Definition visited (k : nat) (i : nat) (y : proc) : proc :=
  woken_by (replicate (kids p (take k t)) ch) p i (if decide (i < k)%nat then adopt p i0 y else y).

Lemma visited_S k x i y : t !! k = Some x -> t !! i = Some y -> p_parent x = Some p ->
  woken_by [ch] p i (if decide (i = k) then set_p_parent (Some i0) (visited k k x) else visited k i y) = visited (S k) i y.
Proof using All.
  intros Hx Hy Hp. unfold visited. rewrite (kids_take_S p t k x Hx), (decide_True _ _ Hp), Nat.add_1_r, replicate_S_end. rewrite <- woken_one.
  destruct (decide (i = k)) as [->|Hne].
  - rewrite Hx in Hy. injection Hy as <-. rewrite decide_False, decide_True by lia. rewrite <- woken_by_parent, wake_woken. f_equal. unfold adopt. by rewrite decide_True.
  - rewrite wake_woken. f_equal. destruct (decide (i < k)%nat), (decide (i < S k)%nat); first [reflexivity | lia].
Qed.
Lemma visited_skip k x i y : t !! k = Some x -> t !! i = Some y -> p_parent x <> Some p -> visited k i y = visited (S k) i y.
Proof using All.
  intros Hx Hy Hp. unfold visited. rewrite (kids_take_S p t k x Hx), (decide_False _ _ Hp), Nat.add_0_r. f_equal.
  destruct (decide (i < k)%nat), (decide (i < S k)%nat); try done; [lia|]. assert (i = k) as -> by lia. rewrite Hx in Hy. injection Hy as <-. unfold adopt. by rewrite decide_False.
Qed.

Lemma wp_reparent (Q : unit -> list (kstate -> kstate) -> kstate -> Prop) :
  (forall s', moved (fun i y => woken_by (replicate (kids p t) ch) p i (adopt p i0 y)) s s' -> Q tt e s') -> wp (reparent p) e s Q.
Proof using All.
  intros HQ. unfold reparent, slots. assert (Hnp : length t = NPROC) by (destruct Hinv as [ls Hi]; apply (qo_nproc _ _ (proj1 Hi))).
  assert (Hok1 : hart_ok 1 (k_hw s)) by (rewrite Eh; replace 1 with (2 - 1) by lia; by apply hart_ok_acq).
  apply (wp_mforall _ (fun rest e' s' => e' = e /\ exists k, rest = seq k (NPROC - k) /\ (k <= NPROC)%nat /\ moved (visited k) s s')).
  - split; [done|]. exists 0%nat. split_and!; [by rewrite Nat.sub_0_r | lia |]. constructor; [done | done | | done]. symmetry. apply list_eq. intros i. rewrite list_lookup_imap. fold t.
    destruct (t !! i); [|done]. cbn. unfold visited. rewrite take_0, decide_False by lia. by rewrite woken_by_nil.
  - intros z rest e' s' (-> & k & Hrest & Hk & Hm). apply seq_rest in Hrest as (-> & -> & Hkn). destruct (lookup_lt_is_Some_2 t k) as [x Hx]; [lia|].
    pose proof Hm as [(M1 & M2 & M3 & M4) (N1 & N2) M6 M7].
    assert (Hz : ps_proc (k_ps s') !! k = Some (visited k k x)) by (rewrite M6, list_lookup_imap; fold t; by rewrite Hx).
    assert (Hp : p_parent (visited k k x) = p_parent x) by (unfold visited; rewrite decide_False by lia; apply woken_by_fields).
    assert (Hnext : forall s2, moved (visited (S k)) s s2 -> e = e /\ exists k', seq (S k) (NPROC - S k) = seq k' (NPROC - k') /\ (k' <= NPROC)%nat /\ moved (visited k') s s2) by (intros s2 H2; split; [done | by exists (S k)]).
    wp_step. eapply wp_pget; [exact Hz|]. rewrite Hp. destruct (bool_decide (p_parent x = Some p)) eqn:E; cbn [when].
    + apply bool_decide_eq_true_1 in E. wp_step. wp_step. rewrite N1, Hinit. wp_step. eapply wp_pupd; [exact Hz|]. wp_step. wp_step. cbn [k_ps set_k_ps]. change (ps_initproc (upd_slot _ _ _)) with (ps_initproc (k_ps s')). rewrite N1, Hinit.
      pose proof (moved_upd (visited k) s s' k x (set_p_parent (Some i0) (visited k k x)) Hm Hx ltac:(done) ltac:(done)) as Hm2. set (s2 := set_k_ps _ s') in *.
      pose proof Hm2 as [(P1 & _) _ _ (ls2 & P4)]. assert (E2 : k_hw s2 = k_hw s) by (rewrite Eh in *; by eapply held_exact).
      eapply (wp_wakeup_by p ch e s2 ls2); [by rewrite E2 | by rewrite E2 | by rewrite E2 | exact P4 |]. intros s3 Hm3. apply Hnext.
      eapply moved_ext; [|eapply moved_trans; [exact Hm2 | exact Hm3]]. intros i y Hy. cbn beta. by apply visited_S.
    + apply bool_decide_eq_false_1 in E. wp_step. apply Hnext. eapply moved_ext; [|exact Hm]. intros i y Hy. by eapply visited_skip.
  - intros e' s' (-> & k & Hrest & Hk & Hm). apply seq_done in Hrest as ->; [|done]. apply HQ. eapply moved_ext; [|exact Hm]. intros i y Hy. unfold visited.
    rewrite take_ge by lia. by rewrite decide_True by (rewrite <- Hnp; by eapply lookup_lt_Some).
Qed.
End reparent.

(** ** exit *)
Lemma woken_app W W' me i x : woken_by W' me i (woken_by W me i x) = woken_by (W ++ W') me i x.
Proof.
  revert W x. induction W' as [|ch W' IH]; intros W x; [by rewrite app_nil_r, woken_by_nil|].
  assert (E : forall y, woken_by (ch :: W') me i y = woken_by W' me i (woken_by [ch] me i y)) by (intros y; rewrite IH; done).
  rewrite E, <- woken_one, wake_woken, IH, <- app_assoc. done.
Qed.

Lemma wp_unbind {A B} (m : K A) (k : A -> K B) e s (Q : B -> list (kstate -> kstate) -> kstate -> Prop) : wp (bind m k) e s Q -> wp m e s (fun a e' s' => wp (k a) e' s' Q).
Proof. unfold wp, bind. by destruct (m e s). Qed.

(** the first of two locks is released *)
Lemma wp_release_outer lk p h e s (Q : unit -> list (kstate -> kstate) -> kstate -> Prop) : hart_ok 2 h -> lock_free h lk -> lock_free h (LProc p) -> lk <> LProc p ->
  k_hw s = hw_acq (LProc p) (hw_acq lk h) -> Q tt e (set_k_hw (hw_rel lk (k_hw s)) s) -> wp (release lk) e s Q.
Proof.
  intros Hok Hl Hp Hne Eh HQ. pose proof (hart_ok_acq h lk 2 Hok Hl) as Hok1. assert (Hp1 : lock_free (hw_acq lk h) (LProc p)).
  { destruct Hp as [n Hn]. exists n. by rewrite (hw_acq_other h lk). }
  destruct (hw_acq_cpu (hw_acq lk h) (LProc p) _ Hok1 Hp1) as (c1 & Hc1 & Hc2 & Hs2 & Hn1 & Hn2 & _). rewrite <- Eh in *.
  destruct (hw_acq_held h lk Hl) as [n Hh]. destruct (hw_acq_fields (LProc p) (hw_acq lk h)) as (Ht & _). rewrite <- Eh in Ht.
  eapply (wp_release _ _ _ (cpu_push (sie (hw_acq lk h)) c1)); [done | cbn; lia | done | | exact HQ].
  exists n. rewrite Ht, Eh, (hw_acq_other _ _ Hp1) by congruence. done.
Qed.

Section exit.
Context (p i0 : nat) (x : proc) (status : Z) (s : kstate) (ls : list (list nat)) (c : nat) (ino : inode).
Context (Hok : hart_ok 2 (k_hw s)) (Hd : depth (k_hw s) = 0) (Hcur : cur_is (k_hw s) p) (Hlp : proc_locks_free (k_hw s) None).
Context (Hlw : lock_free (k_hw s) LWait) (Hll : lock_free (k_hw s) LLog) (Hlf : lock_free (k_hw s) LFtable) (Hli : lock_free (k_hw s) LItable).
Context (Hinv : sched_inv (k_ps s) ls) (Hx : ps_proc (k_ps s) !! p = Some x) (Hst : p_state x = RUNNING).
Context (Hinit : ps_initproc (k_ps s) = Some i0) (Hi0 : i0 <> p) (Hpar : p_parent x <> Some p).
Context (Hlen : length (p_ofile x) = NOFILE).
Context (Hrefs : forall f, Some f ∈ p_ofile x -> exists y, fs_file (k_fs s) !! f = Some y /\ opens f (p_ofile x) < f_ref y < 2 ^ 31).
Context (Hcwd : p_cwd x = Some c) (Hino : fs_inode (k_fs s) !! c = Some ino) (Hiref : 2 <= i_ref ino < 2 ^ 31).
Context (Hlog : log_outstanding (log_of s) = 0 /\ log_committing (log_of s) = 0 /\ log_n (log_of s) = 0 /\ length (log_block (log_of s)) = Z.to_nat LOGSIZE).

(** what wakes: the end of the operation, each child given to init, and the parent *)
Definition parent_chan : chan := match p_parent x with Some q => CProc q | None => CNull end.
Definition exit_wakes : list chan := CLog :: replicate (kids p (ps_proc (k_ps s))) (CProc i0) ++ [parent_chan].
Definition closed : proc := set_p_ofile (replicate NOFILE None) x.
Definition homeless : proc := set_p_cwd None closed.
Definition zombie : proc := set_p_etime (ps_ticks (k_ps s)) (set_p_state ZOMBIE (set_p_xstate status homeless)).

(** what [exit] leaves when it gives up the processor *)
Record exited (s' : kstate) : Prop := {
  ex_hw : sched_ready p (k_hw s') /\ lock_free (k_hw s') LWait;
  ex_mem : k_mm s' = k_mm s /\ k_io s' = k_io s;
  ex_fs : k_fs s' = set_fs_inode (alter (fun y => set_i_ref (i_ref y - 1) y) c (fs_inode (k_fs s))) (set_fs_file (shift (-1) (p_ofile x) (fs_file (k_fs s))) (k_fs s));
  ex_misc : same_misc (k_ps s) (k_ps s');
  ex_table : ps_proc (k_ps s') = <[p := zombie]> (imap (fun i y => woken_by exit_wakes p i (adopt p i0 y)) (ps_proc (k_ps s)));
  ex_sched : exists ls', sched_inv (k_ps s') ls'
}.

Lemma exit_hw h : h ≈h k_hw s -> hart_ok 2 h /\ hart_ok 1 h /\ cur_is h p /\ proc_locks_free h None /\ forall lk, lock_free (k_hw s) lk -> lock_free h lk.
Proof using All.
  intros E. symmetry in E. assert (A : hart_ok 2 h) by (by eapply hart_ok_eqv). assert (B : forall lk, lock_free (k_hw s) lk -> lock_free h lk) by (intros lk; by apply lock_free_eqv).
  split_and!; [done | eapply hart_ok_weaken; [|exact A]; lia | by eapply cur_is_eqv | | done]. intros i Hi Hn. by apply B, Hlp.
Qed.
Lemma depth_eqv h : h ≈h k_hw s -> depth h = 0.
Proof using All.
  intros E. pose proof (hw_eqv_cur _ _ E) as H. unfold depth in *. destruct (cur_cpu h) as [a|], (cur_cpu (k_hw s)) as [b|]; try done. by destruct H as (_ & _ & -> & _).
Qed.

(** the files and the directory are given up *)
Definition bare (h : hwstate) : kstate :=
  set_k_hw h (set_k_fs (set_fs_inode (alter (fun y => set_i_ref (i_ref y - 1) y) c (fs_inode (k_fs s))) (set_fs_file (shift (-1) (p_ofile x) (fs_file (k_fs s))) (k_fs s)))
    (set_k_ps (upd_slot p closed (k_ps s)) s)).
Lemma bare_inv : sched_inv (upd_slot p closed (k_ps s)) ls.
Proof using All. by eapply sched_inv_upd. Qed.

Lemma wp_exit_gives (Q : unit -> list (kstate -> kstate) -> kstate -> Prop) s0 : (exists h0, h0 ≈h k_hw s /\ s0 = set_k_hw h0 s) ->
  (forall h s', h ≈h k_hw s -> moved (fun i y => if decide (i = p) then homeless else woken_by [CLog] p i y) (bare h) s' -> Q tt [] s') ->
  wp (exit_files p;; begin_op;; cwd <- pget p p_cwd;; match cwd with Some ip => iput ip | None => fault "null inode" end;; end_op;; pupd p (set_p_cwd None)) [] s0 Q.
Proof using All.
  intros (h0 & E0 & ->) HQ. pose proof (lookup_lt_Some _ _ _ Hx) as Hlt. destruct (exit_hw h0 E0) as (A1 & A2 & A3 & A4 & A5). destruct Hlog as (L1 & L2 & L3 & L4).
  wp_step. eapply (wp_exit_files h0 [] A2 ltac:(by apply A5) p x (set_k_hw h0 s)); [done | exact Hx | exact Hlen | exact Hrefs |]. intros h1 E1. rewrite E0 in E1.
  destruct (exit_hw h1 E1) as (B1 & B2 & B3 & B4 & B5). match goal with |- context [wp _ _ ?z _] => set (s1 := z) end.
  assert (Hrep : log_rep (log_of s1) (mktxn [] [] false)).
  { change (log_of s1) with (log_of s). constructor; cbn [t_blocks t_ops t_committing length]; [unfold logged; by rewrite L3 | done | done | done | by rewrite L2]. }
  wp_step. eapply wp_mono; [apply (wp_begin_op s1 _ Hrep (reach_ok _ (rtc_refl _ _)) ltac:(by apply B5) [] B2 eq_refl)|]. intros _ e' s2 (-> & ->). set (s2 := set_k_hw _ _).
  assert (E2 : k_hw s2 ≈h k_hw s) by (etransitivity; [apply hw_crit_eqv | exact E1]). destruct (exit_hw _ E2) as (C1 & C2 & C3 & C4 & C5).
  assert (Hs2 : ps_proc (k_ps s2) !! p = Some closed) by (by apply slot_self). wp_step. eapply wp_pget; [exact Hs2|]. change (p_cwd closed) with (p_cwd x). rewrite Hcwd.
  wp_step. eapply (wp_iput_shared (k_hw s2) c ino [] s2 _ C2 ltac:(by apply C5)); [done | exact Hino | exact Hiref |]. intros h3 E3. rewrite E2 in E3.
  destruct (exit_hw _ E3) as (D1 & D2 & D3 & D4 & D5). set (s3 := set_k_hw h3 _). wp_step.
  eapply (wp_end_op_idle p (log_of s) [] s3 ls); [exact D1 | by apply D5 | exact D3 | intros i Hi Hn; by apply D4 | exact bare_inv | reflexivity | exact L1 | exact L2 | exact L3 |].
  intros s4 M4. assert (Eb : with_log s3 (log_of s) = bare h3).
  { unfold with_log, bare, s3, s2, s1, with_log, with_inodes, with_files, log_of. cbn. by destruct s as [? ? ? ? []]. }
  rewrite Eb in M4. assert (Hb : ps_proc (k_ps (bare h3)) !! p = Some closed) by (by apply slot_self).
  assert (H4 : ps_proc (k_ps s4) !! p = Some closed) by (rewrite (mv_table _ _ _ M4), list_lookup_imap, Hb; cbn; by rewrite woken_by_me).
  eapply wp_pupd; [exact H4|]. apply (HQ h3); [exact E3|].
  apply (moved_upd _ _ _ p closed homeless M4 Hb); rewrite woken_by_me; done.
Qed.

(** the processor is given up, with the parent woken *)
Lemma table_after t f5 : t = ps_proc (k_ps s) -> f5 = (fun i y => if decide (i = p) then homeless else woken_by [CLog] p i y) ->
  kids p (imap f5 (<[p := closed]> t)) = kids p t /\
  forall z, <[p := z]> (imap (woken_by [parent_chan] p) (imap (fun i y => woken_by (replicate (kids p t) (CProc i0)) p i (adopt p i0 y)) (imap f5 (<[p := closed]> t)))) =
    <[p := z]> (imap (fun i y => woken_by exit_wakes p i (adopt p i0 y)) t).
Proof using All.
  intros Et ->. rewrite <- Et in Hx. pose proof (lookup_lt_Some _ _ _ Hx) as Hlt. split.
  - unfold kids. f_equal. f_equal. apply list_eq. intros i. rewrite !list_lookup_fmap, list_lookup_imap, list_lookup_insert_case. destruct (decide (p = i)) as [<-|Hne].
    + rewrite decide_True by done. cbn. rewrite decide_True by done. by rewrite Hx.
    + rewrite decide_False by tauto. destruct (t !! i); [|done]. cbn. rewrite decide_False by done. f_equal. apply woken_by_fields.
  - intros z. apply list_eq. intros i. rewrite !list_lookup_insert_case, !length_imap, length_insert. destruct (decide (p = i)) as [<-|Hne]; [by rewrite !decide_True|].
    rewrite !decide_False by tauto. rewrite !list_lookup_imap, list_lookup_insert_ne by done. destruct (t !! i) as [y|]; [|done]. cbn [fmap option_fmap option_map]. f_equal. rewrite decide_False by done.
    rewrite adopt_woken, !woken_app. unfold exit_wakes. rewrite Et. cbn [app]. done.
Qed.

Lemma hands_exit : hands (exit status) [] s exited.
Proof using All.
  pose proof (lookup_lt_Some _ _ _ Hx) as Hlt. unfold exit. apply hands_bind. eapply wp_curproc; [eapply hart_ok_weaken; [|exact Hok]; lia | exact Hcur |].
  apply hands_bind. wp_step. cbn [k_ps set_k_hw]. rewrite Hinit. rewrite bool_decide_eq_false_2 by congruence.
  assert (Hassoc : forall (R : kstate -> Prop) (k : K unit) s0, wp (exit_files p;; begin_op;; cwd <- pget p p_cwd;; match cwd with Some ip => iput ip | None => fault "null inode" end;; end_op;; pupd p (set_p_cwd None)) [] s0 (fun _ e' s' => hands k e' s' R) ->
    hands (exit_files p;; begin_op;; cwd <- pget p p_cwd;; match cwd with Some ip => iput ip | None => fault "null inode" end;; end_op;; pupd p (set_p_cwd None);; k) [] s0 R).
  { intros R k s0 H. do 5 (apply hands_bind; apply wp_unbind in H; eapply wp_mono; [exact H|]; clear H; intros ? ? ? H). apply hands_bind. exact H. }
  apply Hassoc. apply wp_exit_gives; [exists (hw_crit (k_hw s)); split; [apply hw_crit_eqv | done]|].
  intros h s5 Eh M5. set (f5 := fun i y => _) in M5. pose proof M5 as [(O1 & O2 & O3 & O4) O5 O6 (ls5 & O7)]. cbn in O1. rewrite Eh in O1.
  destruct (exit_hw _ O1) as (A1 & A2 & A3 & A4 & A5). set (hE := k_hw s5) in *.
  assert (H5 : ps_proc (k_ps s5) !! p = Some homeless). { rewrite O6, list_lookup_imap. cbn. rewrite list_lookup_insert_eq by done. cbn. unfold f5. by rewrite decide_True. }
  apply hands_bind. apply wp_acquire; [exact A2 | by apply A5 |]. set (s6 := set_k_hw _ s5).
  assert (B1 : cur_is (k_hw s6) p) by (eapply cur_is_taken; [exact A1 | by apply A5 | exact A3]).
  assert (B2 : proc_locks_free (k_hw s6) (Some p)). { intros i Hi Hn. destruct (A4 i Hi ltac:(done)) as [m Hm]. exists m. cbn. rewrite (hw_acq_other hE LWait); [done | by apply A5 | done]. }
  apply hands_bind. eapply (wp_reparent p i0 [] s6 hE LWait); [exact A1 | by apply A5 | done | exact B1 | exact B2 | etransitivity; [exact (proj1 O5) | exact Hinit] | by exists ls5 |].
  intros s7 M7. pose proof M7 as [(P1 & P2 & P3 & P4) P5 P6 (ls7 & P7)]. change (ps_proc (k_ps s6)) with (ps_proc (k_ps s5)) in P6.
  assert (H7 : ps_proc (k_ps s7) !! p = Some homeless). { rewrite P6, list_lookup_imap, H5. cbn. rewrite woken_by_me. unfold adopt. by rewrite decide_False. }
  assert (E7 : k_hw s7 = hw_acq LWait hE) by (eapply held_exact; [exact A1 | by apply A5 | exact P1]).
  apply hands_bind. eapply wp_pget; [exact H7|]. change (p_parent homeless) with (p_parent x). fold parent_chan. change (k_hw s6) with (hw_acq LWait hE) in B1, B2.
  apply hands_bind. eapply (wp_wakeup_by p parent_chan [] s7 ls7); [rewrite E7; replace 1 with (2 - 1) by lia; apply hart_ok_acq; [exact A1 | by apply A5] | by rewrite E7 | by rewrite E7 | exact P7 |].
  intros s8 M8. pose proof M8 as [(R1 & R2 & R3 & R4) R5 R6 (ls8 & R7)]. rewrite E7 in R1.
  assert (H8 : ps_proc (k_ps s8) !! p = Some homeless) by (rewrite R6, list_lookup_imap, H7; cbn; by rewrite woken_by_me).
  assert (E8 : k_hw s8 = hw_acq LWait hE) by (eapply held_exact; [exact A1 | by apply A5 | exact R1]).
  assert (Hpf : lock_free hE (LProc p)) by (apply A4; [rewrite <- (qo_nproc _ _ (proj1 Hinv)); done | done]).
  apply hands_bind. apply wp_acquire.
  { rewrite E8. replace 1 with (2 - 1) by lia. apply hart_ok_acq; [exact A1 | by apply A5]. }
  { rewrite E8. destruct Hpf as [m Hm]. exists m. rewrite (hw_acq_other hE LWait); [done | by apply A5 | done]. }
  rewrite E8. set (h9 := hw_acq (LProc p) (hw_acq LWait hE)). pose proof (lookup_lt_Some _ _ _ H8) as Hlt8.
  assert (Hself : forall z s', k_ps s' = upd_slot p z (k_ps s8) -> ps_proc (k_ps s') !! p = Some z) by (intros z s' ->; by apply slot_self).
  assert (Et : ps_ticks (k_ps s8) = ps_ticks (k_ps s)).
  { destruct R5 as (_ & _ & _ & -> & _), P5 as (_ & _ & _ & -> & _). destruct O5 as (_ & _ & _ & O5 & _). exact O5. }
  apply hands_bind. eapply wp_pupd; [exact H8|]. apply hands_bind. eapply wp_pupd; [eapply Hself; reflexivity|]. apply hands_bind. wp_step. apply hands_bind. eapply wp_pupd; [eapply Hself; cbn [k_ps set_k_ps]; apply upd_slot_twice|].
  cbn [k_ps set_k_ps set_k_hw]. rewrite !upd_slot_twice. change (ps_ticks (upd_slot _ _ _)) with (ps_ticks (k_ps s8)). rewrite Et. change (set_p_etime _ _) with zombie.
  apply hands_bind. eapply wp_pget; [eapply Hself; reflexivity|]. change (p_queue_number zombie) with (p_queue_number x).
  destruct (queue_lookup _ _ _ _ (proj1 R7) H8) as (q & l & Hq & Hl). change (p_queue_number homeless) with (p_queue_number x) in Hq. rewrite Hq.
  assert (Hh : home homeless = Some q) by (unfold home; change (p_state homeless) with (p_state x); rewrite Hst; cbn [live]; change (p_queue_number homeless) with (p_queue_number x); by rewrite Hq, Nat2Z.id).
  assert (Hk : same_key homeless zombie) by (split_and!; [done | done | intros _; unfold used; change (p_state homeless) with (p_state x); by rewrite Hst]).
  apply hands_bind. eapply (wp_kdequeue_leave (k_ps s8) ls8 p homeless zombie q l); [exact R7 | exact H8 | exact Hk | done | exact Hl | reflexivity | exact Hh |].
  pose proof (sched_inv_leave (k_ps s8) ls8 p homeless zombie q l R7 H8 Hh Hl Hk eq_refl) as Hfin. cbv zeta in Hfin. set (ps9 := upd_slot p zombie _) in *.
  assert (Hpw : LWait <> LProc p) by done. apply hands_bind. eapply (wp_release_outer LWait p hE); [exact A1 | by apply A5 | exact Hpf | done | reflexivity |].
  destruct (sleep_hw LWait p hE s8 A1 ltac:(by apply depth_eqv) A3 ltac:(by apply A5) Hpw Hpf E8) as (cc & K1 & K2 & K3 & K4 & K5 & K6 & _). rewrite E8 in *. fold h9 in K1, K4, K5, K6.
  apply hands_bind_l. eapply (hands_sched p).
  { exists cc. split_and!; done. }
  { exists zombie. split; [by apply slot_self | done]. }
  destruct (table_after (ps_proc (k_ps s)) f5 eq_refl eq_refl) as [T1 T2]. constructor.
  - split; [by exists cc | exact K6].
  - cbn. rewrite R2, P2, R3, P3. cbn. by rewrite O2, O3.
  - cbn. rewrite R4, P4. cbn. by rewrite O4.
  - cbn. change (same_misc (k_ps s) (k_ps s8)). etransitivity; [|exact R5]. etransitivity; [|exact P5]. exact O5.
  - cbn. rewrite R6, P6, O6. change (ps_proc (k_ps (bare h))) with (<[p := closed]> (ps_proc (k_ps s))). rewrite T1. apply T2.
  - by eexists.
Qed.
End exit.

(** C12: [exit] ends a process and tells its parent.  For a process that shares its files and
    its directory with others (as one made by [fork] does), with no operation on the
    file system in flight: [exit] gives up the processor with the process a zombie,
    holding its status and in no queue; every file has one reference less for each of its
    descriptors and the directory one; its children belong to init; a parent asleep in
    [wait], init if it was given children, and those waiting for the log are runnable,
    and no other process has changed.  Memory is as it was, scheduling is well-formed,
    the wait lock is free and the process's own lock is held, as [sched] requires. *)
Theorem exit_zombie p i0 x status s ls c ino :
  hart_ok 2 (k_hw s) -> depth (k_hw s) = 0 -> cur_is (k_hw s) p -> proc_locks_free (k_hw s) None ->
  Forall (lock_free (k_hw s)) [LWait; LLog; LFtable; LItable] ->
  sched_inv (k_ps s) ls -> ps_proc (k_ps s) !! p = Some x -> p_state x = RUNNING -> ps_initproc (k_ps s) = Some i0 -> i0 <> p -> p_parent x <> Some p ->
  length (p_ofile x) = NOFILE -> (forall f, Some f ∈ p_ofile x -> exists y, fs_file (k_fs s) !! f = Some y /\ opens f (p_ofile x) < f_ref y < 2 ^ 31) ->
  p_cwd x = Some c -> fs_inode (k_fs s) !! c = Some ino -> 2 <= i_ref ino < 2 ^ 31 ->
  log_outstanding (log_of s) = 0 /\ log_committing (log_of s) = 0 /\ log_n (log_of s) = 0 /\ length (log_block (log_of s)) = Z.to_nat LOGSIZE ->
  hands (exit status) [] s (fun s' => exited p i0 x status s c s' /\
    (forall f, fs_file (k_fs s') !! f = ref_up (- opens f (p_ofile x)) <$> fs_file (k_fs s) !! f) /\
    forall q y, p_parent x = Some q -> ps_proc (k_ps s) !! q = Some y -> p_state y = SLEEPING -> p_chan y = CProc q ->
      exists y', ps_proc (k_ps s') !! q = Some y' /\ p_state y' = RUNNABLE).
Proof.
  intros H1 H2 H3 H4 H5 H6 H7 H8 H9 H10 H11 H12 H13 H14 H15 H16 H17. rewrite !Forall_cons in H5. destruct H5 as (L1 & L2 & L3 & L4 & _).
  eapply hands_mono; [eapply (hands_exit p i0 x status s ls c ino); eauto|]. intros s' F. split_and!; [done | |].
  - intros f. rewrite (ex_fs _ _ _ _ _ _ _ F). cbn. rewrite lookup_shift. by replace (-1 * opens f (p_ofile x)) with (- opens f (p_ofile x)) by lia.
  - intros q y Hq Hy Hs Hc. rewrite (ex_table _ _ _ _ _ _ _ F). assert (p <> q) as Hne by congruence. rewrite list_lookup_insert_ne, list_lookup_imap, Hy by done. eexists. split; [reflexivity|].
    cbn beta. rewrite woken_by_spec, decide_True; [done|]. assert (E : p_state (adopt p i0 y) = p_state y /\ p_chan (adopt p i0 y) = p_chan y) by (unfold adopt; by destruct (decide _)).
    destruct E as [-> ->]. split_and!; [done | done |]. rewrite Hc. unfold exit_wakes, parent_chan. rewrite Hq, elem_of_cons, elem_of_app, list_elem_of_singleton. tauto.
Qed.

(** The process in slot 0 exits; its parent in slot 2 is asleep in [wait], and its child in
    slot 1 goes to the process of slot 3, which stands for init. *)
Definition exit_proc : proc := set_p_parent (Some 2%nat) fork_parent.
Definition exit_table : list proc := <[2%nat := demo_proc 2 SLEEPING (CProc 2) 3 1 None]> (<[0%nat := exit_proc]> demo_table).
Definition exit_demo : kstate :=
  set_k_fs (set_fs_inode (<[0%nat := mkinode 1 1 2 sl0 0 0 0 0 0 0 (replicate 13 0)]> (fs_inode fs0))
    (set_fs_file (<[0%nat := mkfile FD_NONE 4 1 1 0 None 0 0]> (<[1%nat := mkfile FD_NONE 2 1 1 0 None 0 0]> (fs_file fs0))) fs0))
  (set_k_ps (set_ps_initproc (Some 3%nat) (set_ps_proc exit_table ps1)) demo).

Lemma exit_zombie_witness : hands (exit 7) [] exit_demo (fun s' => exited 0 3 exit_proc 7 exit_demo 0 s' /\
  (forall f, fs_file (k_fs s') !! f = ref_up (- opens f (p_ofile exit_proc)) <$> fs_file (k_fs exit_demo) !! f) /\
  forall q y, p_parent exit_proc = Some q -> ps_proc (k_ps exit_demo) !! q = Some y -> p_state y = SLEEPING -> p_chan y = CProc q ->
    exists y', ps_proc (k_ps s') !! q = Some y' /\ p_state y' = RUNNABLE).
Proof.
  apply (exit_zombie 0 3 exit_proc 7 exit_demo demo_queues 0 (mkinode 1 1 2 sl0 0 0 0 0 0 0 (replicate 13 0))).
  - by apply hw1_hart.
  - reflexivity.
  - reflexivity.
  - intros i Hi _. destruct (boot_proc_locks None i Hi) as [n Hn]; [done|]. by exists n.
  - repeat constructor; by apply hw1_lock.
  - apply sched_invb_sound. vm_compute. reflexivity.
  - reflexivity.
  - reflexivity.
  - reflexivity.
  - done.
  - done.
  - reflexivity.
  - intros f Hf. change (p_ofile exit_proc) with ([Some 0; Some 0; Some 1]%nat ++ replicate 13 None) in *.
    apply elem_of_app in Hf as [Hf|Hf]; [|by apply elem_of_replicate in Hf as [? _]].
    rewrite !elem_of_cons in Hf. destruct Hf as [[= ->]|[[= ->]|[[= ->]|Hf]]]; [..|by apply elem_of_nil in Hf]; eexists; (split; [reflexivity | vm_compute; split; reflexivity]).
  - reflexivity.
  - reflexivity.
  - done.
  - by split_and!.
Defined.
