(* ===== verification/Exec.v ===== *)
(** Program loading (exec.c).

    [exec] builds the new address space on the side and commits to it only when
    everything succeeded; every failure goes through [exec_bad]. *)
From S2P Require Import Prelude State Spinlock Queue Boot Cstring Kalloc Vm Printf Proc Copyio.
From S2P Require Import Sleeplock Console Pipe Disk Bio Log Fs File Lifecycle.

(** ** elf.h *)
Definition ELF_MAGIC : Z := 0x464C457F.
Definition ELF_PROG_LOAD : Z := 1.
Definition elfhdr_size : Z := 64.
Definition proghdr_size : Z := 56.
Definition get64 (l : list Z) (off : nat) : Z := get32 l off + 2 ^ 32 * get32 l (off + 4).

Record elfhdr := mkelf { elf_magic : Z; elf_entry : Z; elf_phoff : Z; elf_phnum : Z }.
Definition parse_elf (l : list Z) : elfhdr :=
  mkelf (get32 l 0) (get64 l 24) (get64 l 32) (get16 l 56).
Record proghdr := mkph {
  ph_type : Z; ph_flags : Z; ph_off : Z; ph_vaddr : Z; ph_filesz : Z; ph_memsz : Z
}.
Definition parse_ph (l : list Z) : proghdr :=
  mkph (get32 l 0) (get32 l 4) (get64 l 8) (get64 l 16) (get64 l 32) (get64 l 40).

(** ** exec.c *)
Definition flags2perm (flags : Z) : Z :=
  let perm := if istrue (Z.land flags 1) then PTE_X else 0 in
  if istrue (Z.land flags 2) then Z.lor perm PTE_W else perm.

Definition loadseg (pagetable va : Z) (ip : nat) (offset sz : Z) : K Z :=
  mloop (S (S (Z.to_nat (sz / PGSIZE)))) 0 (fun i =>
    if sz <=? i then ret (inr 0) else
    pa <- walkaddr pagetable (u64 (va + i));;
    if pa =? 0 then panic "loadseg: address should exist" else
    let n := if sz - i <? PGSIZE then sz - i else PGSIZE in
    r <- readi ip (ToPhys pa) (u32 (offset + i)) n;;
    if negb (u32 r.1 =? n) then ret (inr (-1)) else ret (inl (u32 (i + PGSIZE)))).

(** the segments: [inl sz] when all are loaded, [inr sz] for [goto bad] *)
Definition exec_load (ip : nat) (pagetable : Z) (elf : elfhdr) : K (Z + Z) :=
  r <- mfold (seq 0 (Z.to_nat (elf_phnum elf))) (s32 (elf_phoff elf), 0) (fun '(off, sz) _ =>
    let next (sz : Z) := (s32 (off + proghdr_size), sz) in
    r <- readi ip ToBuf (u32 off) proghdr_size;;
    if negb (r.1 =? proghdr_size) then ret (inr sz) else
    let ph := parse_ph r.2 in
    if negb (ph_type ph =? ELF_PROG_LOAD) then ret (inl (next sz)) else
    if ph_memsz ph <? ph_filesz ph then ret (inr sz) else
    if u64 (ph_vaddr ph + ph_memsz ph) <? ph_vaddr ph then ret (inr sz) else
    if istrue (ph_vaddr ph mod PGSIZE) then ret (inr sz) else
    sz1 <- uvmalloc pagetable sz (u64 (ph_vaddr ph + ph_memsz ph)) (flags2perm (ph_flags ph));;
    if sz1 =? 0 then ret (inr sz) else
    r <- loadseg pagetable (ph_vaddr ph) ip (u32 (ph_off ph)) (u32 (ph_filesz ph));;
    if r <? 0 then ret (inr sz1) else ret (inl (next sz1)));;
  ret (match r with inl (_, sz) => inl sz | inr sz => inr sz end).

(** a list of 64-bit words as bytes *)
Definition bytes64 (z : Z) : list Z := bytes32 z ++ bytes32 (z / 2 ^ 32).

(** push the argument strings and the argv array: [None] for [goto bad] *)
Definition exec_args (pagetable sz : Z) (argv : list (list Z)) : K (option (Z * Z)) :=
  let stackbase := u64 (sz - PGSIZE) in
  r <- mfold argv (sz, []) (fun '(sp, ustack) arg =>
    if MAXARG <=? length ustack then ret (inr tt) else
    let sp := u64 (sp - (length arg + 1)) in
    let sp := sp - sp mod 16 in
    if sp <? stackbase then ret (inr tt) else
    r <- copyout pagetable sp (arg ++ [0]);;
    if r <? 0 then ret (inr tt) else ret (inl (sp, ustack ++ [sp])));;
  match r with
  | inr _ => ret None
  | inl (sp, ustack) =>
      let argc := length ustack in
      let ustack := ustack ++ [0] in
      let sp := u64 (sp - (argc + 1) * 8) in
      let sp := sp - sp mod 16 in
      if sp <? stackbase then ret None else
      r <- copyout pagetable sp (mjoin (bytes64 <$> ustack));;
      if r <? 0 then ret None else ret (Some (Z.of_nat argc, sp))
  end.

(** the part of [path] after its last slash *)
Definition basename (path : list Z) : list Z :=
  fold_left (fun last i => if get8 path i =? slash then drop (S i) path else last)
    (seq 0 (length path)) path.

(** the label [bad] *)
Definition exec_bad (pagetable sz : Z) (ip : option nat) : K Z :=
  when (istrue pagetable) (proc_freepagetable pagetable sz);;
  match ip with
  | Some ip => iunlockput ip;; end_op
  | None => ret tt
  end;;
  ret (-1).

Definition exec_commit (path : list Z) (pagetable sz entry oldsz : Z) (argc sp : Z) : K Z :=
  p <- curproc;;
  tf_set p (tf_a 1) sp;;
  pupd p (fun x => set_p_name (safestrcpy_l (p_name x) (basename path) 16) x);;
  old <- pget p p_pagetable;;
  pupd p (set_p_pagetable pagetable);;
  pupd p (set_p_sz sz);;
  tf_set p tf_epc entry;;
  tf_set p tf_sp sp;;
  pupd p (set_p_syscall_count (replicate 32 0));;
  proc_freepagetable old oldsz;;
  ret (s32 argc).

Definition exec (path : list Z) (argv : list (list Z)) : K Z :=
  p <- curproc;;
  begin_op;;
  ip <- namei path;;
  match ip with
  | None => end_op;; ret (-1)
  | Some ip =>
      ilock (Some ip);;
      r <- readi ip ToBuf 0 elfhdr_size;;
      if negb (r.1 =? elfhdr_size) then exec_bad 0 0 (Some ip) else
      let elf := parse_elf r.2 in
      if negb (elf_magic elf =? ELF_MAGIC) then exec_bad 0 0 (Some ip) else
      pagetable <- proc_pagetable p;;
      if pagetable =? 0 then exec_bad 0 0 (Some ip) else
      r <- exec_load ip pagetable elf;;
      match r with
      | inr sz => exec_bad pagetable sz (Some ip)
      | inl sz =>
          iunlockput ip;;
          end_op;;
          p <- curproc;;
          oldsz <- pget p p_sz;;
          let sz := PGROUNDUP sz in
          sz1 <- uvmalloc pagetable sz (u64 (sz + 2 * PGSIZE)) PTE_W;;
          if sz1 =? 0 then exec_bad pagetable sz None else
          let sz := sz1 in
          uvmclear pagetable (u64 (sz - 2 * PGSIZE));;
          a <- exec_args pagetable sz argv;;
          match a with
          | None => exec_bad pagetable sz None
          | Some (argc, sp) => exec_commit path pagetable sz (elf_entry elf) oldsz argc sp
          end
      end
  end.
