(* ===== verification/Trapret.v ===== *)
(** The way back to user space: [usertrapret] of trap.c and [forkret] of proc.c.

    [usertrapret] ends by jumping to [userret] in the trampoline with the page
    table to switch to; the model returns that argument, and the state the jump
    is made in. *)
From S2P Require Import Prelude State Spinlock Queue Boot Cstring Kalloc Vm Printf Proc Copyio.
From S2P Require Import Sleeplock Console Pipe Disk Bio Log Fs File Lifecycle.

Definition r_sepc : K Z := gets (fun s => h_sepc (k_hw s)).
Definition w_sepc (x : Z) : K unit := modify_hw (set_h_sepc x).
Definition r_scause : K Z := gets (fun s => h_scause (k_hw s)).
Definition r_stval : K Z := gets (fun s => h_stval (k_hw s)).
Definition w_stvec (x : Z) : K unit := modify_hw (set_h_stvec x).
Definition r_satp : K Z := gets (fun s => h_satp (k_hw s)).
Definition w_satp (x : Z) : K unit := modify_hw (set_h_satp x).
Definition r_sip : K Z := gets (fun s => h_sip (k_hw s)).
Definition w_sip (x : Z) : K unit := modify_hw (set_h_sip x).

Definition usertrapret : K Z :=
  p <- curproc;;
  intr_off;;
  uservec <- gets (fun s => m_uservec (k_mm s) - m_trampoline (k_mm s));;
  w_stvec (u64 (TRAMPOLINE + uservec));;
  satp <- r_satp;;
  tf_set p tf_kernel_satp satp;;
  kstack <- pget p p_kstack;;
  tf_set p tf_kernel_sp (u64 (kstack + PGSIZE));;
  trap <- gets (fun s => m_usertrap (k_mm s));;
  tf_set p tf_kernel_trap trap;;
  id <- cpuid;;
  tf_set p tf_kernel_hartid id;;
  x <- r_sstatus;;
  let x := Z.land x (Z.lnot SSTATUS_SPP) in
  let x := Z.lor x SSTATUS_SPIE in
  w_sstatus x;;
  epc <- tf_get p tf_epc;;
  w_sepc epc;;
  pt <- pget p p_pagetable;;
  ret (MAKE_SATP pt).

Definition forkret : K Z :=
  p <- curproc;;
  release (LProc p);;
  first <- gets (fun s => ps_first (k_ps s));;
  when (istrue first) (modify_ps (set_ps_first 0);; fsinit ROOTDEV);;
  usertrapret.
