(* ===== verification/Syscall.v ===== *)
(** System calls: argument fetching and dispatch (syscall.c), the process calls
    (sysproc.c) and the file calls (sysfile.c).

    A handler returns [Some v] to come back to [syscall] with the value for
    [a0]; [sys_sigreturn] goes to user space directly and returns [None]. *)
From S2P Require Import Prelude State Spinlock Queue Boot Cstring Kalloc Vm Printf Proc Copyio.
From S2P Require Import Sleeplock Console Pipe Disk Bio Log Fs File Lifecycle Exec Trapret.

(** ** syscall.c: arguments *)
Definition fetchaddr (addr : Z) : K (option Z) :=
  p <- curproc;;
  sz <- pget p p_sz;;
  if (sz <=? addr) || (sz <? u64 (addr + 8)) then ret None else
  pt <- pget p p_pagetable;;
  r <- copyin pt addr 8;;
  ret (if negb (r.1 =? 0) then None else Some (get64 r.2 0)).

(** the length (or -1) and the string *)
Definition fetchstr (addr max : Z) : K (Z * list Z) :=
  p <- curproc;;
  pt <- pget p p_pagetable;;
  r <- copyinstr pt addr max;;
  if r.1 <? 0 then ret (-1, []) else ret (Z.of_nat (length (cstr r.2)), cstr r.2).

Definition argraw (n : Z) : K Z :=
  p <- curproc;;
  if (0 <=? n) && (n <=? 5) then tf_get p (tf_a n) else panic "argraw".
Definition argint (n : Z) : K Z := x <- argraw n;; ret (s32 x).
Definition argaddr (n : Z) : K Z := argraw n.
Definition argstr (n max : Z) : K (Z * list Z) := addr <- argaddr n;; fetchstr addr max.

(** ** syscall.h *)
Definition SYS_fork : nat := 1.
Definition SYS_exit : nat := 2.
Definition SYS_wait : nat := 3.
Definition SYS_pipe : nat := 4.
Definition SYS_read : nat := 5.
Definition SYS_kill : nat := 6.
Definition SYS_exec : nat := 7.
Definition SYS_fstat : nat := 8.
Definition SYS_chdir : nat := 9.
Definition SYS_dup : nat := 10.
Definition SYS_getpid : nat := 11.
Definition SYS_sbrk : nat := 12.
Definition SYS_sleep : nat := 13.
Definition SYS_uptime : nat := 14.
Definition SYS_open : nat := 15.
Definition SYS_write : nat := 16.
Definition SYS_mknod : nat := 17.
Definition SYS_unlink : nat := 18.
Definition SYS_link : nat := 19.
Definition SYS_mkdir : nat := 20.
Definition SYS_close : nat := 21.
Definition SYS_waitx : nat := 22.
Definition SYS_getSysCount : nat := 23.
Definition SYS_sigalarm : nat := 24.
Definition SYS_sigreturn : nat := 25.
Definition SYS_settickets : nat := 26.

(** [myproc()->syscall_count[num]++] *)
Definition bump (i : nat) (l : list Z) : list Z := alter (fun c => s32 (c + 1)) i l.
Definition count_call (num : nat) : K unit :=
  p <- curproc;; pupd p (fun x => set_p_syscall_count (bump num (p_syscall_count x)) x).

(** ** sysproc.c *)
Definition sys_exit : K Z :=
  count_call SYS_exit;;
  n <- argint 0;;
  exit n;;
  ret 0.
Definition sys_getpid : K Z :=
  count_call SYS_getpid;;
  p <- curproc;; pget p p_pid.
Definition sys_fork : K Z := count_call SYS_fork;; fork.
Definition sys_wait : K Z :=
  count_call SYS_wait;;
  p <- argaddr 0;;
  wait p.
Definition sys_sbrk : K Z :=
  count_call SYS_sbrk;;
  n <- argint 0;;
  p <- curproc;;
  addr <- pget p p_sz;;
  r <- growproc n;;
  ret (if r <? 0 then -1 else addr).

(** [ticks - ticks0 < n] compares unsigned *)
Definition sys_sleep : K Z :=
  count_call SYS_sleep;;
  n <- argint 0;;
  acquire LTicks;;
  ticks0 <- gets (fun s => ps_ticks (k_ps s));;
  sleep_loop 0 tt (fun _ =>
    t <- gets (fun s => ps_ticks (k_ps s));;
    if negb (u32 (t - ticks0) <? u32 n) then release LTicks;; ret (inr 0) else
    p <- curproc;;
    k <- killed p;;
    if istrue k then release LTicks;; ret (inr (-1)) else
    sleep CTicks LTicks;;
    ret (inl tt)).
Definition sys_kill : K Z :=
  count_call SYS_kill;;
  pid <- argint 0;;
  kill pid.
Definition sys_uptime : K Z :=
  count_call SYS_uptime;;
  acquire LTicks;;
  xticks <- gets (fun s => ps_ticks (k_ps s));;
  release LTicks;;
  ret xticks.

(** [junk]: what the uninitialized [wtime] and [rtime] hold *)
Definition sys_waitx (junk : Z * Z) : K Z :=
  count_call SYS_waitx;;
  addr <- argaddr 0;;
  addr1 <- argaddr 1;;
  addr2 <- argaddr 2;;
  r <- waitx addr;;
  let '(wtime, rtime) := default junk r.2 in
  p <- curproc;;
  pt <- pget p p_pagetable;;
  x <- copyout pt addr1 (bytes32 wtime);;
  if x <? 0 then ret (-1) else
  x <- copyout pt addr2 (bytes32 rtime);;
  if x <? 0 then ret (-1) else
  ret r.1.

(** the lowest bit of the mask *)
Definition mask_index (mask : Z) : Z :=
  match List.find (fun i : nat => istrue (Z.land mask (s32 (Z.shiftl 1 i)))) (seq 0 32) with
  | Some i => Z.of_nat i
  | None => -1
  end.
Definition sys_getSysCount : K Z :=
  count_call SYS_getSysCount;;
  mask <- argint 0;;
  p <- curproc;;
  let syscall_index := mask_index mask in
  if (syscall_index =? -1) || (32 <=? syscall_index) then ret (-1) else
  pget p (fun x => default 0 (p_syscall_count x !! Z.to_nat syscall_index)).

Definition sys_sigalarm : K Z :=
  count_call SYS_sigalarm;;
  ticks <- argint 0;;
  addr <- argaddr 1;;
  p <- curproc;; pupd p (set_p_ticks ticks);;
  p <- curproc;; pupd p (set_p_handler addr);;
  ret 0.

(** [None]: the call does not return to [syscall] *)
Definition sys_sigreturn : K (option Z) :=
  count_call SYS_sigreturn;;
  p <- curproc;;
  tf <- pget p p_trapframe;;
  alarm_tf <- pget p p_alarm_tf;;
  mem_move tf alarm_tf PGSIZE;;
  kfree alarm_tf;;
  pupd p (set_p_alarm_tf 0);;
  pupd p (set_p_alarm_on 0);;
  pupd p (set_p_cur_ticks 0);;
  pupd p (set_p_in_alarm_handler 0);;
  usertrapret;;
  ret None.

Definition sys_settickets : K Z :=
  count_call SYS_settickets;;
  n <- argint 0;;
  p <- curproc;; pupd p (set_p_tickets n);;
  ret 0.

(** ** sysfile.c *)

(** the descriptor and its file; [None] for -1 *)
Definition argfd (n : Z) : K (option (nat * nat)) :=
  fd <- argint n;;
  if (fd <? 0) || (NOFILE <=? fd) then ret None else
  p <- curproc;;
  o <- pget p (fun x => mjoin (p_ofile x !! Z.to_nat fd));;
  ret (match o with Some f => Some (Z.to_nat fd, f) | None => None end).

Definition fdalloc (f : nat) : K Z :=
  p <- curproc;;
  r <- mfor (seq 0 NOFILE) (fun fd =>
    o <- pget p (fun x => mjoin (p_ofile x !! fd));;
    match o with
    | None => pupd p (fun x => set_p_ofile (<[fd := Some f]> (p_ofile x)) x);; ret (Some (Z.of_nat fd))
    | Some _ => ret None
    end);;
  ret (default (-1) r).
Definition clear_fd (p : nat) (fd : Z) : K unit :=
  pupd p (fun x => set_p_ofile (<[Z.to_nat fd := None]> (p_ofile x)) x).

Definition sys_dup : K Z :=
  count_call SYS_dup;;
  o <- argfd 0;;
  match o with
  | None => ret (-1)
  | Some (_, f) =>
      fd <- fdalloc f;;
      if fd <? 0 then ret (-1) else filedup f;; ret fd
  end.
Definition sys_read : K Z :=
  count_call SYS_read;;
  p <- argaddr 1;;
  n <- argint 2;;
  o <- argfd 0;;
  match o with None => ret (-1) | Some (_, f) => fileread f p n end.
Definition sys_write : K Z :=
  count_call SYS_write;;
  p <- argaddr 1;;
  n <- argint 2;;
  o <- argfd 0;;
  match o with None => ret (-1) | Some (_, f) => filewrite f p n end.
Definition sys_close : K Z :=
  count_call SYS_close;;
  o <- argfd 0;;
  match o with
  | None => ret (-1)
  | Some (fd, f) => p <- curproc;; clear_fd p fd;; fileclose f;; ret 0
  end.
Definition sys_fstat : K Z :=
  count_call SYS_fstat;;
  st <- argaddr 1;;
  o <- argfd 0;;
  match o with None => ret (-1) | Some (_, f) => filestat f st end.

Definition fail_op : K Z := end_op;; ret (-1).
Definition nlink_add (ip : nat) (d : Z) : K unit :=
  inode_upd ip (fun x => set_i_nlink (s16 (i_nlink x + d)) x).

Definition sys_link : K Z :=
  count_call SYS_link;;
  old <- argstr 0 MAXPATH;;
  if old.1 <? 0 then ret (-1) else
  new <- argstr 1 MAXPATH;;
  if new.1 <? 0 then ret (-1) else
  begin_op;;
  ip <- namei old.2;;
  match ip with
  | None => fail_op
  | Some ip =>
      ilock (Some ip);;
      x <- inode_at ip;;
      if i_type x =? T_DIR then iunlockput ip;; fail_op else
      nlink_add ip 1;;
      iupdate ip;;
      iunlock (Some ip);;
      let bad := ilock (Some ip);; nlink_add ip (-1);; iupdate ip;; iunlockput ip;; fail_op in
      d <- nameiparent new.2;;
      match d.1 with
      | None => bad
      | Some dp =>
          ilock (Some dp);;
          y <- inode_at dp;;
          x <- inode_at ip;;
          r <- (if negb (i_dev y =? i_dev x) then ret (-1) else dirlink dp d.2 (i_inum x));;
          if r <? 0 then iunlockput dp;; bad else
          iunlockput dp;;
          iput ip;;
          end_op;;
          ret 0
      end
  end.

Definition isdirempty (dp : nat) : K bool :=
  x <- inode_at dp;;
  mloop (S (S (Z.to_nat (i_size x / DIRENT)))) (2 * DIRENT) (fun off =>
    x <- inode_at dp;;
    if i_size x <=? off then ret (inr true) else
    r <- readi dp ToBuf off DIRENT;;
    if negb (r.1 =? DIRENT) then panic "isdirempty: readi" else
    if negb (de_inum r.2 =? 0) then ret (inr false) else ret (inl (off + DIRENT))).

Definition sys_unlink : K Z :=
  count_call SYS_unlink;;
  path <- argstr 0 MAXPATH;;
  if path.1 <? 0 then ret (-1) else
  begin_op;;
  d <- nameiparent path.2;;
  match d.1 with
  | None => fail_op
  | Some dp =>
      ilock (Some dp);;
      let bad := iunlockput dp;; fail_op in
      if (namecmp d.2 (chars ".") =? 0) || (namecmp d.2 (chars "..") =? 0) then bad else
      r <- dirlookup dp d.2;;
      match r with
      | None => bad
      | Some (ip, off) =>
          ilock (Some ip);;
          x <- inode_at ip;;
          if i_nlink x <? 1 then panic "unlink: nlink < 1" else
          empty <- (if i_type x =? T_DIR then isdirempty ip else ret true);;
          if negb empty then iunlockput ip;; bad else
          r <- writei dp (FromBuf (replicate 16 0)) off DIRENT;;
          if negb (r =? DIRENT) then panic "unlink: writei" else
          x <- inode_at ip;;
          when (i_type x =? T_DIR) (nlink_add dp (-1);; iupdate dp);;
          iunlockput dp;;
          nlink_add ip (-1);;
          iupdate ip;;
          iunlockput ip;;
          end_op;;
          ret 0
      end
  end.

Definition create (path : list Z) (type major minor : Z) : K (option nat) :=
  d <- nameiparent path;;
  match d.1 with
  | None => ret None
  | Some dp =>
      ilock (Some dp);;
      r <- dirlookup dp d.2;;
      match r with
      | Some (ip, _) =>
          iunlockput dp;;
          ilock (Some ip);;
          x <- inode_at ip;;
          if (type =? T_FILE) && ((i_type x =? T_FILE) || (i_type x =? T_DEVICE)) then ret (Some ip)
          else iunlockput ip;; ret None
      | None =>
          y <- inode_at dp;;
          ip <- ialloc (i_dev y) type;;
          match ip with
          | None => iunlockput dp;; ret None
          | Some ip =>
              ilock (Some ip);;
              inode_upd ip (set_i_major (s16 major));;
              inode_upd ip (set_i_minor (s16 minor));;
              inode_upd ip (set_i_nlink 1);;
              iupdate ip;;
              let fail := inode_upd ip (set_i_nlink 0);; iupdate ip;; iunlockput ip;; iunlockput dp;;
                          ret None in
              x <- inode_at ip;;
              y <- inode_at dp;;
              r <- (if type =? T_DIR then
                      r <- dirlink ip (chars ".") (i_inum x);;
                      if r <? 0 then ret (-1) else dirlink ip (chars "..") (i_inum y)
                    else ret 0);;
              if r <? 0 then fail else
              r <- dirlink dp d.2 (i_inum x);;
              if r <? 0 then fail else
              when (type =? T_DIR) (nlink_add dp 1;; iupdate dp);;
              iunlockput dp;;
              ret (Some ip)
          end
      end
  end.

(** ** open *)
Definition sys_open : K Z :=
  count_call SYS_open;;
  omode <- argint 1;;
  path <- argstr 0 MAXPATH;;
  if path.1 <? 0 then ret (-1) else
  begin_op;;
  o <- (if istrue (Z.land omode O_CREATE) then create path.2 T_FILE 0 0
        else
          ip <- namei path.2;;
          match ip with
          | None => ret None
          | Some ip =>
              ilock (Some ip);;
              x <- inode_at ip;;
              if (i_type x =? T_DIR) && negb (omode =? O_RDONLY) then iunlockput ip;; ret None
              else ret (Some ip)
          end);;
  match o with
  | None => fail_op
  | Some ip =>
      x <- inode_at ip;;
      if (i_type x =? T_DEVICE) && ((i_major x <? 0) || (NDEV <=? i_major x)) then
        iunlockput ip;; fail_op
      else
      f <- filealloc;;
      fd <- match f with Some f => fdalloc f | None => ret (-1) end;;
      match f with
      | None => iunlockput ip;; fail_op
      | Some f =>
          if fd <? 0 then fileclose f;; iunlockput ip;; fail_op else
          (if i_type x =? T_DEVICE then
             file_upd f (set_f_type FD_DEVICE);; file_upd f (set_f_major (i_major x))
           else file_upd f (set_f_type FD_INODE);; file_upd f (set_f_off 0));;
          file_upd f (set_f_ip (Some ip));;
          file_upd f (set_f_readable (b2z (Z.land omode O_WRONLY =? 0)));;
          file_upd f (set_f_writable (b2z (istrue (Z.land omode O_WRONLY) || istrue (Z.land omode O_RDWR))));;
          when (istrue (Z.land omode O_TRUNC) && (i_type x =? T_FILE)) (itrunc ip);;
          iunlock (Some ip);;
          end_op;;
          ret fd
      end
  end.

Definition sys_mkdir : K Z :=
  count_call SYS_mkdir;;
  begin_op;;
  path <- argstr 0 MAXPATH;;
  ip <- (if path.1 <? 0 then ret None else create path.2 T_DIR 0 0);;
  match ip with
  | None => fail_op
  | Some ip => iunlockput ip;; end_op;; ret 0
  end.

Definition sys_mknod : K Z :=
  count_call SYS_mknod;;
  begin_op;;
  major <- argint 1;;
  minor <- argint 2;;
  path <- argstr 0 MAXPATH;;
  ip <- (if path.1 <? 0 then ret None else create path.2 T_DEVICE (s16 major) (s16 minor));;
  match ip with
  | None => fail_op
  | Some ip => iunlockput ip;; end_op;; ret 0
  end.

Definition sys_chdir : K Z :=
  count_call SYS_chdir;;
  p <- curproc;;
  begin_op;;
  path <- argstr 0 MAXPATH;;
  ip <- (if path.1 <? 0 then ret None else namei path.2);;
  match ip with
  | None => fail_op
  | Some ip =>
      ilock (Some ip);;
      x <- inode_at ip;;
      if negb (i_type x =? T_DIR) then iunlockput ip;; fail_op else
      iunlock (Some ip);;
      cwd <- pget p p_cwd;;
      match cwd with Some c => iput c | None => fault "null inode" end;;
      end_op;;
      pupd p (set_p_cwd (Some ip));;
      ret 0
  end.

(** fetch the argument strings: the pages taken so far, and the strings unless
    something failed *)
Definition exec_argv (uargv : Z) : K (list Z * option (list (list Z))) :=
  r <- mfold (seq 0 MAXARG) ([], []) (fun '(pages, argv) i =>
    u <- fetchaddr (u64 (uargv + 8 * i));;
    match u with
    | None => ret (inr (pages, None))
    | Some uarg =>
        if uarg =? 0 then ret (inr (pages, Some argv)) else
        pg <- kalloc;;
        if pg =? 0 then ret (inr (pages, None)) else
        r <- fetchstr uarg PGSIZE;;
        if r.1 <? 0 then ret (inr (pages ++ [pg], None)) else
        write_phys pg (r.2 ++ [0]);;
        ret (inl (pages ++ [pg], argv ++ [r.2]))
    end);;
  match r with
  | inl (pages, _) => ret (pages, None)
  | inr x => ret x
  end.

Definition sys_exec : K Z :=
  count_call SYS_exec;;
  uargv <- argaddr 1;;
  path <- argstr 0 MAXPATH;;
  if path.1 <? 0 then ret (-1) else
  a <- exec_argv uargv;;
  match a.2 with
  | None => mforall a.1 kfree;; ret (-1)
  | Some argv => r <- exec path.2 argv;; mforall a.1 kfree;; ret r
  end.

Definition sys_pipe : K Z :=
  count_call SYS_pipe;;
  p <- curproc;;
  fdarray <- argaddr 0;;
  r <- pipealloc;;
  match r with
  | None => ret (-1)
  | Some (rf, wf) =>
      fd0 <- fdalloc rf;;
      fd1 <- (if fd0 <? 0 then ret (-1) else fdalloc wf);;
      if (fd0 <? 0) || (fd1 <? 0) then
        when (0 <=? fd0) (clear_fd p fd0);;
        fileclose rf;;
        fileclose wf;;
        ret (-1)
      else
      pt <- pget p p_pagetable;;
      r <- copyout pt fdarray (bytes32 fd0);;
      r <- (if r <? 0 then ret r else copyout pt (u64 (fdarray + 4)) (bytes32 fd1));;
      if r <? 0 then
        clear_fd p fd0;;
        clear_fd p fd1;;
        fileclose rf;;
        fileclose wf;;
        ret (-1)
      else ret 0
  end.

(** ** syscall.c: dispatch *)
Definition returns (m : K Z) : K (option Z) := r <- m;; ret (Some r).

(** the table [syscalls] *)
Definition syscalls (junk : Z * Z) (num : Z) : option (K (option Z)) :=
  match num with
  | 1 => Some (returns sys_fork)
  | 2 => Some (returns sys_exit)
  | 3 => Some (returns sys_wait)
  | 4 => Some (returns sys_pipe)
  | 5 => Some (returns sys_read)
  | 6 => Some (returns sys_kill)
  | 7 => Some (returns sys_exec)
  | 8 => Some (returns sys_fstat)
  | 9 => Some (returns sys_chdir)
  | 10 => Some (returns sys_dup)
  | 11 => Some (returns sys_getpid)
  | 12 => Some (returns sys_sbrk)
  | 13 => Some (returns sys_sleep)
  | 14 => Some (returns sys_uptime)
  | 15 => Some (returns sys_open)
  | 16 => Some (returns sys_write)
  | 17 => Some (returns sys_mknod)
  | 18 => Some (returns sys_unlink)
  | 19 => Some (returns sys_link)
  | 20 => Some (returns sys_mkdir)
  | 21 => Some (returns sys_close)
  | 22 => Some (returns (sys_waitx junk))
  | 23 => Some (returns sys_getSysCount)
  | 24 => Some (returns sys_sigalarm)
  | 25 => Some sys_sigreturn
  | 26 => Some (returns sys_settickets)
  | _ => None
  end.

(** does the call come back to [usertrap]? *)
Definition syscall (junk : Z * Z) : K bool :=
  p <- curproc;;
  a7 <- tf_get p (tf_a 7);;
  let num := s32 a7 in
  match syscalls junk num with
  | Some h =>
      r <- h;;
      match r with
      | Some v => tf_set p tf_a0 (u64 v);; ret true
      | None => ret false
      end
  | None =>
      pid <- pget p p_pid;;
      name <- pget p p_name;;
      printf "%d %s: unknown sys call %d
" [AInt pid; AStr (Some (cstr name)); AInt num];;
      tf_set p tf_a0 (u64 (-1));;
      ret true
  end.

(** ** Theorems *)
Lemma wp_count_call p x e s num (Q : unit -> list (kstate -> kstate) -> kstate -> Prop) :
  ps_proc (k_ps s) !! p = Some x -> hart_ok 1 (k_hw s) -> cur_is (k_hw s) p ->
  Q tt e (set_k_ps (upd_slot p (set_p_syscall_count (bump num (p_syscall_count x)) x) (k_ps s))
    (set_k_hw (hw_crit (k_hw s)) s)) ->
  wp (count_call num) e s Q.
Proof.
  intros Hx Hok Hcur HQ. unfold count_call. wp_step. eapply wp_curproc; [done..|].
  eapply wp_pupd; [done|]. exact HQ.
Qed.

(** bit [i] of an [int], as the code tests it *)
Lemma mask_bit x (i : nat) : - 2 ^ 31 <= x < 2 ^ 31 -> (i < 32)%nat ->
  istrue (Z.land x (s32 (Z.shiftl 1 i))) = Z.testbit x i.
Proof.
  intros Hx Hi. rewrite Z.shiftl_1_l. destruct (decide (i = 31%nat)) as [->|Hne].
  - change (s32 (2 ^ 31%nat)) with (Z.lnot (2 ^ 31 - 1)). rewrite land_lnot_mask by lia.
    unfold istrue. destruct (Z.leb_spec 0 x) as [Hp|Hn].
    + rewrite Z.mod_small, Z.sub_diag by lia. symmetry.
      destruct (decide (x = 0)) as [->|]; [by rewrite Z.bits_0|].
      apply Z.bits_above_log2; [done|]. apply Z.log2_lt_pow2; lia.
    + pose proof (Z.mod_pos_bound x (2 ^ 31) ltac:(lia)).
      assert (x - x mod 2 ^ 31 <> 0) as Hnz by lia. rewrite (proj2 (Z.eqb_neq _ _) Hnz). symmetry.
      apply Z.bits_above_log2_neg; [lia|].
      destruct (decide (x = -1)) as [->|]; [done|]. apply Z.log2_lt_pow2; lia.
  - assert (0 <= 2 ^ Z.of_nat i < 2 ^ 31) as Hr.
    { split; [lia|]. apply Z.pow_lt_mono_r; lia. }
    rewrite s32_small by lia. unfold istrue.
    destruct (Z.testbit x i) eqn:E.
    + apply negb_true_iff, Z.eqb_neq. intros H0.
      assert (Z.testbit (Z.land x (2 ^ Z.of_nat i)) i = true) as Hb.
      { rewrite Z.land_spec, E, Z.pow2_bits_true by lia. done. }
      rewrite H0, Z.bits_0 in Hb. done.
    + apply negb_false_iff, Z.eqb_eq, Z.bits_inj'. intros n Hn. rewrite Z.land_spec, Z.bits_0.
      rewrite Z.pow2_bits_eqb by lia. destruct (Z.eqb_spec (Z.of_nat i) n) as [<-|]; [by rewrite E|].
      by rewrite andb_false_r.
Qed.

(** [i] is the lowest bit set in the mask *)
Definition lowest_bit (mask : Z) (i : nat) : Prop :=
  (i < 32)%nat /\ Z.testbit mask i = true /\ forall j : nat, (j < i)%nat -> Z.testbit mask j = false.

Lemma find_seq f n k : match List.find f (seq k n) with
  | Some i => (k <= i < k + n)%nat /\ f i = true /\ forall j, (k <= j < i)%nat -> f j = false
  | None => forall j, (k <= j < k + n)%nat -> f j = false end.
Proof.
  revert k. induction n as [|n IH]; intros k; cbn; [lia|].
  destruct (f k) eqn:E; [split_and!; [lia | lia | done | lia]|].
  specialize (IH (S k)). destruct (List.find f (seq (S k) n)) as [i|].
  - destruct IH as (H1 & H2 & H3). split_and!; [lia | lia | done |].
    intros j Hj. destruct (decide (j = k)) as [->|]; [done | apply H3; lia].
  - intros j Hj. destruct (decide (j = k)) as [->|]; [done | apply IH; lia].
Qed.

Lemma mask_index_spec mask : - 2 ^ 31 <= mask < 2 ^ 31 ->
  (mask = 0 /\ mask_index mask = -1) \/ exists i, mask_index mask = Z.of_nat i /\ lowest_bit mask i.
Proof.
  intros Hm. unfold mask_index.
  pose proof (find_seq (fun i : nat => istrue (Z.land mask (s32 (Z.shiftl 1 i)))) 32 0) as H.
  destruct (List.find _ (seq 0 32)) as [i|].
  - right. exists i. destruct H as (H1 & H2 & H3). split; [done|]. split_and!; [lia | |].
    + rewrite <- mask_bit by lia. done.
    + intros j Hj. rewrite <- mask_bit by lia. apply H3. lia.
  - left. split; [|done]. apply Z.bits_inj'. intros n Hn. rewrite Z.bits_0.
    assert (forall j : nat, (j < 32)%nat -> Z.testbit mask j = false) as Hz.
    { intros j Hj. rewrite <- mask_bit by lia. apply H. lia. }
    assert (0 <= mask) as Hpos.
    { destruct (Z.leb_spec 0 mask); [done|]. exfalso.
      pose proof (Hz 31%nat ltac:(lia)) as H31. rewrite <- mask_bit in H31 by lia.
      change (s32 (Z.shiftl 1 31%nat)) with (Z.lnot (2 ^ 31 - 1)) in H31.
      rewrite land_lnot_mask in H31 by lia. unfold istrue in H31.
      apply negb_false_iff, Z.eqb_eq in H31. pose proof (Z.mod_pos_bound mask (2 ^ 31) ltac:(lia)). lia. }
    destruct (Z.ltb_spec n 32) as [Hlt|Hge].
    + replace n with (Z.of_nat (Z.to_nat n)) by lia. apply Hz. lia.
    + destruct (decide (mask = 0)) as [->|]; [by rewrite Z.bits_0|].
      apply Z.bits_above_log2; [done|]. apply Z.log2_lt_pow2; [lia|].
      pose proof (Z.pow_le_mono_r 2 31 n ltac:(lia) ltac:(lia)). lia.
Qed.

(** the caller's record once the call itself was counted *)
Definition counted_call (num : nat) (x : proc) : proc :=
  set_p_syscall_count (bump num (p_syscall_count x)) x.

(** C40: [getSysCount] counts itself, then answers -1 for an empty mask and
    otherwise the caller's count of the system call whose number is the lowest
    bit set in the mask; nothing else changes. *)
Theorem getSysCount_spec p x e s :
  ps_proc (k_ps s) !! p = Some x -> hart_ok 1 (k_hw s) -> cur_is (k_hw s) p ->
  KERNBASE <= m_end (k_mm s) -> page_ok (m_end (k_mm s)) (p_trapframe x) ->
  let mask := s32 (ld64 (m_bytes (k_mm s)) (p_trapframe x + tf_a 0)) in
  let x' := counted_call SYS_getSysCount x in
  exists r s', sys_getSysCount e s = Ret r e s' /\
    k_ps s' = upd_slot p x' (k_ps s) /\ k_mm s' = k_mm s /\ k_io s' = k_io s /\ k_fs s' = k_fs s /\
    k_hw s' ≈h k_hw s /\
    ((mask = 0 /\ r = -1) \/
     exists i, lowest_bit mask i /\ r = default 0 (p_syscall_count x' !! i)).
Proof.
  intros Hx Hok Hcur He Htf mask x'. pose proof (lookup_lt_Some _ _ _ Hx) as Hlt.
  assert (forall h, h ≈h k_hw s -> hart_ok 1 h /\ cur_is h p) as Hhw.
  { intros h Hh. symmetry in Hh. split; [by eapply hart_ok_eqv; [symmetry|] | by eapply cur_is_eqv]. }
  apply wp_run. unfold sys_getSysCount. wp_step. eapply wp_count_call; [done..|].
  destruct (Hhw _ (hw_crit_eqv (k_hw s))) as [Hok1 Hcur1].
  wp_step. unfold argint, argraw. wp_step. wp_step. eapply wp_curproc; [done..|]. cbn [andb Z.leb Z.compare].
  eapply (wp_tf_get p x'); [slot | |].
  { eapply page_word; [done..| |]; unfold tf_a, tf_a0, PGSIZE; lia. }
  set (h2 := hw_crit (k_hw _)).
  assert (h2 ≈h k_hw s) as E2 by (etrans; [apply hw_crit_eqv | apply hw_crit_eqv]).
  destruct (Hhw h2 E2) as [Hok2 Hcur2].
  wp_step. wp_step. eapply wp_curproc; [done..|]. 
  match goal with |- context [mask_index ?m] => change m with mask end.
  assert (hw_crit h2 ≈h k_hw s) as E3 by (etrans; [apply hw_crit_eqv | done]).
  destruct (mask_index_spec mask (s32_range _)) as [[Hm Hi]|(i & Hi & Hl)].
  - rewrite Hi. cbn. wp_step. split_and!; try done. by left.
  - rewrite Hi. pose proof Hl as (Hi32 & _).
    destruct (Z.eqb_spec (Z.of_nat i) (-1)); [lia|]. destruct (Z.leb_spec 32 (Z.of_nat i)); [lia|].
    cbn [orb]. eapply wp_pget; [slot|]. split_and!; try done. right. exists i. by rewrite Nat2Z.id.
Qed.

(** the demo machine: process 0 asks for the calls of [getSysCount] itself *)
Definition count_demo : kstate :=
  set_k_ps (upd_slot 0 (set_p_trapframe 0x80024000 (demo_proc 0 RUNNING CNull 1 0 None)) ps1)
    (set_k_mm (set_m_bytes (st64 ∅ (0x80024000 + tf_a 0) (2 ^ 23)) mm0) demo).
Lemma getSysCount_spec_witness :
  exists r s' i, sys_getSysCount [] count_demo = Ret r [] s' /\ lowest_bit (2 ^ 23) i /\
    r = default 0 (bump SYS_getSysCount (replicate 32 0) !! i).
Proof.
  destruct (getSysCount_spec 0 (set_p_trapframe 0x80024000 (demo_proc 0 RUNNING CNull 1 0 None)) []
    count_demo) as (r & s' & E & _ & _ & _ & _ & _ & H).
  - reflexivity.
  - by apply hw1_hart.
  - reflexivity.
  - vm_compute. discriminate.
  - split; [reflexivity | vm_compute; split; [discriminate | reflexivity]].
  - assert (s32 (ld64 (m_bytes (k_mm count_demo)) (0x80024000 + tf_a 0)) = 2 ^ 23) as Hm
      by (vm_compute; reflexivity).
    change (p_trapframe _) with 0x80024000 in H. rewrite Hm in H.
    destruct H as [[H _]|(i & H1 & H2)]; [discriminate H|].
    exists r, s', i. split; [exact E|]. split; [exact H1 | exact H2].
Defined.
