(* ===== verification/Trap.v ===== *)
(** Traps (trap.c), the interrupt controller (plic.c) and the kernel's start-up
    (main.c, and [kvmmake], [kvminit], [kvminithart] of vm.c).

    [usertrap] is split along its comments: the alarm of [sigalarm], the tick
    of the multi-level feedback queue (whose boost and demotion are in Mlfq.v)
    and the preemption by a better queue. *)
From S2P Require Import Prelude State Spinlock Queue Boot Cstring Kalloc Vm Printf Proc Sched Mlfq Copyio.
From S2P Require Import Sleeplock Console Pipe Disk Bio Log Fs File Lifecycle Exec Trapret Syscall.

(** ** plic.c *)
Definition PLIC_SENABLE (hart : nat) : Z := PLIC + 0x2080 + hart * 0x100.
Definition PLIC_SPRIORITY (hart : nat) : Z := PLIC + 0x201000 + hart * 0x2000.
Definition write_plic (a v : Z) : K unit :=
  modify_io (fun d => set_plic_regs (<[a := u32 v]> (plic_regs d)) d).
Definition plicinit : K unit :=
  write_plic (PLIC + UART0_IRQ * 4) 1;;
  write_plic (PLIC + VIRTIO0_IRQ * 4) 1.
Definition plicinithart : K unit :=
  hart <- cpuid;;
  write_plic (PLIC_SENABLE hart) (Z.lor (Z.shiftl 1 UART0_IRQ) (Z.shiftl 1 VIRTIO0_IRQ));;
  write_plic (PLIC_SPRIORITY hart) 0.
Definition plic_claim : K Z :=
  irqs <- gets (fun s => plic_irq (k_io s));;
  match irqs with
  | irq :: rest => modify_io (set_plic_irq rest);; ret irq
  | [] => ret 0
  end.
Definition plic_complete (irq : Z) : K unit :=
  modify_io (fun d => set_plic_done (plic_done d ++ [irq]) d).

(** ** trap.c *)
Definition trapinit : K unit := initlock LTicks "time".
Definition trapinithart : K unit := v <- gets (fun s => m_kernelvec (k_mm s));; w_stvec v.

Definition clockintr : K unit :=
  acquire LTicks;;
  modify_ps (fun ps => set_ps_ticks (u32 (ps_ticks ps + 1)) ps);;
  update_time;;
  wakeup CTicks;;
  release LTicks.

Definition devintr : K Z :=
  scause <- r_scause;;
  if istrue (Z.land scause 0x8000000000000000) && (Z.land scause 0xff =? 9) then
    irq <- plic_claim;;
    (if irq =? UART0_IRQ then uartintr
     else if irq =? VIRTIO0_IRQ then virtio_disk_intr
     else when (istrue irq) (printf "unexpected interrupt irq=%d
" [AInt irq]));;
    when (istrue irq) (plic_complete irq);;
    ret 1
  else if scause =? 0x8000000000000001 then
    id <- cpuid;;
    when (Z.of_nat id =? 0) clockintr;;
    x <- r_sip;;
    w_sip (Z.land x (Z.lnot 2));;
    ret 2
  else ret 0.

(** the timer tick of [sigalarm] *)
Definition alarm_tick (p : nat) : K unit :=
  st <- pget p p_state;;
  when (bool_decide (st = RUNNING))
    (pupd p (fun x => set_p_cur_ticks (s32 (p_cur_ticks x + 1)) x);;
     fire <- pget p (fun x => (0 <? p_ticks x) && (p_ticks x <=? p_cur_ticks x) &&
                              (p_in_alarm_handler x =? 0));;
     when fire
       (pupd p (set_p_in_alarm_handler 1);;
        tf <- kalloc;;
        if tf =? 0 then panic "usertrap: failed to allocate memory for alarm trapframe" else
        src <- pget p p_trapframe;;
        mem_move tf src tf_size;;
        pupd p (set_p_alarm_tf tf);;
        h <- pget p p_handler;;
        tf_set p tf_epc h;;
        pupd p (set_p_cur_ticks 0))).

(** [for (i = 0; i < p->queue_number; i++) if (sizeofq[i] > 0) yield();] *)
Definition preempt (p : nat) : K unit :=
  mloop 5 0 (fun i =>
    q <- pget p p_queue_number;;
    if q <=? i then ret (inr tt) else
    n <- lift_ps (sizeofq_at i);;
    when (0 <? n) yield;;
    ret (inl (i + 1))).

Definition mlfq_tick (p : nat) : K unit :=
  pupd p (fun x => set_p_queueticks (s32 (p_queueticks x + 1)) x);;
  ticks <- gets (fun s => ps_ticks (k_ps s));;
  when (ticks mod 48 =? 0) (lift_ps boost);;
  over <- lift_ps (slice_over p);;
  when over (lift_ps (demote p);; yield);;
  preempt p.

Definition usertrap (pol : policy) (junk : Z * Z) : K Z :=
  x <- r_sstatus;;
  if negb (Z.land x SSTATUS_SPP =? 0) then panic "usertrap: not from user mode" else
  v <- gets (fun s => m_kernelvec (k_mm s));;
  w_stvec v;;
  p <- curproc;;
  sepc <- r_sepc;;
  tf_set p tf_epc sepc;;
  scause <- r_scause;;
  r <- (if scause =? 8 then
          k <- killed p;;
          when (istrue k) (exit (-1));;
          epc <- tf_get p tf_epc;;
          tf_set p tf_epc (u64 (epc + 4));;
          intr_on;;
          back <- syscall junk;;
          ret (if (back : bool) then Some 0 else None)
        else
          which_dev <- devintr;;
          when (which_dev =? 0)
            (pid <- pget p p_pid;;
             stval <- r_stval;;
             sepc <- r_sepc;;
             printf "usertrap(): unexpected scause %p pid=%d
" [APtr scause; AInt pid];;
             printf "            sepc=%p stval=%p
" [APtr sepc; APtr stval];;
             setkilled p);;
          ret (Some which_dev));;
  match r with
  | None => pt <- pget p p_pagetable;; ret (MAKE_SATP pt)
  | Some which_dev =>
      k <- killed p;;
      when (istrue k) (exit (-1));;
      when (which_dev =? 2)
        (p <- curproc;;
         alarm_tick p;;
         match pol with MLFQ => mlfq_tick p | _ => yield end);;
      usertrapret
  end.

Definition kerneltrap : K unit :=
  sepc <- r_sepc;;
  sstatus <- r_sstatus;;
  scause <- r_scause;;
  if Z.land sstatus SSTATUS_SPP =? 0 then panic "kerneltrap: not from supervisor mode" else
  on <- intr_get;;
  if (on : bool) then panic "kerneltrap: interrupts enabled" else
  which_dev <- devintr;;
  if which_dev =? 0 then
    printf "scause %p
" [APtr scause];;
    stval <- r_stval;;
    sepc <- r_sepc;;
    printf "sepc=%p stval=%p
" [APtr sepc; APtr stval];;
    panic "kerneltrap"
  else
  when (which_dev =? 2)
    (me <- myproc;;
     match me with
     | Some _ => p <- curproc;; st <- pget p p_state;; when (bool_decide (st = RUNNING)) yield
     | None => ret tt
     end);;
  w_sepc sepc;;
  w_sstatus sstatus.

(** ** vm.c: the kernel page table *)
Definition kvmmake : K Z :=
  kpgtbl <- kalloc;;
  mem_set kpgtbl 0 PGSIZE;;
  etext <- gets (fun s => m_etext (k_mm s));;
  tramp <- gets (fun s => m_trampoline (k_mm s));;
  kvmmap kpgtbl UART0 UART0 PGSIZE (Z.lor PTE_R PTE_W);;
  kvmmap kpgtbl VIRTIO0 VIRTIO0 PGSIZE (Z.lor PTE_R PTE_W);;
  kvmmap kpgtbl PLIC PLIC 0x400000 (Z.lor PTE_R PTE_W);;
  kvmmap kpgtbl KERNBASE KERNBASE (etext - KERNBASE) (Z.lor PTE_R PTE_X);;
  kvmmap kpgtbl etext etext (PHYSTOP - etext) (Z.lor PTE_R PTE_W);;
  kvmmap kpgtbl TRAMPOLINE tramp PGSIZE (Z.lor PTE_R PTE_X);;
  proc_mapstacks kpgtbl;;
  ret kpgtbl.
Definition kvminit : K unit := k <- kvmmake;; modify_mm (set_m_kpgtbl k).
Definition kvminithart : K unit :=
  k <- gets (fun s => m_kpgtbl (k_mm s));; w_satp (MAKE_SATP k).

(** ** main.c *)

(** the initialization hart 0 does *)
Definition main_boot : K unit :=
  consoleinit;;
  printfinit;;
  printf "
" [];;
  printf "xv6 kernel is booting
" [];;
  printf "
" [];;
  kinit;;
  kvminit;;
  kvminithart;;
  procinit;;
  trapinit;;
  trapinithart;;
  plicinit;;
  plicinithart;;
  binit;;
  iinit;;
  fileinit;;
  virtio_disk_init;;
  userinit;;
  modify_io (set_m_started 1).

(** [while(started == 0);] *)
Fixpoint wait_started (fuel : nat) : K unit :=
  st <- gets (fun s => m_started (k_io s));;
  if istrue st then ret tt else
  match fuel with
  | O => fun e s => Blocked s
  | S fuel' => interfere;; wait_started fuel'
  end.

(** [main], up to the first [n] rounds of the scheduler *)
Definition main (pol : policy) (n : nat) : K unit :=
  id <- cpuid;;
  (if (id =? 0)%nat then main_boot
   else
     (fun e s => wait_started (length e) e s);;
     id <- cpuid;;
     printf "hart %d starting
" [AInt id];;
     kvminithart;;
     trapinithart;;
     plicinithart);;
  scheduler pol n.
