(* ===== verification/Alarm.v ===== *)
(** The alarm of [sigalarm]/[sigreturn], across trap.c and sysproc.c.

    A tick that fires the alarm saves the trapframe in a page of its own and
    sends the process to its handler; [sys_sigreturn] puts the saved registers
    back, whatever the handler did to them.  A second alarm cannot fire in the
    handler, and [sigreturn] without one crashes the kernel. *)
From S2P Require Import Prelude State Spinlock Queue Boot Cstring Kalloc Vm Printf Proc Sched Mlfq Copyio.
From S2P Require Import Sleeplock Console Pipe Disk Bio Log Fs File Lifecycle Exec Trapret Syscall Trap.

(** ** usertrapret *)

(** the words of the trapframe the kernel writes for the next trap *)
Definition kernel_word (o : Z) : Prop := 0 <= o < 24 \/ 32 <= o < 40.

Section usertrapret.
Context (p : nat) (x : proc) (e : list (kstate -> kstate)) (s : kstate).
Context (Hx : ps_proc (k_ps s) !! p = Some x).
Context (Hok : hart_ok 1 (k_hw s)) (Hcur : cur_is (k_hw s) p).
Context (He : KERNBASE <= m_end (k_mm s)) (Htf : page_ok (m_end (k_mm s)) (p_trapframe x)).

Definition trapret_post (s' : kstate) : Prop :=
  let tf := p_trapframe x in
  let b := m_bytes (k_mm s) in let b' := m_bytes (k_mm s') in
  k_ps s' = k_ps s /\ k_mm s' = set_m_bytes b' (k_mm s) /\
  (forall a, ~ kernel_word (a - tf) -> ldb b' a = ldb b a) /\
  h_sepc (k_hw s') = ld64 b (tf + tf_epc) /\ h_locks (k_hw s') = h_locks (k_hw s).

Lemma wp_usertrapret (Q : Z -> list (kstate -> kstate) -> kstate -> Prop) :
  (forall s', trapret_post s' -> Q (MAKE_SATP (p_pagetable x)) e s') -> wp usertrapret e s Q.
Proof using Hx Hok Hcur He Htf.
  intros HQ. unfold usertrapret.
  wp_step. eapply wp_curproc; [done..|].
  unfold intr_off, r_sstatus, w_sstatus, w_stvec, r_satp, modify_hw. wp_steps. cbn.
  assert (forall off, 0 <= off -> off + 8 <= PGSIZE -> in_ram (p_trapframe x + off) 8 = true) as Hram
    by (intros; by eapply page_word).
  eapply wp_tf_set; [done | by apply Hram|]. wp_step. eapply wp_pget; [done|].
  wp_step. eapply wp_tf_set; [done | by apply Hram|]. wp_steps.
  eapply wp_tf_set; [done | by apply Hram|]. unfold cpuid. wp_steps.
  eapply wp_tf_set; [done | by apply Hram|]. unfold w_sepc, modify_hw. wp_steps.
  eapply wp_tf_get; [done | by apply Hram|]. wp_steps. eapply wp_pget; [done|]. wp_step.
  apply HQ. unfold trapret_post. cbn. split_and!; try done.
  - intros a Ha. unfold kernel_word in Ha. unfold tf_kernel_satp, tf_kernel_sp, tf_kernel_trap, tf_kernel_hartid.
    unfold st64. rewrite !ldb_stn, !decide_False by lia. done.
  - unfold tf_epc, tf_kernel_satp, tf_kernel_sp, tf_kernel_trap, tf_kernel_hartid.
    rewrite !ld64_st64_disj by lia. done.
  - by destruct (hw_eqv_fields _ _ (hw_crit_eqv (k_hw s))) as (_ & _ & -> & _).
Qed.
End usertrapret.

(** ** The tick *)
Definition alarmed (a : Z) (x : proc) : proc :=
  set_p_cur_ticks 0 (set_p_alarm_tf a (set_p_in_alarm_handler 1 x)).

Section alarm_tick.
Context (p : nat) (x : proc) (e : list (kstate -> kstate)) (s : kstate).
Context (Hx : ps_proc (k_ps s) !! p = Some x) (Hst : p_state x = RUNNING).
Let counted : proc := set_p_cur_ticks (s32 (p_cur_ticks x + 1)) x.
Definition alarm_due : bool :=
  (0 <? p_ticks x) && (p_ticks x <=? s32 (p_cur_ticks x + 1)) && (p_in_alarm_handler x =? 0).

(** no alarm: the tick is counted *)
Lemma wp_alarm_tick_count (Q : unit -> list (kstate -> kstate) -> kstate -> Prop) :
  alarm_due = false -> Q tt e (set_k_ps (upd_slot p counted (k_ps s)) s) -> wp (alarm_tick p) e s Q.
Proof using Hx Hst.
  intros Hdue HQ. pose proof (lookup_lt_Some _ _ _ Hx) as Hlt.
  unfold alarm_tick. wp_step. eapply wp_pget; [done|].
  rewrite bool_decide_eq_true_2 by done. cbn [when]. wp_step. eapply wp_pupd; [done|].
  wp_step. eapply wp_pget; [slot|]. cbn [p_ticks p_cur_ticks p_in_alarm_handler set_p_cur_ticks].
  unfold alarm_due in Hdue. rewrite Hdue. exact HQ.
Qed.

Context (a : Z) (l : list Z).
Context (Hok : hart_ok 1 (k_hw s)) (Hlk : lock_free (k_hw s) LKmem).
Context (Hfl : free_list (k_mm s) (a :: l)).
Let tf := p_trapframe x.
Let b := m_bytes (k_mm s).
Context (Htf : page_ok (m_end (k_mm s)) tf).

Definition alarm_bytes : gmap Z Z :=
  st64 (memmove (memset b a 5 (Z.to_nat PGSIZE)) a tf (Z.to_nat tf_size)) (tf + tf_epc) (p_handler x).

Lemma wp_alarm_tick_fire (Q : unit -> list (kstate -> kstate) -> kstate -> Prop) :
  alarm_due = true ->
  Q tt e (set_k_mm (set_m_bytes alarm_bytes (mm_alloc a (k_mm s)))
    (set_k_ps (upd_slot p (alarmed a x) (k_ps s)) (set_k_hw (hw_crit (k_hw s)) s))) ->
  wp (alarm_tick p) e s Q.
Proof using Hx Hst Hok Hlk Hfl Htf.
  intros Hdue HQ. pose proof (lookup_lt_Some _ _ _ Hx) as Hlt.
  assert (forall y z, (p < length (<[p := z]> (ps_proc (k_ps s))))%nat) as Hlt'
    by (intros; by rewrite length_insert).
  destruct Hfl as (He & _ & Hpg & _). inversion Hpg as [|? ? Ha _]; subst.
  destruct (page_in_ram _ _ He Ha) as (_ & _ & Hnz).
  unfold alarm_tick. wp_step. eapply wp_pget; [done|].
  rewrite bool_decide_eq_true_2 by done. cbn [when]. wp_step. eapply wp_pupd; [done|].
  wp_step. eapply wp_pget; [slot|]. cbn [p_ticks p_cur_ticks p_in_alarm_handler set_p_cur_ticks].
  unfold alarm_due in Hdue. rewrite Hdue. cbn [when]. fold counted.
  wp_step. eapply wp_pupd; [slot|].
  wp_step. eapply wp_kalloc; [done | done | exact Hfl |].
  cbv iota beta. destruct (Z.eqb_spec a 0); [done|].
  wp_step. eapply wp_pget; [slot|]. cbn [p_trapframe set_p_in_alarm_handler set_p_cur_ticks counted].
  wp_step. unfold mem_move. fold tf.
  rewrite !(page_part (m_end (k_mm s))) by (done || (unfold tf_size, PGSIZE; lia)). cbn [andb].
  unfold modify_bytes, modify_mm. wp_steps.
  eapply wp_pupd; [slot|]. wp_step. eapply wp_pget; [slot|].
  wp_step. eapply wp_tf_set; [slot | |].
  { cbn. eapply page_word; [done..| |]; unfold tf_epc, PGSIZE; lia. }
  eapply wp_pupd; [slot|].
  cbn. revert HQ. unfold alarm_bytes, alarmed, mm_st64, upd_slot. cbn. fold tf b.
  rewrite !list_insert_insert_eq. destruct x; cbn in *. by destruct s.
Qed.
End alarm_tick.

Lemma alarm_free_list x s a l : free_list (k_mm s) (a :: l) ->
  page_ok (m_end (k_mm s)) (p_trapframe x) -> p_trapframe x ∉ (a :: l) ->
  free_list (set_m_bytes (alarm_bytes x s a) (mm_alloc a (k_mm s))) l.
Proof.
  intros Hfl Htf Htl. pose proof Hfl as (_ & Hnd & Hpg & _). apply NoDup_cons in Hnd as [Hal _].
  inversion Hpg as [|? ? Ha Hl]; subst. rewrite Forall_forall in Hl.
  apply free_list_frame; [by apply free_list_alloc|]. intros q o Hq Ho. cbn.
  assert (q <> a /\ q <> p_trapframe x) as [Hqa Hqt] by (split; intros ->; set_solver).
  pose proof (page_disj _ _ _ (Hl q Hq) Ha Hqa). pose proof (page_disj _ _ _ (Hl q Hq) Htf Hqt).
  unfold alarm_bytes, st64, tf_epc, tf_size, PGSIZE in *.
  rewrite ldb_stn, decide_False, ldb_memmove, decide_False by lia. done.
Qed.

(** ** sigreturn *)
Section sigreturn.
Context (p : nat) (x : proc) (e : list (kstate -> kstate)) (s : kstate) (l : list Z).
Context (Hx : ps_proc (k_ps s) !! p = Some x).
Context (Hok : hart_ok 1 (k_hw s)) (Hcur : cur_is (k_hw s) p) (Hlk : lock_free (k_hw s) LKmem).
Context (Hfl : free_list (k_mm s) l).
Let a := p_alarm_tf x.
Let tf := p_trapframe x.
Let b := m_bytes (k_mm s).
Context (Ha : page_ok (m_end (k_mm s)) a) (Hal : a ∉ l).
Context (Htf : page_ok (m_end (k_mm s)) tf) (Htl : tf ∉ l) (Hne : a <> tf).

Definition rearmed : proc :=
  set_p_in_alarm_handler 0 (set_p_cur_ticks 0 (set_p_alarm_on 0 (set_p_alarm_tf 0
    (set_p_syscall_count (bump SYS_sigreturn (p_syscall_count x)) x)))).

(** memory after the registers are copied back and the page is freed *)
Definition restored_mm : memory :=
  mm_free a (set_m_bytes (memmove b tf a (Z.to_nat PGSIZE)) (k_mm s)).

Lemma copied_free : free_list (set_m_bytes (memmove b tf a (Z.to_nat PGSIZE)) (k_mm s)) l.
Proof using Hfl Htf Htl.
  apply free_list_frame; [done|]. intros q o Hq Ho. rewrite ldb_memmove, decide_False; [done|].
  destruct Hfl as (_ & _ & Hpg & _). rewrite Forall_forall in Hpg.
  assert (q <> tf) as Hqt by (intros ->; done).
  pose proof (page_disj _ _ _ (Hpg q Hq) Htf Hqt). unfold PGSIZE in *. lia.
Qed.
Lemma restored_free : free_list restored_mm (a :: l).
Proof using Hfl Ha Hal Htf Htl.
  apply free_list_free; try done; [exact copied_free | cbn; by eapply free_list_head].
Qed.
Lemma restored_byte o : 0 <= o < PGSIZE -> ldb (m_bytes restored_mm) (tf + o) = ldb b (a + o).
Proof using Ha Htf Hne.
  intros Ho. pose proof (page_disj _ _ _ Ha Htf Hne). unfold restored_mm, mm_free. cbn. unfold st64.
  rewrite ldb_stn, decide_False, ldb_memset, decide_False by (unfold PGSIZE in *; lia).
  rewrite ldb_memmove, decide_True by (unfold PGSIZE in *; lia). f_equal. lia.
Qed.

Lemma wp_sigreturn (Q : option Z -> list (kstate -> kstate) -> kstate -> Prop) :
  (forall s' s0, k_ps s0 = upd_slot p rearmed (k_ps s) -> k_mm s0 = restored_mm ->
     trapret_post rearmed s0 s' -> Q None e s') ->
  wp sys_sigreturn e s Q.
Proof using Hx Hok Hcur Hlk Hfl Ha Htf Hne Hal Htl.
  intros HQ. pose proof (lookup_lt_Some _ _ _ Hx) as Hlt. pose proof Hfl as (He & _).
  assert (forall h, h ≈h k_hw s -> hart_ok 1 h /\ cur_is h p /\ lock_free h LKmem) as Hhw.
  { intros h Hh. symmetry in Hh. split_and!; [by eapply hart_ok_eqv; [symmetry|] |
      by eapply cur_is_eqv | by eapply lock_free_eqv]. }
  unfold sys_sigreturn. wp_step. eapply wp_count_call; [done..|].
  set (h1 := hw_crit (k_hw s)). assert (h1 ≈h k_hw s) as E1 by apply hw_crit_eqv.
  destruct (Hhw h1 E1) as (Hok1 & Hcur1 & Hlk1).
  wp_step. eapply wp_curproc; [done..|].
  set (h2 := hw_crit (k_hw _)). assert (h2 ≈h k_hw s) as E2 by (etrans; [apply hw_crit_eqv | done]).
  destruct (Hhw h2 E2) as (Hok2 & Hcur2 & Hlk2).
  wp_step. eapply wp_pget; [slot|]. wp_step. eapply wp_pget; [slot|].
  cbn [p_trapframe p_alarm_tf set_p_syscall_count]. fold a tf.
  wp_step. unfold mem_move. rewrite !(page_part (m_end (k_mm s))) by (done || (unfold PGSIZE; lia)).
  cbn [andb]. unfold modify_bytes, modify_mm. wp_steps.
  eapply (wp_kfree _ _ l); [done | done | exact copied_free | done |].
  set (h3 := hw_crit (k_hw _)). assert (h3 ≈h k_hw s) as E3 by (etrans; [apply hw_crit_eqv | done]).
  destruct (Hhw h3 E3) as (Hok3 & Hcur3 & Hlk3).
  wp_step. eapply wp_pupd; [slot|]. wp_step. eapply wp_pupd; [slot|].
  wp_step. eapply wp_pupd; [slot|]. wp_step. eapply wp_pupd; [slot|].
  wp_step. eapply (wp_usertrapret p rearmed); [slot | done | done | done | done |].
  intros s' Hs'. wp_step. eapply HQ; [| |exact Hs']; [|done].
  cbn -[upd_slot]. unfold upd_slot. cbn. by rewrite !list_insert_insert_eq.
Qed.
End sigreturn.

(** ** Theorems *)

(** What holds when the handler calls [sigreturn]: it may have done anything to
    the trapframe, but the saved copy is in a kernel page of its own. *)
Record in_handler (p : nat) (a tf : Z) (saved : gmap Z Z) (s : kstate) (l : list Z) : Prop := {
  ih_proc : exists x, ps_proc (k_ps s) !! p = Some x /\ p_alarm_tf x = a /\ p_trapframe x = tf;
  ih_hart : hart_ok 1 (k_hw s);
  ih_cur : cur_is (k_hw s) p;
  ih_lock : lock_free (k_hw s) LKmem;
  ih_free : free_list (k_mm s) l;
  ih_pages : page_ok (m_end (k_mm s)) a /\ page_ok (m_end (k_mm s)) tf /\ a <> tf;
  ih_used : (a ∉ l) /\ (tf ∉ l);
  ih_saved : forall o, 0 <= o < tf_size -> ldb (m_bytes (k_mm s)) (a + o) = ldb saved (a + o);
}.

(** the user registers of the trapframe *)
Definition user_word (o : Z) : Prop := 0 <= o < tf_size /\ ~ kernel_word o.

Lemma sigreturn_restores p a tf saved e s l : in_handler p a tf saved s l ->
  exists s', sys_sigreturn e s = Ret None e s' /\
    h_sepc (k_hw s') = ld64 saved (a + tf_epc) /\
    (forall o, user_word o -> ldb (m_bytes (k_mm s')) (tf + o) = ldb saved (a + o)) /\
    free_list (k_mm s') (a :: l) /\
    exists x', ps_proc (k_ps s') !! p = Some x' /\
      p_in_alarm_handler x' = 0 /\ p_alarm_tf x' = 0 /\ p_cur_ticks x' = 0.
Proof.
  intros [(x & Hx & Hxa & Hxt) Hok Hcur Hlk Hfl (Ha & Htf & Hne) (Hal & Htl) Hs]. subst a tf.
  assert (wp sys_sigreturn e s (fun r e' s' => e' = e /\ r = None /\
    exists s0, k_ps s0 = upd_slot p (rearmed x) (k_ps s) /\ k_mm s0 = restored_mm x s /\
      trapret_post (rearmed x) s0 s')) as H.
  { eapply (wp_sigreturn p x e s l); try done. eauto 10. }
  apply wp_run in H as (r & s' & E & -> & s0 & Hps & Hmm & (T1 & T2 & T3 & T4 & _)).
  pose proof (restored_byte x s Ha Htf Hne) as Hb. change (p_trapframe (rearmed x)) with (p_trapframe x) in *.
  exists s'. split_and!; try done.
  - rewrite T4, Hmm. unfold ld64, tf_epc. apply (ldn_shift _ _ _ _ 8). intros o Ho.
    rewrite <- !Z.add_assoc, Hb by (unfold PGSIZE; lia). apply Hs. unfold tf_size. lia.
  - intros o [Ho Hk]. rewrite T3 by (by replace (p_trapframe x + o - p_trapframe x) with o by lia).
    rewrite Hmm, Hb by (unfold tf_size, PGSIZE in *; lia). by apply Hs.
  - rewrite T2. apply free_list_frame; [rewrite Hmm; by eapply restored_free|].
    intros q o Hq Ho. rewrite T3, Hmm; [done|]. unfold kernel_word.
    destruct (decide (q = p_alarm_tf x)) as [->|Hqa].
    + pose proof (page_disj _ _ _ Ha Htf Hne). unfold PGSIZE in *. lia.
    + assert (q ∈ l) as Hql by set_solver. destruct Hfl as (_ & _ & Hpg & _).
      rewrite Forall_forall in Hpg. assert (q <> p_trapframe x) as Hqt by (intros ->; done).
      pose proof (page_disj _ _ _ (Hpg q Hql) Htf Hqt). unfold PGSIZE in *. lia.
  - exists (rearmed x). split; [|done]. rewrite T1, Hps. apply slot_self. by eapply lookup_lt_Some.
Qed.

(** C5: The alarm round trip.  A due alarm saves the trapframe and sends the
    process to its handler with all other registers intact; when the handler,
    having changed the registers at will, calls [sigreturn], the kernel goes
    back to the interrupted instruction with every user register as it was, the
    page is back on the free list and the alarm is armed again. *)
Theorem alarm_round_trip p x a l e s :
  ps_proc (k_ps s) !! p = Some x -> p_state x = RUNNING -> alarm_due x = true ->
  hart_ok 1 (k_hw s) -> lock_free (k_hw s) LKmem -> free_list (k_mm s) (a :: l) ->
  page_ok (m_end (k_mm s)) (p_trapframe x) -> p_trapframe x ∉ (a :: l) ->
  0 <= p_handler x < 2 ^ 64 ->
  let tf := p_trapframe x in
  let regs := m_bytes (k_mm s) in
  exists s1, alarm_tick p e s = Ret tt e s1 /\
    k_hw s1 ≈h k_hw s /\ m_end (k_mm s1) = m_end (k_mm s) /\
    ps_proc (k_ps s1) = <[p := alarmed a x]> (ps_proc (k_ps s)) /\ free_list (k_mm s1) l /\
    ld64 (m_bytes (k_mm s1)) (tf + tf_epc) = p_handler x /\
    (forall o, 0 <= o < tf_size -> ~ (tf_epc <= o < tf_epc + 8) ->
       ldb (m_bytes (k_mm s1)) (tf + o) = ldb regs (tf + o)) /\
    forall s2 l2 e2, in_handler p a tf (m_bytes (k_mm s1)) s2 l2 ->
      exists s3, sys_sigreturn e2 s2 = Ret None e2 s3 /\
        h_sepc (k_hw s3) = ld64 regs (tf + tf_epc) /\
        (forall o, user_word o -> ldb (m_bytes (k_mm s3)) (tf + o) = ldb regs (tf + o)) /\
        free_list (k_mm s3) (a :: l2) /\
        exists x', ps_proc (k_ps s3) !! p = Some x' /\
          p_in_alarm_handler x' = 0 /\ p_alarm_tf x' = 0 /\ p_cur_ticks x' = 0.
Proof.
  intros Hx Hst Hdue Hok Hlk Hfl Htf Htl Hh tf regs. pose proof Hfl as (He & _ & Hpg & _).
  inversion Hpg as [|? ? Ha _]; subst. assert (a <> tf) as Hne by set_solver.
  pose proof (page_disj _ _ _ Ha Htf Hne) as Hdis. unfold PGSIZE in Hdis. fold tf in Hdis.
  set (b1 := alarm_bytes x s a).
  assert (forall o, 0 <= o < tf_size -> ldb b1 (a + o) = ldb regs (tf + o)) as Hcopy.
  { intros o Ho. unfold b1, alarm_bytes, st64, tf_epc, tf_size in *. fold tf regs.
    rewrite ldb_stn, decide_False by lia. rewrite ldb_memmove, decide_True by lia.
    rewrite ldb_memset, decide_False by (unfold PGSIZE; lia). f_equal. lia. }
  assert (forall o, 0 <= o < tf_size -> ~ (tf_epc <= o < tf_epc + 8) ->
    ldb b1 (tf + o) = ldb regs (tf + o)) as Hkeep.
  { intros o Ho Hn. unfold b1, alarm_bytes, st64, tf_epc, tf_size in *. fold tf regs.
    rewrite ldb_stn, decide_False by lia. rewrite ldb_memmove, decide_False by lia.
    rewrite ldb_memset, decide_False by (unfold PGSIZE; lia). done. }
  apply wp_run_tt. eapply (wp_alarm_tick_fire p x e s Hx Hst a l); try done. cbn.
  split_and!; try done.
  - apply hw_crit_eqv.
  - apply (alarm_free_list x s a l); done.
  - unfold b1, alarm_bytes. by apply ld64_st64.
  - intros s2 l2 e2 Hin. destruct (sigreturn_restores p a tf _ e2 s2 l2 Hin) as (s3 & E & H1 & H2 & H3 & H4).
    exists s3. split_and!; try done.
    + rewrite H1. unfold ld64, tf_epc. apply (ldn_shift _ _ _ _ 8). intros o Ho.
      rewrite <- !Z.add_assoc. apply Hcopy. unfold tf_size. lia.
    + intros o Ho. rewrite H2 by done. apply Hcopy. apply Ho.
Qed.

(** the process after a tick that is only counted *)
Definition ticked (x : proc) : proc := set_p_cur_ticks (s32 (p_cur_ticks x + 1)) x.

(** In its handler a process takes no further alarm: the tick is counted
    and nothing else happens, however many ticks pass. *)
Lemma alarm_not_reentrant p x e s :
  ps_proc (k_ps s) !! p = Some x -> p_state x = RUNNING -> p_in_alarm_handler x <> 0 ->
  alarm_tick p e s = Ret tt e (set_k_ps (upd_slot p (ticked x) (k_ps s)) s).
Proof.
  intros Hx Hst Hin. assert (alarm_due x = false) as Hdue.
  { unfold alarm_due. rewrite (proj2 (Z.eqb_neq _ _) Hin). by rewrite andb_false_r. }
  assert (wp (alarm_tick p) e s (fun _ e' s' => e' = e /\
    s' = set_k_ps (upd_slot p (ticked x) (k_ps s)) s)) as H
    by (by eapply wp_alarm_tick_count).
  apply wp_run_tt in H as (s' & E & ->). done.
Qed.

(** the process, running on the current hart, has no alarm pending *)
Definition no_alarm (p : nat) (s : kstate) : Prop :=
  exists x, ps_proc (k_ps s) !! p = Some x /\ p_alarm_tf x = 0 /\ cur_is (k_hw s) p.

(** C38: [sigreturn] called when no alarm is pending ([alarm_tf] is null) does
    not return: the kernel faults on the null pointer. *)
Theorem sigreturn_without_alarm_faults p e s :
  no_alarm p s -> hart_ok 1 (k_hw s) ->
  exists s', sys_sigreturn e s = Fault "memmove" s'.
Proof.
  intros (x & Hx & Ha & Hcur) Hok. pose proof (lookup_lt_Some _ _ _ Hx) as Hlt.
  assert (wp (count_call SYS_sigreturn;; curproc) e s (fun i e' s' => e' = e /\ i = p /\
    exists y, ps_proc (k_ps s') !! p = Some y /\ p_alarm_tf y = 0)) as H.
  { wp_step. eapply wp_count_call; [done..|].
    assert (hw_crit (k_hw s) ≈h k_hw s) as E1 by apply hw_crit_eqv. symmetry in E1.
    eapply wp_curproc; [by eapply hart_ok_eqv; [symmetry|] | by eapply cur_is_eqv |].
    split_and!; [done..|]. eexists. split; [slot | done]. }
  apply wp_run in H as (i & s' & E & -> & y & Hy & Hya). exists s'.
  unfold bind in E. unfold sys_sigreturn, bind.
  destruct (count_call SYS_sigreturn e s) as [[] e1 s1| | |]; try done.
  rewrite E. unfold pget, lift_ps, proc_at, bind. cbn. rewrite Hy. cbn. rewrite Hy. cbn.
  rewrite Hya. unfold mem_move. change (in_ram 0 PGSIZE) with false. rewrite andb_false_r.
  by rewrite !set_k_ps_id.
Qed.

(** process 0 of the demo machine, one tick before its alarm *)
Definition alarm_proc : proc :=
  set_p_ticks 2 (set_p_cur_ticks 1 (set_p_handler 0x100 (set_p_trapframe 0x80024000
    (demo_proc 0 RUNNING CNull 1 0 None)))).
Definition alarm_demo : kstate :=
  set_k_mm (k_mm one_page) (set_k_ps (upd_slot 0 alarm_proc ps1) demo).

Lemma alarm_round_trip_witness :
  exists s1 s3, alarm_tick 0 [] alarm_demo = Ret tt [] s1 /\
    ld64 (m_bytes (k_mm s1)) (0x80024000 + tf_epc) = 0x100 /\
    sys_sigreturn [] s1 = Ret None [] s3 /\
    h_sepc (k_hw s3) = ld64 (m_bytes (k_mm alarm_demo)) (0x80024000 + tf_epc) /\
    free_list (k_mm s3) [0x80023000].
Proof.
  destruct (alarm_round_trip 0 alarm_proc 0x80023000 [] [] alarm_demo)
    as (s1 & E & Hhw & Hend & Hps & Hfl & Hepc & _ & Hret); try reflexivity.
  - by apply hw1_hart.
  - by apply hw1_lock.
  - apply one_page_list.
  - split; [reflexivity | cbn; unfold PHYSTOP, KERNBASE; lia].
  - intros H. apply list_elem_of_singleton in H. discriminate H.
  - cbn. lia.
  - destruct (Hret s1 [] []) as (s3 & E3 & H1 & _ & H3 & _).
    + split.
      * exists (alarmed 0x80023000 alarm_proc). split; [|split; vm_compute; reflexivity].
        rewrite Hps. apply list_lookup_insert_eq. vm_compute. lia.
      * by eapply hart_ok_eqv; [|apply (hw1_hart 1)].
      * eapply cur_is_eqv; [symmetry; exact Hhw | done].
      * eapply lock_free_eqv; [symmetry; exact Hhw | by apply hw1_lock].
      * done.
      * rewrite Hend. cbn. split_and!; [split; [reflexivity | unfold PHYSTOP, KERNBASE; lia].. | done].
      * split; apply not_elem_of_nil.
      * done.
    + exists s1, s3. split; [exact E|]. split; [exact Hepc|]. split; [exact E3|]. by split.
Defined.

Lemma alarm_not_reentrant_witness :
  let x := set_p_in_alarm_handler 1 alarm_proc in
  let s := set_k_ps (upd_slot 0 x ps1) demo in
  alarm_tick 0 [] s = Ret tt [] (set_k_ps (upd_slot 0 (set_p_cur_ticks 2 x) (k_ps s)) s).
Proof. intros x s. apply (alarm_not_reentrant 0 x [] s); [reflexivity | reflexivity | done]. Defined.

Lemma sigreturn_without_alarm_faults_witness : exists s', sys_sigreturn [] demo = Fault "memmove" s'.
Proof.
  apply (sigreturn_without_alarm_faults 0); [|by apply hw1_hart].
  exists (demo_proc 0 RUNNING CNull 1 0 None). split_and!; reflexivity.
Defined.
