(* ===== verification/Start.v ===== *)
(** start.c: what each hart does in machine mode before [main].

    [start] and [timerinit] run on the machine-mode registers, the CLINT's
    registers by address, and [timer_scratch]; [start] ends with [mret], which
    enters the mode in MPP at the address in mepc.  The addresses of [main],
    [timervec] and [timer_scratch] are fixed by the linker. *)
From S2P Require Import Prelude State.

(** riscv.h *)
Definition MSTATUS_MPP_MASK : Z := Z.shiftl 3 11.
Definition MSTATUS_MPP_M : Z := Z.shiftl 3 11.
Definition MSTATUS_MPP_S : Z := Z.shiftl 1 11.
Definition MSTATUS_MPP_U : Z := Z.shiftl 0 11.
Definition MSTATUS_MIE : Z := Z.shiftl 1 3.
Definition SIE_SEIE : Z := Z.shiftl 1 9.
Definition SIE_STIE : Z := Z.shiftl 1 5.
Definition SIE_SSIE : Z := Z.shiftl 1 1.
Definition MIE_MTIE : Z := Z.shiftl 1 7.

(** memlayout.h *)
Definition CLINT : Z := 0x2000000.
Definition CLINT_MTIMECMP (hartid : Z) : Z := CLINT + 0x4000 + 8 * hartid.
Definition CLINT_MTIME : Z := CLINT + 0xBFF8.

(** the registers of a hart that start.c uses *)
Record mregs := mkmregs {
  mr_mhartid : Z;
  mr_mstatus : Z;
  mr_mepc : Z;
  mr_satp : Z;
  mr_medeleg : Z;
  mr_mideleg : Z;
  mr_sie : Z;
  mr_mie : Z;
  mr_pmpaddr0 : Z;
  mr_pmpcfg0 : Z;
  mr_mscratch : Z;
  mr_mtvec : Z;
  mr_tp : Z
}.

(** a hart with the CLINT and [timer_scratch[NCPU][5]] *)
Record machine := mkmachine { m_regs : mregs; m_clint : gmap Z Z; m_scratch : list (list Z) }.

Section start.
Context (main timervec timer_scratch : Z).

(** [None] is a store outside [timer_scratch] *)
Definition timerinit (m : machine) : option machine :=
  let r := m_regs m in
  let id := s32 (mr_mhartid r) in
  let interval := 1000000 in
  let clint := <[CLINT_MTIMECMP id := u64 (default 0 (m_clint m !! CLINT_MTIME) + interval)]> (m_clint m) in
  match m_scratch m !! Z.to_nat id with
  | Some scratch =>
      if id <? 0 then None else
      let scratch' := <[4%nat := interval]> (<[3%nat := CLINT_MTIMECMP id]> scratch) in
      Some (mkmachine
        (mkmregs (mr_mhartid r) (Z.lor (mr_mstatus r) MSTATUS_MIE) (mr_mepc r) (mr_satp r) (mr_medeleg r)
           (mr_mideleg r) (mr_sie r) (Z.lor (mr_mie r) MIE_MTIE) (mr_pmpaddr0 r) (mr_pmpcfg0 r)
           (timer_scratch + 40 * id) timervec (mr_tp r))
        clint (<[Z.to_nat id := scratch']> (m_scratch m)))
  | None => None
  end.

(** [start] up to its [mret] *)
Definition start (m : machine) : option machine :=
  let r := m_regs m in
  let x := Z.lor (Z.land (mr_mstatus r) (u64 (Z.lnot MSTATUS_MPP_MASK))) MSTATUS_MPP_S in
  let r1 := mkmregs (mr_mhartid r) x main 0 0xffff 0xffff
    (Z.lor (Z.lor (Z.lor (mr_sie r) SIE_SEIE) SIE_STIE) SIE_SSIE) (mr_mie r)
    0x3fffffffffffff 0xf (mr_mscratch r) (mr_mtvec r) (mr_tp r) in
  match timerinit (mkmachine r1 (m_clint m) (m_scratch m)) with
  | Some m' =>
      let r' := m_regs m' in
      Some (mkmachine (mkmregs (mr_mhartid r') (mr_mstatus r') (mr_mepc r') (mr_satp r') (mr_medeleg r')
        (mr_mideleg r') (mr_sie r') (mr_mie r') (mr_pmpaddr0 r') (mr_pmpcfg0 r') (mr_mscratch r') (mr_mtvec r')
        (s32 (mr_mhartid r'))) (m_clint m') (m_scratch m'))
  | None => None
  end.

(** the mode and the address [mret] goes to *)
Definition mret (m : machine) : Z * Z := (Z.land (mr_mstatus (m_regs m)) MSTATUS_MPP_MASK, mr_mepc (m_regs m)).

Lemma mpp_bits x : Z.land (Z.lor (Z.lor (Z.land x (u64 (Z.lnot MSTATUS_MPP_MASK))) MSTATUS_MPP_S) MSTATUS_MIE)
  MSTATUS_MPP_MASK = MSTATUS_MPP_S.
Proof.
  rewrite !Z.land_lor_distr_l, <- Z.land_assoc.
  change (Z.land (u64 (Z.lnot MSTATUS_MPP_MASK)) MSTATUS_MPP_MASK) with 0.
  change (Z.land MSTATUS_MIE MSTATUS_MPP_MASK) with 0. rewrite Z.land_0_r. reflexivity.
Qed.

(** every hart with a slot of its own enters [main] in supervisor mode, with its
    number in [tp], its timer armed one interval ahead and its scratch area set up *)
Lemma start_enters_main m id scratch : mr_mhartid (m_regs m) = id -> 0 <= id < 2 ^ 31 ->
  m_scratch m !! Z.to_nat id = Some scratch -> length scratch = 5%nat ->
  exists m', start m = Some m' /\ mret m' = (MSTATUS_MPP_S, main) /\ mr_tp (m_regs m') = id /\
    mr_mscratch (m_regs m') = timer_scratch + 40 * id /\ mr_mtvec (m_regs m') = timervec /\
    m_clint m' !! CLINT_MTIMECMP id = Some (u64 (default 0 (m_clint m !! CLINT_MTIME) + 1000000)) /\
    exists scratch', m_scratch m' !! Z.to_nat id = Some scratch' /\
      scratch' !! 3%nat = Some (CLINT_MTIMECMP id) /\ scratch' !! 4%nat = Some 1000000.
Proof.
  intros Hid Hr Hs Hl. unfold start, timerinit. cbn. rewrite Hid, s32_small by lia. rewrite Hs.
  replace (id <? 0) with false by lia. eexists. split; [reflexivity|]. unfold mret. cbn. rewrite mpp_bits.
  split_and!; [done | by rewrite s32_small by lia | done | done | apply lookup_insert_eq |].
  eexists. split; [apply list_lookup_insert_eq; by eapply lookup_lt_Some|].
  split; [rewrite list_lookup_insert_ne by done |]; apply list_lookup_insert_eq; rewrite ?length_insert; lia.
Qed.
End start.
