(* ===== verification/Ulib.v ===== *)
(** user/ulib.c: the string routines user programs are linked with.

    [strchr] works on the bytes of a string; the others on byte memory, like the
    kernel's string.c.  [memmove] compares the pointers instead of the ranges, so
    it may copy in another direction than the kernel's; the two are shown equal. *)
From S2P Require Import Prelude State Cstring.

Fixpoint strchr (s : list Z) (c : Z) : option nat :=
  match s with
  | [] => None
  | x :: s' => if x =? 0 then None else if x =? c then Some 0%nat else S <$> strchr s' c
  end.

(** [gets]: at most [max - 1] bytes, up to and including a newline or return; the
    bytes stored, and the input left *)
Fixpoint u_gets (max : nat) (inp : list Z) : list Z * list Z :=
  match max, inp with
  | S (S _ as max'), c :: inp' =>
      if (c =? 10) || (c =? 13) then ([c], inp')
      else let '(buf, rest) := u_gets max' inp' in (c :: buf, rest)
  | _, _ => ([], inp)
  end.


(** ** The routines on memory *)

(** copies up to and including the NUL, with at most [fuel] bytes *)
Fixpoint strcpy (fuel : nat) (m : gmap Z Z) (s t : Z) : option (gmap Z Z) :=
  match fuel with
  | O => None
  | S f => let m' := stb m s (ldb m t) in
           if istrue (ldb m t) then strcpy f m' (s + 1) (t + 1) else Some m'
  end.

Fixpoint strcmp (fuel : nat) (m : gmap Z Z) (p q : Z) : option Z :=
  match fuel with
  | O => None
  | S f => if istrue (ldb m p) && (ldb m p =? ldb m q) then strcmp f m (p + 1) (q + 1)
           else Some (ldb m p - ldb m q)
  end.

Fixpoint u_strlen_from (fuel : nat) (m : gmap Z Z) (s n : Z) : option Z :=
  match fuel with
  | O => None
  | S f => if istrue (ldb m (s + n)) then u_strlen_from f m s (n + 1) else Some n
  end.
Definition u_strlen (fuel : nat) (m : gmap Z Z) (s : Z) : option Z := u_strlen_from fuel m s 0.

Fixpoint u_memset (m : gmap Z Z) (dst c : Z) (n : nat) : gmap Z Z :=
  match n with O => m | S n' => u_memset (stb m dst c) (dst + 1) c n' end.

Definition u_memmove (m : gmap Z Z) (dst src : Z) (n : nat) : gmap Z Z :=
  if dst <? src then copy_up m dst src n else copy_down m dst src n.
Definition u_memcpy (m : gmap Z Z) (dst src : Z) (n : nat) : gmap Z Z := u_memmove m dst src n.

Fixpoint u_memcmp (m : gmap Z Z) (s1 s2 : Z) (n : nat) : Z :=
  match n with
  | O => 0
  | S n' => if ldb m s1 =? ldb m s2 then u_memcmp m (s1 + 1) (s2 + 1) n' else ldb m s1 - ldb m s2
  end.

(** [while('0' <= *s && *s <= '9') n = n*10 + *s++ - '0';] in [int] arithmetic *)
Fixpoint atoi_from (fuel : nat) (m : gmap Z Z) (s n : Z) : option Z :=
  match fuel with
  | O => None
  | S f => if (48 <=? ldb m s) && (ldb m s <=? 57) then atoi_from f m (s + 1) (s32 (n * 10 + ldb m s - 48))
           else Some n
  end.
Definition atoi (fuel : nat) (m : gmap Z Z) (s : Z) : option Z := atoi_from fuel m s 0.

(** ** What they do *)

(** the two [memmove]s leave the same bytes everywhere *)
Lemma memmove_as_kernel m dst src n a : ldb (u_memmove m dst src n) a = ldb (Cstring.memmove m dst src n) a.
Proof.
  rewrite ldb_memmove. unfold u_memmove.
  destruct (Z.ltb_spec dst src); [apply ldb_copy_up | apply ldb_copy_down]; lia.
Qed.

(** the bytes at [s] are [l], then one that is no digit *)
Fixpoint holds (m : gmap Z Z) (s : Z) (l : list Z) : Prop :=
  match l with
  | [] => ~ (48 <= ldb m s <= 57)
  | c :: l' => ldb m s = c /\ holds m (s + 1) l'
  end.
(** the number a numeral denotes *)
Definition value (l : list Z) : Z := foldl (fun n c => n * 10 + (c - 48)) 0 l.

Lemma atoi_from_spec m l : forall s n fuel, holds m s l -> Forall (fun c => 48 <= c <= 57) l ->
  (length l < fuel)%nat ->
  0 <= n -> foldl (fun n c => n * 10 + (c - 48)) n l < 2 ^ 31 ->
  atoi_from fuel m s n = Some (foldl (fun n c => n * 10 + (c - 48)) n l).
Proof.
  assert (Hmono : forall l n, Forall (fun c => 48 <= c <= 57) l -> 0 <= n ->
    n <= foldl (fun n c => n * 10 + (c - 48)) n l).
  { clear l. induction l as [|c l IH]; intros n Hl Hn; cbn; [lia|]. inversion Hl; subst.
    specialize (IH (n * 10 + (c - 48)) ltac:(done) ltac:(lia)). lia. }
  induction l as [|c l IH]; intros s n [|fuel] Hh Hd Hf Hn Hb; cbn in *; try lia.
  - destruct (Z.leb_spec 48 (ldb m s)), (Z.leb_spec (ldb m s) 57); cbn; try done. lia.
  - destruct Hh as [Hc Hh]. apply Forall_cons in Hd as [Hd1 Hd]. rewrite Hc.
    pose proof (Hmono l (n * 10 + (c - 48)) Hd ltac:(lia)).
    destruct (Z.leb_spec 48 c), (Z.leb_spec c 57); cbn; try lia.
    rewrite s32_small by lia. replace (n * 10 + c - 48) with (n * 10 + (c - 48)) by lia.
    apply IH; [done | done | lia | lia | done].
Qed.
(** [atoi] reads a numeral back, if it fits an [int] *)
Lemma atoi_spec m s l fuel : holds m s l -> Forall (fun c => 48 <= c <= 57) l -> (length l < fuel)%nat ->
  value l < 2 ^ 31 -> atoi fuel m s = Some (value l).
Proof. intros. by apply atoi_from_spec. Qed.
