(* ===== verification/Uprog.v ===== *)
(** User programs and their system calls.

    A user program is an interaction tree whose events are the system calls it makes.
    The environment answers a call from what has been called and answered before, so it
    stands for any kernel and any input.  [steps] runs a program against an environment;
    [ends] says that it comes to an end, and how. *)
From S2P Require Import Prelude.
From ITree Require Import ITree.

(** the system calls of user.h that the programs below use, with their arguments *)
Inductive call :=
| CFork
| CWait
| CWrite (fd : Z) (bytes : list Z)
| CRead (fd n : Z)
| CClose (fd : Z)
| CKill (pid : Z)
| CExec (path : list Z) (argv : list (list Z))
| COpen (name : list Z) (mode : Z)
| CMknod (name : list Z) (major minor : Z)
| CUnlink (name : list Z)
| CFstat (fd : Z)
| CLink (old new : list Z)
| CMkdir (name : list Z)
| CDup (fd : Z)
| CSleep (n : Z)
| CGetSysCount (mask : Z)
| CWaitx
| CGetpid
| CSbrk (n : Z)
| CChdir (name : list Z)
| CPipe.
#[export] Instance call_eq_dec : EqDecision call.
Proof. solve_decision. Defined.
(** the value returned, and the bytes stored in the caller's memory *)
Definition answer : Type := Z * list Z.

Inductive sysE : Type -> Type :=
| Sys (c : call) : sysE answer
| Exit (status : Z) : sysE Empty_set
| Undef : sysE Empty_set.
Definition U (R : Type) : Type := itree sysE R.

Declare Scope user_scope.
Delimit Scope user_scope with U.
Notation "x <- m ;; k" := (ITree.bind m (fun x => k))
  (at level 100, m at next level, right associativity) : user_scope.
Notation "m ;; k" := (ITree.bind m (fun _ => k))
  (at level 100, right associativity) : user_scope.

Notation uret r := (go (RetF r)).
Definition sys (c : call) : U answer := ITree.trigger (Sys c).
(** a call of which only the value matters *)
Definition sysv (c : call) : U Z := ITree.bind (sys c) (fun a => Ret a.1).
Definition uexit {R} (status : Z) : U R := ITree.bind (ITree.trigger (Exit status)) (fun x : Empty_set => match x with end).
(** what C leaves undefined *)
Definition undef {R} : U R := ITree.bind (ITree.trigger Undef) (fun x : Empty_set => match x with end).
(** [for (x of l) body] *)
Fixpoint uforeach {A} (l : list A) (body : A -> U unit) : U unit :=
  match l with [] => Ret tt | x :: l' => ITree.bind (body x) (fun _ => uforeach l' body) end.

(** ** Running a program *)
Definition history : Type := list (call * answer).
Definition environment : Type := history -> call -> answer.
Inductive status {R : Type} :=
| Returned (r : R)
| Exited (n : Z)
| Undefined
| Running (t : U R).
Arguments status : clear implicits.

Fixpoint steps {R} (fuel : nat) (env : environment) (t : U R) (h : history) : status R * history :=
  match fuel with
  | O => (Running t, h)
  | S f =>
      match observe t with
      | RetF r => (Returned r, h)
      | TauF t' => steps f env t' h
      | VisF e k =>
          match e in sysE T return (T -> U R) -> status R * history with
          | Sys c => fun k => steps f env (k (env h c)) (h ++ [(c, env h c)])
          | Exit n => fun _ => (Exited n, h)
          | Undef => fun _ => (Undefined, h)
          end k
      end
  end.
Definition ends {R} (env : environment) (t : U R) (h : history) (o : status R) (h' : history) : Prop :=
  exists fuel, steps fuel env t h = (o, h') /\ match o with Running _ => False | _ => True end.
(** after [n] steps the program is at [t'], and has made the calls [h'] *)
Inductive gets_to {R} (env : environment) : nat -> U R -> history -> U R -> history -> Prop :=
| gt_here t t' h : observe t = observe t' -> gets_to env 0 t h t' h
| gt_tau n t u h t' h' : observe t = TauF u -> gets_to env n u h t' h' -> gets_to env (S n) t h t' h'
| gt_sys n t c k h t' h' : observe t = VisF (Sys c) k -> gets_to env n (k (env h c)) (h ++ [(c, env h c)]) t' h' ->
    gets_to env (S n) t h t' h'.

Section rules.
Context (env : environment).

Lemma observe_bind {R S} (t : U R) (k : R -> U S) :
  observe (ITree.bind t k) =
    match observe t with
    | RetF r => observe (k r)
    | TauF t => TauF (ITree.bind t k)
    | VisF e ke => VisF e (fun x => ITree.bind (ke x) k)
    end.
Proof.
  transitivity (observe (match observe t with RetF r => k r | TauF t => Tau (ITree.bind t k)
    | VisF e ke => Vis e (fun x => ITree.bind (ke x) k) end)); [reflexivity | by destruct (observe t)].
Qed.
Lemma observe_iter {I R} (body : I -> U (I + R)) i :
  observe (ITree.iter body i) =
    observe (ITree.bind (body i) (fun r => match r with inl i' => Tau (ITree.iter body i') | inr v => Ret v end)).
Proof. reflexivity. Qed.

Lemma ends_ret {R} (r : R) h : ends env (Ret r) h (Returned r) h.
Proof. by exists 1%nat. Qed.
Lemma ends_exit {R} n h : ends env (uexit n : U R) h (Exited n) h.
Proof. by exists 1%nat. Qed.
Lemma ends_observe {R} (t t' : U R) h o h' : observe t = observe t' -> ends env t' h o h' -> ends env t h o h'.
Proof.
  intros E (fuel & H & Ho). exists fuel. destruct fuel as [|fuel]; [cbn in H; injection H as <- <-; done|].
  cbn in *. by rewrite E.
Qed.
(** a program that ends, and then another *)
Lemma ends_bind {R S} (t : U R) (k : R -> U S) a h h1 o h2 :
  ends env t h (Returned a) h1 -> ends env (k a) h1 o h2 -> ends env (ITree.bind t k) h o h2.
Proof.
  intros (f1 & H1 & _). revert t h H1. induction f1 as [|f1 IH]; intros t h H1; [done|]. cbn in H1. intros H2.
  destruct (observe t) as [r|t'|T e ke] eqn:E.
  - injection H1 as -> ->. eapply ends_observe; [|exact H2]. rewrite observe_bind, E. done.
  - destruct (IH t' h H1 H2) as (f & Hf & Ho). exists (Datatypes.S f). split; [|done]. cbn [steps]. rewrite observe_bind, E. exact Hf.
  - destruct e as [c|n|]; [|done|done]. destruct (IH _ _ H1 H2) as (f & Hf & Ho). exists (Datatypes.S f). split; [|done].
    cbn [steps]. rewrite observe_bind, E. exact Hf.
Qed.
Lemma ends_bind_exit {R S} (t : U R) (k : R -> U S) n h h1 :
  ends env t h (Exited n) h1 -> ends env (ITree.bind t k) h (Exited n) h1.
Proof.
  intros (f1 & H1 & _). revert t h H1. induction f1 as [|f1 IH]; intros t h H1; [done|]. cbn in H1.
  destruct (observe t) as [r|t'|T e ke] eqn:E; [done | |].
  - destruct (IH t' h H1) as (f & Hf & Ho). exists (Datatypes.S f). split; [|done]. cbn [steps]. rewrite observe_bind, E. exact Hf.
  - destruct e as [c|m|]; [| |done].
    + destruct (IH _ _ H1) as (f & Hf & Ho). exists (Datatypes.S f). split; [|done]. cbn [steps]. rewrite observe_bind, E. exact Hf.
    + injection H1 as -> ->. exists 1%nat. split; [|done]. cbn [steps]. by rewrite observe_bind, E.
Qed.
(** a program that gets somewhere has not ended before *)
Lemma gets_to_running {R} n (t : U R) h t' h' fuel : gets_to env n t h t' h' -> (fuel <= n)%nat ->
  exists u g, steps fuel env t h = (Running u, g).
Proof.
  intros H. revert fuel. induction H as [t t' h E|n t u h t' h' E H IH|n t c k h t' h' E H IH]; intros [|fuel] Hf; try by eauto.
  - lia.
  - cbn [steps]. rewrite E. apply IH. lia.
  - cbn [steps]. rewrite E. apply IH. lia.
Qed.
Lemma gets_to_length {R} n (t : U R) h t' h' : gets_to env n t h t' h' -> (length h' <= length h + n)%nat.
Proof. intros H. induction H as [| |n t c k h t' h' E H IH]; [lia.. |]. rewrite length_app in IH. cbn in IH. lia. Qed.
Lemma gets_to_observe {R} n (t u : U R) h t' h' : observe t = observe u -> gets_to env n u h t' h' -> gets_to env n t h t' h'.
Proof.
  intros E H. destruct H as [u t' h Eu|n u x h t' h' Eu H|n u c k h t' h' Eu H]; rewrite <- E in Eu.
  - by apply gt_here.
  - by eapply gt_tau.
  - by eapply gt_sys.
Qed.
Lemma gets_to_trans {R} n m (t u v : U R) h h1 h2 : gets_to env n t h u h1 -> gets_to env m u h1 v h2 -> gets_to env (n + m) t h v h2.
Proof.
  intros H. induction H as [t t' h E|n t x h t' h' E H IH|n t c k h t' h' E H IH]; intros H2.
  - by eapply gets_to_observe.
  - eapply gt_tau; [exact E | by apply IH].
  - eapply gt_sys; [exact E | by apply IH].
Qed.
Lemma gets_to_bind {R S} n (t t' : U R) (k : R -> U S) h h' : gets_to env n t h t' h' ->
  gets_to env n (ITree.bind t k) h (ITree.bind t' k) h'.
Proof.
  intros H. induction H as [t t' h E|n t x h t' h' E H IH|n t c ke h t' h' E H IH].
  - apply gt_here. by rewrite !observe_bind, E.
  - eapply gt_tau; [rewrite observe_bind, E; reflexivity | exact IH].
  - eapply gt_sys; [rewrite observe_bind, E; reflexivity | exact IH].
Qed.
Lemma ends_gets_to {R} (t : U R) a h h' : ends env t h (Returned a) h' -> exists n, gets_to env n t h (Ret a) h'.
Proof.
  intros (fuel & H & _). revert t h H. induction fuel as [|fuel IH]; intros t h H; [done|]. cbn in H.
  destruct (observe t) as [r|u|T e k] eqn:E.
  - injection H as -> ->. exists 0%nat. by apply gt_here.
  - destruct (IH _ _ H) as (n & Hn). exists (Datatypes.S n). by eapply gt_tau.
  - destruct e as [c|m|]; [|done|done]. destruct (IH _ _ H) as (n & Hn). exists (Datatypes.S n). by eapply gt_sys.
Qed.
Lemma gets_to_then {R S} (t : U R) (k : R -> U S) a h h' : ends env t h (Returned a) h' ->
  exists n, gets_to env n (ITree.bind t k) h (k a) h'.
Proof.
  intros H. destruct (ends_gets_to _ _ _ _ H) as (n & Hn). exists (n + 0)%nat.
  eapply gets_to_trans; [by apply gets_to_bind | by apply gt_here].
Qed.
Lemma ends_sys c h : ends env (sys c) h (Returned (env h c)) (h ++ [(c, env h c)]).
Proof. by exists 2%nat. Qed.
Lemma ends_sysv c h : ends env (sysv c) h (Returned (env h c).1) (h ++ [(c, env h c)]).
Proof. eapply ends_bind; [apply ends_sys | apply ends_ret]. Qed.
(** one round of a loop *)
Lemma ends_iter_next {I R} (body : I -> U (I + R)) i i' h h1 o h2 :
  ends env (body i) h (Returned (inl i')) h1 -> ends env (ITree.iter body i') h1 o h2 -> ends env (ITree.iter body i) h o h2.
Proof.
  intros H1 H2. eapply ends_observe; [apply observe_iter|]. eapply ends_bind; [exact H1|].
  destruct H2 as (f & Hf & Ho). exists (Datatypes.S f). split; [exact Hf | done].
Qed.
Lemma ends_iter_stop {I R} (body : I -> U (I + R)) i v h h1 :
  ends env (body i) h (Returned (inr v)) h1 -> ends env (ITree.iter body i) h (Returned v) h1.
Proof. intros H1. eapply ends_observe; [apply observe_iter|]. eapply ends_bind; [exact H1 | apply ends_ret]. Qed.
Lemma ends_iter_exit {I R} (body : I -> U (I + R)) i n h h1 :
  ends env (body i) h (Exited n) h1 -> ends env (ITree.iter body i) h (Exited n) h1.
Proof. intros H1. eapply ends_observe; [apply observe_iter|]. by apply ends_bind_exit. Qed.
End rules.

(** the calls of a history *)
Definition calls (h : history) : list call := h.*1.
(** what has been written to a descriptor *)
Definition output (fd : Z) (l : list call) : list Z :=
  mjoin ((fun c => match c with CWrite fd' b => if fd' =? fd then b else [] | _ => [] end) <$> l).
Lemma output_app fd l1 l2 : output fd (l1 ++ l2) = output fd l1 ++ output fd l2.
Proof. unfold output. by rewrite fmap_app, join_app. Qed.
