(* ===== verification/Uprintf.v ===== *)
(** user/printf.c: formatted output of user programs, one [write] for each byte. *)
From ITree Require Import ITree.
From S2P Require Import Prelude State Printf Uprog.
From Stdlib Require Import Ascii.
Local Open Scope user_scope.

(** [%x] and [%p] have upper-case digits here *)
Definition u_digits : list Z := chars "0123456789ABCDEF".
Definition u_digit (d : Z) : Z := default 0 (u_digits !! Z.to_nat d).

Definition putc (fd c : Z) : U unit := sysv (CWrite fd [u8 c]);; uret tt.

(** the [do ... while] loop: the digits of [x], lowest first *)
Fixpoint u_print_digits (fuel : nat) (x base : Z) : list Z :=
  match fuel with
  | O => []
  | S f => u_digit (x mod base) :: if x / base =? 0 then [] else u_print_digits f (x / base) base
  end.
(** the characters in [buf], in the order they are written *)
Definition u_printint_chars (xx base sgn : Z) : list Z :=
  let neg := istrue sgn && (xx <? 0) in
  let x := if neg then u32 (- xx) else u32 xx in
  rev (u_print_digits 16 x base ++ if neg then chars "-" else []).
Definition u_printint (fd xx base sgn : Z) : U unit := uforeach (u_printint_chars xx base sgn) (putc fd).

Fixpoint u_printptr_digits (n : nat) (x : Z) : list Z :=
  match n with
  | O => []
  | S n' => u_digit (Z.shiftr x 60) :: u_printptr_digits n' (u64 (Z.shiftl x 4))
  end.
Definition u_printptr (fd x : Z) : U unit :=
  putc fd (char_code "0");; putc fd (char_code "x");; uforeach (u_printptr_digits 16 x) (putc fd).

(** the variable arguments: an [int] or [uint], a 64-bit value, a string *)
Inductive uarg := UInt (z : Z) | ULong (z : Z) | UStr (s : option (list Z)).

(** the loop over the format, [state] being 0 or ['%'] *)
Fixpoint vprintf (fd : Z) (state : Z) (fmt : list Z) (ap : list uarg) : U unit :=
  match fmt with
  | [] => uret tt
  | c :: rest =>
      if state =? 0 then
        if c =? 37 then vprintf fd 37 rest ap else putc fd c;; vprintf fd 0 rest ap
      else if c =? 100 then
        match ap with UInt z :: ap' => u_printint fd (s32 z) 10 1;; vprintf fd 0 rest ap' | _ => undef end
      else if c =? 108 then
        match ap with ULong z :: ap' => u_printint fd (s32 z) 10 0;; vprintf fd 0 rest ap' | _ => undef end
      else if c =? 120 then
        match ap with UInt z :: ap' => u_printint fd (s32 z) 16 0;; vprintf fd 0 rest ap' | _ => undef end
      else if c =? 112 then
        match ap with ULong z :: ap' => u_printptr fd (u64 z);; vprintf fd 0 rest ap' | _ => undef end
      else if c =? 115 then
        match ap with
        | UStr s :: ap' => uforeach (default (chars "(null)") s) (putc fd);; vprintf fd 0 rest ap'
        | _ => undef end
      else if c =? 99 then
        match ap with UInt z :: ap' => putc fd z;; vprintf fd 0 rest ap' | _ => undef end
      else if c =? 37 then putc fd c;; vprintf fd 0 rest ap
      else putc fd 37;; putc fd c;; vprintf fd 0 rest ap
  end.
Definition fprintf (fd : Z) (fmt : string) (ap : list uarg) : U unit := vprintf fd 0 (chars fmt) ap.
Definition uprintf (fmt : string) (ap : list uarg) : U unit := vprintf 1 0 (chars fmt) ap.

(** ** The text a format stands for *)

(** a directive takes an argument and gives a text *)
Definition directive (c : Z) (ap : list uarg) : option (list Z * list uarg) :=
  if c =? char_code "d" then match ap with UInt z :: ap => Some (u_printint_chars (s32 z) 10 1, ap) | _ => None end
  else if c =? char_code "l" then match ap with ULong z :: ap => Some (u_printint_chars (s32 z) 10 0, ap) | _ => None end
  else if c =? char_code "x" then match ap with UInt z :: ap => Some (u_printint_chars (s32 z) 16 0, ap) | _ => None end
  else if c =? char_code "p" then match ap with ULong z :: ap => Some (chars "0x" ++ u_printptr_digits 16 (u64 z), ap) | _ => None end
  else if c =? char_code "s" then match ap with UStr s :: ap => Some (default (chars "(null)") s, ap) | _ => None end
  else if c =? char_code "c" then match ap with UInt z :: ap => Some ([z], ap) | _ => None end
  else if c =? char_code "%" then Some ([c], ap)
  else Some ([char_code "%"; c], ap).
Fixpoint utext (fmt : list Z) (ap : list uarg) : option (list Z) :=
  match fmt with
  | [] => Some []
  | c :: rest =>
      if negb (c =? char_code "%") then cons c <$> utext rest ap
      else match rest with
           | [] => Some []
           | d :: rest' => '(out, ap') ← directive d ap; app out <$> utext rest' ap'
           end
  end.

(** the calls that write a text *)
Definition writes (fd : Z) (l : list Z) : list call := (fun c => CWrite fd [u8 c]) <$> l.
Lemma output_writes fd l : Forall (fun c => 0 <= c < 256) l -> output fd (writes fd l) = l.
Proof.
  unfold output, writes. induction 1 as [|c l Hc _ IH]; [done|]. cbn. rewrite Z.eqb_refl. cbn. f_equal; [|exact IH].
  unfold u8. by rewrite Z.mod_small.
Qed.
Lemma output_writes_other fd fd' l : fd <> fd' -> output fd (writes fd' l) = [].
Proof.
  intros Hne. unfold output, writes. induction l as [|c l IH]; [done|]. cbn. replace (fd' =? fd) with false by lia. exact IH.
Qed.

Section printing.
Context (env : environment).

(** [m] returns, having made just the calls [l] *)
Definition does (m : U unit) (l : list call) : Prop :=
  forall h, exists g, ends env m h (Returned tt) (h ++ g) /\ calls g = l.
Lemma does_ret : does (uret tt) [].
Proof. intros h. exists []. split; [rewrite app_nil_r; apply ends_ret | done]. Qed.
Lemma does_bind m1 m2 l1 l2 : does m1 l1 -> does m2 l2 -> does (m1;; m2) (l1 ++ l2).
Proof.
  intros H1 H2 h. destruct (H1 h) as (g1 & E1 & C1). destruct (H2 (h ++ g1)) as (g2 & E2 & C2). exists (g1 ++ g2).
  rewrite app_assoc. split; [by eapply ends_bind|]. unfold calls in *. by rewrite fmap_app, C1, C2.
Qed.
Lemma does_sysv c : does (sysv c;; uret tt) [c].
Proof. intros h. eexists. split; [eapply ends_bind; [apply ends_sysv | apply ends_ret] | done]. Qed.
Lemma does_putc fd c : does (putc fd c) (writes fd [c]).
Proof. apply does_sysv. Qed.
Lemma does_puts fd l : does (uforeach l (putc fd)) (writes fd l).
Proof.
  induction l as [|c l IH]; [apply does_ret|]. change (writes fd (c :: l)) with (writes fd [c] ++ writes fd l).
  cbn [uforeach]. apply does_bind; [apply does_putc | done].
Qed.
Lemma does_text fd m l rest out : does m (writes fd l) -> does rest (writes fd out) -> does (m;; rest) (writes fd (l ++ out)).
Proof. intros H1 H2. unfold writes. rewrite fmap_app. by apply does_bind. Qed.

Lemma does_printptr fd x : does (u_printptr fd x) (writes fd (chars "0x" ++ u_printptr_digits 16 x)).
Proof.
  unfold u_printptr. change (chars "0x") with ([char_code "0"] ++ [char_code "x"]). rewrite <- app_assoc.
  apply does_text; [apply does_putc|]. apply does_text; [apply does_putc | apply does_puts].
Qed.

(** the text of the format is what is written *)
Lemma does_vprintf fd : forall n fmt, (length fmt <= n)%nat -> forall ap out, utext fmt ap = Some out ->
  does (vprintf fd 0 fmt ap) (writes fd out).
Proof.
  induction n as [|n IH]; intros fmt Hn ap out; (destruct fmt as [|c rest]; [intros [= <-]; apply does_ret|]); [cbn in Hn; lia|].
  cbn [utext vprintf]. change (char_code "%") with 37. change (0 =? 0) with true. cbv iota.
  destruct (c =? 37) eqn:E; cbn [negb].
  2:{ destruct (utext rest ap) as [o|] eqn:Eo; [|done]. intros [= <-]. change (c :: o) with ([c] ++ o).
      apply does_text; [apply does_putc | apply IH; [cbn in Hn; lia | done]]. }
  destruct rest as [|d rest]; [intros [= <-]; apply does_ret|]. cbn [vprintf]. change (37 =? 0) with false. cbv iota.
  assert (Hr : (length rest <= n)%nat) by (cbn in Hn; lia). unfold directive.
  change (char_code "d") with 100. change (char_code "l") with 108. change (char_code "x") with 120.
  change (char_code "p") with 112. change (char_code "s") with 115. change (char_code "c") with 99. change (char_code "%") with 37.
  assert (Hgo : forall m l ap', does m (writes fd l) ->
    ('(o, ap') ← Some (l, ap'); app o <$> utext rest ap') = Some out -> does (m;; vprintf fd 0 rest ap') (writes fd out)).
  { intros m l ap' Hm H. cbn in H. destruct (utext rest ap') as [o|] eqn:Eo; [|done]. injection H as <-.
    apply does_text; [done | by apply IH]. }
  destruct (d =? 100); [destruct ap as [|[] ap']; try done; intros Hu; by eapply Hgo; [apply does_puts | exact Hu]|].
  destruct (d =? 108); [destruct ap as [|[] ap']; try done; intros Hu; by eapply Hgo; [apply does_puts | exact Hu]|].
  destruct (d =? 120); [destruct ap as [|[] ap']; try done; intros Hu; by eapply Hgo; [apply does_puts | exact Hu]|].
  destruct (d =? 112); [destruct ap as [|[] ap']; try done; intros Hu; by eapply Hgo; [apply does_printptr | exact Hu]|].
  destruct (d =? 115); [destruct ap as [|[] ap']; try done; intros Hu; by eapply Hgo; [apply does_puts | exact Hu]|].
  destruct (d =? 99); [destruct ap as [|[] ap']; try done; intros Hu; by eapply Hgo; [apply does_putc | exact Hu]|].
  destruct (d =? 37); [intros Hu; by eapply Hgo; [apply does_putc | exact Hu]|].
  cbn. destruct (utext rest ap) as [o|] eqn:Eo; [|done]. intros [= <-]. change (37 :: d :: o) with ([37] ++ [d] ++ o).
  apply does_text; [apply does_putc|]. apply does_text; [apply does_putc | by apply IH].
Qed.
Lemma ends_fprintf fd fmt ap out h : utext (chars fmt) ap = Some out ->
  exists h', ends env (fprintf fd fmt ap) h (Returned tt) h' /\ calls h' = calls h ++ writes fd out.
Proof.
  intros Ht. destruct (does_vprintf fd _ _ (le_n _) ap out Ht h) as (g & E & C). exists (h ++ g). split; [exact E|].
  unfold calls in *. by rewrite fmap_app, C.
Qed.
End printing.

(** ** Numerals *)

(** the kernel prints the same numerals, with lower-case digits *)
Definition lower (c : Z) : Z := if (65 <=? c) && (c <=? 90) then c + 32 else c.
Lemma u_digit_lower d : 0 <= d < 16 -> lower (u_digit d) = digit d.
Proof.
  intros H. assert (Hall : Forall (fun d => lower (u_digit (Z.of_nat d)) = digit (Z.of_nat d)) (seq 0 16))
    by (repeat (constructor; [vm_compute; reflexivity|]); constructor).
  rewrite Forall_forall in Hall. replace d with (Z.of_nat (Z.to_nat d)) by lia. apply Hall, elem_of_seq. lia.
Qed.
Lemma u_print_digits_lower base fuel : 2 <= base <= 16 -> forall x, lower <$> u_print_digits fuel x base = print_digits fuel x base.
Proof.
  intros Hb. induction fuel as [|fuel IH]; intros x; [done|]. cbn [u_print_digits print_digits fmap list_fmap].
  f_equal; [apply u_digit_lower; pose proof (Z.mod_pos_bound x base); lia|]. destruct (_ =? 0); [done | apply IH].
Qed.
Lemma u_printint_lower xx base sgn : 2 <= base <= 16 -> lower <$> u_printint_chars xx base sgn = printint_chars xx base sgn.
Proof.
  intros Hb. unfold u_printint_chars, printint_chars. etransitivity; [apply map_rev|]. f_equal.
  rewrite fmap_app. f_equal; [by apply u_print_digits_lower|].
  by destruct (istrue sgn && (xx <? 0)).
Qed.
Lemma printint_unsigned z base : base = 10 \/ base = 16 -> numeral base (printint_chars z base 0) = u32 z.
Proof.
  intros Hb. unfold printint_chars. change (istrue 0) with false. rewrite andb_false_l.
  assert (2 ^ 32 <= base ^ 16%nat) as Hpow by (destruct Hb as [-> | ->]; vm_compute; discriminate).
  assert (Hu : 0 <= u32 z < 2 ^ 32) by (unfold u32; apply Z.mod_pos_bound; lia).
  destruct (print_digits_value 16 base (u32 z)) as (H1 & H2 & H3); [lia..|].
  rewrite (numeral_rev base false) by done. by rewrite H1.
Qed.

(** [fprintf] writes its format: when every directive has an argument of its kind, it
    returns after writing to the descriptor exactly the text of the format, one byte
    for each call of [write] whatever these calls answer.  The numerals in it read
    back: [%d] as the argument at 32 bits with its sign, [%x] and [%l] as the argument
    without a sign, cut to 32 bits although [%l] is given 64. *)
Lemma fprintf_writes env fd fmt ap out h : utext (chars fmt) ap = Some out ->
  (exists h', ends env (fprintf fd fmt ap) h (Returned tt) h' /\ calls h' = calls h ++ writes fd out) /\
  forall z, numeral 10 (lower <$> u_printint_chars (s32 z) 10 1) = s32 z /\
    numeral 16 (lower <$> u_printint_chars (s32 z) 16 0) = u32 z /\
    numeral 10 (lower <$> u_printint_chars (s32 z) 10 0) = u32 z.
Proof.
  intros Ht. split; [by apply ends_fprintf|]. intros z. pose proof (s32_range z) as Hz. rewrite !u_printint_lower by lia.
  split_and!; [apply printint_reads_back; [lia | by left] | |]; rewrite printint_unsigned by lia; apply u32_s32.
Qed.
(** an environment in which every call answers 1 *)
Definition env1 : environment := fun _ _ => (1, []).
Lemma fprintf_writes_witness : exists h', ends env1 (fprintf 2 "%s: %d %x" [UStr (Some (chars "ls")); UInt (-7); UInt 255]) [] (Returned tt) h' /\
  output 2 (calls h') = chars "ls: -7 FF".
Proof.
  destruct (fprintf_writes env1 2 "%s: %d %x" [UStr (Some (chars "ls")); UInt (-7); UInt 255] (chars "ls: -7 FF") [])
    as ((h' & H1 & H2) & _); [vm_compute; reflexivity|].
  exists h'. split; [exact H1|]. rewrite H2. vm_compute. reflexivity.
Defined.
