(* ===== verification/Ucmd.v ===== *)
(** The commands of user/: cat, wc, echo, mkdir, rm, ln, kill, zombie, ls, syscount and init,
    and [stat] of ulib.c.  A command gets its arguments as the strings of [argv], the
    name first. *)
From ITree Require Import ITree.
From S2P Require Import Prelude State Proc Log Fs Ulib Uprog Uprintf.
From Stdlib Require Import Ascii.
Local Open Scope user_scope.

Definition nl : list Z := [10].
(** a message, then the end *)
Definition die (fd : Z) (fmt : string) (ap : list uarg) (status : Z) : U unit := fprintf fd fmt ap;; uexit status.

(** [atoi] of a string *)
Definition str_mem (l : list Z) : gmap Z Z := list_to_map (imap (fun i c => (Z.of_nat i, c)) l).
Definition uatoi (l : list Z) : Z := default 0 (atoi (S (length l)) (str_mem l) 0).

(** ** cat.c *)
Definition cat (fd : Z) : U unit :=
  n <- ITree.iter (fun _ : unit =>
    r <- sys (CRead fd 512);;
    let '(n, buf) := r in
    if 0 <? n then
      w <- sysv (CWrite 1 (take (Z.to_nat n) buf));;
      if negb (w =? n) then die 2 "cat: write error
" [] 1;; uret (inr n)
      else uret (inl tt)
    else uret (inr n)) tt;;
  if n <? 0 then die 2 "cat: read error
" [] 1 else uret tt.
Definition cat_file (name : list Z) : U unit :=
  fd <- sysv (COpen name 0);;
  if fd <? 0 then die 2 "cat: cannot open %s
" [UStr (Some name)] 1
  else cat fd;; sysv (CClose fd);; uret tt.
Definition cat_main (argv : list (list Z)) : U unit :=
  if (length argv <=? 1)%nat then cat 0;; uexit 0
  else uforeach (tail argv) cat_file;; uexit 0.

(** ** wc.c *)
Definition blanks : list Z := [32; 13; 9; 10; 11].
Definition wc_byte (st : Z * Z * Z * Z) (b : Z) : Z * Z * Z * Z :=
  let '(l, w, c, inword) := st in
  let c := s32 (c + 1) in
  let l := if b =? 10 then s32 (l + 1) else l in
  match strchr blanks b with
  | Some _ => (l, w, c, 0)
  | None => if negb (istrue inword) then (l, s32 (w + 1), c, 1) else (l, w, c, inword)
  end.
Definition wc (fd : Z) (name : list Z) : U unit :=
  r <- ITree.iter (fun st =>
    r <- sys (CRead fd 512);;
    let '(n, buf) := r in
    if 0 <? n then uret (inl (foldl wc_byte st (take (Z.to_nat n) buf))) else uret (inr (n, st))) (0, 0, 0, 0);;
  let '(n, (l, w, c, _)) := r in
  if n <? 0 then die 1 "wc: read error
" [] 1
  else uprintf "%d %d %d %s
" [UInt l; UInt w; UInt c; UStr (Some name)].
Definition wc_file (name : list Z) : U unit :=
  fd <- sysv (COpen name 0);;
  if fd <? 0 then die 1 "wc: cannot open %s
" [UStr (Some name)] 1
  else wc fd name;; sysv (CClose fd);; uret tt.
Definition wc_main (argv : list (list Z)) : U unit :=
  if (length argv <=? 1)%nat then wc 0 [];; uexit 0
  else uforeach (tail argv) wc_file;; uexit 0.

(** ** echo.c *)
Fixpoint echo_args (args : list (list Z)) : U unit :=
  match args with
  | [] => uret tt
  | a :: rest =>
      sysv (CWrite 1 a);;
      sysv (CWrite 1 (match rest with [] => nl | _ => chars " " end));;
      echo_args rest
  end.
Definition echo_main (argv : list (list Z)) : U unit := echo_args (tail argv);; uexit 0.

(** ** mkdir.c, rm.c: up to the first that fails *)
Fixpoint until_fails (op : list Z -> call) (fmt : string) (args : list (list Z)) : U unit :=
  match args with
  | [] => uret tt
  | a :: rest => r <- sysv (op a);;
                 if r <? 0 then fprintf 2 fmt [UStr (Some a)] else until_fails op fmt rest
  end.
Definition mkdir_main (argv : list (list Z)) : U unit :=
  if (length argv <? 2)%nat then die 2 "Usage: mkdir files...
" [] 1
  else until_fails CMkdir "mkdir: %s failed to create
" (tail argv);; uexit 0.
Definition rm_main (argv : list (list Z)) : U unit :=
  if (length argv <? 2)%nat then die 2 "Usage: rm files...
" [] 1
  else until_fails CUnlink "rm: %s failed to delete
" (tail argv);; uexit 0.

(** ** ln.c, kill.c, zombie.c *)
Definition ln_main (argv : list (list Z)) : U unit :=
  match argv with
  | [_; old; new] =>
      r <- sysv (CLink old new);;
      (if r <? 0 then fprintf 2 "link %s %s: failed
" [UStr (Some old); UStr (Some new)] else uret tt);;
      uexit 0
  | _ => die 2 "Usage: ln old new
" [] 1
  end.
Definition kill_main (argv : list (list Z)) : U unit :=
  if (length argv <? 2)%nat then die 2 "usage: kill pid...
" [] 1
  else uforeach (tail argv) (fun a => sysv (CKill (uatoi a));; uret tt);; uexit 0.
Definition zombie_main : U unit :=
  pid <- sysv CFork;;
  (if 0 <? pid then sysv (CSleep 5);; uret tt else uret tt);;
  uexit 0.

(** ** ls.c *)

(** struct stat: dev 0, ino 4, type 8, nlink 10, size 16 *)
Definition st_ino (st : list Z) : Z := get32 st 4.
Definition st_type (st : list Z) : Z := s16 (get16 st 8).
Definition st_size (st : list Z) : Z := get32 st 16 + 2 ^ 32 * get32 st 20.

(** what stands after the last slash *)
Fixpoint after_slash (path : list Z) : option (list Z) :=
  match path with
  | [] => None
  | c :: rest => match after_slash rest with
                 | Some p => Some p
                 | None => if c =? slash then Some rest else None
                 end
  end.
Definition fmtname (path : list Z) : list Z :=
  let p := default path (after_slash path) in
  if (DIRSIZ <=? length p)%nat then p else p ++ replicate (DIRSIZ - length p) 32.

(** ulib.c: the start-up code, for a [main] that does not exit, and [stat] *)
Definition _main (main : U unit) : U unit := main;; uexit 0.
Definition stat (n : list Z) : U answer :=
  fd <- sysv (COpen n 0);;
  if fd <? 0 then uret (-1, []) else
  r <- sys (CFstat fd);;
  sysv (CClose fd);;
  uret r.

Definition ls_entry (path de : list Z) : U unit :=
  if get16 de 0 =? 0 then uret tt else
  let buf := cstr (path ++ slash :: take DIRSIZ (drop 2 de)) in
  r <- stat buf;;
  let '(v, st) := r in
  if v <? 0 then uprintf "ls: cannot stat %s
" [UStr (Some buf)]
  else uprintf "%s %d %d %d
" [UStr (Some (fmtname buf)); UInt (st_type st); UInt (st_ino st); UInt (st_size st)].
Definition ls (path : list Z) : U unit :=
  fd <- sysv (COpen path 0);;
  if fd <? 0 then fprintf 2 "ls: cannot open %s
" [UStr (Some path)] else
  r <- sys (CFstat fd);;
  let '(v, st) := r in
  if v <? 0 then fprintf 2 "ls: cannot stat %s
" [UStr (Some path)];; sysv (CClose fd);; uret tt else
  (if (st_type st =? T_DEVICE) || (st_type st =? T_FILE) then
     uprintf "%s %d %d %l
" [UStr (Some (fmtname path)); UInt (st_type st); UInt (st_ino st); ULong (st_size st)]
   else if st_type st =? T_DIR then
     if 512 <? Z.of_nat (length path) + 1 + Z.of_nat DIRSIZ + 1 then uprintf "ls: path too long
" [] else
     ITree.iter (fun _ : unit =>
       r <- sys (CRead fd 16);;
       if negb (r.1 =? 16) then uret (inr tt) else ls_entry path r.2;; uret (inl tt)) tt
   else uret tt);;
  sysv (CClose fd);; uret tt.
Definition ls_main (argv : list (list Z)) : U unit :=
  if (length argv <? 2)%nat then ls (chars ".");; uexit 0 else uforeach (tail argv) ls;; uexit 0.

(** ** syscount.c *)
Definition getSyscallName (mask : Z) : string :=
  if mask =? 2 ^ 0 then "fork" else if mask =? 2 ^ 1 then "exit" else if mask =? 2 ^ 2 then "wait"
  else if mask =? 2 ^ 3 then "pipe" else if mask =? 2 ^ 4 then "read" else if mask =? 2 ^ 5 then "kill"
  else if mask =? 2 ^ 6 then "exec" else if mask =? 2 ^ 7 then "fstat" else if mask =? 2 ^ 8 then "chdir"
  else if mask =? 2 ^ 9 then "dup" else if mask =? 2 ^ 10 then "getpid" else if mask =? 2 ^ 11 then "sbrk"
  else if mask =? 2 ^ 12 then "sleep" else if mask =? 2 ^ 13 then "uptime" else if mask =? 2 ^ 14 then "open"
  else if mask =? 2 ^ 15 then "write" else if mask =? 2 ^ 16 then "mknod" else if mask =? 2 ^ 17 then "unlink"
  else if mask =? 2 ^ 18 then "fchmod" else if mask =? 2 ^ 19 then "link" else if mask =? 2 ^ 20 then "mkdir"
  else if mask =? 2 ^ 21 then "close" else "unknown".
Definition syscount_main (argv : list (list Z)) : U unit :=
  match argv with
  | _ :: a :: cmd :: args =>
      let mask := uatoi a in
      if (mask <=? 0) || negb (Z.land mask (mask - 1) =? 0) then die 1 "Error: Mask must be a power of 2.
" [] 1 else
      pid <- sysv CFork;;
      ct2 <- sysv (CGetSysCount mask);;
      if pid =? 0 then sysv (CExec cmd (cmd :: args));; uexit 0 else
      sysv CWait;;
      ct1 <- sysv (CGetSysCount mask);;
      uprintf "PID %d called %s %d times.
" [UInt pid; UStr (Some (chars (getSyscallName (mask / 2)))); UInt (s32 (ct1 - ct2))];;
      uexit 0
  | _ => die 1 "Usage: syscount <mask> <command> [args]
" [] 1
  end.

(** ** init.c *)
Definition init_wait (pid : Z) : U unit :=
  ITree.iter (fun _ : unit =>
    wpid <- sysv CWait;;
    if wpid =? pid then uret (inr tt)
    else if wpid <? 0 then die 1 "init: wait returned an error
" [] 1;; uret (inl tt)
    else uret (inl tt)) tt.
Definition init_round : U unit :=
  uprintf "init: starting sh
" [];;
  pid <- sysv CFork;;
  if pid <? 0 then die 1 "init: fork failed
" [] 1
  else if pid =? 0 then
    sysv (CExec (chars "sh") [chars "sh"]);;
    die 1 "init: exec sh failed
" [] 1
  else init_wait pid.
Definition init_main : U unit :=
  fd <- sysv (COpen (chars "console") O_RDWR);;
  (if fd <? 0 then
     sysv (CMknod (chars "console") 1 0);; sysv (COpen (chars "console") O_RDWR);; uret tt
   else uret tt);;
  sysv (CDup 0);; sysv (CDup 0);;
  ITree.iter (fun _ : unit => init_round;; uret (inl tt)) tt.

(** ** Reading files

    [F] gives what a file reads as, in the pieces the reads happen to return, [None]
    standing for standard input.  [opened h] is the table of the descriptors that are open
    for reading after the calls and answers of [h]: for each, the file it was opened on and
    the number of reads made on it; at the start only descriptor 0, on standard input.  The
    environment serves [F]: while no file is open, a file that is there can be opened, on a
    descriptor other than the standard ones, and one that is not cannot; a read on an open
    descriptor goes on where the last one on that descriptor stopped; writes are complete. *)
Definition opened (h : history) : gmap Z (option (list Z) * nat) :=
  foldl (fun m '((c, a) : call * answer) => match c with
    | COpen n _ => if a.1 <? 0 then m else <[a.1 := (Some n, 0%nat)]> m
    | CRead fd _ => alter (prod_map id S) fd m
    | CClose fd => delete fd m
    | _ => m
    end) {[0 := (None, 0%nat)]} h.
Definition no_file_open (h : history) : Prop := forall fd, 2 < fd -> opened h !! fd = None.
Definition files : Type := option (list Z) -> option (list (list Z)).
Record serves (env : environment) (F : files) : Prop := {
  sv_pieces : forall n cs, F n = Some cs -> Forall (fun b => b <> [] /\ (length b <= 512)%nat) cs;
  sv_open : forall h n m, no_file_open h ->
    if F (Some n) then 2 < (env h (COpen n m)).1 else (env h (COpen n m)).1 < 0;
  sv_read : forall h fd n j, opened h !! fd = Some (n, j) ->
    env h (CRead fd 512) = match F n ≫= (fun cs => cs !! j) with Some b => (Z.of_nat (length b), b) | None => (0, []) end;
  sv_write : forall h fd b, (env h (CWrite fd b)).1 = length b
}.
(** what a command writes to both descriptors, and the status it exits with, working on
    one file after the other until one cannot be opened *)
Fixpoint batch (F : files) (good : list Z -> list (list Z) -> list Z) (bad : list Z -> list Z * list Z) (names : list (list Z)) :
    list Z * list Z * Z :=
  match names with
  | [] => ([], [], 0)
  | n :: rest =>
      match F (Some n) with
      | None => (bad n, 1)
      | Some cs => let '(o1, o2, st) := batch F good bad rest in (good n cs ++ o1, o2, st)
      end
  end.
Definition bytes (l : list Z) : Prop := Forall (fun c => 0 <= c < 256) l.

Lemma opened_snoc h c a : opened (h ++ [(c, a)]) =
  match c with
  | COpen n _ => if a.1 <? 0 then opened h else <[a.1 := (Some n, 0%nat)]> (opened h)
  | CRead fd _ => alter (prod_map id S) fd (opened h)
  | CClose fd => delete fd (opened h)
  | _ => opened h
  end.
Proof. unfold opened. by rewrite foldl_app. Qed.
(** writing opens and closes nothing *)
Lemma opened_writes h g fd o : calls g = writes fd o -> opened (h ++ g) = opened h.
Proof.
  revert h o. induction g as [|[c a] g IH]; intros h [|x o] Hg; try done; [by rewrite app_nil_r|].
  change (calls ((c, a) :: g)) with (c :: calls g) in Hg. injection Hg as -> Hg.
  change (h ++ (CWrite fd [u8 x], a) :: g) with (h ++ [(CWrite fd [u8 x], a)] ++ g).
  rewrite app_assoc, (IH _ o) by exact Hg. by rewrite opened_snoc.
Qed.
(** only descriptor [fd] may have changed *)
Definition only_fd (fd : Z) (h h' : history) : Prop := forall x, x <> fd -> opened h' !! x = opened h !! x.
Lemma only_fd_trans fd h1 h2 h3 : only_fd fd h1 h2 -> only_fd fd h2 h3 -> only_fd fd h1 h3.
Proof. intros H1 H2 x Hx. by rewrite H2, H1. Qed.
Lemma only_fd_read fd n h a : only_fd fd h (h ++ [(CRead fd n, a)]).
Proof. intros x Hx. by rewrite opened_snoc, lookup_alter_ne. Qed.
(** a file opened, worked on and closed again *)
Lemma close_restores h h2 n m a b : no_file_open h -> 2 < a.1 ->
  only_fd a.1 (h ++ [(COpen n m, a)]) h2 -> no_file_open (h2 ++ [(CClose a.1, b)]).
Proof.
  intros Hno Ha Ho x Hx. rewrite opened_snoc. destruct (decide (x = a.1)) as [->|Hne]; [apply lookup_delete_eq|].
  rewrite lookup_delete_ne, Ho, opened_snoc by done. replace (a.1 <? 0) with false by lia.
  rewrite lookup_insert_ne by done. by apply Hno.
Qed.
Lemma chars_bytes s : bytes (chars s).
Proof.
  unfold bytes, chars, char_code. apply Forall_fmap, Forall_forall. intros c _. cbn.
  pose proof (N_ascii_bounded c). lia.
Qed.

(** ** Counting *)
Definition is_blank (b : Z) : bool := bool_decide (b ∈ blanks).
Fixpoint fields (l : list Z) : list (list Z) :=
  match l with
  | [] => [[]]
  | c :: rest => if is_blank c then [] :: fields rest
                 else match fields rest with [] => [[c]] | w :: ws => (c :: w) :: ws end
  end.
(** the runs of bytes between blanks, and the newlines *)
Definition words (l : list Z) : nat := length (filter (.≠ []) (fields l)).
Definition newlines (l : list Z) : nat := length (filter (.= 10) l).

Definition in_word (l : list Z) : bool := match l with c :: _ => negb (is_blank c) | [] => false end.
Lemma words_cons c l : words (c :: l) = if is_blank c then words l else (words l + if in_word l then 0 else 1)%nat.
Proof.
  unfold words. cbn [fields]. destruct (is_blank c) eqn:Ec; [by rewrite filter_cons_False by (by intros [])|].
  destruct l as [|d l]; [done|]. cbn [fields in_word]. destruct (is_blank d); cbn [negb].
  - rewrite filter_cons_True by done. rewrite (filter_cons_False _ []) by (by intros []). cbn. lia.
  - destruct (fields l) as [|w ws]; rewrite !filter_cons_True by done; cbn [length]; lia.
Qed.
Lemma in_word_words l : in_word l = true -> (0 < words l)%nat.
Proof.
  induction l as [|c l IH]; [done|]. cbn [in_word]. rewrite words_cons. destruct (is_blank c); [done|]. intros _.
  destruct (in_word l); [specialize (IH eq_refl) |]; lia.
Qed.
Lemma strchr_blanks b : (if strchr blanks b then true else false) = is_blank b.
Proof.
  unfold is_blank. destruct (bool_decide_reflect (b ∈ blanks)) as [H|H].
  - unfold blanks in H. rewrite !elem_of_cons in H. destruct H as [->|[->|[->|[->|[->|H]]]]]; try reflexivity. by apply elem_of_nil in H.
  - unfold blanks in *. rewrite !not_elem_of_cons in H. destruct H as (H1 & H2 & H3 & H4 & H5 & _). cbn [strchr].
    assert (E : forall x, b <> x -> (x =? b) = false) by lia. by rewrite !E by done.
Qed.
Ltac counts := apply (f_equal2 pair); [apply (f_equal2 pair); [apply (f_equal2 pair)|]|]; [lia | lia | lia | done].
(** the loop counts newlines, words and bytes, wherever the text is cut *)
Lemma wc_counts text : forall l w c (iw : bool), 0 <= l -> 0 <= w -> 0 <= c ->
  l + newlines text < 2 ^ 31 -> w + words text - b2z (iw && in_word text) < 2 ^ 31 -> c + length text < 2 ^ 31 ->
  exists iw' : bool, foldl wc_byte (l, w, c, b2z iw) text =
    (l + newlines text, w + words text - b2z (iw && in_word text), c + length text, b2z iw').
Proof.
  induction text as [|b text IH]; intros l w c iw Hl Hw Hc Hln Hwn Hcn.
  { exists iw. change (words []) with 0%nat. change (newlines []) with 0%nat. cbn [foldl in_word length].
    rewrite andb_false_r. cbn [b2z]. counts. }
  cbn [foldl]. rewrite words_cons in Hwn. cbn [length] in Hcn.
  assert (Hnl : Z.of_nat (newlines (b :: text)) = b2z (b =? 10) + newlines text).
  { unfold newlines. destruct (Z.eqb_spec b 10) as [->|Hb]; [rewrite filter_cons_True by done; cbn; lia | by rewrite filter_cons_False]. }
  rewrite words_cons, Hnl. rewrite Hnl in Hln. cbn [in_word].
  assert (Hl' : (if b =? 10 then s32 (l + 1) else l) = l + b2z (b =? 10)).
  { destruct (b =? 10); cbn [b2z] in *; [rewrite s32_small; lia | lia]. }
  unfold wc_byte at 2. rewrite Hl', (s32_small (c + 1)) by lia. pose proof (strchr_blanks b) as Hs.
  pose proof (in_word_words text) as Hiw. cbn [in_word] in Hwn.
  destruct (strchr blanks b); rewrite <- Hs in *; cbn [negb] in *.
  - rewrite andb_false_r in *. cbn [b2z] in Hwn.
    destruct (IH (l + b2z (b =? 10)) w (c + 1) false) as (iw' & E); [cbn [andb]; destruct (b =? 10); cbn [b2z] in *; lia.. |].
    exists iw'. etransitivity; [exact E|]. cbn [andb b2z length]. counts.
  - assert (Hb10 : 0 <= b2z (b =? 10)) by (destruct (b =? 10); cbn; lia).
    rewrite andb_true_r in *. destruct iw; cbn [istrue b2z negb Z.eqb andb] in *.
    + destruct (IH (l + b2z (b =? 10)) w (c + 1) true) as (iw' & E); try lia; [destruct (in_word text); cbn [andb b2z] in *; lia|].
      exists iw'. etransitivity; [exact E|]. cbn [andb length]. destruct (in_word text); cbn [b2z]; counts.
    + rewrite s32_small by (destruct (in_word text); [specialize (Hiw eq_refl)|]; lia).
      destruct (IH (l + b2z (b =? 10)) (w + 1) (c + 1) true) as (iw' & E); try lia; [destruct (in_word text); cbn [andb b2z] in *; lia|].
      exists iw'. etransitivity; [exact E|]. cbn [andb length]. destruct (in_word text); cbn [b2z]; counts.
Qed.

Section reading.
Context (env : environment) (F : files) (Henv : serves env F).

(** [o1] to standard output, [o2] to standard error *)
Definition wrote (h h' : history) (o1 o2 : list Z) : Prop :=
  output 1 (calls h') = output 1 (calls h) ++ o1 /\ output 2 (calls h') = output 2 (calls h) ++ o2.
Lemma wrote_refl h : wrote h h [] [].
Proof. split; by rewrite app_nil_r. Qed.
Lemma wrote_trans h1 h2 h3 a b c d : wrote h1 h2 a b -> wrote h2 h3 c d -> wrote h1 h3 (a ++ c) (b ++ d).
Proof. intros [A1 A2] [B1 B2]. split; [by rewrite B1, A1, app_assoc | by rewrite B2, A2, app_assoc]. Qed.
(** a call that writes nothing *)
Lemma wrote_call h c a : output 1 [c] = [] -> output 2 [c] = [] -> wrote h (h ++ [(c, a)]) [] [].
Proof. intros H1 H2. unfold wrote, calls. rewrite fmap_app, !output_app. change ([(c, a)].*1) with [c]. by rewrite H1, H2. Qed.
Lemma wrote_text h h' fd out : bytes out -> calls h' = calls h ++ writes fd out ->
  wrote h h' (if fd =? 1 then out else []) (if fd =? 2 then out else []).
Proof.
  intros Hb E. unfold wrote. rewrite E, !output_app.
  destruct (Z.eqb_spec fd 1) as [->|H1]; [|destruct (Z.eqb_spec fd 2) as [->|H2]].
  - rewrite output_writes by done. by rewrite output_writes_other.
  - rewrite output_writes by done. by rewrite output_writes_other.
  - by rewrite !output_writes_other by done.
Qed.
Lemma ends_die {fd fmt ap st out} h : utext (chars fmt) ap = Some out -> bytes out ->
  exists h', ends env (die fd fmt ap st) h (Exited st) h' /\ wrote h h' (if fd =? 1 then out else []) (if fd =? 2 then out else []).
Proof.
  intros Ht Hb. destruct (ends_fprintf env fd _ _ _ h Ht) as (h' & E & C). exists h'.
  split; [eapply ends_bind; [exact E | apply ends_exit] | by apply wrote_text].
Qed.

(** one file after the other *)
Lemma ends_batch one good bad names :
  (forall n h, n ∈ names -> no_file_open h -> match F (Some n) with
     | Some cs => exists h', ends env (one n) h (Returned tt) h' /\ wrote h h' (good n cs) [] /\ no_file_open h'
     | None => exists h', ends env (one n) h (Exited 1) h' /\ wrote h h' (bad n).1 (bad n).2
     end) ->
  forall h, no_file_open h -> let '(o1, o2, st) := batch F good bad names in
    exists h', ends env (uforeach names one;; uexit 0 : U unit) h (Exited st) h' /\ wrote h h' o1 o2.
Proof.
  intros Hone h Hno.
  assert (H : let '(o1, o2, st) := batch F good bad names in exists h',
    ends env (uforeach names one) h (if st =? 0 then Returned tt else Exited st) h' /\ wrote h h' o1 o2).
  { revert h Hno. induction names as [|n names IH]; intros h Hno; cbn [batch uforeach].
    - exists h. split; [apply ends_ret | apply wrote_refl].
    - pose proof (Hone n h ltac:(by left) Hno) as H. destruct (F (Some n)) as [cs|].
      + destruct H as (h1 & E1 & W1 & N1). specialize (IH ltac:(intros n' h' Hn; apply Hone; by right) h1 N1).
        destruct (batch F good bad names) as [[o1 o2] st]. destruct IH as (h2 & E2 & W2). exists h2.
        split; [by eapply ends_bind | exact (wrote_trans _ _ _ _ _ _ _ W1 W2)].
      + destruct H as (h1 & E1 & W1). destruct (bad n) as [o1 o2]. exists h1. split; [by apply ends_bind_exit | done]. }
  destruct (batch F good bad names) as [[o1 o2] st]. destruct H as (h' & E & W). exists h'. split; [|done].
  destruct (Z.eqb_spec st 0) as [->|]; [eapply ends_bind; [exact E | apply ends_exit] | by apply ends_bind_exit].
Qed.

(** a loop over the pieces of a file *)
Lemma ends_reads {St R} fd (onpiece : St -> Z -> list Z -> U (St + R)) (stop : Z -> St -> R) (step : St -> list Z -> St)
    (out : list Z -> list Z) n cs : F n = Some cs ->
  (forall st b h, b <> [] -> exists h', ends env (onpiece st (Z.of_nat (length b)) b) h (Returned (inl (step st b))) h' /\
     wrote h h' (out b) [] /\ opened h' = opened h) ->
  forall j st h, opened h !! fd = Some (n, j) -> exists h',
    ends env (ITree.iter (fun st => r <- sys (CRead fd 512);; let '(n, buf) := r in
        if 0 <? n then onpiece st n buf else uret (inr (stop n st))) st) h
      (Returned (stop 0 (foldl step st (drop j cs)))) h' /\
    wrote h h' (mjoin (out <$> drop j cs)) [] /\ only_fd fd h h'.
Proof using Henv.
  intros Hn Hstep j st h Hp. remember (drop j cs) as rest eqn:Hrest. revert j st h Hp Hrest.
  induction rest as [|b rest IH]; intros j st h Hp Hrest.
  - assert (Hr : env h (CRead fd 512) = (0, [])).
    { rewrite (sv_read _ _ Henv h fd n j Hp), Hn. cbn. rewrite lookup_ge_None_2; [done|].
      apply (f_equal length) in Hrest. rewrite length_drop in Hrest. cbn in Hrest. lia. }
    eexists. split; [|split; [by apply (wrote_call h (CRead fd 512) (env h (CRead fd 512))) | apply only_fd_read]].
    apply ends_iter_stop. eapply ends_bind; [apply ends_sys|]. rewrite Hr. apply ends_ret.
  - assert (Hb : cs !! j = Some b) by (rewrite <- (Nat.add_0_r j), <- lookup_drop, <- Hrest; done).
    destruct (Forall_lookup_1 _ _ _ _ (sv_pieces _ _ Henv n cs Hn) Hb) as [Hne _].
    assert (Hr : env h (CRead fd 512) = (Z.of_nat (length b), b)) by (rewrite (sv_read _ _ Henv h fd n j Hp), Hn; cbn; by rewrite Hb).
    assert (Hlen : (0 < length b)%nat) by (destruct b; [done | cbn; lia]).
    set (h1 := h ++ [(CRead fd 512, (Z.of_nat (length b), b))]).
    destruct (Hstep st b h1 Hne) as (h2 & E2 & W2 & P2). destruct (IH (S j) (step st b) h2) as (h' & E & W & O).
    { unfold h1 in P2. by rewrite P2, opened_snoc, lookup_alter_eq, Hp. }
    { rewrite <- Nat.add_1_r, <- drop_drop, <- Hrest. done. }
    exists h'. split; [|split; [|apply (only_fd_trans fd h h1); [apply only_fd_read | intros x Hx; by rewrite O, P2]]].
    + eapply ends_iter_next; [|exact E]. eapply ends_bind; [apply ends_sys|]. rewrite Hr. fold h1.
      replace (0 <? Z.of_nat (length b)) with true by lia. exact E2.
    + change (mjoin (out <$> b :: rest)) with (out b ++ mjoin (out <$> rest)). apply (wrote_trans h h1 h' [] [] (out b ++ mjoin (out <$> rest)) []); [by apply wrote_call|].
      exact (wrote_trans _ _ _ _ _ _ _ W2 W).
Qed.
Lemma calls_snoc h c a : calls (h ++ [(c, a)]) = calls h ++ [c].
Proof. unfold calls. by rewrite fmap_app. Qed.

Lemma bytes_app l1 l2 : bytes l1 -> bytes l2 -> bytes (l1 ++ l2).
Proof. intros H1 H2. by apply Forall_app. Qed.
Lemma bytes_nl : bytes nl.
Proof. by repeat constructor. Qed.
(** a file is opened, worked on and closed, or there is a message *)
Lemma ends_file work efd fmt msg good n h : bytes n -> bytes msg -> utext (chars fmt) [UStr (Some n)] = Some (msg ++ n ++ nl) ->
  no_file_open h ->
  (forall cs h1 fd, F (Some n) = Some cs -> opened h1 !! fd = Some (Some n, 0%nat) ->
     exists h2, ends env (work fd) h1 (Returned tt) h2 /\ wrote h1 h2 (good cs) [] /\ only_fd fd h1 h2) ->
  let m := fd <- sysv (COpen n 0);;
    if fd <? 0 then die efd fmt [UStr (Some n)] 1 else work fd;; sysv (CClose fd);; uret tt in
  let out := msg ++ n ++ nl in
  match F (Some n) with
  | Some cs => exists h', ends env m h (Returned tt) h' /\ wrote h h' (good cs) [] /\ no_file_open h'
  | None => exists h', ends env m h (Exited 1) h' /\ wrote h h' (if efd =? 1 then out else []) (if efd =? 2 then out else [])
  end.
Proof using Henv.
  intros Hn Hmsg Ht Hno Hwork m out. pose proof (sv_open _ _ Henv h n 0 Hno) as Ho. set (h1 := h ++ [(COpen n 0, env h (COpen n 0))]).
  destruct (F (Some n)) as [cs|] eqn:HF.
  - assert (P1 : opened h1 !! (env h (COpen n 0)).1 = Some (Some n, 0%nat)).
    { unfold h1. rewrite opened_snoc. replace (_ <? 0) with false by lia. apply lookup_insert_eq. }
    destruct (Hwork cs h1 (env h (COpen n 0)).1 eq_refl P1) as (h2 & E2 & W2 & O2). eexists.
    split; [|split; [|by eapply close_restores]].
    + eapply ends_bind; [apply ends_sysv|]. fold h1. replace (_ <? 0) with false by lia.
      eapply ends_bind; [exact E2|]. eapply ends_bind; [apply ends_sysv | apply ends_ret].
    + rewrite <- (app_nil_r (good cs)). eapply (wrote_trans h h2 _ _ [] [] []); [|by apply wrote_call].
      exact (wrote_trans h h1 h2 [] [] _ _ (wrote_call h (COpen n 0) _ eq_refl eq_refl) W2).
  - destruct (ends_die (fd := efd) (st := 1) h1 Ht) as (h2 & E2 & W2).
    { apply bytes_app; [done|]. apply bytes_app; [done | apply bytes_nl]. }
    exists h2. split; [|exact (wrote_trans h h1 h2 [] [] _ _ (wrote_call h (COpen n 0) _ eq_refl eq_refl) W2)].
    eapply ends_bind; [apply ends_sysv|]. fold h1. replace (_ <? 0) with true by lia. exact E2.
Qed.

(** *** cat *)
Lemma ends_cat fd n cs h : F n = Some cs -> opened h !! fd = Some (n, 0%nat) ->
  exists h', ends env (cat fd) h (Returned tt) h' /\ wrote h h' (mjoin cs) [] /\ only_fd fd h h'.
Proof using Henv.
  intros Hn Hp.
  destruct (ends_reads fd (fun (_ : unit) n buf => w <- sysv (CWrite 1 (take (Z.to_nat n) buf));;
      if negb (w =? n) then die 2 "cat: write error
" [] 1;; uret (inr n)
      else uret (inl tt)) (fun n _ => n) (fun _ _ => tt) id n cs Hn) with (j := 0%nat) (st := tt) (h := h) as (h' & E & W & O).
  - intros [] b h0 Hne. eexists. split; [|split].
    + eapply ends_bind; [apply ends_sysv|]. rewrite (sv_write _ _ Henv). rewrite Nat2Z.id, take_ge by done.
      rewrite Z.eqb_refl. cbn [negb]. apply ends_ret.
    + unfold wrote. rewrite calls_snoc, !output_app. by cbn; rewrite !app_nil_r.
    + by rewrite opened_snoc.
  - done.
  - exists h'. rewrite drop_0, list_fmap_id in W. split; [|done]. eapply ends_bind; [exact E | apply ends_ret].
Qed.
Definition cat_bad (n : list Z) : list Z * list Z := ([], chars "cat: cannot open " ++ n ++ nl).
Lemma ends_cat_file n h : bytes n -> no_file_open h -> match F (Some n) with
  | Some cs => exists h', ends env (cat_file n) h (Returned tt) h' /\ wrote h h' (mjoin cs) [] /\ no_file_open h'
  | None => exists h', ends env (cat_file n) h (Exited 1) h' /\ wrote h h' (cat_bad n).1 (cat_bad n).2
  end.
Proof using Henv.
  intros Hb Hno. apply (ends_file cat 2 _ (chars "cat: cannot open ") mjoin n h Hb); [apply chars_bytes | reflexivity | done |].
  intros cs h1 fd HF P1. by eapply ends_cat.
Qed.

(** *** wc *)
Definition dec (z : Z) : list Z := u_printint_chars (s32 z) 10 1.
Definition wc_line (name text : list Z) : list Z :=
  dec (newlines text) ++ chars " " ++ dec (words text) ++ chars " " ++ dec (length text) ++ chars " " ++ name ++ nl.
Definition wc_bad (n : list Z) : list Z * list Z := (chars "wc: cannot open " ++ n ++ nl, []).

Lemma dec_bytes z : bytes (dec z).
Proof.
  unfold dec, u_printint_chars, bytes. apply Forall_rev, bytes_app; [|by case_match; [apply chars_bytes|constructor]].
  generalize (if istrue 1 && (s32 z <? 0) then u32 (- s32 z) else u32 (s32 z)). generalize 16%nat as fuel.
  induction fuel as [|fuel IH]; intros x; cbn [u_print_digits]; [constructor|]. constructor.
  - unfold u_digit. destruct (u_digits !! Z.to_nat (x mod 10)) as [c|] eqn:E; [|cbn; lia]. exact (Forall_lookup_1 _ _ _ _ (chars_bytes _) E).
  - destruct (x / 10 =? 0); [constructor | apply IH].
Qed.
Lemma newlines_le l : (newlines l <= length l)%nat.
Proof. apply length_filter. Qed.
Lemma words_le l : (words l <= length l)%nat.
Proof.
  induction l as [|c l IH]; [change (words []) with 0%nat; lia|]. rewrite words_cons. cbn [length]. destruct (is_blank c); [lia|]. destruct (in_word l); lia.
Qed.
Lemma foldl_pieces st cs : foldl (fun st b => foldl wc_byte st b) st cs = foldl wc_byte st (mjoin cs).
Proof. revert st. induction cs as [|b cs IH]; intros st; [done|]. cbn [foldl]. rewrite IH. change (mjoin (b :: cs)) with (b ++ mjoin cs). by rewrite foldl_app. Qed.

Lemma ends_wc fd name n cs h : F n = Some cs -> opened h !! fd = Some (n, 0%nat) -> bytes name -> Z.of_nat (length (mjoin cs)) < 2 ^ 31 ->
  exists h', ends env (wc fd name) h (Returned tt) h' /\ wrote h h' (wc_line name (mjoin cs)) [] /\ only_fd fd h h'.
Proof using Henv.
  intros Hn Hp Hname Hlen.
  destruct (ends_reads fd (fun st n buf => uret (inl (foldl wc_byte st (take (Z.to_nat n) buf)))) (fun n st => (n, st))
    (fun st b => foldl wc_byte st b) (fun _ => []) n cs Hn) with (j := 0%nat) (st := (0, 0, 0, 0)) (h := h) as (h' & E & W & O).
  - intros st b h0 _. exists h0. rewrite Nat2Z.id, take_ge by done. split_and!; [apply ends_ret | apply wrote_refl | done].
  - done.
  - set (text := mjoin cs). pose proof (newlines_le text). pose proof (words_le text).
    destruct (wc_counts text 0 0 0 false) as (iw & Ec); try (cbn [andb b2z]; unfold text in *; lia).
    rewrite drop_0, foldl_pieces in E. fold text in E. change (0, 0, 0, 0) with (0, 0, 0, b2z false) in E. rewrite Ec in E.
    cbn [andb b2z] in E. rewrite Z.sub_0_r, !Z.add_0_l in E.
    destruct (does_vprintf env 1 _ (chars "%d %d %d %s
") (le_n _) [UInt (newlines text); UInt (words text); UInt (length text); UStr (Some name)] (wc_line name text) ltac:(reflexivity) h')
      as (g & E2 & C2).
    set (h2 := h' ++ g) in *. exists h2.
    split; [|split; [|intros x Hx; unfold h2; rewrite (opened_writes _ _ _ _ C2); by apply O]].
    + eapply ends_bind; [exact E|]. exact E2.
    + assert (W' : wrote h h' [] []).
      { revert W. rewrite drop_0. replace (mjoin ((fun _ : list Z => []) <$> cs)) with (@nil Z); [done|]. clear. induction cs; [done | exact IHcs]. }
      apply (wrote_trans _ _ _ _ _ _ _ W'). apply (wrote_text h' h2 1 (wc_line name text)); [|unfold h2, calls; by rewrite fmap_app; f_equal].
      unfold wc_line. repeat (apply bytes_app; [first [apply dec_bytes | apply chars_bytes | done]|]). apply bytes_nl.
Qed.
Lemma ends_wc_file n h : bytes n -> no_file_open h -> (forall cs, F (Some n) = Some cs -> Z.of_nat (length (mjoin cs)) < 2 ^ 31) -> match F (Some n) with
  | Some cs => exists h', ends env (wc_file n) h (Returned tt) h' /\ wrote h h' (wc_line n (mjoin cs)) [] /\ no_file_open h'
  | None => exists h', ends env (wc_file n) h (Exited 1) h' /\ wrote h h' (wc_bad n).1 (wc_bad n).2
  end.
Proof using Henv.
  intros Hb Hno Hlen. apply (ends_file (fun fd => wc fd n) 1 _ (chars "wc: cannot open ") (fun cs => wc_line n (mjoin cs)) n h Hb);
    [apply chars_bytes | reflexivity | done |].
  intros cs h1 fd HF P1. eapply ends_wc; [exact HF | done | done | by apply Hlen].
Qed.
End reading.
Lemma none_open_yet : no_file_open [].
Proof. intros fd Hfd. unfold opened. cbn. apply lookup_singleton_ne. lia. Qed.

(** [cat] copies: however the reads cut the files into pieces, it writes to standard output
    exactly the contents of the files it is given, one after the other, or of standard
    input, and exits with 0; a file that cannot be opened ends it with 1, after the
    files before it and a message on standard error. *)
Lemma cat_copies env F cmd names : serves env F -> Forall bytes names -> is_Some (F None) ->
  let '(o1, o2, st) :=
    match names with
    | [] => (mjoin (default [] (F None)), [], 0)
    | _ => batch F (fun _ cs => mjoin cs) cat_bad names
    end in
  exists h, ends env (cat_main (cmd :: names)) [] (Exited st) h /\ output 1 (calls h) = o1 /\ output 2 (calls h) = o2.
Proof.
  intros Henv Hn [cs Hcs]. unfold cat_main. cbn [tail length]. destruct names as [|n names].
  - destruct (ends_cat env F Henv 0 None cs [] Hcs eq_refl) as (h & E & (W1 & W2) & _). exists h. rewrite Hcs.
    split; [eapply ends_bind; [exact E | apply ends_exit] | done].
  - pose proof (ends_batch env F cat_file (fun _ cs => mjoin cs) cat_bad (n :: names)) as H.
    rewrite Forall_forall in Hn. specialize (H ltac:(intros n' h Hin Hno; apply ends_cat_file; [done | by apply Hn | done]) [] none_open_yet).
    destruct (batch F _ cat_bad (n :: names)) as [[o1 o2] st]. destruct H as (h & E & W). by exists h.
Qed.

(** C17: [wc] counts: however the reads cut the files into pieces, in the middle of a word
    too, it prints for each file its number of newlines, of words (the runs of bytes
    between blanks) and of bytes, and its name; a file that cannot be opened ends it
    with status 1 and a message.  It reads each file on the descriptor it opened it on,
    and closes that before it opens the next; without names it reads descriptor 0. *)
Theorem wc_prints_counts env F cmd names : serves env F -> Forall bytes names -> is_Some (F None) ->
  (forall n cs, F n = Some cs -> Z.of_nat (length (mjoin cs)) < 2 ^ 31) ->
  let '(o1, o2, st) :=
    match names with
    | [] => (wc_line [] (mjoin (default [] (F None))), [], 0)
    | _ => batch F (fun n cs => wc_line n (mjoin cs)) wc_bad names
    end in
  exists h, ends env (wc_main (cmd :: names)) [] (Exited st) h /\ output 1 (calls h) = o1 /\ output 2 (calls h) = o2.
Proof.
  intros Henv Hn [cs Hcs] Hlen. unfold wc_main. cbn [tail length]. destruct names as [|n names].
  - destruct (ends_wc env F Henv 0 [] None cs [] Hcs eq_refl (Forall_nil_2 _) (Hlen _ _ Hcs)) as (h & E & (W1 & W2) & _). exists h. rewrite Hcs.
    split; [eapply ends_bind; [exact E | apply ends_exit] | done].
  - pose proof (ends_batch env F wc_file (fun n cs => wc_line n (mjoin cs)) wc_bad (n :: names)) as H.
    rewrite Forall_forall in Hn. specialize (H ltac:(intros n' h Hin Hno; apply ends_wc_file; [done | by apply Hn | done | by apply Hlen]) [] none_open_yet).
    destruct (batch F _ wc_bad (n :: names)) as [[o1 o2] st]. destruct H as (h & E & W). by exists h.
Qed.

(** a machine with one file [f], read in two pieces, and something else on standard input *)
Definition demo_files : files := fun n =>
  match n with
  | None => Some [chars "typed"]
  | Some n => if decide (n = chars "f") then Some [chars "two wo"; chars "rds" ++ nl] else None
  end.
Definition demo_env : environment := fun h c =>
  match c with
  | COpen n _ => if demo_files (Some n) then (3, []) else (-1, [])
  | CRead fd _ =>
      match opened h !! fd with
      | Some (n, j) => match demo_files n ≫= (fun cs => cs !! j) with Some b => (Z.of_nat (length b), b) | None => (0, []) end
      | None => (-1, [])
      end
  | CWrite _ b => (Z.of_nat (length b), [])
  | _ => (0, [])
  end.
Lemma demo_serves : serves demo_env demo_files.
Proof.
  constructor.
  - intros [n|] cs; unfold demo_files; [case_decide; [|done]|]; intros [= <-]; repeat constructor; cbn; try done; lia.
  - intros h n m _. unfold demo_env. destruct (demo_files (Some n)); cbn; lia.
  - intros h fd n j Hp. cbn. by rewrite Hp.
  - done.
Qed.
Lemma cat_copies_witness : exists h, ends demo_env (cat_main [chars "cat"; chars "f"; chars "g"]) [] (Exited 1) h /\
  output 1 (calls h) = chars "two words" ++ nl /\ output 2 (calls h) = chars "cat: cannot open g" ++ nl.
Proof.
  apply (cat_copies demo_env demo_files (chars "cat") [chars "f"; chars "g"]).
  - apply demo_serves.
  - repeat constructor; done.
  - eexists. reflexivity.
Defined.
Lemma wc_prints_counts_witness : exists h, ends demo_env (wc_main [chars "wc"; chars "f"]) [] (Exited 0) h /\
  output 1 (calls h) = chars "1 2 10 f" ++ nl /\ output 2 (calls h) = [].
Proof.
  apply (wc_prints_counts demo_env demo_files (chars "wc") [chars "f"]).
  - apply demo_serves.
  - repeat constructor; done.
  - eexists. reflexivity.
  - intros [n|] cs; unfold demo_files; [case_decide; [|done]|]; intros [= <-]; cbn; lia.
Defined.

(** ** init *)

(** the shells started, those that have exited, and the pid of the last one started *)
Definition shells (h : history) : nat * nat * Z :=
  foldl (fun '(f, x, cur) '(c, a) => match c with
    | CFork => (S f, x, (a : answer).1)
    | CWait => if a.1 =? cur then (f, S x, cur) else (f, x, cur)
    | _ => (f, x, cur)
    end) (0%nat, 0%nat, -1) h.
Definition waits (h : history) : nat := length (filter (.= CWait) (calls h)).

Section init.
Context (env : environment).
Context (Hfork : forall h, 0 < (env h CFork).1) (Hwait : forall h, 0 <= (env h CWait).1).

Definition init_loop (i : unit) : U unit := ITree.iter (fun _ : unit => init_round;; uret (inl tt)) i.
(** the tree at the wait for the shell [pid] *)
Definition waiting (pid : Z) : U unit :=
  ITree.bind (init_wait pid;; uret (inl tt)) (fun r : unit + unit => match r with inl i => Tau (init_loop i) | inr v => uret v end).

Lemma shells_snoc h c a : shells (h ++ [(c, a)]) =
  let '(f, x, cur) := shells h in
  match c with CFork => (S f, x, a.1) | CWait => if a.1 =? cur then (f, S x, cur) else (f, x, cur) | _ => (f, x, cur) end.
Proof. unfold shells. rewrite foldl_app. cbn. by destruct (foldl _ _ h) as [[f x] cur]. Qed.
Lemma waits_snoc h c a : waits (h ++ [(c, a)]) = (waits h + if decide (c = CWait) then 1 else 0)%nat.
Proof.
  unfold waits. rewrite calls_snoc, filter_app, length_app. f_equal.
  destruct (decide (c = CWait)); [by rewrite filter_cons_True | by rewrite filter_cons_False].
Qed.
(** writing changes neither *)
Lemma writes_shells h g fd out : calls g = writes fd out -> shells (h ++ g) = shells h /\ waits (h ++ g) = waits h.
Proof.
  revert h out. induction g as [|[c a] g IH]; intros h out Hg; [by rewrite app_nil_r|].
  destruct out as [|b out]; [done|]. injection Hg as -> Hg. change ((CWrite fd [u8 b], a) :: g) with ([(CWrite fd [u8 b], a)] ++ g).
  rewrite app_assoc. destruct (IH (h ++ [(CWrite fd [u8 b], a)]) out Hg) as [E1 E2]. rewrite E1, E2, shells_snoc, waits_snoc.
  destruct (shells h) as [[f x] cur]. split; [done | rewrite decide_False by done; lia].
Qed.

(** a round begins: a shell is started, and then waited for *)
Lemma init_starts h f x cur : shells h = (f, x, cur) -> exists n pid h', gets_to env n (init_loop tt) h (waiting pid) h' /\
  shells h' = (S f, x, pid) /\ waits h' = waits h.
Proof using Hfork.
  intros Hs. destruct (does_vprintf env 1 _ (chars "init: starting sh
") (le_n _) [] _ eq_refl h) as (g & E & C).
  set (h1 := h ++ g) in *. set (pid := (env h1 CFork).1). set (h2 := h1 ++ [(CFork, env h1 CFork)]).
  destruct (writes_shells h g _ _ C) as [S1 W1]. fold h1 in S1, W1.
  destruct (gets_to_then env _ (fun _ : unit => pid <- sysv CFork;;
    if pid <? 0 then die 1 "init: fork failed
" [] 1
    else if pid =? 0 then
      sysv (CExec (chars "sh") [chars "sh"]);;
      die 1 "init: exec sh failed
" [] 1
    else init_wait pid) _ _ _ E) as (n1 & G1).
  destruct (gets_to_then env (sysv CFork) (fun pid =>
    if pid <? 0 then die 1 "init: fork failed
" [] 1
    else if pid =? 0 then
      sysv (CExec (chars "sh") [chars "sh"]);;
      die 1 "init: exec sh failed
" [] 1
    else init_wait pid) _ _ _ (ends_sysv env CFork h1)) as (n2 & G2).
  exists (n1 + n2)%nat, pid, h2. split_and!.
  - eapply gets_to_observe; [apply observe_iter|]. apply gets_to_bind, gets_to_bind. eapply gets_to_trans; [exact G1|].
    fold pid in G2. pose proof (Hfork h1) as Hp. fold pid in Hp.
    replace (pid <? 0) with false in G2 by lia. replace (pid =? 0) with false in G2 by lia. exact G2.
  - unfold h2. rewrite shells_snoc, S1, Hs. done.
  - unfold h2. rewrite waits_snoc, W1, decide_False by done. lia.
Qed.
(** a wait returns: for the shell, which is started again, or for an orphan *)
Lemma init_waits pid h f x : shells h = (S f, x, pid) -> exists n pid' h' f' x', gets_to env n (waiting pid) h (waiting pid') h' /\
  shells h' = (S f', x', pid') /\ (f' + x = f + x')%nat /\ waits h' = S (waits h).
Proof using Hfork Hwait.
  intros Hs. set (h1 := h ++ [(CWait, env h CWait)]). set (w := (env h CWait).1). pose proof (Hwait h) as Hw. fold w in Hw.
  assert (W1 : waits h1 = S (waits h)) by (unfold h1; rewrite waits_snoc, decide_True by done; lia).
  assert (S1 : shells h1 = if w =? pid then (S f, S x, pid) else (S f, x, pid)) by (unfold h1; rewrite shells_snoc, Hs; done).
  set (body := fun _ : unit => wpid <- sysv CWait;;
    if wpid =? pid then uret (inr tt)
    else if wpid <? 0 then die 1 "init: wait returned an error
" [] 1;; uret (inl tt)
    else uret (inl tt)).
  assert (Hb : ends env (body tt) h (Returned (if w =? pid then inr tt else inl tt)) h1).
  { eapply ends_bind; [apply ends_sysv|]. fold w. destruct (w =? pid); [apply ends_ret|].
    replace (w <? 0) with false by lia. apply ends_ret. }
  destruct (gets_to_then env (body tt) (fun r : unit + unit => match r with inl i => Tau (ITree.iter body i) | inr v => uret v end) _ _ _ Hb)
    as (n & G). change (init_wait pid) with (ITree.iter body tt) in *. unfold waiting.
  assert (G' : forall u h', gets_to env n (ITree.iter body tt) h u h' ->
    gets_to env n (waiting pid) h (ITree.bind (u;; uret (inl tt)) (fun r : unit + unit => match r with inl i => Tau (init_loop i) | inr v => uret v end)) h').
  { intros u h' Hu. unfold waiting. change (init_wait pid) with (ITree.iter body tt). by do 2 apply gets_to_bind. }
  destruct (Z.eqb_spec w pid) as [Ew|Ew].
  - destruct (init_starts h1 _ _ _ S1) as (m & pid' & h' & G2 & S2 & W2).
    exists (n + S m)%nat, pid', h', (S f), (S x). split_and!; [|exact S2 | lia | congruence].
    eapply gets_to_trans; [apply G'; eapply gets_to_observe; [apply observe_iter | exact G]|].
    eapply gt_tau; [rewrite !observe_bind; reflexivity | exact G2].
  - exists (n + 1)%nat, pid, h1, f, x. split_and!; [| exact S1 | lia | exact W1].
    eapply gets_to_trans; [apply G'; eapply gets_to_observe; [apply observe_iter | exact G]|].
    eapply gt_tau; [rewrite !observe_bind; reflexivity | by apply gt_here].
Qed.
Lemma init_begins : exists n pid h, gets_to env n init_main [] (waiting pid) h /\ shells h = (1%nat, 0%nat, pid) /\ waits h = 0%nat.
Proof using Hfork.
  set (h1 := [(COpen (chars "console") O_RDWR, env [] (COpen (chars "console") O_RDWR))]).
  assert (Hopen : exists h2, ends env (if (env [] (COpen (chars "console") O_RDWR)).1 <? 0 then
     sysv (CMknod (chars "console") 1 0);; sysv (COpen (chars "console") O_RDWR);; uret tt
   else uret tt) h1 (Returned tt) h2 /\ shells h2 = (0%nat, 0%nat, -1) /\ waits h2 = 0%nat).
  { destruct (_ <? 0).
    - eexists. split; [eapply ends_bind; [apply ends_sysv|]; eapply ends_bind; [apply ends_sysv | apply ends_ret] | done].
    - exists h1. split; [apply ends_ret | done]. }
  destruct Hopen as (h2 & E2 & S2 & W2).
  set (h3 := h2 ++ [(CDup 0, env h2 (CDup 0))]). set (h4 := h3 ++ [(CDup 0, env h3 (CDup 0))]).
  assert (S4 : shells h4 = (0%nat, 0%nat, -1)) by (unfold h4, h3; by rewrite !shells_snoc, S2).
  assert (W4 : waits h4 = 0%nat) by (unfold h4, h3; rewrite !waits_snoc, W2, !decide_False by done; lia).
  destruct (init_starts h4 _ _ _ S4) as (n & pid & h & G & Sh & Wh).
  destruct (gets_to_then env (sysv (COpen (chars "console") O_RDWR)) (fun fd =>
    (if fd <? 0 then sysv (CMknod (chars "console") 1 0);; sysv (COpen (chars "console") O_RDWR);; uret tt else uret tt);;
    sysv (CDup 0);; sysv (CDup 0);; init_loop tt) _ _ _ (ends_sysv env _ [])) as (n1 & G1).
  destruct (gets_to_then env _ (fun _ : unit => sysv (CDup 0);; sysv (CDup 0);; init_loop tt) _ _ _ E2) as (n2 & G2).
  destruct (gets_to_then env _ (fun _ : Z => sysv (CDup 0);; init_loop tt) _ _ _ (ends_sysv env (CDup 0) h2)) as (n3 & G3).
  destruct (gets_to_then env _ (fun _ : Z => init_loop tt) _ _ _ (ends_sysv env (CDup 0) h3)) as (n4 & G4).
  exists (n1 + (n2 + (n3 + (n4 + n))))%nat, pid, h. split_and!; [|exact Sh | congruence].
  eapply gets_to_trans; [exact G1|]. eapply gets_to_trans; [exact G2|]. eapply gets_to_trans; [exact G3|].
  eapply gets_to_trans; [exact G4 | exact G].
Qed.
Lemma init_rounds k : exists n pid h f x, gets_to env n init_main [] (waiting pid) h /\ shells h = (S f, x, pid) /\ f = x /\ waits h = k.
Proof using Hfork Hwait.
  induction k as [|k (n & pid & h & f & x & G & Sh & Hf & Wh)].
  - destruct init_begins as (n & pid & h & G & Sh & Wh). by exists n, pid, h, 0%nat, 0%nat.
  - destruct (init_waits pid h f x Sh) as (m & pid' & h' & f' & x' & G' & S' & D' & W').
    exists (n + m)%nat, pid', h', f', x'. split_and!; [by eapply gets_to_trans | done | lia | congruence].
Qed.
End init.

(** C16: init never ends and keeps a shell: as long as [fork] and [wait] do not fail, it runs
    forever, and after any number of returned waits, for the shell or for orphans it
    has been given, it is again waiting, with exactly one shell started (a child forked)
    that has not exited. *)
Theorem init_keeps_a_shell (env : environment) :
  (forall h, 0 < (env h CFork).1) -> (forall h, 0 <= (env h CWait).1) ->
  (forall fuel, exists t h, steps fuel env init_main [] = (Running t, h)) /\
  forall k, exists n t h next, gets_to env n init_main [] t h /\ observe t = VisF (Sys CWait) next /\
    waits h = k /\ (shells h).1.1 = S (shells h).1.2.
Proof.
  intros Hfork Hwait. split.
  - intros fuel. destruct (init_rounds env Hfork Hwait fuel) as (n & pid & h & f & x & G & _ & _ & Wh).
    eapply gets_to_running; [exact G|]. pose proof (gets_to_length _ _ _ _ _ _ G) as Hl. cbn in Hl.
    assert (waits h <= length h)%nat; [|lia]. unfold waits. etransitivity; [apply length_filter|]. unfold calls. by rewrite length_fmap.
  - intros k. destruct (init_rounds env Hfork Hwait k) as (n & pid & h & f & x & G & Sh & -> & Wh).
    exists n, (waiting pid), h. eexists. split; [exact G|]. split; [unfold waiting, init_wait; rewrite !observe_bind, observe_iter, !observe_bind; reflexivity|].
    by rewrite Sh.
Qed.
(** the first wait is for an orphan, every other one for the shell *)
Definition fork_env : environment := fun h c =>
  match c with
  | CFork => (Z.of_nat (S (length h)), [])
  | CWait => if (waits h =? 0)%nat then (0, []) else (Z.max 0 (shells h).2, [])
  | _ => (0, [])
  end.
Lemma init_keeps_a_shell_witness : exists n t h next, gets_to fork_env n init_main [] t h /\ observe t = VisF (Sys CWait) next /\
    waits h = 3%nat /\ (shells h).1.1 = S (shells h).1.2.
Proof.
  apply (init_keeps_a_shell fork_env).
  - intros h. cbn. lia.
  - intros h. unfold fork_env. destruct (waits h =? 0)%nat; cbn; lia.
Defined.

(** ** syscount *)

(** the names of kernel/syscall.h *)
Definition sys_names : list string :=
  ["fork"; "exit"; "wait"; "pipe"; "read"; "kill"; "exec"; "fstat"; "chdir"; "dup"; "getpid"; "sbrk"; "sleep"; "uptime";
   "open"; "write"; "mknod"; "unlink"; "link"; "mkdir"; "close"; "waitx"; "getSysCount"; "sigalarm"; "sigreturn"; "settickets"].
Definition sys_name (num : nat) : option string := match num with O => None | S k => sys_names !! k end.

(** C31: The name syscount prints for a mask is that of the system call counted for the calls 1
    to 18 of syscall.h and wrong for all the others: [link], [mkdir] and [close] are
    reported as [fchmod], [link] and [mkdir], and [waitx] as [close]. *)
Theorem syscount_names (num : nat) (name : string) : sys_name num = Some name ->
  if (num <=? 18)%nat then getSyscallName (2 ^ Z.of_nat num / 2) = name
  else getSyscallName (2 ^ Z.of_nat num / 2) =
    default "unknown"%string (["fchmod"; "link"; "mkdir"; "close"]%string !! (num - 19)%nat) /\ getSyscallName (2 ^ Z.of_nat num / 2) <> name.
Proof.
  destruct num as [|k]; [done|]. cbn [sys_name]. intros Hk. pose proof (lookup_lt_Some _ _ _ Hk) as Hl.
  change (length sys_names) with 26%nat in Hl. revert name Hk.
  do 26 (destruct k as [|k]; [intros name [= <-]; vm_compute; try (split; [reflexivity | discriminate]); reflexivity|]). lia.
Qed.
Lemma syscount_names_witness : sys_name 21 = Some "close"%string /\ getSyscallName (2 ^ 21 / 2) = "mkdir"%string.
Proof.
  split; [reflexivity|]. destruct (syscount_names 21 "close") as [H _]; [reflexivity | exact H].
Defined.

(** the parent's report: the counts it was told before and after the command ran *)
Lemma syscount_reports (env : environment) (prog a cmd : list Z) (args : list (list Z)) :
  let mask := uatoi a in
  let pid := (env [] CFork).1 in
  let g1 : history := [] ++ [(CFork, env [] CFork)] in
  let ct2 := (env g1 (CGetSysCount mask)).1 in
  let g2 := g1 ++ [(CGetSysCount mask, env g1 (CGetSysCount mask))] in
  let g3 := g2 ++ [(CWait, env g2 CWait)] in
  let ct1 := (env g3 (CGetSysCount mask)).1 in
  0 < mask -> Z.land mask (mask - 1) = 0 -> 0 < pid ->
  exists h, ends env (syscount_main (prog :: a :: cmd :: args)) [] (Exited 0) h /\
    output 1 (calls h) = chars "PID " ++ dec pid ++ chars " called " ++ chars (getSyscallName (mask / 2)) ++ chars " " ++
      dec (s32 (ct1 - ct2)) ++ chars " times." ++ nl.
Proof.
  intros mask pid g1 ct2 g2 g3 ct1 Hm Hpow Hp.
  set (h3 := g3 ++ [(CGetSysCount mask, env g3 (CGetSysCount mask))]).
  set (out := chars "PID " ++ dec pid ++ chars " called " ++ chars (getSyscallName (mask / 2)) ++ chars " " ++
      dec (s32 (ct1 - ct2)) ++ chars " times." ++ nl).
  destruct (does_vprintf env 1 _ (chars "PID %d called %s %d times.
") (le_n _) [UInt pid; UStr (Some (chars (getSyscallName (mask / 2)))); UInt (s32 (ct1 - ct2))] out ltac:(reflexivity) h3) as (g' & E & C).
  exists (h3 ++ g'). split.
  - unfold syscount_main. fold mask. replace (mask <=? 0) with false by lia. rewrite Hpow. cbn [orb negb Z.eqb].
    eapply ends_bind; [apply ends_sysv|]. eapply ends_bind; [apply ends_sysv|]. fold g1 pid ct2 g2.
    replace (pid =? 0) with false by lia. eapply ends_bind; [apply ends_sysv|]. fold g3. eapply ends_bind; [apply ends_sysv|].
    fold ct1 h3. eapply ends_bind; [exact E | apply ends_exit].
  - unfold calls in *. rewrite fmap_app, output_app, C, output_writes; [done|].
    unfold out. repeat (apply bytes_app; [first [apply dec_bytes | apply chars_bytes]|]). apply bytes_nl.
Qed.

(** ** echo, ls *)
Fixpoint joined (args : list (list Z)) : list Z :=
  match args with [] => [] | [a] => a ++ nl | a :: rest => a ++ chars " " ++ joined rest end.
Lemma echo_writes env cmd args : exists h, ends env (echo_main (cmd :: args)) [] (Exited 0) h /\ output 1 (calls h) = joined args.
Proof.
  assert (H : forall h, exists h', ends env (echo_args args) h (Returned tt) h' /\ output 1 (calls h') = output 1 (calls h) ++ joined args).
  { induction args as [|a args IH]; intros h; [exists h; split; [apply ends_ret | by rewrite app_nil_r]|].
    set (sep := match args with [] => nl | _ => chars " " end).
    set (h1 := h ++ [(CWrite 1 a, env h (CWrite 1 a))]). destruct (IH (h1 ++ [(CWrite 1 sep, env h1 (CWrite 1 sep))])) as (h' & E & O).
    exists h'. split; [by eapply ends_bind; [apply ends_sysv|]; eapply ends_bind; [apply ends_sysv|]|].
    rewrite O. unfold h1. rewrite !calls_snoc, !output_app. destruct args; cbn; by rewrite <- ?app_assoc. }
  destruct (H []) as (h & E & O). exists h. split; [eapply ends_bind; [exact E | apply ends_exit] | exact O].
Qed.
(** the name in a listing: what is after the last slash, filled up with blanks *)
Lemma fmtname_pads dir name : slash ∉ name -> fmtname (dir ++ slash :: name) = name ++ replicate (DIRSIZ - length name) 32.
Proof.
  intros Hn. assert (Hnone : after_slash name = None).
  { induction name as [|c name IH]; [done|]. apply not_elem_of_cons in Hn as [H1 H2]. cbn. rewrite IH by done. by replace (c =? slash) with false by lia. }
  assert (Hs : after_slash (dir ++ slash :: name) = Some name).
  { induction dir as [|c dir IH]; cbn; [by rewrite Hnone | by rewrite IH]. }
  unfold fmtname. rewrite Hs. change (default (dir ++ slash :: name) (Some name)) with name. cbv zeta. destruct (Nat.leb_spec DIRSIZ (length name)) as [H|H]; [|done].
  replace (DIRSIZ - length name)%nat with 0%nat by lia. by rewrite app_nil_r.
Qed.
