(* ===== verification/Utest.v ===== *)
(** Test programs of user/: forktest, stressfs, schedulertest and grind, as trees of their
    system calls.  A tree follows the process that runs it: [fork] answers 0 in a child.

    Loops that only use up processor time make no system call and are left out. *)
From ITree Require Import ITree.
From S2P Require Import Prelude State Proc Log Fs Ulib Uprog Uprintf Ucmd.
From Stdlib Require Import Ascii Znumtheory.
Local Open Scope user_scope.

(** [sysv], the result ignored *)
Definition ucall (c : call) : U unit := sysv c;; uret tt.
Fixpoint urepeat (n : nat) (body : U unit) : U unit := match n with O => uret tt | S n' => body;; urepeat n' body end.

(** ** forktest.c *)
Definition print (s : string) : U unit := ucall (CWrite 1 (chars s)).
(** [for(n=0; n<N; n++)], answering [n] *)
Fixpoint ft_forks (left : nat) (n : nat) : U nat :=
  match left with
  | O => uret n
  | S left' =>
      pid <- sysv CFork;;
      if pid <? 0 then uret n
      else if pid =? 0 then uexit 0
      else ft_forks left' (S n)
  end.
Fixpoint ft_waits (n : nat) : U unit :=
  match n with
  | O => uret tt
  | S n' =>
      r <- sysv CWait;;
      (if r <? 0 then print "wait stopped early
";; uexit 1 else uret tt);;
      ft_waits n'
  end.
Definition FT_N : nat := 1000.
Definition forktest : U unit :=
  print "fork test
";;
  n <- ft_forks FT_N 0;;
  (if (n =? FT_N)%nat then print "fork claimed to work N times!
";; uexit 1 else uret tt);;
  ft_waits n;;
  r <- sysv CWait;;
  (if negb (r =? -1) then print "wait got too many
";; uexit 1 else uret tt);;
  print "fork test OK
".
Definition forktest_main : U unit := forktest;; uexit 0.

(** ** stressfs.c *)
Fixpoint sf_forks (left : nat) (i : Z) : U Z :=
  match left with
  | O => uret i
  | S left' => pid <- sysv CFork;; if 0 <? pid then uret i else sf_forks left' (i + 1)
  end.
Definition stressfs_main : U unit :=
  uprintf "stressfs starting
" [];;
  let data := replicate 512 97 in
  i <- sf_forks 4 0;;
  uprintf "write %d
" [UInt i];;
  let path := alter (fun b => u8 (b + i)) 8%nat (chars "stressfs0") in
  fd <- sysv (COpen path (Z.lor O_CREATE O_RDWR));;
  urepeat 20 (ucall (CWrite fd data));;
  ucall (CClose fd);;
  uprintf "read
" [];;
  fd <- sysv (COpen path O_RDONLY);;
  urepeat 20 (ucall (CRead fd 512));;
  ucall (CClose fd);;
  ucall CWait;;
  uexit 0.

(** ** schedulertest.c *)
Definition NFORK : nat := 10.
Definition IO : nat := 5.
Fixpoint st_forks (left : nat) (n : nat) : U nat :=
  match left with
  | O => uret n
  | S left' =>
      pid <- sysv CFork;;
      if pid <? 0 then uret n
      else if pid =? 0 then
        (if (n <? IO)%nat then ucall (CSleep 200) else uret tt);;
        uexit 0
      else st_forks left' (S n)
  end.
(** the running times and the waiting times of the children, added up *)
Fixpoint st_waits (n : nat) (trtime twtime : Z) : U (Z * Z) :=
  match n with
  | O => uret (trtime, twtime)
  | S n' =>
      r <- sys CWaitx;;
      if 0 <=? r.1 then st_waits n' (s32 (trtime + s32 (get32 r.2 4))) (s32 (twtime + s32 (get32 r.2 0)))
      else st_waits n' trtime twtime
  end.
Definition schedulertest_main : U unit :=
  n <- st_forks NFORK 0;;
  t <- st_waits n 0 0;;
  uprintf "Average rtime %d,  wtime %d
" [UInt (Z.quot t.1 (Z.of_nat NFORK)); UInt (Z.quot t.2 (Z.of_nat NFORK))];;
  uexit 0.

(** ** grind.c *)

(** the value returned, which is also the new [*ctx] *)
Definition do_rand (ctx : Z) : Z :=
  let x := ctx mod 0x7ffffffe + 1 in
  let hi := Z.quot x 127773 in
  let lo := Z.rem x 127773 in
  let x := 16807 * lo - 2836 * hi in
  let x := if x <? 0 then x + 0x7fffffff else x in
  x - 1.

(** what [go] keeps from round to round *)
Record grinder := mkgrinder { g_fd : Z; g_buf : list Z; g_iters : Z; g_rand : Z }.

Definition OCR : Z := Z.lor O_CREATE O_RDWR.
Definition mktouch (path : string) : U unit := fd <- sysv (COpen (chars path) OCR);; ucall (CClose fd).
Definition rm (path : string) : U unit := ucall (CUnlink (chars path)).
Definition mkd (path : string) : U unit := ucall (CMkdir (chars path)).
Definition cd (path : string) : U Z := sysv (CChdir (chars path)).
(** [if(b){ printf(msg); exit(st); }] *)
Definition fails_on (fd : Z) (b : bool) (msg : string) (ap : list uarg) (st : Z) : U unit := if b then die fd msg ap st else uret tt.
(** a child runs [m] and exits; the parent goes on with its pid *)
Definition in_child (m : U unit) : U Z :=
  pid <- sysv CFork;;
  (if pid =? 0 then m;; uexit 0 else fails_on 1 (pid <? 0) "grind: fork failed
" [] 1);;
  uret pid.
(** [wait(&st)]: the status, if one was stored *)
Definition wait_st (st : option Z) : U (option Z) := r <- sys CWait;; uret (if r.1 <? 0 then st else Some (s32 (get32 r.2 0))).
(** [pipe(fds)] *)
Definition upipe (fd : Z) : U (Z * Z) :=
  r <- sys CPipe;;
  fails_on fd (r.1 <? 0) "grind: pipe failed
" [] 1;;
  uret (s32 (get32 r.2 0), s32 (get32 r.2 4)).
(** the bytes of a read, over what the buffer held *)
Definition read_into (r : answer) (buf : list Z) : list Z := take (Z.to_nat r.1) r.2 ++ drop (Z.to_nat r.1) buf.

(** [echo hi | cat] *)
Definition grind_pipeline : U unit :=
  aa <- upipe 2;;
  bb <- upipe 2;;
  pid1 <- sysv CFork;;
  (if pid1 =? 0 then
     ucall (CClose bb.1);; ucall (CClose bb.2);; ucall (CClose aa.1);; ucall (CClose 1);;
     d <- sysv (CDup aa.2);;
     fails_on 2 (negb (d =? 1)) "grind: dup failed
" [] 1;;
     ucall (CClose aa.2);;
     ucall (CExec (chars "grindir/../echo") [chars "echo"; chars "hi"]);;
     die 2 "grind: echo: not found
" [] 2
   else fails_on 2 (pid1 <? 0) "grind: fork failed
" [] 3);;
  pid2 <- sysv CFork;;
  (if pid2 =? 0 then
     ucall (CClose aa.2);; ucall (CClose bb.1);; ucall (CClose 0);;
     d <- sysv (CDup aa.1);;
     fails_on 2 (negb (d =? 0)) "grind: dup failed
" [] 4;;
     ucall (CClose aa.1);; ucall (CClose 1);;
     d <- sysv (CDup bb.2);;
     fails_on 2 (negb (d =? 1)) "grind: dup failed
" [] 5;;
     ucall (CClose bb.2);;
     ucall (CExec (chars "/cat") [chars "cat"]);;
     die 2 "grind: cat: not found
" [] 6
   else fails_on 2 (pid2 <? 0) "grind: fork failed
" [] 7);;
  ucall (CClose aa.1);; ucall (CClose aa.2);; ucall (CClose bb.2);;
  r0 <- sys (CRead bb.1 1);;
  r1 <- sys (CRead bb.1 1);;
  r2 <- sys (CRead bb.1 1);;
  let buf := read_into r0 [0] ++ read_into r1 [0] ++ read_into r2 [0] ++ [0] in
  ucall (CClose bb.1);;
  st1 <- wait_st None;;
  st2 <- wait_st None;;
  match st1, st2 with
  | Some st1, Some st2 =>
      fails_on 1 (negb (st1 =? 0) || negb (st2 =? 0) || negb (bool_decide (cstr buf = chars "hi
"))) ("grind: exec pipeline failed %d %d " ++ String "034"%char ("%s" ++ String "034"%char "
")) [UInt st1; UInt st2; UStr (Some (cstr buf))] 1
  | _, _ => undef
  end.

Definition grind_create : U unit :=
  rm "c";;
  fd1 <- sysv (COpen (chars "c") OCR);;
  fails_on 1 (fd1 <? 0) "grind: create c failed
" [] 1;;
  w <- sysv (CWrite fd1 (chars "x"));;
  fails_on 1 (negb (w =? 1)) "grind: write c failed
" [] 1;;
  r <- sys (CFstat fd1);;
  fails_on 1 (negb (r.1 =? 0)) "grind: fstat failed
" [] 1;;
  fails_on 1 (negb (st_size r.2 =? 1)) "grind: fstat reports wrong size %d
" [UInt (st_size r.2)] 1;;
  fails_on 1 (200 <? st_ino r.2) "grind: fstat reports crazy i-number %d
" [UInt (st_ino r.2)] 1;;
  ucall (CClose fd1);;
  rm "c".

(** the system calls of one round; the answer is the open descriptor and the buffer *)
Definition grind_what (what break0 fd : Z) (buf : list Z) : U (Z * list Z) :=
  let same (m : U unit) : U (Z * list Z) := m;; uret (fd, buf) in
  let reopen (path : string) : U (Z * list Z) := ucall (CClose fd);; fd <- sysv (COpen (chars path) OCR);; uret (fd, buf) in
  if what =? 1 then same (mktouch "grindir/../a")
  else if what =? 2 then same (mktouch "grindir/../grindir/../b")
  else if what =? 3 then same (rm "grindir/../a")
  else if what =? 4 then same (
    r <- cd "grindir";;
    fails_on 1 (negb (r =? 0)) "grind: chdir grindir failed
" [] 1;;
    rm "../b";; cd "/";; uret tt)
  else if what =? 5 then reopen "/grindir/../a"
  else if what =? 6 then reopen "/./grindir/./../b"
  else if what =? 7 then same (ucall (CWrite fd buf))
  else if what =? 8 then r <- sys (CRead fd 999);; uret (fd, read_into r buf)
  else if what =? 9 then same (mkd "grindir/../a";; mktouch "a/../a/./a";; rm "a/a")
  else if what =? 10 then same (mkd "/../b";; mktouch "grindir/../b/b";; rm "b/b")
  else if what =? 11 then same (rm "b";; ucall (CLink (chars "../grindir/./../a") (chars "../b")))
  else if what =? 12 then same (rm "../grindir/../a";; ucall (CLink (chars ".././b") (chars "/grindir/../a")))
  else if what =? 13 then same (in_child (uret tt);; ucall CWait)
  else if what =? 14 then same (in_child (ucall CFork;; ucall CFork);; ucall CWait)
  else if what =? 15 then same (ucall (CSbrk 6011))
  else if what =? 16 then same (
    b <- sysv (CSbrk 0);;
    if break0 <? b then b' <- sysv (CSbrk 0);; ucall (CSbrk (s32 (- (b' - break0)))) else uret tt)
  else if what =? 17 then same (
    pid <- in_child (mktouch "a");;
    r <- cd "../grindir/..";;
    fails_on 1 (negb (r =? 0)) "grind: chdir failed
" [] 1;;
    ucall (CKill pid);; ucall CWait)
  else if what =? 18 then same (in_child (me <- sysv CGetpid;; ucall (CKill me));; ucall CWait)
  else if what =? 19 then same (
    fds <- upipe 1;;
    in_child (
      ucall CFork;; ucall CFork;;
      w <- sysv (CWrite fds.2 (chars "x"));;
      (if negb (w =? 1) then uprintf "grind: pipe write failed
" [] else uret tt);;
      r <- sysv (CRead fds.1 1);;
      (if negb (r =? 1) then uprintf "grind: pipe read failed
" [] else uret tt));;
    ucall (CClose fds.1);; ucall (CClose fds.2);; ucall CWait)
  else if what =? 20 then same (
    in_child (rm "a";; mkd "a";; cd "a";; rm "../a";; ucall (COpen (chars "x") OCR);; rm "x");;
    ucall CWait)
  else if what =? 21 then same grind_create
  else if what =? 22 then same grind_pipeline
  else uret (fd, buf).

Definition go_round (which_child break0 : Z) (g : grinder) : U grinder :=
  let iters := u64 (g_iters g + 1) in
  (if iters mod 500 =? 0 then ucall (CWrite 1 (chars (if istrue which_child then "B" else "A"))) else uret tt);;
  let x := do_rand (g_rand g) in
  r <- grind_what (Z.rem x 23) break0 (g_fd g) (g_buf g);;
  uret (mkgrinder r.1 r.2 iters x).
Definition grind_go (which_child rand_next : Z) : U unit :=
  break0 <- sysv (CSbrk 0);;
  mkd "grindir";;
  r <- cd "grindir";;
  fails_on 1 (negb (r =? 0)) "grind: chdir grindir failed
" [] 1;;
  cd "/";;
  ITree.iter (fun g => g' <- go_round which_child break0 g;; uret (inl g')) (mkgrinder (-1) (replicate 999 0) 0 rand_next).

Definition grind_iter (rand_next : Z) : U unit :=
  rm "a";; rm "b";;
  pid1 <- sysv CFork;;
  fails_on 1 (pid1 <? 0) "grind: fork failed
" [] 1;;
  (if pid1 =? 0 then grind_go 0 (Z.lxor rand_next 31);; uexit 0 else uret tt);;
  pid2 <- sysv CFork;;
  fails_on 1 (pid2 <? 0) "grind: fork failed
" [] 1;;
  (if pid2 =? 0 then grind_go 1 (Z.lxor rand_next 7177);; uexit 0 else uret tt);;
  st1 <- wait_st (Some (-1));;
  (if negb (bool_decide (st1 = Some 0)) then ucall (CKill pid1);; ucall (CKill pid2) else uret tt);;
  wait_st (Some (-1));;
  uexit 0.
Definition grind_round (rand_next : Z) : U Z :=
  pid <- sysv CFork;;
  (if pid =? 0 then grind_iter rand_next;; uexit 0 else uret tt);;
  (if 0 <? pid then ucall CWait else uret tt);;
  ucall (CSleep 20);;
  uret (u64 (rand_next + 1)).
Definition grind_main : U unit := ITree.iter (fun rand_next => r <- grind_round rand_next;; uret (inl r)) 1.

(** ** The random numbers of grind *)

Lemma schrage x : 1 <= x <= 0x7ffffffe ->
  let y := 16807 * Z.rem x 127773 - 2836 * Z.quot x 127773 in
  - 0x7fffffff < y < 0x7fffffff /\ 16807 * x = y + Z.quot x 127773 * 0x7fffffff.
Proof.
  intros Hx y. unfold y. rewrite Z.rem_mod_nonneg, Z.quot_div_nonneg by lia. pose proof (Z.div_mod x 127773 ltac:(lia)). pose proof (Z.mod_pos_bound x 127773 ltac:(lia)).
  assert (0 <= x / 127773 <= 16807) by (split; [apply Z.div_pos; lia | apply Z.lt_succ_r, Z.div_lt_upper_bound; lia]). lia.
Qed.
Lemma times_16807 x x' : (16807 * x) mod 0x7fffffff = (16807 * x') mod 0x7fffffff -> x mod 0x7fffffff = x' mod 0x7fffffff.
Proof.
  intros H. assert (E : forall z, z mod 0x7fffffff = (1407677000 * ((16807 * z) mod 0x7fffffff)) mod 0x7fffffff).
  { intros z. rewrite Z.mul_mod_idemp_r by lia. replace (1407677000 * (16807 * z)) with (z + 11017 * z * 0x7fffffff + (1407677000 * 16807 - 1 - 11017 * 0x7fffffff) * z) by ring.
    replace (1407677000 * 16807 - 1 - 11017 * 0x7fffffff) with 0 by reflexivity. rewrite Z.mul_0_l, Z.add_0_r, Z_mod_plus_full. done. }
  rewrite (E x), (E x'). by rewrite H.
Qed.

(** The generator of grind is Park and Miller's "minimal standard": the division
    trick computes [7^5 * x mod (2^31 - 1)] without leaving 32 bits, the result fits an
    [int], and no two of the states from 0 to 2^31 - 3 have the same successor, so that
    the sequence never gets stuck. *)
Lemma do_rand_minimal_standard ctx : let x := ctx mod 0x7ffffffe + 1 in
  do_rand ctx = (7 ^ 5 * x) mod (2 ^ 31 - 1) - 1 /\ 0 <= do_rand ctx < 2 ^ 31 - 2 /\
  Z.abs (16807 * Z.rem x 127773 - 2836 * Z.quot x 127773) < 2 ^ 31 - 1 /\
  forall ctx', 0 <= ctx < 2 ^ 31 - 2 -> 0 <= ctx' < 2 ^ 31 - 2 -> do_rand ctx = do_rand ctx' -> ctx = ctx'.
Proof.
  intros x. assert (Hr : forall c, 1 <= c mod 0x7ffffffe + 1 <= 0x7ffffffe) by (intros c; pose proof (Z.mod_pos_bound c 0x7ffffffe ltac:(lia)); lia).
  assert (Hd : forall c, do_rand c = (16807 * (c mod 0x7ffffffe + 1)) mod 0x7fffffff - 1 /\ 0 <= do_rand c < 0x7ffffffe).
  { intros c. specialize (Hr c). pose proof (schrage _ Hr) as [B E]. unfold do_rand. set (z := c mod 0x7ffffffe + 1) in *. set (y := 16807 * Z.rem z 127773 - _) in *.
    assert (Ey : (16807 * z) mod 0x7fffffff = y mod 0x7fffffff) by (rewrite E; apply Z_mod_plus_full).
    assert (Hnz : (16807 * z) mod 0x7fffffff <> 0).
    { intros E0. pose proof (times_16807 z 0) as Hz. rewrite Z.mul_0_r, Zmod_0_l in Hz. specialize (Hz E0). rewrite Z.mod_small in Hz; lia. }
    pose proof (Z.mod_pos_bound (16807 * z) 0x7fffffff ltac:(lia)) as Hb. destruct (Z.ltb_spec y 0) as [Hy|Hy].
    - assert (Em : y mod 0x7fffffff = y + 0x7fffffff) by (symmetry; apply (Z.mod_unique _ _ (-1)); lia). lia.
    - assert (Em : y mod 0x7fffffff = y) by (apply Z.mod_small; lia). lia. }
  destruct (Hd ctx) as [D1 D2]. split_and!; [exact D1 | lia.. | |].
  - pose proof (schrage _ (Hr ctx)) as [B _]. fold x in B. lia.
  - intros ctx' H1 H2 E. destruct (Hd ctx') as [D1' _]. rewrite D1, D1' in E.
    assert (E' : (16807 * (ctx mod 0x7ffffffe + 1)) mod 0x7fffffff = (16807 * (ctx' mod 0x7ffffffe + 1)) mod 0x7fffffff) by lia.
    apply times_16807 in E'. rewrite (Z.mod_small ctx), (Z.mod_small ctx') in E' by lia. rewrite !Z.mod_small in E' by lia. lia.
Qed.

(** ** forktest and schedulertest *)

(** how often a call has been made *)
Definition made (c : call) (h : history) : nat := length (filter (.= c) (calls h)).
Lemma made_snoc c h d a : made c (h ++ [(d, a)]) = (made c h + if decide (d = c) then 1 else 0)%nat.
Proof.
  unfold made. rewrite calls_snoc, filter_app, length_app. f_equal. destruct (decide (d = c)); [by rewrite filter_cons_True | by rewrite filter_cons_False].
Qed.
(** a system that allows [k] children, and answers [wait] for each of them once *)
Record limited (env : environment) (k : nat) : Prop := {
  lm_fork : forall h, if decide (made CFork h < k)%nat then 0 < (env h CFork).1 else (env h CFork).1 < 0;
  lm_wait : forall h, if decide (made CWait h < k)%nat then 0 <= (env h CWait).1 else (env h CWait).1 = -1
}.

Section forktest.
Context (env : environment) (k : nat) (Hlim : limited env k).

Lemma ends_ucall c h : ends env (ucall c) h (Returned tt) (h ++ [(c, env h c)]).
Proof. eapply ends_bind; [apply ends_sysv | apply ends_ret]. Qed.
Lemma output_snoc h c a : output 1 (calls (h ++ [(c, a)])) = output 1 (calls h) ++ output 1 [c].
Proof. by rewrite calls_snoc, output_app. Qed.

Lemma ends_ft_forks left : forall n h, made CFork h = n -> (n <= k)%nat -> exists h', ends env (ft_forks left n) h (Returned (min k (n + left))%nat) h' /\
  made CWait h' = made CWait h /\ output 1 (calls h') = output 1 (calls h).
Proof using Hlim.
  induction left as [|left IH]; intros n h Hn Hk; cbn [ft_forks].
  - exists h. rewrite Nat.add_0_r, Nat.min_r by lia. split; [apply ends_ret | done].
  - pose proof (lm_fork _ _ Hlim h) as Hf. set (h1 := h ++ [(CFork, env h CFork)]).
    assert (M1 : made CFork h1 = S n) by (unfold h1; rewrite made_snoc, Hn, decide_True by done; lia).
    assert (W1 : made CWait h1 = made CWait h) by (unfold h1; rewrite made_snoc, decide_False by done; lia).
    assert (O1 : output 1 (calls h1) = output 1 (calls h)) by (unfold h1; rewrite output_snoc; apply app_nil_r).
    destruct (decide (made CFork h < k)%nat) as [Hlt|Hge]; rewrite Hn in *.
    + destruct (IH (S n) h1 M1 Hlt) as (h' & E & W & O). exists h'. split; [|split; congruence].
      eapply ends_bind; [apply ends_sysv|]. replace ((env h CFork).1 <? 0) with false by lia. replace ((env h CFork).1 =? 0) with false by lia.
      replace (n + S left)%nat with (S n + left)%nat by lia. exact E.
    + exists h1. split; [|done]. eapply ends_bind; [apply ends_sysv|]. replace ((env h CFork).1 <? 0) with true by lia.
      replace (min k (n + S left)) with n by lia. apply ends_ret.
Qed.
Lemma ends_ft_waits n : forall h, (made CWait h + n <= k)%nat -> exists h', ends env (ft_waits n) h (Returned tt) h' /\
  made CWait h' = (made CWait h + n)%nat /\ output 1 (calls h') = output 1 (calls h).
Proof using Hlim.
  induction n as [|n IH]; intros h Hk; cbn [ft_waits].
  - exists h. rewrite Nat.add_0_r. split; [apply ends_ret | done].
  - pose proof (lm_wait _ _ Hlim h) as Hw. rewrite decide_True in Hw by lia. set (h1 := h ++ [(CWait, env h CWait)]).
    assert (W1 : made CWait h1 = S (made CWait h)) by (unfold h1; rewrite made_snoc, decide_True by done; lia).
    assert (O1 : output 1 (calls h1) = output 1 (calls h)) by (unfold h1; rewrite output_snoc; apply app_nil_r).
    destruct (IH h1 ltac:(lia)) as (h' & E & W & O). exists h'. split; [|split; [lia | congruence]].
    eapply ends_bind; [apply ends_sysv|]. replace ((env h CWait).1 <? 0) with false by lia. eapply ends_bind; [apply ends_ret | exact E].
Qed.

(** forktest against such a system: it passes exactly when fewer than 1000 children are
    allowed. *)
Lemma forktest_verdict : exists h, ends env forktest_main [] (Exited (if decide (k < FT_N)%nat then 0 else 1)) h /\
  output 1 (calls h) = chars "fork test
" ++ if decide (k < FT_N)%nat then chars "fork test OK
" else chars "fork claimed to work N times!
".
Proof using Hlim.
  unfold forktest_main, forktest, print. set (c0 := CWrite 1 _). set (h0 := [] ++ [(c0, env [] c0)]).
  destruct (ends_ft_forks FT_N 0 h0 eq_refl ltac:(lia)) as (h1 & E1 & W1 & O1). rewrite Nat.add_0_l in E1. change (made CWait h0) with 0%nat in W1.
  assert (P0 : forall (m : nat -> U unit) o h', ends env (m (min k FT_N)) h1 o h' -> ends env (ucall c0;; n <- ft_forks FT_N 0;; m n) [] o h').
  { intros m o h' H. eapply ends_bind; [apply ends_ucall|]. eapply ends_bind; [exact E1 | exact H]. }
  destruct (decide (k < FT_N)%nat) as [Hk|Hk].
  - rewrite Nat.min_l in E1, P0 by lia. destruct (ends_ft_waits k h1 ltac:(lia)) as (h2 & E2 & W2 & O2).
    pose proof (lm_wait _ _ Hlim h2) as Hw. rewrite decide_False in Hw by lia. set (h3 := h2 ++ [(CWait, env h2 CWait)]). set (c4 := CWrite 1 (chars "fork test OK
")).
    exists (h3 ++ [(c4, env h3 c4)]). split.
    + eapply ends_bind; [|apply ends_exit]. apply P0. replace (k =? FT_N)%nat with false by (symmetry; apply Nat.eqb_neq; lia).
      eapply ends_bind; [apply ends_ret|]. eapply ends_bind; [exact E2|]. eapply ends_bind; [apply ends_sysv|]. rewrite Hw. change (negb (-1 =? -1)) with false.
      eapply ends_bind; [apply ends_ret | apply ends_ucall].
    + unfold h3. rewrite !output_snoc, O2, O1. reflexivity.
  - rewrite Nat.min_r in E1, P0 by lia. set (c2 := CWrite 1 (chars "fork claimed to work N times!
")). exists (h1 ++ [(c2, env h1 c2)]). split.
    + apply ends_bind_exit. apply P0. rewrite Nat.eqb_refl. apply ends_bind_exit. eapply ends_bind; [apply ends_ucall | apply ends_exit].
    + rewrite output_snoc, O1. reflexivity.
Qed.
End forktest.

(** the children's times, in the order in which [waitx] answers for them *)
Record timed (env : environment) (k : nat) (ts : list (Z * Z)) : Prop := {
  tm_fork : forall h, if decide (made CFork h < k)%nat then 0 < (env h CFork).1 else (env h CFork).1 < 0;
  tm_all : length ts = min k NFORK;
  tm_waitx : forall h w r, ts !! made CWaitx h = Some (w, r) -> 0 <= (env h CWaitx).1 /\
    s32 (get32 (env h CWaitx).2 0) = w /\ s32 (get32 (env h CWaitx).2 4) = r;
  tm_range : Forall (fun t => 0 <= t.1 /\ 0 <= t.2) ts
}.
Definition sum_of (ts : list Z) : Z := foldr Z.add 0 ts.
Lemma sum_nonneg ts : Forall (fun t => 0 <= t) ts -> 0 <= sum_of ts.
Proof. intros H. unfold sum_of. induction H; cbn; lia. Qed.

Section schedulertest.
Context (env : environment) (k : nat) (ts : list (Z * Z)) (Ht : timed env k ts).

Lemma ends_st_forks left : forall n h, made CFork h = n -> (n <= k)%nat -> exists h', ends env (st_forks left n) h (Returned (min k (n + left))%nat) h' /\
  made CWaitx h' = made CWaitx h /\ output 1 (calls h') = output 1 (calls h).
Proof using Ht.
  induction left as [|left IH]; intros n h Hn Hk; cbn [st_forks].
  - exists h. rewrite Nat.add_0_r, Nat.min_r by lia. split; [apply ends_ret | done].
  - pose proof (tm_fork _ _ _ Ht h) as Hf. set (h1 := h ++ [(CFork, env h CFork)]).
    assert (M1 : made CFork h1 = S n) by (unfold h1; rewrite made_snoc, Hn, decide_True by done; lia).
    assert (W1 : made CWaitx h1 = made CWaitx h) by (unfold h1; rewrite made_snoc, decide_False by done; lia).
    assert (O1 : output 1 (calls h1) = output 1 (calls h)) by (unfold h1; rewrite output_snoc; apply app_nil_r).
    destruct (decide (made CFork h < k)%nat) as [Hlt|Hge]; rewrite Hn in *.
    + destruct (IH (S n) h1 M1 Hlt) as (h' & E & W & O). exists h'. split; [|split; congruence].
      eapply ends_bind; [apply ends_sysv|]. replace ((env h CFork).1 <? 0) with false by lia. replace ((env h CFork).1 =? 0) with false by lia.
      replace (n + S left)%nat with (S n + left)%nat by lia. exact E.
    + exists h1. split; [|done]. eapply ends_bind; [apply ends_sysv|]. replace ((env h CFork).1 <? 0) with true by lia.
      replace (min k (n + S left)) with n by lia. apply ends_ret.
Qed.
Lemma ends_st_waits rest : forall done h a b, ts = done ++ rest -> made CWaitx h = length done -> 0 <= a -> 0 <= b ->
  a + sum_of rest.*2 < 2 ^ 31 -> b + sum_of rest.*1 < 2 ^ 31 ->
  exists h', ends env (st_waits (length rest) a b) h (Returned (a + sum_of rest.*2, b + sum_of rest.*1)) h' /\ output 1 (calls h') = output 1 (calls h).
Proof using Ht.
  induction rest as [|[w r] rest IH]; intros done h a b Hts Hm Ha Hb Ba Bb; cbn [st_waits length].
  - exists h. cbn. rewrite !Z.add_0_r. split; [apply ends_ret | reflexivity].
  - destruct (tm_waitx _ _ _ Ht h w r) as (H1 & H2 & H3); [by rewrite Hts, Hm, lookup_app_r, Nat.sub_diag by lia|].
    pose proof (tm_range _ _ _ Ht) as Hr. rewrite Hts in Hr. apply Forall_app in Hr as [_ Hr]. apply Forall_cons in Hr as [[Hw Hr] Hrest].
    assert (N1 : 0 <= sum_of rest.*1) by (apply sum_nonneg, Forall_fmap; eapply Forall_impl; [exact Hrest | by intros ? []]).
    assert (N2 : 0 <= sum_of rest.*2) by (apply sum_nonneg, Forall_fmap; eapply Forall_impl; [exact Hrest | by intros ? []]).
    cbn [fmap list_fmap sum_of foldr fst snd] in *. fold (sum_of rest.*1) (sum_of rest.*2) in *. set (h1 := h ++ [(CWaitx, env h CWaitx)]).
    destruct (IH (done ++ [(w, r)]) h1 (a + r) (b + w)) as (h' & E & O); [by rewrite <- app_assoc | | lia.. |].
    { unfold h1. rewrite made_snoc, Hm, length_app, decide_True by done. done. }
    exists h'. split; [|rewrite O; unfold h1; rewrite output_snoc; apply app_nil_r].
    eapply ends_bind; [apply ends_sys|]. replace (0 <=? (env h CWaitx).1) with true by lia. rewrite H2, H3, !s32_small by lia.
    replace (a + (r + sum_of rest.*2)) with (a + r + sum_of rest.*2) by lia. replace (b + (w + sum_of rest.*1)) with (b + w + sum_of rest.*1) by lia. exact E.
Qed.

(** schedulertest prints the sums of the children's running and waiting times over ten,
    also when there were fewer than ten children. *)
Lemma schedulertest_averages : sum_of ts.*1 < 2 ^ 31 -> sum_of ts.*2 < 2 ^ 31 -> exists h, ends env schedulertest_main [] (Exited 0) h /\
  output 1 (calls h) = chars "Average rtime " ++ dec (sum_of ts.*2 / 10) ++ chars ",  wtime " ++ dec (sum_of ts.*1 / 10) ++ nl.
Proof using Ht.
  intros B1 B2. destruct (ends_st_forks NFORK 0 [] eq_refl ltac:(lia)) as (h1 & E1 & W1 & O1). rewrite Nat.add_0_l, <- (tm_all _ _ _ Ht) in E1. change (made CWaitx []) with 0%nat in W1.
  destruct (ends_st_waits ts [] h1 0 0 eq_refl W1 ltac:(lia) ltac:(lia) ltac:(lia) ltac:(lia)) as (h2 & E2 & O2). rewrite !Z.add_0_l in E2.
  pose proof (tm_range _ _ _ Ht) as Hr. assert (N1 : 0 <= sum_of ts.*1) by (apply sum_nonneg, Forall_fmap; eapply Forall_impl; [exact Hr | by intros ? []]).
  assert (N2 : 0 <= sum_of ts.*2) by (apply sum_nonneg, Forall_fmap; eapply Forall_impl; [exact Hr | by intros ? []]).
  set (out := chars "Average rtime " ++ dec (sum_of ts.*2 / 10) ++ chars ",  wtime " ++ dec (sum_of ts.*1 / 10) ++ nl).
  destruct (does_vprintf env 1 _ (chars "Average rtime %d,  wtime %d
") (le_n _) [UInt (sum_of ts.*2 / 10); UInt (sum_of ts.*1 / 10)] out ltac:(reflexivity) h2) as (g & E3 & C3).
  exists (h2 ++ g). split.
  - eapply ends_bind; [exact E1|]. eapply ends_bind; [exact E2|]. eapply ends_bind; [|apply ends_exit]. cbn [fst snd]. change (Z.of_nat NFORK) with 10. rewrite !Z.quot_div_nonneg by lia. exact E3.
  - unfold calls. rewrite fmap_app, output_app. fold (calls h2) (calls g). rewrite O2, O1, C3, output_writes; [done|].
    unfold out. repeat (apply bytes_app; [first [apply dec_bytes | apply chars_bytes]|]). apply bytes_nl.
Qed.
End schedulertest.

(** ** grind runs forever *)

(** a loop in which every round ends and asks for another *)
Lemma iter_forever {I R} env (body : I -> U (I + R)) : (forall i h, exists j h', ends env (body i) h (Returned (inl j)) h') ->
  forall fuel i h, exists t h', steps fuel env (ITree.iter body i) h = (Running t, h').
Proof.
  intros Hb. assert (Hn : forall n i h, exists m u h', (n <= m)%nat /\ gets_to env m (ITree.iter body i) h u h').
  { induction n as [|n IH]; intros i h.
    - exists 0%nat, (ITree.iter body i), h. split; [lia | by apply gt_here].
    - destruct (Hb i h) as (j & h1 & E). destruct (IH j h1) as (m & u & h' & Hm & G).
      destruct (gets_to_then env (body i) (fun r => match r with inl i' => Tau (ITree.iter body i') | inr v => uret v end) _ _ _ E) as (m1 & G1).
      exists (m1 + S m)%nat, u, h'. split; [lia|]. eapply gets_to_observe; [apply observe_iter|]. eapply gets_to_trans; [exact G1|]. by eapply gt_tau. }
  intros fuel i h. destruct (Hn fuel i h) as (m & u & h' & Hm & G). by eapply gets_to_running.
Qed.
(** the process that started grind forks, waits and sleeps for ever, whatever the system
    answers *)
Lemma grind_forever env : (forall h, (env h CFork).1 <> 0) -> forall fuel, exists t h, steps fuel env grind_main [] = (Running t, h).
Proof.
  intros Hf fuel. apply iter_forever. intros rn h. exists (u64 (rn + 1)).
  assert (H : exists h', ends env (grind_round rn) h (Returned (u64 (rn + 1))) h').
  { unfold grind_round. specialize (Hf h). set (h1 := h ++ [(CFork, env h CFork)]).
    assert (Hw : exists h2, ends env (if 0 <? (env h CFork).1 then ucall CWait else uret tt) h1 (Returned tt) h2).
    { destruct (0 <? _); eexists; [apply ends_ucall | apply ends_ret]. }
    destruct Hw as (h2 & E2). eexists. eapply ends_bind; [apply ends_sysv|]. replace ((env h CFork).1 =? 0) with false by lia.
    eapply ends_bind; [apply ends_ret|]. eapply ends_bind; [exact E2|]. eapply ends_bind; [apply ends_ucall | apply ends_ret]. }
  destruct H as (h' & E). exists h'. eapply ends_bind; [exact E | apply ends_ret].
Qed.
