(* ===== verification/Umalloc.v ===== *)
(** user/umalloc.c: the allocator of Kernighan and Ritchie that user programs use.

    The heap is a ring of free blocks in address order, starting at the static
    [base], threaded through their headers.  Memory is seen as headers by address
    ([union header], 16 bytes; the headers in use never overlap);
    what programs store in their blocks is not of interest.  [sbrk] moves the break
    and fails beyond the limit the kernel grants.  Addresses are those of a user
    address space, below 2^38, so pointer arithmetic does not wrap.

    The theorems: [malloc] hands out blocks that overlap neither free memory nor
    other blocks, and [free] gives a block back, merged with its neighbours, so that
    the free memory is exactly what it was plus the block; the heap is always the
    blocks of the ring, as its links in memory give them, and the live ones. *)
From S2P Require Import Prelude.

(** ** umalloc.c *)
Record Header := mkheader { s_ptr : Z; s_size : Z }.
Definition HSIZE : Z := 16.

(** the process's headers, [freep], the break and the limit of [sbrk] *)
Record heap := mkheap { hp_mem : gmap Z Header; hp_freep : Z; hp_brk : Z; hp_max : Z }.
Notation U := (M heap).

Definition set_mem (f : gmap Z Header -> gmap Z Header) (h : heap) : heap :=
  mkheap (f (hp_mem h)) (hp_freep h) (hp_brk h) (hp_max h).
Definition set_freep (p : Z) (h : heap) : heap := mkheap (hp_mem h) p (hp_brk h) (hp_max h).
Definition set_brk (b : Z) (h : heap) : heap := mkheap (hp_mem h) (hp_freep h) b (hp_max h).

(** memory that has not been written reads as zero; the null page is not mapped *)
Definition hdr (h : heap) (a : Z) : Header := default (mkheader 0 0) (hp_mem h !! a).
Definition get_hdr (a : Z) : U Header :=
  if a =? 0 then fault "null header" else gets (fun h => hdr h a).
Definition put_hdr (a : Z) (f : Header -> Header) : U unit :=
  if a =? 0 then fault "null header" else modify (fun h => set_mem <[a := f (hdr h a)]> h).
Definition ptr (a : Z) : U Z := x <- get_hdr a;; ret (s_ptr x).
Definition hsize (a : Z) : U Z := x <- get_hdr a;; ret (s_size x).
Definition set_ptr (a v : Z) : U unit := put_hdr a (fun x => mkheader v (s_size x)).
Definition set_size (a v : Z) : U unit := put_hdr a (fun x => mkheader (s_ptr x) v).

(** the system call: the old break, or -1 *)
Definition sbrk (n : Z) : U Z :=
  b <- gets hp_brk;;
  m <- gets hp_max;;
  if m <? b + n then ret (-1) else modify (set_brk (b + n));; ret b.

(** the loop of [free]: where [bp] belongs in the ring *)
Definition free_step (bp p : Z) : U (Z + Z) :=
  nx <- ptr p;;
  if (p <? bp) && (bp <? nx) then ret (inr p)
  else if (nx <=? p) && ((p <? bp) || (bp <? nx)) then ret (inr p)
  else ret (inl nx).
Definition free_place (bp : Z) : U Z := fun e h =>
  mloop (S (size (hp_mem h))) (hp_freep h) (free_step bp) e h.

Definition free (ap : Z) : U unit :=
  let bp := ap - HSIZE in
  p <- free_place bp;;
  nx <- ptr p;;
  bsz <- hsize bp;;
  (if bp + HSIZE * bsz =? nx then
     nsz <- hsize nx;;
     set_size bp (u32 (bsz + nsz));;
     nnx <- ptr nx;;
     set_ptr bp nnx
   else set_ptr bp nx);;
  psz <- hsize p;;
  (if p + HSIZE * psz =? bp then
     bsz <- hsize bp;;
     set_size p (u32 (psz + bsz));;
     bnx <- ptr bp;;
     set_ptr p bnx
   else set_ptr p bp);;
  modify (set_freep p).

Definition morecore (nu : Z) : U Z :=
  let nu := if nu <? 4096 then 4096 else nu in
  p <- sbrk (s32 (nu * HSIZE));;
  if p =? -1 then ret 0 else
  set_size p nu;;
  free (p + HSIZE);;
  gets hp_freep.

Section malloc.
Context (base : Z).

(** the search loop of [malloc]; it goes round the ring at most twice, and
    [morecore] adds at most one block *)
Definition take_block (nunits prevp p sz : Z) : U Z :=
  r <- (if sz =? nunits then
          nx <- ptr p;;
          set_ptr prevp nx;;
          ret p
        else
          set_size p (u32 (sz - nunits));;
          let q := p + HSIZE * u32 (sz - nunits) in
          set_size q nunits;;
          ret q);;
  modify (set_freep prevp);;
  ret (r + HSIZE).
Definition malloc_step (nunits : Z) (pp : Z * Z) : U (Z * Z + Z) :=
  let '(prevp, p) := pp in
  sz <- hsize p;;
  if nunits <=? sz then r <- take_block nunits prevp p sz;; ret (inr r)
  else
    fp <- gets hp_freep;;
    if p =? fp then
      p <- morecore nunits;;
      if p =? 0 then ret (inr 0) else nx <- ptr p;; ret (inl (p, nx))
    else nx <- ptr p;; ret (inl (p, nx)).
Definition malloc_loop (nunits : Z) (prevp p : Z) : U Z := fun e h =>
  mloop (2 * size (hp_mem h) + 4) (prevp, p) (malloc_step nunits) e h.

Definition malloc (nbytes : Z) : U Z :=
  let nunits := u32 ((nbytes + HSIZE - 1) / HSIZE + 1) in
  fp <- gets hp_freep;;
  prevp <- (if fp =? 0 then
              set_ptr base base;;
              modify (set_freep base);;
              set_size base 0;;
              ret base
            else ret fp);;
  p <- ptr prevp;;
  malloc_loop nunits prevp p.
End malloc.

(** ** The ring of free blocks

    A list of blocks (address of the header, size in units) with each header
    pointing to the next and the last one to [z]. *)
Notation block := (Z * Z)%type.
Definition bend (x : block) : Z := x.1 + HSIZE * x.2.
Definition hd_addr (L : list block) (z : Z) : Z := match L with [] => z | x :: _ => x.1 end.

Fixpoint linked (m : gmap Z Header) (L : list block) (z : Z) : Prop :=
  match L with
  | [] => True
  | x :: L' => m !! x.1 = Some (mkheader (hd_addr L' z) x.2) /\ linked m L' z
  end.
(** ascending, with a gap between the blocks: neighbours are always merged *)
Fixpoint spaced (L : list block) : Prop :=
  match L with
  | [] => True
  | x :: L' => 0 <= x.2 /\ match L' with [] => True | y :: _ => bend x < y.1 end /\ spaced L'
  end.
Definition covered (L : list block) (a : Z) : Prop := exists x, x ∈ L /\ x.1 <= a < bend x.

Lemma hd_addr_app L1 L2 z : hd_addr (L1 ++ L2) z = hd_addr L1 (hd_addr L2 z).
Proof. by destruct L1. Qed.
Lemma linked_app m L1 L2 z : linked m (L1 ++ L2) z <-> linked m L1 (hd_addr L2 z) /\ linked m L2 z.
Proof.
  induction L1 as [|x L1 IH]; cbn; [tauto|]. rewrite IH, hd_addr_app. tauto.
Qed.
Lemma linked_ext m m' L z : (forall x, x ∈ L -> m' !! x.1 = m !! x.1) -> linked m L z -> linked m' L z.
Proof.
  induction L as [|x L IH]; cbn; [done|]. intros H [Hx HL]. rewrite H by by left.
  split; [done|]. apply IH; [|done]. intros y Hy. apply H. by right.
Qed.
Lemma linked_lookup m L z i x : linked m L z -> L !! i = Some x ->
  m !! x.1 = Some (mkheader (from_option fst z (L !! S i)) x.2).
Proof.
  revert i. induction L as [|y L IH]; intros i; [done|]. intros [Hy HL]. destruct i as [|i]; cbn.
  - intros [= <-]. rewrite Hy. by destruct L.
  - by apply IH.
Qed.

Lemma spaced_cons x L : spaced (x :: L) -> Forall (fun y => bend x < y.1) L.
Proof.
  revert x. induction L as [|y L IH]; intros x; [done|]. cbn [spaced]. intros (H0 & H1 & H2).
  constructor; [done|]. eapply Forall_impl; [by apply IH|]. intros z. unfold bend, HSIZE in *.
  destruct H2 as (? & _). cbn in *. lia.
Qed.
Lemma spaced_app L1 L2 : spaced (L1 ++ L2) <-> spaced L1 /\ spaced L2 /\
  (forall x y, x ∈ L1 -> y ∈ L2 -> bend x < y.1).
Proof.
  induction L1 as [|x L1 IH]; cbn [app spaced].
  { split; [intros; split_and!; [done | done | by intros ?? ?%elem_of_nil] | tauto]. }
  split.
  - intros (H0 & H1 & H2). pose proof (spaced_cons x (L1 ++ L2)) as Hc. cbn [spaced] in Hc.
    specialize (Hc ltac:(tauto)). apply IH in H2 as (S1 & S2 & S3). split_and!; try done.
    + destruct L1 as [|y L1]; [done|]. by inversion Hc.
    + intros a b [->|Ha]%elem_of_cons Hb; [|by apply S3].
      rewrite Forall_forall in Hc. apply Hc, elem_of_app. by right.
  - intros ((H0 & H1 & H2) & H3 & H4). split_and!; [done | |].
    + destruct L1 as [|y L1]; cbn; [|done]. destruct L2 as [|y L2]; [done|]. apply H4; by left.
    + apply IH. split_and!; [done..|]. intros a b Ha. apply H4. by right.
Qed.
Lemma spaced_lt L i j x y : spaced L -> L !! i = Some x -> L !! j = Some y -> (i < j)%nat -> bend x < y.1.
Proof.
  intros Hs Hx Hy Hij. rewrite <- (take_drop (S i) L) in Hs. apply spaced_app in Hs as (_ & _ & Hs).
  apply Hs.
  - apply (list_elem_of_lookup_2 _ i). by rewrite lookup_take_lt by lia.
  - apply (list_elem_of_lookup_2 _ (j - S i)). rewrite lookup_drop. replace (S i + (j - S i))%nat with j by lia. done.
Qed.
Lemma spaced_nonneg L x : spaced L -> x ∈ L -> 0 <= x.2.
Proof.
  induction L as [|y L IH]; [by intros _ ?%elem_of_nil|]. intros (H0 & _ & H) [->|Hx]%elem_of_cons; [done | auto].
Qed.
(** an address belongs to one block of the ring only *)
Lemma spaced_inj L x y : spaced L -> x ∈ L -> y ∈ L -> x.1 = y.1 -> x = y.
Proof.
  intros Hs (i & Hi)%list_elem_of_lookup (j & Hj)%list_elem_of_lookup E.
  pose proof (spaced_nonneg L x Hs (list_elem_of_lookup_2 _ _ _ Hi)).
  pose proof (spaced_nonneg L y Hs (list_elem_of_lookup_2 _ _ _ Hj)).
  destruct (lt_eq_lt_dec i j) as [[Hlt| ->]|Hlt]; [|congruence|].
  - pose proof (spaced_lt _ _ _ _ _ Hs Hi Hj Hlt). unfold bend, HSIZE in *. lia.
  - pose proof (spaced_lt _ _ _ _ _ Hs Hj Hi Hlt). unfold bend, HSIZE in *. lia.
Qed.

Section ring.
Context (base : Z).

(** the allocator's invariant: the ring starts at the empty block [base], its other
    blocks are not empty and lie above it and below the break, and [freep] points
    into it *)
Definition ring (h : heap) (L : list block) : Prop :=
  0 < base /\ (exists L', L = (base, 0) :: L' /\ Forall (fun x => 1 <= x.2) L') /\
  linked (hp_mem h) L base /\ spaced L /\ Forall (fun x => bend x <= hp_brk h) L /\
  hp_freep h ∈ L.*1 /\ base < hp_brk h <= hp_max h /\ hp_max h < 2 ^ 31.

Lemma ring_pos h L x : ring h L -> x ∈ L -> base <= x.1 /\ x.1 <> 0 /\ 0 <= x.2 < 2 ^ 27.
Proof.
  intros (Hb & (L' & -> & _) & _ & Hs & Hbrk & _ & Hmax & Hmax') Hx.
  assert (H1 : base <= x.1).
  { apply elem_of_cons in Hx as [->|Hx]; [done|]. pose proof (spaced_cons _ _ Hs) as Hc.
    rewrite Forall_forall in Hc. specialize (Hc x Hx). unfold bend, HSIZE in Hc. cbn in Hc. lia. }
  pose proof (spaced_nonneg _ _ Hs Hx). rewrite Forall_forall in Hbrk. specialize (Hbrk x Hx).
  unfold bend, HSIZE in Hbrk. lia.
Qed.
Lemma ring_size h L : ring h L -> (length L <= size (hp_mem h))%nat.
Proof.
  intros (_ & _ & Hl & Hs & _). rewrite <- size_dom.
  assert (Hnd : NoDup L.*1).
  { apply NoDup_fmap_2_strong; [intros x y Hx Hy; by apply (spaced_inj L)|].
    apply NoDup_alt. intros i j x Hi Hj. destruct (lt_eq_lt_dec i j) as [[Hlt|]|Hlt]; [|done|].
    - pose proof (spaced_lt _ _ _ _ _ Hs Hi Hj Hlt). pose proof (spaced_nonneg _ x Hs (list_elem_of_lookup_2 _ _ _ Hi)).
      unfold bend, HSIZE in *. lia.
    - pose proof (spaced_lt _ _ _ _ _ Hs Hj Hi Hlt). pose proof (spaced_nonneg _ x Hs (list_elem_of_lookup_2 _ _ _ Hi)).
      unfold bend, HSIZE in *. lia. }
  assert (length L = size (list_to_set (C := gset Z) L.*1)) as ->
    by (rewrite size_list_to_set by done; by rewrite length_fmap).
  apply subseteq_size.
  intros a (x & -> & Hx)%elem_of_list_to_set%list_elem_of_fmap. apply elem_of_dom.
  apply list_elem_of_lookup in Hx as (i & Hi). by rewrite (linked_lookup _ _ _ _ _ Hl Hi).
Qed.

(** ** Steps on headers *)
Lemma wp_ptr a x e h (Q : Z -> list (heap -> heap) -> heap -> Prop) :
  a <> 0 -> hp_mem h !! a = Some x -> Q (s_ptr x) e h -> wp (ptr a) e h Q.
Proof.
  intros Ha Hx HQ. unfold ptr, get_hdr. apply Z.eqb_neq in Ha as ->. wp_steps. unfold hdr. by rewrite Hx.
Qed.
Lemma wp_hsize a x e h (Q : Z -> list (heap -> heap) -> heap -> Prop) :
  a <> 0 -> hp_mem h !! a = Some x -> Q (s_size x) e h -> wp (hsize a) e h Q.
Proof.
  intros Ha Hx HQ. unfold hsize, get_hdr. apply Z.eqb_neq in Ha as ->. wp_steps. unfold hdr. by rewrite Hx.
Qed.
Lemma wp_set_ptr a v x e h (Q : unit -> list (heap -> heap) -> heap -> Prop) :
  a <> 0 -> hp_mem h !! a = Some x -> Q tt e (set_mem <[a := mkheader v (s_size x)]> h) -> wp (set_ptr a v) e h Q.
Proof.
  intros Ha Hx HQ. unfold set_ptr, put_hdr. apply Z.eqb_neq in Ha as ->. wp_step. unfold hdr. by rewrite Hx.
Qed.
Lemma wp_set_size a v e h (Q : unit -> list (heap -> heap) -> heap -> Prop) :
  a <> 0 -> Q tt e (set_mem <[a := mkheader (s_ptr (hdr h a)) v]> h) -> wp (set_size a v) e h Q.
Proof. intros Ha HQ. unfold set_size, put_hdr. apply Z.eqb_neq in Ha as ->. by wp_step. Qed.

(** ** The place of a block in the ring *)
Lemma wp_free_place bp L1 x L2 e h (Q : Z -> list (heap -> heap) -> heap -> Prop) :
  ring h (L1 ++ x :: L2) -> x.1 < bp -> Forall (fun y => bp < y.1) L2 ->
  Q x.1 e h -> wp (free_place bp) e h Q.
Proof.
  intros Hr Hx HL2 HQ. set (L := L1 ++ x :: L2) in *. set (j := length L1). set (k := length L).
  pose proof (ring_size _ _ Hr) as Hsz. pose proof Hr as (Hb & (L' & HL & _) & Hl & Hs & _ & Hf & _).
  assert (Hj : L !! j = Some x) by (apply list_lookup_middle; done).
  assert (Hafter : forall i y, L !! i = Some y -> (j < i)%nat -> bp < y.1).
  { intros i y Hi Hlt. rewrite Forall_forall in HL2. apply HL2. unfold L in Hi. rewrite lookup_app_r in Hi by (unfold j in *; lia).
    destruct (i - length L1)%nat as [|m] eqn:E; [unfold j in *; lia|]. cbn in Hi. by eapply list_elem_of_lookup_2. }
  change (wp (mloop (S (size (hp_mem h))) (hp_freep h) (free_step bp)) e h Q).
  apply list_elem_of_fmap in Hf as (y & Hy & Hin). rewrite Hy. clear Hy. apply list_elem_of_lookup in Hin as (i & Hi).
  assert (Hd : exists d, d = (if decide (i <= j)%nat then j - i else k - i + j)%nat /\ (d < S (size (hp_mem h)))%nat).
  { eexists. split; [done|]. apply lookup_lt_Some in Hi. apply lookup_lt_Some in Hj. unfold k in *. case_decide; lia. }
  destruct Hd as (d & Hd & Hfuel). revert i y Hi Hd. revert Hfuel. generalize (S (size (hp_mem h))) as fuel.
  assert (Hpos : forall i y, L !! i = Some y -> y.1 <> 0 /\ base <= y.1).
  { intros i y Hi. destruct (ring_pos h L y Hr) as (? & ? & _); [by eapply list_elem_of_lookup_2 | done]. }
  assert (Hasc : forall i y z, L !! i = Some y -> L !! S i = Some z -> y.1 < z.1).
  { intros i y z Hi Hz. pose proof (spaced_lt _ _ _ _ _ Hs Hi Hz ltac:(lia)).
    pose proof (spaced_nonneg _ y Hs (list_elem_of_lookup_2 _ _ _ Hi)). unfold bend, HSIZE in *. lia. }
  pose proof (Hpos j x Hj) as [_ Hxb].
  induction d as [d IH] using lt_wf_ind. intros [|fuel] Hfuel i y Hi Hd; [lia|]. cbn [mloop].
  pose proof (Hpos i y Hi) as [Hy0 Hyb]. pose proof (linked_lookup _ _ _ _ _ Hl Hi) as Hm.
  wp_step. unfold free_step at 1. wp_step. eapply wp_ptr; [done | exact Hm |]. cbn [s_ptr].
  destruct (lt_eq_lt_dec i j) as [[Hlt| ->]|Hlt].
  - destruct (lookup_lt_is_Some_2 L (S i)) as [z Hz]; [apply lookup_lt_Some in Hj; lia|]. rewrite Hz. cbn [from_option].
    pose proof (Hasc _ _ _ Hi Hz). assert (z.1 <= x.1) as Hzx.
    { destruct (decide (S i = j)) as [E|E]; [rewrite E in Hz; rewrite Hz in Hj; injection Hj as ->; done|].
      pose proof (spaced_lt _ _ _ _ _ Hs Hz Hj ltac:(lia)).
      pose proof (spaced_nonneg _ z Hs (list_elem_of_lookup_2 _ _ _ Hz)). unfold bend, HSIZE in *. lia. }
    replace (bp <? z.1) with false by lia. replace (z.1 <=? y.1) with false by lia. rewrite andb_false_r. cbn [andb].
    wp_step. rewrite decide_True in Hd by lia.
    apply (IH (j - S i)%nat ltac:(lia) fuel ltac:(lia) (S i)); [done|]. by rewrite decide_True by lia.
  - rewrite Hi in Hj. injection Hj as ->. replace (x.1 <? bp) with true by lia. cbn [andb orb].
    destruct (L !! S j) as [z|] eqn:Hz; cbn [from_option].
    + pose proof (Hafter _ _ Hz ltac:(lia)). replace (bp <? z.1) with true by lia. by wp_steps.
    + destruct (bp <? base); [by wp_steps|]. replace (base <=? x.1) with true by lia. by wp_steps.
  - pose proof (Hafter _ _ Hi Hlt). replace (y.1 <? bp) with false by lia. cbn [andb orb].
    rewrite decide_False in Hd by lia. pose proof (lookup_lt_Some _ _ _ Hi) as Hik. fold k in Hik.
    destruct (L !! S i) as [z|] eqn:Hz; cbn [from_option].
    + pose proof (Hasc _ _ _ Hi Hz). replace (z.1 <=? y.1) with false by lia. cbn [andb]. wp_step.
      apply (IH (k - S i + j)%nat ltac:(lia) fuel ltac:(lia) (S i)); [done|]. by rewrite decide_False by lia.
    + replace (bp <? base) with false by lia. rewrite andb_false_r. wp_step.
      apply lookup_ge_None in Hz. fold k in Hz.
      apply (IH (j - 0)%nat ltac:(lia) fuel ltac:(lia) 0%nat (base, 0)); [by rewrite HL|]. by rewrite decide_True by lia.
Qed.

(** ** Giving a block back *)
Definition apart (b : block) (L : list block) : Prop :=
  Forall (fun y => bend y <= b.1 \/ bend b <= y.1) L.

Lemma covered_app L1 L2 a : covered (L1 ++ L2) a <-> covered L1 a \/ covered L2 a.
Proof. unfold covered. setoid_rewrite elem_of_app. naive_solver. Qed.
Lemma covered_cons x L a : covered (x :: L) a <-> x.1 <= a < bend x \/ covered L a.
Proof. unfold covered. setoid_rewrite elem_of_cons. naive_solver. Qed.

(** the blocks below [bp] and those above it *)
Lemma place_split bp L : spaced L -> Forall (fun y => y.1 <> bp) L -> hd_addr L bp < bp ->
  exists L1 x L2, L = L1 ++ x :: L2 /\ x.1 < bp /\ Forall (fun y => bp < y.1) L2.
Proof.
  induction L as [|x L IH]; cbn [hd_addr]; [lia|]. intros Hs Hne Hx.
  destruct (decide (hd_addr L bp < bp)) as [Hlt|Hge].
  - destruct IH as (L1 & y & L2 & -> & Hy & HL2); [by apply Hs | by inversion Hne | done|].
    by exists (x :: L1), y, L2.
  - exists [], x, L. split_and!; [done..|]. destruct L as [|y L]; [done|]. cbn in Hge.
    inversion Hne as [|?? _ Hne']; subst. inversion Hne' as [|?? Hny _]; subst.
    destruct Hs as (_ & _ & Hs). constructor; [lia|]. eapply Forall_impl; [by apply spaced_cons|].
    intros z Hz. destruct Hs as (? & _). unfold bend, HSIZE in Hz. lia.
Qed.

(** merging with the block above *)
Definition merge_up (b : block) (L : list block) : block * list block :=
  match L with
  | y :: L' => if bend b =? y.1 then ((b.1, b.2 + y.2), L') else (b, L)
  | [] => (b, L)
  end.
Definition merge_down (x b : block) (L : list block) : list block :=
  if bend x =? b.1 then (x.1, x.2 + b.2) :: L else x :: b :: L.

Lemma merge_up_spec b L b' L' : merge_up b L = (b', L') -> spaced L ->
  0 <= b.2 -> Forall (fun y => bend b <= y.1) L ->
  spaced (b' :: L') /\ b'.1 = b.1 /\ b.2 <= b'.2 /\ (forall a, covered (b' :: L') a <-> covered (b :: L) a) /\
  (exists P, L = P ++ L') /\ forall B, bend b <= B -> Forall (fun y => bend y <= B) L -> bend b' <= B.
Proof.
  unfold merge_up. intros E Hs Hb Hap. destruct L as [|y L].
  { simplify_eq. split_and!; try done. by exists []. } pose proof (spaced_cons _ _ Hs) as Hy.
  inversion Hap as [|?? Hby _]; subst. destruct Hs as (H1 & H2 & H3).
  destruct (Z.eqb_spec (bend b) y.1) as [Eq|Ne]; injection E as <- <-; cbn [fst snd].
  - split_and!; try done; try lia.
    + cbn [spaced snd]. split_and!; [lia | | done]. destruct L as [|z L]; [done|]. unfold bend, HSIZE in *. cbn in *. lia.
    + intros a. rewrite !covered_cons. unfold bend, HSIZE in *. cbn [fst snd]. intuition lia.
    + by exists [y].
    + intros B HB [HBy _]%Forall_cons. unfold bend, HSIZE in *. cbn [fst snd]. lia.
  - split_and!; try done; [cbn [spaced]; split_and!; try done; lia | by exists []].
Qed.
Lemma merge_down_spec L1 x b L2 : spaced (L1 ++ [x]) -> spaced (b :: L2) -> 0 <= x.2 -> bend x <= b.1 ->
  spaced (L1 ++ merge_down x b L2) /\
  (forall a, covered (L1 ++ merge_down x b L2) a <-> covered (L1 ++ x :: b :: L2) a).
Proof.
  intros (S1 & S2 & S3)%spaced_app Hb Hx Hxb. pose proof (spaced_cons _ _ Hb) as Hc. destruct Hb as (B1 & B2 & B3).
  assert (Hlow : forall y, y ∈ L1 -> bend y < x.1) by (intros y Hy; apply (S3 y x Hy); by left).
  unfold merge_down. destruct (Z.eqb_spec (bend x) b.1) as [Eq|Ne]; split.
  - apply spaced_app. split_and!; [done | |].
    + cbn [spaced snd]. split_and!; [lia | | done]. destruct L2 as [|z L2]; [done|]. unfold bend, HSIZE in *. cbn in *. lia.
    + intros y z Hy [-> |Hz]%elem_of_cons; [by apply Hlow|]. specialize (Hlow y Hy).
      rewrite Forall_forall in Hc. specialize (Hc z Hz). unfold bend, HSIZE in *. lia.
  - intros a. rewrite !covered_app, !covered_cons. unfold bend, HSIZE in *. cbn [fst snd]. intuition lia.
  - apply spaced_app. split_and!; [done | |].
    + cbn [spaced]. split_and!; try done. lia.
    + intros y z Hy Hz. specialize (Hlow y Hy). apply elem_of_cons in Hz as [-> |Hz]; [done|].
      apply elem_of_cons in Hz as [-> |Hz]; [unfold bend, HSIZE in *; lia|].
      rewrite Forall_forall in Hc. specialize (Hc z Hz). unfold bend, HSIZE in *. lia.
  - done.
Qed.

(** the header of [b] written, linked to the blocks above it *)
Lemma wp_link_up b L v e h (Q : unit -> list (heap -> heap) -> heap -> Prop) :
  linked (hp_mem h) L base -> hp_mem h !! b.1 = Some (mkheader v b.2) -> b.1 <> 0 -> base < bend b ->
  Forall (fun y => b.1 < y.1) L -> 0 < base < b.1 -> 0 <= b.2 -> Forall (fun y => 0 <= y.2 /\ b.2 + y.2 < 2 ^ 32) L ->
  let '(b', L') := merge_up b L in
  Q tt e (set_mem <[b.1 := mkheader (hd_addr L' base) b'.2]> h) ->
  wp (if bend b =? hd_addr L base then
        nsz <- hsize (hd_addr L base);;
        set_size b.1 (u32 (b.2 + nsz));;
        nnx <- ptr (hd_addr L base);;
        set_ptr b.1 nnx
      else set_ptr b.1 (hd_addr L base)) e h Q.
Proof.
  intros Hl Hm H0 Hend Hab Hbase Hb2 Hsz. destruct (merge_up b L) as [b' L'] eqn:E. unfold merge_up in E. intros HQ.
  destruct L as [|y L]; cbn [hd_addr].
  { replace (bend b =? base) with false by lia. injection E as <- <-. by eapply wp_set_ptr. }
  destruct (Z.eqb_spec (bend b) y.1) as [Eq|Ne]; injection E as <- <-; [|by eapply wp_set_ptr].
  inversion Hab as [|?? Hy _]; subst. inversion Hsz as [|?? Hs _]; subst. destruct Hl as (Hly & _).
  wp_step. eapply wp_hsize; [lia | exact Hly |]. cbn [s_size]. rewrite u32_small by lia.
  wp_step. apply wp_set_size; [done|]. unfold hdr. rewrite Hm. cbn [default s_ptr].
  wp_step. eapply wp_ptr; [lia | cbn; rewrite lookup_insert_ne by lia; exact Hly |]. cbn [s_ptr].
  eapply wp_set_ptr; [done | cbn; apply lookup_insert_eq |]. cbn in HQ |- *. unfold set_mem in *. cbn in *.
  by rewrite insert_insert_eq.
Qed.
(** the block below [b] linked to it, or grown by it *)
Lemma wp_link_down x b L w e h (Q : unit -> list (heap -> heap) -> heap -> Prop) :
  hp_mem h !! x.1 = Some (mkheader w x.2) -> hp_mem h !! b.1 = Some (mkheader (hd_addr L base) b.2) ->
  x.1 <> 0 -> b.1 <> 0 -> x.1 <> b.1 -> 0 <= x.2 + b.2 < 2 ^ 32 ->
  Q tt e (set_mem <[x.1 := if bend x =? b.1 then mkheader (hd_addr L base) (x.2 + b.2) else mkheader b.1 x.2]> h) ->
  wp (if bend x =? b.1 then
        bsz <- hsize b.1;;
        set_size x.1 (u32 (x.2 + bsz));;
        bnx <- ptr b.1;;
        set_ptr x.1 bnx
      else set_ptr x.1 b.1) e h Q.
Proof.
  intros Hx Hb Hx0 Hb0 Hne Hsz HQ. destruct (bend x =? b.1); [|by eapply wp_set_ptr].
  wp_step. eapply wp_hsize; [done | exact Hb |]. cbn [s_size]. rewrite u32_small by lia.
  wp_step. apply wp_set_size; [done|]. unfold hdr. rewrite Hx. cbn [default s_ptr].
  wp_step. eapply wp_ptr; [done | cbn; rewrite lookup_insert_ne by done; exact Hb |]. cbn [s_ptr].
  eapply wp_set_ptr; [done | cbn; apply lookup_insert_eq |]. unfold set_mem in *. cbn in *. by rewrite insert_insert_eq.
Qed.

(** rebuilding the invariant after blocks above [L1] have changed *)
Lemma ring_tail h h' L1 x L2 T : ring h (L1 ++ x :: L2) ->
  hp_brk h' = hp_brk h -> hp_max h' = hp_max h ->
  (L1 = [] -> exists T', T = x :: T' /\ Forall (fun y => 1 <= y.2) T') -> (L1 <> [] -> Forall (fun y => 1 <= y.2) T) ->
  linked (hp_mem h') (L1 ++ T) base -> spaced (L1 ++ T) -> Forall (fun y => bend y <= hp_brk h) T ->
  hp_freep h' ∈ (L1 ++ T).*1 -> ring h' (L1 ++ T).
Proof.
  intros (Hb & (L' & HL & HF) & _ & _ & Hbrk & _ & Hmax & Hmax') E1 E2 Hnil Hcons Hl Hs HT Hf.
  apply Forall_app in Hbrk as [Hb1 _]. split_and!; rewrite ?E1, ?E2; try done.
  - destruct L1 as [|y L1].
    + destruct (Hnil eq_refl) as (T' & -> & HT'). injection HL as -> <-. by exists T'.
    + injection HL as -> <-. exists (L1 ++ T). split; [done|]. apply Forall_app in HF as [HF _].
      apply Forall_app. split; [done|]. by apply Hcons.
  - apply Forall_app. by split.
  - lia.
  - lia.
Qed.

(** the ring with [b] inserted after [x], from the headers the code has written *)
Lemma ring_merged h h' L1 x L2 b L : ring h (L1 ++ x :: L2) -> (exists P, L2 = P ++ L) ->
  x.1 < b.1 -> bend x <= b.1 -> 1 <= b.2 -> bend b <= hp_brk h -> spaced (b :: L) -> 
  hp_brk h' = hp_brk h -> hp_max h' = hp_max h -> hp_freep h' = x.1 ->
  hp_mem h' = <[x.1 := if bend x =? b.1 then mkheader (hd_addr L base) (x.2 + b.2) else mkheader b.1 x.2]>
                (<[b.1 := mkheader (hd_addr L base) b.2]> (hp_mem h)) ->
  ring h' (L1 ++ merge_down x b L).
Proof.
  intros Hr (P & ->) Hx Hxb Hb Hbrk Hsb E1 E2 E3 Em.
  pose proof Hr as (Hbase & (L' & HL & HF) & Hl & Hs & Hbrks & _ & _ & _).
  destruct (ring_pos _ _ x Hr) as (Hx1 & _ & Hx2); [apply elem_of_app; right; by left|].
  apply linked_app in Hl as [Hl1 [Hlx Hl2]]. apply linked_app in Hl2 as [_ Hl2].
  apply spaced_app in Hs as (Hs1 & Hs2 & Hs3).
  assert (Hlow : forall y, y ∈ L1 -> y.1 < x.1).
  { intros y Hy. assert (bend y < x.1) by (apply Hs3; [done | by left]). pose proof (spaced_nonneg _ y Hs1 Hy).
    unfold bend, HSIZE in *. lia. }
  destruct (merge_down_spec L1 x b L) as (Sd & _); [|done|lia|lia|].
  { apply spaced_app. split_and!; [done | cbn; lia |]. intros y z Hy ->%list_elem_of_singleton. apply Hs3; [done | by left]. }
  pose proof (spaced_cons _ _ Hsb) as Hup. rewrite Forall_forall in Hup.
  assert (HLF : Forall (fun y => 1 <= y.2) L /\ (L1 <> [] -> 1 <= x.2) /\ (L1 = [] -> x = (base, 0))).
  { destruct L1 as [|y L1]; injection HL as -> <-; [by apply Forall_app in HF as [_ ?]|].
    apply Forall_app in HF as [_ HF]. inversion HF as [|?? ? HF']; subst. by apply Forall_app in HF' as [_ ?]. }
  destruct HLF as (HLF & Hx1' & Hxnil).
  assert (HLB : Forall (fun y => bend y <= hp_brk h) L).
  { apply Forall_app in Hbrks as [_ Hbrks]. inversion Hbrks as [|?? ? HB]; subst. by apply Forall_app in HB as [_ ?]. }
  assert (HxB : bend x <= hp_brk h).
  { rewrite Forall_forall in Hbrks. apply Hbrks, elem_of_app. right. by left. }
  assert (Hhigh : forall y, y ∈ L -> x.1 < y.1 /\ b.1 < y.1).
  { intros y Hy. specialize (Hup y Hy). unfold bend, HSIZE in Hup. lia. }
  eapply ring_tail; [exact Hr | done | done | | | | done | |]; unfold merge_down in *; rewrite ?E3.
  - intros Hn. rewrite (Hxnil Hn) in *. unfold bend, HSIZE in *. cbn [fst snd] in *. replace (base + 16 * 0 =? b.1) with false by lia.
    exists (b :: L). split; [done|]. by constructor.
  - intros Hn. specialize (Hx1' Hn). destruct (bend x =? b.1); repeat constructor; cbn [snd]; try done; lia.
  - rewrite Em. apply linked_app. split.
    + eapply linked_ext; [|destruct (bend x =? b.1); exact Hl1]. intros y Hy. specialize (Hlow y Hy).
      by rewrite !lookup_insert_ne by lia.
    + assert (linked (<[x.1:=if bend x =? b.1 then mkheader (hd_addr L base) (x.2 + b.2) else mkheader b.1 x.2]>
        (<[b.1:=mkheader (hd_addr L base) b.2]> (hp_mem h))) L base).
      { eapply linked_ext; [|exact Hl2]. intros y Hy. specialize (Hhigh y Hy). by rewrite !lookup_insert_ne by lia. }
      destruct (bend x =? b.1); cbn [linked hd_addr fst snd]; rewrite lookup_insert_eq; [done|].
      rewrite lookup_insert_ne, lookup_insert_eq by lia. done.
  - destruct (Z.eqb_spec (bend x) b.1) as [E|E]; repeat constructor; try done. unfold bend, HSIZE in *. cbn [fst snd]. lia.
  - apply list_elem_of_fmap. destruct (bend x =? b.1).
    + exists (x.1, x.2 + b.2). split; [done|]. apply elem_of_app. right. by left.
    + exists x. split; [done|]. apply elem_of_app. right. by left.
Qed.

Lemma wp_free_at b L1 x L2 v e h (Q : unit -> list (heap -> heap) -> heap -> Prop) :
  ring h (L1 ++ x :: L2) -> x.1 < b.1 -> Forall (fun y => b.1 < y.1) L2 ->
  hp_mem h !! b.1 = Some (mkheader v b.2) -> 1 <= b.2 -> bend b <= hp_brk h -> apart b (L1 ++ x :: L2) ->
  let '(b', L2') := merge_up b L2 in
  (forall h', ring h' (L1 ++ merge_down x b' L2') -> hp_brk h' = hp_brk h -> hp_max h' = hp_max h ->
     (forall a, a <> b.1 -> a <> x.1 -> hp_mem h' !! a = hp_mem h !! a) -> Q tt e h') ->
  wp (free (b.1 + HSIZE)) e h Q.
Proof.
  intros Hr Hx HL2 Hm Hn Hbrk Hap. destruct (merge_up b L2) as [b' L2'] eqn:Eup. intros HQ.
  pose proof Hr as (Hbase & (L' & HL & HF) & Hl & Hs & Hbrks & Hf & Hmax & Hmax').
  destruct (ring_pos _ _ x Hr) as (Hxb & Hx0 & Hx2); [apply elem_of_app; right; by left|].
  assert (Hpos : forall y, y ∈ L2 -> 1 <= y.2 < 2 ^ 27).
  { intros y Hy. split; [|apply (ring_pos _ _ y Hr); apply elem_of_app; right; by right].
    rewrite Forall_forall in HF. apply HF. destruct L1; injection HL as -> <-; [done|].
    apply elem_of_app. right. by right. }
  apply linked_app in Hl as [Hl1 [Hlx Hl2]]. pose proof Hs as (Hs1 & Hs2 & Hs3)%spaced_app.
  unfold apart in Hap. apply Forall_app in Hap as [Hap1 Hap2]. apply Forall_cons in Hap2 as [Hapx Hap2].
  assert (Hxend : bend x <= b.1) by (unfold bend, HSIZE in *; lia).
  assert (Hab2 : Forall (fun y => bend b <= y.1) L2).
  { rewrite Forall_forall in Hap2, HL2 |- *. intros y Hy. specialize (Hap2 y Hy). specialize (HL2 y Hy).
    specialize (Hpos y Hy). unfold bend, HSIZE in *. lia. }
  destruct (merge_up_spec _ _ _ _ Eup) as (Su & Eb & Hb' & _ & HP & HB); [by apply Hs2 | lia | done|].
  specialize (HB (hp_brk h) Hbrk). apply Forall_app in Hbrks as [_ Hbrks]. inversion Hbrks as [|?? HxB Hbrks2]; subst.
  specialize (HB Hbrks2).
  unfold free. replace (b.1 + HSIZE - HSIZE) with b.1 by lia.
  wp_step. eapply wp_free_place; [exact Hr | done | done |].
  wp_step. eapply wp_ptr; [done | exact Hlx |]. wp_step. eapply wp_hsize; [lia | exact Hm |]. cbn [s_ptr s_size].
  wp_step. fold (bend b).
  pose proof (wp_link_up b L2 v e h) as Hup. rewrite Eup in Hup. eapply Hup; clear Hup; try done; try lia.
  { unfold bend, HSIZE. lia. }
  { rewrite Forall_forall. intros y Hy. specialize (Hpos y Hy). unfold bend, HSIZE in Hbrk. lia. }
  wp_step. eapply wp_hsize; [done | cbn; rewrite lookup_insert_ne by lia; exact Hlx |]. cbn [s_size].
  wp_step. fold (bend x). rewrite <- Eb.
  eapply wp_link_down.
  - cbn. rewrite Eb, lookup_insert_ne by lia. exact Hlx.
  - cbn. rewrite Eb. apply lookup_insert_eq.
  - done.
  - lia.
  - lia.
  - unfold bend, HSIZE in *. lia.
  - wp_step. apply HQ; try done.
    + eapply (ring_merged h _ L1 x L2 b' L2'); try done; try lia.
    + intros a Ha1 Ha2. cbn. by rewrite !lookup_insert_ne by congruence.
Qed.

Lemma ring_block_pos h L x : ring h L -> x ∈ L -> x = (base, 0) \/ base < x.1 /\ 1 <= x.2.
Proof.
  intros (_ & (L' & -> & HF) & _ & Hs & _) [-> |Hx]%elem_of_cons; [by left|]. right.
  pose proof (spaced_cons _ _ Hs) as Hc. rewrite Forall_forall in Hc, HF. specialize (Hc x Hx). specialize (HF x Hx).
  unfold bend, HSIZE in Hc. cbn in *. lia.
Qed.
Lemma merge_covered b x L1 L2 b' L2' : merge_up b L2 = (b', L2') -> spaced (L1 ++ x :: L2) ->
  1 <= b.2 -> bend x <= b.1 -> Forall (fun y => bend b <= y.1) L2 ->
  (forall a, covered (L1 ++ merge_down x b' L2') a <-> covered (L1 ++ x :: L2) a \/ b.1 <= a < bend b) /\
  (exists y, y ∈ L1 ++ merge_down x b' L2' /\ y.1 <= b.1 /\ bend b <= bend y) /\
  (length (L1 ++ merge_down x b' L2') <= S (length (L1 ++ x :: L2)))%nat.
Proof.
  intros Eup (Hs1 & Hs2 & Hs3)%spaced_app Hb Hx Hab.
  destruct (merge_up_spec _ _ _ _ Eup) as (Su & Eb & Hb' & Cu & (P & HP) & _); [by apply Hs2 | lia | done|].
  assert (Hx2 : 0 <= x.2) by apply Hs2.
  destruct (merge_down_spec L1 x b' L2') as (_ & Cd); [|done|lia|lia|].
  { apply spaced_app. split_and!; [done | cbn; lia |]. intros y z Hy ->%list_elem_of_singleton. apply Hs3; [done | by left]. }
  split_and!.
  - intros a. rewrite Cd, !covered_app, !covered_cons. rewrite <- covered_cons, Cu, covered_cons. tauto.
  - unfold merge_down. destruct (Z.eqb_spec (bend x) b'.1) as [E|E].
    + exists (x.1, x.2 + b'.2). split; [apply elem_of_app; right; by left|]. unfold bend, HSIZE in *. cbn [fst snd]. lia.
    + exists b'. split; [apply elem_of_app; right; right; by left|]. unfold bend, HSIZE in *. lia.
  - rewrite !length_app. cbn [length]. subst L2. rewrite length_app. unfold merge_down. case_match; cbn [length]; lia.
Qed.

(** what [free] promises: the free memory grows by exactly the block, and no header
    outside the free memory is touched *)
Definition freed (b : block) (h : heap) (L : list block) (h' : heap) (L' : list block) : Prop :=
  ring h' L' /\ hp_brk h' = hp_brk h /\ hp_max h' = hp_max h /\
  (forall a, covered L' a <-> covered L a \/ b.1 <= a < bend b) /\
  (exists y, y ∈ L' /\ y.1 <= b.1 /\ bend b <= bend y) /\ (length L' <= S (length L))%nat /\
  (forall a, ~ covered L a -> a <> base -> a <> b.1 -> hp_mem h' !! a = hp_mem h !! a).
Lemma wp_free b L v e h : ring h L -> base < b.1 -> hp_mem h !! b.1 = Some (mkheader v b.2) ->
  1 <= b.2 -> bend b <= hp_brk h -> apart b L ->
  wp (free (b.1 + HSIZE)) e h (fun _ e' h' => e' = e /\ exists L', freed b h L h' L').
Proof.
  intros Hr Hb Hm Hn Hbrk Hap. pose proof Hr as (_ & (L0 & HL & _) & _ & Hs & _).
  assert (Hne : Forall (fun y => y.1 <> b.1) L).
  { unfold apart in Hap. rewrite Forall_forall in Hap |- *. intros y Hy. specialize (Hap y Hy).
    destruct (ring_block_pos _ _ y Hr Hy) as [-> | []]; unfold bend, HSIZE in *; cbn in *; lia. }
  destruct (place_split b.1 L Hs Hne) as (L1 & x & L2 & -> & Hx & HL2); [by rewrite HL|].
  pose proof (wp_free_at b L1 x L2 v e h) as Hw. destruct (merge_up b L2) as [b' L2'] eqn:Eup.
  apply Hw; clear Hw; try done. intros h' Hr' E1 E2 Hfr. split; [done|].
  unfold apart in Hap. rewrite Forall_forall in Hap.
  assert (Hin : forall y, y ∈ L2 -> y ∈ L1 ++ x :: L2) by (intros; apply elem_of_app; right; by right).
  assert (Hxin : x ∈ L1 ++ x :: L2) by (apply elem_of_app; right; by left).
  destruct (merge_covered b x L1 L2 b' L2') as (Hc & Hy & Hlen); [done.. | | |].
  { specialize (Hap x Hxin). unfold bend, HSIZE in *. lia. }
  { rewrite Forall_forall in HL2 |- *. intros y Hy. specialize (Hap y (Hin y Hy)). specialize (HL2 y Hy).
    destruct (ring_block_pos _ _ y Hr (Hin y Hy)) as [-> | []]; unfold bend, HSIZE in *; cbn in *; lia. }
  eexists. split_and!; try done. intros a Ha Hab Han. apply Hfr; [done|]. intros ->.
  destruct (ring_block_pos _ _ x Hr Hxin) as [-> | []]; [done|]. apply Ha. exists x. unfold bend, HSIZE. split; [done | lia].
Qed.

(** ** Taking a block *)

(** what [malloc] promises when it finds memory: a block of [n] units out of the free
    memory, the rest of which stays free *)
Definition taken (n : Z) (h : heap) (L : list block) (bp : Z) (h' : heap) (L' : list block) : Prop :=
  ring h' L' /\ hp_brk h' = hp_brk h /\ hp_max h' = hp_max h /\
  base < bp /\ bend (bp, n) <= hp_brk h' /\ apart (bp, n) L' /\
  (exists v, hp_mem h' !! bp = Some (mkheader v n)) /\
  (forall a, covered L a <-> covered L' a \/ bp <= a < bend (bp, n)) /\
  (forall a, ~ covered L a -> a <> base -> hp_mem h' !! a = hp_mem h !! a).

(** the memory of one block replaced by that of the blocks [T] and the taken one *)
Lemma taken_intro n h h' L1 x L2 T bp v : ring h (L1 ++ x :: L2) -> L1 <> [] ->
  hp_brk h' = hp_brk h -> hp_max h' = hp_max h -> hp_freep h' ∈ L1.*1 ->
  (T = [] /\ bp = x.1 /\ n = x.2 \/ T = [(x.1, x.2 - n)] /\ 1 <= n < x.2 /\ bp = bend (x.1, x.2 - n)) ->
  linked (hp_mem h') (L1 ++ T ++ L2) base -> hp_mem h' !! bp = Some (mkheader v n) ->
  (forall a, ~ covered (L1 ++ x :: L2) a -> a <> base -> hp_mem h' !! a = hp_mem h !! a) ->
  taken n h (L1 ++ x :: L2) bp h' (L1 ++ T ++ L2).
Proof.
  intros Hr Hne E1 E2 Hf HT Hl Hm Hfr. pose proof Hr as (Hb & (L0 & HL & HF) & _ & Hs & Hbrk & _ & Hmax & Hmax').
  apply spaced_app in Hs as (S1 & S2 & S3). pose proof (spaced_cons _ _ S2) as Hc. destruct S2 as (X1 & X2 & S2).
  assert (Hx1 : base < x.1 /\ 1 <= x.2).
  { destruct L1 as [|y L1]; [done|]. injection HL as -> <-. rewrite Forall_forall in HF.
    split; [|apply HF, elem_of_app; right; by left]. assert (bend (base, 0) < x.1) by (apply S3; by left).
    unfold bend, HSIZE in *. cbn in *. lia. }
  assert (Hxb : bend x <= hp_brk h) by (rewrite Forall_forall in Hbrk; apply Hbrk, elem_of_app; right; by left).
  assert (H3x : forall y, y ∈ L1 -> bend y < x.1) by (intros y Hy; apply S3; [done | by left]).
  assert (H3L : forall y z, y ∈ L1 -> z ∈ L2 -> bend y < z.1) by (intros y z Hy Hz; apply S3; [done | by right]).
  assert (HT' : spaced (T ++ L2) /\ Forall (fun y => 1 <= y.2 /\ x.1 <= y.1 /\ bend y <= bp) T /\ x.1 <= bp /\ bend (bp, n) = bend x /\
    forall a, x.1 <= a < bend x <-> covered T a \/ bp <= a < bend (bp, n)).
  { destruct HT as [(-> & -> & ->)|(-> & Hn & ->)].
    - destruct x; cbn in *. split_and!; try done. intros a. split; [by right|]. intros [(? & ?%elem_of_nil & _)|]; done.
    - split_and!.
      + cbn [app spaced snd]. split_and!; [lia | | done]. destruct L2 as [|z L2]; [done|]. unfold bend, HSIZE in *. cbn in *. lia.
      + repeat constructor; cbn; lia.
      + unfold bend, HSIZE. cbn. lia.
      + unfold bend, HSIZE. cbn. lia.
      + intros a. rewrite covered_cons. unfold bend, HSIZE. cbn. split; [lia|]. intros [[|(? & ?%elem_of_nil & _)]|]; [lia | done | lia]. }
  destruct HT' as (ST & HTF & Hbp & Hend & HTc). rewrite Forall_forall in HTF, Hc.
  split_and!; try done; try lia.
  - eapply ring_tail; [exact Hr | done | done | done | | done | | |].
    + intros _. apply Forall_app. split; [rewrite Forall_forall; apply HTF|]. destruct L1; [done|]. injection HL as -> <-.
      apply Forall_app in HF as [_ HF]. by inversion HF.
    + apply spaced_app. split_and!; [done..|]. intros y z Hy [Hz|Hz]%elem_of_app; [|by apply H3L].
      specialize (H3x y Hy). specialize (HTF z Hz). lia.
    + apply Forall_app in Hbrk as [_ Hbrk]. inversion Hbrk; subst. apply Forall_app. split; [|done].
      rewrite Forall_forall. intros y Hy. specialize (HTF y Hy). unfold bend, HSIZE in *. cbn in Hend. lia.
    + rewrite fmap_app. apply elem_of_app. by left.
  - unfold apart. rewrite Forall_forall. intros y [Hy|[Hy|Hy]%elem_of_app]%elem_of_app; cbn [fst].
    + specialize (H3x y Hy). lia.
    + specialize (HTF y Hy). lia.
    + specialize (Hc y Hy). lia.
  - by exists v.
  - intros a. rewrite !covered_app, covered_cons, HTc. tauto.
Qed.

Lemma wp_take_block n L1 w x L2 e h : ring h (L1 ++ w :: x :: L2) -> 1 <= n <= x.2 ->
  wp (take_block n w.1 x.1 x.2) e h (fun r e' h' =>
    e' = e /\ exists bp L', r = bp + HSIZE /\ taken n h (L1 ++ w :: x :: L2) bp h' L').
Proof.
  intros Hr Hn. pose proof Hr as (Hbase & (L0 & HL & _) & Hl & Hs & _).
  assert (Hwin : w ∈ L1 ++ w :: x :: L2) by (apply elem_of_app; right; by left).
  assert (Hxin : x ∈ L1 ++ w :: x :: L2) by (apply elem_of_app; right; right; by left).
  destruct (ring_pos _ _ _ Hr Hwin) as (Hwb & Hw0 & Hw2). destruct (ring_pos _ _ _ Hr Hxin) as (Hxb & Hx0 & Hx2).
  pose proof (ring_block_pos _ _ _ Hr Hwin) as Hwpos.
  assert (HL' : forall T, L1 ++ w :: T = (L1 ++ [w]) ++ T) by (intros; by rewrite <- app_assoc).
  rewrite HL' in Hr, Hs, Hl, Hxin, Hwin |- *. pose proof Hl as (Hlw & Hlx & Hl2)%linked_app. cbn [hd_addr] in Hlw.
  apply spaced_app in Hs as (S1 & S2 & S3). pose proof (spaced_cons _ _ S2) as Hc. rewrite Forall_forall in Hc.
  assert (H3x : forall y, y ∈ L1 ++ [w] -> bend y < x.1) by (intros y Hy; apply S3; [done | by left]).
  assert (Hwx : w.1 < x.1).
  { specialize (H3x w ltac:(apply elem_of_app; right; by left)). unfold bend, HSIZE in H3x. lia. }
  assert (Hlow : forall y, y ∈ L1 -> y.1 < w.1).
  { intros y Hy. apply spaced_app in S1 as (S11 & _ & S13). specialize (S13 y w Hy ltac:(by left)).
    pose proof (spaced_nonneg _ y S11 Hy). unfold bend, HSIZE in S13. lia. }
  assert (Hne : L1 ++ [w] <> []) by (by destruct L1).
  assert (Hwf : w.1 ∈ (L1 ++ [w]).*1) by (rewrite fmap_app; apply elem_of_app; right; by left).
  unfold take_block. destruct (Z.eqb_spec x.2 n) as [En|Hneq]; [subst n|].
  - wp_step. wp_step. eapply wp_ptr; [done | exact Hlx |]. cbn [s_ptr].
    apply linked_app in Hlw as [Hl1 [Hlw _]]. cbn [hd_addr] in *.
    wp_step. eapply wp_set_ptr; [done | exact Hlw |]. wp_steps. split; [done|]. exists x.1. eexists. split; [done|].
    apply (taken_intro x.2 h _ (L1 ++ [w]) x L2 [] x.1 (hd_addr L2 base)); try done; cbn [hp_mem set_mem set_freep s_size app].
    + by left.
    + rewrite <- HL'. apply linked_app. split; [|split].
      * eapply linked_ext; [|exact Hl1]. intros y Hy. specialize (Hlow y Hy). by rewrite lookup_insert_ne by lia.
      * cbn. by rewrite lookup_insert_eq.
      * eapply linked_ext; [|exact Hl2]. intros y Hy. specialize (Hc y Hy). unfold bend, HSIZE in Hc.
        by rewrite lookup_insert_ne by lia.
    + by rewrite lookup_insert_ne by lia.
    + intros a Ha Hab. rewrite lookup_insert_ne; [done|]. intros <-. destruct Hwpos as [-> | []]; [done|].
      apply Ha. exists w. split; [done|]. unfold bend, HSIZE. lia.
  - rewrite (u32_small (x.2 - n)) by lia. wp_step. wp_step. apply wp_set_size; [done|].
    wp_step. apply wp_set_size; [unfold HSIZE; lia|]. wp_steps. split; [done|].
    set (q := x.1 + HSIZE * (x.2 - n)). exists q. eexists. split; [done|].
    assert (Hq : x.1 < q /\ q < bend x) by (unfold q, bend, HSIZE; lia).
    eapply (taken_intro n h _ (L1 ++ [w]) x L2 [(x.1, x.2 - n)] q); try done; cbn [hp_mem set_mem set_freep s_size app].
    + right. split_and!; try done; lia.
    + apply linked_app. split; [|split].
      * eapply linked_ext; [|exact Hlw]. intros y Hy. specialize (H3x y Hy). pose proof (spaced_nonneg _ y S1 Hy). 
        unfold bend, HSIZE in H3x. by rewrite !lookup_insert_ne by lia.
      * cbn [fst snd]. rewrite lookup_insert_ne, lookup_insert_eq by lia. unfold hdr. by rewrite Hlx.
      * eapply linked_ext; [|exact Hl2]. intros y Hy. specialize (Hc y Hy). by rewrite !lookup_insert_ne by (unfold bend, HSIZE in *; lia).
    + apply lookup_insert_eq.
    + intros a Ha Hab. rewrite !lookup_insert_ne; [done | |]; intros <-; apply Ha; exists x; (split; [done|]); unfold bend, HSIZE in *; lia.
Qed.

(** ** More memory *)
Definition more_units (n : Z) : Z := Z.max n 4096.
Lemma wp_morecore n L e h : ring h L -> 1 <= n -> HSIZE * n < 2 ^ 31 ->
  wp (morecore n) e h (fun r e' h' => e' = e /\
    (r = 0 /\ h' = h /\ hp_max h < hp_brk h + HSIZE * more_units n \/
     r = hp_freep h' /\ r <> 0 /\ exists L', ring h' L' /\ hp_brk h' = hp_brk h + HSIZE * more_units n /\
       hp_max h' = hp_max h /\ (forall a, covered L' a <-> covered L a \/ hp_brk h <= a < hp_brk h') /\
       (exists y, y ∈ L' /\ n <= y.2) /\ (length L' <= S (length L))%nat /\
       (forall a, ~ covered L a -> a <> base -> a < hp_brk h -> hp_mem h' !! a = hp_mem h !! a))).
Proof.
  intros Hr Hn Hlt. pose proof Hr as (Hbase & HL & Hl & Hs & Hbrk & Hf & Hmax & Hmax'). unfold morecore.
  replace (if n <? 4096 then 4096 else n) with (more_units n) by (unfold more_units; destruct (Z.ltb_spec n 4096); lia).
  assert (Hu : 4096 <= more_units n /\ n <= more_units n /\ HSIZE * more_units n < 2 ^ 31) by (unfold more_units, HSIZE in *; lia).
  rewrite s32_small by (unfold HSIZE in *; lia). rewrite (Z.mul_comm _ HSIZE).
  wp_step. unfold sbrk. wp_steps. destruct (Z.ltb_spec (hp_max h) (hp_brk h + HSIZE * more_units n)) as [Hno|Hok].
  { wp_steps. cbn. wp_steps. split; [done|]. by left. }
  wp_steps. replace (hp_brk h =? -1) with false by lia. wp_step. apply wp_set_size; [lia|].
  set (b := (hp_brk h, more_units n)). set (h1 := set_mem _ _).
  rewrite Forall_forall in Hbrk.
  assert (Hbelow : forall y, y ∈ L -> y.1 < hp_brk h).
  { intros y Hy. specialize (Hbrk y Hy). destruct (ring_block_pos _ _ _ Hr Hy) as [-> | []]; [cbn; lia|].
    unfold bend, HSIZE in *. lia. }
  assert (Hr1 : ring h1 L).
  { split_and!; try done; cbn; try lia; [| | unfold HSIZE in *; lia].
    - eapply linked_ext; [|exact Hl]. intros y Hy. specialize (Hbelow y Hy). by rewrite lookup_insert_ne by lia.
    - rewrite Forall_forall. intros y Hy. specialize (Hbrk y Hy). unfold HSIZE in *. lia. }
  wp_step. eapply wp_mono; [eapply (wp_free b L _ e h1 Hr1)|].
  - cbn. lia.
  - cbn. by rewrite lookup_insert_eq.
  - cbn. lia.
  - done.
  - unfold apart. rewrite Forall_forall. intros y Hy. left. apply Hbrk, Hy.
  - intros [] e' h' (-> & L' & Hr' & E1 & E2 & Hc & (y & Hy & Hy1 & Hy2) & Hlen & Hfr). wp_step. split; [done|]. right.
    split; [done|]. pose proof Hr' as (_ & _ & _ & _ & _ & Hf' & _ & _).
    apply list_elem_of_fmap in Hf' as (x & -> & Hx). split; [by apply (ring_pos _ _ _ Hr' Hx)|].
    exists L'. split_and!; try done.
    + intros a. rewrite Hc, E1. done.
    + exists y. split; [done|]. unfold bend, HSIZE in Hy2. cbn in *. lia.
    + intros a Ha Hab Han. rewrite Hfr by (cbn; try done; lia). cbn. by rewrite lookup_insert_ne by lia.
Qed.

(** ** The search *)
Definition dist (k c f : nat) : nat := (if decide (c <= f) then f - c else k - c + f)%nat.
Lemma wp_search n L f sf Q : forall fuel e h c y pc,
  ring h L -> 1 <= n -> L !! f = Some (hp_freep h, sf) ->
  L !! c = Some y -> (forall c', c = S c' -> exists w, L !! c' = Some w /\ pc = w.1) ->
  (forall bp h' L', taken n h L bp h' L' -> Q (bp + HSIZE) e h') ->
  ((forall x, x ∈ L -> x.2 < n) -> forall fuel', (fuel <= fuel' + S (dist (length L) c f))%nat ->
     wp (morecore n) e h (fun p e' h' => if p =? 0 then Q 0 e' h' else
       wp (ptr p) e' h' (fun nx e'' h'' => wp (mloop fuel' (p, nx) (malloc_step n)) e'' h'' Q))) ->
  (forall i x, L !! i = Some x -> (if decide (c <= f)%nat then i < c \/ f < i else f < i < c)%nat -> x.2 < n) ->
  (dist (length L) c f < fuel)%nat ->
  wp (mloop fuel (pc, y.1) (malloc_step n)) e h Q.
Proof.
  induction fuel as [|fuel IH]; intros e h c y pc Hr Hn Hf Hc Hpc Hfound Hnone Hvis Hd; [lia|]. cbn [mloop].
  pose proof Hr as (Hb & (L0 & HL & _) & Hl & Hs & _). pose proof (list_elem_of_lookup_2 _ _ _ Hc) as Hin.
  destruct (ring_pos _ _ _ Hr Hin) as (_ & Hy0 & _). pose proof (linked_lookup _ _ _ _ _ Hl Hc) as Hm.
  wp_step. unfold malloc_step at 1. wp_step. eapply wp_hsize; [done | exact Hm |]. cbn [s_size].
  destruct (Z.leb_spec n y.2) as [Hfit|Hno].
  - destruct c as [|c]; [rewrite HL in Hc; injection Hc as <-; cbn in Hfit; lia|].
    destruct (Hpc c eq_refl) as (w & Hw & ->).
    assert (HLs : L = take c L ++ w :: y :: drop (S (S c)) L).
    { rewrite <- (take_drop c L) at 1. by rewrite (drop_S _ _ _ Hw), (drop_S _ _ _ Hc). }
    wp_step. eapply wp_mono; [eapply wp_take_block; [rewrite <- HLs; done | done]|].
    intros r e' h' (-> & bp & L' & -> & Ht). wp_steps. eapply Hfound. by rewrite HLs.
  - wp_step. wp_step. pose proof (lookup_lt_Some _ _ _ Hc) as Hck. pose proof (lookup_lt_Some _ _ _ Hf) as Hfk.
    destruct (Z.eqb_spec y.1 (hp_freep h)) as [Ey|Ney].
    + assert (c = f) as ->.
      { destruct (lt_eq_lt_dec c f) as [[Hlt| ->]|Hlt]; [|done|].
        - pose proof (spaced_lt _ _ _ _ _ Hs Hc Hf Hlt). pose proof (spaced_nonneg _ _ Hs Hin). unfold bend, HSIZE in *. cbn in *. lia.
        - pose proof (spaced_lt _ _ _ _ _ Hs Hf Hc Hlt). pose proof (spaced_nonneg _ _ Hs (list_elem_of_lookup_2 _ _ _ Hf)).
          unfold bend, HSIZE in *. cbn in *. lia. }
      wp_step. eapply wp_mono; [apply Hnone with (fuel' := fuel)|].
      * intros x (i & Hi)%list_elem_of_lookup. destruct (decide (i = f)) as [->|Hif].
        { rewrite Hc in Hi. by injection Hi as <-. }
        apply (Hvis i x Hi). rewrite decide_True by done. lia.
      * unfold dist. rewrite decide_True by done. lia.
      * intros p e' h'. cbn beta. destruct (p =? 0); intros Hp; wp_steps; [done|]. eapply wp_mono; [exact Hp|].
        intros nx e'' h'' Hnx. wp_steps. done.
    + assert (Hcf : c <> f) by (intros ->; rewrite Hf in Hc; by injection Hc as <-).
      wp_step. eapply wp_ptr; [done | exact Hm |]. wp_steps. cbn [s_ptr].
      assert (Hnext : exists c' z, L !! c' = Some z /\ from_option fst base (L !! S c) = z.1 /\
        (c' = S c \/ c' = 0%nat /\ S c = length L)).
      { destruct (L !! S c) as [z|] eqn:Ez; [by exists (S c), z; auto|]. apply lookup_ge_None in Ez.
        exists 0%nat, (base, 0). rewrite HL. split_and!; [done..|]. rewrite HL in Ez, Hck. right. split; [done | lia]. }
      destruct Hnext as (c' & z & Hz & -> & Hc').
      assert (Hdist : dist (length L) c f = S (dist (length L) c' f)).
      { unfold dist. destruct Hc' as [-> |[-> E]]; repeat case_decide; lia. }
      apply (IH e h c' z y.1); try done; [| | | lia].
      * intros c'' ->. destruct Hc' as [[= ->]|[]]; [|done]. by exists y.
      * intros Hall fuel' Hfu. apply Hnone; [done | lia].
      * intros i x Hi Hv. destruct (decide (i = c)) as [->|Hic]; [rewrite Hc in Hi; by injection Hi as <-|].
        apply (Hvis i x Hi). pose proof (lookup_lt_Some _ _ _ Hi). revert Hv.
        destruct Hc' as [-> |[-> E]]; repeat case_decide; lia.
Qed.

(** ** What [malloc] promises *)
Definition units (nbytes : Z) : Z := (nbytes + HSIZE - 1) / HSIZE + 1.

(** before the first call there is no ring *)
Definition alloc_inv (h : heap) (L : list block) : Prop :=
  ring h L \/
  hp_freep h = 0 /\ L = [] /\ 0 < base /\ base < hp_brk h <= hp_max h /\ hp_max h < 2 ^ 31.

(** no block is large enough and the kernel does not grant more: null, and nothing changes *)
Definition malloc_fails (n : Z) (h : heap) (L : list block) (h' : heap) : Prop :=
  Forall (fun x => x.2 < n) L /\ hp_max h < hp_brk h + HSIZE * more_units n /\ hp_brk h' = hp_brk h /\
  exists L', ring h' L' /\ (forall a, covered L' a <-> covered L a) /\
  (forall a, a <> base -> hp_mem h' !! a = hp_mem h !! a).
(** a block of [n] units at [bp], from the free memory and what [sbrk] may have added *)
Definition malloc_gives (n : Z) (h : heap) (L : list block) (bp : Z) (h' : heap) (L' : list block) : Prop :=
  ring h' L' /\ base < bp /\ bend (bp, n) <= hp_brk h' /\ apart (bp, n) L' /\
  (hp_brk h' = hp_brk h \/ Forall (fun x => x.2 < n) L /\ hp_brk h' = hp_brk h + HSIZE * more_units n) /\
  (exists v, hp_mem h' !! bp = Some (mkheader v n)) /\
  (forall a, covered L a \/ hp_brk h <= a < hp_brk h' <-> covered L' a \/ bp <= a < bend (bp, n)) /\
  (forall a, ~ covered L a -> a <> base -> a < hp_brk h -> hp_mem h' !! a = hp_mem h !! a).

(** once round the ring, from the block after [freep] to [freep] itself *)
Lemma wp_round n L f x e h fuel Q : ring h L -> 1 <= n -> L !! f = Some x -> hp_freep h = x.1 -> (length L <= fuel)%nat ->
  (forall bp h' L', taken n h L bp h' L' -> Q (bp + HSIZE) e h') ->
  ((forall x, x ∈ L -> x.2 < n) -> forall fuel', (fuel <= fuel' + length L)%nat ->
     wp (morecore n) e h (fun p e' h' => if p =? 0 then Q 0 e' h' else
       wp (ptr p) e' h' (fun nx e'' h'' => wp (mloop fuel' (p, nx) (malloc_step n)) e'' h'' Q))) ->
  wp (mloop fuel (x.1, from_option fst base (L !! S f)) (malloc_step n)) e h Q.
Proof.
  intros Hr Hn Hf Hfp Hfuel Hfound Hnone. pose proof Hr as (_ & (L0 & HL & _) & _).
  pose proof (lookup_lt_Some _ _ _ Hf) as Hfk.
  assert (Hf' : L !! f = Some (hp_freep h, x.2)) by (rewrite Hfp; by destruct x).
  destruct (L !! S f) as [y|] eqn:Hy; cbn [from_option].
  - pose proof (lookup_lt_Some _ _ _ Hy).
    assert (Hd : S (dist (length L) (S f) f) = length L) by (unfold dist; case_decide; lia).
    apply (wp_search n L f x.2 Q fuel e h (S f) y); try done; [| | | lia].
    + intros c' [= <-]. by exists x.
    + intros Hall fuel'. rewrite Hd. by apply Hnone.
    + intros i z _. case_decide; lia.
  - apply lookup_ge_None in Hy.
    assert (Hd : S (dist (length L) 0 f) = length L) by (unfold dist; case_decide; lia).
    apply (wp_search n L f x.2 Q fuel e h 0 (base, 0)); try done; [by rewrite HL | | | lia].
    + intros Hall fuel'. rewrite Hd. by apply Hnone.
    + intros i z Hi%lookup_lt_Some. case_decide; lia.
Qed.
Lemma taken_gives n h0 h L0 L bp h' L' : taken n h L bp h' L' ->
  (hp_brk h = hp_brk h0 /\ L = L0 /\ hp_mem h = hp_mem h0 \/
   Forall (fun x => x.2 < n) L0 /\ hp_brk h = hp_brk h0 + HSIZE * more_units n) ->
  (forall a, covered L a <-> covered L0 a \/ hp_brk h0 <= a < hp_brk h) ->
  (forall a, ~ covered L0 a -> a <> base -> a < hp_brk h0 -> hp_mem h !! a = hp_mem h0 !! a) ->
  malloc_gives n h0 L0 bp h' L'.
Proof.
  intros (Hr & E1 & E2 & Hb & Hend & Hap & Hhd & Hcov & Hfr) Hor Hc Hf. split_and!; try done.
  - rewrite E1. destruct Hor as [(? & _)|[]]; [by left | by right].
  - intros a. by rewrite E1, <- Hc, Hcov.
  - intros a Ha Hab Hlt. rewrite Hfr; [by apply Hf | | done]. rewrite Hc. intros [|]; [done | lia].
Qed.

Lemma wp_malloc_loop n L f x e h fuel : ring h L -> 1 <= n -> HSIZE * n < 2 ^ 31 ->
  L !! f = Some x -> hp_freep h = x.1 -> (2 * length L + 2 <= fuel)%nat ->
  wp (mloop fuel (x.1, from_option fst base (L !! S f)) (malloc_step n)) e h (fun r e' h' => e' = e /\
    (r = 0 /\ malloc_fails n h L h' \/ exists bp L', r = bp + HSIZE /\ malloc_gives n h L bp h' L')).
Proof.
  intros Hr Hn Hlt Hf Hfp Hfuel. eapply wp_round; [done..| lia | |].
  - intros bp h' L' Ht. split; [done|]. right. exists bp, L'. split; [done|]. eapply taken_gives; [done | by left | | done].
    intros a. split; [by left|]. intros [|]; [done | lia].
  - intros Hall fuel' Hfu. eapply wp_mono; [by apply wp_morecore|].
    intros p e' h' (-> & [(-> & -> & Hmax)|(-> & Hp0 & L' & Hr' & Hb & Hm & Hc & (y & Hy & Hyn) & Hlen & Hfr)]).
    { cbn. split; [done|]. left. unfold malloc_fails. split_and!; try done; [by rewrite Forall_forall | by exists L]. }
    replace (hp_freep h' =? 0) with false by lia. pose proof Hr' as (_ & _ & Hl' & _ & _ & Hf' & _).
    apply list_elem_of_fmap in Hf' as (x' & Hx' & (f' & Hf')%list_elem_of_lookup).
    eapply wp_ptr; [done | rewrite Hx'; by eapply (linked_lookup _ _ _ f')|]. cbn [s_ptr]. rewrite Hx'.
    eapply wp_round; [done..| lia | |].
    + intros bp h'' L'' Ht. split; [done|]. right. exists bp, L''. split; [done|].
      eapply taken_gives; [done | | done | done]. right. split; [by rewrite Forall_forall | done].
    + intros Hno. specialize (Hno y Hy). lia.
Qed.

Lemma wp_malloc_fuel n pv p e h Q :
  wp (mloop (2 * size (hp_mem h) + 4) (pv, p) (malloc_step n)) e h Q -> wp (malloc_loop n pv p) e h Q.
Proof. done. Qed.
Lemma wp_malloc nbytes L e h : alloc_inv h L -> 0 <= nbytes <= 2 ^ 31 - 32 ->
  wp (malloc base nbytes) e h (fun r e' h' => e' = e /\
    (r = 0 /\ malloc_fails (units nbytes) h L h' \/
     exists bp L', r = bp + HSIZE /\ malloc_gives (units nbytes) h L bp h' L')).
Proof.
  intros Hinv Hn. assert (Hu : 1 <= units nbytes /\ HSIZE * units nbytes < 2 ^ 31).
  { unfold units, HSIZE. Z.to_euclidean_division_equations; lia. }
  unfold malloc. fold (units nbytes). rewrite u32_small by (unfold HSIZE in *; lia). cbn zeta. wp_steps.
  destruct Hinv as [Hr|(Hf0 & -> & Hb & Hbrk & Hmax)].
  - pose proof Hr as (_ & _ & Hl & _ & _ & Hf & _). apply list_elem_of_fmap in Hf as (x & Hx & Hin).
    destruct (ring_pos _ _ _ Hr Hin) as (_ & Hx0 & _). rewrite Hx. replace (x.1 =? 0) with false by lia. wp_steps.
    apply list_elem_of_lookup in Hin as (f & Hf).
    eapply wp_ptr; [done | by eapply (linked_lookup _ _ _ f)|]. cbn [s_ptr].
    apply wp_malloc_fuel.
    apply wp_malloc_loop; try done; [lia | lia |]. pose proof (ring_size _ _ Hr). lia.
  - rewrite Hf0. cbn [Z.eqb]. wp_step. unfold set_ptr, put_hdr. replace (base =? 0) with false by lia. wp_steps.
    apply wp_set_size; [lia|]. wp_steps. set (h1 := set_mem _ _).
    assert (Em : hp_mem h1 = <[base := mkheader base 0]> (hp_mem h)).
    { cbn. unfold hdr. cbn. rewrite lookup_insert_eq. cbn. by rewrite insert_insert_eq. }
    assert (Hr : ring h1 [(base, 0)]).
    { unfold ring. rewrite Em. split_and!; try done; try (cbn; lia).
      - by exists [].
      - cbn. by rewrite lookup_insert_eq.
      - constructor; [unfold bend, HSIZE; cbn; lia | done].
      - by left. }
    eapply (wp_ptr base (mkheader base 0)); [lia | rewrite Em; apply lookup_insert_eq |]. cbn [s_ptr].
    assert (Hnc : forall a, covered [(base, 0)] a <-> covered [] a).
    { intros a. rewrite covered_cons. unfold bend, HSIZE. cbn. split; [intros [|]; [lia | done] | by right]. }
    assert (Hfr : forall a, a <> base -> hp_mem h1 !! a = hp_mem h !! a).
    { intros a Ha. by rewrite Em, lookup_insert_ne by done. }
    apply wp_malloc_fuel. eapply wp_mono; [apply (wp_malloc_loop (units nbytes) [(base, 0)] 0 (base, 0) e h1); try done; try lia|].
    + cbn [length]. lia.
    + intros r e' h' (-> & [(-> & Hall & Hm & Hbr & L' & Hr' & Hc & Hf)|(bp & L' & -> & H1 & H2 & H3 & H4 & H5 & H6 & H7 & H8)]);
        (split; [done|]).
      * left. split; [done|]. split_and!; try done. exists L'. split_and!; [done | |].
        { intros a. by rewrite Hc, Hnc. }
        intros a Ha. rewrite Hf, Hfr by done. done.
      * right. exists bp, L'. split; [done|]. unfold malloc_gives. split_and!; try done.
        { destruct H5 as [|(_ & ?)]; [by left | right]. by split. }
        { intros a. by rewrite <- H7, Hnc. }
        intros a Ha Hab Hlt. rewrite H8; [by apply Hfr | by rewrite Hnc | done | done].
Qed.
End ring.

(** ** A program's use of the allocator *)
Inductive op := Malloc (nbytes : Z) | Free (i : nat).
(** [live] lists the blocks the program holds; it frees one of those only *)
Fixpoint client (base : Z) (ops : list op) (live : list block) : U (list block) :=
  match ops with
  | [] => ret live
  | Malloc n :: ops =>
      r <- malloc base n;;
      client base ops (if r =? 0 then live else (r - HSIZE, units n) :: live)
  | Free i :: ops =>
      match live !! i with
      | Some b => free (b.1 + HSIZE);; client base ops (delete i live)
      | None => client base ops live
      end
  end.
Definition fresh_heap (brk max : Z) : heap := mkheap ∅ 0 brk max.
Definition op_ok (o : op) : Prop := match o with Malloc n => 0 <= n <= 2 ^ 31 - 32 | Free _ => True end.

Fixpoint disjoint (L : list block) : Prop :=
  match L with [] => True | b :: L' => apart b L' /\ disjoint L' end.
(** every byte the process has got from [sbrk] is in exactly one block, free or live *)
Record heap_ok (base brk0 : Z) (h : heap) (L live : list block) : Prop := {
  ok_inv : alloc_inv base h L;
  ok_live : forall b, b ∈ live -> base < b.1 /\ 1 <= b.2 /\ bend b <= hp_brk h /\ apart b L /\
      exists v, hp_mem h !! b.1 = Some (mkheader v b.2);
  ok_disjoint : disjoint live;
  ok_all : forall a, brk0 <= a < hp_brk h <-> covered L a \/ covered live a;
  ok_brk : brk0 <= hp_brk h;
  ok_first : hp_freep h = 0 -> live = []
}.

#[local] Instance disjoint_perm : Proper ((≡ₚ) ==> iff) disjoint.
Proof.
  assert (H : forall L L', L ≡ₚ L' -> disjoint L -> disjoint L').
  { induction 1 as [|b L L' HP IH|b c L|]; cbn [disjoint]; [done | | | auto].
    - intros [Hb HL]. split; [unfold apart in *; by rewrite <- HP | auto].
    - intros (Hb & Hc & HL). unfold apart in *. apply Forall_cons in Hb as [Hbc Hb].
      split_and!; [|done..]. constructor; [tauto | done]. }
  intros L L' HP. split; apply H; done.
Qed.
Lemma covered_perm b L L' a : L ≡ₚ b :: L' -> covered L a <-> b.1 <= a < bend b \/ covered L' a.
Proof. intros HP. rewrite <- covered_cons. unfold covered. by setoid_rewrite HP. Qed.

(** two blocks that share no byte are apart *)
Lemma apart_intro b L : (forall y, y ∈ L -> 1 <= y.2 \/ bend y <= b.1) -> 1 <= b.2 ->
  (forall a, b.1 <= a < bend b -> covered L a -> False) -> apart b L.
Proof.
  intros Hpos Hb Hd. unfold apart. rewrite Forall_forall. intros y Hy. destruct (Hpos y Hy) as [Hy1|?]; [|by left].
  destruct (decide (bend y <= b.1)) as [|Hn1]; [by left|]. destruct (decide (bend b <= y.1)) as [|Hn2]; [by right|].
  destruct (Hd (Z.max b.1 y.1)); [unfold bend, HSIZE in *; lia|]. exists y. split; [done|]. unfold bend, HSIZE in *. lia.
Qed.
Lemma apart_covered b L a : apart b L -> b.1 <= a < bend b -> ~ covered L a.
Proof.
  unfold apart. rewrite Forall_forall. intros Hap Ha (y & Hy & Hya). specialize (Hap y Hy). lia.
Qed.

Section heap_ok.
Context (base brk0 : Z).
Notation heap_ok := (heap_ok base brk0).

Lemma ok_header h L live b : heap_ok h L live -> b ∈ live -> ~ covered L b.1 /\ b.1 <> base /\ b.1 < hp_brk h.
Proof.
  intros [_ Hl _ _ _ _] Hb. destruct (Hl b Hb) as (H1 & H2 & H3 & H4 & _).
  assert (b.1 < bend b) by (unfold bend, HSIZE; lia). split_and!; try lia. apply (apart_covered b); [done | lia].
Qed.
(** the invariant again, once the memory is known to be conserved *)
Lemma heap_ok_intro h L live h' L' live' : heap_ok h L live -> ring base h' L' -> hp_brk h <= hp_brk h' ->
  (forall b, b ∈ live' -> base < b.1 /\ 1 <= b.2 /\ bend b <= hp_brk h' /\ (forall a, b.1 <= a < bend b -> ~ covered L' a) /\
      exists v, hp_mem h' !! b.1 = Some (mkheader v b.2)) ->
  disjoint live' ->
  (forall a, covered L' a \/ covered live' a <-> covered L a \/ covered live a \/ hp_brk h <= a < hp_brk h') ->
  heap_ok h' L' live'.
Proof.
  intros [Hi Hl Hd Ha Hb _] Hr Hbrk Hl' Hd' Hc. constructor; [by left | | done | | lia |].
  - intros b Hin. destruct (Hl' b Hin) as (H1 & H2 & H3 & H4 & H5). split_and!; try done.
    apply apart_intro; [|done|by intros a ?%H4]. intros y Hy.
    destruct (ring_block_pos _ _ _ _ Hr Hy) as [-> | []]; [right | by left]. unfold bend, HSIZE. cbn. lia.
  - intros a. rewrite Hc. specialize (Ha a). split; [|intuition lia]. intros [? ?].
    destruct (decide (a < hp_brk h)); [|by intuition lia]. assert (covered L a \/ covered live a) by (apply Ha; lia). tauto.
  - pose proof Hr as (_ & _ & _ & _ & _ & Hf & _). apply list_elem_of_fmap in Hf as (x & -> & Hx).
    by destruct (ring_pos _ _ _ _ Hr Hx) as (_ & ? & _).
Qed.

Lemma ok_free h L live i b h' L' : heap_ok h L live -> live !! i = Some b -> freed base b h L h' L' ->
  heap_ok h' L' (delete i live).
Proof.
  intros Hok Hi (Hr & E1 & _ & Hc & _ & _ & Hfr). pose proof (delete_Permutation live i b Hi) as HP.
  pose proof Hok as [Hinv Hl Hd Ha Hb _]. rewrite HP in Hd. destruct Hd as [Hdb Hd].
  eapply heap_ok_intro; [exact Hok | done | lia | | done |].
  - intros c Hc'. assert (Hin : c ∈ live) by (rewrite HP; by right). destruct (Hl c Hin) as (H1 & H2 & H3 & H4 & v & Hv).
    destruct (ok_header _ _ _ _ Hok Hin) as (N1 & N2 & N3).
    unfold apart in Hdb. rewrite Forall_forall in Hdb. specialize (Hdb c Hc').
    split_and!; [done | done | lia | |].
    + intros a Hca. rewrite Hc. intros [?|Hab]; [by apply (apart_covered c L a) | lia].
    + exists v. rewrite Hfr; [done..|]. intros E. unfold bend, HSIZE in *.
      destruct (Hl b) as (_ & ? & _); [by eapply list_elem_of_lookup_2|]. lia.
  - intros a. rewrite Hc, (covered_perm b live (delete i live) a HP). intuition lia.
Qed.
Lemma ok_malloc h L live n bp h' L' : 1 <= n -> heap_ok h L live -> malloc_gives base n h L bp h' L' ->
  heap_ok h' L' ((bp, n) :: live).
Proof.
  intros Hn Hok (Hr & Hbp & Hend & Hap & Hbrk & Hhd & Hc & Hfr).
  pose proof Hok as [Hinv Hl Hd Ha Hb _].
  assert (Hle : hp_brk h <= hp_brk h') by (destruct Hbrk as [->|[_ ->]]; unfold more_units, HSIZE; lia).
  assert (Hout : forall c a, c ∈ live -> c.1 <= a < bend c -> ~ (covered L' a \/ bp <= a < bend (bp, n))).
  { intros c a Hin Hca. rewrite <- Hc. destruct (Hl c Hin) as (_ & _ & H3 & H4 & _).
    intros [?|?]; [by apply (apart_covered c L a) | lia]. }
  eapply heap_ok_intro; [exact Hok | done | done | | |].
  - intros c [-> |Hin]%elem_of_cons.
    { split_and!; try done. intros a. by apply apart_covered. }
    destruct (Hl c Hin) as (H1 & H2 & H3 & H4 & v & Hv). destruct (ok_header _ _ _ _ Hok Hin) as (N1 & N2 & N3).
    split_and!; [done | done | lia | |].
    + intros a Hca Hcov. apply (Hout c a); auto.
    + exists v. by rewrite Hfr.
  - split; [|done]. apply apart_intro; [|done|].
    + intros c Hin. left. by apply Hl.
    + intros a Hba (c & Hin & Hca). apply (Hout c a Hin Hca). by right.
  - intros a. rewrite covered_cons. specialize (Hc a). cbn [fst] in *. tauto.
Qed.
Lemma ok_malloc_fails h L live n h' : heap_ok h L live -> malloc_fails base n h L h' -> exists L', heap_ok h' L' live.
Proof.
  intros Hok (_ & _ & E & L' & Hr & Hc & Hfr). exists L'. pose proof Hok as [Hinv Hl Hd Ha Hb _].
  eapply heap_ok_intro; [exact Hok | done | lia | | done |].
  - intros c Hin. destruct (Hl c Hin) as (H1 & H2 & H3 & H4 & H5). destruct (ok_header _ _ _ _ Hok Hin) as (N1 & N2 & N3).
    split_and!; [done | done | lia | | by rewrite Hfr]. intros a Hca. rewrite Hc. by apply (apart_covered c).
  - intros a. rewrite Hc. intuition lia.
Qed.
End heap_ok.

Lemma wp_client base brk0 ops e : Forall op_ok ops -> forall h L live, heap_ok base brk0 h L live ->
  wp (client base ops live) e h (fun live' _ h' => exists L', heap_ok base brk0 h' L' live').
Proof.
  induction 1 as [|[n|i] ops Hop Hops IH]; intros h L live Hok; cbn [client].
  - wp_step. by exists L.
  - cbn in Hop. wp_step. eapply wp_mono; [apply (wp_malloc base n L); [by apply Hok | done]|].
    intros r e' h' (-> & [(-> & Hf)|(bp & L' & -> & Hg)]).
    + cbn. destruct (ok_malloc_fails _ _ _ _ _ _ _ Hok Hf) as (L' & Hok'). by eapply IH.
    + pose proof Hg as (Hr & Hbp & _). pose proof Hr as (Hb & _). replace (bp + HSIZE =? 0) with false by (unfold HSIZE; lia).
      replace (bp + HSIZE - HSIZE) with bp by lia. eapply IH, ok_malloc; [|done|done].
      unfold units, HSIZE. Z.to_euclidean_division_equations; lia.
  - destruct (live !! i) as [b|] eqn:Hi; [|by eapply IH]. pose proof Hok as [Hinv Hl _ _ _ Hfirst].
    destruct (Hl b) as (H1 & H2 & H3 & H4 & v & Hv); [by eapply list_elem_of_lookup_2|].
    destruct Hinv as [Hr|(Hf0 & -> & Hb)].
    + wp_step. eapply wp_mono; [by eapply wp_free|]. intros [] e' h' (-> & L' & Hfr). eapply IH, ok_free; done.
    + rewrite (Hfirst Hf0) in Hi. done.
Qed.
Lemma fresh_ok base brk max : 0 < base < brk -> brk <= max < 2 ^ 31 -> heap_ok base brk (fresh_heap brk max) [] [].
Proof.
  intros Hb Hm. assert (Hnil : forall a, ~ covered [] a) by (by intros a (? & ?%elem_of_nil & _)).
  constructor; try done; cbn.
  - right. split_and!; try done; cbn; lia.
  - by intros b ?%elem_of_nil.
  - intros a. split; [lia|]. by intros [?%Hnil|?%Hnil].
Qed.

(** with nothing live, the whole heap is one free block *)
Lemma ring_interval base h L lo : ring base h L -> base < lo < hp_brk h ->
  (forall a, lo <= a < hp_brk h <-> covered L a) ->
  exists n, L = [(base, 0); (lo, n)] /\ lo + HSIZE * n = hp_brk h.
Proof.
  intros Hr Hlo Hc. pose proof Hr as (_ & (L' & -> & HF) & _ & Hs & Hbrk & _). destruct Hs as (_ & _ & Hs).
  assert (Hc' : forall a, lo <= a < hp_brk h <-> covered L' a).
  { intros a. rewrite Hc, covered_cons. unfold bend, HSIZE. cbn. split; [intros [|]; [lia | done] | by right]. }
  clear Hc. destruct L' as [|x L']. { destruct (proj1 (Hc' lo)) as (y & Hy%elem_of_nil & _); [lia | done]. }
  pose proof (spaced_cons _ _ Hs) as Hup. rewrite Forall_forall in Hup. inversion HF as [|?? Hx HF']; subst.
  rewrite Forall_forall in HF'. inversion Hbrk as [|?? _ Hbrk']; subst. inversion Hbrk' as [|?? Hxb _]; subst.
  assert (Hpos : forall y, y ∈ L' -> y.1 < bend y) by (intros y Hy; specialize (HF' y Hy); unfold bend, HSIZE; lia).
  assert (Hxlo : x.1 = lo).
  { assert (lo <= x.1) by (apply Hc'; exists x; split; [by left|]; unfold bend, HSIZE; lia).
    destruct (proj1 (Hc' lo)) as (y & Hy & Hya); [lia|]. apply elem_of_cons in Hy as [-> |Hy]; [lia|].
    specialize (Hup y Hy). unfold bend, HSIZE in *. lia. }
  assert (Hend : bend x = hp_brk h).
  { destruct (Z.eq_dec (bend x) (hp_brk h)) as [|Hne]; [done|]. destruct (proj1 (Hc' (bend x))) as (y & Hy & Hya).
    { unfold bend, HSIZE in *. lia. }
    apply elem_of_cons in Hy as [-> |Hy]; [lia|]. specialize (Hup y Hy). lia. }
  destruct L' as [|y L'].
  - exists x.2. rewrite <- Hxlo. split; [by destruct x | done].
  - specialize (Hup y ltac:(by left)). specialize (Hpos y ltac:(by left)).
    assert (lo <= y.1 < hp_brk h) by (apply Hc'; exists y; split; [right; by left | lia]). lia.
Qed.

(** ** The free blocks, read off the memory

    The blocks met when the [ptr] links are followed from [base] until they come back to
    it, with the sizes in their headers; none before the first call of [malloc]. *)
Fixpoint ring_from (fuel : nat) (base : Z) (h : heap) (p : Z) : list block :=
  match fuel with
  | O => []
  | S fuel' => if p =? base then [] else (p, s_size (hdr h p)) :: ring_from fuel' base h (s_ptr (hdr h p))
  end.
Definition free_ring (base : Z) (h : heap) : list block :=
  if hp_freep h =? 0 then []
  else (base, s_size (hdr h base)) :: ring_from (size (hp_mem h)) base h (s_ptr (hdr h base)).

Lemma ring_from_linked base h L : forall fuel, linked (hp_mem h) L base ->
  Forall (fun x => x.1 <> base) L -> (length L < fuel)%nat -> ring_from fuel base h (hd_addr L base) = L.
Proof.
  induction L as [|x L IH]; intros [|fuel] Hl Hne Hf; cbn in Hf; try lia; cbn [ring_from hd_addr].
  - by rewrite Z.eqb_refl.
  - apply Forall_cons in Hne as [Hx Hne]. destruct Hl as [Hm Hl]. replace (x.1 =? base) with false by lia.
    unfold hdr. rewrite Hm. cbn [default s_size s_ptr]. rewrite IH by (done || lia). by destruct x.
Qed.
Lemma free_ring_eq base h L : alloc_inv base h L -> free_ring base h = L.
Proof.
  intros [Hr|(H0 & -> & _)]; unfold free_ring; [|by rewrite H0].
  pose proof (ring_size base h L Hr) as Hsz.
  pose proof Hr as (Hb & (L' & -> & _) & [Hm Hl] & Hs & _ & (y & Hy & Hyin)%list_elem_of_fmap & _).
  destruct (ring_pos base h _ y Hr Hyin) as (_ & Hy0 & _). replace (hp_freep h =? 0) with false by lia.
  unfold hdr at 1 2. cbn [fst] in Hm. rewrite Hm. cbn [default s_size s_ptr snd]. f_equal.
  apply ring_from_linked; [done | | cbn in Hsz; lia].
  pose proof (spaced_cons _ _ Hs) as Hc. eapply Forall_impl; [exact Hc|]. intros z. unfold bend, HSIZE. cbn. lia.
Qed.

(** C27: a program that starts with an empty heap and calls malloc and free in any order (freeing blocks it holds) always
    gets an answer, and at every moment the ring threaded through the headers in memory is well formed (in address
    order, freep on it) and the memory obtained from sbrk is exactly the blocks of that ring and the blocks the program
    holds, no two of which overlap: nothing is handed out twice and nothing is lost *)
Theorem heap_partition base brk0 max ops :
  0 < base < brk0 -> brk0 <= max < 2 ^ 31 -> Forall op_ok ops ->
  wp (client base ops []) [] (fresh_heap brk0 max) (fun live _ h =>
    alloc_inv base h (free_ring base h) /\ disjoint live /\
    Forall (fun b => 1 <= b.2 /\ apart b (free_ring base h)) live /\
    forall a, brk0 <= a < hp_brk h <-> covered (free_ring base h) a \/ covered live a).
Proof.
  intros Hb Hm Hops. eapply wp_mono; [eapply wp_client; [done | by apply fresh_ok]|].
  intros live e h (L & [Hi Hl Hd Ha _ _]). rewrite (free_ring_eq base h L Hi). split_and!; [done | done | | done].
  rewrite Forall_forall. intros b Hin. by destruct (Hl b Hin) as (_ & ? & _ & ? & _).
Qed.
(** C28: when the program has freed all it had, in whatever order, free has merged everything back: the ring holds the
    empty base block and one block that spans the whole heap *)
Theorem free_coalesces base brk0 max ops :
  0 < base < brk0 -> brk0 <= max < 2 ^ 31 -> Forall op_ok ops ->
  wp (client base ops []) [] (fresh_heap brk0 max) (fun live _ h =>
    live = [] -> brk0 < hp_brk h -> exists n, brk0 + HSIZE * n = hp_brk h /\
      hp_mem h !! base = Some (mkheader brk0 0) /\ hp_mem h !! brk0 = Some (mkheader base n)).
Proof.
  intros Hb Hm Hops. eapply wp_mono; [eapply wp_client; [done | by apply fresh_ok]|].
  intros live e h (L & [Hinv _ _ Ha _ _]) -> Hlt.
  assert (Hnil : forall a, ~ covered [] a) by (by intros a (? & ?%elem_of_nil & _)).
  destruct Hinv as [Hr|(_ & -> & _)].
  - destruct (ring_interval base h L brk0 Hr) as (n & -> & Hn); [lia | |].
    { intros a. rewrite Ha. split; [by intros [|?%Hnil] | by left]. }
    destruct Hr as (_ & _ & (Hl1 & Hl2 & _) & _). by exists n.
  - destruct (proj1 (Ha brk0)) as [?%Hnil|?%Hnil]; [lia | done..].
Qed.

(** malloc of any size up to 2^31-32 bytes returns; it is null only when no free block is large enough and the
    kernel refuses to grow the heap, in which case nothing has changed; otherwise the caller gets nbytes bytes of its own *)
Lemma malloc_serves base nbytes L h : alloc_inv base h L -> 0 <= nbytes <= 2 ^ 31 - 32 ->
  wp (malloc base nbytes) [] h (fun r _ h' =>
    r = 0 /\ malloc_fails base (units nbytes) h L h' \/
    exists bp L', r = bp + HSIZE /\ r + nbytes <= bend (bp, units nbytes) /\
      malloc_gives base (units nbytes) h L bp h' L').
Proof.
  intros Hinv Hn. eapply wp_mono; [by apply wp_malloc|].
  intros r e h' (_ & [?|(bp & L' & -> & Hg)]); [by left|]. right. exists bp, L'. split_and!; [done | | done].
  unfold bend, units, HSIZE. cbn. Z.to_euclidean_division_equations; lia.
Qed.

(** ** Examples *)
Definition demo_ops : list op := [Malloc 100; Malloc 70000; Malloc 8; Free 1; Free 1; Free 0].
Lemma heap_partition_witness : wp (client 16 (take 4 demo_ops) []) [] (fresh_heap 4096 1000000) (fun live _ h =>
  alloc_inv 16 h (free_ring 16 h) /\ disjoint live /\
  Forall (fun b => 1 <= b.2 /\ apart b (free_ring 16 h)) live /\
  forall a, 4096 <= a < hp_brk h <-> covered (free_ring 16 h) a \/ covered live a).
Proof. apply (heap_partition 16 4096 1000000 (take 4 demo_ops)); [lia | lia |]. repeat constructor; lia. Defined.
Lemma free_coalesces_witness : wp (client 16 demo_ops []) [] (fresh_heap 4096 1000000) (fun live _ h =>
  live = [] -> 4096 < hp_brk h -> exists n, 4096 + HSIZE * n = hp_brk h /\
    hp_mem h !! 16 = Some (mkheader 4096 0) /\ hp_mem h !! 4096 = Some (mkheader 16 n)).
Proof. apply (free_coalesces 16 4096 1000000 demo_ops); [lia | lia |]. repeat constructor; lia. Defined.
Lemma malloc_serves_witness : wp (malloc 16 100) [] (fresh_heap 4096 1000000) (fun r _ h' =>
  r = 0 /\ malloc_fails 16 (units 100) (fresh_heap 4096 1000000) [] h' \/
  exists bp L', r = bp + HSIZE /\ r + 100 <= bend (bp, units 100) /\
    malloc_gives 16 (units 100) (fresh_heap 4096 1000000) [] bp h' L').
Proof. apply (malloc_serves 16 100 [] (fresh_heap 4096 1000000)); [right; split_and!; first [reflexivity | cbn; lia] | lia]. Defined.

(** after four operations two blocks are live, and the ring is [base] and what is around them *)
Example demo_ring : match client 16 (take 4 demo_ops) [] [] (fresh_heap 4096 1000000) with
  | Ret live _ h => live = [(69472, 2); (69504, 8)] /\
      free_ring 16 h = [(16, 0); (4096, 4086); (69632, 4376)] /\ hp_brk h = 139648
  | _ => False
  end.
Proof. by vm_compute. Qed.
(** the demo leaves nothing live, so the heap is one block again *)
Example demo_run : match client 16 demo_ops [] [] (fresh_heap 4096 1000000) with
  | Ret live _ h => live = [] /\ hp_brk h - 4096 = 16 * (4096 + 4376) /\
      hp_mem h !! 4096 = Some (mkheader 16 (4096 + 4376))
  | _ => False
  end.
Proof. by vm_compute. Qed.
(** beyond that size morecore's argument of [sbrk] does not fit an int: a request for
    4294967295 bytes grows the heap by 16 bytes and succeeds *)
Example malloc_huge : match malloc 16 4294967295 [] (fresh_heap 4096 1000000) with
  | Ret r _ h => r = 4112 /\ hp_brk h = 4112
  | _ => False
  end.
Proof. by vm_compute. Qed.
