(* ===== verification/Grep.v ===== *)
(** user/grep.c: the matcher of Kernighan and Pike and the line loop around it.

    Strings are lists of their bytes without the terminating NUL, so the end of
    the list is where the code reads ['\0'].  A pattern is parsed into a list of
    items; the theorems relate [match_] to the language these items denote, and
    [grep] to the matching lines of its input, however the reads are cut. *)
From S2P Require Import Prelude Ulib.

(** the characters the matcher treats specially *)
Definition CARET : Z := 94.
Definition STAR : Z := 42.
Definition DOLLAR : Z := 36.
Definition DOT : Z := 46.
Definition NL : Z := 10.

(** ** The matcher *)

(** the [do ... while] loop of [matchstar]: [here] is [matchhere] of the rest of
    the pattern *)
Fixpoint matchstar (here : list Z -> bool) (c : Z) (text : list Z) : bool :=
  here text ||
  match text with
  | [] => false
  | t :: text' => if (t =? c) || (c =? DOT) then matchstar here c text' else false
  end.

Fixpoint matchhere (re text : list Z) : bool :=
  match re with
  | [] => true
  | c :: re' =>
      match re' with
      | s :: re'' =>
          if s =? STAR then matchstar (matchhere re'') c text
          else match text with
               | t :: text' => if (c =? DOT) || (c =? t) then matchhere re' text' else false
               | [] => false
               end
      | [] =>
          if c =? DOLLAR then match text with [] => true | _ => false end
          else match text with
               | t :: text' => if (c =? DOT) || (c =? t) then matchhere re' text' else false
               | [] => false
               end
      end
  end.

(** the [do ... while] loop of [match] *)
Fixpoint match_any (re text : list Z) : bool :=
  matchhere re text || match text with [] => false | _ :: text' => match_any re text' end.
Definition match_ (re text : list Z) : bool :=
  match re with
  | c :: re' => if c =? CARET then matchhere re' text else match_any re text
  | [] => match_any re text
  end.

(** ** The loop of grep

    The input is what the file still holds; [sizes] are the numbers of bytes the
    successive reads would like to return, each at least 1 and cut to the room
    asked for, as [read] does on a pipe or the console; after them, reads fail or
    return 0.  A NUL byte in the buffer ends what [strchr] looks at. *)
(** the inner loop: the matching lines of the buffer, and what is left of it *)
Fixpoint grep_lines (fuel : nat) (pattern buf : list Z) : list Z * list Z :=
  match fuel with
  | O => ([], buf)
  | S fuel' =>
      match strchr buf NL with
      | None => ([], buf)
      | Some q =>
          let line := take q buf in
          let '(out, rest) := grep_lines fuel' pattern (drop (S q) buf) in
          ((if match_ pattern line then line ++ [NL] else []) ++ out, rest)
      end
  end.

Definition BUFSIZE : nat := 1024.

(** one [read]: the bytes it returns and the input that remains *)
Definition read_some (want room : nat) (inp : list Z) : list Z * list Z :=
  let n := Nat.min (Nat.max 1 want) room in (take n inp, drop n inp).

(** the outer loop; [buf] are the [m] bytes kept from the last round *)
Fixpoint grep_loop (sizes : list nat) (pattern buf inp : list Z) : list Z :=
  match sizes with
  | [] => []
  | want :: sizes' =>
      let '(got, inp') := read_some want (BUFSIZE - length buf - 1) inp in
      match got with
      | [] => []
      | _ => let '(out, rest) := grep_lines (length (buf ++ got)) pattern (buf ++ got) in
             out ++ grep_loop sizes' pattern rest inp'
      end
  end.
Definition grep (pattern : list Z) (sizes : list nat) (inp : list Z) : list Z :=
  grep_loop sizes pattern [] inp.

(** [main]: what is written to the standard output and to descriptor 2, and the
    exit status.  [stdin] and what [open_] finds are an input with its read sizes;
    [argv] are the arguments after the program's name. *)
Definition input : Type := list nat * list Z.

Fixpoint grep_files (open_ : list Z -> option input) (pattern : list Z) (files : list (list Z)) : list Z * Z :=
  match files with
  | [] => ([], 0)
  | name :: files' =>
      match open_ name with
      | None => (chars "grep: cannot open " ++ name ++ [NL], 1)
      | Some (sizes, inp) =>
          let '(out, status) := grep_files open_ pattern files' in
          (grep pattern sizes inp ++ out, status)
      end
  end.
Definition grep_main (open_ : list Z -> option input) (stdin : input) (argv : list (list Z)) :
    list Z * list Z * Z :=
  match argv with
  | [] => ([], chars "usage: grep pattern [file ...]" ++ [NL], 1)
  | [pattern] => (grep pattern stdin.1 stdin.2, [], 0)
  | pattern :: files => let '(out, status) := grep_files open_ pattern files in (out, [], status)
  end.

(** ** What patterns mean *)

(** a literal character or [.], possibly repeated *)
Inductive item := One (c : Z) | Many (c : Z).

Definition accepts (c t : Z) : Prop := c = DOT \/ c = t.

(** the texts a list of items stands for *)
Inductive denotes : list item -> list Z -> Prop :=
| d_nil : denotes [] []
| d_one c t its l : accepts c t -> denotes its l -> denotes (One c :: its) (t :: l)
| d_zero c its l : denotes its l -> denotes (Many c :: its) l
| d_more c t its l : accepts c t -> denotes (Many c :: its) l -> denotes (Many c :: its) (t :: l).

(** the items of a pattern, and whether it ends in [$]; [*] binds to whatever
    precedes it, and is literal at the start; [$] is special only at the end *)
Fixpoint parse (re : list Z) : list item * bool :=
  match re with
  | [] => ([], false)
  | c :: re' =>
      match re' with
      | s :: re'' =>
          if s =? STAR then let '(its, dollar) := parse re'' in (Many c :: its, dollar)
          else let '(its, dollar) := parse re' in (One c :: its, dollar)
      | [] => if c =? DOLLAR then ([], true) else ([One c], false)
      end
  end.

(** [text] contains, at its start, a text of the items (the whole of it, if
    [dollar]) *)
Definition starts (its : list item) (dollar : bool) (text : list Z) : Prop :=
  exists l rest, text = l ++ rest /\ denotes its l /\ (dollar = true -> rest = []).

(** ** Proofs *)
Lemma acceptsb c t : (c =? DOT) || (c =? t) = true <-> accepts c t.
Proof. unfold accepts. rewrite orb_true_iff, !Z.eqb_eq. done. Qed.

Lemma starts_nil dollar text : starts [] dollar text <-> (dollar = true -> text = []).
Proof.
  split.
  - intros (l & rest & -> & Hd & Hr). inversion Hd; subst. done.
  - intros H. exists [], text. split_and!; [done | constructor | done].
Qed.
Lemma starts_one c its dollar text : starts (One c :: its) dollar text <->
  exists t text', text = t :: text' /\ accepts c t /\ starts its dollar text'.
Proof.
  split.
  - intros (l & rest & -> & Hd & Hr). inversion Hd as [|? t ? l' Ha Hl| |]; subst.
    exists t, (l' ++ rest). split_and!; [done | done | by exists l', rest].
  - intros (t & text' & -> & Ha & l & rest & -> & Hd & Hr).
    exists (t :: l), rest. split_and!; [done | by constructor | done].
Qed.
Lemma starts_many c its dollar text : starts (Many c :: its) dollar text <->
  starts its dollar text \/
  exists t text', text = t :: text' /\ accepts c t /\ starts (Many c :: its) dollar text'.
Proof.
  split.
  - intros (l & rest & -> & Hd & Hr). inversion Hd as [|?|? ? ? Hl|? t ? l' Ha Hl]; subst.
    + left. by exists l, rest.
    + right. exists t, (l' ++ rest). split_and!; [done | done | by exists l', rest].
  - intros [(l & rest & -> & Hd & Hr)|(t & text' & -> & Ha & l & rest & -> & Hd & Hr)].
    + exists l, rest. split_and!; [done | by constructor | done].
    + exists (t :: l), rest. split_and!; [done | by apply d_more | done].
Qed.

Lemma matchstar_spec here c its dollar : (forall text, here text = true <-> starts its dollar text) ->
  forall text, matchstar here c text = true <-> starts (Many c :: its) dollar text.
Proof.
  intros Hh. induction text as [|t text IH]; cbn [matchstar];
    rewrite starts_many, orb_true_iff, Hh.
  - split; [by intros [?|?]; [left|] | intros [?|(t & text' & ? & _)]; [by left | done]].
  - replace ((t =? c) || (c =? DOT)) with ((c =? DOT) || (c =? t))
      by (rewrite orb_comm; f_equal; apply Z.eqb_sym).
    destruct ((c =? DOT) || (c =? t)) eqn:E.
    + rewrite IH. apply acceptsb in E. split; (intros [H|H]; [by left | right]).
      * by exists t, text.
      * destruct H as (? & ? & [= <- <-] & _ & H). done.
    + split; (intros [H|H]; [by left | right]); [done|].
      destruct H as (? & ? & [= <- <-] & H%acceptsb & _). congruence.
Qed.

(** the common last case of [matchhere] *)
Lemma matchone_spec c its dollar (here : list Z -> bool) text :
  (forall text, here text = true <-> starts its dollar text) ->
  match text with
  | t :: text' => if (c =? DOT) || (c =? t) then here text' else false
  | [] => false
  end = true <-> starts (One c :: its) dollar text.
Proof.
  intros Hh. rewrite starts_one. destruct text as [|t text].
  - split; [done | by intros (? & ? & ? & _)].
  - destruct ((c =? DOT) || (c =? t)) eqn:E.
    + rewrite Hh. apply acceptsb in E. split; [by exists t, text |].
      by intros (? & ? & [= <- <-] & _ & ?).
    + split; [done|]. intros (? & ? & [= <- <-] & H%acceptsb & _). congruence.
Qed.

Lemma matchhere_cons2 c s re text : matchhere (c :: s :: re) text =
  if s =? STAR then matchstar (matchhere re) c text
  else match text with
       | t :: text' => if (c =? DOT) || (c =? t) then matchhere (s :: re) text' else false
       | [] => false
       end.
Proof. reflexivity. Qed.
Lemma parse_cons2 c s re : parse (c :: s :: re) =
  if s =? STAR then let '(its, dollar) := parse re in (Many c :: its, dollar)
  else let '(its, dollar) := parse (s :: re) in (One c :: its, dollar).
Proof. reflexivity. Qed.

Lemma matchhere_spec n : forall re text, (length re <= n)%nat ->
  matchhere re text = true <-> starts (parse re).1 (parse re).2 text.
Proof.
  induction n as [|n IH]; intros re text Hn.
  { destruct re; [|cbn in Hn; lia]. cbn. rewrite starts_nil. by split. }
  destruct re as [|c [|s re]]; cbn in Hn; [| |rewrite matchhere_cons2, parse_cons2].
  - cbn. rewrite starts_nil. by split.
  - cbn [matchhere parse]. destruct (Z.eqb_spec c DOLLAR).
    + cbn. rewrite starts_nil. destruct text; split; try done. intros H. by specialize (H eq_refl).
    + cbn [fst snd]. apply (matchone_spec c [] false (matchhere [])).
      intros text'. cbn. rewrite starts_nil. by split.
  - destruct (Z.eqb_spec s STAR) as [->|Hs].
    + destruct (parse re) as [its dollar] eqn:E.
      apply matchstar_spec. intros text'. rewrite (IH re) by lia. by rewrite E.
    + destruct (parse (s :: re)) as [its dollar] eqn:E.
      apply (matchone_spec c its dollar (matchhere (s :: re))).
      intros text'. rewrite (IH (s :: re)) by (cbn; lia). by rewrite E.
Qed.

(** the pattern [re] matches [text]: somewhere (at the start after [^], up to the
    end before [$]) the text holds a string of the pattern's items *)
Definition matches (re text : list Z) : Prop :=
  let '(caret, body) := match re with
                        | c :: re' => if c =? CARET then (true, re') else (false, re)
                        | [] => (false, re)
                        end in
  exists before here after, text = before ++ here ++ after /\ denotes (parse body).1 here /\
    (caret = true -> before = []) /\ ((parse body).2 = true -> after = []).

Lemma match_any_spec re text : match_any re text = true <->
  exists before text', text = before ++ text' /\ starts (parse re).1 (parse re).2 text'.
Proof.
  induction text as [|t text IH]; cbn [match_any]; rewrite orb_true_iff, (matchhere_spec (length re)) by lia.
  - split.
    + intros [H|H]; [|done]. by exists [], [].
    + intros (before & text' & Heq & H). symmetry in Heq. apply app_eq_nil in Heq as [-> ->]. by left.
  - rewrite IH. split.
    + intros [H|(before & text' & -> & H)]; [by exists [], (t :: text)|]. by exists (t :: before), text'.
    + intros ([|b before] & text' & Heq & H); [left; by rewrite Heq | right].
      injection Heq as <- ->. by exists before, text'.
Qed.

(** C33: the matcher of grep agrees with the meaning of its patterns: [match_ re text]
    is true exactly when the text contains a string denoted by the items of [re] -
    characters, [.], and either followed by [*] - with nothing before it if the
    pattern starts with [^] and nothing after it if it ends in [$]. *)
Theorem match_denotes (re text : list Z) : match_ re text = true <-> matches re text.
Proof.
  assert (Hany : forall body, match_any body text = true <->
    exists before here after, text = before ++ here ++ after /\ denotes (parse body).1 here /\
      (false = true -> before = []) /\ ((parse body).2 = true -> after = [])).
  { intros body. rewrite match_any_spec. split.
    - intros (before & ? & -> & here & after & -> & ? & ?). by exists before, here, after.
    - intros (before & here & after & -> & ? & _ & ?). exists before, (here ++ after).
      split; [done | by exists here, after]. }
  unfold match_, matches. destruct re as [|c re]; [apply Hany|].
  destruct (c =? CARET); [|apply Hany].
  rewrite (matchhere_spec (length re)) by lia. split.
  - intros (here & after & -> & ? & ?). by exists [], here, after.
  - intros (before & here & after & -> & ? & Hb & ?). rewrite Hb by done. by exists here, after.
Qed.

(** ** The lines of an input *)

(** the newline-terminated lines of an input, and what follows the last newline *)
Fixpoint lines (s : list Z) : list (list Z) * list Z :=
  match s with
  | [] => ([], [])
  | x :: s' =>
      let '(ls, tl) := lines s' in
      if x =? NL then ([] :: ls, tl)
      else match ls with [] => ([], x :: tl) | l :: ls' => ((x :: l) :: ls', tl) end
  end.

(** what grep should print *)
Definition matching (pattern s : list Z) : list Z :=
  concat (map (fun l => l ++ [NL]) (filter (fun l => match_ pattern l = true) (lines s).1)).

Lemma strchr_none s : Forall (.≠ 0) s -> strchr s NL = None -> lines s = ([], s).
Proof.
  induction 1 as [|x s Hx Hs IH]; [done|]. cbn.
  destruct (Z.eqb_spec x 0); [done|]. destruct (Z.eqb_spec x NL); [done|].
  destruct (strchr s NL); [done|]. intros _. by rewrite IH.
Qed.
Lemma strchr_some s q : strchr s NL = Some q ->
  lines s = (take q s :: (lines (drop (S q) s)).1, (lines (drop (S q) s)).2).
Proof.
  revert q. induction s as [|x s IH]; intros q; [done|]. cbn [strchr].
  destruct (Z.eqb_spec x 0); [done|]. destruct (Z.eqb_spec x NL) as [->|Hx].
  - intros [= <-]. cbn. rewrite drop_0. by destruct (lines s).
  - destruct (strchr s NL) as [q'|]; [|done]. intros [= <-]. cbn [lines].
    rewrite (IH q') by done. by apply Z.eqb_neq in Hx as ->.
Qed.
Lemma strchr_bound s q : strchr s NL = Some q -> (q < length s)%nat.
Proof.
  revert q. induction s as [|x s IH]; intros q; [done|]. cbn.
  destruct (x =? 0); [done|]. destruct (x =? NL); [intros [= <-]; lia|].
  destruct (strchr s NL) as [q'|]; [|done]. intros [= <-]. specialize (IH q' eq_refl). lia.
Qed.

Lemma lines_app s1 s2 : lines (s1 ++ s2) =
  ((lines s1).1 ++ (lines ((lines s1).2 ++ s2)).1, (lines ((lines s1).2 ++ s2)).2).
Proof.
  induction s1 as [|x s1 IH]; [cbn; by destruct (lines s2)|]. cbn [lines app]. rewrite IH.
  destruct (lines s1) as [ls tl]. cbn [fst snd]. destruct (Z.eqb_spec x NL) as [->|Hx]; [done|].
  destruct ls as [|l ls]; cbn [fst snd app]; [|done].
  cbn [lines]. apply Z.eqb_neq in Hx as ->. destruct (lines (tl ++ s2)) as [[|l ls'] tl']; done.
Qed.

Lemma grep_lines_spec pattern : forall fuel buf, (length buf <= fuel)%nat -> Forall (.≠ 0) buf ->
  grep_lines fuel pattern buf = (matching pattern buf, (lines buf).2).
Proof.
  unfold matching. induction fuel as [|fuel IH]; intros buf Hf Hz; cbn [grep_lines].
  { destruct buf; [done | cbn in Hf; lia]. }
  destruct (strchr buf NL) as [q|] eqn:E.
  - rewrite (strchr_some _ _ E). pose proof (strchr_bound _ _ E).
    rewrite IH by (rewrite ?length_drop; first [lia | by apply Forall_drop]).
    cbn [fst snd]. rewrite filter_cons. destruct (match_ pattern (take q buf)) eqn:Em;
      [rewrite decide_True by done | rewrite decide_False by done]; [|done].
    by cbn [map concat].
  - by rewrite (strchr_none _ Hz E).
Qed.

(** every line, and the tail, fits the buffer with its newline *)
Definition fits (s : list Z) : Prop :=
  Forall (fun l => length l < BUFSIZE - 1) (lines s).1 /\ (length (lines s).2 < BUFSIZE - 1).

Lemma lines_tail s : (lines (lines s).2).1 = [] /\ (lines (lines s).2).2 = (lines s).2.
Proof.
  induction s as [|x s IH]; [done|]. cbn [lines].
  destruct (lines s) as [[|l ls] tl], (Z.eqb_spec x NL) as [->|Hx]; cbn [fst snd] in *; try done.
  cbn [lines]. destruct (lines tl) as [ls' tl']. cbn in IH. destruct IH as [-> ->]. by apply Z.eqb_neq in Hx as ->.
Qed.

Lemma lines_tail_nz s : Forall (.≠ 0) s -> Forall (.≠ 0) (lines s).2.
Proof.
  induction 1 as [|x s Hx Hs IH]; [done|]. cbn [lines].
  destruct (lines s) as [[|l ls] tl], (x =? NL); cbn in *; auto.
Qed.

Lemma matching_app pattern s1 s2 :
  matching pattern (s1 ++ s2) = matching pattern s1 ++ matching pattern ((lines s1).2 ++ s2).
Proof. unfold matching. rewrite lines_app. cbn. by rewrite filter_app, map_app, concat_app. Qed.

Lemma fits_app s1 s2 : fits (s1 ++ s2) -> fits ((lines s1).2 ++ s2).
Proof. unfold fits. rewrite (lines_app s1). cbn. rewrite Forall_app. tauto. Qed.

(** a prefix without newline is within the first line or the tail *)
Lemma fits_prefix buf s : (lines buf).1 = [] -> (lines buf).2 = buf -> fits (buf ++ s) ->
  length buf < BUFSIZE - 1.
Proof.
  revert s. assert (H : forall buf s, (lines buf).1 = [] -> (lines buf).2 = buf ->
    match (lines (buf ++ s)).1 with
    | [] => (length buf <= length (lines (buf ++ s)).2)%nat
    | l :: _ => (length buf <= length l)%nat
    end).
  { clear buf. induction buf as [|x buf IH]; intros s; cbn [lines app].
    { intros _ _. destruct (lines s) as [[|??]?]; cbn; lia. }
    destruct (lines buf) as [ls tl], (x =? NL); cbn [fst snd]; [done|].
    destruct ls as [|l ls]; cbn [fst snd]; [|done]. intros _ [= ->].
    specialize (IH s eq_refl eq_refl).
    destruct (lines (buf ++ s)) as [[|l ls] tl']; cbn [fst snd] in *; cbn; lia. }
  intros s H1 H2 [Hl Ht]. specialize (H buf s H1 H2).
  destruct (lines (buf ++ s)) as [[|l ls] tl']; cbn in *; [lia|]. inversion Hl. lia.
Qed.

Lemma grep_loop_spec pattern : forall sizes buf inp,
  (lines buf).1 = [] -> (lines buf).2 = buf -> Forall (.≠ 0) (buf ++ inp) ->
  fits (buf ++ inp) -> (length inp <= length sizes)%nat ->
  grep_loop sizes pattern buf inp = matching pattern (buf ++ inp).
Proof.
  intros sizes buf inp H1 H2.
  assert (Hend : matching pattern (buf ++ []) = []) by (rewrite app_nil_r; unfold matching; by rewrite H1).
  revert buf inp H1 H2 Hend. induction sizes as [|want sizes IH]; intros buf inp H1 H2 Hend Hz Hf Hn.
  { destruct inp; [by rewrite Hend | cbn in Hn; lia]. }
  cbn [grep_loop]. unfold read_some. set (n := Nat.min (Nat.max 1 want) _).
  destruct inp as [|x inp]; [by rewrite take_nil|].
  pose proof (fits_prefix _ _ H1 H2 Hf) as Hb.
  destruct n as [|n'] eqn:En; [unfold n in En; unfold BUFSIZE in *; lia|]. cbn [take drop].
  assert (Hsplit : buf ++ x :: inp = (buf ++ x :: take n' inp) ++ drop n' inp)
    by (rewrite <- app_assoc; cbn; by rewrite take_drop).
  rewrite Hsplit in Hz, Hf |- *. apply Forall_app in Hz as [Hz1 Hz2].
  set (s := buf ++ x :: take n' inp) in *.
  rewrite grep_lines_spec, (matching_app pattern s) by done. f_equal. destruct (lines_tail s) as [T1 T2].
  apply IH; [done | done | | | by apply fits_app | cbn in Hn; rewrite length_drop; lia].
  - rewrite app_nil_r. unfold matching. by rewrite T1.
  - apply Forall_app; split; [|done]. apply (lines_tail_nz s Hz1).
Qed.

(** grep prints the lines of its input that match, each with its newline and in
    order, however the reads cut the input up: if the input has no NUL byte, every
    line fits the 1024-byte buffer, and there are at least as many reads as bytes,
    then the output is exactly the matching newline-terminated lines (the text
    after the last newline is never looked at). *)
Lemma grep_prints_matching (pattern : list Z) (sizes : list nat) (inp : list Z) :
  Forall (.≠ 0) inp -> fits inp -> (length inp <= length sizes)%nat ->
  grep pattern sizes inp = matching pattern inp.
Proof. intros. by apply (grep_loop_spec pattern sizes []). Qed.

(** "a.*b$" on "axb\nb\nacbb\nab", read in pieces of 2, 3, 1, 5, ... bytes *)
Lemma grep_prints_matching_witness :
  grep [97; 46; 42; 98; 36] [2; 3; 1; 5; 1; 1; 1; 1; 1; 1; 1; 1; 1]%nat
    [97; 120; 98; 10; 98; 10; 97; 99; 98; 98; 10; 97; 98] =
  [97; 120; 98; 10; 97; 99; 98; 98; 10].
Proof.
  rewrite grep_prints_matching; [vm_compute; reflexivity | | | cbn; lia].
  - repeat constructor; lia.
  - split; vm_compute; repeat constructor.
Defined.
