(* ===== verification/Shell.v ===== *)
(** user/sh.c: the shell's parser and its command runner.

    A command line is the list of its bytes without the terminating NUL; pointers
    into it are indices, and [byte buf i] is 0 at its end.  The parser's tree keeps
    the pointers the code keeps ([argv]/[eargv], [file]/[efile]); [nulterminate]
    overwrites the byte after each word, as the code does, so that the pointers
    become C strings.  [panic] ends the process with its message on descriptor 2;
    [malloc] is taken to succeed, as the code never tests it.

    The theorems: the parser accepts exactly the lines of a grammar over the
    tokens the line spells, with the tree the grammar gives ([parsecmd_grammar]);
    the words of the tree are then C strings with the text of their tokens
    ([parsed_words]); and the commands of a pipeline run with the right
    descriptors, all other ends of the pipes being closed ([pipeline_plumbing]). *)
From S2P Require Import Prelude State Ulib.

(** ** Commands *)
Definition MAXARGS : nat := 10.

Inductive cmd :=
| EXEC (argv : list (nat * nat))
| REDIR (c : cmd) (file efile : nat) (mode fd : Z)
| PIPE (left right : cmd)
| LIST (left right : cmd)
| BACK (c : cmd).

(** the end of a parse: a value, [panic] with what it printed, or fuel used up *)
Inductive res (A : Type) := Done (a : A) | Died (out : list Z) | NoFuel.
Arguments Done {A} a.
Arguments Died {A} out.
Arguments NoFuel {A}.

Definition rbind {A B} (m : res A) (k : A -> res B) : res B :=
  match m with Done a => k a | Died out => Died out | NoFuel => NoFuel end.
Declare Scope shell_scope.
Notation "'get' x y <~ m ;; k" := (rbind m (fun v => let '(x, y) := v in k))
  (at level 100, x name, y name, m at next level, right associativity) : shell_scope.
#[local] Open Scope shell_scope.

Definition sh_panic {A} (s : string) : res A := Died (chars s ++ [10]).

(** ** The lexer *)
Definition whitespace : list Z := [32; 9; 13; 10; 11].
Definition symbols : list Z := chars "<|>&;()".
Definition ch (s : string) : Z := default 0 (head (chars s)).

Definition byte (buf : list Z) (i : nat) : Z := default 0 (buf !! i).
Definition is_in (set : list Z) (c : Z) : bool := bool_decide (is_Some (strchr set c)).

(** [while(s < es && f *s) s++], with [n = es - s] *)
Fixpoint scan (f : Z -> bool) (n : nat) (buf : list Z) (s : nat) : nat :=
  match n with
  | O => s
  | S n' => if f (byte buf s) then scan f n' buf (S s) else s
  end.
Definition skip (buf : list Z) (s : nat) : nat := scan (is_in whitespace) (length buf - s) buf s.
Definition wordchar (c : Z) : bool := negb (is_in whitespace c) && negb (is_in symbols c).

(** the token, where it starts and ends, and where the next one may start *)
Definition gettoken (buf : list Z) (s : nat) : Z * nat * nat * nat :=
  let q := skip buf s in
  let c := byte buf q in
  let '(ret, eq) :=
    if c =? 0 then (c, q)
    else if is_in (chars "|();&<") c then (c, S q)
    else if c =? ch ">" then if byte buf (S q) =? ch ">" then (ch "+", S (S q)) else (c, S q)
    else (ch "a", scan wordchar (length buf - q) buf q) in
  (ret, q, eq, skip buf eq).

Definition peek (buf : list Z) (s : nat) (toks : string) : bool * nat :=
  let s := skip buf s in
  (negb (byte buf s =? 0) && is_in (chars toks) (byte buf s), s).

(** ** The parser *)

(** [redircmd] with the mode and the descriptor of a redirection token *)
Definition redircmd (tok : Z) (c : cmd) (q eq : nat) : cmd :=
  if tok =? ch "<" then REDIR c q eq O_RDONLY 0
  else if tok =? ch ">" then REDIR c q eq (Z.lor (Z.lor O_WRONLY O_CREATE) O_TRUNC) 1
  else if tok =? ch "+" then REDIR c q eq (Z.lor O_WRONLY O_CREATE) 1
  else c.

Fixpoint parseredirs (n : nat) (buf : list Z) (c : cmd) (s : nat) : res (cmd * nat) :=
  match n with
  | O => NoFuel
  | S n' =>
      let '(b, s) := peek buf s "<>" in
      if b then
        let '(tok, _, _, s) := gettoken buf s in
        let '(w, q, eq, s) := gettoken buf s in
        if negb (w =? ch "a") then sh_panic "missing file for redirection"
        else parseredirs n' buf (redircmd tok c q eq) s
      else Done (c, s)
  end.

(** [cmd->argv[argc] = q; cmd->eargv[argc] = eq]: the write goes through the
    pointer to the [execcmd] inside the redirections put around it so far *)
Fixpoint add_arg (c : cmd) (q eq : nat) : cmd :=
  match c with
  | EXEC argv => EXEC (argv ++ [(q, eq)])
  | REDIR c' file efile mode fd => REDIR (add_arg c' q eq) file efile mode fd
  | _ => c
  end.

(** the argument loop of [parseexec] *)
Fixpoint parseargs (n : nat) (buf : list Z) (r : cmd) (argc : nat) (s : nat) : res (cmd * nat) :=
  match n with
  | O => NoFuel
  | S n' =>
      let '(b, s) := peek buf s "|)&;" in
      if b then Done (r, s)
      else
        let '(tok, q, eq, s) := gettoken buf s in
        if tok =? 0 then Done (r, s)
        else if negb (tok =? ch "a") then sh_panic "syntax"
        else if (MAXARGS <=? S argc)%nat then sh_panic "too many args"
        else
          get r s <~ parseredirs n' buf (add_arg r q eq) s;;
          parseargs n' buf r (S argc) s
  end.

(** the [&] loop of [parseline] *)
Fixpoint parsebacks (n : nat) (buf : list Z) (c : cmd) (s : nat) : res (cmd * nat) :=
  match n with
  | O => NoFuel
  | S n' =>
      let '(b, s) := peek buf s "&" in
      if b then let '(_, _, _, s) := gettoken buf s in parsebacks n' buf (BACK c) s
      else Done (c, s)
  end.

Fixpoint parseline (n : nat) (buf : list Z) (s : nat) : res (cmd * nat) :=
  match n with
  | O => NoFuel
  | S n' =>
      get c s <~ parsepipe n' buf s;;
      get c s <~ parsebacks n' buf c s;;
      let '(b, s) := peek buf s ";" in
      if b then
        let '(_, _, _, s) := gettoken buf s in
        get r s <~ parseline n' buf s;;
        Done (LIST c r, s)
      else Done (c, s)
  end
with parsepipe (n : nat) (buf : list Z) (s : nat) : res (cmd * nat) :=
  match n with
  | O => NoFuel
  | S n' =>
      get c s <~ parseexec n' buf s;;
      let '(b, s) := peek buf s "|" in
      if b then
        let '(_, _, _, s) := gettoken buf s in
        get r s <~ parsepipe n' buf s;;
        Done (PIPE c r, s)
      else Done (c, s)
  end
with parseblock (n : nat) (buf : list Z) (s : nat) : res (cmd * nat) :=
  match n with
  | O => NoFuel
  | S n' =>
      let '(b, s) := peek buf s "(" in
      if negb b then sh_panic "parseblock"
      else
        let '(_, _, _, s) := gettoken buf s in
        get c s <~ parseline n' buf s;;
        let '(b, s) := peek buf s ")" in
        if negb b then sh_panic "syntax - missing )"
        else
          let '(_, _, _, s) := gettoken buf s in
          parseredirs n' buf c s
  end
with parseexec (n : nat) (buf : list Z) (s : nat) : res (cmd * nat) :=
  match n with
  | O => NoFuel
  | S n' =>
      let '(b, s) := peek buf s "(" in
      if b then parseblock n' buf s
      else
        get r s <~ parseredirs n' buf (EXEC []) s;;
        parseargs n' buf r 0 s
  end.

(** [*p = 0] for the byte after each word *)
Definition stnul (buf : list Z) (p : nat) : list Z := <[p := 0]> buf.
Fixpoint nulterminate (c : cmd) (buf : list Z) : list Z :=
  match c with
  | EXEC argv => foldl (fun b w => stnul b w.2) buf argv
  | REDIR c' _ efile _ _ => stnul (nulterminate c' buf) efile
  | PIPE l r => nulterminate r (nulterminate l buf)
  | LIST l r => nulterminate r (nulterminate l buf)
  | BACK c' => nulterminate c' buf
  end.

(** each token takes at most four calls, so this is enough fuel *)
Definition parsecmd (buf : list Z) : res (cmd * list Z) :=
  get c s <~ parseline (4 * length buf + 4) buf 0;;
  let '(_, s) := peek buf s "" in
  if negb (s =? length buf)%nat then Died (chars "leftovers: " ++ drop s buf ++ [10] ++ chars "syntax" ++ [10])
  else Done (c, nulterminate c buf).

(** the C string at [q] *)
Fixpoint until_nul (l : list Z) : list Z :=
  match l with [] => [] | x :: l' => if x =? 0 then [] else x :: until_nul l' end.
Definition cstr (b : list Z) (q : nat) : list Z := until_nul (drop q b).

(** ** The runner

    What a process does is the tree of its system calls, with a branch for each
    answer; [Fork] has the child, the parent and the failure. *)
Inductive prog :=
| Exit (status : Z)
| Exec (argv : list (list Z)) (failed : prog)
| Fprint2 (out : list Z) (k : prog)
| Close (fd : Z) (k : prog)
| Open (file : list Z) (mode : Z) (k : Z -> prog)
| Dup (fd : Z) (k : prog)
| MkPipe (failed : prog) (k : Z -> Z -> prog)
| Fork (child parent failed : prog)
| Wait (k : prog)
| Chdir (dir : list Z) (failed k : prog).

Definition die (s : string) : prog := Fprint2 (chars s ++ [10]) (Exit 1).
Definition fork1 (child parent : prog) : prog := Fork child parent (die "fork").

(** [b] is the NUL-terminated line *)
Fixpoint runcmd (b : list Z) (c : cmd) : prog :=
  match c with
  | EXEC argv =>
      match argv with
      | [] => Exit 1
      | w :: _ => Exec ((fun w => cstr b w.1) <$> argv)
                    (Fprint2 (chars "exec " ++ cstr b w.1 ++ chars " failed" ++ [10]) (Exit 0))
      end
  | REDIR c' file _ mode fd =>
      Close fd (Open (cstr b file) mode (fun r =>
        if r <? 0 then Fprint2 (chars "open " ++ cstr b file ++ chars " failed" ++ [10]) (Exit 1)
        else runcmd b c'))
  | LIST l r => fork1 (runcmd b l) (Wait (runcmd b r))
  | PIPE l r =>
      MkPipe (die "pipe") (fun p0 p1 =>
        fork1 (Close 1 (Dup p1 (Close p0 (Close p1 (runcmd b l)))))
        (fork1 (Close 0 (Dup p0 (Close p0 (Close p1 (runcmd b r)))))
        (Close p0 (Close p1 (Wait (Wait (Exit 0)))))))
  | BACK c' => fork1 (runcmd b c') (Exit 0)
  end.

(** ** The main loop *)

(** the command of one line: [cd] is done by the shell itself *)
Definition run_line (line : list Z) (k : prog) : prog :=
  if bool_decide (take 3 line = chars "cd ") then
    let dir := drop 3 (take (length line - 1) line) in
    Chdir dir (Fprint2 (chars "cannot cd " ++ dir ++ [10]) k) k
  else
    fork1 (match parsecmd line with
           | Done (c, b) => runcmd b c
           | Died out => Fprint2 out (Exit 1)
           | NoFuel => Exit 1
           end) (Wait k).

(** the loop over the lines of the input; every round reads at least one byte *)
Fixpoint sh_loop (n : nat) (inp : list Z) : prog :=
  match n with
  | O => Exit 0
  | S n' =>
      let '(buf, rest) := u_gets 100 inp in
      let line := until_nul buf in
      Fprint2 (chars "$ ") (match line with [] => Exit 0 | _ => run_line line (sh_loop n' rest) end)
  end.

(** three descriptors are open when an [open] answers at least 3; a process has
    at most [NOFILE] *)
Fixpoint open_console (n : nat) (k : prog) : prog :=
  match n with
  | O => k
  | S n' => Open (chars "console") O_RDWR (fun fd =>
      if fd <? 0 then k else if 3 <=? fd then Close fd k else open_console n' k)
  end.
Definition sh_main (inp : list Z) : prog := open_console NOFILE (sh_loop (S (length inp)) inp).

(** ** Tokens and grammar

    A line spells a list of tokens with their positions; [kind] is what
    [gettoken] answers for them. *)
Record token := Tok { kind : Z; tq : nat; teq : nat }.

(** a token of kind [k] occupies the bytes from [q] to [e] *)
Inductive token_at (buf : list Z) : Z -> nat -> nat -> Prop :=
| t_sym q : byte buf q ∈ chars "|();&<" -> token_at buf (byte buf q) q (S q)
| t_gt q : byte buf q = ch ">" -> byte buf (S q) <> ch ">" -> token_at buf (ch ">") q (S q)
| t_append q : byte buf q = ch ">" -> byte buf (S q) = ch ">" -> token_at buf (ch "+") q (S (S q))
| t_word q e : (q < e <= length buf)%nat ->
    (forall i, (q <= i < e)%nat -> wordchar (byte buf i) = true) ->
    e = length buf \/ wordchar (byte buf e) = false -> token_at buf (ch "a") q e.

Definition blank (buf : list Z) (p q : nat) : Prop :=
  (p <= q <= length buf)%nat /\ forall i, (p <= i < q)%nat -> byte buf i ∈ whitespace.

Inductive spells (buf : list Z) : nat -> list token -> Prop :=
| sp_end p : blank buf p (length buf) -> spells buf p []
| sp_tok p k q e ts : blank buf p q -> token_at buf k q e -> spells buf e ts ->
    spells buf p (Tok k q e :: ts).

(** [redirs ts c c']: the redirections [ts] turn [c] into [c'] *)
Definition is_redir (k : Z) : Prop := k = ch "<" \/ k = ch ">" \/ k = ch "+".
Inductive redirs : list token -> cmd -> cmd -> Prop :=
| r_nil c : redirs [] c c
| r_cons t w ts c c' : is_redir (kind t) -> kind w = ch "a" ->
    redirs ts (redircmd (kind t) c (tq w) (teq w)) c' -> redirs (t :: w :: ts) c c'.

(** [args ts c n c']: words and redirections in any order; [n] words so far *)
Inductive args : list token -> cmd -> nat -> cmd -> Prop :=
| a_nil c n : args [] c n c
| a_redir t w ts c n c' : is_redir (kind t) -> kind w = ch "a" ->
    args ts (redircmd (kind t) c (tq w) (teq w)) n c' -> args (t :: w :: ts) c n c'
| a_word w ts c n c' : kind w = ch "a" -> (S n < MAXARGS)%nat ->
    args ts (add_arg c (tq w) (teq w)) (S n) c' -> args (w :: ts) c n c'.

Definition backs (n : nat) (c : cmd) : cmd := Nat.iter n BACK c.

(** line ::= pipe &* | pipe &* ; line
    pipe ::= exec | exec "|" pipe
    exec ::= "(" line ")" redirs | args *)
Inductive g_line : list token -> cmd -> Prop :=
| l_end ts amps c : g_pipe ts c -> Forall (fun t => kind t = ch "&") amps ->
    g_line (ts ++ amps) (backs (length amps) c)
| l_seq ts amps semi ts' c c' : g_pipe ts c -> Forall (fun t => kind t = ch "&") amps ->
    kind semi = ch ";" -> g_line ts' c' ->
    g_line (ts ++ amps ++ semi :: ts') (LIST (backs (length amps) c) c')
with g_pipe : list token -> cmd -> Prop :=
| p_one ts c : g_exec ts c -> g_pipe ts c
| p_more ts bar ts' c c' : g_exec ts c -> kind bar = ch "|" -> g_pipe ts' c' ->
    g_pipe (ts ++ bar :: ts') (PIPE c c')
with g_exec : list token -> cmd -> Prop :=
| e_block o ts cl rs c c' : kind o = ch "(" -> g_line ts c -> kind cl = ch ")" -> redirs rs c c' ->
    g_exec (o :: ts ++ cl :: rs) c'
| e_simple ts c : args ts (EXEC []) 0 c -> g_exec ts c.

Scheme line_mind := Induction for g_line Sort Prop
with pipe_mind := Induction for g_pipe Sort Prop
with exec_mind := Induction for g_exec Sort Prop.
Combined Scheme grammar_ind from line_mind, pipe_mind, exec_mind.

(** ** The lexer reads the tokens *)
Lemma is_in_spec set c : Forall (.≠ 0) set -> is_in set c = bool_decide (c ∈ set).
Proof.
  intros H. unfold is_in. apply bool_decide_ext. induction H as [|x set Hx Hs IH]; cbn.
  - split; [by intros [? ?] | by intros ?%elem_of_nil].
  - destruct (Z.eqb_spec x 0); [done|]. rewrite elem_of_cons. destruct (Z.eqb_spec x c) as [->|Hne].
    + split; [by left | by eexists].
    + rewrite fmap_is_Some, IH. split; [by right | by intros [->|]].
Qed.
Ltac in_set := repeat (apply Forall_cons; split; [done|]); apply Forall_nil; done.
Lemma ws_spec c : is_in whitespace c = bool_decide (c ∈ whitespace).
Proof. apply is_in_spec. in_set. Qed.
Lemma sym_spec c : is_in symbols c = bool_decide (c ∈ symbols).
Proof. apply is_in_spec. in_set. Qed.
Lemma one_spec c : is_in (chars "|();&<") c = bool_decide (c ∈ chars "|();&<").
Proof. apply is_in_spec. in_set. Qed.

Lemma scan_props f buf : forall n s, let e := scan f n buf s in (s <= e <= s + n)%nat /\
  (forall i, (s <= i < e)%nat -> f (byte buf i) = true) /\ (e = (s + n)%nat \/ f (byte buf e) = false).
Proof.
  induction n as [|n IH]; intros s; cbn [scan].
  { split_and!; [lia.. | intros; lia | left; lia]. }
  destruct (f (byte buf s)) eqn:E; [|split_and!; [lia.. | intros; lia | by right]].
  destruct (IH (S s)) as (H1 & H2 & H3). split_and!; [lia.. | | destruct H3; [left; lia | by right]].
  intros i Hi. destruct (decide (i = s)) as [->|]; [done | apply H2; lia].
Qed.
Lemma scan_spec f buf n s e : (s <= e <= s + n)%nat ->
  (forall i, (s <= i < e)%nat -> f (byte buf i) = true) -> e = (s + n)%nat \/ f (byte buf e) = false ->
  scan f n buf s = e.
Proof.
  intros H1 H2 H3. destruct (scan_props f buf n s) as (K1 & K2 & K3).
  destruct (lt_eq_lt_dec (scan f n buf s) e) as [[Hlt| ->]|Hlt]; [|done|].
  - rewrite H2 in K3 by lia. destruct K3; [lia | done].
  - rewrite K2 in H3 by lia. destruct H3; [lia | done].
Qed.

Lemma skip_spec buf p q : blank buf p q -> q = length buf \/ (byte buf q ∉ whitespace) -> skip buf p = q.
Proof.
  intros [Hb Hw] Hq. apply scan_spec; [lia | | ].
  - intros i Hi. rewrite ws_spec. by apply bool_decide_eq_true, Hw.
  - rewrite ws_spec. destruct Hq; [left; lia | right; by apply bool_decide_eq_false].
Qed.
Lemma skip_props buf p : (p <= length buf)%nat -> let q := skip buf p in
  blank buf p q /\ (q = length buf \/ byte buf q ∉ whitespace).
Proof.
  intros Hp. destruct (scan_props (is_in whitespace) buf (length buf - p) p) as (K1 & K2 & K3).
  split; [split; [unfold skip; lia|]|].
  - intros i Hi. specialize (K2 i Hi). rewrite ws_spec in K2. by apply bool_decide_eq_true in K2.
  - destruct K3 as [K3|K3]; [left; unfold skip; lia|]. right.
    rewrite ws_spec in K3. by apply bool_decide_eq_false in K3.
Qed.

Lemma wordchar_spec c : wordchar c = true <-> (c ∉ whitespace) /\ (c ∉ symbols).
Proof.
  unfold wordchar. rewrite ws_spec, sym_spec, andb_true_iff, !negb_true_iff, !bool_decide_eq_false. done.
Qed.
Lemma byte_lt buf i : byte buf i <> 0 -> (i < length buf)%nat.
Proof. intros H. apply lookup_lt_is_Some. unfold byte in H. destruct (buf !! i); [by eexists | done]. Qed.

(** the first byte of a token of a given kind; the first byte a parse looks at *)
Definition first_of (k : Z) : Z := if k =? ch "+" then ch ">" else k.
Definition next (ts : list token) : Z := match ts with [] => 0 | t :: _ => first_of (kind t) end.

(** membership in a closed set of bytes, and the cases of one *)
Ltac in_closed := by apply (bool_decide_unpack _); vm_compute.
Ltac not_in_closed := by refine (bool_decide_eq_false_1 _ _); vm_compute.
Ltac each_in H := cbn in H; repeat (apply elem_of_cons in H as [->|H]); [..|by apply elem_of_nil in H].

Lemma one_in_symbols c : c ∈ chars "|();&<" -> c ∈ symbols.
Proof. intros H. each_in H; in_closed. Qed.
Lemma symbols_split c : c ∈ symbols -> c ∈ chars "|();&<" \/ c = ch ">".
Proof. intros H. each_in H; first [left; in_closed | by right]. Qed.
Lemma symbols_props c : c ∈ symbols -> c <> 0 /\ c <> ch "a" /\ c ∉ whitespace.
Proof. intros H. each_in H; (split_and!; [done | done | not_in_closed]). Qed.

Lemma forallb_in {A} (f : A -> bool) l x : forallb f l = true -> x ∈ l -> f x = true.
Proof. rewrite forallb_forall. intros H Hx. apply H. by apply list_elem_of_In. Qed.

(** the tokens a parser state is about *)
Section lexer.
Context (buf : list Z) (Hnz : Forall (.≠ 0) buf).

Lemma byte_nz i : (i < length buf)%nat -> byte buf i <> 0.
Proof.
  intros Hi. unfold byte. destruct (lookup_lt_is_Some_2 buf i Hi) as [x Hx]. rewrite Hx.
  by apply (Forall_lookup_1 _ _ _ _ Hnz Hx).
Qed.

Lemma token_at_props k q e : token_at buf k q e ->
  (q < e <= length buf)%nat /\ (byte buf q ∉ whitespace) /\ k <> 0 /\
  (k = ch "a" /\ (byte buf q ∉ symbols) \/ k <> ch "a" /\ first_of k ∈ symbols /\ byte buf q = first_of k).
Proof.
  intros H. destruct H as [q Hq|q Hq _|q Hq Hq'|q e He Hw _].
  - pose proof (one_in_symbols _ Hq) as Hs. destruct (symbols_props _ Hs) as (? & ? & ?).
    pose proof (byte_lt buf q ltac:(done)). split_and!; [lia.. | done | done |]. right.
    assert (first_of (byte buf q) = byte buf q) as ->; [|done].
    unfold first_of. destruct (Z.eqb_spec (byte buf q) (ch "+")) as [E|]; [|done].
    rewrite E in Hq. exfalso. revert Hq. not_in_closed.
  - pose proof (byte_lt buf q ltac:(by rewrite Hq)). rewrite Hq.
    split_and!; [lia.. | not_in_closed | done | right; split_and!; [done | in_closed | done]].
  - pose proof (byte_lt buf q ltac:(by rewrite Hq)). pose proof (byte_lt buf (S q) ltac:(by rewrite Hq')).
    rewrite Hq. split_and!; [lia.. | not_in_closed | done | right; split_and!; [done | in_closed | done]].
  - destruct (proj1 (wordchar_spec _) (Hw q ltac:(lia))). split_and!; [lia.. | done | done |]. by left.
Qed.

Lemma spells_skip p ts : spells buf p ts -> exists q, skip buf p = q /\ spells buf q ts /\
  match ts with [] => q = length buf | t :: _ => q = tq t end.
Proof.
  intros H. destruct H as [p Hb|p k q e ts Hb Ht Hts].
  - exists (length buf). split_and!; [apply skip_spec; auto | | done].
    constructor. split; [lia | intros; lia].
  - destruct (token_at_props _ _ _ Ht) as (? & ? & _). exists q.
    split_and!; [apply skip_spec; auto | | done].
    apply sp_tok; [|done..]. split; [lia | intros; lia].
Qed.

Lemma peek_spec p ts toks : spells buf p ts -> Forall (.∈ symbols) (chars toks) ->
  exists q, peek buf p toks = (bool_decide (next ts ∈ chars toks), q) /\ spells buf q ts.
Proof.
  intros H Htoks. destruct (spells_skip _ _ H) as (q & Hq & Hs & Hpos). exists q. split; [|done].
  unfold peek. rewrite Hq. clear Hq. f_equal. rewrite Forall_forall in Htoks.
  rewrite is_in_spec by (apply Forall_forall; intros x Hx; by apply symbols_props, Htoks).
  destruct ts as [|[k q' e] ts]; cbn [next kind tq] in *; subst.
  - rewrite (bool_decide_eq_false_2 (0 ∈ _)) by (intros Hx%Htoks; revert Hx; not_in_closed).
    unfold byte. by rewrite lookup_ge_None_2.
  - inversion Hs as [|???????Ht]; subst. destruct (token_at_props _ _ _ Ht) as (? & ? & _ & [[-> Hn]|(? & ? & ->)]).
    + rewrite (bool_decide_eq_false_2 (first_of _ ∈ _)) by (intros Hx%Htoks; revert Hx; not_in_closed).
      rewrite bool_decide_eq_false_2 by (by intros Hx%Htoks). by rewrite andb_false_r.
    + destruct (Z.eqb_spec (first_of k) 0) as [E|]; [|done].
      by destruct (symbols_props (first_of k)) as [? _].
Qed.

Lemma gettoken_spec p t ts : spells buf p (t :: ts) ->
  exists s, gettoken buf p = (kind t, tq t, teq t, s) /\ spells buf s ts /\ kind t <> 0.
Proof.
  intros H. destruct (spells_skip _ _ H) as (q & Hq & _ & ->).
  inversion H as [|? k q e ? Hb Ht Hts]; subst. cbn [tq kind teq] in *.
  destruct (spells_skip _ _ Hts) as (s & Hs & Hss & _).
  destruct (token_at_props _ _ _ Ht) as (Hqe & Hnw & Hk0 & _).
  exists s. split; [|done]. unfold gettoken. rewrite Hq.
  pose proof (byte_nz q ltac:(lia)) as Hz. apply Z.eqb_neq in Hz as ->. rewrite one_spec.
  destruct Ht as [q Hc|q Hc Hc'|q Hc Hc'|q e He Hw Hend].
  - rewrite bool_decide_eq_true_2 by done. by rewrite Hs.
  - rewrite Hc. rewrite bool_decide_eq_false_2 by not_in_closed. rewrite Z.eqb_refl.
    apply Z.eqb_neq in Hc' as ->. by rewrite Hs.
  - rewrite Hc, Hc'. rewrite bool_decide_eq_false_2 by not_in_closed.
    rewrite Z.eqb_refl. by rewrite Hs.
  - destruct (proj1 (wordchar_spec _) (Hw q ltac:(lia))) as [_ Hsym].
    rewrite bool_decide_eq_false_2 by (by intros ?%one_in_symbols).
    destruct (Z.eqb_spec (byte buf q) (ch ">")) as [E|]; [rewrite E in Hsym; destruct Hsym; in_closed|].
    rewrite (scan_spec wordchar buf _ q e); [by rewrite Hs | lia | done |].
    destruct Hend; [left; lia | by right].
Qed.
Lemma gettoken_end p : spells buf p [] ->
  exists s, gettoken buf p = (0, length buf, length buf, s) /\ spells buf s [].
Proof.
  intros H. destruct (spells_skip _ _ H) as (q & Hq & Hs & ->). exists (length buf). split; [|done].
  unfold gettoken. rewrite Hq. destruct (spells_skip _ _ Hs) as (q & Hq' & _ & ->).
  unfold byte at 1. rewrite lookup_ge_None_2 by done. cbn. rewrite Hq'.
  unfold byte. by rewrite lookup_ge_None_2.
Qed.

Lemma spells_total : forall n p, (length buf - p <= n)%nat -> (p <= length buf)%nat ->
  exists ts, spells buf p ts.
Proof.
  induction n as [|n IH]; intros p Hn Hp; destruct (skip_props buf p Hp) as [Hb Hq];
    set (q := skip buf p) in *.
  { exists []. constructor. split; [lia | intros; lia]. }
  destruct Hq as [Hq|Hq]; [exists []; constructor; by rewrite <- Hq|].
  destruct (decide (q = length buf)) as [E|Hne]; [exists []; constructor; by rewrite <- E|].
  assert (Ht : exists k e, token_at buf k q e).
  { destruct (decide (byte buf q ∈ chars "|();&<")); [eexists _, _; by apply t_sym|].
    destruct (decide (byte buf q = ch ">")) as [E|Hgt].
    - destruct (decide (byte buf (S q) = ch ">")); eexists _, _; [by apply t_append | by apply t_gt].
    - destruct (scan_props wordchar buf (length buf - q) q) as (K1 & K2 & K3).
      exists (ch "a"), (scan wordchar (length buf - q) buf q). destruct Hb as [Hb _]. constructor; [|done|].
      + split; [|lia]. destruct K3 as [->|K3]; [lia|].
        destruct (decide (scan wordchar (length buf - q) buf q = q)) as [E|]; [|lia].
        rewrite E in K3. assert (wordchar (byte buf q) = true); [|congruence].
        apply wordchar_spec. split; [done|]. intros Hs.
        apply symbols_split in Hs as []; done.
      + destruct K3; [left; lia | by right]. }
  destruct Ht as (k & e & Ht). destruct (token_at_props _ _ _ Ht) as (? & _). destruct Hb as [? ?].
  destruct (IH e) as [ts Hts]; [lia.. |]. exists (Tok k q e :: ts). by apply sp_tok.
Qed.

Definition syms (toks : string) : bool := forallb (fun x => bool_decide (x ∈ symbols)) (chars toks).
Lemma peek_yes p ts toks : spells buf p ts -> syms toks = true -> next ts ∈ chars toks ->
  exists q, peek buf p toks = (true, q) /\ spells buf q ts.
Proof.
  intros H Ht Hin. destruct (peek_spec p ts toks H) as (q & Hq & ?).
  - apply Forall_forall. intros x Hx. by apply (forallb_in _ _ _ Ht), bool_decide_eq_true in Hx.
  - exists q. by rewrite bool_decide_eq_true_2 in Hq.
Qed.
Lemma peek_no p ts toks : spells buf p ts -> syms toks = true -> next ts ∉ chars toks ->
  exists q, peek buf p toks = (false, q) /\ spells buf q ts.
Proof.
  intros H Ht Hin. destruct (peek_spec p ts toks H) as (q & Hq & ?).
  - apply Forall_forall. intros x Hx. by apply (forallb_in _ _ _ Ht), bool_decide_eq_true in Hx.
  - exists q. by rewrite bool_decide_eq_false_2 in Hq.
Qed.

(** ** The parser is sound, and has fuel enough *)

(** a run that returns has consumed tokens of the language [G] *)
Definition sound (G : list token -> cmd -> Prop) (ts : list token) (r : res (cmd * nat)) : Prop :=
  match r with
  | Done (c, s) => exists ts1 ts2, ts = ts1 ++ ts2 /\ G ts1 c /\ spells buf s ts2
  | Died _ => True
  | NoFuel => False
  end.

Lemma sound_bind (G G' : list token -> cmd -> Prop) ts m k :
  sound G ts m -> (forall c s ts1 ts2, ts = ts1 ++ ts2 -> G ts1 c -> spells buf s ts2 -> sound G' ts (k (c, s))) ->
  sound G' ts (rbind m k).
Proof. destruct m as [[c s]| |]; cbn; [intros (ts1 & ts2 & ? & ? & ?); eauto | done..]. Qed.
Lemma sound_done (G : list token -> cmd -> Prop) ts1 ts2 c s :
  G ts1 c -> spells buf s ts2 -> sound G (ts1 ++ ts2) (Done (c, s)).
Proof. intros. by exists ts1, ts2. Qed.
Lemma sound_done_nil (G : list token -> cmd -> Prop) ts c s :
  G [] c -> spells buf s ts -> sound G ts (Done (c, s)).
Proof. intros. by exists [], ts. Qed.
(** what is consumed after [ts1] *)
Lemma sound_after (G G' : list token -> cmd -> Prop) ts1 ts r : sound G ts r ->
  (forall ts2 c, G ts2 c -> G' (ts1 ++ ts2) c) -> sound G' (ts1 ++ ts) r.
Proof.
  intros H HG. destruct r as [[c s]| |]; [|done..]. destruct H as (a & b & -> & ? & ?).
  exists (ts1 ++ a), b. rewrite app_assoc. auto.
Qed.

Lemma next_in toks ts : next ts ∈ chars toks -> syms toks = true ->
  exists t ts', ts = t :: ts' /\ first_of (kind t) ∈ chars toks.
Proof.
  intros H Hs. destruct ts as [|t ts']; [|eauto]. cbn in H.
  apply (forallb_in _ _ _ Hs) in H. done.
Qed.
Lemma first_redir k : first_of k ∈ chars "<>" -> is_redir k.
Proof.
  unfold first_of, is_redir. destruct (Z.eqb_spec k (ch "+")); [tauto|]. intros H. each_in H; auto.
Qed.
(** a single-character token the parser has peeked at *)
Lemma peek_token s ts c : spells buf s ts -> chars c = [ch c] -> ch c ∈ symbols -> ch c <> ch ">" ->
  (exists t ts' s1 s2, ts = t :: ts' /\ kind t = ch c /\ peek buf s c = (true, s1) /\ spells buf s1 ts /\
     gettoken buf s1 = (kind t, tq t, teq t, s2) /\ spells buf s2 ts') \/
  (exists s1, peek buf s c = (false, s1) /\ spells buf s1 ts).
Proof.
  intros Hs Hc Hsym Hgt.
  assert (Hc' : syms c = true) by (unfold syms; rewrite Hc; cbn; by rewrite bool_decide_eq_true_2).
  destruct (decide (next ts ∈ chars c)) as [Hin|Hout]; [left | right; by apply peek_no].
  destruct (peek_yes s ts c) as (s1 & Hp & Hs1); [done..|].
  destruct (next_in _ _ Hin) as (t & ts' & -> & Ht); [done|].
  destruct (gettoken_spec _ _ _ Hs1) as (s2 & Hg & Hs2 & _). exists t, ts', s1, s2.
  split_and!; [done | | done..]. rewrite Hc, list_elem_of_singleton in Ht.
  unfold first_of in Ht. destruct (Z.eqb_spec (kind t) (ch "+")); [congruence | done].
Qed.
Ltac peek_tac H t ts s Ht Hs :=
  match type of H with spells _ ?p ?l =>
    match goal with |- context [peek _ p ?c] =>
      let s1 := fresh "s" in
      destruct (peek_token p l c H) as [(t & ts & s1 & s & -> & Ht & -> & _ & -> & Hs)|(s & -> & Hs)];
        [reflexivity | in_closed | done | |]; cbn [negb]
    end
  end.

Lemma parseredirs_sound : forall n c s ts, spells buf s ts -> (length ts < n)%nat ->
  sound (fun ts1 => redirs ts1 c) ts (parseredirs n buf c s).
Proof.
  induction n as [|n IH]; intros c s ts Hs Hn; [lia|]. cbn [parseredirs].
  destruct (decide (next ts ∈ chars "<>")) as [Hin|Hout].
  - destruct (peek_yes s ts "<>") as (s1 & -> & Hs1); [done..|].
    destruct (next_in _ _ Hin) as (t & ts' & -> & Ht%first_redir); [done|].
    destruct (gettoken_spec _ _ _ Hs1) as (s2 & -> & Hs2 & _).
    destruct ts' as [|w ts']; [by destruct (gettoken_end _ Hs2) as (s3 & -> & _)|].
    destruct (gettoken_spec _ _ _ Hs2) as (s3 & -> & Hs3 & _).
    destruct (Z.eqb_spec (kind w) (ch "a")) as [Hw|]; cbn [negb]; [|done].
    apply (sound_after _ _ [t; w] ts' _ (IH _ _ _ Hs3 ltac:(cbn in Hn; lia))).
    intros. by apply r_cons.
  - destruct (peek_no s ts "<>") as (s1 & -> & Hs1); [done..|].
    apply sound_done_nil; [constructor | done].
Qed.

Lemma redirs_args ts ts' c c' c'' n : redirs ts c c' -> args ts' c' n c'' -> args (ts ++ ts') c n c''.
Proof. induction 1; cbn; [done|]. intros. apply a_redir; auto. Qed.

Lemma parseargs_sound : forall n c argc s ts, spells buf s ts -> (length ts < n)%nat ->
  sound (fun ts1 => args ts1 c argc) ts (parseargs n buf c argc s).
Proof.
  induction n as [|n IH]; intros c argc s ts Hs Hn; [lia|]. cbn [parseargs].
  destruct (decide (next ts ∈ chars "|)&;")) as [Hin|Hout].
  { destruct (peek_yes s ts "|)&;") as (s1 & -> & Hs1); [done..|].
    apply sound_done_nil; [constructor | done]. }
  destruct (peek_no s ts "|)&;") as (s1 & -> & Hs1); [done..|].
  destruct ts as [|w ts].
  { destruct (gettoken_end _ Hs1) as (s2 & -> & Hs2). apply sound_done_nil; [constructor | done]. }
  destruct (gettoken_spec _ _ _ Hs1) as (s2 & -> & Hs2 & Hk). apply Z.eqb_neq in Hk as ->.
  destruct (Z.eqb_spec (kind w) (ch "a")) as [Hw|]; cbn [negb]; [|done].
  destruct (Nat.leb_spec MAXARGS (S argc)); [done|]. cbn in Hn.
  apply (sound_after (fun ts1 => args ts1 (add_arg c (tq w) (teq w)) (S argc)) _ [w]);
    [|intros; by apply a_word].
  eapply sound_bind; [apply (parseredirs_sound n _ _ _ Hs2); lia|].
  intros c' s3 rs rest -> Hr Hs3. rewrite length_app in Hn.
  eapply sound_after; [apply (IH c' (S argc) s3 rest Hs3); lia|].
  intros. by eapply redirs_args.
Qed.

Lemma backs_snoc n c : backs n (BACK c) = BACK (backs n c).
Proof. apply Nat.iter_swap. Qed.
Lemma parsebacks_sound : forall n c s ts, spells buf s ts -> (length ts < n)%nat ->
  sound (fun ts1 c' => Forall (fun t => kind t = ch "&") ts1 /\ c' = backs (length ts1) c) ts
    (parsebacks n buf c s).
Proof.
  induction n as [|n IH]; intros c s ts Hs Hn; [lia|]. cbn [parsebacks].
  peek_tac Hs t ts' s1 Ht Hs1; [|by apply sound_done_nil].
  apply (sound_after _ _ [t] ts' _ (IH (BACK c) _ _ Hs1 ltac:(cbn in Hn; lia))).
  intros ts2 c' [? ->]. split; [by constructor | apply backs_snoc].
Qed.

Lemma parser_sound : forall n,
  (forall s ts, spells buf s ts -> (4 * length ts + 4 <= n)%nat -> sound g_line ts (parseline n buf s)) /\
  (forall s ts, spells buf s ts -> (4 * length ts + 3 <= n)%nat -> sound g_pipe ts (parsepipe n buf s)) /\
  (forall s ts, spells buf s ts -> (4 * length ts + 1 <= n)%nat -> sound g_exec ts (parseblock n buf s)) /\
  (forall s ts, spells buf s ts -> (4 * length ts + 2 <= n)%nat -> sound g_exec ts (parseexec n buf s)).
Proof.
  induction n as [|n (IHl & IHp & IHb & IHe)]; [split_and!; intros; lia|].
  split_and!; intros s ts Hs Hn; cbn [parseline parsepipe parseblock parseexec].
  - eapply sound_bind; [apply (IHp _ _ Hs); lia|]. intros c s1 ts1 ts2 -> Hp Hs1. rewrite length_app in Hn.
    eapply sound_bind; [apply (sound_after _ (fun ts c' => exists amps, ts = ts1 ++ amps /\
      Forall (fun t => kind t = ch "&") amps /\ c' = backs (length amps) c) _ _ _
        (parsebacks_sound n c _ _ Hs1 ltac:(lia))); intros amps ? [? ->]; by exists amps|].
    intros c' s2 ts3 ts4 Heq (amps & -> & Ha & ->) Hs2. rewrite Heq. apply (f_equal length) in Heq.
    rewrite !length_app in Heq. peek_tac Hs2 t ts5 s3 Ht Hs3; [|by apply sound_done; [apply l_end|]].
    rewrite (app_assoc _ [t] ts5 : _ ++ t :: ts5 = _). cbn in Heq.
    eapply sound_bind; [apply (sound_after _ (fun ts c' => exists l, ts = (ts1 ++ amps) ++ t :: l /\ g_line l c') _ _ _
      (IHl _ _ Hs3 ltac:(lia))); intros l c0 ?; exists l; by rewrite <- app_assoc|].
    intros r s4 ts6 ts7 -> (l & -> & Hl) Hs4. apply sound_done; [|done]. rewrite <- app_assoc. by apply l_seq.
  - eapply sound_bind; [apply (IHe _ _ Hs); lia|]. intros c s1 ts1 ts2 -> Hp Hs1. rewrite length_app in Hn.
    peek_tac Hs1 t ts3 s2 Ht Hs2; [|by apply sound_done; [apply p_one|]].
    rewrite (app_assoc _ [t] ts3 : _ ++ t :: ts3 = _). cbn in Hn.
    eapply sound_bind; [apply (sound_after _ (fun ts c' => exists l, ts = ts1 ++ t :: l /\ g_pipe l c') _ _ _
      (IHp _ _ Hs2 ltac:(lia))); intros l c0 ?; exists l; by rewrite <- app_assoc|].
    intros r s4 ts6 ts7 -> (l & -> & Hl) Hs4. apply sound_done; [|done]. by apply p_more.
  - peek_tac Hs t ts1 s1 Ht Hs1; [|done]. cbn in Hn.
    eapply sound_bind; [apply (sound_after _ (fun ts c' => exists l, ts = [t] ++ l /\ g_line l c') [t] _ _
      (IHl _ _ Hs1 ltac:(lia))); eauto|].
    intros c s2 ts2 ts3 Heq (l & -> & Hl) Hs2. rewrite Heq. injection Heq as Heq. apply (f_equal length) in Heq.
    rewrite length_app in Heq. peek_tac Hs2 t' ts5 s3 Ht' Hs3; [|done]. cbn in Heq.
    rewrite (app_assoc _ [t'] ts5 : _ ++ t' :: ts5 = _).
    apply (sound_after _ _ _ _ _ (parseredirs_sound n c _ _ Hs3 ltac:(lia))).
    intros rs c' Hr. rewrite <- app_assoc. by apply (e_block t l t' rs c).
  - destruct (peek_token s ts "(") as [(t & ts' & s1 & s2 & -> & Ht & -> & Hs1 & _)|(s1 & -> & Hs1)];
      [done | reflexivity | in_closed | done | |].
    { apply IHb; [done | lia]. }
    eapply sound_bind; [apply (parseredirs_sound n _ _ _ Hs1); lia|].
    intros c s2 rs ts2 -> Hr Hs2. rewrite length_app in Hn.
    apply (sound_after _ _ _ _ _ (parseargs_sound n c 0 _ _ Hs2 ltac:(lia))).
    intros. apply e_simple. by eapply redirs_args.
Qed.

(** ** The parser is complete *)

(** the run returns [c] and stops before [rest] *)
Definition exact (m : res (cmd * nat)) (c : cmd) (rest : list token) : Prop :=
  exists s, m = Done (c, s) /\ spells buf s rest.
Lemma exact_bind m k c rest c' rest' : exact m c rest ->
  (forall s, spells buf s rest -> exact (k (c, s)) c' rest') -> exact (rbind m k) c' rest'.
Proof. intros (s & -> & Hs) Hk. by apply Hk. Qed.
Lemma exact_done c s rest : spells buf s rest -> exact (Done (c, s)) c rest.
Proof. by exists s. Qed.

(** the next token is not one of [toks], by computation on a set it belongs to *)
Lemma avoid (F : list Z) x toks : x ∈ F ->
  forallb (fun y => negb (bool_decide (y ∈ chars toks))) F = true -> x ∉ chars toks.
Proof. intros Hx HF. apply (forallb_in _ _ _ HF) in Hx. by apply negb_true_iff, bool_decide_eq_false in Hx. Qed.
Lemma next_kind t ts k : kind t = k -> k <> ch "+" -> next (t :: ts) = k.
Proof. intros <- H. cbn. unfold first_of. by apply Z.eqb_neq in H as ->. Qed.
Lemma next_nz t ts : kind t <> 0 -> next (t :: ts) <> 0.
Proof. intros H. cbn. unfold first_of. by destruct (kind t =? ch "+"). Qed.
Lemma next_redir t ts : is_redir (kind t) -> next (t :: ts) ∈ chars "<>".
Proof. cbn. intros [->|[->| ->]]; in_closed. Qed.

(** what may follow a line, a pipeline and a command *)
Definition follow_line : list Z := 0 :: chars ")".
Definition follow_pipe : list Z := follow_line ++ chars "&;".
Definition follow_exec : list Z := follow_pipe ++ chars "|".

Lemma parseredirs_complete ts c c' : redirs ts c c' -> forall n s rest, spells buf s (ts ++ rest) ->
  (length (ts ++ rest) < n)%nat -> next rest ∉ chars "<>" -> exact (parseredirs n buf c s) c' rest.
Proof.
  induction 1 as [c|t w ts c c' Ht Hw Hr IH]; intros [|n] s rest Hs Hn Hout; [lia | | lia |];
    cbn [parseredirs].
  - destruct (peek_no s rest "<>") as (s1 & -> & Hs1); [done..|]. by apply exact_done.
  - destruct (peek_yes s ((t :: w :: ts) ++ rest) "<>") as (s1 & -> & Hs1); [done | done | by apply next_redir |].
    destruct (gettoken_spec _ _ _ Hs1) as (s2 & -> & Hs2 & _).
    destruct (gettoken_spec _ _ _ Hs2) as (s3 & -> & Hs3 & _).
    rewrite Hw. cbn [negb Z.eqb]. apply IH; [done | cbn in Hn; lia | done].
Qed.

Lemma parseargs_complete ts c argc c' : args ts c argc c' -> forall n n' s rest,
  spells buf s (ts ++ rest) -> (length (ts ++ rest) < n)%nat -> (length (ts ++ rest) < n')%nat ->
  next rest ∈ follow_exec ->
  exact (rbind (parseredirs n buf c s) (fun '(r, s) => parseargs n' buf r argc s)) c' rest.
Proof.
  induction 1 as [c argc|t w ts c argc c' Ht Hw Hr IH|w ts c argc c' Hw Hlt Hr IH];
    intros n [|n'] s rest Hs Hn Hn' Hf; try lia.
  - eapply exact_bind; [apply (parseredirs_complete [] c c); [constructor | done.. | by eapply avoid]|].
    intros s1 Hs1. cbn [parseargs]. destruct (decide (next rest ∈ chars "|)&;")) as [Hin|Hout].
    + destruct (peek_yes s1 rest "|)&;") as (s2 & -> & Hs2); [done..|]. by apply exact_done.
    + destruct (peek_no s1 rest "|)&;") as (s2 & -> & Hs2); [done..|].
      destruct rest as [|t rest]; [destruct (gettoken_end _ Hs2) as (s3 & -> & Hs3); by apply exact_done|].
      destruct (gettoken_spec _ _ _ Hs2) as (_ & _ & _ & Hk). apply (next_nz t rest) in Hk.
      apply elem_of_cons in Hf as [?|Hf]; [done|]. destruct Hout.
      revert Hf. generalize (next (t :: rest)). intros x Hf. each_in Hf; in_closed.
  - destruct n as [|n]; [lia|]. cbn [parseredirs].
    destruct (peek_yes s ((t :: w :: ts) ++ rest) "<>") as (s1 & -> & Hs1); [done | done | by apply next_redir |].
    destruct (gettoken_spec _ _ _ Hs1) as (s2 & -> & Hs2 & _).
    destruct (gettoken_spec _ _ _ Hs2) as (s3 & -> & Hs3 & _).
    rewrite Hw. cbn [negb Z.eqb]. apply IH; [done | cbn in Hn, Hn'; lia.. | done].
  - assert (Hnext : next ((w :: ts) ++ rest) = ch "a") by by apply next_kind.
    eapply exact_bind; [apply (parseredirs_complete [] c c); [constructor | done.. |
      rewrite Hnext; not_in_closed]|].
    intros s1 Hs1. cbn [parseargs].
    destruct (peek_no s1 ((w :: ts) ++ rest) "|)&;") as (s2 & -> & Hs2); [done | done | rewrite Hnext; not_in_closed |].
    destruct (gettoken_spec _ _ _ Hs2) as (s3 & -> & Hs3 & _). rewrite Hw. cbn [negb Z.eqb].
    destruct (Nat.leb_spec MAXARGS (S argc)); [lia|]. cbn in Hn, Hn'. apply IH; [done | lia.. | done].
Qed.

(** the two outcomes of a [peek] for one character, on a known next token *)
Lemma peek_take s t ts c : spells buf s (t :: ts) -> kind t = ch c -> chars c = [ch c] ->
  ch c ∈ symbols -> ch c <> ch "+" ->
  exists s1 s2, peek buf s c = (true, s1) /\ spells buf s1 (t :: ts) /\
    gettoken buf s1 = (kind t, tq t, teq t, s2) /\ spells buf s2 ts.
Proof.
  intros Hs Ht Hc Hsym Hp.
  destruct (peek_yes s (t :: ts) c) as (s1 & Hp1 & Hs1); [done | | |].
  - unfold syms. rewrite Hc. cbn. by rewrite bool_decide_eq_true_2.
  - rewrite Hc, (next_kind t ts (ch c)) by done. by apply list_elem_of_singleton.
  - destruct (gettoken_spec _ _ _ Hs1) as (s2 & ? & ? & _). by exists s1, s2.
Qed.

Lemma parsebacks_complete amps : Forall (fun t => kind t = ch "&") amps -> forall n c s rest,
  spells buf s (amps ++ rest) -> (length (amps ++ rest) < n)%nat -> next rest ∉ chars "&" ->
  exact (parsebacks n buf c s) (backs (length amps) c) rest.
Proof.
  induction 1 as [|t amps Ht Ha IH]; intros [|n] c s rest Hs Hn Hout; [lia | | lia |]; cbn [parsebacks].
  - destruct (peek_no s rest "&") as (s1 & -> & Hs1); [done..|]. by apply exact_done.
  - destruct (peek_take s t (amps ++ rest) "&") as (s1 & s2 & -> & _ & -> & Hs2); [done | done | done | in_closed | done|].
    cbn [length]. replace (backs (S (length amps)) c) with (backs (length amps) (BACK c)) by apply backs_snoc.
    apply IH; [done | cbn in Hn; lia | done].
Qed.

Lemma args_next ts c n c' rest : args ts c n c' -> next rest ∈ follow_exec ->
  next (ts ++ rest) ∈ follow_exec ++ chars "a<>".
Proof.
  destruct 1 as [|t w ts c n c' Ht|w ts c n c' Hw]; intros Hf.
  - apply elem_of_app. by left.
  - apply elem_of_app. right. apply elem_of_cons. right. by apply next_redir.
  - cbn [app]. rewrite (next_kind w _ (ch "a")) by done. in_closed.
Qed.

Definition line_complete ts c := forall n s rest, spells buf s (ts ++ rest) ->
  (4 * length (ts ++ rest) + 4 <= n)%nat -> next rest ∈ follow_line -> exact (parseline n buf s) c rest.
Definition pipe_complete ts c := forall n s rest, spells buf s (ts ++ rest) ->
  (4 * length (ts ++ rest) + 3 <= n)%nat -> next rest ∈ follow_pipe -> exact (parsepipe n buf s) c rest.
Definition exec_complete ts c := forall n s rest, spells buf s (ts ++ rest) ->
  (4 * length (ts ++ rest) + 2 <= n)%nat -> next rest ∈ follow_exec -> exact (parseexec n buf s) c rest.

Lemma amps_next amps rest (F : list Z) : Forall (fun t => kind t = ch "&") amps -> next rest ∈ F -> ch "&" ∈ F ->
  next (amps ++ rest) ∈ F.
Proof. intros [|t l Ht _] Hr HF; [done|]. cbn [app]. by rewrite (next_kind t _ (ch "&")). Qed.

Lemma exec_block_complete o ts cl rs c c' : kind o = ch "(" -> line_complete ts c -> kind cl = ch ")" ->
  redirs rs c c' -> exec_complete (o :: ts ++ cl :: rs) c'.
Proof.
  intros Ho IH Hcl Hr [|[|n]] s rest Hs Hn Hf; [lia..|]. cbn [parseexec parseblock].
  cbn [app] in Hs, Hn. rewrite <- app_assoc in Hs, Hn. cbn [length] in Hn. rewrite length_app in Hn. cbn in Hn.
  destruct (peek_take s o (ts ++ (cl :: rs) ++ rest) "(") as (s1 & _ & -> & Hs1 & _); [done | done | done | in_closed | done |].
  destruct (peek_take s1 o (ts ++ (cl :: rs) ++ rest) "(") as (s2 & s3 & -> & _ & -> & Hs3); [done | done | done | in_closed | done |].
  cbn [negb]. eapply exact_bind.
  { apply (IH n s3 ((cl :: rs) ++ rest)); [done | rewrite length_app; cbn; lia |].
    cbn [app]. rewrite (next_kind cl _ (ch ")")) by done. in_closed. }
  intros s4 Hs4. destruct (peek_take s4 cl (rs ++ rest) ")") as (s5 & s6 & -> & _ & -> & Hs6); [done | done | done | in_closed | done |].
  cbn [negb]. apply (parseredirs_complete rs c c'); [done | done | lia |]. by eapply avoid.
Qed.

Lemma parser_complete :
  (forall ts c, g_line ts c -> line_complete ts c) /\ (forall ts c, g_pipe ts c -> pipe_complete ts c) /\
  (forall ts c, g_exec ts c -> exec_complete ts c).
Proof.
  apply grammar_ind.
  - intros ts amps c _ IH Ha [|n] s rest Hs Hn Hf; [lia|]. cbn [parseline]. rewrite <- app_assoc in Hs, Hn.
    eapply exact_bind; [apply (IH n s (amps ++ rest) Hs ltac:(lia)), amps_next; [done | apply elem_of_app; by left | in_closed]|].
    intros s1 Hs1. rewrite length_app in Hn.
    eapply exact_bind; [apply (parsebacks_complete amps Ha n c s1 rest Hs1 ltac:(lia)); by eapply avoid|].
    intros s2 Hs2. destruct (peek_no s2 rest ";") as (s3 & -> & Hs3); [done | done | by eapply avoid |].
    by apply exact_done.
  - intros ts amps semi ts' c c' _ IH Ha Hsemi _ IH' [|n] s rest Hs Hn Hf; [lia|]. cbn [parseline].
    assert (Hsn : next ((semi :: ts') ++ rest) = ch ";") by by apply next_kind.
    rewrite <- !app_assoc in Hs, Hn.
    eapply exact_bind; [apply (IH n s _ Hs ltac:(lia)), amps_next; [done | rewrite Hsn; in_closed | in_closed]|].
    intros s1 Hs1. rewrite !length_app in Hn. cbn [length] in Hn.
    eapply exact_bind; [apply (parsebacks_complete amps Ha n c s1 _ Hs1); [rewrite !length_app; cbn; lia | rewrite Hsn; not_in_closed]|].
    intros s2 Hs2. destruct (peek_take s2 semi (ts' ++ rest) ";") as (s3 & s4 & -> & _ & -> & Hs4); [done | done | done | in_closed | done |].
    eapply exact_bind; [apply (IH' n s4 rest Hs4); [rewrite length_app; lia | done]|].
    intros s5 Hs5. by apply exact_done.
  - intros ts c _ IH [|n] s rest Hs Hn Hf; [lia|]. cbn [parsepipe].
    eapply exact_bind; [apply (IH n s rest Hs ltac:(lia)), elem_of_app; by left|].
    intros s1 Hs1. destruct (peek_no s1 rest "|") as (s2 & -> & Hs2); [done | done | by eapply avoid|]. by apply exact_done.
  - intros ts bar ts' c c' _ IH Hb _ IH' [|n] s rest Hs Hn Hf; [lia|]. cbn [parsepipe]. rewrite <- app_assoc in Hs, Hn.
    eapply exact_bind; [apply (IH n s _ Hs ltac:(lia)); cbn [app]; rewrite (next_kind bar _ (ch "|")) by done; in_closed|].
    intros s1 Hs1. rewrite length_app in Hn. cbn [app length] in Hn.
    destruct (peek_take s1 bar (ts' ++ rest) "|") as (s3 & s4 & -> & _ & -> & Hs4); [done | done | done | in_closed | done |].
    eapply exact_bind; [apply (IH' n s4 rest Hs4 ltac:(lia) Hf)|]. intros s5 Hs5. by apply exact_done.
  - intros o ts cl rs c c' Ho _ IH Hcl Hr. by eapply exec_block_complete.
  - intros ts c Ha [|n] s rest Hs Hn Hf; [lia|]. cbn [parseexec].
    destruct (peek_no s (ts ++ rest) "(") as (s1 & -> & Hs1); [done | done | |].
    { eapply avoid; [by eapply args_next | done]. }
    apply (parseargs_complete ts (EXEC []) 0 c); [done | done | lia | lia | done].
Qed.
End lexer.

Lemma spells_length buf p ts : spells buf p ts -> (length ts + p <= length buf)%nat.
Proof.
  induction 1 as [p [? _]|p k q e ts [? _] Ht _ IH]; cbn; [lia|].
  assert (q < e)%nat; [|lia]. destruct Ht; lia.
Qed.

Lemma parsecmd_ok (buf : list Z) : Forall (.≠ 0) buf ->
  parsecmd buf <> NoFuel /\
  forall c b, parsecmd buf = Done (c, b) <->
    (exists ts, spells buf 0 ts /\ g_line ts c) /\ b = nulterminate c buf.
Proof.
  intros Hnz. destruct (spells_total buf (length buf) 0) as [ts Hts]; [lia.. |].
  pose proof (spells_length _ _ _ Hts). set (n := (4 * length buf + 4)%nat).
  assert (Hsound := proj1 (parser_sound buf Hnz n) 0%nat ts Hts ltac:(lia)).
  assert (Hcomplete : forall ts' c, spells buf 0 ts' -> g_line ts' c -> parsecmd buf = Done (c, nulterminate c buf)).
  { intros ts' c Hts' Hl. pose proof (spells_length _ _ _ Hts').
    destruct (proj1 (parser_complete buf Hnz) ts' c Hl n 0%nat []) as (s & Hp & Hs);
      [by rewrite app_nil_r | rewrite app_nil_r; lia | in_closed |].
    unfold parsecmd. fold n. rewrite Hp. cbn [rbind]. unfold peek.
    destruct (spells_skip buf s [] Hs) as (q & -> & _ & ->). by rewrite Nat.eqb_refl. }
  unfold sound in Hsound. unfold parsecmd in Hcomplete |- *. fold n in Hcomplete |- *.
  destruct (parseline n buf 0) as [[c' s]|out|]; [|split; [done|] | done].
  - destruct Hsound as (ts1 & ts2 & -> & Hl & Hs). cbn [rbind] in *. unfold peek in *.
    destruct (spells_skip buf s ts2 Hs) as (q & Hq & _ & Hpos). rewrite Hq in *.
    destruct (Nat.eqb_spec q (length buf)) as [E|E]; cbn [negb] in *.
    + split; [done|]. intros c b. split.
      * intros [= <- <-]. split; [|done]. exists ts1. split; [|done]. destruct ts2; [by rewrite app_nil_r in Hts|].
        inversion Hs as [|????? _ Ht]; subst. apply token_at_props in Ht as [? _]. cbn in *. lia.
      * intros [(ts' & ? & ?) ->]. by eapply Hcomplete.
    + split; [done|]. intros c b. split; [done|]. intros [(ts' & ? & ?) ->]. by eapply Hcomplete.
  - intros c b. split; [done|]. intros [(ts' & ? & ?) ->]. by eapply Hcomplete.
Qed.

(** ** The words of a tree as C strings *)
Definition slice (b : list Z) (q e : nat) : list Z := take (e - q) (drop q b).

Fixpoint words (c : cmd) : list (nat * nat) :=
  match c with
  | EXEC argv => argv
  | REDIR c' file efile _ _ => words c' ++ [(file, efile)]
  | PIPE l r | LIST l r => words l ++ words r
  | BACK c' => words c'
  end.
(** the word tokens of a line *)
Definition word_tokens (ts : list token) : list (nat * nat) :=
  (fun t => (tq t, teq t)) <$> filter (fun t => kind t = ch "a") ts.

Lemma word_tokens_app ts ts' : word_tokens (ts ++ ts') = word_tokens ts ++ word_tokens ts'.
Proof. unfold word_tokens. by rewrite filter_app, fmap_app. Qed.
Lemma word_tokens_word t ts : kind t = ch "a" -> word_tokens (t :: ts) = (tq t, teq t) :: word_tokens ts.
Proof. intros H. unfold word_tokens. by rewrite filter_cons_True. Qed.
Lemma word_tokens_sym t ts : kind t <> ch "a" -> word_tokens (t :: ts) = word_tokens ts.
Proof. intros H. unfold word_tokens. by rewrite filter_cons_False. Qed.

(** a command whose arguments can still be added to *)
Fixpoint simple (c : cmd) : Prop :=
  match c with EXEC _ => True | REDIR c' _ _ _ _ => simple c' | _ => False end.
Lemma words_add_arg c q e : simple c -> words (add_arg c q e) ≡ₚ (q, e) :: words c /\ simple (add_arg c q e).
Proof.
  induction c as [argv|c IH f ef m fd| | |]; cbn; [|intros [-> ?]%IH; done | done..].
  intros _. split; [by rewrite Permutation_app_comm | done].
Qed.
Lemma words_redir k c q e : is_redir k -> words (redircmd k c q e) ≡ₚ (q, e) :: words c /\
  (simple c -> simple (redircmd k c q e)).
Proof.
  intros [->|[->| ->]]; (split; [exact (Permutation_app_comm (words c) [(q, e)]) | exact (fun H => H)]).
Qed.

Lemma redirs_words ts c c' : redirs ts c c' -> words c' ≡ₚ words c ++ word_tokens ts.
Proof.
  induction 1 as [c|t w ts c c' Ht Hw Hr IH]; [by rewrite app_nil_r|].
  rewrite word_tokens_sym, word_tokens_word, IH by (first [done | by destruct Ht as [->|[->| ->]]]).
  destruct (words_redir (kind t) c (tq w) (teq w) Ht) as [-> _]. apply Permutation_middle.
Qed.
Lemma args_words ts c n c' : args ts c n c' -> simple c -> words c' ≡ₚ words c ++ word_tokens ts.
Proof.
  induction 1 as [c n|t w ts c n c' Ht Hw Hr IH|w ts c n c' Hw Hlt Hr IH]; intros Hs; [by rewrite app_nil_r|..].
  - rewrite word_tokens_sym, word_tokens_word by (first [done | by destruct Ht as [->|[->| ->]]]).
    destruct (words_redir (kind t) c (tq w) (teq w) Ht) as [Hp Hs']. rewrite IH by auto.
    rewrite Hp. apply Permutation_middle.
  - rewrite word_tokens_word by done. destruct (words_add_arg c (tq w) (teq w) Hs) as [Hp Hs'].
    rewrite IH, Hp by done. apply Permutation_middle.
Qed.
Lemma words_backs n c : words (backs n c) = words c.
Proof. induction n; cbn; done. Qed.
Lemma word_tokens_amps amps : Forall (fun t => kind t = ch "&") amps -> word_tokens amps = [].
Proof. induction 1 as [|t l Ht Hl IH]; [done|]. rewrite word_tokens_sym; [done | by rewrite Ht]. Qed.

Lemma grammar_words :
  (forall ts c, g_line ts c -> words c ≡ₚ word_tokens ts) /\ (forall ts c, g_pipe ts c -> words c ≡ₚ word_tokens ts) /\
  (forall ts c, g_exec ts c -> words c ≡ₚ word_tokens ts).
Proof.
  apply grammar_ind.
  - intros ts amps c _ IH Ha. by rewrite words_backs, word_tokens_app, (word_tokens_amps amps Ha), app_nil_r.
  - intros ts amps semi ts' c c' _ IH Ha Hs _ IH'. cbn [words]. rewrite words_backs, IH, IH'.
    rewrite !word_tokens_app, (word_tokens_amps amps Ha), word_tokens_sym by (by rewrite Hs). done.
  - done.
  - intros ts bar ts' c c' _ IH Hb _ IH'. cbn [words]. rewrite IH, IH', word_tokens_app.
    by rewrite word_tokens_sym by (by rewrite Hb).
  - intros o ts cl rs c c' Ho _ IH Hcl Hr. rewrite (redirs_words _ _ _ Hr), IH.
    rewrite word_tokens_sym, word_tokens_app, word_tokens_sym by (by rewrite ?Ho, ?Hcl). done.
  - intros ts c Ha. by rewrite (args_words _ _ _ _ Ha).
Qed.

Lemma spells_words buf p ts w : spells buf p ts -> w ∈ word_tokens ts -> token_at buf (ch "a") w.1 w.2.
Proof.
  induction 1 as [|p k q e ts _ Ht _ IH]; [by intros ?%elem_of_nil|].
  destruct (decide (k = ch "a")) as [->|Hk].
  - rewrite word_tokens_word by done. intros [->|?]%elem_of_cons; [done | auto].
  - by rewrite word_tokens_sym.
Qed.

(** [nulterminate] writes a NUL after each word and nothing else *)
Lemma foldl_stnul (ws : list (nat * nat)) b i : let b' := foldl (fun b w => stnul b w.2) b ws in
  length b' = length b /\ b' !! i = if decide (i ∈ ws.*2) then (fun _ => 0) <$> b !! i else b !! i.
Proof.
  revert b. induction ws as [|w ws IH]; intros b; cbn [foldl fmap list_fmap].
  { split; [done|]. by rewrite decide_False by (by intros ?%elem_of_nil). }
  destruct (IH (stnul b w.2)) as [-> ->]. unfold stnul. rewrite length_insert. split; [done|].
  destruct (decide (i = w.2)) as [->|Hne].
  - rewrite (decide_True (P := w.2 ∈ w.2 :: _)) by by left.
    destruct (decide (w.2 < length b)%nat).
    + rewrite list_lookup_insert_eq by done. destruct (lookup_lt_is_Some_2 b w.2) as [x ->]; [done|]. by case_decide.
    + rewrite list_insert_ge by lia. rewrite lookup_ge_None_2 by lia. by case_decide.
  - rewrite list_lookup_insert_ne by done.
    destruct (decide (i ∈ ws.*2)) as [Hi|Hi]; [by rewrite decide_True by by right|].
    by rewrite decide_False by (intros [?|?]%elem_of_cons; done).
Qed.
Lemma nulterminate_foldl c b : nulterminate c b = foldl (fun b w => stnul b w.2) b (words c).
Proof.
  revert b. induction c as [argv|c IH f ef m fd|l IHl r IHr|l IHl r IHr|c IH]; intros b; cbn; [done|..|done].
  - by rewrite foldl_app, IH.
  - by rewrite foldl_app, IHl, IHr.
  - by rewrite foldl_app, IHl, IHr.
Qed.

Lemma word_inv buf q e : token_at buf (ch "a") q e -> (q < e <= length buf)%nat /\
  (forall i, (q <= i < e)%nat -> wordchar (byte buf i) = true) /\
  (e = length buf \/ wordchar (byte buf e) = false).
Proof.
  inversion 1 as [? Hs E| | |]; subst; [|done]. rewrite E in Hs. exfalso. revert Hs. not_in_closed.
Qed.

Lemma until_nul_take n : forall l, Forall (.≠ 0) (take n l) -> default 0 (l !! n) = 0 -> until_nul l = take n l.
Proof.
  induction n as [|n IH]; intros [|x l] Hnz Hend; cbn in *; [done | by subst | done |].
  apply Forall_cons in Hnz as [Hx Hnz]. apply Z.eqb_neq in Hx as ->. by rewrite IH.
Qed.

(** after parsing, the tree's words are C strings with the right text: the pointers in
    the tree are exactly the positions of the line's word tokens, each once, and the
    NUL-terminated string at the start of each is the text of that token, although
    the terminator may overwrite the symbol that ended the word. *)
Lemma parsed_words (buf : list Z) (c : cmd) (b : list Z) : Forall (.≠ 0) buf ->
  parsecmd buf = Done (c, b) ->
  exists ts, spells buf 0 ts /\ words c ≡ₚ word_tokens ts /\
    forall w, w ∈ words c -> cstr b w.1 = slice buf w.1 w.2.
Proof.
  intros Hnz Hp. apply (proj2 (parsecmd_ok buf Hnz)) in Hp as [(ts & Hts & Hl) ->]. exists ts.
  pose proof (proj1 grammar_words ts c Hl) as Hperm. split_and!; [done | done |].
  assert (Hword : forall w, w ∈ words c -> token_at buf (ch "a") w.1 w.2).
  { intros w Hw. rewrite Hperm in Hw. by eapply spells_words. }
  intros [q e] Hw. specialize (word_inv _ _ _ (Hword _ Hw)) as (He & Hin & Hend). cbn in He, Hin, Hend |- *.
  assert (Hsame : take (e - q) (drop q (nulterminate c buf)) = slice buf q e).
  { unfold slice. apply list_eq. intros i. destruct (decide (i < e - q)%nat) as [Hi|Hi];
      [rewrite !lookup_take_lt, !lookup_drop by lia | by rewrite !lookup_take_ge by lia].
    rewrite nulterminate_foldl. destruct (foldl_stnul (words c) buf (q + i)) as [_ ->].
    rewrite decide_False; [done|]. intros ([q' e'] & Heq & Hw')%list_elem_of_fmap. cbn in Heq.
    destruct (word_inv _ _ _ (Hword _ Hw')) as (? & _ & [?|Hne]); cbn in *; [lia|].
    rewrite <- Heq, Hin in Hne by lia. done. }
  unfold cstr. rewrite (until_nul_take (e - q)), Hsame; [done | |].
  - rewrite Hsame. by apply Forall_take, Forall_drop.
  - rewrite lookup_drop, nulterminate_foldl. destruct (foldl_stnul (words c) buf (q + (e - q))) as [_ ->].
    replace (q + (e - q))%nat with e by lia.
    rewrite decide_True; [by destruct (buf !! e)|]. apply list_elem_of_fmap. by exists (q, e).
Qed.

(** C32: the shell's recursive-descent parser implements its grammar: on a line without NUL
    it always comes to an end, and it returns a tree exactly when the tokens the line
    spells form a sentence of the grammar (lines of pipelines with & and ;, commands
    of words and redirections in any order, blocks), the tree being the one the
    grammar gives; any other line is rejected with a message.  The line it leaves
    has a NUL after each word, so that every word the tree points to is a C string with the
    text of its token, and differs from the line typed nowhere else. *)
Theorem parsecmd_grammar (buf : list Z) : Forall (.≠ 0) buf ->
  parsecmd buf <> NoFuel /\
  (forall c b, parsecmd buf = Done (c, b) <->
    (exists ts, spells buf 0 ts /\ g_line ts c) /\ b = nulterminate c buf) /\
  forall c b, parsecmd buf = Done (c, b) ->
    (forall w, w ∈ words c -> cstr b w.1 = slice buf w.1 w.2) /\
    forall k, b !! k = if decide (k ∈ (words c).*2) then (fun _ => 0) <$> buf !! k else buf !! k.
Proof.
  intros Hnz. split_and!; [apply parsecmd_ok, Hnz | apply parsecmd_ok, Hnz |]. intros c b Hp. split.
  - by destruct (parsed_words buf c b Hnz Hp) as (ts & _ & _ & H).
  - intros k. apply (proj2 (parsecmd_ok buf Hnz)) in Hp as [_ ->].
    rewrite nulterminate_foldl. apply (foldl_stnul (words c) buf k).
Qed.

(** ** Descriptors

    A reference semantics of the calls: a process has a table of descriptors, a new
    one is the lowest that is free, [Fork] copies the table; [Exec] ends the run with
    the program and the table it starts with.  Pipes are numbered as they are made. *)
Inductive endpoint := Outside (n : nat) | PipeR (id : nat) | PipeW (id : nat) | FileAt (name : list Z) (mode : Z).
Definition table : Type := list (option endpoint).

Fixpoint fd_alloc (x : endpoint) (fds : table) : option (nat * table) :=
  match fds with
  | [] => None
  | None :: fds' => Some (0%nat, Some x :: fds')
  | Some y :: fds' => match fd_alloc x fds' with Some (n, t) => Some (S n, Some y :: t) | None => None end
  end.
Definition fd_get (fds : table) (fd : Z) : option endpoint := mjoin (fds !! Z.to_nat fd).
Definition fd_close (fds : table) (fd : Z) : table := <[Z.to_nat fd := None]> fds.

(** the programs started, with their tables, and the number of pipes made *)
Fixpoint run (p : prog) (fds : table) (id : nat) : list (list (list Z) * table) * nat :=
  match p with
  | Exit _ => ([], id)
  | Exec argv _ => ([(argv, fds)], id)
  | Fprint2 _ k => run k fds id
  | Close fd k => run k (fd_close fds fd) id
  | Open file mode k =>
      match fd_alloc (FileAt file mode) fds with
      | Some (fd, fds') => run (k fd) fds' id
      | None => run (k (-1)) fds id
      end
  | Dup fd k =>
      match fd_get fds fd with
      | Some x => match fd_alloc x fds with Some (_, fds') => run k fds' id | None => run k fds id end
      | None => run k fds id
      end
  | MkPipe failed k =>
      match fd_alloc (PipeR id) fds with
      | Some (r, fds') =>
          match fd_alloc (PipeW id) fds' with
          | Some (w, fds'') => run (k r w) fds'' (S id)
          | None => run failed fds id
          end
      | None => run failed fds id
      end
  | Fork child parent _ =>
      let '(out1, id1) := run child fds id in
      let '(out2, id2) := run parent fds id1 in (out1 ++ out2, id2)
  | Wait k => run k fds id
  | Chdir _ _ k => run k fds id
  end.

(** the tree [parsepipe] makes of simple commands *)
Fixpoint pipeline (w : list (nat * nat)) (ws : list (list (nat * nat))) : cmd :=
  match ws with [] => EXEC w | w' :: ws' => PIPE (EXEC w) (pipeline w' ws') end.

(** how the commands of a pipeline should be connected *)
Fixpoint plumbed (b : list Z) (w : list (nat * nat)) (ws : list (list (nat * nat)))
    (i o e : endpoint) (free : nat) (id : nat) : list (list (list Z) * table) :=
  let start w i o := ((fun v : nat * nat => cstr b v.1) <$> w, [Some i; Some o; Some e] ++ replicate free None) in
  match ws with
  | [] => [start w i o]
  | w' :: ws' => start w i (PipeW id) :: plumbed b w' ws' (PipeR id) o e free (S id)
  end.

(** pipelines are plumbed correctly: run with descriptors 0, 1 and 2 open and at least
    two more free, each command of a pipeline is started with exactly three open
    descriptors - its input the previous pipe's read end, its output the next pipe's
    write end, the outer ones at the two ends, and the error output - so no process
    keeps a stray end of a pipe open. *)
Lemma pipeline_plumbing (b : list Z) (w : list (nat * nat)) (ws : list (list (nat * nat)))
    (i o e : endpoint) (free id : nat) :
  (2 <= free)%nat -> w <> [] -> Forall (.≠ []) ws ->
  run (runcmd b (pipeline w ws)) ([Some i; Some o; Some e] ++ replicate free None) id =
  (plumbed b w ws i o e free id, (id + length ws)%nat).
Proof.
  intros Hfree Hw Hws. destruct free as [|[|free]]; [lia.. |]. clear Hfree.
  revert w i id Hw. induction Hws as [|w' ws Hw' Hws IH]; intros w i id Hw.
  - destruct w; [done|]. cbn. by rewrite Nat.add_0_r.
  - destruct w as [|v w]; [done|]. specialize (IH w' (PipeR id) (S id) Hw').
    cbn in IH |- *. unfold fd_close, fd_get. rewrite !Nat2Z.id.
    change (Z.to_nat 1) with 1%nat. change (Z.to_nat 0) with 0%nat. cbn. rewrite IH. cbn. rewrite app_nil_r. f_equal. lia.
Qed.

(** "a b<f | (c; d&) >>g" *)
Definition sample : list Z := chars "a b<f | (c; d&) >>g".
Definition sample_cmd : cmd :=
  PIPE (REDIR (EXEC [(0, 1); (2, 3)]%nat) 4 5 O_RDONLY 0)
    (REDIR (LIST (EXEC [(9, 10)]%nat) (BACK (EXEC [(12, 13)]%nat))) 18 19 (Z.lor O_WRONLY O_CREATE) 1).
Lemma sample_nz : Forall (.≠ 0) sample.
Proof. vm_compute. repeat (apply Forall_cons; split; [discriminate|]). apply Forall_nil. exact I. Qed.
Lemma sample_parses : parsecmd sample = Done (sample_cmd, nulterminate sample_cmd sample).
Proof. vm_compute. reflexivity. Qed.

Lemma parsecmd_grammar_witness : parsecmd sample <> NoFuel /\
  exists ts, spells sample 0 ts /\ g_line ts sample_cmd.
Proof.
  destruct (parsecmd_grammar sample sample_nz) as (H1 & H2 & _). split; [exact H1|].
  exact (proj1 (proj1 (H2 _ _) sample_parses)).
Defined.
Lemma parsed_words_witness : exists ts, spells sample 0 ts /\ words sample_cmd ≡ₚ word_tokens ts /\
  forall w, w ∈ words sample_cmd -> cstr (nulterminate sample_cmd sample) w.1 = slice sample w.1 w.2.
Proof. exact (parsed_words sample sample_cmd _ sample_nz sample_parses). Defined.

(** "ls | grep x | wc" in a fresh shell *)
Definition sample2 : list Z := chars "ls | grep x | wc".
Lemma pipeline_plumbing_witness : exists c b, parsecmd sample2 = Done (c, b) /\
  run (runcmd b c) ([Some (Outside 0); Some (Outside 1); Some (Outside 2)] ++ replicate 13 None) 0 =
  ([([chars "ls"], [Some (Outside 0); Some (PipeW 0); Some (Outside 2)] ++ replicate 13 None);
    ([chars "grep"; chars "x"], [Some (PipeR 0); Some (PipeW 1); Some (Outside 2)] ++ replicate 13 None);
    ([chars "wc"], [Some (PipeR 1); Some (Outside 1); Some (Outside 2)] ++ replicate 13 None)], 2%nat).
Proof.
  exists (pipeline [(0, 2)%nat] [[(5, 9); (10, 11)]; [(14, 16)]]%nat). eexists. split; [vm_compute; reflexivity|].
  rewrite pipeline_plumbing; [vm_compute; reflexivity | lia | discriminate |].
  repeat (apply Forall_cons; split; [discriminate|]). apply Forall_nil. exact I.
Defined.
