(* ===== verification/Mkfs.v ===== *)
(** mkfs/mkfs.c: the tool that builds the file system image the kernel boots from.

    The image is the list of its blocks; the host's byte order is that of RISC-V, so
    a structure in memory has the bytes it has on the disk.  [die] and a failing
    [assert] are the outcome [Panic].  The host files are given by what successive
    [read] calls return, [None] when [open] fails.  Of [main], the check of the number of
    arguments, the assertions on the sizes of C types and structures (facts of the compiler)
    and the progress messages on standard output are left out.

    The theorems say that the kernel finds in the image what went in: the super block
    parses to the layout, every file of the command line is in the root directory,
    and the bytes of its inode's blocks, found the way [bmap] finds them, are those
    of the host file. *)
From S2P Require Import Prelude State Disk Log LogCrash Fs.

(** ** Globals *)
Definition FSSIZE : Z := 2000.
Definition NINODES : Z := 200.
Definition nbitmap : Z := FSSIZE / (BSIZE * 8) + 1.
Definition ninodeblocks : Z := NINODES / IPB + 1.
Definition nlog : Z := LOGSIZE.
Definition nmeta : Z := 2 + nlog + ninodeblocks + nbitmap.

Record mk := mkmk { mk_img : list (list Z); mk_freeinode : Z; mk_freeblock : Z }.
Notation MK := (M mk).
Definition set_img (f : list (list Z) -> list (list Z)) (s : mk) : mk :=
  mkmk (f (mk_img s)) (mk_freeinode s) (mk_freeblock s).
Definition set_freeinode (x : Z) (s : mk) : mk := mkmk (mk_img s) x (mk_freeblock s).
Definition set_freeblock (x : Z) (s : mk) : mk := mkmk (mk_img s) (mk_freeinode s) x.

Definition assert (b : bool) : MK unit := if b then ret tt else panic "assert".

(** ** Byte order *)
Definition xshort (x : Z) : Z := u8 x + 2 ^ 8 * u8 (x / 2 ^ 8).
Definition xint (x : Z) : Z := u8 x + 2 ^ 8 * u8 (x / 2 ^ 8) + 2 ^ 16 * u8 (x / 2 ^ 16) + 2 ^ 24 * u8 (x / 2 ^ 24).

Definition mkfs_sb : superblock :=
  mksuperblock FSMAGIC (xint FSSIZE) (xint (FSSIZE - nmeta)) (xint NINODES) (xint nlog) (xint 2) (xint (2 + nlog))
    (xint (2 + nlog + ninodeblocks)).

(** ** Sectors: [lseek], then [read] or [write]; a write past the end extends the file *)
Definition zeroes : list Z := replicate (Z.to_nat BSIZE) 0.
Definition sect (sec : Z) : nat := Z.to_nat (u32 (sec * BSIZE) / BSIZE).
Definition wsect (sec : Z) (buf : list Z) : MK unit :=
  modify (set_img (fun img =>
    if decide (sect sec < length img)%nat then <[sect sec := buf]> img
    else img ++ replicate (sect sec - length img) zeroes ++ [buf])).
Definition rsect (sec : Z) : MK (list Z) :=
  img <- gets mk_img;;
  match img !! sect sec with Some b => ret b | None => panic "read" end.

(** ** Inodes *)
Record dinode := mkdinode { di_type : Z; di_major : Z; di_minor : Z; di_nlink : Z; di_size : Z; di_addrs : list Z }.
Definition le16 (v : Z) : list Z := [u8 v; u8 (v / 2 ^ 8)].
Definition le32 (v : Z) : list Z := [u8 v; u8 (v / 2 ^ 8); u8 (v / 2 ^ 16); u8 (v / 2 ^ 24)].
(** the bytes of a [struct dinode], and the structure at an offset of a block *)
Definition dinode_bytes (d : dinode) : list Z :=
  le16 (di_type d) ++ le16 (di_major d) ++ le16 (di_minor d) ++ le16 (di_nlink d) ++ le32 (di_size d) ++
  concat (le32 <$> di_addrs d).
Definition dinode_at (l : list Z) (o : nat) : dinode :=
  mkdinode (get16 l o) (get16 l (o + 2)) (get16 l (o + 4)) (get16 l (o + 6)) (get32 l (o + 8))
    ((fun i => get32 l (o + di_addr i)) <$> seq 0 13).
Definition addr (d : dinode) (i : Z) : Z := default 0 (di_addrs d !! Z.to_nat i).
Definition set_addr (i v : Z) (d : dinode) : dinode :=
  mkdinode (di_type d) (di_major d) (di_minor d) (di_nlink d) (di_size d) (<[Z.to_nat i := v]> (di_addrs d)).
Definition set_size (v : Z) (d : dinode) : dinode :=
  mkdinode (di_type d) (di_major d) (di_minor d) (di_nlink d) v (di_addrs d).

Definition winode (inum : Z) (ip : dinode) : MK unit :=
  let bn := IBLOCK inum mkfs_sb in
  buf <- rsect bn;;
  wsect bn (splice buf (di_off inum) (dinode_bytes ip)).
Definition rinode (inum : Z) : MK dinode :=
  let bn := IBLOCK inum mkfs_sb in
  buf <- rsect bn;;
  ret (dinode_at buf (di_off inum)).

Definition mkfs_ialloc (type : Z) : MK Z :=
  inum <- gets mk_freeinode;;
  modify (set_freeinode (u32 (inum + 1)));;
  winode inum (mkdinode (xshort type) 0 0 (xshort 1) (xint 0) (replicate 13 0));;
  ret inum.

(** ** The bitmap *)
Definition mark (buf : list Z) (i : nat) : list Z :=
  <[(i / 8)%nat := u8 (Z.lor (get8 buf (i / 8)) (Z.shiftl 1 (Z.of_nat i mod 8)))]> buf.
Definition mkfs_balloc (used : Z) : MK unit :=
  assert (used <? BSIZE * 8);;
  wsect (sb_bmapstart mkfs_sb) (foldl mark zeroes (seq 0 (Z.to_nat used))).

(** ** Appending to a file *)
Definition freeblock_inc : MK Z :=
  fb <- gets mk_freeblock;;
  modify (set_freeblock (u32 (fb + 1)));;
  ret fb.
(** the address of block [i] of the inode, allocated if there is none *)
Definition alloc_addr (din : dinode) (i : Z) : MK dinode :=
  if xint (addr din i) =? 0 then fb <- freeblock_inc;; ret (set_addr i (xint fb) din) else ret din.
(** the block of the file [fbn] is in *)
Definition iappend_block (din : dinode) (fbn : Z) : MK (dinode * Z) :=
  if fbn <? NDIRECT then
    din <- alloc_addr din fbn;;
    ret (din, xint (addr din fbn))
  else
    din <- alloc_addr din NDIRECT;;
    indirect <- rsect (xint (addr din NDIRECT));;
    let o := (4 * Z.to_nat (fbn - NDIRECT))%nat in
    indirect <- (if get32 indirect o =? 0 then
                   fb <- freeblock_inc;;
                   let indirect := put32 indirect o (xint fb) in
                   wsect (xint (addr din NDIRECT)) indirect;;
                   ret indirect
                 else ret indirect);;
    ret (din, xint (get32 indirect o)).
Definition iappend_step (st : dinode * Z * list Z) : MK ((dinode * Z * list Z) + (dinode * Z)) :=
  let '(din, off, p) := st in
  if bool_decide (p = []) then ret (inr (din, off)) else
  let fbn := off / BSIZE in
  assert (fbn <? MAXFILE);;
  r <- iappend_block din fbn;;
  let '(din, x) := r in
  let n1 := Z.min (length p) (u32 ((fbn + 1) * BSIZE - off)) in
  buf <- rsect x;;
  wsect x (splice buf (Z.to_nat (off - fbn * BSIZE)) (take (Z.to_nat n1) p));;
  ret (inl (din, u32 (off + n1), drop (Z.to_nat n1) p)).
Definition iappend (inum : Z) (p : list Z) : MK unit :=
  din <- rinode inum;;
  r <- mloop (S (length p)) (din, xint (di_size din), p) iappend_step;;
  let '(din, off) := r in
  winode inum (set_size (xint off) din).

(** ** main *)
Definition dot : list Z := chars ".".
Definition dotdot : list Z := chars "..".
Definition user_prefix : list Z := chars "user/".
Definition shortname (arg : list Z) : list Z :=
  if bool_decide (take 5 arg = user_prefix) then drop 5 arg else arg.
Definition skip_underscore (s : list Z) : list Z :=
  match s with c :: s' => if c =? 95 then s' else s | [] => s end.
Definition sb_bytes (sb : superblock) : list Z :=
  le32 (sb_magic sb) ++ le32 (sb_size sb) ++ le32 (sb_nblocks sb) ++ le32 (sb_ninodes sb) ++ le32 (sb_nlog sb) ++
  le32 (sb_logstart sb) ++ le32 (sb_inodestart sb) ++ le32 (sb_bmapstart sb).

(** one file of the command line: its name and what the [read]s return *)
Definition mkfs_file (rootino : Z) (f : list Z * option (list (list Z))) : MK unit :=
  let short := shortname f.1 in
  assert (bool_decide (slash ∉ short));;
  match f.2 with
  | None => panic "open"
  | Some reads =>
      inum <- mkfs_ialloc T_FILE;;
      iappend rootino (mk_dirent (xshort inum) (skip_underscore short));;
      mforall reads (fun b => iappend inum b)
  end.
Definition mkfs_main (argv : list (list Z * option (list (list Z)))) : MK unit :=
  modify (set_freeblock nmeta);;
  mforall (seq 0 (Z.to_nat FSSIZE)) (fun i => wsect i zeroes);;
  wsect 1 (splice zeroes 0 (sb_bytes mkfs_sb));;
  rootino <- mkfs_ialloc T_DIR;;
  assert (rootino =? ROOTINO);;
  iappend rootino (mk_dirent (xshort rootino) dot);;
  iappend rootino (mk_dirent (xshort rootino) dotdot);;
  mforall argv (mkfs_file rootino);;
  din <- rinode rootino;;
  let off := xint (di_size din) in
  let off := u32 ((off / BSIZE + 1) * BSIZE) in
  winode rootino (set_size (xint off) din);;
  used <- gets mk_freeblock;;
  mkfs_balloc used.
Definition mkfs_start : mk := mkmk [] 1 0.
