(* ===== verification/MkfsImage.v ===== *)
(** What mkfs puts into the image (mkfs/mkfs.c), as the kernel reads it back.

    A file is described by its bytes, its data blocks in order and its indirect
    block.  [addrs_rep] says that the addresses of an inode and the entries of the
    indirect block are those blocks, [data_rep] that the blocks hold the bytes padded
    with zeros, [owns] that they are distinct allocated blocks.  [iappend] extends
    the bytes and allocates exactly the blocks that are missing. *)
From S2P Require Import Prelude State Disk Log LogCrash Fs Mkfs.

(** ** Bytes *)
Lemma bytes4 v : 0 <= v < 2 ^ 32 ->
  u8 v + 256 * (u8 (v / 2 ^ 8) + 256 * (u8 (v / 2 ^ 16) + 256 * u8 (v / 2 ^ 24))) = v.
Proof.
  intros Hv. unfold u8. change (2 ^ 16) with (2 ^ 8 * 2 ^ 8). change (2 ^ 24) with (2 ^ 8 * 2 ^ 8 * 2 ^ 8).
  rewrite <- !Z.div_div by lia. change (2 ^ 8) with 256 in *. Z.to_euclidean_division_equations; lia.
Qed.
Lemma xint_id v : 0 <= v < 2 ^ 32 -> xint v = v.
Proof. intros Hv. unfold xint. rewrite <- (bytes4 v Hv) at 5. lia. Qed.
Lemma xshort_id v : 0 <= v < 2 ^ 16 -> xshort v = v.
Proof. intros Hv. unfold xshort, u8. change (2 ^ 8) with 256. Z.to_euclidean_division_equations; lia. Qed.

Lemma get8_app_l l1 l2 j : (j < length l1)%nat -> get8 (l1 ++ l2) j = get8 l1 j.
Proof. intros H. unfold get8. by rewrite lookup_app_l. Qed.
Lemma get8_app_r l1 l2 j : get8 (l1 ++ l2) (length l1 + j) = get8 l2 j.
Proof. unfold get8. rewrite lookup_app_r by lia. f_equal. f_equal. lia. Qed.
Lemma get32_app_r l1 l2 j : get32 (l1 ++ l2) (length l1 + j) = get32 l2 j.
Proof. unfold get32. rewrite <- !Nat.add_assoc. by rewrite !get8_app_r. Qed.
Lemma get32_le32 v l : 0 <= v < 2 ^ 32 -> get32 (le32 v ++ l) 0 = v.
Proof. intros Hv. unfold get32, get8, le32. cbn. by rewrite bytes4. Qed.
Lemma get16_le16 v l : 0 <= v < 2 ^ 16 -> get16 (le16 v ++ l) 0 = v.
Proof. intros Hv. unfold get16, get8, le16, u8. cbn. Z.to_euclidean_division_equations; lia. Qed.
Lemma get32_concat vs i v : Forall (fun x => 0 <= x < 2 ^ 32) vs -> vs !! i = Some v ->
  get32 (concat (le32 <$> vs)) (4 * i) = v.
Proof.
  intros HF. revert i. induction HF as [|x vs Hx HF IH]; intros i Hi; [done|]. destruct i as [|i]; cbn in Hi.
  - injection Hi as ->. by apply get32_le32.
  - cbn [fmap list_fmap concat]. replace (4 * S i)%nat with (length (le32 x) + 4 * i)%nat by (cbn; lia).
    rewrite get32_app_r. by apply IH.
Qed.
Lemma get32_put32_same l o v : (o + 4 <= length l)%nat -> 0 <= v < 2 ^ 32 -> get32 (put32 l o v) o = v.
Proof.
  intros Hl Hv. unfold get32, put32. rewrite !get8_insert by (rewrite ?length_insert; lia).
  repeat (rewrite ?decide_True by lia; rewrite ?decide_False by lia). by apply bytes4.
Qed.
Lemma get32_zeroes o : get32 zeroes o = 0.
Proof.
  assert (H : forall j, get8 zeroes j = 0).
  { intros j. unfold get8, zeroes. destruct (replicate (Z.to_nat BSIZE) 0 !! j) eqn:E; [|done].
    by apply lookup_replicate in E as [-> _]. }
  unfold get32. by rewrite !H.
Qed.

Lemma splice_length l o b : (o + length b <= length l)%nat -> length (splice l o b) = length l.
Proof. intros H. unfold splice. rewrite !length_app, length_take, length_drop. lia. Qed.
Lemma get8_splice_in l o b j : (o + length b <= length l)%nat -> (j < length b)%nat ->
  get8 (splice l o b) (o + j) = get8 b j.
Proof.
  intros Hl Hj. unfold splice. replace (o + j)%nat with (length (take o l) + j)%nat by (rewrite length_take; lia).
  rewrite get8_app_r. by apply get8_app_l.
Qed.
Lemma get8_splice_out l o b j : (o + length b <= length l)%nat -> (j < o \/ o + length b <= j)%nat ->
  get8 (splice l o b) j = get8 l j.
Proof.
  intros Hl [Hj|Hj]; unfold splice, get8.
  - rewrite lookup_app_l by (rewrite length_take; lia). by rewrite lookup_take_lt.
  - rewrite !lookup_app_r by (rewrite ?length_take; lia). rewrite lookup_drop, length_take. do 2 f_equal. lia.
Qed.

(** ** Inodes in their block *)
Definition dinode_ok (d : dinode) : Prop :=
  0 <= di_type d < 2 ^ 16 /\ 0 <= di_major d < 2 ^ 16 /\ 0 <= di_minor d < 2 ^ 16 /\ 0 <= di_nlink d < 2 ^ 16 /\
  0 <= di_size d < 2 ^ 32 /\ length (di_addrs d) = 13%nat /\ Forall (fun x => 0 <= x < 2 ^ 32) (di_addrs d).

Lemma concat_le32_length vs : length (concat (le32 <$> vs)) = (4 * length vs)%nat.
Proof. induction vs as [|v vs IH]; [done|]. cbn [fmap list_fmap concat]. rewrite length_app, IH. cbn. lia. Qed.
Lemma dinode_bytes_length d : length (di_addrs d) = 13%nat -> length (dinode_bytes d) = 64%nat.
Proof. intros H. unfold dinode_bytes. rewrite !length_app, concat_le32_length, H. done. Qed.
Lemma dinode_round d : dinode_ok d -> dinode_at (dinode_bytes d) 0 = d.
Proof.
  intros (H1 & H2 & H3 & H4 & H5 & H6 & H7). unfold dinode_at.
  assert (Haddr : (fun i => get32 (dinode_bytes d) (0 + di_addr i)) <$> seq 0 13 = di_addrs d).
  { apply list_eq. intros i. rewrite list_lookup_fmap. destruct (decide (i < 13)%nat) as [Hi|Hi].
    - rewrite lookup_seq_lt by done. cbn [fmap option_fmap option_map].
      destruct (lookup_lt_is_Some_2 (di_addrs d) i) as [v Hv]; [lia|]. rewrite Hv. f_equal.
      unfold dinode_bytes, di_addr. rewrite !app_assoc. 
      match goal with |- get32 (?a ++ ?b) _ = _ => change (0 + (12 + 4 * (0 + i)))%nat with (length a + 4 * i)%nat end.
      rewrite get32_app_r. by apply get32_concat.
    - rewrite lookup_ge_None_2 by (rewrite length_seq; lia). rewrite lookup_ge_None_2 by lia. done. }
  rewrite Haddr. destruct d as [t ma mi nl sz ad]. cbn in *. unfold dinode_bytes. cbn [di_type di_major di_minor di_nlink di_size di_addrs].
  f_equal.
  - exact (get16_le16 t [] H1).
  - exact (get16_le16 ma [] H2).
  - exact (get16_le16 mi [] H3).
  - exact (get16_le16 nl [] H4).
  - exact (get32_le32 sz [] H5).
Qed.

Lemma dinode_at_ext l l' o o' : (forall j, (j < 64)%nat -> get8 l (o + j) = get8 l' (o' + j)) -> dinode_at l o = dinode_at l' o'.
Proof.
  intros H. unfold dinode_at, get16, get32. f_equal.
  - rewrite <- (Nat.add_0_r o) at 1. rewrite <- (Nat.add_0_r o') at 1. by rewrite !H by lia.
  - rewrite <- !Nat.add_assoc. by rewrite !H by (cbn; lia).
  - rewrite <- !Nat.add_assoc. by rewrite !H by (cbn; lia).
  - rewrite <- !Nat.add_assoc. by rewrite !H by (cbn; lia).
  - rewrite <- !Nat.add_assoc. by rewrite !H by (cbn; lia).
  - apply list_fmap_ext. intros i x Hx%lookup_seq. unfold di_addr. rewrite <- !Nat.add_assoc. by rewrite !H by lia.
Qed.
Lemma dinode_at_splice l o d : dinode_ok d -> (o + 64 <= length l)%nat -> dinode_at (splice l o (dinode_bytes d)) o = d.
Proof.
  intros Hd Hl. pose proof (dinode_bytes_length d ltac:(by apply Hd)) as H64. rewrite <- (dinode_round d Hd) at 2.
  apply dinode_at_ext. intros j Hj. apply get8_splice_in; lia.
Qed.
Lemma dinode_at_other l o o' d : dinode_ok d -> (o + 64 <= length l)%nat -> (o' + 64 <= o \/ o + 64 <= o')%nat ->
  dinode_at (splice l o (dinode_bytes d)) o' = dinode_at l o'.
Proof.
  intros Hd Hl Ho. pose proof (dinode_bytes_length d ltac:(by apply Hd)) as H64.
  apply dinode_at_ext. intros j Hj. apply get8_splice_out; lia.
Qed.

(** ** Chunks of a file *)
Notation BS := 1024%nat.
Definition chunk (k : nat) (data : list Z) : list Z := resize BS 0 (drop (BS * k) data).

Lemma chunk_length k data : length (chunk k data) = BS.
Proof. apply length_resize. Qed.
Lemma chunk_beyond k data : (length data <= BS * k)%nat -> chunk k data = zeroes.
Proof. intros H. unfold chunk. rewrite drop_ge by done. by rewrite resize_nil. Qed.
Lemma chunk_app_l k data q : (BS * S k <= length data)%nat -> chunk k (data ++ q) = chunk k data.
Proof.
  intros H. unfold chunk. rewrite drop_app_le by lia. apply resize_app_le. rewrite length_drop. lia.
Qed.
Lemma chunk_write data q : (length data mod BS + length q <= BS)%nat ->
  splice (chunk (length data / BS) data) (length data mod BS) q = chunk (length data / BS) (data ++ q).
Proof.
  intros Hq. unfold chunk. set (k := (length data / BS)%nat). set (r := (length data mod BS)%nat).
  pose proof (Nat.div_mod_eq (length data) BS) as Hdm. fold k r in Hdm. fold r in Hq.
  rewrite drop_app_le by lia. set (t := drop (BS * k) data).
  assert (Ht : length t = r) by (unfold t; rewrite length_drop; lia).
  rewrite !resize_spec, take_ge, take_ge by (rewrite ?length_app; lia). rewrite length_app, Ht. unfold splice.
  rewrite take_app_length', drop_app_ge by lia. rewrite drop_replicate, Ht, <- app_assoc. do 2 f_equal. f_equal. lia.
Qed.

(** ** Files in the image *)
Definition bget_img (img : list (list Z)) (b : Z) : option (list Z) := img !! Z.to_nat b.

(** the addresses of the data blocks: in the inode, then in the indirect block [ind] *)
Record addrs_rep (img : list (list Z)) (d : dinode) (blocks : list Z) (ind : Z) : Prop := {
  ar_ok : dinode_ok d;
  ar_direct : forall k, (k < 12)%nat -> di_addrs d !! k = Some (default 0 (blocks !! k));
  ar_ind : di_addrs d !! 12%nat = Some ind;
  ar_need : (12 < length blocks)%nat -> ind <> 0;
  ar_indirect : ind <> 0 -> exists l, bget_img img ind = Some l /\ length l = BS /\
      forall k, (k < 256)%nat -> get32 l (4 * k) = default 0 (blocks !! (12 + k)%nat)
}.
Definition data_rep (img : list (list Z)) (data blocks : list Z) : Prop :=
  forall k b, blocks !! k = Some b -> bget_img img b = Some (chunk k data).
Definition used (blocks : list Z) (ind : Z) : list Z := if decide (ind = 0) then blocks else ind :: blocks.
Definition owns (fb : Z) (blocks : list Z) (ind : Z) : Prop :=
  NoDup (used blocks ind) /\ Forall (fun b => nmeta <= b < fb) (used blocks ind).
Definition file_rep (s : mk) (d : dinode) (data blocks : list Z) (ind : Z) : Prop :=
  addrs_rep (mk_img s) d blocks ind /\ data_rep (mk_img s) data blocks /\ owns (mk_freeblock s) blocks ind.

(** the image has its full size, and the blocks not yet allocated are zero *)
Record img_ok (s : mk) : Prop := {
  io_len : length (mk_img s) = Z.to_nat FSSIZE;
  io_block : forall b l, mk_img s !! b = Some l -> length l = BS;
  io_fb : nmeta <= mk_freeblock s <= FSSIZE;
  io_fresh : forall b, mk_freeblock s <= b < FSSIZE -> bget_img (mk_img s) b = Some zeroes
}.
(** [s'] after writes to the blocks of [U] and to newly allocated ones only *)
Record touches (U : list Z) (s s' : mk) : Prop := {
  to_inode : mk_freeinode s' = mk_freeinode s;
  to_fb : mk_freeblock s <= mk_freeblock s';
  to_img : forall b, 0 <= b < mk_freeblock s -> b ∉ U -> bget_img (mk_img s') b = bget_img (mk_img s) b
}.

Lemma touches_refl U s : touches U s s.
Proof. by constructor. Qed.
Lemma touches_trans U U' s s' s'' : touches U s s' -> touches U' s' s'' ->
  (forall b, b ∈ U' -> b ∈ U \/ mk_freeblock s <= b) -> touches U s s''.
Proof.
  intros [A1 A2 A3] [B1 B2 B3] HU. constructor; [congruence | lia|]. intros b Hb Hn. rewrite B3; [by apply A3 | lia |].
  intros Hin. destruct (HU b Hin); [done | lia].
Qed.

Lemma owns_pos fb blocks ind b : owns fb blocks ind -> b ∈ used blocks ind -> 0 < b /\ nmeta <= b < fb.
Proof. intros [_ HF] Hb. rewrite Forall_forall in HF. specialize (HF b Hb). unfold nmeta, nlog, ninodeblocks, nbitmap in *. split; [|done].
  assert (0 < nmeta) by done. unfold nmeta, nlog, ninodeblocks, nbitmap in *. lia. Qed.
Lemma used_blocks blocks ind b : b ∈ blocks -> b ∈ used blocks ind.
Proof. intros Hb. unfold used. case_decide; [done | by right]. Qed.
Lemma used_ind blocks ind : ind <> 0 -> ind ∈ used blocks ind.
Proof. intros Hb. unfold used. rewrite decide_False by done. by left. Qed.
Lemma elem_of_used blocks ind b : b ∈ used blocks ind -> b ∈ blocks \/ b = ind /\ ind <> 0.
Proof. unfold used. case_decide; [by left|]. intros [->|]%elem_of_cons; [by right | by left]. Qed.
Lemma nmeta_val : nmeta = 46.
Proof. done. Qed.

(** a file keeps its contents when other blocks are written *)
Lemma file_rep_frame s s' d data blocks ind U : file_rep s d data blocks ind -> touches U s s' ->
  (forall b, b ∈ used blocks ind -> b ∉ U) -> file_rep s' d data blocks ind.
Proof.
  intros ([R1 R2 R3 R4 R5] & Hd & Ho) [T1 T2 T3] HU.
  assert (Heq : forall b, b ∈ used blocks ind -> bget_img (mk_img s') b = bget_img (mk_img s) b).
  { intros b Hb. pose proof (owns_pos _ _ _ _ Ho Hb). apply T3; [lia | by apply HU]. }
  split_and!.
  - constructor; try done. intros Hi. destruct (R5 Hi) as (l & Hl & Hk). exists l. by rewrite Heq by by apply used_ind.
  - intros k b Hb. rewrite Heq; [by apply Hd|]. by eapply used_blocks, list_elem_of_lookup_2.
  - destruct Ho as [Hn HF]. split; [done|]. eapply Forall_impl; [exact HF|]. cbn. lia.
Qed.

(** ** Sectors *)
Lemma sect_small b : 0 <= b < FSSIZE -> sect b = Z.to_nat b.
Proof. intros Hb. unfold sect, FSSIZE, BSIZE in *. rewrite u32_small by lia. by rewrite Z.div_mul. Qed.
Lemma wp_rsect b l e s (Q : list Z -> list (mk -> mk) -> mk -> Prop) : 0 <= b < FSSIZE ->
  bget_img (mk_img s) b = Some l -> Q l e s -> wp (rsect b) e s Q.
Proof. intros Hb Hl HQ. unfold rsect. wp_steps. rewrite sect_small by done. unfold bget_img in Hl. rewrite Hl. by wp_steps. Qed.
Definition put_block (b : Z) (l : list Z) (s : mk) : mk := set_img <[Z.to_nat b := l]> s.
Lemma wp_wsect b l e s (Q : unit -> list (mk -> mk) -> mk -> Prop) : 0 <= b < FSSIZE -> img_ok s ->
  Q tt e (put_block b l s) -> wp (wsect b l) e s Q.
Proof.
  intros Hb [Hlen _ _ _] HQ. unfold wsect. wp_step. unfold set_img. rewrite sect_small by done.
  rewrite decide_True by (rewrite Hlen; unfold FSSIZE in *; lia). exact HQ.
Qed.
Lemma bget_put b b' l s : img_ok s -> 0 <= b < FSSIZE -> 0 <= b' ->
  bget_img (mk_img (put_block b l s)) b' = if decide (b = b') then Some l else bget_img (mk_img s) b'.
Proof.
  intros [Hlen _ _ _] Hb Hb'. unfold bget_img. cbn. case_decide as E; [subst b'|].
  - apply list_lookup_insert_eq. rewrite Hlen. unfold FSSIZE in *. lia.
  - apply list_lookup_insert_ne. lia.
Qed.
Lemma img_ok_put b l s : img_ok s -> 0 <= b < mk_freeblock s -> length l = BS -> img_ok (put_block b l s).
Proof.
  intros Hok Hb Hl. pose proof Hok as [Hlen Hblk Hfb Hfr]. constructor; cbn; [by rewrite length_insert | | done |].
  - intros b' l'. rewrite list_lookup_insert_case. case_decide; [by intros [= <-] | by apply Hblk].
  - intros b' Hb'. change (bget_img (mk_img (put_block b l s)) b' = Some zeroes).
    rewrite bget_put by (done || lia). rewrite decide_False by lia. by apply Hfr.
Qed.
Lemma touches_put b l s U : img_ok s -> 0 <= b < FSSIZE -> b ∈ U -> touches U s (put_block b l s).
Proof.
  intros Hok Hb Hin. constructor; [done | done|]. intros b' Hb' Hn. rewrite bget_put by (done || lia).
  rewrite decide_False; [done|]. by intros ->.
Qed.

(** ** Allocation *)
Definition alloc1 (s : mk) : mk := set_freeblock (mk_freeblock s + 1) s.
Lemma wp_freeblock_inc e s (Q : Z -> list (mk -> mk) -> mk -> Prop) : img_ok s ->
  Q (mk_freeblock s) e (alloc1 s) -> wp freeblock_inc e s Q.
Proof.
  intros [_ _ Hfb _] HQ. unfold freeblock_inc. wp_steps. rewrite u32_small; [exact HQ|].
  rewrite nmeta_val in Hfb. unfold FSSIZE in *. lia.
Qed.
Lemma img_ok_alloc s : img_ok s -> mk_freeblock s < FSSIZE -> img_ok (alloc1 s).
Proof. intros [H1 H2 H3 H4] Hlt. constructor; cbn; try done; [lia|]. intros b Hb. apply H4. lia. Qed.
Lemma touches_alloc U s : touches U s (alloc1 s).
Proof. constructor; cbn; [done | lia | done]. Qed.

Lemma used_push blocks ind b : used (blocks ++ [b]) ind = used blocks ind ++ [b].
Proof. unfold used. by case_decide. Qed.
Lemma owns_snoc fb l : NoDup l -> Forall (fun b => nmeta <= b < fb) l -> nmeta <= fb ->
  NoDup (l ++ [fb]) /\ Forall (fun b => nmeta <= b < fb + 1) (l ++ [fb]).
Proof.
  intros Hn HF Hfb. split.
  - apply NoDup_app. split_and!; [done | | by apply NoDup_singleton]. intros b Hb ->%list_elem_of_singleton.
    rewrite Forall_forall in HF. specialize (HF fb Hb). lia.
  - apply Forall_app. split; [|repeat constructor; lia]. eapply Forall_impl; [exact HF|]. cbn. lia.
Qed.
Lemma owns_push fb blocks ind : owns fb blocks ind -> nmeta <= fb -> owns (fb + 1) (blocks ++ [fb]) ind.
Proof. intros [Hn HF] Hfb. unfold owns. rewrite used_push. by apply owns_snoc. Qed.
Lemma owns_ind fb blocks : owns fb blocks 0 -> nmeta <= fb -> owns (fb + 1) blocks fb.
Proof.
  intros [Hn HF] Hfb. unfold owns, used in *. rewrite decide_True in Hn, HF by done.
  rewrite decide_False by (rewrite nmeta_val in Hfb; lia).
  destruct (owns_snoc fb blocks Hn HF Hfb) as [H1 H2]. rewrite Permutation_app_comm in H1, H2. done.
Qed.
Lemma data_push img data blocks b : data_rep img data blocks -> bget_img img b = Some zeroes ->
  (length data <= BS * length blocks)%nat -> data_rep img data (blocks ++ [b]).
Proof.
  intros Hd Hb Hlen k c. rewrite lookup_app. destruct (blocks !! k) as [c'|] eqn:E; [intros [= <-]; by apply Hd|].
  apply lookup_ge_None in E. intros [Hk ->]%list_lookup_singleton_Some. rewrite Hb. f_equal. symmetry. apply chunk_beyond. lia.
Qed.

Lemma dinode_ok_set_addr d i v : dinode_ok d -> 0 <= v < 2 ^ 32 -> dinode_ok (set_addr i v d).
Proof.
  intros (H1 & H2 & H3 & H4 & H5 & H6 & H7) Hv. unfold dinode_ok. cbn. rewrite length_insert.
  do 6 (split; [done|]). by apply Forall_insert.
Qed.
Lemma lookup_snoc_default (l : list Z) b k :
  default 0 ((l ++ [b]) !! k) = if decide (k = length l) then b else default 0 (l !! k).
Proof.
  case_decide as E.
  - subst k. by rewrite lookup_app_r, Nat.sub_diag by lia.
  - destruct (decide (k < length l)%nat); [by rewrite lookup_app_l|].
    rewrite (lookup_ge_None_2 (l ++ [b])), (lookup_ge_None_2 l) by (rewrite ?length_app; cbn; lia). done.
Qed.

Section push.
Context (s : mk) (d : dinode) (data blocks : list Z) (ind : Z).
Notation fb := (mk_freeblock s).
Context (Hok : img_ok s) (Hrep : file_rep s d data blocks ind) (Hspace : fb < FSSIZE).

Lemma fb_range : nmeta <= fb /\ 0 < fb < 2 ^ 32 /\ bget_img (mk_img s) fb = Some zeroes.
Proof.
  destruct Hok as [_ _ Hfb Hfr]. split_and!; [lia | | | apply Hfr; lia]; rewrite nmeta_val in Hfb; unfold FSSIZE in *; lia.
Qed.

(** the next data block, its address in the inode *)
Lemma push_direct : (length blocks < 12)%nat -> (length data <= BS * length blocks)%nat ->
  file_rep (alloc1 s) (set_addr (Z.of_nat (length blocks)) fb d) data (blocks ++ [fb]) ind.
Proof.
  intros Hlt Hlen. destruct fb_range as (F1 & F2 & F3). destruct Hrep as ([R1 R2 R3 R4 R5] & Hd & Ho).
  assert (H13 : length (di_addrs d) = 13%nat) by apply R1.
  split_and!; [constructor | by apply data_push | by apply owns_push]; cbn [set_addr di_addrs mk_img alloc1 set_freeblock]; rewrite ?Nat2Z.id.
  - apply dinode_ok_set_addr; [done | lia].
  - intros k Hk. rewrite lookup_snoc_default, list_lookup_insert_case. rewrite H13.
    destruct (decide (k = length blocks)) as [->|Hne]; [rewrite decide_True by lia; done|].
    rewrite decide_False by lia. by apply R2.
  - rewrite list_lookup_insert_ne by lia. done.
  - rewrite length_app. cbn. lia.
  - intros Hi. destruct (R5 Hi) as (l & Hl & Hll & Hk). exists l. split_and!; [done..|]. intros k Hk'. rewrite Hk by done.
    rewrite lookup_snoc_default. rewrite decide_False by lia. done.
Qed.
(** the indirect block *)
Lemma push_ind : ind = 0 -> (length blocks <= 12)%nat -> file_rep (alloc1 s) (set_addr 12 fb d) data blocks fb.
Proof.
  intros Hi Hle. destruct fb_range as (F1 & F2 & F3). destruct Hrep as ([R1 R2 R3 R4 R5] & Hd & Ho).
  assert (H13 : length (di_addrs d) = 13%nat) by apply R1.
  split_and!; [constructor | done | rewrite Hi in Ho; by apply owns_ind]; cbn [set_addr di_addrs mk_img alloc1 set_freeblock].
  - apply dinode_ok_set_addr; [done | lia].
  - intros k Hk. rewrite list_lookup_insert_ne by lia. by apply R2.
  - apply list_lookup_insert_eq. lia.
  - lia.
  - intros _. exists zeroes. split_and!; [done | done |]. intros k Hk. rewrite get32_zeroes.
    by rewrite lookup_ge_None_2 by lia.
Qed.
(** the next data block, its address in the indirect block *)
Lemma push_indirect l : ind <> 0 -> (12 <= length blocks < 268)%nat -> (length data <= BS * length blocks)%nat ->
  bget_img (mk_img s) ind = Some l ->
  file_rep (put_block ind (put32 l (4 * (length blocks - 12)) fb) (alloc1 s)) d data (blocks ++ [fb]) ind.
Proof.
  intros Hi Hb Hlen Hl. destruct fb_range as (F1 & F2 & F3). destruct Hrep as ([R1 R2 R3 R4 R5] & Hd & Ho).
  destruct (R5 Hi) as (l' & Hl' & Hll & Hk). rewrite Hl in Hl'. injection Hl' as <-.
  pose proof (img_ok_alloc s Hok Hspace) as Hok1. pose proof (owns_pos _ _ _ ind Ho (used_ind _ _ Hi)) as [Hi0 Hir].
  assert (Hget : forall b, 0 <= b -> bget_img (mk_img (put_block ind (put32 l (4 * (length blocks - 12)) fb) (alloc1 s))) b =
    if decide (ind = b) then Some (put32 l (4 * (length blocks - 12)) fb) else bget_img (mk_img s) b).
  { intros b Hb'. rewrite bget_put by (done || lia). done. }
  split_and!; [constructor | | by apply owns_push].
  - done.
  - intros k Hk'. rewrite lookup_snoc_default, decide_False by lia. by apply R2.
  - done.
  - done.
  - intros _. eexists. rewrite Hget, decide_True by (done || lia). split_and!; [done | by rewrite put32_length |].
    intros k Hk'. rewrite lookup_snoc_default. case_decide as E.
    + replace (length blocks - 12)%nat with k by lia. rewrite get32_put32_same by lia. done.
    + rewrite get32_put32_other by lia. by apply Hk.
  - intros k b Hkb. assert (Hbr : b = fb \/ b ∈ blocks).
    { apply list_elem_of_lookup_2, elem_of_app in Hkb as [?|?%list_elem_of_singleton]; auto. }
    assert (Hne : ind <> b).
    { destruct Hbr as [->|Hin]; [lia|]. intros <-. destruct Ho as [Hnd _]. unfold used in Hnd. rewrite decide_False in Hnd by done.
      by inversion Hnd. }
    rewrite Hget, decide_False; [by apply (data_push (mk_img s) data blocks fb Hd) | done |].
    destruct Hbr as [->|Hin]; [lia|]. destruct (owns_pos _ _ _ b Ho (used_blocks _ _ _ Hin)). lia.
Qed.
End push.

(** ** One block of [iappend] *)

(** the blocks of a file of [n] data blocks, the indirect block included *)
Definition total (n : nat) : Z := n + (if decide (n <= 12)%nat then 0 else 1).
Definition tight (blocks : list Z) (ind : Z) : Prop := ind = 0 <-> (length blocks <= 12)%nat.
Definition same_meta (d d' : dinode) : Prop :=
  di_type d' = di_type d /\ di_major d' = di_major d /\ di_minor d' = di_minor d /\ di_nlink d' = di_nlink d /\
  di_size d' = di_size d.

Definition block_post (s : mk) (d : dinode) (data blocks : list Z) (ind : Z) (fbn : nat) (d' : dinode) (x : Z) (s' : mk) : Prop :=
  exists blocks' ind', img_ok s' /\ file_rep s' d' data blocks' ind' /\ tight blocks' ind' /\
    length blocks' = S fbn /\ blocks' !! fbn = Some x /\ touches (used blocks ind) s s' /\
    (forall b, b ∈ used blocks' ind' -> b ∈ used blocks ind \/ mk_freeblock s <= b) /\
    mk_freeblock s' = mk_freeblock s + (total (S fbn) - total (length blocks)) /\ same_meta d d'.

(** a data block or the indirect block that exists, by address *)
Lemma xint_block fb blocks ind b : owns fb blocks ind -> fb <= FSSIZE -> b ∈ used blocks ind ->
  xint b = b /\ (b =? 0) = false /\ 0 <= b < FSSIZE.
Proof.
  intros Ho Hfb Hb. destruct (owns_pos _ _ _ _ Ho Hb). unfold FSSIZE in *. split_and!; try lia. apply xint_id. lia.
Qed.

Lemma addr_direct img d blocks ind k : addrs_rep img d blocks ind -> (k < 12)%nat ->
  addr d (Z.of_nat k) = default 0 (blocks !! k).
Proof. intros [_ R2 _ _ _] Hk. unfold addr. by rewrite Nat2Z.id, R2. Qed.

Section block.
Context (s : mk) (d : dinode) (data blocks : list Z) (ind : Z) (fbn : nat).
Notation fb := (mk_freeblock s).
Context (Hok : img_ok s) (Hrep : file_rep s d data blocks ind) (Htight : tight blocks ind).
Context (Hspace : fb + (total (S fbn) - total (length blocks)) <= FSSIZE).

Lemma block_there x : length blocks = S fbn -> blocks !! fbn = Some x -> block_post s d data blocks ind fbn d x s.
Proof.
  intros Hlen Hx. exists blocks, ind. split_and!; try done; [auto | rewrite Hlen; lia].
Qed.
Lemma fb_le : fb <= FSSIZE.
Proof. apply Hok. Qed.

Lemma wp_block_direct e : (fbn < 12)%nat ->
  (length blocks = fbn /\ (length data <= BS * fbn)%nat \/ length blocks = S fbn) ->
  wp (iappend_block d fbn) e s (fun r e' s' => e' = e /\ block_post s d data blocks ind fbn r.1 r.2 s').
Proof.
  intros Hlt Hlen. pose proof Hrep as ([R1 R2 R3 R4 R5] & Hd & Ho). pose proof fb_le as Hfb.
  unfold iappend_block. replace (Z.of_nat fbn <? NDIRECT)%Z with true by (symmetry; apply Z.ltb_lt; unfold NDIRECT; lia). wp_step. unfold alloc_addr.
  rewrite (addr_direct _ d blocks ind fbn) by (done || apply Hrep).
  destruct Hlen as [[Hlen Hdata]|Hlen].
  - rewrite lookup_ge_None_2 by lia. change (xint (default 0 None) =? 0) with true. cbn match.
    assert (Hnew : total (S fbn) - total fbn = 1) by (unfold total; repeat case_decide; lia). rewrite Hlen, Hnew in Hspace.
    assert (Hind : ind = 0) by (apply Htight; lia).
    destruct (fb_range s Hok ltac:(lia)) as (F1 & F2 & F3).
    wp_step. apply wp_freeblock_inc; [done|]. wp_steps. rewrite xint_id by lia. split; [done|]. cbn [fst snd].
    assert (H13 : length (di_addrs d) = 13%nat) by apply R1.
    assert (Ha : addr (set_addr fbn fb d) fbn = fb).
    { unfold addr. cbn. rewrite Nat2Z.id, list_lookup_insert_eq by lia. done. }
    rewrite Ha, xint_id by lia. exists (blocks ++ [fb]), ind. split_and!.
    + apply img_ok_alloc; [done | lia].
    + rewrite <- Hlen. apply push_direct; try done; lia.
    + unfold tight. rewrite length_app. cbn. split; [lia | done].
    + rewrite length_app. cbn. lia.
    + rewrite lookup_app_r by lia. by rewrite Hlen, Nat.sub_diag.
    + apply touches_alloc.
    + intros b. rewrite used_push, elem_of_app, list_elem_of_singleton. intros [|Eb]; [by left | right; lia].
    + rewrite Hlen, Hnew. done.
    + done.
  - destruct (lookup_lt_is_Some_2 blocks fbn) as [x Hx]; [lia|]. rewrite Hx. change (default 0 (Some x)) with x.
    destruct (xint_block fb blocks ind x Ho Hfb) as (X1 & X2 & X3).
    { by eapply used_blocks, list_elem_of_lookup_2. }
    rewrite X1, X2. wp_steps. split; [done|]. cbn [fst snd].
    rewrite (addr_direct _ d blocks ind fbn) by (done || apply Hrep). rewrite Hx. change (default 0 (Some x)) with x. rewrite X1. by apply block_there.
Qed.

(** the second half: the entry of the indirect block *)
Lemma wp_block_entry e : ind <> 0 -> (12 <= fbn < 268)%nat ->
  (length blocks = fbn /\ (length data <= BS * fbn)%nat \/ length blocks = S fbn) ->
  fb + (S fbn - length blocks) <= FSSIZE ->
  wp (indirect <- rsect (xint (addr d NDIRECT));;
      indirect <- (if get32 indirect (4 * Z.to_nat (fbn - NDIRECT)) =? 0 then
                     fb <- freeblock_inc;;
                     let indirect := put32 indirect (4 * Z.to_nat (fbn - NDIRECT)) (xint fb) in
                     wsect (xint (addr d NDIRECT)) indirect;;
                     ret indirect
                   else ret indirect);;
      ret (d, xint (get32 indirect (4 * Z.to_nat (fbn - NDIRECT))))) e s
    (fun r e' s' => e' = e /\ r.1 = d /\ exists blocks', img_ok s' /\ file_rep s' d data blocks' ind /\
       length blocks' = S fbn /\ blocks' !! fbn = Some r.2 /\ touches (used blocks ind) s s' /\
       (forall b, b ∈ used blocks' ind -> b ∈ used blocks ind \/ fb <= b) /\
       mk_freeblock s' = fb + (S fbn - length blocks)).
Proof.
  intros Hi Hf Hlen Hsp. pose proof Hrep as ([R1 R2 R3 R4 R5] & Hd & Ho). pose proof fb_le as Hfb.
  destruct (R5 Hi) as (l & Hl & Hll & Hk).
  assert (Ha : addr d NDIRECT = ind) by (unfold addr; rewrite Nat2Z.id; unfold NDIRECT; by rewrite R3). rewrite Ha.
  destruct (xint_block fb blocks ind ind Ho Hfb (used_ind _ _ Hi)) as (X1 & X2 & X3). rewrite X1.
  replace (Z.to_nat (fbn - NDIRECT)) with (fbn - 12)%nat by (unfold NDIRECT; lia).
  wp_step. eapply wp_rsect; [done | exact Hl |]. wp_step. rewrite Hk by lia.
  replace (12 + (fbn - 12))%nat with fbn by lia. destruct Hlen as [[Hlen Hdata]|Hlen].
  - rewrite (lookup_ge_None_2 blocks) by lia. change (default 0 None =? 0) with true. cbn match.
    destruct (fb_range s Hok ltac:(lia)) as (F1 & F2 & F3). pose proof (img_ok_alloc s Hok ltac:(lia)) as Hok1.
    wp_step. apply wp_freeblock_inc; [done|]. rewrite (xint_id fb) by lia. cbn zeta.
    wp_step. apply wp_wsect; [done | done |]. wp_steps. rewrite get32_put32_same by lia. rewrite xint_id by lia.
    split_and!; [done | done |]. exists (blocks ++ [fb]). cbn [snd]. split_and!.
    + apply img_ok_put; [done | | by rewrite put32_length]. pose proof (owns_pos _ _ _ ind Ho (used_ind _ _ Hi)). cbn. lia.
    + rewrite <- Hlen. apply push_indirect; try done; lia.
    + rewrite length_app. cbn. lia.
    + rewrite lookup_app_r by lia. by rewrite Hlen, Nat.sub_diag.
    + eapply (touches_trans _ (used blocks ind)); [apply touches_alloc | apply touches_put; [done..|by apply used_ind] | auto].
    + intros b. rewrite used_push, elem_of_app, list_elem_of_singleton. intros [|Eb]; [by left | right; lia].
    + cbn. lia.
  - destruct (lookup_lt_is_Some_2 blocks fbn) as [x Hx]; [lia|]. rewrite Hx. change (default 0 (Some x)) with x.
    destruct (xint_block fb blocks ind x Ho Hfb) as (Y1 & Y2 & Y3); [by eapply used_blocks, list_elem_of_lookup_2|].
    rewrite Y2. wp_steps. split_and!; [done | done |]. exists blocks. cbn [snd].
    rewrite Hk by lia. replace (12 + (fbn - 12))%nat with fbn by lia. rewrite Hx. change (default 0 (Some x)) with x. rewrite Y1.
    split_and!; try done; [auto | lia].
Qed.
End block.

Lemma wp_iappend_block s d data blocks ind (fbn : nat) e : img_ok s -> file_rep s d data blocks ind -> tight blocks ind ->
  mk_freeblock s + (total (S fbn) - total (length blocks)) <= FSSIZE -> (fbn < 268)%nat ->
  (length blocks = fbn /\ (length data <= BS * fbn)%nat \/ length blocks = S fbn) ->
  wp (iappend_block d fbn) e s (fun r e' s' => e' = e /\ block_post s d data blocks ind fbn r.1 r.2 s').
Proof.
  intros Hok Hrep Htight Hspace Hmax Hlen. destruct (decide (fbn < 12)%nat) as [Hlt|Hge].
  { by apply wp_block_direct. }
  pose proof Hrep as (Hr & Hd & Ho). pose proof (ar_ind _ _ _ _ Hr) as R3.
  assert (Ha : addr d NDIRECT = ind) by (unfold addr; rewrite Nat2Z.id; unfold NDIRECT; by rewrite R3).
  unfold iappend_block. replace (Z.of_nat fbn <? NDIRECT)%Z with false by (symmetry; apply Z.ltb_ge; unfold NDIRECT; lia).
  wp_step. unfold alloc_addr. rewrite Ha. pose proof (io_fb _ Hok) as Hfb.
  destruct (decide (ind = 0)) as [Hi|Hi].
  - subst ind. rewrite Hi in Hrep, Htight, Hr, Ho, R3 |- *. change (xint 0 =? 0) with true. cbn match.
    assert (Hle : (length blocks <= 12)%nat) by (by apply Htight). assert (fbn = 12%nat /\ length blocks = 12%nat) as [-> Hl12] by lia.
    rewrite Hl12 in Hspace. change (total 13 - total 12) with 2 in Hspace.
    destruct (fb_range s Hok ltac:(lia)) as (F1 & F2 & F3).
    wp_step. apply wp_freeblock_inc; [done|]. rewrite xint_id by lia. wp_step.
    pose proof (push_ind s d data blocks 0 Hok Hrep ltac:(lia) eq_refl Hle) as Hrep1.
    eapply wp_mono; [apply (wp_block_entry (alloc1 s) _ data blocks (mk_freeblock s) 12); try done; try lia|].
    + apply img_ok_alloc; [done | lia].
    + cbn. lia.
    + intros [d' x] e' s' (-> & Ed & blocks' & H1 & H2 & H3 & H4 & H5 & H6 & H7). cbn [fst snd] in *. subst d'.
      split; [done|]. exists blocks', (mk_freeblock s).
      assert (Hu : used blocks 0 = blocks) by done.
      assert (Hsub : forall b, b ∈ used blocks (mk_freeblock s) -> b ∈ used blocks 0 \/ mk_freeblock s <= b).
      { intros b [?|[-> _]]%elem_of_used; [left; by rewrite Hu | right; lia]. }
      split_and!; try done.
      * unfold tight. rewrite H3. lia.
      * eapply touches_trans; [apply touches_alloc | exact H5 | exact Hsub].
      * intros b Hb. destruct (H6 b Hb) as [Hb'|Hb']; [by apply Hsub | right; cbn in Hb'; lia].
      * rewrite H7, Hl12. change (total 13 - total 12) with 2. cbn. lia.
  - destruct (xint_block (mk_freeblock s) blocks ind ind Ho ltac:(lia) (used_ind _ _ Hi)) as (X1 & X2 & X3).
    rewrite X1, X2. wp_step.
    assert (Hgt : (12 < length blocks)%nat) by (destruct (decide (length blocks <= 12)%nat); [by destruct Hi; apply Htight | lia]).
    assert (Ht : total (S fbn) - total (length blocks) = S fbn - length blocks) by (unfold total; rewrite !decide_False by lia; lia).
    eapply wp_mono; [apply (wp_block_entry s d data blocks ind fbn); try done; try lia|].
    intros [d' x] e' s' (-> & Ed & blocks' & H1 & H2 & H3 & H4 & H5 & H6 & H7). cbn [fst snd] in *. subst d'.
    split; [done|]. exists blocks', ind. split_and!; try done; [|lia].
    unfold tight. rewrite H3. lia.
Qed.

(** ** [iappend] *)
Definition nblk (n : nat) : nat := ((n + 1023) / BS)%nat.
(** a whole file in the image, its inode being [d] *)
Definition whole (s : mk) (d : dinode) (data blocks : list Z) (ind : Z) : Prop :=
  file_rep s d data blocks ind /\ tight blocks ind /\ length blocks = nblk (length data).

Lemma nblk_cases n : nblk n = (n / BS)%nat /\ n = (BS * (n / BS))%nat \/ nblk n = S (n / BS).
Proof.
  unfold nblk. pose proof (Nat.div_mod_eq n BS) as E. pose proof (Nat.mod_upper_bound n BS ltac:(lia)) as Hr.
  destruct (n mod BS)%nat as [|r] eqn:Er.
  - left. split; [|lia]. symmetry. apply (Nat.div_unique _ _ _ 1023); lia.
  - right. symmetry. apply (Nat.div_unique _ _ _ r); lia.
Qed.
Lemma nblk_mono n m : (n <= m)%nat -> (nblk n <= nblk m)%nat.
Proof. intros H. unfold nblk. apply Nat.Div0.div_le_mono. lia. Qed.
Lemma total_mono n m : (n <= m)%nat -> total n <= total m.
Proof. intros H. unfold total. repeat case_decide; lia. Qed.
(** appending within the last block makes it the last one *)
Lemma nblk_add n q : (0 < q)%nat -> (n mod BS + q <= BS)%nat -> nblk (n + q) = S (n / BS).
Proof.
  intros Hq Hn. unfold nblk. pose proof (Nat.div_mod_eq n BS) as E. symmetry.
  apply (Nat.div_unique _ _ _ (n mod BS + q - 1)); lia.
Qed.

Lemma write_data s d data blocks ind x q : img_ok s -> file_rep s d data blocks ind ->
  length blocks = S (length data / BS) -> blocks !! (length data / BS)%nat = Some x ->
  file_rep (put_block x (chunk (length data / BS) (data ++ q)) s) d (data ++ q) blocks ind.
Proof.
  intros Hok ([R1 R2 R3 R4 R5] & Hd & Ho) Hlen Hx. pose proof (io_fb _ Hok) as Hfb.
  assert (Hxin : x ∈ blocks) by by eapply list_elem_of_lookup_2.
  destruct (owns_pos _ _ _ x Ho (used_blocks _ _ _ Hxin)) as [Hx0 Hxr].
  set (s' := put_block x _ s).
  assert (Hget : forall b, b ∈ used blocks ind -> b <> x -> bget_img (mk_img s') b = bget_img (mk_img s) b).
  { intros b Hb Hne. destruct (owns_pos _ _ _ b Ho Hb). unfold s'. rewrite bget_put by (done || lia).
    by rewrite decide_False by congruence. }
  assert (Hgx : bget_img (mk_img s') x = Some (chunk (length data / BS) (data ++ q))).
  { unfold s'. rewrite bget_put by (done || lia). by rewrite decide_True. }
  pose proof Ho as [Hnd _].
  assert (HndB : NoDup blocks) by (unfold used in Hnd; case_decide; [done | by inversion Hnd]).
  split_and!; [constructor; try done | | done].
  - intros Hi. destruct (R5 Hi) as (l & Hl & Hk). exists l. rewrite Hget; [done | by apply used_ind |].
    intros <-. unfold used in Hnd. rewrite decide_False in Hnd by done. by inversion Hnd.
  - intros k b Hb. pose proof (lookup_lt_Some _ _ _ Hb) as Hk. destruct (decide (k = length data / BS)%nat) as [->|Hne].
    + rewrite Hx in Hb. injection Hb as <-. exact Hgx.
    + rewrite Hget; [| by eapply used_blocks, list_elem_of_lookup_2 |].
      * rewrite (Hd k b Hb). f_equal. symmetry. apply chunk_app_l. pose proof (Nat.div_mod_eq (length data) BS). nia.
      * intros ->. destruct Hne. by eapply NoDup_lookup.
Qed.

Definition append_post (s : mk) (d : dinode) (data blocks : list Z) (ind : Z) (p : list Z) (d' : dinode) (s' : mk) : Prop :=
  exists blocks' ind', img_ok s' /\ whole s' d' (data ++ p) blocks' ind' /\ touches (used blocks ind) s s' /\
    (forall b, b ∈ used blocks' ind' -> b ∈ used blocks ind \/ mk_freeblock s <= b) /\
    mk_freeblock s' = mk_freeblock s + (total (nblk (length data + length p)) - total (nblk (length data))) /\ same_meta d d'.

Lemma append_trans s d data blocks ind q d1 s1 p blocks1 ind1 d2 s2 :
  img_ok s1 -> whole s1 d1 (data ++ q) blocks1 ind1 -> touches (used blocks ind) s s1 ->
  (forall b, b ∈ used blocks1 ind1 -> b ∈ used blocks ind \/ mk_freeblock s <= b) ->
  mk_freeblock s1 = mk_freeblock s + (total (nblk (length data + length q)) - total (nblk (length data))) -> same_meta d d1 ->
  append_post s1 d1 (data ++ q) blocks1 ind1 p d2 s2 -> append_post s d data blocks ind (q ++ p) d2 s2.
Proof.
  intros Hok Hw Ht Hu Hfb Hm (blocks2 & ind2 & B1 & B2 & B3 & B4 & B5 & B6). exists blocks2, ind2.
  rewrite length_app in B5. split_and!; try done.
  - by rewrite app_assoc.
  - by eapply touches_trans.
  - intros b Hb. destruct (B4 b Hb) as [Hb'|Hb']; [by apply Hu | right]. destruct Ht as [_ Ht _]. lia.
  - rewrite length_app, Nat.add_assoc. lia.
  - destruct Hm as (M1 & M2 & M3 & M4 & M5), B6 as (N1 & N2 & N3 & N4 & N5). unfold same_meta. split_and!; congruence.
Qed.

(** one round of the loop takes the bytes that fit into the current block *)
Lemma wp_iappend_step s d data blocks ind p e (Q : (dinode * Z * list Z) + (dinode * Z) -> list (mk -> mk) -> mk -> Prop) :
  img_ok s -> whole s d data blocks ind -> p <> [] -> (length data + length p <= BS * 268)%nat ->
  mk_freeblock s + (total (nblk (length data + length p)) - total (nblk (length data))) <= FSSIZE ->
  (forall d1 s1 blocks1 ind1 q p', p = q ++ p' -> q <> [] ->
     img_ok s1 -> whole s1 d1 (data ++ q) blocks1 ind1 -> touches (used blocks ind) s s1 ->
     (forall b, b ∈ used blocks1 ind1 -> b ∈ used blocks ind \/ mk_freeblock s <= b) ->
     mk_freeblock s1 = mk_freeblock s + (total (nblk (length data + length q)) - total (nblk (length data))) -> same_meta d d1 ->
     Q (inl (d1, Z.of_nat (length (data ++ q)), p')) e s1) ->
  wp (iappend_step (d, Z.of_nat (length data), p)) e s Q.
Proof.
  intros Hok (Hrep & Htight & Hlen) Hp Hmax Hspace HQ. unfold iappend_step. rewrite bool_decide_false by done.
  pose proof (Nat.div_mod_eq (length data) BS) as Hdm. pose proof (Nat.mod_upper_bound (length data) BS ltac:(lia)) as Hmod.
  set (fbn := (length data / BS)%nat) in *. set (r := (length data mod BS)%nat) in *.
  assert (Hp0 : (0 < length p)%nat) by (destruct p; [done | cbn; lia]).
  assert (Efbn : Z.of_nat (length data) / BSIZE = Z.of_nat fbn) by (unfold fbn, BSIZE; by rewrite Nat2Z.inj_div).
  rewrite Efbn. cbn zeta. unfold assert. replace (Z.of_nat fbn <? MAXFILE)%Z with true
    by (symmetry; apply Z.ltb_lt; change MAXFILE with 268; lia).
  set (n1 := Nat.min (length p) (BS - r)). assert (Hn1 : (0 < n1 <= length p /\ r + n1 <= BS)%nat) by (unfold n1; lia).
  assert (En1 : Z.min (length p) (u32 ((Z.of_nat fbn + 1) * BSIZE - Z.of_nat (length data))) = Z.of_nat n1).
  { unfold BSIZE. rewrite u32_small by lia. unfold n1. lia. }
  rewrite En1. assert (Hnb : nblk (length data + n1) = S fbn) by (apply nblk_add; lia).
  assert (Hsz : total (S fbn) <= total (nblk (length data + length p))) by (rewrite <- Hnb; apply total_mono, nblk_mono; lia).
  wp_step. wp_step. wp_step. eapply wp_mono.
  { apply (wp_iappend_block s d data blocks ind fbn); try done; [rewrite Hlen; lia | lia |].
    rewrite Hlen. destruct (nblk_cases (length data)) as [[E1 E2]|E1]; fold fbn in E1; [left; split; [done | lia] | by right]. }
  intros [d1 x] e1 s1 (-> & blocks1 & ind1 & B1 & B2 & B3 & B4 & B5 & B6 & B7 & B8 & B9). cbn [fst snd] in *.
  pose proof B2 as (_ & Hd1 & Ho1). pose proof (io_fb _ B1) as Hfb1.
  assert (Hxin : x ∈ used blocks1 ind1) by (by eapply used_blocks, list_elem_of_lookup_2).
  destruct (owns_pos _ _ _ x Ho1 Hxin) as [Hx0 Hxr].
  wp_step. eapply wp_rsect; [lia | exact (Hd1 _ _ B5) |].
  replace (Z.to_nat (Z.of_nat (length data) - Z.of_nat fbn * BSIZE)) with r by (unfold BSIZE; lia).
  rewrite Nat2Z.id, u32_small by lia. set (q := take n1 p). assert (Hq : length q = n1) by (unfold q; rewrite length_take; lia).
  unfold fbn, r. rewrite chunk_write by (fold r; lia). fold fbn.
  wp_step. apply wp_wsect; [lia | done |]. wp_step.
  replace (Z.of_nat (length data) + Z.of_nat n1) with (Z.of_nat (length (data ++ q))) by (rewrite length_app; lia).
  apply (HQ d1 (put_block x (chunk fbn (data ++ q)) s1) blocks1 ind1 q (drop n1 p)).
  - symmetry. apply take_drop.
  - intros E. rewrite E in Hq. cbn in Hq. lia.
  - apply img_ok_put; [done | lia | apply chunk_length].
  - split_and!; [by apply write_data | done |]. rewrite length_app, Hq, Hnb. done.
  - eapply touches_trans; [exact B6 | apply (touches_put _ _ _ [x]); [done | lia | by left] |].
    intros b ->%list_elem_of_singleton. by apply B7.
  - exact B7.
  - cbn [put_block set_img mk_freeblock]. rewrite Hq, Hnb, B8, Hlen. done.
  - done.
Qed.

Lemma wp_iappend_loop : forall fuel s d data blocks ind p e,
  (length p < fuel)%nat -> img_ok s -> whole s d data blocks ind -> (length data + length p <= BS * 268)%nat ->
  mk_freeblock s + (total (nblk (length data + length p)) - total (nblk (length data))) <= FSSIZE ->
  wp (mloop fuel (d, Z.of_nat (length data), p) iappend_step) e s (fun r e' s' => e' = e /\
    r.2 = Z.of_nat (length (data ++ p)) /\ append_post s d data blocks ind p r.1 s').
Proof.
  induction fuel as [|fuel IH]; intros s d data blocks ind p e Hf Hok Hw Hmax Hspace; [lia|]. cbn [mloop].
  destruct (decide (p = [])) as [->|Hp].
  { wp_steps. unfold iappend_step. rewrite bool_decide_true by done. wp_steps. rewrite app_nil_r. split_and!; [done..|].
    exists blocks, ind. rewrite app_nil_r. cbn [length]. rewrite Nat.add_0_r. split_and!; try done; [auto | lia]. }
  wp_step. eapply wp_iappend_step; [done..|].
  intros d1 s1 blocks1 ind1 q p' -> Hq B1 B2 B3 B4 B5 B6. assert (0 < length q)%nat by (destruct q; [done | cbn; lia]).
  rewrite length_app in Hf, Hmax, Hspace.
  eapply wp_mono; [apply (IH s1 d1 (data ++ q) blocks1 ind1 p'); try done|].
  - lia.
  - rewrite length_app. lia.
  - rewrite length_app, B5. rewrite <- Nat.add_assoc. lia.
  - intros [d2 off] e2 s2 (-> & E & B). cbn [fst snd] in *. split_and!; [done | by rewrite E, <- app_assoc |].
    by eapply append_trans.
Qed.

(** ** The inode blocks *)
Lemma iblock_val i : 0 <= i < 208 -> IBLOCK i mkfs_sb = i / 16 + 32 /\ 32 <= i / 16 + 32 <= 44.
Proof.
  intros Hi. unfold IBLOCK. change (sb_inodestart mkfs_sb) with 32. change IPB with 16.
  assert (0 <= i / 16 <= 12) by (Z.to_euclidean_division_equations; lia). rewrite u32_small; lia.
Qed.
Lemma di_off_val i : 0 <= i < 208 -> di_off i = (64 * Z.to_nat (i mod 16))%nat /\ (di_off i + 64 <= BS)%nat.
Proof.
  intros Hi. unfold di_off. change IPB with 16. split; [done|].
  pose proof (Z.mod_pos_bound i 16 ltac:(lia)). lia.
Qed.
Definition dino (s : mk) (i : Z) : option dinode :=
  (fun l => dinode_at l (di_off i)) <$> bget_img (mk_img s) (IBLOCK i mkfs_sb).
Lemma iblock_there s i : img_ok s -> 0 <= i < 208 -> exists l, bget_img (mk_img s) (IBLOCK i mkfs_sb) = Some l /\ length l = BS.
Proof.
  intros [Hlen Hblk _ _] Hi. destruct (iblock_val i Hi) as [-> Hr]. unfold bget_img.
  destruct (lookup_lt_is_Some_2 (mk_img s) (Z.to_nat (i / 16 + 32))) as [l Hl]; [rewrite Hlen; unfold FSSIZE; lia|].
  exists l. split; [done | by eapply Hblk].
Qed.
Lemma wp_rinode i d e s (Q : dinode -> list (mk -> mk) -> mk -> Prop) : img_ok s -> 0 <= i < 208 ->
  dino s i = Some d -> Q d e s -> wp (rinode i) e s Q.
Proof.
  intros Hok Hi Hd HQ. destruct (iblock_there s i Hok Hi) as (l & Hl & _). unfold dino in Hd. rewrite Hl in Hd. injection Hd as <-.
  unfold rinode. wp_step. eapply wp_rsect; [destruct (iblock_val i Hi) as [-> ?]; unfold FSSIZE; lia | exact Hl |]. by wp_step.
Qed.
(** the state after an inode has been written *)
Record inode_written (i : Z) (d : dinode) (s s' : mk) : Prop := {
  iw_ok : img_ok s';
  iw_same : dino s' i = Some d;
  iw_other : forall j, 0 <= j < 208 -> j <> i -> dino s' j = dino s j;
  iw_touch : touches [IBLOCK i mkfs_sb] s s';
  iw_fb : mk_freeblock s' = mk_freeblock s
}.
Lemma wp_winode i d e s : img_ok s -> 0 <= i < 208 -> dinode_ok d ->
  wp (winode i d) e s (fun _ e' s' => e' = e /\ inode_written i d s s').
Proof.
  intros Hok Hi Hd. destruct (iblock_there s i Hok Hi) as (l & Hl & Hll). destruct (iblock_val i Hi) as [Eb Hr].
  destruct (di_off_val i Hi) as [Eo Ho]. pose proof (io_fb _ Hok) as Hfb. rewrite nmeta_val in Hfb.
  assert (Hbr : 0 <= IBLOCK i mkfs_sb < FSSIZE) by (rewrite Eb; unfold FSSIZE; lia).
  unfold winode. wp_step. eapply wp_rsect; [done | exact Hl |]. apply wp_wsect; [done..|]. split; [done|].
  pose proof (dinode_bytes_length d ltac:(by apply Hd)) as H64. constructor.
  - apply img_ok_put; [done | lia |]. by rewrite splice_length by lia.
  - unfold dino. rewrite bget_put by (done || lia). rewrite decide_True by done. cbn [fmap option_fmap option_map]. f_equal. apply dinode_at_splice; [done | lia].
  - intros j Hj Hne. unfold dino. destruct (iblock_val j Hj) as [Ej Hrj]. rewrite bget_put by (done || lia).
    destruct (decide (IBLOCK i mkfs_sb = IBLOCK j mkfs_sb)) as [E|E]; [|done]. rewrite <- E, Hl. cbn [fmap option_fmap option_map]. f_equal.
    apply dinode_at_other; [done | lia |]. destruct (di_off_val j Hj) as [-> _]. rewrite Eo.
    rewrite Eb, Ej in E. pose proof (Z.div_mod i 16 ltac:(lia)). pose proof (Z.div_mod j 16 ltac:(lia)).
    pose proof (Z.mod_pos_bound i 16 ltac:(lia)). pose proof (Z.mod_pos_bound j 16 ltac:(lia)). lia.
  - apply touches_put; [done | done | by left].
  - done.
Qed.

(** ** The whole file system *)
Record afile := mkafile { af_type : Z; af_data : list Z; af_blocks : list Z; af_ind : Z }.
Definition af_used (a : afile) : list Z := used (af_blocks a) (af_ind a).
Definition af_total (a : afile) : Z := total (nblk (length (af_data a))).
(** inode [k + 1] is file [a] *)
Definition inode_rep (s : mk) (k : nat) (a : afile) : Prop :=
  exists d, dino s (Z.of_nat k + 1) = Some d /\ whole s d (af_data a) (af_blocks a) (af_ind a) /\
    di_type d = af_type a /\ di_nlink d = 1 /\ di_size d = length (af_data a) /\ (length (af_data a) <= BS * 268)%nat.
Definition sum_total (A : list afile) : Z := foldr (fun a n => af_total a + n) 0 A.

Record fs_ok (s : mk) (A : list afile) : Prop := {
  fo_img : img_ok s;
  fo_free : mk_freeinode s = length A + 1 /\ (length A <= 207)%nat;
  fo_inode : forall k a, A !! k = Some a -> inode_rep s k a;
  fo_disj : forall j k a b x, A !! j = Some a -> A !! k = Some b -> x ∈ af_used a -> x ∈ af_used b -> j = k;
  fo_fb : mk_freeblock s = nmeta + sum_total A;
  fo_low : forall b, 0 <= b < 32 -> bget_img (mk_img s) b = Some (if decide (b = 1) then splice zeroes 0 (sb_bytes mkfs_sb) else zeroes)
}.
Lemma sum_total_insert A k a a' : A !! k = Some a -> sum_total (<[k := a']> A) = sum_total A + (af_total a' - af_total a).
Proof.
  revert k. induction A as [|b A IH]; intros k; [done|]. destruct k as [|k]; intros H; cbn in H.
  - injection H as ->. cbn. lia.
  - change (af_total b + sum_total (<[k := a']> A) = af_total b + sum_total A + (af_total a' - af_total a)).
    rewrite (IH k H). lia.
Qed.
Lemma sum_total_app A B : sum_total (A ++ B) = sum_total A + sum_total B.
Proof. unfold sum_total. induction A as [|a A IH]; cbn; [done|]. rewrite IH. lia. Qed.

(** a file and its inode survive writes elsewhere *)
Lemma whole_frame s s' d data blocks ind U : whole s d data blocks ind -> touches U s s' ->
  (forall b, b ∈ used blocks ind -> b ∉ U) -> whole s' d data blocks ind.
Proof. intros (H1 & H2 & H3) Ht HU. split_and!; [by eapply file_rep_frame | done | done]. Qed.
Lemma whole_owns s d data blocks ind b : whole s d data blocks ind -> b ∈ used blocks ind -> nmeta <= b < mk_freeblock s.
Proof. intros ((_ & _ & Ho) & _ & _) Hb. by apply (owns_pos _ _ _ b Ho). Qed.
Lemma whole_set_size s d data blocks ind n : whole s d data blocks ind -> 0 <= n < 2 ^ 32 -> whole s (set_size n d) data blocks ind.
Proof.
  intros (([R1 R2 R3 R4 R5] & H2 & H3) & H4 & H5) Hn. split_and!; try done. split_and!; try done. constructor; try done.
  destruct R1 as (D1 & D2 & D3 & D4 & D5 & D6 & D7). do 4 (split; [done|]). split; [exact Hn | done].
Qed.
Lemma touches_dino U s s' i : touches U s s' -> img_ok s -> 0 <= i < 208 -> (forall b, b ∈ U -> nmeta <= b) -> dino s' i = dino s i.
Proof.
  intros [_ _ Ht] [_ _ Hfb _] Hi HU. unfold dino. destruct (iblock_val i Hi) as [Eb Hr]. rewrite nmeta_val in *.
  rewrite Ht; [done | lia |]. intros Hin. specialize (HU _ Hin). lia.
Qed.
Lemma inode_elem i b : 0 <= i < 208 -> b ∈ [IBLOCK i mkfs_sb] -> 32 <= b <= 44.
Proof. intros Hi ->%list_elem_of_singleton. destruct (iblock_val i Hi) as [-> ?]. lia. Qed.

(** the file system after file [k] has been extended and its inode rewritten *)
Lemma fs_ok_update s s1 s2 A k a a' d2 : fs_ok s A -> A !! k = Some a ->
  touches (af_used a) s s1 -> inode_written (Z.of_nat k + 1) d2 s1 s2 ->
  (forall b, b ∈ af_used a' -> b ∈ af_used a \/ mk_freeblock s <= b) ->
  whole s1 d2 (af_data a') (af_blocks a') (af_ind a') ->
  di_type d2 = af_type a' -> di_nlink d2 = 1 -> di_size d2 = length (af_data a') -> (length (af_data a') <= BS * 268)%nat ->
  mk_freeblock s1 = mk_freeblock s + (af_total a' - af_total a) ->
  fs_ok s2 (<[k := a']> A).
Proof.
  intros [F1 F2 F3 F4 F5 F6] Hk Ht [W1 W2 W3 W4 W5] Hsub Hw E1 E2 E3 E4 Efb.
  pose proof (lookup_lt_Some _ _ _ Hk) as Hlt. assert (Hi : 0 <= Z.of_nat k + 1 < 208) by lia.
  assert (Hlow : forall b, b ∈ [IBLOCK (Z.of_nat k + 1) mkfs_sb] -> 32 <= b <= 44) by (intros b; by apply inode_elem).
  assert (Hown : forall j b x, A !! j = Some b -> x ∈ af_used b -> nmeta <= x < mk_freeblock s).
  { intros j b x Hj Hx. destruct (F3 j b Hj) as (d & _ & Hwj & _). by eapply whole_owns. }
  pose proof (io_fb _ F1) as Hfb.
  assert (Hcase : forall j b, <[k := a']> A !! j = Some b -> j = k /\ b = a' \/ j <> k /\ A !! j = Some b).
  { intros j b. rewrite list_lookup_insert_case. case_decide as E; [intros [= <-]; left; split; [lia | done]|]. intros Hj.
    right. split; [|done]. lia. }
  assert (Hsep : forall j b x, j <> k -> A !! j = Some b -> x ∈ af_used b -> x ∈ af_used a' -> False).
  { intros j b x Hne Hj Hx Hx'. destruct (Hsub x Hx') as [Ha|Ha]; [by apply Hne, (F4 j k b a x) |].
    pose proof (Hown j b x Hj Hx). lia. }
  constructor.
  - done.
  - rewrite length_insert. destruct W4 as [-> _ _], Ht as [-> _ _]. done.
  - intros j b [[-> ->]|[Hne Hj]]%Hcase.
    + exists d2. split_and!; try done. eapply whole_frame; [exact Hw | exact W4 |]. intros b Hb Hin.
      pose proof (whole_owns _ _ _ _ _ _ Hw Hb) as Hr. rewrite nmeta_val in Hr. specialize (Hlow b Hin). lia.
    + destruct (F3 j b Hj) as (d & D1 & D2 & D3). exists d. pose proof (lookup_lt_Some _ _ _ Hj).
      assert (dino s2 (Z.of_nat j + 1) = Some d).
      { rewrite W3 by lia. rewrite (touches_dino _ _ _ _ Ht) by (done || lia || (intros x Hx; by apply (Hown k a x))). done. }
      split_and!; try apply D3; [done|]. eapply whole_frame; [eapply whole_frame; [exact D2 | exact Ht |] | exact W4 |].
      * intros x Hx Hx'. by apply Hne, (F4 j k b a x).
      * intros x Hx Hin. pose proof (Hown j b x Hj Hx) as Hr. rewrite nmeta_val in Hr. specialize (Hlow x Hin). lia.
  - intros i j b c x [[-> ->]|[Hne Hi']]%Hcase [[-> ->]|[Hne' Hj]]%Hcase Hx Hx'; [done | | |by apply (F4 i j b c x)].
    + destruct (Hsep j c x); done.
    + destruct (Hsep i b x); done.
  - rewrite W5, Efb, F5, (sum_total_insert A k a a' Hk). lia.
  - intros b Hb. destruct W4 as [_ Wf W4]. destruct Ht as [_ Tf Ht]. rewrite nmeta_val in *.
    rewrite W4, Ht; [by apply F6 | lia | | lia |].
    + intros Hin. pose proof (Hown k a b Hk Hin). lia.
    + intros Hin. specialize (Hlow b Hin). lia.
Qed.

Lemma wp_iappend s A k a p e : fs_ok s A -> A !! k = Some a -> (length (af_data a) + length p <= BS * 268)%nat ->
  mk_freeblock s + (total (nblk (length (af_data a) + length p)) - af_total a) <= FSSIZE ->
  wp (iappend (Z.of_nat k + 1) p) e s (fun _ e' s' => e' = e /\ exists a', fs_ok s' (<[k := a']> A) /\
    af_data a' = af_data a ++ p /\ af_type a' = af_type a).
Proof.
  intros Hfs Hk Hmax Hspace. pose proof Hfs as [F1 F2 F3 _ _ _]. pose proof (lookup_lt_Some _ _ _ Hk) as Hlt.
  destruct (F3 k a Hk) as (d & D1 & D2 & D3 & D4 & D5 & D6). assert (Hi : 0 <= Z.of_nat k + 1 < 208) by lia.
  unfold iappend. wp_step. eapply wp_rinode; [done | done | exact D1 |]. wp_step. rewrite D5, xint_id by lia.
  eapply wp_mono; [apply (wp_iappend_loop _ s d (af_data a) (af_blocks a) (af_ind a) p); [lia | done..]|].
  intros [d1 off] e1 s1 (-> & Eo & blocks' & ind' & B1 & B2 & B3 & B4 & B5 & B6). cbn [fst snd] in *.
  assert (Hlen : (length (af_data a ++ p) <= BS * 268)%nat) by (by rewrite length_app).
  rewrite Eo, xint_id by lia. pose proof (whole_set_size _ _ _ _ _ (length (af_data a ++ p)) B2 ltac:(lia)) as B2'.
  eapply wp_mono; [apply wp_winode; [done | done | by destruct B2' as (([? _ _ _ _] & _) & _)]|].
  intros [] e2 s2 (-> & Hw). split; [done|]. exists (mkafile (af_type a) (af_data a ++ p) blocks' ind').
  destruct B6 as (M1 & M2 & M3 & M4 & M5). split_and!; try done.
  eapply (fs_ok_update s s1 s2 A k a); try done; cbn; try congruence.
  unfold af_total. cbn. rewrite length_app. exact B5.
Qed.

(** ** Operations on what the image holds: types and contents by inode *)
Definition view (A : list afile) : list (Z * list Z) := (fun a => (af_type a, af_data a)) <$> A.
Definition vtotal (V : list (Z * list Z)) : Z := foldr (fun v n => total (nblk (length v.2)) + n) 0 V.
Definition fs_view (s : mk) (V : list (Z * list Z)) : Prop := exists A, fs_ok s A /\ view A = V.

Lemma vtotal_view A : vtotal (view A) = sum_total A.
Proof. unfold vtotal, view, sum_total. induction A as [|a A IH]; [done|]. cbn [fmap list_fmap foldr]. by rewrite IH. Qed.
Lemma vtotal_insert V k v v' : V !! k = Some v ->
  vtotal (<[k := v']> V) = vtotal V + (total (nblk (length v'.2)) - total (nblk (length v.2))).
Proof.
  revert k. induction V as [|u V IH]; intros k; [done|]. destruct k as [|k]; intros H; cbn in H.
  - injection H as ->. cbn. lia.
  - change (total (nblk (length u.2)) + vtotal (<[k := v']> V) =
      total (nblk (length u.2)) + vtotal V + (total (nblk (length v'.2)) - total (nblk (length v.2)))).
    rewrite (IH k H). lia.
Qed.
Lemma vtotal_app V W : vtotal (V ++ W) = vtotal V + vtotal W.
Proof. unfold vtotal. induction V as [|v V IH]; [done|]. cbn [app foldr]. rewrite IH. lia. Qed.
Lemma total_pos n : 0 <= total n.
Proof. unfold total. case_decide; lia. Qed.
Lemma vtotal_pos V : 0 <= vtotal V.
Proof. unfold vtotal. induction V as [|v V IH]; [done|]. cbn [foldr]. pose proof (total_pos (nblk (length v.2))). lia. Qed.

Definition fits (V : list (Z * list Z)) : Prop := nmeta + vtotal V <= FSSIZE.

Lemma wp_append s V k t data p e : fs_view s V -> V !! k = Some (t, data) -> (length (data ++ p) <= BS * 268)%nat ->
  fits (<[k := (t, data ++ p)]> V) ->
  wp (iappend (Z.of_nat k + 1) p) e s (fun _ e' s' => e' = e /\ fs_view s' (<[k := (t, data ++ p)]> V)).
Proof.
  intros (A & Hfs & <-) Hk Hlen Hfit. unfold view in Hk. rewrite list_lookup_fmap in Hk.
  destruct (A !! k) as [a|] eqn:Ha; [|done]. injection Hk as <- <-. unfold fits in Hfit.
  rewrite (vtotal_insert _ k (af_type a, af_data a)), vtotal_view in Hfit by (unfold view; by rewrite list_lookup_fmap, Ha).
  cbn [snd] in Hfit. rewrite length_app in Hlen, Hfit.
  eapply wp_mono; [apply (wp_iappend s A k a); try done|].
  - rewrite (fo_fb _ _ Hfs). unfold af_total. lia.
  - intros [] e' s' (-> & a' & Hfs' & Ed & Et). split; [done|]. exists (<[k := a']> A). split; [done|].
    unfold view. rewrite list_fmap_insert. by rewrite Ed, Et.
Qed.
Lemma fits_grow V k t data q : V !! k = Some (t, data) -> forall p, fits (<[k := (t, data ++ p ++ q)]> V) -> fits (<[k := (t, data ++ p)]> V).
Proof.
  intros Hk p. unfold fits. rewrite !(vtotal_insert _ k (t, data)) by done. cbn [snd].
  pose proof (total_mono (nblk (length (data ++ p))) (nblk (length (data ++ p ++ q)))) as H.
  assert (H' : total (nblk (length (data ++ p))) <= total (nblk (length (data ++ p ++ q)))).
  { apply H, nblk_mono. rewrite !length_app. lia. }
  lia.
Qed.
Lemma wp_reads reads e k t : forall s V data, fs_view s V -> V !! k = Some (t, data) ->
  (length (data ++ concat reads) <= BS * 268)%nat -> fits (<[k := (t, data ++ concat reads)]> V) ->
  wp (mforall reads (fun b => iappend (Z.of_nat k + 1) b)) e s
    (fun _ e' s' => e' = e /\ fs_view s' (<[k := (t, data ++ concat reads)]> V)).
Proof.
  induction reads as [|p reads IH]; intros s V data HV Hk Hlen Hfit; cbn [mforall concat] in *.
  { wp_step. split; [done|]. rewrite app_nil_r. by rewrite list_insert_id. }
  wp_step. eapply wp_mono; [eapply wp_append; [done | done | rewrite !length_app in *; lia | by eapply fits_grow]|].
  intros [] e' s' (-> & HV'). pose proof (lookup_lt_Some _ _ _ Hk) as Hlt.
  eapply wp_mono; [apply (IH s' _ (data ++ p) HV')|].
  - by apply list_lookup_insert_eq.
  - by rewrite <- app_assoc.
  - by rewrite list_insert_insert_eq, <- app_assoc.
  - intros [] e'' s'' (-> & HV''). split; [done|]. by rewrite list_insert_insert_eq, <- app_assoc in HV''.
Qed.

Definition new_dinode (t : Z) : dinode := mkdinode t 0 0 1 0 (replicate 13 0).
Lemma whole_new s t : 0 <= t < 2 ^ 16 -> whole s (new_dinode t) [] [] 0.
Proof.
  intros Ht. split_and!; [split_and!; [constructor | |] | split; [cbn; lia | done] | done]; cbn.
  - do 5 (split; [cbn; lia|]). split; [done|]. repeat constructor; lia.
  - intros k Hk. rewrite lookup_nil. change (replicate 13 0 !! k = Some 0). apply lookup_replicate_2. lia.
  - done.
  - lia.
  - done.
  - intros k b Hb. done.
  - split; [apply NoDup_nil_2 | done].
Qed.
Lemma wp_ialloc s V t e : fs_view s V -> (length V < 207)%nat -> 0 <= t < 2 ^ 16 ->
  wp (mkfs_ialloc t) e s (fun r e' s' => e' = e /\ r = Z.of_nat (length V) + 1 /\ fs_view s' (V ++ [(t, [])])).
Proof.
  intros (A & Hfs & <-) Hlen Ht. unfold view in *. rewrite length_fmap in *.
  pose proof Hfs as [F1 [F2 F2'] F3 F4 F5 F6]. unfold mkfs_ialloc. wp_steps. rewrite F2, u32_small, xshort_id by lia.
  change (xshort 1) with 1. change (xint 0) with 0.
  set (s0 := set_freeinode _ s). assert (Hok0 : img_ok s0) by (by destruct F1; constructor).
  assert (Hi : 0 <= Z.of_nat (length A) + 1 < 208) by lia.
  eapply wp_mono; [apply (wp_winode _ (new_dinode t) e s0 Hok0 Hi)|].
  { by destruct (whole_new s t Ht) as (([? _ _ _ _] & _) & _). }
  intros [] e' s' (-> & [W1 W2 W3 W4 W5]). wp_step. split_and!; [done | done |].
  assert (Hcase : forall k b, (A ++ [mkafile t [] [] 0]) !! k = Some b ->
    A !! k = Some b \/ k = length A /\ b = mkafile t [] [] 0).
  { intros k b. rewrite lookup_app. destruct (A !! k) eqn:E; [by left|]. apply lookup_ge_None in E.
    intros [? ->]%list_lookup_singleton_Some. right. split; [lia | done]. }
  assert (Hlow : forall b, b ∈ [IBLOCK (Z.of_nat (length A) + 1) mkfs_sb] -> 32 <= b <= 44) by (intros b; by apply inode_elem).
  exists (A ++ [mkafile t [] [] 0]). split; [constructor | unfold view; by rewrite fmap_app].
  - done.
  - rewrite length_app. cbn. destruct W4 as [-> _ _]. cbn. lia.
  - intros k b [Hk|[-> ->]]%Hcase.
    + destruct (F3 k b Hk) as (d & D1 & D2 & D3). pose proof (lookup_lt_Some _ _ _ Hk).
      exists d. split_and!; try apply D3; [rewrite W3 by lia; exact D1|].
      eapply (whole_frame s0); [exact D2 | exact W4 |]. intros x Hx Hin.
      pose proof (whole_owns _ _ _ _ _ _ D2 Hx) as Hr. rewrite nmeta_val in Hr. specialize (Hlow x Hin). lia.
    + exists (new_dinode t). split_and!; [done | by apply whole_new | done | done | done | cbn [af_data length]; lia].
  - intros i j b c x [Hi'|[-> ->]]%Hcase [Hj|[-> ->]]%Hcase Hx Hx'; [by eapply F4 | | | done].
    + by apply elem_of_nil in Hx'.
    + by apply elem_of_nil in Hx.
  - rewrite W5, sum_total_app. cbn [s0 set_freeinode mk_freeblock]. rewrite F5. change (sum_total [mkafile t [] [] 0]) with 0. lia.
  - intros b Hb. destruct W4 as [_ _ W4]. pose proof (io_fb _ F1) as Hfb. rewrite nmeta_val in Hfb.
    rewrite W4; [by apply F6 | cbn; lia |]. intros Hin. specialize (Hlow b Hin). lia.
Qed.

(** ** The files of the command line *)
Definition entry (i : nat) (name : list Z) : list Z := mk_dirent (Z.of_nat i) name.
Definition arg_name (arg : list Z) : list Z := skip_underscore (shortname arg).
Fixpoint dir_entries (i : nat) (argv : list (list Z * option (list (list Z)))) : list Z :=
  match argv with [] => [] | f :: argv' => entry i (arg_name f.1) ++ dir_entries (S i) argv' end.
Definition arg_data (f : list Z * option (list (list Z))) : list Z := concat (default [] f.2).
Definition arg_ok (f : list Z * option (list (list Z))) : Prop :=
  slash ∉ shortname f.1 /\ f.2 <> None /\ (length (arg_data f) <= BS * 268)%nat.
Definition file_views (argv : list (list Z * option (list (list Z)))) : list (Z * list Z) :=
  (fun f => (T_FILE, arg_data f)) <$> argv.

Lemma entry_length i name : length (entry i name) = 16%nat.
Proof. unfold entry, mk_dirent, strncpy_l. rewrite !length_app, length_replicate. cbn [length]. rewrite length_take. unfold DIRSIZ. lia. Qed.
Lemma dir_entries_length i argv : length (dir_entries i argv) = (16 * length argv)%nat.
Proof. revert i. induction argv as [|f argv IH]; intros i; cbn [dir_entries length]; [done|]. rewrite length_app, entry_length, IH. lia. Qed.
Lemma fits_le V W : vtotal V <= vtotal W -> fits W -> fits V.
Proof. unfold fits. lia. Qed.
Lemma vtotal_cons v V : vtotal (v :: V) = total (nblk (length v.2)) + vtotal V.
Proof. done. Qed.
Lemma total_length (l l' : list Z) : (length l <= length l')%nat -> total (nblk (length l)) <= total (nblk (length l')).
Proof. intros H. by apply total_mono, nblk_mono. Qed.

Lemma wp_file s root F f e : fs_view s ((T_DIR, root) :: F) -> arg_ok f -> (length F < 206)%nat -> (length root <= 4096)%nat ->
  fits ((T_DIR, root ++ entry (length F + 2) (arg_name f.1)) :: F ++ [(T_FILE, arg_data f)]) ->
  wp (mkfs_file 1 f) e s (fun _ e' s' => e' = e /\
    fs_view s' ((T_DIR, root ++ entry (length F + 2) (arg_name f.1)) :: F ++ [(T_FILE, arg_data f)])).
Proof.
  intros HV (Hs & Hopen & Hlen) HF Hroot Hfit. destruct f as [arg [reads|]]; [|done]. cbn [fst snd] in *.
  change (arg_data (arg, Some reads)) with (concat reads) in *. unfold mkfs_file. cbn [fst snd]. unfold assert. rewrite bool_decide_true by done. wp_step. wp_step.
  wp_step. eapply wp_mono; [apply (wp_ialloc _ _ T_FILE e HV); [cbn; lia | done]|].
  intros r e' s1 (-> & -> & HV1). cbn [length]. rewrite xshort_id by lia.
  replace (Z.of_nat (S (length F)) + 1) with (Z.of_nat (length F + 2)) at 1 by lia. fold (entry (length F + 2) (skip_underscore (shortname arg))).
  fold (arg_name arg). set (root' := root ++ entry (length F + 2) (arg_name arg)) in *.
  assert (Hr : (length root' <= BS * 268)%nat) by (unfold root'; rewrite length_app, entry_length; lia).
  wp_step. eapply wp_mono; [apply (wp_append s1 _ 0 T_DIR root _ e HV1 eq_refl Hr)|].
  { eapply fits_le; [|exact Hfit]. cbn [app insert list_insert]. rewrite !vtotal_cons, !vtotal_app, !vtotal_cons. fold root'.
    pose proof (total_length [] (concat reads)) as Ht. cbn [length snd] in *. specialize (Ht ltac:(lia)). lia. }
  intros [] e' s2 (-> & HV2). cbn [app insert list_insert] in HV2. fold root' in HV2.
  assert (Hk : ((T_DIR, root') :: F ++ [(T_FILE, [])]) !! S (length F) = Some (T_FILE, [])).
  { change ((F ++ [(T_FILE, [])]) !! length F = Some (T_FILE, [] : list Z)). by rewrite lookup_app_r, Nat.sub_diag by lia. }
  assert (Hins : forall x, <[S (length F) := (T_FILE, x)]> ((T_DIR, root') :: F ++ [(T_FILE, [])]) = (T_DIR, root') :: F ++ [(T_FILE, x)]).
  { intros x. change ((T_DIR, root') :: <[length F := (T_FILE, x)]> (F ++ [(T_FILE, [])]) = (T_DIR, root') :: F ++ [(T_FILE, x)]).
    f_equal. rewrite <- (Nat.add_0_r (length F)), insert_app_r. done. }
  eapply wp_mono; [apply (wp_reads reads e _ T_FILE s2 _ [] HV2 Hk); [done | by rewrite Hins]|].
  intros [] e' s3 (-> & HV3). rewrite Hins in HV3. done.
Qed.

Lemma wp_files argv e : Forall arg_ok argv -> forall s root F, fs_view s ((T_DIR, root) :: F) ->
  (length F + length argv <= 206)%nat -> (length root + 16 * length argv <= 4096)%nat ->
  fits ((T_DIR, root ++ dir_entries (length F + 2) argv) :: F ++ file_views argv) ->
  wp (mforall argv (mkfs_file 1)) e s (fun _ e' s' => e' = e /\
    fs_view s' ((T_DIR, root ++ dir_entries (length F + 2) argv) :: F ++ file_views argv)).
Proof.
  induction 1 as [|f argv Hf Hargv IH]; intros s root F HV HF Hroot Hfit; cbn [mforall dir_entries] in *.
  { wp_step. split; [done|]. by rewrite !app_nil_r in *. }
  cbn [length] in *. unfold file_views in *. cbn [fmap list_fmap] in *.
  assert (Happ : forall (v : Z * list Z) W, F ++ v :: W = (F ++ [v]) ++ W) by (intros; by rewrite <- app_assoc).
  rewrite Happ in Hfit |- *. rewrite app_assoc in Hfit |- *.
  wp_step. eapply wp_mono; [apply (wp_file s root F f e HV Hf); [lia | lia |]|].
  { eapply fits_le; [|exact Hfit]. rewrite !vtotal_cons, !vtotal_app. cbn [snd].
    pose proof (vtotal_pos ((fun f => (T_FILE, arg_data f)) <$> argv)).
    pose proof (total_length (root ++ entry (length F + 2) (arg_name f.1))
      ((root ++ entry (length F + 2) (arg_name f.1)) ++ dir_entries (S (length F + 2)) argv)
      ltac:(rewrite !length_app; lia)). lia. }
  intros [] e' s1 (-> & HV1).
  replace (S (length F + 2)) with (length (F ++ [(T_FILE, arg_data f)]) + 2)%nat in * by (rewrite length_app; cbn; lia).
  apply IH; try done; rewrite !length_app, ?entry_length; cbn [length]; lia.
Qed.
