(* ===== verification/MkfsMain.v ===== *)
(** The image mkfs makes, read with the kernel's own decoding of the super block,
    the inodes and the block addresses (mkfs/mkfs.c against kernel/fs.c). *)
From S2P Require Import Prelude State Spinlock Boot Proc Disk Log LogCrash LogWrite LogOps Fs Mkfs MkfsImage.

(** ** Reading an image *)
Definition iblk (img : list (list Z)) (b : Z) : list Z := default [] (bget_img img b).
Definition img_sb (img : list (list Z)) : superblock := parse_sb (iblk img 1).
(** what [ilock] loads into an in-memory inode *)
Definition img_inode (img : list (list Z)) (i : Z) (ip : inode) : inode :=
  di_read (iblk img (IBLOCK i (img_sb img))) (di_off i) ip.
(** what [bmap] answers for a block that is there; 0, the number it would replace by a new
    block, for one that is not *)
Definition img_bmap (img : list (list Z)) (ip : inode) (bn : nat) : Z :=
  if decide (bn < NDIRECT)%nat then default 0 (i_addrs ip !! bn)
  else get32 (iblk img (default 0 (i_addrs ip !! NDIRECT))) (4 * (bn - NDIRECT)).
Definition img_byte (img : list (list Z)) (ip : inode) (off : nat) : Z :=
  get8 (iblk img (img_bmap img ip (off / 1024))) (off mod 1024).
Definition img_file (img : list (list Z)) (ip : inode) : list Z :=
  img_byte img ip <$> seq 0 (Z.to_nat (i_size ip)).
(** a block of the file, or its indirect block *)
Definition img_uses (img : list (list Z)) (ip : inode) (b : Z) : Prop :=
  (exists k, (k < 268)%nat /\ img_bmap img ip k = b) \/ i_addrs ip !! NDIRECT = Some b.
Definition marked (img : list (list Z)) (b : Z) : bool :=
  Z.testbit (get8 (iblk img (sb_bmapstart (img_sb img))) (Z.to_nat (b / 8))) (b mod 8).

(** ** Contents of a file that is whole in the image *)
Lemma get8_chunk k data o : (o < BS)%nat -> get8 (chunk k data) o = get8 data (BS * k + o).
Proof.
  intros Ho. unfold get8, chunk. rewrite resize_spec, lookup_app, lookup_take, lookup_drop.
  rewrite decide_True by done. destruct (data !! (BS * k + o)%nat) as [x|] eqn:E; [done|].
  rewrite length_take, length_drop. apply lookup_ge_None in E. rewrite lookup_replicate_2 by lia. done.
Qed.
Lemma get8_zeroes o : get8 zeroes o = 0.
Proof. unfold get8, zeroes. destruct (replicate (Z.to_nat BSIZE) 0 !! o) eqn:E; [|done]. by apply lookup_replicate in E as [-> _]. Qed.

Section reading.
Context (img : list (list Z)) (d : dinode) (data blocks : list Z) (ind : Z) (ip : inode).
Context (Har : addrs_rep img d blocks ind) (Hd : data_rep img data blocks) (Hlen : length blocks = nblk (length data)).
Context (Hboot : bget_img img 0 = Some zeroes) (Hadr : i_addrs ip = di_addrs d).

Lemma bmap_blocks k : (k < 268)%nat -> img_bmap img ip k = default 0 (blocks !! k).
Proof.
  intros Hk. destruct Har as [R1 R2 R3 R4 R5]. unfold img_bmap. rewrite Hadr. unfold NDIRECT. case_decide as Hc.
  - by rewrite R2.
  - rewrite R3. change (default 0 (Some ind)) with ind. unfold iblk. destruct (decide (ind = 0)) as [->|Hi].
    + rewrite Hboot. change (default [] (Some zeroes)) with zeroes. rewrite get32_zeroes.
      rewrite lookup_ge_None_2; [done|]. destruct (decide (12 < length blocks)%nat); [by destruct R4 | lia].
    + destruct (R5 Hi) as (l & -> & _ & Hl). change (default [] (Some l)) with l. rewrite Hl by lia.
      by replace (12 + (k - 12))%nat with k by lia.
Qed.
Lemma byte_data off : (off < BS * 268)%nat -> img_byte img ip off = get8 data off.
Proof.
  intros Hoff. pose proof (Nat.div_mod_eq off BS) as Hdm. pose proof (Nat.mod_upper_bound off BS ltac:(lia)) as Hm.
  unfold img_byte. rewrite bmap_blocks by lia. unfold iblk. destruct (blocks !! (off / BS)%nat) as [b|] eqn:Hb.
  - change (default 0 (Some b)) with b. rewrite (Hd _ _ Hb).
    change (default [] (Some (chunk (off / BS) data))) with (chunk (off / BS) data). rewrite get8_chunk by lia. f_equal. lia.
  - change (default 0 (@None Z)) with 0. rewrite Hboot. change (default [] (Some zeroes)) with zeroes. rewrite get8_zeroes.
    apply lookup_ge_None in Hb. unfold get8. rewrite lookup_ge_None_2; [done|]. rewrite Hlen in Hb.
    pose proof (nblk_cases (length data)). pose proof (Nat.div_mod_eq (length data) BS).
    pose proof (Nat.mod_upper_bound (length data) BS ltac:(lia)). nia.
Qed.
Lemma file_data : i_size ip <= 1024 * 268 -> img_file img ip = resize (Z.to_nat (i_size ip)) 0 data.
Proof.
  intros Hsz. apply list_eq. intros k. unfold img_file. rewrite list_lookup_fmap.
  destruct (decide (k < Z.to_nat (i_size ip))%nat) as [Hk|Hk].
  - rewrite lookup_seq_lt by done. cbn [fmap option_fmap option_map]. rewrite byte_data by lia.
    unfold get8. rewrite resize_spec, lookup_app, lookup_take, decide_True by done.
    cbn [Nat.add]. destruct (data !! k) as [x|] eqn:E; [done|]. apply lookup_ge_None in E.
    rewrite length_take, lookup_replicate_2 by lia. done.
  - rewrite !lookup_ge_None_2; [done | rewrite length_resize; lia | rewrite length_seq; lia].
Qed.
End reading.

(** ** The bitmap *)
Lemma mark_length buf i : length (mark buf i) = length buf.
Proof. apply length_insert. Qed.
Lemma testbit_mark buf i j : (i / 8 < length buf)%nat -> 0 <= get8 buf (i / 8) < 256 ->
  Z.testbit (get8 (mark buf i) (j / 8)) (Z.of_nat j mod 8) =
  Z.testbit (get8 buf (j / 8)) (Z.of_nat j mod 8) || bool_decide (i = j).
Proof.
  intros Hi Hr. unfold mark. rewrite get8_insert by done.
  pose proof (Nat.div_mod_eq i 8) as Ei. pose proof (Nat.div_mod_eq j 8) as Ej.
  assert (Em : forall n, Z.of_nat n mod 8 = Z.of_nat (n mod 8)) by (intros; by rewrite Nat2Z.inj_mod).
  rewrite !Em. pose proof (Nat.mod_upper_bound i 8 ltac:(lia)). pose proof (Nat.mod_upper_bound j 8 ltac:(lia)).
  case_decide as E.
  - unfold u8. rewrite Z.mod_pow2_bits_low by lia. rewrite Z.lor_spec, E. f_equal.
    rewrite Z.shiftl_1_l, Z.pow2_bits_eqb by lia. apply eq_true_iff_eq. rewrite Z.eqb_eq, bool_decide_eq_true. lia.
  - rewrite (bool_decide_false (i = j)) by congruence. by rewrite orb_false_r.
Qed.
Lemma mark_range buf i : Forall (fun x => 0 <= x < 256) buf -> Forall (fun x => 0 <= x < 256) (mark buf i).
Proof. intros H. unfold mark. apply Forall_insert; [done|]. apply (u8_range (Z.lor _ _)). Qed.
Lemma bitmap_bits n j : (n <= 8 * BS)%nat -> (j < 8 * BS)%nat ->
  length (foldl mark zeroes (seq 0 n)) = BS /\
  Forall (fun x => 0 <= x < 256) (foldl mark zeroes (seq 0 n)) /\
  Z.testbit (get8 (foldl mark zeroes (seq 0 n)) (j / 8)) (Z.of_nat j mod 8) = bool_decide (j < n)%nat.
Proof.
  intros Hn Hj. induction n as [|n IH].
  { cbn [seq foldl]. split_and!; [done | by apply Forall_replicate |]. by rewrite get8_zeroes, Z.bits_0. }
  destruct IH as (I1 & I2 & I3); [lia|]. rewrite seq_S, foldl_app. cbn [foldl Nat.add]. split_and!.
  - by rewrite mark_length.
  - by apply mark_range.
  - assert (Hd : (n / 8 < BS)%nat) by (apply Nat.Div0.div_lt_upper_bound; lia).
    rewrite testbit_mark, I3; [| by rewrite I1 |].
    + apply eq_true_iff_eq. rewrite orb_true_iff, !bool_decide_eq_true. lia.
    + unfold get8. destruct (_ !! (n / 8)%nat) as [x|] eqn:E; [|done]. rewrite Forall_forall in I2. by eapply I2, list_elem_of_lookup_2.
Qed.

(** ** Before the first file *)
Definition blank_mk : mk := mkmk (replicate (Z.to_nat FSSIZE) zeroes) 1 nmeta.
Lemma wp_zero_all e : wp (mforall (seq 0 (Z.to_nat FSSIZE)) (fun i => wsect i zeroes)) e (set_freeblock nmeta mkfs_start)
  (fun _ e' s' => e' = e /\ s' = blank_mk).
Proof.
  eapply (wp_seq _ (fun k s => s = mkmk (replicate k zeroes) 1 nmeta)).
  - done.
  - intros k s Hk ->. unfold wsect. wp_step. split; [done|]. unfold set_img.
    cbn [mk_img mk_freeinode mk_freeblock]. rewrite sect_small by (unfold FSSIZE in *; lia).
    rewrite Nat2Z.id, length_replicate, decide_False, Nat.sub_diag by lia. by rewrite replicate_S_end.
  - by intros s ->.
Qed.
Definition first_mk : mk := put_block 1 (splice zeroes 0 (sb_bytes mkfs_sb)) blank_mk.
Lemma blank_get b : 0 <= b < FSSIZE -> bget_img (mk_img blank_mk) b = Some zeroes.
Proof. intros Hb. unfold bget_img, blank_mk. cbn [mk_img]. apply lookup_replicate_2. unfold FSSIZE in *. lia. Qed.
Lemma blank_ok : img_ok blank_mk.
Proof.
  constructor.
  - apply length_replicate.
  - intros b l. unfold blank_mk. cbn [mk_img]. intros [-> _]%lookup_replicate. apply length_replicate.
  - done.
  - intros b Hb. apply blank_get. change (nmeta <= b < FSSIZE) in Hb. rewrite nmeta_val in Hb. lia.
Qed.
Lemma first_view : fs_view first_mk [].
Proof.
  exists []. split; [|done]. constructor.
  - apply img_ok_put; [apply blank_ok | done | done].
  - split; [done | cbn; lia].
  - done.
  - done.
  - done.
  - intros b Hb. unfold first_mk. rewrite bget_put by (apply blank_ok || done || lia).
    destruct (decide (1 = b)) as [<-|Hne]; [by rewrite decide_True|]. rewrite decide_False by congruence.
    apply blank_get. unfold FSSIZE. lia.
Qed.

(** ** The end of [main] *)
Definition rounded (n : nat) : Z := (Z.of_nat n / 1024 + 1) * 1024.
Definition final_size (k : nat) (a : afile) : Z := if decide (k = 0)%nat then rounded (length (af_data a)) else length (af_data a).
Definition final_rep (s : mk) (k : nat) (a : afile) : Prop :=
  exists d, dino s (Z.of_nat k + 1) = Some d /\ whole s d (af_data a) (af_blocks a) (af_ind a) /\
    di_type d = af_type a /\ di_nlink d = 1 /\ di_size d = final_size k a.
Record finished (A : list afile) (s : mk) : Prop := {
  fi_img : img_ok s;
  fi_fb : mk_freeblock s = nmeta + sum_total A;
  fi_low : forall b, 0 <= b < 32 -> bget_img (mk_img s) b = Some (if decide (b = 1) then splice zeroes 0 (sb_bytes mkfs_sb) else zeroes);
  fi_inode : forall k a, A !! k = Some a -> final_rep s k a /\ (length (af_data a) <= BS * 268)%nat;
  fi_disj : forall j k a b x, A !! j = Some a -> A !! k = Some b -> x ∈ af_used a -> x ∈ af_used b -> j = k;
  fi_bitmap : bget_img (mk_img s) 45 = Some (foldl mark zeroes (seq 0 (Z.to_nat (mk_freeblock s))))
}.

Lemma wp_finish s A root e : fs_ok s A -> A !! 0%nat = Some root -> (length (af_data root) <= 4096)%nat ->
  wp (din <- rinode 1;;
      let off := xint (di_size din) in
      let off := u32 ((off / BSIZE + 1) * BSIZE) in
      winode 1 (set_size (xint off) din);;
      used <- gets mk_freeblock;;
      mkfs_balloc used) e s (fun _ _ s' => finished A s').
Proof.
  intros [F1 F2 F3 F4 F5 F6] H0 Hroot. destruct (F3 0%nat root H0) as (d & D1 & D2 & D3 & D4 & D5 & D6). cbn in D1.
  change (dino s 1 = Some d) in D1. wp_step. eapply wp_rinode; [done | lia | exact D1 |]. cbn zeta. rewrite D5.
  assert (Hr : 0 <= rounded (length (af_data root)) < 2 ^ 32).
  { unfold rounded. Z.to_euclidean_division_equations; lia. }
  rewrite (xint_id (Z.of_nat _)) by lia. change BSIZE with 1024. fold (rounded (length (af_data root))).
  rewrite u32_small, xint_id by done.
  pose proof (whole_set_size _ _ _ _ _ _ D2 Hr) as Hw0.
  wp_step. eapply wp_mono; [apply wp_winode; [done | lia | by destruct Hw0 as (([? _ _ _ _] & _) & _)]|].
  intros [] e' s1 (-> & [W1 W2 W3 W4 W5]). wp_steps. unfold mkfs_balloc, assert.
  pose proof (io_fb _ W1) as Hfb. unfold FSSIZE in Hfb. change (BSIZE * 8) with 8192. replace (mk_freeblock s1 <? 8192) with true by lia.
  destruct (bitmap_bits (Z.to_nat (mk_freeblock s1)) 0 ltac:(lia) ltac:(lia)) as (Hbl & _ & _).
  change (sb_bmapstart mkfs_sb) with 45. wp_steps. apply wp_wsect; [done | done |]. set (bm := foldl mark _ _) in *.
  rewrite nmeta_val in *.
  assert (T1 : touches [IBLOCK 1 mkfs_sb] s s1) by done. change (IBLOCK 1 mkfs_sb) with 32 in T1.
  assert (T2 : touches [45] s1 (put_block 45 bm s1)) by (apply touches_put; [done | done | by left]).
  assert (Hdino : forall i, 0 <= i < 208 -> dino (put_block 45 bm s1) i = dino s1 i).
  { intros i Hi. unfold dino. destruct (iblock_val i Hi) as [-> ?]. rewrite bget_put by (done || lia).
    by rewrite decide_False by lia. }
  assert (Hwhole : forall d data blocks ind, whole s d data blocks ind -> whole (put_block 45 bm s1) d data blocks ind).
  { intros d' data blocks ind Hw. pose proof (fun b Hb => whole_owns _ _ _ _ _ b Hw Hb) as Hrg. rewrite nmeta_val in Hrg.
    eapply whole_frame; [eapply whole_frame; [exact Hw | exact T1 |] | exact T2 |];
      intros b Hb ->%list_elem_of_singleton; specialize (Hrg _ Hb); lia. }
  constructor.
  - apply img_ok_put; [done | lia | done].
  - cbn [put_block set_img mk_freeblock]. rewrite W5, F5, nmeta_val. done.
  - intros b Hb. rewrite bget_put by (done || lia). rewrite decide_False by lia. destruct T1 as [_ _ T1].
    rewrite T1; [by apply F6 | lia |]. intros ->%list_elem_of_singleton. lia.
  - intros k a Hk. pose proof (lookup_lt_Some _ _ _ Hk). destruct k as [|k].
    + rewrite H0 in Hk. injection Hk as <-. split; [|done]. exists (set_size (rounded (length (af_data root))) d).
      split_and!; [by rewrite Hdino | by apply Hwhole | done..].
    + destruct (F3 (S k) a Hk) as (d' & E1 & E2 & E3 & E4 & E5 & E6). split; [|done]. exists d'.
      split_and!; [rewrite Hdino, W3 by lia; done | by apply Hwhole | done..].
  - done.
  - rewrite bget_put by done. by rewrite decide_True.
Qed.

(** ** [main] *)
Notation args := (list (list Z * option (list (list Z)))).
Definition root_data (argv : args) : list Z := entry 1 dot ++ entry 1 dotdot ++ dir_entries 2 argv.
Definition contents (argv : args) : list (Z * list Z) := (T_DIR, root_data argv) :: file_views argv.
(** the files exist, have no slash in their names, and fit: each into a file, all into the image *)
Definition args_ok (argv : args) : Prop := Forall arg_ok argv /\ (length argv <= 198)%nat /\ fits (contents argv).

Lemma root_data_length argv : length (root_data argv) = (16 * (length argv + 2))%nat.
Proof. unfold root_data. rewrite !length_app, !entry_length, dir_entries_length. lia. Qed.

Lemma wp_mkfs_main argv e : args_ok argv ->
  wp (mkfs_main argv) e mkfs_start (fun _ _ s => exists A, finished A s /\ view A = contents argv).
Proof.
  intros (Hargs & Hn & Hfit). unfold mkfs_main. wp_step. wp_step. wp_step.
  eapply wp_mono; [apply wp_zero_all|]. intros [] e0 s0 (-> & ->).
  wp_step. apply wp_wsect; [done | apply blank_ok |]. fold first_mk.
  wp_step. eapply wp_mono; [apply (wp_ialloc _ _ T_DIR e first_view); [cbn; lia | done]|].
  intros r e0 s1 (-> & -> & HV1). cbn [app length] in *. change (Z.of_nat 0 + 1) with 1.
  wp_step. change (1 =? ROOTINO) with true. unfold assert. wp_step. change (xshort 1) with (Z.of_nat 1).
  fold (entry 1 dot) (entry 1 dotdot).
  assert (Hmono : forall l, (length l <= length (root_data argv))%nat -> fits [(T_DIR, l)]).
  { intros l Hl. eapply fits_le; [|exact Hfit]. unfold contents. rewrite !vtotal_cons. cbn [snd].
    pose proof (vtotal_pos (file_views argv)). pose proof (total_length l (root_data argv) Hl). change (vtotal []) with 0. lia. }
  pose proof (root_data_length argv) as Hrl.
  wp_step. eapply wp_mono; [apply (wp_append s1 _ 0 T_DIR [] (entry 1 dot) e HV1 eq_refl)|].
  { cbn [app]. rewrite entry_length. lia. }
  { apply Hmono. cbn [app]. rewrite entry_length. lia. }
  intros [] e0 s2 (-> & HV2). cbn [insert list_insert app] in HV2.
  wp_step. eapply wp_mono; [apply (wp_append s2 _ 0 T_DIR (entry 1 dot) (entry 1 dotdot) e HV2 eq_refl)|].
  { rewrite length_app, !entry_length. lia. }
  { apply Hmono. rewrite length_app, !entry_length. lia. }
  intros [] e0 s3 (-> & HV3). cbn [insert list_insert] in HV3.
  assert (Er : root_data argv = (entry 1 dot ++ entry 1 dotdot) ++ dir_entries (length (@nil (Z * list Z)) + 2) argv).
  { unfold root_data. by rewrite <- app_assoc. }
  wp_step. eapply wp_mono; [apply (wp_files argv e Hargs s3 (entry 1 dot ++ entry 1 dotdot) [] HV3)|].
  { cbn [length]. lia. }
  { rewrite length_app, !entry_length. lia. }
  { rewrite <- Er. exact Hfit. }
  intros [] e0 s4 (-> & HV4). rewrite <- Er in HV4. cbn [app] in HV4. fold (contents argv) in HV4.
  destruct HV4 as (A & Hfs & HA). destruct A as [|root A]; [done|].
  eapply wp_mono; [apply (wp_finish s4 (root :: A) root e Hfs eq_refl)|].
  - unfold view, contents in HA. cbn [fmap list_fmap] in HA. injection HA as _ E _. rewrite E, Hrl. lia.
  - intros [] e1 s5 Hf. by exists (root :: A).
Qed.

(** ** What the kernel finds *)
Definition layout : superblock := mksuperblock FSMAGIC 2000 1954 200 30 2 32 45.
Record image_ok (argv : args) (img : list (list Z)) : Prop := {
  im_len : length img = 2000%nat;
  im_sb : img_sb img = layout;
  im_log : iblk img (sb_logstart (img_sb img)) = zeroes;
  im_root : forall ip, let ip := img_inode img ROOTINO ip in
      i_type ip = T_DIR /\ i_nlink ip = 1 /\ i_size ip = rounded (length (root_data argv)) /\
      img_file img ip = resize (Z.to_nat (rounded (length (root_data argv)))) 0 (root_data argv);
  im_files : forall k f ip, argv !! k = Some f -> let ip := img_inode img (Z.of_nat k + 2) ip in
      i_type ip = T_FILE /\ i_nlink ip = 1 /\ img_file img ip = arg_data f
}.

Section finished.
Context (A : list afile) (s : mk) (Hf : finished A s).
Notation img := (mk_img s).

Lemma fin_sb : img_sb img = layout.
Proof.
  unfold img_sb, iblk. rewrite (fi_low _ _ Hf) by lia. rewrite decide_True by done. by vm_compute.
Qed.
Lemma fin_inode k a ip : A !! k = Some a -> (Z.of_nat k + 1 < 208) -> exists d,
  dino s (Z.of_nat k + 1) = Some d /\ whole s d (af_data a) (af_blocks a) (af_ind a) /\
  let ip := img_inode img (Z.of_nat k + 1) ip in
  i_addrs ip = di_addrs d /\ i_size ip = final_size k a /\ i_type ip = s16 (af_type a) /\ i_nlink ip = 1.
Proof.
  intros Hk Hlt. destruct (fi_inode _ _ Hf k a Hk) as [(d & D1 & D2 & D3 & D4 & D5) _]. exists d. split_and!; [done | done|].
  destruct (iblock_there s (Z.of_nat k + 1) (fi_img _ _ Hf) ltac:(lia)) as (l & Hl & _).
  unfold dino in D1. rewrite Hl in D1. cbn [fmap option_fmap option_map] in D1. injection D1 as <-.
  unfold img_inode. rewrite fin_sb. change (IBLOCK (Z.of_nat k + 1) layout) with (IBLOCK (Z.of_nat k + 1) mkfs_sb).
  unfold iblk. rewrite Hl. change (default [] (Some l)) with l. cbn [di_type di_nlink di_size dinode_at] in *.
  split_and!; [reflexivity | exact D5 | exact (f_equal s16 D3) | exact (f_equal s16 D4)].
Qed.

Lemma fin_file k a ip : A !! k = Some a -> (Z.of_nat k + 1 < 208) -> final_size k a <= 1024 * 268 ->
  img_file img (img_inode img (Z.of_nat k + 1) ip) = resize (Z.to_nat (final_size k a)) 0 (af_data a).
Proof.
  intros Hk Hlt Hsz. destruct (fin_inode k a ip Hk Hlt) as (d & _ & ((Har & Hd & _) & _ & Hlen) & E1 & E2 & _).
  rewrite <- E2. eapply file_data; try done; [|by rewrite E2].
  rewrite (fi_low _ _ Hf) by lia. by rewrite decide_False.
Qed.
End finished.

(** C25: the image mkfs makes of files that fit is the one the kernel expects: the super block parses to the layout, the
    log header is empty, the root directory holds an entry for itself, its parent and every file under its name, the rest
    of it zero, and the inode of every file, read through the kernel's block map, has exactly the bytes of the host file *)
Theorem mkfs_image argv : args_ok argv -> wp (mkfs_main argv) [] mkfs_start (fun _ _ s => image_ok argv (mk_img s)).
Proof.
  intros Hok. eapply wp_mono; [by apply wp_mkfs_main|]. intros [] e s (A & Hf & HA). destruct Hok as (_ & Hn & _).
  assert (HlenA : length A = S (length argv)).
  { apply (f_equal length) in HA. unfold view, contents, file_views in HA. cbn [length] in HA. by rewrite !length_fmap in HA. }
  assert (Hroot : exists a, A !! 0%nat = Some a /\ af_type a = T_DIR /\ af_data a = root_data argv).
  { destruct A as [|a A]; [done|]. exists a. unfold view, contents in HA. cbn [fmap list_fmap] in HA. by injection HA as E1 E2 _. }
  destruct Hroot as (a & Ha & Et & Ed). pose proof (root_data_length argv) as Hrl.
  assert (Hrd : rounded (length (root_data argv)) <= 1024 * 268 /\ 0 <= rounded (length (root_data argv))).
  { rewrite Hrl. unfold rounded. Z.to_euclidean_division_equations; lia. }
  constructor.
  - by rewrite (io_len _ (fi_img _ _ Hf)).
  - by eapply fin_sb.
  - rewrite (fin_sb _ _ Hf). unfold iblk. change (sb_logstart layout) with 2. rewrite (fi_low _ _ Hf) by lia. by rewrite decide_False.
  - intros ip. change ROOTINO with (Z.of_nat 0 + 1). destruct (fin_inode A s Hf 0 a ip Ha ltac:(lia)) as (d & _ & _ & _ & E2 & E3 & E4).
    unfold final_size in E2. rewrite decide_True, Ed in E2 by done. rewrite Et in E3. split_and!; try done.
    rewrite (fin_file A s Hf 0 a ip Ha) by (unfold final_size; rewrite ?decide_True, ?Ed by done; lia).
    unfold final_size. by rewrite decide_True, Ed by done.
  - intros k f ip Hk. pose proof (lookup_lt_Some _ _ _ Hk).
    assert (Hfile : exists b, A !! S k = Some b /\ af_type b = T_FILE /\ af_data b = arg_data f).
    { destruct (lookup_lt_is_Some_2 A (S k)) as [b Hb]; [lia|]. exists b. split; [done|].
      assert (Hv : view A !! S k = Some (af_type b, af_data b)) by (unfold view; by rewrite list_lookup_fmap, Hb).
      rewrite HA in Hv. change (contents argv !! S k) with (file_views argv !! k) in Hv. unfold file_views in Hv.
      rewrite list_lookup_fmap, Hk in Hv. by injection Hv. }
    destruct Hfile as (b & Hb & Eb & Edb). replace (Z.of_nat k + 2) with (Z.of_nat (S k) + 1) by lia.
    destruct (fin_inode A s Hf (S k) b ip Hb ltac:(lia)) as (d & _ & _ & _ & E2 & E3 & E4). rewrite Eb in E3.
    split_and!; try done. destruct (fi_inode _ _ Hf _ _ Hb) as [_ Hbl].
    rewrite (fin_file A s Hf (S k) b ip Hb) by (unfold final_size; rewrite ?decide_False by done; lia).
    unfold final_size. rewrite decide_False by done. rewrite Nat2Z.id, <- Edb. by rewrite resize_all.
Qed.

(** ** The blocks in use *)
Lemma used_nodup A : (forall k a, A !! k = Some a -> NoDup (af_used a)) ->
  (forall j k a b x, A !! j = Some a -> A !! k = Some b -> x ∈ af_used a -> x ∈ af_used b -> j = k) ->
  NoDup (A ≫= af_used).
Proof.
  induction A as [|a A IH]; intros Hn Hd; [apply NoDup_nil_2|]. cbn. apply NoDup_app. split_and!.
  - by apply (Hn 0%nat).
  - intros x Hx (b & Hxb & (k & Hk)%list_elem_of_lookup)%list_elem_of_bind. by specialize (Hd 0%nat (S k) a b x eq_refl Hk Hx Hxb).
  - apply IH; [intros k b Hk; by apply (Hn (S k))|]. intros j k b c x Hj Hk Hx Hx'.
    specialize (Hd (S j) (S k) b c x Hj Hk Hx Hx'). lia.
Qed.
Lemma used_length A : (forall a, a ∈ A -> length (af_used a) = Z.to_nat (af_total a)) ->
  Z.of_nat (length (A ≫= af_used)) = sum_total A.
Proof.
  induction A as [|a A IH]; intros H; [done|]. change (sum_total (a :: A)) with (af_total a + sum_total A). cbn [mbind list_bind].
  rewrite length_app, Nat2Z.inj_add, (H a) by by left. rewrite IH by (intros; apply H; by right).
  pose proof (total_pos (nblk (length (af_data a)))). unfold af_total. lia.
Qed.
Lemma nblk_max n : (n <= BS * 268)%nat -> (nblk n <= 268)%nat.
Proof. intros H. unfold nblk. apply Nat.lt_succ_r, Nat.Div0.div_lt_upper_bound. lia. Qed.

Section in_use.
Context (A : list afile) (s : mk) (Hf : finished A s).
Notation img := (mk_img s).
Lemma fin_whole k a : A !! k = Some a -> exists d, whole s d (af_data a) (af_blocks a) (af_ind a).
Proof. intros Hk. destruct (fi_inode _ _ Hf k a Hk) as [(d & _ & Hw & _) _]. by exists d. Qed.
(** every block handed out belongs to a file *)
Lemma used_all b : nmeta <= b < mk_freeblock s <-> exists k a, A !! k = Some a /\ b ∈ af_used a.
Proof.
  assert (Hrange : forall x, x ∈ A ≫= af_used -> x ∈ seqZ nmeta (mk_freeblock s - nmeta)).
  { intros x (a & Hx & (k & Hk)%list_elem_of_lookup)%list_elem_of_bind. destruct (fin_whole k a Hk) as (d & Hw).
    apply elem_of_seqZ. pose proof (whole_owns _ _ _ _ _ x Hw Hx). lia. }
  assert (Hnd : NoDup (A ≫= af_used)).
  { apply used_nodup; [|by apply (fi_disj _ _ Hf)]. intros k a Hk. destruct (fin_whole k a Hk) as (d & ((_ & _ & [Hn _]) & _)). done. }
  assert (Hlen : Z.of_nat (length (A ≫= af_used)) = sum_total A).
  { apply used_length. intros a (k & Hk)%list_elem_of_lookup. destruct (fin_whole k a Hk) as (d & (_ & Ht & Hl)).
    unfold af_used, used, af_total, total. rewrite <- Hl. unfold tight in Ht. repeat case_decide; cbn [length]; try lia; tauto. }
  assert (HP : A ≫= af_used ≡ₚ seqZ nmeta (mk_freeblock s - nmeta)).
  { apply submseteq_length_Permutation; [by apply NoDup_submseteq|]. rewrite length_seqZ, (fi_fb _ _ Hf). lia. }
  split.
  - intros Hb. assert (Hin : b ∈ A ≫= af_used) by (rewrite HP; apply elem_of_seqZ; lia).
    apply list_elem_of_bind in Hin as (a & Hx & (k & Hk)%list_elem_of_lookup). by exists k, a.
  - intros (k & a & Hk & Hb). destruct (fin_whole k a Hk) as (d & Hw). by eapply whole_owns.
Qed.
Lemma uses_iff k a ip b : A !! k = Some a -> Z.of_nat k + 1 < 208 -> b <> 0 ->
  img_uses img (img_inode img (Z.of_nat k + 1) ip) b <-> b ∈ af_used a.
Proof.
  intros Hk Hlt Hb. destruct (fin_inode A s Hf k a ip Hk Hlt) as (d & _ & ((Har & Hd & Ho) & Ht & Hl) & E1 & _).
  assert (Hboot : bget_img img 0 = Some zeroes) by (rewrite (fi_low _ _ Hf) by lia; by rewrite decide_False).
  destruct (fi_inode _ _ Hf k a Hk) as [_ Hmax]. pose proof (nblk_max _ Hmax) as Hn.
  assert (Hbm : forall n, (n < 268)%nat -> img_bmap img (img_inode img (Z.of_nat k + 1) ip) n = default 0 (af_blocks a !! n)).
  { intros n Hn'. by eapply bmap_blocks. }
  unfold img_uses, NDIRECT. rewrite E1, (ar_ind _ _ _ _ Har). split.
  - intros [(n & Hn' & E)|[= E]].
    + rewrite Hbm in E by done. destruct (af_blocks a !! n) as [x|] eqn:Ex; [|by subst b]. cbn in E. subst x.
      by eapply used_blocks, list_elem_of_lookup_2.
    + subst b. by apply used_ind.
  - intros [(n & Hx)%list_elem_of_lookup|[-> _]]%elem_of_used; [left | by right].
    exists n. pose proof (lookup_lt_Some _ _ _ Hx). split; [lia|]. rewrite Hbm by lia. by rewrite Hx.
Qed.
End in_use.

(** C26: in the image mkfs makes, a block is marked in the free map exactly when it is a metadata block or belongs to one
    of the files, as a data block or as the indirect block, and no block belongs to two files *)
Theorem mkfs_bitmap argv : args_ok argv -> wp (mkfs_main argv) [] mkfs_start (fun _ _ s => forall b ip, 0 <= b < FSSIZE ->
  (marked (mk_img s) b = true <-> b < nmeta \/ exists i, 1 <= i <= length argv + 1 /\ img_uses (mk_img s) (img_inode (mk_img s) i ip) b) /\
  forall i j, nmeta <= b -> 1 <= i <= length argv + 1 -> 1 <= j <= length argv + 1 ->
    img_uses (mk_img s) (img_inode (mk_img s) i ip) b -> img_uses (mk_img s) (img_inode (mk_img s) j ip) b -> i = j).
Proof.
  intros Hok. eapply wp_mono; [by apply wp_mkfs_main|]. intros [] e s (A & Hf & HA) b ip Hb. destruct Hok as (_ & Hn & _).
  assert (HlenA : length A = S (length argv)).
  { apply (f_equal length) in HA. unfold view, contents, file_views in HA. cbn [length] in HA. by rewrite !length_fmap in HA. }
  assert (Hfile : forall i, 1 <= i <= length argv + 1 -> nmeta <= b -> exists k a, i = Z.of_nat k + 1 /\ A !! k = Some a /\
    (img_uses (mk_img s) (img_inode (mk_img s) i ip) b <-> b ∈ af_used a)).
  { intros i Hi Hbm. destruct (lookup_lt_is_Some_2 A (Z.to_nat (i - 1))) as [a Ha]; [lia|]. exists (Z.to_nat (i - 1)), a.
    assert (Ei : i = Z.of_nat (Z.to_nat (i - 1)) + 1) by lia. split_and!; [done | done |]. rewrite Ei at 1.
    apply (uses_iff A s Hf); try done; [lia|]. rewrite nmeta_val in Hbm. lia. }
  split.
  - assert (Hmark : marked (mk_img s) b = true <-> b < mk_freeblock s).
    { unfold marked. rewrite (fin_sb _ _ Hf). unfold iblk. change (sb_bmapstart layout) with 45. rewrite (fi_bitmap _ _ Hf).
      pose proof (io_fb _ (fi_img _ _ Hf)) as Hfb. unfold FSSIZE in *.
      destruct (bitmap_bits (Z.to_nat (mk_freeblock s)) (Z.to_nat b) ltac:(lia) ltac:(lia)) as (_ & _ & Hbit).
      rewrite Z2Nat.id in Hbit by lia. rewrite Z2Nat.inj_div by lia. change (Z.to_nat 8) with 8%nat.
      change (default [] (Some (foldl mark zeroes (seq 0 (Z.to_nat (mk_freeblock s))))))
        with (foldl mark zeroes (seq 0 (Z.to_nat (mk_freeblock s)))).
      rewrite Hbit, bool_decide_eq_true. lia. }
    rewrite Hmark. destruct (decide (b < nmeta)) as [Hlt|Hge].
    { pose proof (io_fb _ (fi_img _ _ Hf)). split; [by left | lia]. }
    assert (Hall := used_all A s Hf b). split.
    + intros Hlt. right. destruct (proj1 Hall) as (k & a & Hk & Ha); [lia|]. pose proof (lookup_lt_Some _ _ _ Hk).
      exists (Z.of_nat k + 1). split; [lia|]. apply (uses_iff A s Hf k a); try done; [lia|]. rewrite nmeta_val in Hge. lia.
    + intros [?|(i & Hi & Hu)]; [lia|]. destruct (Hfile i Hi ltac:(lia)) as (k & a & _ & Hk & Hiff).
      assert (nmeta <= b < mk_freeblock s); [|lia]. apply Hall. exists k, a. split; [done | by apply Hiff].
  - intros i j Hbm Hi Hj Ui Uj. destruct (Hfile i Hi Hbm) as (k & a & -> & Hk & Ha). destruct (Hfile j Hj Hbm) as (k' & a' & -> & Hk' & Ha').
    assert (k = k') as ->; [|done]. eapply (fi_disj _ _ Hf k k' a a' b); [done | done | by apply Ha | by apply Ha'].
Qed.

(** ** The log of the image

    [initlog] takes the size of the log from the super block; it counts the header
    block, and mkfs makes it [LOGSIZE], so one block fewer than [begin_op] reserves
    fits. *)
Definition crowded_run : list tevent :=
  [EBegin; EBegin; EBegin] ++ (EWrite 0 <$> seqZ 100 10) ++ (EWrite 1 <$> seqZ 110 10) ++ (EWrite 2 <$> seqZ 120 9).
Definition crowded : txn := mktxn (seqZ 100 29) [seqZ 100 10; seqZ 110 10; seqZ 120 9] false.
Lemma crowded_reach : reach crowded.
Proof. apply (trun_reach crowded_run). by vm_compute. Qed.

(** C24: in the log that mkfs lays out three operations that [begin_op] has admitted can log 29 blocks between them, one
    of them only 9 of the 10 it may log, and the next log_write panics *)
Theorem log_one_block_short b e s :
  log_rep (log_of s) crowded -> log_size (log_of s) = s32 (sb_nlog mkfs_sb) -> hart_ok 1 (k_hw s) -> lock_free (k_hw s) LLog ->
  reach crowded /\ (exists ws, t_ops crowded !! 2%nat = Some ws /\ length ws < MAXOPBLOCKS) /\
  dies (log_write b) e s "too big a transaction".
Proof.
  intros Hrep Hsz Hok Hlk. split_and!; [apply crowded_reach | by eexists |].
  apply log_write_full; [done..|]. rewrite (lr_n _ _ Hrep), Hsz. by vm_compute.
Qed.

(** ** An image with two files, the second with an indirect block *)
Definition demo_argv : args :=
  [(chars "user/_cat", Some [replicate 1024 7; replicate 10 8]); (chars "README", Some (replicate 14 (replicate 1000 9)))].
Lemma demo_args_ok : args_ok demo_argv.
Proof.
  assert (Hf : forall f, bool_decide (slash ∉ shortname f.1) = true -> f.2 <> None ->
    (Z.of_nat (length (arg_data f)) <=? 274432) = true -> arg_ok f).
  { intros f H1 H2 H3. apply bool_decide_eq_true in H1. apply Z.leb_le in H3. split_and!; [done | done | lia]. }
  split_and!.
  - constructor; [|constructor; [|done]]; (apply Hf; [by vm_compute | done | by vm_compute]).
  - cbn. lia.
  - apply Z.leb_le. by vm_compute.
Qed.
Lemma mkfs_image_witness : args_ok demo_argv /\
  wp (mkfs_main demo_argv) [] mkfs_start (fun _ _ s => image_ok demo_argv (mk_img s)).
Proof. split; [exact demo_args_ok | apply mkfs_image, demo_args_ok]. Defined.
Lemma mkfs_bitmap_witness : wp (mkfs_main demo_argv) [] mkfs_start (fun _ _ s => forall b ip, 0 <= b < FSSIZE ->
  (marked (mk_img s) b = true <-> b < nmeta \/ exists i, 1 <= i <= length demo_argv + 1 /\ img_uses (mk_img s) (img_inode (mk_img s) i ip) b) /\
  forall i j, nmeta <= b -> 1 <= i <= length demo_argv + 1 -> 1 <= j <= length demo_argv + 1 ->
    img_uses (mk_img s) (img_inode (mk_img s) i ip) b -> img_uses (mk_img s) (img_inode (mk_img s) j ip) b -> i = j).
Proof. apply mkfs_bitmap, demo_args_ok. Defined.

Definition crowded_log : logst := mklog 2 30 3 0 1 29 (seqZ 100 29 ++ [0]).
Lemma log_one_block_short_witness :
  reach crowded /\ (exists ws, t_ops crowded !! 2%nat = Some ws /\ length ws < MAXOPBLOCKS) /\
  dies (log_write 0) [] (with_log boot crowded_log) "too big a transaction".
Proof.
  apply (log_one_block_short 0 [] (with_log boot crowded_log)).
  - constructor; reflexivity.
  - reflexivity.
  - by apply boot_hart.
  - by apply boot_lock.
Defined.
